(* ===== verification/_CoqProject ===== *)
-Q . S2P
Prelude.v
LoraCodec.v
LoraCrcFacts.v
LoraCrc.v
LoraFec.v
LoraFrame.v
LoraLink.v
LoraDecoder.v
LoraDecoderFacts.v
LoraEndToEnd.v
CxReal.v
LoraFront.v
LoraSignal.v
LoraWave.v
LoraSync.v
LoraReceive.v
LoraSoft.v
Protobuf.v
PbMessage.v
CString.v
CFloat.v
MeshEvent.v
Meshtastic.v
Keyset.v
MeshPacket.v
MeshPacketFacts.v
MeshTelemetry.v
MeshDecoders.v
MeshDecodersFacts.v
MeshCoreLpp.v
MeshCore.v
FrameQueue.v
PskDict.v
MeshCoreRegion.v
MeshCoreDecoders.v
MeshCoreFacts.v
MeshCoreTrust.v
Dedup.v
Pipeline.v
PipelineFacts.v
PipelineRings.v
IqRing.v
Json.v
Jw.v
NodeDb.v
Geofence.v
Feed.v
FeedMeshCore.v
FeedPublish.v
Ddc.v
Focused.v
FocusedFacts.v
FocusPool.v
IqSnapshot.v
Vita49.v
HashtagDict.v
Pfb.v
CountedQueue.v
PfbSinks.v
Channelizer.v
ChannelSet.v
ChannelSetFacts.v
HttpText.v
ShareUrl.v
SseHub.v
ExtraFreq.v
C2.v
WebServer.v
Scanner.v
Cot.v
Gpsd.v
C2Dealer.v
Webhook.v
PcapOut.v
SamplePump.v
IqFile.v
Receiver.v
Stats.v
DbStore.v
Recover.v
