(* ===== verification/Prelude.v ===== *)
(** * meshcore-sniffer: a verification development

    meshcore-sniffer receives LoRa transmissions with a software radio and
    decodes the Meshtastic and MeshCore meshes on them.  Samples come in from
    a device or a VITA 49 stream, are kept in a ring, are split into channels
    and fed to one LoRa decoder per channel; decoded frames are deduplicated,
    parsed, decrypted with the configured keys, stamped and published as lines
    of JSON.  Background threads guess keys of frames nobody could decrypt,
    re-decode promising channels from the ring, and save raw samples.

    ** Files and the code they model

    - Prelude: fixed-width integers, bytes, lists, the tactics and the hint
      database [mesh] shared by every file.
    - LoraCodec, LoraCrcFacts, LoraCrc, LoraFec: whitening, Gray and Hamming
      codes, interleaver, CRC16 and its one- and two-bit repair (src/lora.c).
    - LoraFrame, LoraLink: header, symbol counts, nibble assembly and delivery
      of src/lora.c, against a reference transmitter.
    - LoraDecoder, LoraDecoderFacts, LoraEndToEnd: the decoder's state machine
      (state_tick, lora_decoder_feed).  What the floating-point front end
      reports for a symbol is an argument ([tick_obs]).
    - CxReal, LoraFront, LoraSignal, LoraWave, LoraSync, LoraReceive: the
      front end of src/lora.c (chirps, dechirping and peak search, carrier,
      timing and drift estimates) over a class of numeric operations, the
      decoder fed sample by sample, and the waveform of a transmitter; the
      theorems instantiate the class with exact real and complex numbers and
      the discrete Fourier transform.
    - LoraSoft: soft-decision decoding (src/lora.c).
    - Protobuf, PbMessage: the wire-format reader (src/protobuf.c) and the
      field loops built on it.
    - CString, CFloat: the C library as used: bounded copies, number
      formatting, gmtime, IEEE arithmetic and printing.
    - MeshEvent, Meshtastic, Keyset, MeshPacket, MeshTelemetry, MeshDecoders
      and their Facts: the Meshtastic side (src/mesh_packet.c, keyset.c,
      meshtastic.c, mesh_decoders.c).
    - MeshCore, MeshCoreLpp, MeshCoreRegion, MeshCoreDecoders, MeshCoreFacts,
      MeshCoreTrust: the MeshCore side (src/meshcore*.c).
    - FrameQueue, PskDict, HashtagDict: the queues and the two dictionary
      threads (src/psk_dict.c, meshcore_hashtag_dict.c).
    - Dedup, Pipeline, PipelineRings: replica deduplication (src/dedup.c) and
      the path from a drained cluster to the published event, replay flags and
      SNR history (src/main.c).
    - Json, Jw, NodeDb, Geofence, Feed, FeedMeshCore, FeedPublish: the JSON writer, node cache, geofences and the event feed
      (src/jw.c, node_db.c, geofence.c, feed.c, feed_meshcore_*.c).
    - DbStore, Recover: the SQLite store as tables of rows (src/db_sqlite.c) and
      the five passes that decode stored rows again (src/meshcore_redecrypt.c,
      crc_recover.c, meshcore_region_recover.c, meshcore_lpp_recover.c,
      meshcore_control_recover.c).
    - IqRing, Ddc, Focused, FocusPool, IqSnapshot, Vita49: the sample ring,
      the focused workers with their down-converter, the dispatcher that arms
      them, raw-sample snapshots and the VITA 49 receiver (src/iq_ring.c,
      focused.c, main.c, iq_snapshot.c, vita49.c).
    - Pfb, CountedQueue, PfbSinks, Channelizer: the polyphase filter bank over
      an abstract complex arithmetic, its sink worker pool as interleaved
      steps, and the channelizer that groups channels into banks (src/pfb.c,
      channelizer.c).
    - ChannelSet, ChannelSetFacts: from region and presets to the
      registered channels and their decoders (src/meshtastic.h, main.c), in
      double arithmetic that is shown exact where it matters.
    - HttpText, ShareUrl, SseHub, WebServer: the dashboard's
      server (src/web.c): numbers in C strings, requests, token, queries, share links, event
      streams, routing.
    - ExtraFreq, C2, C2Dealer: remote commands (src/c2.c), the two
      parsers of extra frequencies, and the commands' ZeroMQ transport
      (src/c2_dealer.c).
    - Scanner: the search for carriers off the grid
      (src/scanner.c), in single precision over a given FFT.
    - Cot: positions as Cursor-on-Target events (src/cot.c).
    - Gpsd: the reader of gpsd's report stream (src/gpsd.c).
    - SamplePump, IqFile, Receiver: the input path (src/main.c,
      file_src.c): recording and replaying samples, the bounded queue to the
      processing thread, what one buffer does to every consumer, and the
      composition from a recording to the channels.
    - Webhook, PcapOut, Stats: requests to a web hook (src/webhook.c), capture
      files (src/pcap_out.c), the heartbeat's lines and the watchdog
      (src/main.c).

    Definitions keep the names of the C functions.  A C buffer with a length
    is a list; an int or unsigned is a [Z] with its wrap-around written out
    ([u8] ... [u64]); a float is a [spec_float].  A mutex makes a call atomic;
    where two threads interleave (the ring's writer and a focused worker, a
    snapshot or the drainer) the code between two accesses to shared state is
    a step, and theorems quantify over sequences of steps.  A loop whose
    recursion is not structural has fuel that a lemma shows to be enough: the
    length of the input for parsers ([pb_message_fuel]), the number of polls
    for the snapshot writer ([polls_enough]), the table size for the geofence
    probe, [phases_left] for a draining worker.

    ** What the theorems show

    - Link layer: receiving inverts a reference transmitter for every rate,
      the decoder's state machine delivers the transmitted frame and keeps its
      buffers in bounds on every input; the linear-time CRC repair equals the
      search over all bit pairs.
    - Physical layer: from the samples of a noisy frame with an unknown
      carrier and timing offset the decoder finds the preamble, aligns itself
      and delivers the payload; the soft decisions of such a frame are the
      payload too.
    - Packets: well-formed frames of both meshes are decoded to what was sent;
      the key used is the first that fits; readers stay inside their input.
    - Trust: content is published as decrypted only when a good CRC or an
      independent authentication vouches for it, and otherwise no sink prints
      it (pipeline and feed composed).
    - Stores: key store, channel set, node cache, geofence table, replay ring,
      SNR history, sample ring and queues refine the map, list or window they
      stand for.
    - Persistence: a row decrypted after its key became known is the row the
      live receiver would have stored; a recovered checksum never lets an
      unauthenticated message in; a restart restores the node cache; a page of
      history is complete and never cut.
    - Threads: a focused worker feeds unbroken pieces of the stream and ends
      once stopped; promotions are routed once; snapshots are the window they
      claim; dictionary discoveries are sound and complete.
    - Channels: a filter bank's bin is the down-converted, filtered and
      decimated input; every channel receives its bin, in order, through the
      worker pool; the channel set is the configured grid.
    - Input: every consumer of the samples sees the same whole stream, the
      pump loses and reorders nothing and drains, a recording replays as what
      was recorded, up to the channels.
    - Outputs: webhook requests go out once, in order and as valid JSON, a
      capture file reads back as the frames written, the statistics lines are
      JSON and plot what was measured.
    - Remote control: the HTTP API is the command set behind the token, a
      request is received whole however it is segmented, every command keeps
      the receiver's state well formed and runs the same over every
      transport, share links give back their channels, event streams are
      whole frames in order.
    - Scanner, GPS and CoT: reports name off-grid carriers apart from each
      other; the fix does not depend on how the stream is cut; received text
      never changes the markup of an event.
    - Defects: where the code does not do what it says, a theorem states what
      it does (the findings of the manifest name them).

    ** Parameters

    AES, HMAC, SHA-256, Ed25519 and base64 (OpenSSL), libm and the FIR window,
    file, socket and database outcomes, row order where SQL leaves it open,
    clocks and thread creation are arguments, with
    the laws a theorem needs as hypotheses and an instance in its witness.

    ** Not modelled

    The rounding of the front end: its definitions are over given float,
    double and FFTW operations, the theorems about signals over exact ones,
    for one sample per chip (the resampling of oversampled channels is
    defined, not proved).  The SIMD kernels restate loops of the filter bank;
    the device back ends are thin wrappers of vendor libraries; of db_sqlite.c
    the opening and migration of the file and the grouped statistics queries;
    mqtt.c, zmq_pub.c and their like are I/O over external libraries; fusion
    and wardrive are separate Go programs.  The command line's remaining
    options and the offline recovery programs are left out. *)

From Stdlib Require Export ZArith Lia Btauto.
From stdpp Require Export base tactics numbers list.
From coqutil Require Export Datatypes.RecordSetters.
Export DoubleBraceUpdate.

Local Open Scope Z_scope.
Set Default Proof Using "Type".

(** ** Machine integers

    A w-bit unsigned C value is a [Z] in [0, 2^w); a conversion to the type
    is reduction modulo 2^w.  A signed value is a [Z] in two's complement. *)
Definition wrap (w z : Z) : Z := z mod 2 ^ w.
Definition u8 : Z -> Z := wrap 8.
Definition u16 : Z -> Z := wrap 16.
Definition u32 : Z -> Z := wrap 32.
Definition u64 : Z -> Z := wrap 64.
Definition swrap (w z : Z) : Z := (z + 2 ^ (w - 1)) mod 2 ^ w - 2 ^ (w - 1).
Definition i8 : Z -> Z := swrap 8.
Definition i16 : Z -> Z := swrap 16.
Definition i32 : Z -> Z := swrap 32.
Definition i64 : Z -> Z := swrap 64.

(** A C condition on a masked value, [if (x & mask)]. *)
Definition nz (z : Z) : bool := negb (z =? 0).

(** The byte range, on values and on buffers. *)
Definition is_byte (b : Z) : Prop := 0 <= b < 256.
Definition bytes_ok (l : list Z) : Prop := Forall is_byte l.

#[export] Instance is_byte_dec b : Decision (is_byte b).
Proof. unfold is_byte. apply _. Defined.
#[export] Instance bytes_ok_dec l : Decision (bytes_ok l).
Proof. unfold bytes_ok. apply _. Defined.

(** Buffer access [p[i]]: in range where the C code reads it; the default is
    only reached out of range. *)
Definition at_ (l : list Z) (i : nat) : Z := nth i l 0.

(** Little-endian loads, as written in rd_le16 / rd_le32 and as memcpy into
    an integer does on the little-endian targets of the program. *)
Definition rd_le16 (p : list Z) : Z := Z.lor (at_ p 0) (Z.shiftl (at_ p 1) 8).
Definition rd_le32 (p : list Z) : Z :=
  Z.lor (Z.lor (Z.lor (at_ p 0) (Z.shiftl (at_ p 1) 8)) (Z.shiftl (at_ p 2) 16))
        (Z.shiftl (at_ p 3) 24).
Fixpoint le_combine (p : list Z) : Z :=
  match p with
  | [] => 0
  | b :: t => Z.lor b (Z.shiftl (le_combine t) 8)
  end.

(** ** Tactics *)

(** Splits every boolean comparison of the goal and context into its Prop. *)
Ltac zb :=
  repeat match goal with
  | H : (_ && _) = true |- _ => apply andb_prop in H; destruct H
  | H : (_ || _) = false |- _ => apply orb_false_elim in H; destruct H
  | H : negb _ = true |- _ => apply negb_true_iff in H
  | H : negb _ = false |- _ => apply negb_false_iff in H
  | H : (_ =? _) = true |- _ => apply Z.eqb_eq in H
  | H : (_ =? _) = false |- _ => apply Z.eqb_neq in H
  | H : (_ <? _) = true |- _ => apply Z.ltb_lt in H
  | H : (_ <? _) = false |- _ => apply Z.ltb_ge in H
  | H : (_ <=? _) = true |- _ => apply Z.leb_le in H
  | H : (_ <=? _) = false |- _ => apply Z.leb_gt in H
  | H : (_ =? _)%nat = true |- _ => apply Nat.eqb_eq in H
  | H : (_ =? _)%nat = false |- _ => apply Nat.eqb_neq in H
  | H : (_ <? _)%nat = true |- _ => apply Nat.ltb_lt in H
  | H : (_ <? _)%nat = false |- _ => apply Nat.ltb_ge in H
  | H : (_ <=? _)%nat = true |- _ => apply Nat.leb_le in H
  | H : (_ <=? _)%nat = false |- _ => apply Nat.leb_gt in H
  end.

(** Case analysis on the outermost [if] / [match] scrutinee of the goal. *)
Ltac case_if :=
  match goal with
  | |- context [if ?b then _ else _] => let E := fresh "E" in destruct b eqn:E
  end.

(** Projections of a record update. *)
Ltac rcbn := cbn [fst snd]; try record.simp_goal.

(** A decidable closed proposition, by evaluation. *)
Ltac by_decide := apply (bool_decide_unpack _); vm_compute; exact I.

(** A concrete buffer holds bytes. *)
Ltac bytes_tac := unfold bytes_ok; repeat (apply Forall_cons_2; [unfold is_byte; lia|]); apply Forall_nil_2.

(** ** Bits of machine integers *)

Create HintDb mesh discriminated.
Create Rewrite HintDb mesh_bits.

Lemma wrap_land w z : 0 <= w -> wrap w z = Z.land z (Z.ones w).
Proof. intros. symmetry. by apply Z.land_ones. Qed.

Lemma wrap_range w z : 0 <= w -> 0 <= wrap w z < 2 ^ w.
Proof. intros. apply Z.mod_pos_bound. by apply Z.pow_pos_nonneg. Qed.

Lemma wrap_small w z : 0 <= z < 2 ^ w -> wrap w z = z.
Proof. intros. by apply Z.mod_small. Qed.

Lemma wrap_bits w z i :
  0 <= w -> 0 <= i -> Z.testbit (wrap w z) i = (i <? w) && Z.testbit z i.
Proof.
  intros. rewrite wrap_land, Z.land_spec by lia.
  rewrite Z.testbit_ones_nonneg by lia. apply andb_comm.
Qed.

(** A value is below 2^w exactly when it has no bit at or above w. *)
Lemma bits_range w z :
  0 <= w -> 0 <= z -> (forall i, w <= i -> Z.testbit z i = false) -> z < 2 ^ w.
Proof.
  intros Hw Hz Hb. destruct (Z.eq_dec z 0) as [-> | Hne]; [by apply Z.pow_pos_nonneg|].
  apply Z.log2_lt_pow2; [lia|]. destruct (Z.lt_ge_cases (Z.log2 z) w) as [|Hge]; [done|].
  specialize (Hb _ Hge). rewrite Z.bit_log2 in Hb by lia. done.
Qed.

Lemma bits_above w z i : 0 <= z < 2 ^ w -> w <= i -> Z.testbit z i = false.
Proof.
  intros Hz Hi. destruct (Z.lt_ge_cases w 0).
  - rewrite Z.pow_neg_r in Hz by done. lia.
  - rewrite <- (wrap_small w z Hz), wrap_bits by lia.
    by replace (i <? w) with false by (symmetry; apply Z.ltb_ge; lia).
Qed.

Lemma lxor_range w a b :
  0 <= w -> 0 <= a < 2 ^ w -> 0 <= b < 2 ^ w -> 0 <= Z.lxor a b < 2 ^ w.
Proof.
  intros Hw Ha Hb.
  assert (0 <= Z.lxor a b) by (apply Z.lxor_nonneg; lia). split; [done|].
  apply bits_range; [lia|done|]. intros i Hi.
  by rewrite Z.lxor_spec, !(bits_above w) by done.
Qed.

Lemma lor_range w a b :
  0 <= w -> 0 <= a < 2 ^ w -> 0 <= b < 2 ^ w -> 0 <= Z.lor a b < 2 ^ w.
Proof.
  intros Hw Ha Hb.
  assert (0 <= Z.lor a b) by (apply Z.lor_nonneg; lia). split; [done|].
  apply bits_range; [lia|done|]. intros i Hi.
  by rewrite Z.lor_spec, !(bits_above w) by done.
Qed.

Lemma land_range w a b : 0 <= w -> 0 <= b < 2 ^ w -> 0 <= Z.land a b < 2 ^ w.
Proof.
  intros Hw Hb.
  assert (0 <= Z.land a b) by (apply Z.land_nonneg; lia). split; [done|].
  apply bits_range; [lia|done|]. intros i Hi.
  rewrite Z.land_spec, (bits_above w b) by done. apply andb_false_r.
Qed.

Lemma shiftl_range w k a :
  0 <= k <= w -> 0 <= a < 2 ^ (w - k) -> 0 <= Z.shiftl a k < 2 ^ w.
Proof.
  intros Hk Ha. rewrite Z.shiftl_mul_pow2 by lia.
  replace w with (w - k + k) by lia. rewrite Z.pow_add_r by lia.
  assert (0 < 2 ^ k) by (apply Z.pow_pos_nonneg; lia). nia.
Qed.

Lemma wrap_lxor w a b :
  0 <= w -> wrap w (Z.lxor a b) = Z.lxor (wrap w a) (wrap w b).
Proof.
  intros. apply Z.bits_inj'. intros i Hi.
  rewrite Z.lxor_spec, !wrap_bits, Z.lxor_spec by lia. by destruct (i <? w).
Qed.

Lemma lxor_cancel_l a b : Z.lxor a (Z.lxor a b) = b.
Proof. by rewrite <- Z.lxor_assoc, Z.lxor_nilpotent, Z.lxor_0_l. Qed.

Lemma lxor_eq_swap a b c : Z.lxor a b = c <-> b = Z.lxor a c.
Proof. split; [intros <- | intros ->]; by rewrite lxor_cancel_l. Qed.

Lemma lxor_swap_middle a b c d :
  Z.lxor (Z.lxor a b) (Z.lxor c d) = Z.lxor (Z.lxor a c) (Z.lxor b d).
Proof. Z.bitwise. btauto. Qed.

#[export] Hint Resolve lxor_range lor_range land_range wrap_range : mesh.
#[export] Hint Rewrite Z.lxor_spec Z.lor_spec Z.land_spec Z.bits_0 : mesh_bits.

(** ** Lists *)

(** Pointwise XOR of two buffers of the same length. *)
Definition xor_list (a b : list Z) : list Z := zip_with Z.lxor a b.

Lemma xor_list_length a b : length a = length b -> length (xor_list a b) = length a.
Proof. intros. unfold xor_list. rewrite length_zip_with. lia. Qed.

Lemma bytes_ok_app a b : bytes_ok (a ++ b) <-> bytes_ok a /\ bytes_ok b.
Proof. apply Forall_app. Qed.

Lemma bytes_ok_take n l : bytes_ok l -> bytes_ok (take n l).
Proof. apply Forall_take. Qed.

Lemma bytes_ok_drop n l : bytes_ok l -> bytes_ok (drop n l).
Proof. apply Forall_drop. Qed.

Lemma at_byte l i : bytes_ok l -> is_byte (at_ l i).
Proof.
  intros H. unfold at_. destruct (nth_in_or_default i l 0) as [Hin | ->].
  - unfold bytes_ok in H. rewrite List.Forall_forall in H. by apply H.
  - done.
Qed.

Lemma at_lookup l i : (i < length l)%nat -> l !! i = Some (at_ l i).
Proof.
  intros Hi. unfold at_. destruct (l !! i) as [x|] eqn:E.
  - by rewrite (nth_lookup_Some _ _ _ _ E).
  - apply lookup_ge_None in E. lia.
Qed.

Lemma at_app_l a b i : (i < length a)%nat -> at_ (a ++ b) i = at_ a i.
Proof. apply app_nth1. Qed.

Lemma at_app_r a b i : (length a <= i)%nat -> at_ (a ++ b) i = at_ b (i - length a).
Proof. apply app_nth2. Qed.

Lemma at_take l n i : (i < n)%nat -> at_ (take n l) i = at_ l i.
Proof.
  unfold at_. revert n i. induction l as [|x l IH]; intros [|n] [|i] Hi; try lia; cbn; auto.
  apply IH; lia.
Qed.

Lemma at_drop l n i : at_ (drop n l) i = at_ l (n + i).
Proof. unfold at_. revert n. induction l as [|x l IH]; intros [|n]; cbn; auto. by destruct i. Qed.

#[export] Hint Resolve bytes_ok_take bytes_ok_drop at_byte : mesh.

(** The first success of a search in order. *)
Fixpoint first_some {A B} (f : A -> option B) (l : list A) : option B :=
  match l with
  | [] => None
  | x :: t => match f x with Some y => Some y | None => first_some f t end
  end.

Lemma first_some_app {A B} (f : A -> option B) pre x post y :
  Forall (fun a => f a = None) pre -> f x = Some y -> first_some f (pre ++ x :: post) = Some y.
Proof. intros Hp Hx. induction Hp as [|a pre Ha Hp IH]; cbn [app first_some]; [by rewrite Hx|by rewrite Ha]. Qed.

Lemma first_some_None {A B} (f : A -> option B) l :
  first_some f l = None <-> Forall (fun a => f a = None) l.
Proof.
  induction l as [|a l IH]; cbn [first_some]; [done|]. rewrite Forall_cons. destruct (f a) eqn:E.
  - split; [done|]. by intros [? _].
  - rewrite IH. tauto.
Qed.

Lemma first_some_Some {A B} (f : A -> option B) l y :
  first_some f l = Some y ->
  exists pre x post, l = pre ++ x :: post /\ Forall (fun a => f a = None) pre /\ f x = Some y.
Proof.
  induction l as [|a l IH]; cbn [first_some]; [done|]. destruct (f a) eqn:E.
  - intros [= <-]. by exists [], a, l.
  - intros H. destruct (IH H) as (pre & x & post & -> & Hp & Hx). exists (a :: pre), x, post.
    split; [done|]. split; [by constructor|done].
Qed.

Lemma omap_ext_in {B C} (f g : B -> option C) l : (forall b, In b l -> f b = g b) -> omap f l = omap g l.
Proof.
  induction l as [|b l IH]; [done|]. intros H. cbn [omap list_omap]. rewrite (H b) by (by left).
  rewrite IH by (intros c Hc; apply H; by right). done.
Qed.
