(* ===== verification/LoraCodec.v ===== *)
(** LoRa bit-level codec (src/lora.c, lines 227-516): whitening, Gray mapping,
    Hamming decode, CRC-16 with the single-bit and two-bit brute-force
    recovery, and the diagonal deinterleaver.  Each stage is a pure function
    of the source; the transmitter side of each stage ([lora_*_ref]) is the
    reference the theorems compare it with. *)

From stdpp Require Import gmap.
From S2P Require Import Prelude.

Local Open Scope Z_scope.

(** ** Whitening (lora_dewhiten) *)

Definition LORA_WHITEN : list Z :=
  [0xff; 0xfe; 0xfc; 0xf8; 0xf0; 0xe1; 0xc2; 0x85; 0x0b; 0x17; 0x2f; 0x5e; 0xbc; 0x78; 0xf1; 0xe3;
   0xc6; 0x8d; 0x1a; 0x34; 0x68; 0xd0; 0xa0; 0x40; 0x80; 0x01; 0x02; 0x04; 0x08; 0x11; 0x23; 0x47;
   0x8e; 0x1c; 0x38; 0x71; 0xe2; 0xc4; 0x89; 0x12; 0x25; 0x4b; 0x97; 0x2e; 0x5c; 0xb8; 0x70; 0xe0;
   0xc0; 0x81; 0x03; 0x06; 0x0c; 0x19; 0x32; 0x64; 0xc9; 0x92; 0x24; 0x49; 0x93; 0x26; 0x4d; 0x9b;
   0x37; 0x6e; 0xdc; 0xb9; 0x72; 0xe4; 0xc8; 0x90; 0x20; 0x41; 0x82; 0x05; 0x0a; 0x15; 0x2b; 0x56;
   0xad; 0x5b; 0xb6; 0x6d; 0xda; 0xb5; 0x6b; 0xd6; 0xac; 0x59; 0xb2; 0x65; 0xcb; 0x96; 0x2c; 0x58;
   0xb0; 0x61; 0xc3; 0x87; 0x0f; 0x1f; 0x3e; 0x7d; 0xfb; 0xf6; 0xed; 0xdb; 0xb7; 0x6f; 0xde; 0xbd;
   0x7a; 0xf5; 0xeb; 0xd7; 0xae; 0x5d; 0xba; 0x74; 0xe8; 0xd1; 0xa2; 0x44; 0x88; 0x10; 0x21; 0x43;
   0x86; 0x0d; 0x1b; 0x36; 0x6c; 0xd8; 0xb1; 0x63; 0xc7; 0x8f; 0x1e; 0x3c; 0x79; 0xf3; 0xe7; 0xce;
   0x9c; 0x39; 0x73; 0xe6; 0xcc; 0x98; 0x31; 0x62; 0xc5; 0x8b; 0x16; 0x2d; 0x5a; 0xb4; 0x69; 0xd2;
   0xa4; 0x48; 0x91; 0x22; 0x45; 0x8a; 0x14; 0x29; 0x52; 0xa5; 0x4a; 0x95; 0x2a; 0x54; 0xa9; 0x53;
   0xa7; 0x4e; 0x9d; 0x3b; 0x77; 0xee; 0xdd; 0xbb; 0x76; 0xec; 0xd9; 0xb3; 0x67; 0xcf; 0x9e; 0x3d;
   0x7b; 0xf7; 0xef; 0xdf; 0xbf; 0x7e; 0xfd; 0xfa; 0xf4; 0xe9; 0xd3; 0xa6; 0x4c; 0x99; 0x33; 0x66;
   0xcd; 0x9a; 0x35; 0x6a; 0xd4; 0xa8; 0x51; 0xa3; 0x46; 0x8c; 0x18; 0x30; 0x60; 0xc1; 0x83; 0x07;
   0x0e; 0x1d; 0x3a; 0x75; 0xea; 0xd5; 0xaa; 0x55; 0xab; 0x57; 0xaf; 0x5f; 0xbe; 0x7c; 0xf9; 0xf2;
   0xe5; 0xca; 0x94; 0x28; 0x50; 0xa1; 0x42; 0x84; 0x09; 0x13; 0x27; 0x4f; 0x9f; 0x3f; 0x7f; 0x00].

Fixpoint dewhiten_loop (data w : list Z) : list Z :=
  match data, w with
  | b :: t, x :: xs => Z.lxor b x :: dewhiten_loop t xs
  | _, _ => data
  end.

(** XORs the first [min len 256] bytes of [data]; later bytes are untouched. *)
Definition lora_dewhiten (data : list Z) (len : nat) : list Z :=
  dewhiten_loop (take len data) LORA_WHITEN ++ drop len data.

(** ** Gray mapping *)

Definition lora_gray_decode (s : Z) : Z := u16 (Z.lxor s (Z.shiftr s 1)).

(** [while (s) { b ^= s; s >>= 1; }]: 16 rounds empty a 16-bit [s]. *)
Fixpoint gray_encode_loop (fuel : nat) (b s : Z) : Z :=
  match fuel with
  | O => b
  | S k => if s =? 0 then b else gray_encode_loop k (Z.lxor b s) (Z.shiftr s 1)
  end.

Definition lora_gray_encode (s : Z) : Z := gray_encode_loop 16 s (Z.shiftr s 1).

(** ** Hamming decode *)

(** Bit [i] of the codeword, MSB first over [cw_len] bits. *)
Definition cw_bit (cw cw_len i : Z) : Z := Z.land (Z.shiftr cw (cw_len - 1 - i)) 1.

(** Returns the data nibble and the value left in [*err]. *)
Definition lora_hamming_decode (cw cr : Z) : Z * Z :=
  let err := 0 in
  let cr_app := cr - 4 in
  let cr_app := if cr_app <? 1 then 1 else cr_app in
  let cr_app := if cr_app >? 4 then 4 else cr_app in
  let cw_len := cr_app + 4 in
  let b := cw_bit cw cw_len in
  let total := fold_left (fun t i => t + b (Z.of_nat i)) (seq 0 (Z.to_nat cw_len)) 0 in
  let d0 := b 0 in let d1 := b 1 in let d2 := b 2 in let d3 := b 3 in
  let s0 := Z.lxor (Z.lxor (Z.lxor (b 0) (b 1)) (b 2)) (b 4) in
  let s1 := Z.lxor (Z.lxor (Z.lxor (b 1) (b 2)) (b 3)) (b 5) in
  let s2 := Z.lxor (Z.lxor (Z.lxor (b 0) (b 1)) (b 3)) (b 6) in
  let syndrome :=
    if ((cr_app =? 4) && negb (total mod 2 =? 0)) || (cr_app =? 3)
    then Z.lor (Z.lor s0 (Z.shiftl s1 1)) (Z.shiftl s2 2) else 0 in
  let d3 := if syndrome =? 5 then Z.lxor d3 1 else d3 in
  let d2 := if syndrome =? 7 then Z.lxor d2 1 else d2 in
  let d1 := if syndrome =? 3 then Z.lxor d1 1 else d1 in
  let d0 := if syndrome =? 6 then Z.lxor d0 1 else d0 in
  (u8 (Z.lor (Z.lor (Z.lor (Z.shiftl d3 3) (Z.shiftl d2 2)) (Z.shiftl d1 1)) d0), err).

(** ** CRC-16 *)

Definition crc_step (crc : Z) : Z :=
  u16 (if nz (Z.land crc 0x8000) then Z.lxor (Z.shiftl crc 1) 0x1021 else Z.shiftl crc 1).

Definition crc_step8 (crc : Z) : Z := Nat.iter 8 crc_step crc.

Definition crc_byte (crc d : Z) : Z := crc_step8 (u16 (Z.lxor crc (Z.shiftl d 8))).

Definition lora_crc16 (data : list Z) : Z := fold_left crc_byte data 0.

(** The CRC field the payload asks for: CRC over all but the last two payload
    bytes, XORed with those two. *)
Definition want_crc (bytes : list Z) (pay_len : nat) : Z :=
  Z.lxor (Z.lxor (lora_crc16 (take (pay_len - 2) bytes)) (at_ bytes (pay_len - 1)))
         (Z.shiftl (at_ bytes (pay_len - 2)) 8).

(** The CRC field that was received: the last two bytes, little-endian. *)
Definition got_crc (bytes : list Z) : Z :=
  u16 (Z.lor (at_ bytes (length bytes - 2)) (Z.shiftl (at_ bytes (length bytes - 1)) 8)).

(** [bytes[bit >> 3] ^= 1 << (bit & 7)] *)
Definition flip_bit (bytes : list Z) (bit : nat) : list Z :=
  alter (fun b => u8 (Z.lxor b (Z.shiftl 1 (Z.of_nat (bit mod 8))))) (bit / 8)%nat bytes.

(** ** Single-bit CRC brute force *)

Fixpoint crc_bruteforce_loop (fuel bit : nat) (got : Z) (pay_len : nat) (bytes : list Z)
  : bool * list Z :=
  match fuel with
  | O => (false, bytes)
  | S k =>
      let bytes1 := flip_bit bytes bit in
      if got =? want_crc bytes1 pay_len then (true, bytes1)
      else crc_bruteforce_loop k (S bit) got pay_len (flip_bit bytes1 bit)
  end.

(** [bytes] is the buffer [bytes[0 .. byte_count)]; the result is the return
    value and the buffer left behind. *)
Definition lora_crc_bruteforce_correct (bytes : list Z) : bool * list Z :=
  if (length bytes <? 4)%nat then (false, bytes)
  else
    let pay_len := (length bytes - 2)%nat in
    crc_bruteforce_loop (pay_len * 8) 0 (got_crc bytes) pay_len bytes.

(** ** Two-bit CRC brute force *)

(** The backward recurrence over the bytes that go through lora_crc16: the
    row of byte [j] is the row of byte [j+1] advanced by one byte step. *)
Fixpoint delta_rows (j : nat) (cur acc : list Z) : list Z :=
  match j with
  | O => acc
  | S j' =>
      let acc := cur ++ acc in
      match j' with
      | O => acc
      | S _ => delta_rows j' (map crc_step8 cur) acc
      end
  end.

Definition delta_table (pay_len : nat) : list Z :=
  let N := (pay_len - 2)%nat in
  delta_rows N (map (fun m => crc_step8 (u16 (Z.shiftl 1 (8 + Z.of_nat m)))) (seq 0 8)) []
  ++ map (fun m => u16 (Z.shiftl 1 (8 + Z.of_nat m))) (seq 0 8)
  ++ map (fun m => u16 (Z.shiftl 1 (Z.of_nat m))) (seq 0 8).

(** [for i: if (seen[delta[i]] < 0) seen[delta[i]] = i]; an absent key is -1. *)
Fixpoint seen_table (i : nat) (delta : list Z) (seen : gmap Z nat) : gmap Z nat :=
  match delta with
  | [] => seen
  | d :: t =>
      seen_table (S i) t (match seen !! d with Some _ => seen | None => <[d := i]> seen end)
  end.

(** The second loop: the first [i] whose complement is in the table under
    another index. *)
Fixpoint find_pair (i : nat) (delta : list Z) (seen : gmap Z nat) (target : Z)
  : option (nat * nat) :=
  match delta with
  | [] => None
  | d :: t =>
      match seen !! (Z.lxor d target) with
      | Some j => if (j =? i)%nat then find_pair (S i) t seen target else Some (i, j)
      | None => find_pair (S i) t seen target
      end
  end.

Definition lora_crc_bruteforce_correct_2bit (bytes : list Z) : bool * list Z :=
  if (length bytes <? 4)%nat then (false, bytes)
  else
    let pay_len := (length bytes - 2)%nat in
    let target := Z.lxor (want_crc bytes pay_len) (got_crc bytes) in
    if target =? 0 then (false, bytes)
    else
      let delta := delta_table pay_len in
      let seen := seen_table 0 delta ∅ in
      match find_pair 0 delta seen target with
      | None => (false, bytes)
      | Some (i, j) => (true, flip_bit (flip_bit bytes i) j)
      end.

(** ** Diagonal deinterleave *)

Definition mod_pos (x m : Z) : Z := let r := Z.rem x m in if r <? 0 then r + m else r.

(** [inter_bin[i][j]]: bit [j], MSB first over [sf_app] bits, of symbol [i]. *)
Definition inter_bin (symbols : list Z) (sf_app i j : nat) : Z :=
  Z.land (Z.shiftr (at_ symbols i) (Z.of_nat sf_app - 1 - Z.of_nat j)) 1.

Definition mat_set {A} (m : list (list A)) (r c : nat) (v : A) : list (list A) :=
  alter (fun row => <[c := v]> row) r m.

Definition mat_get (m : list (list Z)) (r c : nat) : Z := at_ (nth r m []) c.

(** [uint8_t deinter_bin[16][16] = {{0}}] after the two nested loops. *)
Definition deinter_bin (symbols : list Z) (sf_app cw_len : nat) : list (list Z) :=
  fold_left (fun m i =>
    fold_left (fun m j =>
      mat_set m (Z.to_nat (mod_pos (Z.of_nat i - Z.of_nat j - 1) (Z.of_nat sf_app))) i
              (inter_bin symbols sf_app i j))
      (seq 0 sf_app) m)
    (seq 0 cw_len) (replicate 16 (replicate 16 0)).

(** The codewords written; none when an argument is not positive. *)
Definition lora_deinterleave (symbols : list Z) (sf_app cr_use : nat) : list Z :=
  if (cr_use =? 0)%nat || (sf_app =? 0)%nat then []
  else
    let m := deinter_bin symbols sf_app cr_use in
    map (fun i =>
           fold_left (fun cw j => u8 (Z.lor (Z.shiftl cw 1) (mat_get m i j)))
                     (seq 0 cr_use) 0)
        (seq 0 sf_app).
