(* ===== verification/LoraCrcFacts.v ===== *)
(** The CRC-16 of src/lora.c is linear over GF(2): the algebra behind the
    single-bit and two-bit recovery, and the closed form of the delta table. *)

From stdpp Require Import gmap.
From S2P Require Import Prelude LoraCodec.

Local Open Scope Z_scope.

(** ** The bit step *)

Definition crc_poly (top : bool) : Z := if top then 0x1021 else 0.

Lemma crc_step_alt a : crc_step a = Z.lxor (u16 (Z.shiftl a 1)) (crc_poly (Z.testbit a 15)).
Proof.
  unfold crc_step, crc_poly, nz.
  assert (Hb : Z.land a 0x8000 = if Z.testbit a 15 then 0x8000 else 0).
  { change 0x8000 with (2 ^ 15). apply Z.bits_inj'. intros i Hi.
    rewrite Z.land_spec, Z.pow2_bits_eqb by lia.
    destruct (Z.eqb_spec 15 i) as [<- | Hne].
    - rewrite andb_true_r. by destruct (Z.testbit a 15).
    - rewrite andb_false_r. destruct (Z.testbit a 15); [|by rewrite Z.bits_0].
      symmetry. apply Z.pow2_bits_false. lia. }
  rewrite Hb. destruct (Z.testbit a 15); cbn [negb Z.eqb]; unfold u16.
  - rewrite wrap_lxor by lia. done.
  - by rewrite Z.lxor_0_r.
Qed.

Lemma crc_step_range a : 0 <= crc_step a < 2 ^ 16.
Proof. apply wrap_range. lia. Qed.

Lemma crc_step_lin a b : crc_step (Z.lxor a b) = Z.lxor (crc_step a) (crc_step b).
Proof.
  rewrite !crc_step_alt, Z.shiftl_lxor, Z.lxor_spec. unfold u16.
  rewrite wrap_lxor, lxor_swap_middle by lia. f_equal.
  by destruct (Z.testbit a 15), (Z.testbit b 15).
Qed.

(** The step is injective on 16-bit values: its kernel is trivial. *)
Lemma crc_step_kernel a : 0 <= a < 2 ^ 16 -> crc_step a = 0 -> a = 0.
Proof.
  intros Ha H. rewrite crc_step_alt in H.
  assert (H0 : Z.testbit (Z.lxor (u16 (Z.shiftl a 1)) (crc_poly (Z.testbit a 15))) 0 = false)
    by (rewrite H; done).
  unfold u16 in *. rewrite Z.lxor_spec, wrap_bits, Z.shiftl_spec in H0 by lia.
  rewrite (Z.testbit_neg_r a) in H0 by lia. rewrite andb_false_r, xorb_false_l in H0.
  destruct (Z.testbit a 15) eqn:E; [done|]. cbn [crc_poly] in *.
  rewrite Z.lxor_0_r in H. apply Z.bits_inj'. intros i Hi. rewrite Z.bits_0.
  destruct (Z.lt_ge_cases i 15); [|destruct (Z.eq_dec i 15) as [->|]; [done|];
    apply (bits_above 16); [done|lia]].
  assert (Hs : Z.testbit (wrap 16 (Z.shiftl a 1)) (i + 1) = false) by (rewrite H; apply Z.bits_0).
  rewrite wrap_bits, Z.shiftl_spec in Hs by lia.
  replace (i + 1 - 1) with i in Hs by lia.
  replace (i + 1 <? 16) with true in Hs by (symmetry; apply Z.ltb_lt; lia). done.
Qed.

Lemma crc_iter_range n a : 0 <= a < 2 ^ 16 -> 0 <= Nat.iter n crc_step a < 2 ^ 16.
Proof. intros. destruct n; [done|]. apply crc_step_range. Qed.

Lemma crc_iter_lin n a b :
  Nat.iter n crc_step (Z.lxor a b) = Z.lxor (Nat.iter n crc_step a) (Nat.iter n crc_step b).
Proof. induction n as [|n IH]; [done|]. by rewrite !Nat.iter_succ, IH, crc_step_lin. Qed.

Lemma crc_iter_zero n : Nat.iter n crc_step 0 = 0.
Proof. induction n as [|n IH]; [done|]. by rewrite Nat.iter_succ, IH. Qed.

Lemma crc_iter_kernel n a : 0 <= a < 2 ^ 16 -> Nat.iter n crc_step a = 0 -> a = 0.
Proof.
  intros Ha. induction n as [|n IH]; [done|]. rewrite Nat.iter_succ. intros H.
  apply IH, crc_step_kernel; [by apply crc_iter_range|done].
Qed.

Lemma crc_iter_inj n a b :
  0 <= a < 2 ^ 16 -> 0 <= b < 2 ^ 16 ->
  Nat.iter n crc_step a = Nat.iter n crc_step b -> a = b.
Proof.
  intros Ha Hb H. apply Z.lxor_eq, (crc_iter_kernel n).
  - apply lxor_range; [lia|done|done].
  - by rewrite crc_iter_lin, H, Z.lxor_nilpotent.
Qed.

Lemma crc_step8_iter n a : Nat.iter n crc_step8 a = Nat.iter (8 * n) crc_step a.
Proof.
  induction n as [|n IH]; [done|]. replace (8 * S n)%nat with (8 + 8 * n)%nat by lia.
  rewrite Nat.iter_add, <- IH. done.
Qed.

(** ** Powers of x modulo the CRC polynomial *)

Definition crc_pow (q : nat) : Z := Nat.iter q crc_step 1.

Lemma crc_pow_range q : 0 <= crc_pow q < 2 ^ 16.
Proof. by apply crc_iter_range. Qed.

Lemma crc_pow_small m : (m < 16)%nat -> crc_pow m = Z.shiftl 1 (Z.of_nat m).
Proof. intros Hm. do 16 (destruct m as [|m]; [reflexivity|]). lia. Qed.

(** x^q is not 1 for 0 < q < 2048: by evaluation. *)
Fixpoint crc_order_check (n : nat) (x : Z) : bool :=
  match n with
  | O => true
  | S k => let y := crc_step x in negb (y =? 1) && crc_order_check k y
  end.

Lemma crc_order_check_spec n a :
  crc_order_check n a = true -> forall k, (0 < k <= n)%nat -> Nat.iter k crc_step a <> 1.
Proof.
  revert a. induction n as [|n IH]; intros a H k Hk; [lia|].
  cbn [crc_order_check] in H. apply andb_prop in H as [H1 H2].
  destruct k as [|k]; [lia|]. rewrite Nat.iter_succ_r.
  destruct k as [|k]; [cbn; apply negb_true_iff, Z.eqb_neq in H1; done|].
  apply IH; [done|lia].
Qed.

Lemma crc_order_2047 : crc_order_check 2047 1 = true.
Proof. vm_compute. reflexivity. Qed.

Lemma crc_pow_inj a b : (a < 2048)%nat -> (b < 2048)%nat -> crc_pow a = crc_pow b -> a = b.
Proof.
  enough (W : forall a b, (a < b < 2048)%nat -> crc_pow a <> crc_pow b).
  { intros Ha Hb H. destruct (Nat.lt_trichotomy a b) as [Hl | [-> | Hl]]; [|done|].
    - by destruct (W a b).
    - by destruct (W b a). }
  intros x y Hxy H. unfold crc_pow in H.
  replace y with (x + (y - x))%nat in H by lia. rewrite Nat.iter_add in H.
  apply crc_iter_inj in H; [|done|by apply crc_iter_range].
  symmetry in H. revert H. apply (crc_order_check_spec _ _ crc_order_2047). lia.
Qed.

(** ** The whole CRC *)

Lemma crc_byte_lin c1 c2 d1 d2 :
  crc_byte (Z.lxor c1 c2) (Z.lxor d1 d2) = Z.lxor (crc_byte c1 d1) (crc_byte c2 d2).
Proof.
  unfold crc_byte, crc_step8. rewrite Z.shiftl_lxor, lxor_swap_middle.
  unfold u16. rewrite wrap_lxor by lia. apply crc_iter_lin.
Qed.

(** A fold of an additive step is additive. *)
Lemma fold_left_lin (f : Z -> Z -> Z) a b c1 c2 :
  (forall c1 c2 d1 d2, f (Z.lxor c1 c2) (Z.lxor d1 d2) = Z.lxor (f c1 d1) (f c2 d2)) ->
  length a = length b ->
  fold_left f (xor_list a b) (Z.lxor c1 c2) = Z.lxor (fold_left f a c1) (fold_left f b c2).
Proof.
  intros Hf. revert b c1 c2. induction a as [|x a IH]; intros [|y b] c1 c2 Hl; try done.
  change (xor_list (x :: a) (y :: b)) with (Z.lxor x y :: xor_list a b).
  cbn [fold_left]. rewrite Hf. apply IH. by injection Hl.
Qed.

Lemma crc16_lin a b :
  length a = length b ->
  lora_crc16 (xor_list a b) = Z.lxor (lora_crc16 a) (lora_crc16 b).
Proof. apply (fold_left_lin crc_byte a b 0 0 crc_byte_lin). Qed.

Lemma crc_byte_range c d : 0 <= crc_byte c d < 2 ^ 16.
Proof. apply crc_step_range. Qed.

Lemma crc16_range l : 0 <= lora_crc16 l < 2 ^ 16.
Proof.
  unfold lora_crc16. destruct l as [|x l] using rev_ind; [done|].
  rewrite fold_left_app. apply crc_byte_range.
Qed.

Lemma crc_byte_zero c : 0 <= c < 2 ^ 16 -> crc_byte c 0 = crc_step8 c.
Proof. intros. unfold crc_byte. rewrite Z.shiftl_0_l, Z.lxor_0_r. by rewrite (wrap_small 16). Qed.

Lemma fold_left_replicate {A B} (f : A -> B -> A) (g : A -> A) (P : A -> Prop) x n c :
  (forall c, P c -> f c x = g c /\ P (g c)) -> P c ->
  fold_left f (replicate n x) c = Nat.iter n g c.
Proof.
  intros Hf. revert c. induction n as [|n IH]; intros c Hc; [done|].
  cbn [replicate fold_left]. rewrite Nat.iter_succ_r.
  destruct (Hf c Hc) as [-> Hg]. by apply IH.
Qed.

Lemma crc16_zeros n c :
  0 <= c < 2 ^ 16 -> fold_left crc_byte (replicate n 0) c = Nat.iter (8 * n) crc_step c.
Proof.
  intros Hc. rewrite <- crc_step8_iter.
  apply (fold_left_replicate _ _ (fun c => 0 <= c < 2 ^ 16)); [|done].
  intros x Hx. split; [by apply crc_byte_zero | by apply crc_iter_range].
Qed.

(** ** Bit flips as XOR with a unit vector *)

Definition unit_err (n i : nat) : list Z := flip_bit (replicate n 0) i.

Lemma flip_bit_length l i : length (flip_bit l i) = length l.
Proof. apply length_alter. Qed.

Lemma bit_mask_byte i : is_byte (Z.shiftl 1 (Z.of_nat (i mod 8))).
Proof.
  pose proof (Nat.mod_upper_bound i 8 ltac:(lia)).
  unfold is_byte. rewrite Z.shiftl_1_l. split; [apply Z.pow_nonneg; lia|].
  change 256 with (2 ^ 8). apply Z.pow_lt_mono_r; lia.
Qed.

Lemma byte_lxor a b : is_byte a -> is_byte b -> is_byte (Z.lxor a b).
Proof. apply (lxor_range 8). lia. Qed.

Lemma flip_bit_bytes l i : bytes_ok l -> bytes_ok (flip_bit l i).
Proof.
  intros H. unfold flip_bit, bytes_ok. apply Forall_alter; [done|].
  intros x _ _. apply (wrap_range 8). lia.
Qed.

Lemma flip_bit_lookup l i k :
  bytes_ok l ->
  flip_bit l i !! k =
  (if decide (k = (i / 8)%nat) then (fun b => Z.lxor b (Z.shiftl 1 (Z.of_nat (i mod 8)))) else id)
    <$> (l !! k).
Proof.
  intros H. unfold flip_bit. case_decide as Hk.
  - subst k. rewrite list_lookup_alter_eq.
    destruct (l !! (i / 8)%nat) as [b|] eqn:E; [|done]. cbn. f_equal.
    apply (wrap_small 8), byte_lxor; [|apply bit_mask_byte].
    exact (Forall_lookup_1 _ _ _ _ H E).
  - rewrite list_lookup_alter_ne by done. by destruct (l !! k).
Qed.

Lemma bytes_ok_zeros n : bytes_ok (replicate n 0).
Proof. by apply Forall_replicate. Qed.

Lemma xor_list_lookup a b k :
  length a = length b -> xor_list a b !! k = (a !! k) ≫= fun x => Z.lxor x <$> (b !! k).
Proof. intros. unfold xor_list. by rewrite lookup_zip_with. Qed.

Lemma flip_bit_xor l i : bytes_ok l -> flip_bit l i = xor_list l (unit_err (length l) i).
Proof.
  intros H. apply list_eq. intros k.
  rewrite flip_bit_lookup by done.
  rewrite xor_list_lookup by (unfold unit_err; by rewrite flip_bit_length, length_replicate).
  unfold unit_err. rewrite flip_bit_lookup by apply bytes_ok_zeros.
  destruct (l !! k) as [b|] eqn:E; [|done].
  rewrite lookup_replicate_2 by (by apply lookup_lt_Some in E).
  cbn. case_decide; cbn; [by rewrite Z.lxor_0_l | by rewrite Z.lxor_0_r].
Qed.

Lemma flip_bit_involutive l i : bytes_ok l -> flip_bit (flip_bit l i) i = l.
Proof.
  intros H. apply list_eq. intros k.
  rewrite !flip_bit_lookup by auto using flip_bit_bytes.
  destruct (l !! k) as [b|]; [|done]. cbn. case_decide; [|done]. cbn.
  by rewrite Z.lxor_assoc, Z.lxor_nilpotent, Z.lxor_0_r.
Qed.

Lemma flip_bit_comm l i j : bytes_ok l -> flip_bit (flip_bit l i) j = flip_bit (flip_bit l j) i.
Proof.
  intros H. apply list_eq. intros k.
  rewrite !flip_bit_lookup by auto using flip_bit_bytes.
  destruct (l !! k) as [b|]; [|done]. cbn. do 2 case_decide; cbn; auto.
  by rewrite !Z.lxor_assoc, (Z.lxor_comm (Z.shiftl 1 _)).
Qed.

Lemma unit_err_length n i : length (unit_err n i) = n.
Proof. unfold unit_err. by rewrite flip_bit_length, length_replicate. Qed.

Lemma unit_err_split n i :
  (i / 8 < n)%nat ->
  unit_err n i = replicate (i / 8) 0 ++ Z.shiftl 1 (Z.of_nat (i mod 8)) :: replicate (n - i / 8 - 1) 0.
Proof.
  intros Hi. unfold unit_err. apply list_eq. intros k.
  rewrite flip_bit_lookup by apply bytes_ok_zeros. case_decide as Hk.
  - subst k. rewrite lookup_replicate_2, lookup_app_r by (rewrite ?length_replicate; lia).
    rewrite length_replicate, Nat.sub_diag. done.
  - destruct (Nat.lt_ge_cases k (i / 8)).
    + rewrite lookup_replicate_2, lookup_app_l by (rewrite ?length_replicate; lia).
      by rewrite lookup_replicate_2 by lia.
    + rewrite lookup_app_r by (rewrite length_replicate; lia). rewrite length_replicate.
      destruct (k - i / 8)%nat as [|r] eqn:Er; [lia|]. rewrite lookup_cons.
      destruct (Nat.lt_ge_cases k n).
      * by rewrite !lookup_replicate_2 by lia.
      * by rewrite !lookup_ge_None_2 by (rewrite length_replicate; lia).
Qed.

Lemma at_xor_list a b i : length a = length b -> at_ (xor_list a b) i = Z.lxor (at_ a i) (at_ b i).
Proof.
  revert b i. induction a as [|x a IH]; intros [|y b] [|i] Hl; try done.
  change (at_ (xor_list a b) i = Z.lxor (at_ a i) (at_ b i)). apply IH. by injection Hl.
Qed.

Lemma at_unit_err n i k :
  (i / 8 < n)%nat ->
  at_ (unit_err n i) k = if decide (k = i / 8)%nat then Z.shiftl 1 (Z.of_nat (i mod 8)) else 0.
Proof.
  intros Hi. rewrite unit_err_split by done. remember (i / 8)%nat as q.
  remember (Z.shiftl 1 _) as x. case_decide as Hk.
  - subst k. rewrite at_app_r by (by rewrite length_replicate).
    by rewrite length_replicate, Nat.sub_diag.
  - assert (Hz : forall m r, at_ (replicate m 0) r = 0).
    { intros m r. unfold at_. revert r. induction m; intros [|r]; cbn; auto. }
    destruct (Nat.lt_ge_cases k q).
    + rewrite at_app_l by (by rewrite length_replicate). apply Hz.
    + rewrite at_app_r by (rewrite length_replicate; lia). rewrite length_replicate.
      destruct (k - q)%nat as [|r] eqn:Er; [lia|]. apply Hz.
Qed.

(** ** The CRC field under bit flips *)

(** The power of x that bit [i] of a [p]-byte payload contributes. *)
Definition bit_pos (p i : nat) : nat := (i mod 8 + 8 * (p - 1 - i / 8))%nat.

Lemma bit_div i p : (i < 8 * p)%nat -> (i / 8 < p)%nat.
Proof. intros. by apply Nat.Div0.div_lt_upper_bound. Qed.

Lemma bit_pos_lt p i : (i < 8 * p)%nat -> (bit_pos p i < 8 * p)%nat.
Proof.
  intros H. apply bit_div in H. unfold bit_pos.
  pose proof (Nat.mod_upper_bound i 8 ltac:(lia)). lia.
Qed.

Lemma bit_pos_inj p i j :
  (i < 8 * p)%nat -> (j < 8 * p)%nat -> bit_pos p i = bit_pos p j -> i = j.
Proof.
  intros Hi Hj H. apply bit_div in Hi, Hj. unfold bit_pos in H.
  pose proof (Nat.mod_upper_bound i 8 ltac:(lia)).
  pose proof (Nat.mod_upper_bound j 8 ltac:(lia)).
  rewrite (Nat.div_mod i 8), (Nat.div_mod j 8) by lia. lia.
Qed.

Lemma xor_list_take n a b : take n (xor_list a b) = xor_list (take n a) (take n b).
Proof. apply zip_with_take. Qed.

Lemma want_crc_lin a b p :
  length a = length b ->
  want_crc (xor_list a b) p = Z.lxor (want_crc a p) (want_crc b p).
Proof.
  intros H. unfold want_crc. rewrite xor_list_take, crc16_lin by (by rewrite !length_take, H).
  rewrite !at_xor_list, Z.shiftl_lxor by done. Z.bitwise. btauto.
Qed.

Lemma crc_pow_add a b : Nat.iter a crc_step (crc_pow b) = crc_pow (a + b).
Proof. unfold crc_pow. by rewrite Nat.iter_add. Qed.

#[local] Opaque crc_step crc_pow.

Lemma crc_byte_unit m :
  (m < 8)%nat -> crc_byte 0 (Z.shiftl 1 (Z.of_nat m)) = crc_pow (16 + m).
Proof.
  intros Hm. unfold crc_byte, crc_step8. rewrite Z.lxor_0_l, Z.shiftl_shiftl by lia.
  replace (Z.of_nat m + 8) with (Z.of_nat (8 + m)) by lia.
  rewrite <- crc_pow_small by lia. unfold u16.
  rewrite (wrap_small 16) by apply crc_pow_range. exact (crc_pow_add 8 (8 + m)).
Qed.

Lemma fold_left_cons {A B} (f : A -> B -> A) x l c : fold_left f (x :: l) c = fold_left f l (f c x).
Proof. done. Qed.

Lemma crc16_unit n i :
  (i / 8 < n)%nat -> lora_crc16 (unit_err n i) = crc_pow (16 + i mod 8 + 8 * (n - 1 - i / 8)).
Proof.
  intros Hi. rewrite unit_err_split by done. unfold lora_crc16.
  pose proof (Nat.mod_upper_bound i 8 ltac:(lia)) as Hm.
  remember (i / 8)%nat as q. remember (i mod 8)%nat as m.
  rewrite fold_left_app, crc16_zeros, crc_iter_zero by done.
  rewrite (fold_left_cons crc_byte), crc_byte_unit by done.
  rewrite crc16_zeros by apply crc_pow_range. rewrite crc_pow_add.
  apply (f_equal crc_pow). lia.
Qed.

Lemma unit_err_take n k i : (i / 8 < k <= n)%nat -> take k (unit_err n i) = unit_err k i.
Proof.
  intros H. unfold unit_err. apply list_eq. intros r.
  destruct (Nat.lt_ge_cases r k).
  - rewrite lookup_take_lt, !flip_bit_lookup by (done || apply bytes_ok_zeros).
    by rewrite !lookup_replicate_2 by lia.
  - rewrite !lookup_ge_None_2; [done| |];
      rewrite ?length_take, flip_bit_length, length_replicate; lia.
Qed.

Lemma unit_err_take_zero n k i :
  (k <= i / 8)%nat -> (k <= n)%nat -> take k (unit_err n i) = replicate k 0.
Proof.
  intros H Hn. unfold unit_err. apply list_eq. intros r.
  destruct (Nat.lt_ge_cases r k).
  - rewrite lookup_take_lt, flip_bit_lookup by (done || apply bytes_ok_zeros).
    rewrite decide_False by lia. by rewrite !lookup_replicate_2 by lia.
  - rewrite !lookup_ge_None_2; [done| |];
      rewrite ?length_take, ?flip_bit_length, ?length_replicate; lia.
Qed.

Lemma crc16_zero n : lora_crc16 (replicate n 0) = 0.
Proof. unfold lora_crc16. by rewrite crc16_zeros, crc_iter_zero. Qed.

(** Flipping payload bit [i] moves the wanted CRC by a power of x. *)
Lemma want_crc_unit n p i :
  (2 <= p)%nat -> (p <= n)%nat -> (i < 8 * p)%nat ->
  want_crc (unit_err n i) p = crc_pow (bit_pos p i).
Proof.
  intros Hp Hn Hi. apply bit_div in Hi. unfold want_crc, bit_pos.
  pose proof (Nat.mod_upper_bound i 8 ltac:(lia)) as Hm.
  rewrite !at_unit_err by lia.
  remember (i / 8)%nat as q eqn:Eq. remember (i mod 8)%nat as m eqn:Em.
  destruct (Nat.lt_ge_cases q (p - 2)).
  - rewrite unit_err_take by lia. rewrite crc16_unit by lia. rewrite <- Eq, <- Em.
    rewrite !decide_False by lia. rewrite Z.shiftl_0_l, !Z.lxor_0_r. apply (f_equal crc_pow). lia.
  - rewrite unit_err_take_zero by lia. rewrite crc16_zero, Z.lxor_0_l.
    case_decide as H1.
    + rewrite decide_False by lia. rewrite Z.shiftl_0_l, Z.lxor_0_r.
      rewrite <- crc_pow_small by lia. apply (f_equal crc_pow). lia.
    + rewrite decide_True by lia. rewrite Z.lxor_0_l, Z.shiftl_shiftl by lia.
      replace (Z.of_nat m + 8) with (Z.of_nat (8 + m)) by lia.
      rewrite <- crc_pow_small by lia. apply (f_equal crc_pow). lia.
Qed.

Lemma want_crc_flip l p i :
  bytes_ok l -> (2 <= p)%nat -> (p <= length l)%nat -> (i < 8 * p)%nat ->
  want_crc (flip_bit l i) p = Z.lxor (want_crc l p) (crc_pow (bit_pos p i)).
Proof.
  intros. rewrite flip_bit_xor by done.
  rewrite want_crc_lin by (by rewrite unit_err_length). by rewrite want_crc_unit.
Qed.

Lemma at_flip_bit l i k :
  bytes_ok l -> (i / 8 < length l)%nat ->
  at_ (flip_bit l i) k =
  Z.lxor (at_ l k) (if decide (k = i / 8)%nat then Z.shiftl 1 (Z.of_nat (i mod 8)) else 0).
Proof.
  intros. rewrite flip_bit_xor by done.
  by rewrite at_xor_list, at_unit_err by (by rewrite ?unit_err_length).
Qed.

Lemma got_crc_flip l i :
  bytes_ok l -> (i < 8 * (length l - 2))%nat -> got_crc (flip_bit l i) = got_crc l.
Proof.
  intros Hb Hi. apply bit_div in Hi. unfold got_crc. rewrite flip_bit_length, !at_flip_bit by (done || lia).
  rewrite !decide_False by lia. by rewrite !Z.lxor_0_r.
Qed.

Lemma want_crc_range l p : bytes_ok l -> 0 <= want_crc l p < 2 ^ 16.
Proof.
  intros H. unfold want_crc.
  pose proof (at_byte l (p - 1) H) as H1. pose proof (at_byte l (p - 2) H) as H2.
  unfold is_byte in *.
  repeat apply lxor_range; try lia; [apply crc16_range| apply (shiftl_range 16 8); lia].
Qed.

Lemma got_crc_range l : 0 <= got_crc l < 2 ^ 16.
Proof. by apply (wrap_range 16). Qed.

#[export] Hint Resolve flip_bit_bytes : mesh.
