(* ===== verification/LoraCrc.v ===== *)
(** The CRC recovery of src/lora.c (lora_crc_bruteforce_correct and its
    two-bit variant): both searches against the reference "try every flip"
    specification, what they restore, and what they corrupt. *)

From stdpp Require Import gmap.
From S2P Require Import Prelude LoraCodec LoraCrcFacts.

Local Open Scope Z_scope.
#[local] Opaque crc_step crc_pow.

(** ** Single-bit search *)

(** The frame check state_tick does before any recovery. *)
Definition crc_matches (bytes : list Z) : bool :=
  got_crc bytes =? want_crc bytes (length bytes - 2).

(** Reference: the first payload bit, in index order, whose flip makes the
    trailer match. *)
Definition crc_fix1 (bytes : list Z) : option nat :=
  find (fun i => crc_matches (flip_bit bytes i)) (seq 0 (8 * (length bytes - 2))).

Lemma bruteforce_loop_find k bit got p l :
  bytes_ok l ->
  crc_bruteforce_loop k bit got p l =
  match find (fun i => got =? want_crc (flip_bit l i) p) (seq bit k) with
  | Some i => (true, flip_bit l i)
  | None => (false, l)
  end.
Proof.
  intros Hl. revert bit. induction k as [|k IH]; intros bit; [done|].
  cbn [crc_bruteforce_loop seq find]. case_if; [done|].
  rewrite flip_bit_involutive by done. apply IH.
Qed.

Lemma find_ext {A} (f g : A -> bool) l : (forall x, In x l -> f x = g x) -> find f l = find g l.
Proof.
  induction l as [|x l IH]; intros H; [done|]. cbn. rewrite H by (by left).
  case_if; [done|]. apply IH. intros y Hy. apply H. by right.
Qed.

Lemma crc_matches_flip l i :
  bytes_ok l -> (i < 8 * (length l - 2))%nat ->
  crc_matches (flip_bit l i) = (got_crc l =? want_crc (flip_bit l i) (length l - 2)).
Proof. intros. unfold crc_matches. by rewrite got_crc_flip, flip_bit_length. Qed.

(** On any buffer of at least payload(2)+CRC(2) bytes the single-bit
    brute force is exactly the reference search: it succeeds iff some single
    payload-bit flip makes the CRC match, applies the first such flip, and
    otherwise returns the buffer as it found it. *)
Theorem crc_bruteforce_is_search bytes :
  bytes_ok bytes -> (4 <= length bytes)%nat ->
  lora_crc_bruteforce_correct bytes =
  match crc_fix1 bytes with
  | Some i => (true, flip_bit bytes i)
  | None => (false, bytes)
  end.
Proof.
  intros Hb Hl. unfold lora_crc_bruteforce_correct, crc_fix1.
  replace (length bytes <? 4)%nat with false by (symmetry; apply Nat.ltb_ge; lia).
  rewrite bruteforce_loop_find by done. rewrite (Nat.mul_comm _ 8).
  erewrite find_ext; [done|]. intros i Hi. apply in_seq in Hi. cbn beta.
  rewrite crc_matches_flip by (done || lia). done.
Qed.

Lemma crc_bruteforce_is_search_witness :
  lora_crc_bruteforce_correct [0x41; 0x42; 0x43; 0x54; 0x3f; 0x15] =
  (true, [0x41; 0x42; 0x43; 0x44; 0x3f; 0x15]).
Proof.
  rewrite crc_bruteforce_is_search; [vm_compute; reflexivity | by bytes_tac | cbn; lia].
Defined.

(** A flip is a fix exactly when it moves the wanted CRC onto the received. *)
Lemma crc_matches_flip_pow l i :
  bytes_ok l -> (4 <= length l)%nat -> (i < 8 * (length l - 2))%nat ->
  crc_matches (flip_bit l i) = true <->
  Z.lxor (want_crc l (length l - 2)) (got_crc l) = crc_pow (bit_pos (length l - 2) i).
Proof.
  intros. rewrite crc_matches_flip, want_crc_flip by (done || lia).
  rewrite Z.eqb_eq. symmetry. apply lxor_eq_swap.
Qed.

Lemma find_unique {A} (f : A -> bool) l x :
  In x l -> f x = true -> (forall y, In y l -> f y = true -> y = x) -> find f l = Some x.
Proof.
  intros Hin Hx Hu. destruct (find f l) as [y|] eqn:E.
  - apply find_some in E as [Hy Hfy]. by rewrite (Hu y).
  - by rewrite (find_none _ _ E _ Hin) in Hx.
Qed.

(** When the syndrome is the power of one payload bit, that bit is flipped. *)
Lemma bruteforce_flips l j :
  bytes_ok l -> (4 <= length l <= 258)%nat -> (j < 8 * (length l - 2))%nat ->
  Z.lxor (want_crc l (length l - 2)) (got_crc l) = crc_pow (bit_pos (length l - 2) j) ->
  lora_crc_bruteforce_correct l = (true, flip_bit l j).
Proof.
  intros Hb Hl Hj Hs. unfold lora_crc_bruteforce_correct.
  replace (length l <? 4)%nat with false by (symmetry; apply Nat.ltb_ge; lia).
  rewrite bruteforce_loop_find, (find_unique _ _ j); try done.
  - apply in_seq. lia.
  - rewrite <- crc_matches_flip by (done || lia). apply crc_matches_flip_pow; (done || lia).
  - intros i Hi Hm. apply in_seq in Hi.
    rewrite <- crc_matches_flip in Hm by (done || lia).
    apply crc_matches_flip_pow in Hm; [|done|lia|lia].
    rewrite Hs in Hm. symmetry in Hm. apply crc_pow_inj in Hm.
    + eapply bit_pos_inj; [..|exact Hm]; lia.
    + pose proof (bit_pos_lt (length l - 2) i). lia.
    + pose proof (bit_pos_lt (length l - 2) j). lia.
Qed.

(** A frame with a valid CRC that suffers one bit error anywhere in its
    payload is restored to exactly the transmitted bytes, for every payload
    of 2 to 256 bytes. *)
Theorem single_bit_error_restored sent i :
  bytes_ok sent -> (4 <= length sent <= 258)%nat -> crc_matches sent = true ->
  (i < 8 * (length sent - 2))%nat ->
  lora_crc_bruteforce_correct (flip_bit sent i) = (true, sent).
Proof.
  intros Hb Hl Hok Hi. rewrite (bruteforce_flips _ i).
  - by rewrite flip_bit_involutive.
  - auto with mesh.
  - by rewrite flip_bit_length.
  - by rewrite flip_bit_length.
  - rewrite flip_bit_length, got_crc_flip, want_crc_flip by (done || lia).
    apply Z.eqb_eq in Hok. rewrite Hok, Z.lxor_comm. apply lxor_cancel_l.
Qed.

Lemma single_bit_error_restored_witness :
  crc_matches [0x41; 0x42; 0x43; 0x44; 0x3f; 0x15] = true /\
  lora_crc_bruteforce_correct (flip_bit [0x41; 0x42; 0x43; 0x44; 0x3f; 0x15] 9) =
  (true, [0x41; 0x42; 0x43; 0x44; 0x3f; 0x15]).
Proof.
  split; [vm_compute; reflexivity|].
  apply single_bit_error_restored; [bytes_tac
    | cbn; lia | vm_compute; reflexivity | cbn; lia].
Defined.

(** ** Errors in the trailer *)

(** The payload bit the search blames for an error in trailer bit [i]. *)
Definition blamed_bit (len i : nat) : nat :=
  if (i / 8 =? len - 2)%nat then (8 * (len - 3) + i mod 8)%nat else (8 * (len - 4) + i mod 8)%nat.

Lemma bit_split q m : (m < 8)%nat -> ((8 * q + m) / 8 = q /\ (8 * q + m) mod 8 = m)%nat.
Proof.
  intros. rewrite Nat.mul_comm, Nat.add_comm, Nat.div_add, Nat.Div0.mod_add by lia.
  by rewrite Nat.div_small, Nat.mod_small.
Qed.

Lemma blamed_bit_lt len i :
  (4 <= len)%nat -> (8 * (len - 2) <= i < 8 * len)%nat -> (blamed_bit len i < 8 * (len - 2))%nat.
Proof.
  intros. pose proof (Nat.mod_upper_bound i 8 ltac:(lia)). unfold blamed_bit.
  destruct (_ =? _)%nat; lia.
Qed.

Lemma trailer_bit_byte len i :
  (8 * (len - 2) <= i < 8 * len)%nat -> (i / 8 = len - 2 \/ i / 8 = len - 1)%nat.
Proof.
  intros. pose proof (Nat.div_mod i 8). pose proof (Nat.mod_upper_bound i 8). lia.
Qed.

Lemma crc_pow_blamed len i :
  (4 <= len)%nat -> (8 * (len - 2) <= i < 8 * len)%nat ->
  crc_pow (bit_pos (len - 2) (blamed_bit len i)) =
  Z.shiftl 1 (Z.of_nat (i mod 8 + 8 * (i / 8 - (len - 2)))).
Proof.
  intros Hl Hi. pose proof (Nat.mod_upper_bound i 8 ltac:(lia)) as Hm.
  assert (E : bit_pos (len - 2) (blamed_bit len i) = (i mod 8 + 8 * (i / 8 - (len - 2)))%nat).
  { unfold bit_pos, blamed_bit. destruct (trailer_bit_byte len i Hi) as [Hq|Hq];
      rewrite Hq; remember (i mod 8)%nat as m.
    - rewrite Nat.eqb_refl. destruct (bit_split (len - 3) m Hm) as [-> ->]. lia.
    - replace (len - 1 =? len - 2)%nat with false by (symmetry; apply Nat.eqb_neq; lia).
      destruct (bit_split (len - 4) m Hm) as [-> ->]. lia. }
  rewrite E. apply crc_pow_small. destruct (trailer_bit_byte len i Hi) as [Hq|Hq]; rewrite Hq; lia.
Qed.

Lemma wrap_lor w a b : 0 <= w -> wrap w (Z.lor a b) = Z.lor (wrap w a) (wrap w b).
Proof.
  intros. apply Z.bits_inj'. intros i Hi.
  rewrite Z.lor_spec, !wrap_bits, Z.lor_spec by lia. by destruct (i <? w).
Qed.

(** The two trailer bytes occupy disjoint bits, so a flip in either is an XOR. *)
Lemma lor_bytes_lxor a b : is_byte a -> Z.lor a (Z.shiftl b 8) = Z.lxor a (Z.shiftl b 8).
Proof.
  intros Ha. apply Z.bits_inj'. intros i Hi. rewrite Z.lor_spec, Z.lxor_spec.
  destruct (Z.lt_ge_cases i 8).
  - rewrite (Z.shiftl_spec b), (Z.testbit_neg_r b (i - 8)) by lia. by destruct (Z.testbit a i).
  - rewrite (bits_above 8 a i) by done. by destruct (Z.testbit _ i).
Qed.

Lemma got_crc_xor l :
  bytes_ok l -> got_crc l = Z.lxor (at_ l (length l - 2)) (Z.shiftl (at_ l (length l - 1)) 8).
Proof.
  intros H. unfold got_crc, u16. rewrite lor_bytes_lxor by (by apply at_byte).
  pose proof (at_byte l (length l - 2) H) as H1. pose proof (at_byte l (length l - 1) H) as H2.
  unfold is_byte in *. apply (wrap_small 16), lxor_range; [lia|lia|].
  apply (shiftl_range 16 8); lia.
Qed.

Lemma got_crc_flip_trailer l i :
  bytes_ok l -> (4 <= length l)%nat -> (8 * (length l - 2) <= i < 8 * length l)%nat ->
  got_crc (flip_bit l i) =
  Z.lxor (got_crc l) (crc_pow (bit_pos (length l - 2) (blamed_bit (length l) i))).
Proof.
  intros Hb Hl Hi. pose proof (trailer_bit_byte _ _ Hi) as Hq. rewrite crc_pow_blamed by done.
  rewrite !got_crc_xor, flip_bit_length, !at_flip_bit by (auto with mesh; lia).
  destruct Hq as [Hq|Hq]; rewrite Hq.
  - rewrite decide_True, decide_False by lia. rewrite Z.lxor_0_r, Nat.sub_diag, Nat.add_0_r.
    Z.bitwise. btauto.
  - rewrite decide_False, decide_True by lia. rewrite Z.lxor_0_r, Z.shiftl_lxor.
    rewrite Z.shiftl_shiftl by lia.
    replace (Z.of_nat (i mod 8 + 8 * (length l - 1 - (length l - 2))))
      with (Z.of_nat (i mod 8) + 8) by lia. by rewrite Z.lxor_assoc.
Qed.

Lemma want_crc_flip_trailer l i :
  bytes_ok l -> (4 <= length l)%nat -> (8 * (length l - 2) <= i < 8 * length l)%nat ->
  want_crc (flip_bit l i) (length l - 2) = want_crc l (length l - 2).
Proof.
  intros Hb Hl Hi. pose proof (trailer_bit_byte _ _ Hi) as Hq.
  rewrite flip_bit_xor, want_crc_lin by (by rewrite ?unit_err_length).
  unfold want_crc at 2. rewrite unit_err_take_zero, crc16_zero, !at_unit_err by lia.
  rewrite !decide_False by lia. by rewrite Z.shiftl_0_l, !Z.lxor_0_r.
Qed.

(** A frame whose payload arrived intact but whose two-byte CRC trailer
    has one bit in error is "corrected" by flipping a payload bit: the
    recovery reports success and hands over a payload that differs from the
    one sent. *)
Theorem trailer_bit_error_corrupts_payload sent i :
  bytes_ok sent -> (4 <= length sent <= 258)%nat -> crc_matches sent = true ->
  (8 * (length sent - 2) <= i < 8 * length sent)%nat ->
  lora_crc_bruteforce_correct (flip_bit sent i) =
    (true, flip_bit (flip_bit sent i) (blamed_bit (length sent) i)) /\
  take (length sent - 2) (flip_bit (flip_bit sent i) (blamed_bit (length sent) i))
    <> take (length sent - 2) sent.
Proof.
  intros Hb Hl Hok Hi. pose proof (blamed_bit_lt _ _ (proj1 Hl) Hi) as Hj. split.
  - apply bruteforce_flips; rewrite ?flip_bit_length; auto with mesh.
    rewrite want_crc_flip_trailer, got_crc_flip_trailer by (done || lia).
    apply Z.eqb_eq in Hok. rewrite Hok. apply lxor_cancel_l.
  - remember (blamed_bit (length sent) i) as j eqn:Ej. clear Ej. apply bit_div in Hj.
    intros E. apply (f_equal (fun l => at_ l (j / 8))) in E.
    rewrite !at_take in E by done.
    pose proof (trailer_bit_byte _ _ Hi).
    rewrite at_flip_bit in E by (rewrite ?flip_bit_length; auto with mesh; lia).
    rewrite decide_True, at_flip_bit, decide_False, Z.lxor_0_r in E by (done || lia).
    rewrite lxor_eq_swap, Z.lxor_nilpotent, Z.shiftl_1_l in E.
    pose proof (Z.pow_pos_nonneg 2 (Z.of_nat (j mod 8))). lia.
Qed.

Lemma trailer_bit_error_corrupts_payload_witness :
  lora_crc_bruteforce_correct [0x41; 0x42; 0x43; 0x44; 0x3e; 0x15] =
  (true, [0x41; 0x42; 0x43; 0x45; 0x3e; 0x15]).
Proof.
  refine (proj1 (trailer_bit_error_corrupts_payload [0x41; 0x42; 0x43; 0x44; 0x3f; 0x15] 32 _ _ _ _)).
  - bytes_tac.
  - cbn; lia.
  - vm_compute; reflexivity.
  - cbn; lia.
Defined.

(** ** Two-bit search *)

Definition delta_row (b : nat) : list Z := map (fun m => crc_pow (b + m)) (seq 0 8).

Lemma delta_row_small b (k : nat -> Z) :
  (b + 8 <= 16)%nat -> (forall m, k m = Z.of_nat (b + m)) ->
  map (fun m => u16 (Z.shiftl 1 (k m))) (seq 0 8) = delta_row b.
Proof.
  intros Hb Hk. apply map_ext_in. intros m Hm. apply in_seq in Hm.
  rewrite Hk, <- crc_pow_small by lia. apply (wrap_small 16), crc_pow_range.
Qed.

Lemma delta_row_step b : map crc_step8 (delta_row b) = delta_row (b + 8).
Proof.
  unfold delta_row. rewrite map_map. apply map_ext. intros m. unfold crc_step8.
  rewrite crc_pow_add. apply (f_equal crc_pow). lia.
Qed.

Lemma delta_rows_S n cur acc :
  delta_rows (S n) cur acc = delta_rows n (map crc_step8 cur) (cur ++ acc).
Proof. by destruct n. Qed.

Lemma map_seq_shift {A} (f : nat -> A) a n : map f (seq a n) = map (fun m => f (a + m)%nat) (seq 0 n).
Proof.
  revert a. induction n as [|n IH]; intros a; [done|]. cbn. rewrite Nat.add_0_r. f_equal.
  rewrite (IH (S a)), <- seq_shift, map_map. apply map_ext. intros m. f_equal. lia.
Qed.

Lemma delta_rows_closed n b acc :
  delta_rows n (delta_row b) acc =
  map (fun i => crc_pow (b + i mod 8 + 8 * (n - 1 - i / 8))) (seq 0 (8 * n)) ++ acc.
Proof.
  revert b acc. induction n as [|n IH]; intros b acc; [done|].
  rewrite delta_rows_S, delta_row_step, IH.
  replace (8 * S n)%nat with (8 * n + 8)%nat by lia.
  rewrite seq_app, map_app, <- app_assoc. f_equal.
  - apply map_ext_in. intros i Hi. apply in_seq in Hi.
    pose proof (bit_div i n ltac:(lia)). apply (f_equal crc_pow). lia.
  - f_equal. rewrite map_seq_shift. apply map_ext_in. intros m Hm. apply in_seq in Hm.
    rewrite Nat.add_0_l. destruct (bit_split n m) as [-> ->]; [lia|].
    apply (f_equal crc_pow). lia.
Qed.

Lemma delta_table_closed p :
  (2 <= p)%nat -> delta_table p = map (fun i => crc_pow (bit_pos p i)) (seq 0 (8 * p)).
Proof.
  intros Hp. unfold delta_table.
  pose proof (delta_row_small 8 (fun m => 8 + Z.of_nat m) ltac:(lia) ltac:(intros; lia)) as R8.
  rewrite R8, (delta_row_small 0 Z.of_nat) by (intros; lia).
  replace (map (fun m => crc_step8 (u16 (Z.shiftl 1 (8 + Z.of_nat m)))) (seq 0 8))
    with (delta_row 16).
  2: { change (delta_row 16) with (delta_row (8 + 8)). by rewrite <- delta_row_step, <- R8, map_map. }
  rewrite delta_rows_closed, <- app_assoc.
  pose proof (delta_rows_closed 2 0 []) as E. rewrite !delta_rows_S, delta_row_step in E.
  cbn [delta_rows] in E. rewrite !app_nil_r, Nat.add_0_l in E. rewrite app_nil_l, E.
  replace (8 * p)%nat with (8 * (p - 2) + 8 * 2)%nat by lia.
  rewrite seq_app, map_app. f_equal.
  - apply map_ext_in. intros i Hi. apply in_seq in Hi.
    pose proof (bit_div i (p - 2) ltac:(lia)). unfold bit_pos. apply (f_equal crc_pow). lia.
  - rewrite (map_seq_shift _ (0 + 8 * (p - 2))). apply map_ext_in. intros m Hm. apply in_seq in Hm.
    unfold bit_pos. change (0 + 8 * (p - 2) + m)%nat with (8 * (p - 2) + m)%nat.
    rewrite (Nat.add_comm (8 * (p - 2))), (Nat.mul_comm 8 (p - 2)).
    rewrite Nat.div_add, Nat.Div0.mod_add by lia. pose proof (bit_div m 2 ltac:(lia)).
    apply (f_equal crc_pow). lia.
Qed.

Lemma at_map_seq (f : nat -> Z) n i : (i < n)%nat -> at_ (map f (seq 0 n)) i = f i.
Proof.
  intros. unfold at_. rewrite (nth_indep _ 0 (f 0%nat)) by (by rewrite length_map, length_seq).
  by rewrite map_nth, seq_nth.
Qed.

(** The backward recurrence fills the delta table with, for every payload
    bit, exactly the change that flipping this bit makes to the wanted CRC,
    whatever the content of the frame. *)
Theorem delta_table_correct bytes i :
  bytes_ok bytes -> (4 <= length bytes)%nat -> (i < 8 * (length bytes - 2))%nat ->
  length (delta_table (length bytes - 2)) = (8 * (length bytes - 2))%nat /\
  want_crc (flip_bit bytes i) (length bytes - 2) =
  Z.lxor (want_crc bytes (length bytes - 2)) (at_ (delta_table (length bytes - 2)) i).
Proof.
  intros Hb Hl Hi. rewrite delta_table_closed by lia. split; [by rewrite length_map, length_seq|].
  rewrite at_map_seq by done. apply want_crc_flip; (done || lia).
Qed.

Lemma delta_table_correct_witness :
  want_crc (flip_bit [1; 2; 3; 4; 5] 7) 3 = Z.lxor (want_crc [1; 2; 3; 4; 5] 3) (at_ (delta_table 3) 7).
Proof.
  refine (proj2 (delta_table_correct [1; 2; 3; 4; 5] 7 _ _ _)); cbn; try lia.
  bytes_tac.
Defined.

(** The naive nested-loop search the comment above the function describes. *)
Fixpoint first_pair (P : nat -> nat -> bool) (n : nat) (idx : list nat) : option (nat * nat) :=
  match idx with
  | [] => None
  | i :: t => match find (P i) (seq 0 n) with
              | Some j => Some (i, j)
              | None => first_pair P n t
              end
  end.

Definition crc_fix2 (bytes : list Z) : option (nat * nat) :=
  let n := (8 * (length bytes - 2))%nat in
  first_pair (fun i j => negb (j =? i)%nat && crc_matches (flip_bit (flip_bit bytes i) j)) n (seq 0 n).

Lemma first_pair_ext P Q n idx :
  (forall i j, In i idx -> (j < n)%nat -> P i j = Q i j) -> first_pair P n idx = first_pair Q n idx.
Proof.
  induction idx as [|i t IH]; intros H; [done|]. cbn [first_pair].
  rewrite (find_ext (P i) (Q i)).
  - destruct (find _ _); [done|]. apply IH. intros. apply H; [by right|done].
  - intros j Hj. apply in_seq in Hj. apply H; [by left|lia].
Qed.

Lemma seen_table_find delta i seen x :
  seen_table i delta seen !! x =
  match seen !! x with
  | Some y => Some y
  | None => find (fun j => at_ delta (j - i) =? x) (seq i (length delta))
  end.
Proof.
  revert i seen. induction delta as [|d t IH]; intros i seen; cbn [seen_table length seq find].
  { by destruct (seen !! x). }
  rewrite IH, Nat.sub_diag. change (at_ (d :: t) 0) with d.
  destruct (Z.eqb_spec d x) as [->|Hne].
  - destruct (seen !! x) as [y|] eqn:E; [by rewrite E|]. by rewrite lookup_insert_eq.
  - replace ((match seen !! d with Some _ => seen | None => <[d:=i]> seen end) !! x) with (seen !! x)
      by (destruct (seen !! d); [done|by rewrite lookup_insert_ne]).
    destruct (seen !! x); [done|]. apply find_ext. intros j Hj. apply in_seq in Hj.
    by replace (j - i)%nat with (S (j - S i)) by lia.
Qed.

(** The hash-table search is the nested search over the table's indices. *)
Lemma find_pair_first delta target i :
  target <> 0 -> (i <= length delta)%nat ->
  find_pair i (drop i delta) (seen_table 0 delta ∅) target =
  first_pair (fun i j => negb (j =? i)%nat && (at_ delta j =? Z.lxor (at_ delta i) target))
    (length delta) (seq i (length delta - i)).
Proof.
  intros Ht Hi. remember (length delta - i)%nat as r eqn:Er. revert i Hi Er.
  induction r as [|r IH]; intros i Hi Er.
  - rewrite drop_ge by lia. done.
  - rewrite (drop_S _ (at_ delta i)) by (apply at_lookup; lia). cbn [find_pair seq first_pair].
    rewrite seen_table_find, lookup_empty, IH by lia.
    erewrite (find_ext _ (fun j => negb (j =? i)%nat && (at_ delta j =? Z.lxor (at_ delta i) target))).
    + destruct (find _ _) as [j|] eqn:E; [|done]. apply find_some in E as [_ E].
      apply andb_prop in E as [E _]. by destruct (j =? i)%nat.
    + intros j _. cbn beta. rewrite Nat.sub_0_r. destruct (Nat.eqb_spec j i) as [->|]; [|done].
      apply Z.eqb_neq. intros E. symmetry in E. apply lxor_eq_swap in E.
      by rewrite Z.lxor_nilpotent in E.
Qed.

Lemma crc_matches_flip2 l i j :
  bytes_ok l -> (4 <= length l)%nat ->
  (i < 8 * (length l - 2))%nat -> (j < 8 * (length l - 2))%nat ->
  crc_matches (flip_bit (flip_bit l i) j) =
  (crc_pow (bit_pos (length l - 2) j) =?
   Z.lxor (crc_pow (bit_pos (length l - 2) i)) (Z.lxor (want_crc l (length l - 2)) (got_crc l))).
Proof.
  intros. unfold crc_matches.
  rewrite !got_crc_flip, !flip_bit_length, !want_crc_flip by (rewrite ?flip_bit_length; auto with mesh; lia).
  rewrite Z.lxor_assoc. apply eq_iff_eq_true. rewrite !Z.eqb_eq.
  rewrite <- (lxor_eq_swap (crc_pow _)), (Z.lxor_comm (want_crc _ _) (got_crc _)).
  rewrite <- (lxor_eq_swap (got_crc l)).
  rewrite <- (lxor_eq_swap (want_crc l _)), Z.lxor_comm.
  split; intros <-; Z.bitwise; btauto.
Qed.

(** C30: the linear-time two-bit search is equivalent to the naive nested
    search over all ordered pairs of distinct payload bits: it succeeds iff
    some pair repairs the CRC, applies the first such pair, never touches a
    frame whose CRC already matches, and leaves the buffer unchanged when it
    fails. *)
Theorem crc_2bit_is_pair_search bytes :
  bytes_ok bytes -> (4 <= length bytes)%nat ->
  lora_crc_bruteforce_correct_2bit bytes =
  if crc_matches bytes then (false, bytes)
  else match crc_fix2 bytes with
       | Some (i, j) => (true, flip_bit (flip_bit bytes i) j)
       | None => (false, bytes)
       end.
Proof.
  intros Hb Hl. unfold lora_crc_bruteforce_correct_2bit, crc_fix2.
  replace (length bytes <? 4)%nat with false by (symmetry; apply Nat.ltb_ge; lia).
  set (p := (length bytes - 2)%nat). set (target := Z.lxor (want_crc bytes p) (got_crc bytes)).
  assert (Et : crc_matches bytes = (target =? 0)).
  { unfold crc_matches, target. fold p. apply eq_iff_eq_true. rewrite !Z.eqb_eq, Z.lxor_eq_0_iff.
    split; congruence. }
  rewrite Et. destruct (Z.eqb_spec target 0) as [|Ht]; [done|]. rewrite delta_table_closed by lia.
  pose proof (find_pair_first (map (fun i => crc_pow (bit_pos p i)) (seq 0 (8 * p))) target 0 Ht
                ltac:(lia)) as E.
  rewrite drop_0, length_map, length_seq, Nat.sub_0_r in E. rewrite E.
  erewrite first_pair_ext; [done|]. intros i j Hi Hj. apply in_seq in Hi. cbn beta.
  rewrite !at_map_seq, crc_matches_flip2 by (done || lia). done.
Qed.

Lemma crc_2bit_is_pair_search_witness :
  lora_crc_bruteforce_correct_2bit [0x41; 0x42; 0x43; 0x47; 0x3f; 0x15] =
  (true, [0x41; 0x42; 0x43; 0x44; 0x3f; 0x15]).
Proof.
  rewrite crc_2bit_is_pair_search; [vm_compute; reflexivity | by bytes_tac | cbn; lia].
Defined.
