(* ===== verification/LoraFec.v ===== *)
(** The remaining stages of the LoRa bit codec of src/lora.c, against the
    transmitter's side: whitening, Gray mapping, Hamming code, interleaver. *)

From S2P Require Import Prelude LoraCodec.

Local Open Scope Z_scope.

(** ** Whitening *)

Lemma dewhiten_loop_length d w : length (dewhiten_loop d w) = length d.
Proof. revert w. induction d as [|b d IH]; intros [|x w]; cbn; auto. Qed.

Lemma dewhiten_loop_involutive d w : dewhiten_loop (dewhiten_loop d w) w = d.
Proof.
  revert w. induction d as [|b d IH]; intros [|x w]; cbn; auto. rewrite IH. f_equal.
  by rewrite Z.lxor_assoc, Z.lxor_nilpotent, Z.lxor_0_r.
Qed.

Lemma lora_dewhiten_length d n : length (lora_dewhiten d n) = length d.
Proof.
  unfold lora_dewhiten. rewrite length_app, dewhiten_loop_length, <- length_app. by rewrite take_drop.
Qed.

(** Whitening and de-whitening are the same operation: applying it twice
    with the same length gives the buffer back, at any length. *)
Theorem dewhiten_involutive data n : lora_dewhiten (lora_dewhiten data n) n = data.
Proof.
  unfold lora_dewhiten at 1. unfold lora_dewhiten. set (w := dewhiten_loop (take n data) LORA_WHITEN).
  assert (Hl : length w = Nat.min n (length data))
    by (unfold w; by rewrite dewhiten_loop_length, length_take).
  destruct (Nat.le_gt_cases n (length data)).
  - rewrite take_app_le, take_ge, drop_app_le, (drop_ge w) by lia.
    unfold w. by rewrite dewhiten_loop_involutive, app_nil_l, take_drop.
  - rewrite (drop_ge data n), app_nil_r, (drop_ge w) by lia. rewrite take_ge by lia.
    unfold w. rewrite dewhiten_loop_involutive, app_nil_r. by apply take_ge; lia.
Qed.

(** One step of the LoRa whitening register x^8 + x^6 + x^5 + x^4 + 1. *)
Definition whiten_lfsr (s : Z) : Z :=
  let fb := Z.lxor (Z.lxor (Z.land (Z.shiftr s 7) 1) (Z.land (Z.shiftr s 5) 1))
                   (Z.lxor (Z.land (Z.shiftr s 4) 1) (Z.land (Z.shiftr s 3) 1)) in
  u8 (Z.lor (Z.shiftl s 1) fb).

Fixpoint lfsr_run (n : nat) (s : Z) : list Z :=
  match n with
  | O => []
  | S k => s :: lfsr_run k (whiten_lfsr s)
  end.

(** The 256-entry whitening table is the 8-bit shift-register sequence
    of the LoRa polynomial started at 0xff for its full period of 255 bytes,
    followed by one zero byte. *)
Theorem whiten_table_is_lfsr :
  LORA_WHITEN = lfsr_run 255 0xff ++ [0] /\
  Nat.iter 255 whiten_lfsr 0xff = 0xff.
Proof. split; reflexivity. Qed.

(** ** Gray mapping *)

(** XOR of the first [n] right shifts of [s]. *)
Fixpoint xor_shifts (n : nat) (s : Z) : Z :=
  match n with
  | O => 0
  | S k => Z.lxor s (xor_shifts k (Z.shiftr s 1))
  end.

Lemma xor_shifts_zero n : xor_shifts n 0 = 0.
Proof. induction n as [|n IH]; [done|]. cbn [xor_shifts]. by rewrite Z.shiftr_0_l, IH. Qed.

Lemma xor_shifts_lin n a b : xor_shifts n (Z.lxor a b) = Z.lxor (xor_shifts n a) (xor_shifts n b).
Proof.
  revert a b. induction n as [|n IH]; intros a b; [done|]. cbn [xor_shifts].
  by rewrite Z.shiftr_lxor, IH, lxor_swap_middle.
Qed.

Lemma xor_shifts_shift n s : xor_shifts n (Z.shiftr s 1) = Z.shiftr (xor_shifts n s) 1.
Proof.
  revert s. induction n as [|n IH]; intros s; [done|]. cbn [xor_shifts].
  by rewrite Z.shiftr_lxor, <- IH.
Qed.

Lemma xor_shifts_telescope n s :
  Z.lxor (xor_shifts n s) (xor_shifts n (Z.shiftr s 1)) = Z.lxor s (Z.shiftr s (Z.of_nat n)).
Proof.
  revert s. induction n as [|n IH]; intros s; cbn [xor_shifts].
  { change (Z.of_nat 0) with 0. by rewrite Z.shiftr_0_r, !Z.lxor_nilpotent. }
  rewrite lxor_swap_middle, IH, Z.shiftr_shiftr by lia.
  rewrite Z.lxor_assoc, lxor_cancel_l. f_equal. f_equal. lia.
Qed.

Lemma gray_encode_loop_shifts n b s :
  0 <= s < 2 ^ Z.of_nat n -> gray_encode_loop n b s = Z.lxor b (xor_shifts n s).
Proof.
  revert b s. induction n as [|n IH]; intros b s Hs; cbn [gray_encode_loop xor_shifts].
  { by rewrite Z.lxor_0_r. }
  destruct (Z.eqb_spec s 0) as [->|Hne].
  - by rewrite Z.shiftr_0_l, xor_shifts_zero, !Z.lxor_0_r.
  - rewrite IH; [by rewrite Z.lxor_assoc|]. rewrite Z.shiftr_div_pow2 by lia.
    rewrite Nat2Z.inj_succ, Z.pow_succ_r in Hs by lia.
    split; [apply Z.div_pos; lia|apply Z.div_lt_upper_bound; lia].
Qed.

Lemma shiftr_wide w s : 0 <= s < 2 ^ w -> Z.shiftr s w = 0.
Proof.
  intros Hs. destruct (Z.lt_ge_cases w 0); [rewrite Z.pow_neg_r in Hs by done; lia|].
  rewrite Z.shiftr_div_pow2 by lia. by apply Z.div_small.
Qed.

Lemma gray_encode_shifts s : 0 <= s < 2 ^ 16 -> lora_gray_encode s = xor_shifts 17 s.
Proof.
  intros Hs. unfold lora_gray_encode. rewrite gray_encode_loop_shifts; [done|].
  change (Z.of_nat 16) with 16. rewrite Z.shiftr_div_pow2 by lia.
  split; [apply Z.div_pos; lia|apply Z.div_lt_upper_bound; lia].
Qed.

Lemma gray_telescope s :
  0 <= s < 2 ^ 16 -> Z.lxor (xor_shifts 17 s) (xor_shifts 17 (Z.shiftr s 1)) = s.
Proof.
  intros Hs. rewrite xor_shifts_telescope, shiftr_wide, Z.lxor_0_r; [done|].
  change (Z.of_nat 17) with 17. lia.
Qed.

Lemma gray_decode_range s : 0 <= lora_gray_decode s < 2 ^ 16.
Proof. by apply (wrap_range 16). Qed.

Lemma shiftr_range w s k : 0 <= k -> 0 <= s < 2 ^ w -> 0 <= Z.shiftr s k < 2 ^ w.
Proof.
  intros Hk Hs. rewrite Z.shiftr_div_pow2 by lia. pose proof (Z.pow_pos_nonneg 2 k).
  split; [apply Z.div_pos; lia|]. apply Z.div_lt_upper_bound; nia.
Qed.

Lemma gray_decode_lxor s : 0 <= s < 2 ^ 16 -> lora_gray_decode s = Z.lxor s (Z.shiftr s 1).
Proof.
  intros Hs. apply (wrap_small 16), lxor_range; [lia|done|]. apply shiftr_range; lia.
Qed.

(** On 16-bit symbols the Gray encoder's loop and the one-line Gray
    decoder are inverse to each other, both ways round. *)
Theorem gray_round_trip s :
  0 <= s < 2 ^ 16 ->
  lora_gray_encode (lora_gray_decode s) = s /\ lora_gray_decode (lora_gray_encode s) = s.
Proof.
  intros Hs. split.
  - rewrite gray_encode_shifts by apply gray_decode_range.
    rewrite gray_decode_lxor, xor_shifts_lin by done. by apply gray_telescope.
  - unfold lora_gray_decode. rewrite gray_encode_shifts, <- xor_shifts_shift by done.
    rewrite gray_telescope by done. by apply (wrap_small 16).
Qed.

Lemma gray_round_trip_witness :
  lora_gray_encode (lora_gray_decode 0xabcd) = 0xabcd /\
  lora_gray_decode (lora_gray_encode 0xabcd) = 0xabcd.
Proof. apply gray_round_trip. lia. Defined.

(** ** Hamming code *)

(** The transmitter's codeword, in the bit layout of the source's comment:
    [d0 d1 d2 d3 p0 p1 p2 p3], most significant first, cut to [cr] bits; the
    single parity bit of 4/5 is the parity of the nibble. *)
Definition hamming_encode_ref (nib cr : Z) : Z :=
  let d k := Z.land (Z.shiftr nib k) 1 in
  let d0 := d 0 in let d1 := d 1 in let d2 := d 2 in let d3 := d 3 in
  let p0 := Z.lxor (Z.lxor d0 d1) d2 in
  let p1 := Z.lxor (Z.lxor d1 d2) d3 in
  let p2 := Z.lxor (Z.lxor d0 d1) d3 in
  let p3 := Z.lxor (Z.lxor d0 d2) d3 in
  let data := Z.lor (Z.lor (Z.shiftl d0 3) (Z.shiftl d1 2)) (Z.lor (Z.shiftl d2 1) d3) in
  if cr =? 5 then Z.lor (Z.shiftl data 1) (Z.lxor p0 d3)
  else
    let full := Z.lor (Z.shiftl data 4)
      (Z.lor (Z.lor (Z.shiftl p0 3) (Z.shiftl p1 2)) (Z.lor (Z.shiftl p2 1) p3)) in
    Z.shiftr full (8 - cr).

Definition nibbles : list Z := map Z.of_nat (seq 0 16).

Lemma in_nibbles n : 0 <= n < 16 -> In n nibbles.
Proof.
  intros. unfold nibbles. rewrite <- (Z2Nat.id n) by lia. apply in_map, in_seq. lia.
Qed.

Lemma forallb_in {A} (f : A -> bool) l x : forallb f l = true -> In x l -> f x = true.
Proof. intros H Hx. rewrite forallb_forall in H. auto. Qed.

Lemma in_rates cr : 5 <= cr <= 8 -> In cr [5; 6; 7; 8].
Proof. intros. cbn. lia. Qed.

Lemma in_bits k n : 0 <= k < Z.of_nat n -> In k (map Z.of_nat (seq 0 n)).
Proof. intros. rewrite <- (Z2Nat.id k) by lia. apply in_map, in_seq. lia. Qed.

Lemma hamming_clean nib cr :
  0 <= nib < 16 -> 5 <= cr <= 8 -> lora_hamming_decode (hamming_encode_ref nib cr) cr = (nib, 0).
Proof.
  intros Hn Hc.
  assert (H : forallb (fun cr => forallb (fun n =>
     let '(d, e) := lora_hamming_decode (hamming_encode_ref n cr) cr in (d =? n) && (e =? 0))
     nibbles) [5; 6; 7; 8] = true) by reflexivity.
  apply forallb_in with (x := cr) in H; [|by apply in_rates].
  apply forallb_in with (x := nib) in H; [|by apply in_nibbles].
  destruct (lora_hamming_decode _ _) as [d e]. zb. by subst.
Qed.

Lemma hamming_parity_error nib cr k :
  0 <= nib < 16 -> 5 <= cr <= 8 -> 0 <= k < cr - 4 ->
  fst (lora_hamming_decode (Z.lxor (hamming_encode_ref nib cr) (Z.shiftl 1 k)) cr) = nib.
Proof.
  intros Hn Hc Hk.
  assert (H : forallb (fun cr => forallb (fun n => forallb (fun k => (cr - 4 <=? k) ||
     (fst (lora_hamming_decode (Z.lxor (hamming_encode_ref n cr) (Z.shiftl 1 k)) cr) =? n))
     (map Z.of_nat (seq 0 4))) nibbles) [5; 6; 7; 8] = true) by reflexivity.
  apply forallb_in with (x := cr) in H; [|by apply in_rates].
  apply forallb_in with (x := nib) in H; [|by apply in_nibbles].
  apply forallb_in with (x := k) in H; [|apply in_bits; lia].
  apply orb_prop in H as [H|H]; zb; lia.
Qed.

(** At every coding rate an error-free codeword decodes to the nibble it
    was encoded from, and so does a codeword with any one of its check bits
    in error. *)
Theorem hamming_clean_and_check_bits nib cr :
  0 <= nib < 16 -> 5 <= cr <= 8 ->
  fst (lora_hamming_decode (hamming_encode_ref nib cr) cr) = nib /\
  (forall k, 0 <= k < cr - 4 ->
   fst (lora_hamming_decode (Z.lxor (hamming_encode_ref nib cr) (Z.shiftl 1 k)) cr) = nib).
Proof.
  intros Hn Hc. split; [by rewrite hamming_clean|].
  intros k Hk. by apply hamming_parity_error.
Qed.

Lemma hamming_clean_and_check_bits_witness :
  fst (lora_hamming_decode (Z.lxor (hamming_encode_ref 11 8) (Z.shiftl 1 2)) 8) = 11.
Proof.
  apply (proj2 (hamming_clean_and_check_bits 11 8 ltac:(lia) ltac:(lia)) 2 ltac:(lia)).
Defined.

(** At the correcting rates 4/7 and 4/8 a single error in data bit [dj]
    is not repaired: the syndrome table flips the mirrored bit d(3-j) as
    well, so the nibble returned has two wrong bits instead of one. *)
Theorem hamming_data_error_doubled nib cr j :
  0 <= nib < 16 -> 7 <= cr <= 8 -> 0 <= j < 4 ->
  fst (lora_hamming_decode (Z.lxor (hamming_encode_ref nib cr) (Z.shiftl 1 (cr - 1 - j))) cr) =
  Z.lxor (Z.lxor nib (Z.shiftl 1 j)) (Z.shiftl 1 (3 - j)).
Proof.
  intros Hn Hc Hj.
  assert (H : forallb (fun cr => forallb (fun n => forallb (fun j =>
     fst (lora_hamming_decode (Z.lxor (hamming_encode_ref n cr) (Z.shiftl 1 (cr - 1 - j))) cr) =?
     Z.lxor (Z.lxor n (Z.shiftl 1 j)) (Z.shiftl 1 (3 - j)))
     (map Z.of_nat (seq 0 4))) nibbles) [7; 8] = true) by reflexivity.
  apply forallb_in with (x := cr) in H; [|cbn; lia].
  apply forallb_in with (x := nib) in H; [|by apply in_nibbles].
  apply forallb_in with (x := j) in H; [|apply in_bits; lia].
  by apply Z.eqb_eq in H.
Qed.

Lemma hamming_data_error_doubled_witness :
  fst (lora_hamming_decode (Z.lxor (hamming_encode_ref 0 8) 0x80) 8) = 9.
Proof. apply (hamming_data_error_doubled 0 8 0); lia. Defined.

Lemma pack_nibble d3 d2 d1 d0 :
  0 <= d3 < 2 -> 0 <= d2 < 2 -> 0 <= d1 < 2 -> 0 <= d0 < 2 ->
  0 <= u8 (Z.lor (Z.lor (Z.lor (Z.shiftl d3 3) (Z.shiftl d2 2)) (Z.shiftl d1 1)) d0) < 16.
Proof.
  intros. assert (forall d, 0 <= d < 2 -> d = 0 \/ d = 1) as W by lia.
  destruct (W d3), (W d2), (W d1), (W d0); try done; subst; done.
Qed.

(** Whatever the codeword and rate, the decoder leaves [*err] at 0 and
    returns a nibble: the error indications 1 and 2 that the header file
    documents are never produced. *)
Theorem hamming_never_reports_errors cw cr :
  snd (lora_hamming_decode cw cr) = 0 /\ 0 <= fst (lora_hamming_decode cw cr) < 16.
Proof.
  split; [done|].
  assert (Hb : forall i c, 0 <= cw_bit cw i c < 2) by (intros; by apply (land_range 1)).
  assert (Hx : forall d (c : bool), 0 <= d < 2 -> 0 <= (if c then Z.lxor d 1 else d) < 2).
  { intros d [] Hd; [apply (lxor_range 1); lia|done]. }
  apply pack_nibble; apply Hx, Hb.
Qed.

(** ** Interleaver *)

(** [n] bits packed most significant first. *)
Definition pack_bits (n : nat) (f : nat -> Z) : Z :=
  fold_left (fun acc j => Z.lor (Z.shiftl acc 1) (f j)) (seq 0 n) 0.

(** Bit [j], most significant first, of an [n]-bit value. *)
Definition msb_bit (n : nat) (x : Z) (j : nat) : Z :=
  Z.land (Z.shiftr x (Z.of_nat n - 1 - Z.of_nat j)) 1.

Lemma msb_bit_range n x j : 0 <= msb_bit n x j < 2.
Proof. by apply (land_range 1). Qed.

Lemma pack_bits_S n f : pack_bits (S n) f = Z.lor (Z.shiftl (pack_bits n f) 1) (f n).
Proof. unfold pack_bits. by rewrite seq_S, fold_left_app. Qed.

Lemma pack_bits_range n f :
  (forall j, (j < n)%nat -> 0 <= f j < 2) -> 0 <= pack_bits n f < 2 ^ Z.of_nat n.
Proof.
  induction n as [|n IH]; intros Hf; [done|]. rewrite pack_bits_S. pose proof (Hf n ltac:(lia)).
  apply lor_range; [lia|apply (shiftl_range _ 1); [lia|]|].
  - replace (Z.of_nat (S n) - 1) with (Z.of_nat n) by lia. apply IH. intros. apply Hf. lia.
  - split; [lia|]. apply Z.lt_le_trans with (2 ^ 1); [lia|]. apply Z.pow_le_mono_r; lia.
Qed.

Lemma pack_bits_ext n f g : (forall j, (j < n)%nat -> f j = g j) -> pack_bits n f = pack_bits n g.
Proof.
  induction n as [|n IH]; intros H; [done|]. rewrite !pack_bits_S, H by lia.
  rewrite IH; [done|]. intros. apply H. lia.
Qed.

Lemma msb_bit_pack n f j :
  (forall j, 0 <= f j < 2) -> (j < n)%nat -> msb_bit n (pack_bits n f) j = f j.
Proof.
  intros Hf. induction n as [|n IH]; [lia|]. intros Hj. rewrite pack_bits_S. unfold msb_bit.
  rewrite Z.shiftr_lor. pose proof (Hf n) as Hn.
  destruct (Nat.eq_dec j n) as [->|].
  - replace (Z.of_nat (S n) - 1 - Z.of_nat n) with 0 by lia.
    rewrite !Z.shiftr_0_r, Z.land_lor_distr_l.
    assert (E : Z.land (Z.shiftl (pack_bits n f) 1) 1 = 0).
    { rewrite (Z.land_ones _ 1), Z.shiftl_mul_pow2 by lia. apply Z.mod_mul. lia. }
    rewrite E, Z.lor_0_l, (Z.land_ones _ 1) by lia. by apply Z.mod_small.
  - replace (Z.of_nat (S n) - 1 - Z.of_nat j) with (1 + (Z.of_nat n - 1 - Z.of_nat j)) by lia.
    rewrite <- !Z.shiftr_shiftr, Z.shiftr_shiftl_l, Z.shiftl_0_r by lia.
    rewrite (shiftr_wide 1 (f n)), Z.shiftr_0_l, Z.lor_0_r by lia.
    apply IH. lia.
Qed.

Lemma pack_msb_bits n x : 0 <= x < 2 ^ Z.of_nat n -> pack_bits n (msb_bit n x) = x.
Proof.
  revert x. induction n as [|n IH]; intros x Hx.
  { change (2 ^ Z.of_nat 0) with 1 in Hx. unfold pack_bits. cbn. lia. }
  rewrite pack_bits_S, (pack_bits_ext n _ (msb_bit n (Z.shiftr x 1))).
  - rewrite IH.
    + unfold msb_bit. replace (Z.of_nat (S n) - 1 - Z.of_nat n) with 0 by lia.
      rewrite Z.shiftr_0_r. apply Z.bits_inj'. intros i Hi.
      rewrite Z.lor_spec, Z.shiftl_spec, Z.land_spec by lia. destruct (Z.eq_dec i 0) as [->|].
      * rewrite Z.testbit_neg_r by lia. by rewrite andb_true_r.
      * rewrite Z.shiftr_spec by lia. replace (i - 1 + 1) with i by lia.
        rewrite (bits_above 1 1 i), andb_false_r, orb_false_r by lia. done.
    + rewrite Nat2Z.inj_succ, Z.pow_succ_r in Hx by lia. rewrite Z.shiftr_div_pow2 by lia.
      split; [apply Z.div_pos; lia|apply Z.div_lt_upper_bound; lia].
  - intros j Hj. unfold msb_bit. rewrite Z.shiftr_shiftr by lia. f_equal. f_equal. lia.
Qed.

(** Packing in a [uint8_t] loses nothing for up to eight bits. *)
Lemma pack_bits_u8 n f :
  (forall j, (j < n)%nat -> 0 <= f j < 2) -> (n <= 8)%nat ->
  fold_left (fun cw j => u8 (Z.lor (Z.shiftl cw 1) (f j))) (seq 0 n) 0 = pack_bits n f.
Proof.
  induction n as [|n IH]; intros Hf Hn; [done|].
  rewrite seq_S, fold_left_app, IH by (lia || (intros; apply Hf; lia)). cbn [fold_left].
  rewrite Nat.add_0_l, <- pack_bits_S. apply (wrap_small 8).
  pose proof (pack_bits_range (S n) f Hf) as H. split; [lia|].
  apply Z.lt_le_trans with (2 ^ Z.of_nat (S n)); [lia|]. apply Z.pow_le_mono_r; lia.
Qed.

(** *** The bit matrix *)

Definition mat_ok {A} (R C : nat) (m : list (list A)) : Prop := length m = R /\ Forall (fun r => length r = C) m.

Definition mat_nth {A} (dflt : A) (m : list (list A)) (r c : nat) : A := nth c (nth r m []) dflt.

Lemma mat_set_ok {A} R C (m : list (list A)) r c v : mat_ok R C m -> mat_ok R C (mat_set m r c v).
Proof.
  intros [H1 H2]. unfold mat_set. split; [by rewrite length_alter|]. apply Forall_alter; [done|].
  intros x Hx ?. rewrite length_insert. exact (Forall_lookup_1 _ _ _ _ H2 Hx).
Qed.

Lemma mat_get_set {A} (dflt : A) R C m r c v r' c' :
  mat_ok R C m -> (r < R)%nat -> (c < C)%nat ->
  mat_nth dflt (mat_set m r c v) r' c' = if decide (r' = r /\ c' = c) then v else mat_nth dflt m r' c'.
Proof.
  intros [H1 H2] Hr Hc. unfold mat_nth, mat_set.
  destruct (lookup_lt_is_Some_2 m r) as [row Hrow]; [lia|].
  assert (Hrl : length row = C) by exact (Forall_lookup_1 _ _ _ _ H2 Hrow).
  rewrite !nth_lookup. destruct (decide (r' = r)) as [->|Hne].
  - rewrite list_lookup_alter_eq, Hrow. cbn.
    destruct (decide (c' = c)) as [->|Hne].
    + rewrite decide_True by done. by rewrite list_lookup_insert_eq by lia.
    + rewrite decide_False by lia. by rewrite list_lookup_insert_ne.
  - rewrite decide_False by lia. by rewrite list_lookup_alter_ne.
Qed.

Lemma mod_pos_mod x m : 0 < m -> mod_pos x m = x mod m.
Proof.
  intros. unfold mod_pos. cbn zeta. destruct (Z.ltb_spec (Z.rem x m) 0);
    pose proof (Z.rem_bound_abs x m); pose proof (Z.quot_rem x m).
  - apply (Z.mod_unique _ _ (Z.quot x m - 1)); lia.
  - apply (Z.mod_unique _ _ (Z.quot x m)); lia.
Qed.

(** The diagonal: row of the codeword matrix fed by bit [j] of symbol [i]. *)
Definition diag (sf i j : nat) : nat := Z.to_nat (mod_pos (Z.of_nat i - Z.of_nat j - 1) (Z.of_nat sf)).

Lemma diag_lt sf i j : (0 < sf)%nat -> (diag sf i j < sf)%nat.
Proof.
  intros. unfold diag. rewrite mod_pos_mod by lia.
  pose proof (Z.mod_pos_bound (Z.of_nat i - Z.of_nat j - 1) (Z.of_nat sf)). lia.
Qed.

Lemma diag_involutive sf i j : (j < sf)%nat -> diag sf i (diag sf i j) = j.
Proof.
  intros. unfold diag. rewrite !mod_pos_mod by lia.
  pose proof (Z.mod_pos_bound (Z.of_nat i - Z.of_nat j - 1) (Z.of_nat sf)).
  rewrite Z2Nat.id by lia.
  pose proof (Z.div_mod (Z.of_nat i - Z.of_nat j - 1) (Z.of_nat sf)).
  rewrite <- (Z.mod_unique (Z.of_nat i - (Z.of_nat i - Z.of_nat j - 1) mod Z.of_nat sf - 1)
    (Z.of_nat sf) ((Z.of_nat i - Z.of_nat j - 1) / Z.of_nat sf) (Z.of_nat j)); lia.
Qed.

Lemma deinter_row {A} (dflt : A) R C sf i (v : nat -> A) n m :
  (i < C)%nat -> (n <= sf <= R)%nat -> mat_ok R C m ->
  let m' := fold_left (fun m j => mat_set m (diag sf i j) i (v j)) (seq 0 n) m in
  mat_ok R C m' /\
  forall r c, (r < sf)%nat -> mat_nth dflt m' r c =
    if decide (c = i /\ (diag sf i r < n)%nat) then v (diag sf i r) else mat_nth dflt m r c.
Proof.
  intros Hi. induction n as [|n IH]; intros Hn Hm; cbn zeta.
  - split; [done|]. intros. by rewrite decide_False by lia.
  - rewrite seq_S, fold_left_app, Nat.add_0_l. cbn [fold_left].
    destruct IH as [Hok IH]; [lia|done|]. split; [by apply mat_set_ok|]. intros r c Hr.
    pose proof (diag_lt sf i n). rewrite (mat_get_set dflt R C) by (done || lia).
    destruct (decide (r = diag sf i n)) as [->|Hne].
    + destruct (decide (c = i)) as [->|]; [|rewrite decide_False, IH, !decide_False by lia; done].
      rewrite diag_involutive by lia. rewrite !decide_True by (split; lia). done.
    + rewrite decide_False by lia. rewrite IH by done.
      assert (diag sf i r <> n) by (intros <-; apply Hne; by rewrite diag_involutive).
      destruct (decide (c = i /\ _)).
      * by rewrite decide_True by lia.
      * by rewrite decide_False by lia.
Qed.

(** The two nested loops move bit [diag c r] of symbol [c] to cell [r], [c]. *)
Lemma deinter_fill {A} (dflt : A) R C (cell : nat -> nat -> A) sf : (0 < sf <= R)%nat -> forall n m, (n <= C)%nat -> mat_ok R C m ->
  let m' := fold_left (fun m i => fold_left (fun m j => mat_set m (diag sf i j) i (cell i j)) (seq 0 sf) m) (seq 0 n) m in
  mat_ok R C m' /\ forall r c, (r < sf)%nat -> (c < n)%nat -> mat_nth dflt m' r c = cell c (diag sf c r).
Proof.
  intros Hsf. induction n as [|n IH]; intros m Hn Hm; cbn zeta.
  - split; [done|]. intros. lia.
  - rewrite seq_S, fold_left_app, Nat.add_0_l. cbn [fold_left].
    destruct (IH m) as [Hok IHm]; [lia|done|].
    destruct (deinter_row dflt R C sf n (cell n) sf _ ltac:(lia) ltac:(lia) Hok) as [H1 H2].
    split; [exact H1|]. intros r c Hr Hc. rewrite H2 by done.
    pose proof (diag_lt sf n r). destruct (decide (c = n)) as [->|].
    + by rewrite decide_True by lia.
    + rewrite decide_False by lia. apply IHm; lia.
Qed.

Lemma deinter_bin_get symbols sf cw r c :
  (0 < sf <= 16)%nat -> (cw <= 16)%nat -> (r < sf)%nat -> (c < cw)%nat ->
  mat_get (deinter_bin symbols sf cw) r c = inter_bin symbols sf c (diag sf c r).
Proof.
  intros Hsf Hcw Hr Hc. apply (deinter_fill 0 16 16 (inter_bin symbols sf)); [done|done| |done|done].
  split; [done|]. by repeat constructor.
Qed.

(** The transmitter's interleaver: bit [j] of symbol [i] is bit [i] of
    codeword [diag i j]. *)
Definition lora_interleave_ref (codewords : list Z) (sf_app cr_use : nat) : list Z :=
  map (fun i => pack_bits sf_app (fun j => msb_bit cr_use (at_ codewords (diag sf_app i j)) i))
      (seq 0 cr_use).

Lemma at_map_seq0 (f : nat -> Z) n i : (i < n)%nat -> at_ (map f (seq 0 n)) i = f i.
Proof.
  intros. unfold at_. rewrite (nth_indep _ 0 (f 0%nat)) by (by rewrite length_map, length_seq).
  by rewrite map_nth, seq_nth.
Qed.

(** Deinterleaving undoes the transmitter's diagonal interleaver: for
    every block of [sf_app] codewords of [cr_use] bits the receiver recovers
    exactly the codewords. *)
Theorem deinterleave_interleave codewords sf_app cr_use :
  (0 < sf_app <= 16)%nat -> (0 < cr_use <= 8)%nat -> length codewords = sf_app ->
  Forall (fun c => 0 <= c < 2 ^ Z.of_nat cr_use) codewords ->
  lora_deinterleave (lora_interleave_ref codewords sf_app cr_use) sf_app cr_use = codewords.
Proof.
  intros Hsf Hcr Hl Hc. unfold lora_deinterleave.
  replace ((cr_use =? 0)%nat || (sf_app =? 0)%nat) with false
    by (destruct cr_use, sf_app; (lia || done)).
  transitivity (map (at_ codewords) (seq 0 sf_app)).
  - apply map_ext_in. intros r Hr. apply in_seq in Hr.
    rewrite pack_bits_u8; [|intros j Hj; rewrite deinter_bin_get by lia; apply msb_bit_range|lia].
    rewrite (pack_bits_ext _ _ (msb_bit cr_use (at_ codewords r))).
    + apply pack_msb_bits. rewrite List.Forall_forall in Hc. apply Hc, nth_In. lia.
    + intros j Hj. rewrite deinter_bin_get by lia.
      change (msb_bit sf_app (at_ (lora_interleave_ref codewords sf_app cr_use) j) (diag sf_app j r)
              = msb_bit cr_use (at_ codewords r) j).
      unfold lora_interleave_ref. rewrite at_map_seq0 by done.
      rewrite msb_bit_pack by (intros; apply msb_bit_range || apply diag_lt; lia).
      by rewrite diag_involutive by lia.
  - rewrite <- Hl. clear. induction codewords as [|x l IH]; [done|].
    cbn [length seq map]. f_equal. rewrite <- seq_shift, map_map. exact IH.
Qed.

Lemma deinterleave_interleave_witness :
  lora_deinterleave (lora_interleave_ref [1; 2; 3; 4; 255; 6; 7] 7 8) 7 8 = [1; 2; 3; 4; 255; 6; 7].
Proof.
  apply deinterleave_interleave; [lia|lia|done|]. change (2 ^ Z.of_nat 8) with 256. bytes_tac.
Defined.
