(* ===== verification/LoraFrame.v ===== *)
(** The LoRa frame layer of src/lora.c on demodulated symbols: header decode
    and checksum, payload symbol count, payload assembly, CRC check with the
    brute-force recovery, and delivery (state_tick, lines 1812-2178, hard
    decision path). *)

From S2P Require Import Prelude LoraCodec.

Local Open Scope Z_scope.

Definition MAX_PAYLOAD_BYTES : nat := 256.
Definition MAX_PAYLOAD_SYMBOLS : Z := 1024.

(** ** Symbol demapping *)

(** [corr = (sym - preamble_bin - 1) % N], made non-negative. *)
Definition symbol_corr (sym preamble_bin N : Z) : Z :=
  let corr := Z.rem (sym - preamble_bin - 1) N in
  if corr <? 0 then corr + N else corr.

(** Header symbols and payload symbols in LDRO mode are divided by 4. *)
Definition header_symbol (sym preamble_bin N : Z) : Z :=
  let demod_out := u16 (Z.quot (symbol_corr sym preamble_bin N) 4) in
  u16 (Z.lxor demod_out (Z.shiftr demod_out 1)).

Definition payload_symbol (ldro : bool) (sym preamble_bin N : Z) : Z :=
  let corr := symbol_corr sym preamble_bin N in
  let demod_out := if ldro then u16 (Z.quot corr 4) else u16 corr in
  lora_gray_decode demod_out.

(** ** Header *)

Definition header_sf_app (sf : Z) : Z :=
  let sf_app := sf - 2 in if sf_app <? 5 then 5 else sf_app.

(** The [sf_app] nibbles of the header block, always at rate 4/8. *)
Definition header_nibbles (sf : Z) (header_syms : list Z) : list Z :=
  map (fun cw => fst (lora_hamming_decode cw 8))
      (lora_deinterleave header_syms (Z.to_nat (header_sf_app sf)) 8).

Definition nib_bit (n k : Z) : Z := Z.land (Z.shiftr n k) 1.

(** The five check bits c4..c0 over the first three nibbles. *)
Definition header_checksum (n0 n1 n2 : Z) : Z :=
  let x := Z.lxor in
  let c4 := x (x (x (nib_bit n0 3) (nib_bit n0 2)) (nib_bit n0 1)) (Z.land n0 1) in
  let c3 := x (x (x (x (nib_bit n0 3) (nib_bit n1 3)) (nib_bit n1 2)) (nib_bit n1 1)) (Z.land n2 1) in
  let c2 := x (x (x (x (nib_bit n0 2) (nib_bit n1 3)) (Z.land n1 1)) (nib_bit n2 3)) (nib_bit n2 1) in
  let c1 := x (x (x (x (x (nib_bit n0 1) (nib_bit n1 2)) (Z.land n1 1)) (nib_bit n2 2)) (nib_bit n2 1))
              (Z.land n2 1) in
  let c0 := x (x (x (x (x (Z.land n0 1) (nib_bit n1 1)) (nib_bit n2 3)) (nib_bit n2 2)) (nib_bit n2 1))
              (Z.land n2 1) in
  Z.lor (Z.lor (Z.lor (Z.lor (Z.shiftl c4 4) (Z.shiftl c3 3)) (Z.shiftl c2 2)) (Z.shiftl c1 1)) c0.

Record header_fields := mk_header {
  h_payload_len : Z;
  h_has_crc : bool;
  h_cr : Z;
  h_crc_ok : bool;
  h_leftover : list Z;
}.

Definition decode_header (sf : Z) (n : list Z) : header_fields :=
  let payload_len := Z.lor (Z.shiftl (at_ n 0) 4) (at_ n 1) in
  let has_crc := nz (Z.land (at_ n 2) 1) in
  let hdr_cr_app := Z.land (Z.shiftr (at_ n 2) 1) 7 in
  let cr := if (1 <=? hdr_cr_app) && (hdr_cr_app <=? 4) then hdr_cr_app + 4 else 5 in
  let header_chk := Z.lor (Z.shiftl (Z.land (at_ n 3) 1) 4) (Z.land (at_ n 4) 0x0f) in
  let computed_chk := header_checksum (at_ n 0) (at_ n 1) (at_ n 2) in
  {| h_payload_len := payload_len;
     h_has_crc := has_crc;
     h_cr := cr;
     h_crc_ok := (computed_chk =? header_chk) && (0 <? payload_len);
     h_leftover := take 16 (drop 5 (take (Z.to_nat (header_sf_app sf)) n)) |}.

(** ** Payload symbol count *)

(** [(1 << sf) * 1000.0 / bw_hz > 16.0]: the quotient of two integers below
    2^31 compares with 16 as the integers do. *)
Definition payload_ldro_of (sf bw_hz : Z) : bool := 16 * bw_hz <? Z.shiftl 1 sf * 1000.

(** [(int)ceil((double)numer / (double)denom)] for [denom > 0]. *)
Definition ceil_div (numer denom : Z) : Z := - ((- numer) / denom).

Definition payload_symbol_count (sf payload_len cr : Z) (has_crc ldro : bool) : Z :=
  let crc_bits := if has_crc then 4 else 0 in
  let denom := sf - (if ldro then 2 else 0) in
  let numer := 2 * payload_len - sf + 2 + 5 + crc_bits in
  let numer := if numer <? 0 then 0 else numer in
  let cnt := ceil_div numer denom * cr in
  let cnt := if cnt <? 0 then 0 else cnt in
  if cnt >? MAX_PAYLOAD_SYMBOLS then MAX_PAYLOAD_SYMBOLS else cnt.

(** ** Payload assembly *)

(** The byte buffer being filled and the half byte waiting for its high
    nibble ([pending_lo >= 0]). *)
Record asm := mk_asm { asm_bytes : list Z; asm_pending : option Z }.

(** One pass of either nibble loop: nothing once the buffer is full. *)
Definition push_nibble (a : asm) (nib : Z) : asm :=
  if (length (asm_bytes a) <? MAX_PAYLOAD_BYTES)%nat then
    match asm_pending a with
    | None => {| asm_bytes := asm_bytes a; asm_pending := Some nib |}
    | Some lo =>
        {| asm_bytes := asm_bytes a ++ [u8 (Z.lor (Z.shiftl nib 4) (Z.land lo 0x0f))];
           asm_pending := None |}
    end
  else a.

(** The nibbles of every complete block of [cr] symbols. *)
Fixpoint block_nibbles (fuel : nat) (sf_p cr_p : nat) (syms : list Z) : list Z :=
  match fuel with
  | O => []
  | S k =>
      if (cr_p <=? length syms)%nat then
        map (fun cw => fst (lora_hamming_decode cw (Z.of_nat cr_p)))
            (lora_deinterleave (take cr_p syms) sf_p cr_p)
        ++ block_nibbles k sf_p cr_p (drop cr_p syms)
      else []
  end.

(** [bytes[0 .. byte_count)] after both loops.  A block takes [cr >= 5]
    symbols, so one round per symbol is enough fuel. *)
Definition assemble_payload (sf_p cr_p : Z) (leftover syms : list Z) : list Z :=
  asm_bytes (fold_left push_nibble
    (map (fun n => Z.land n 0x0f) leftover
     ++ block_nibbles (length syms) (Z.to_nat sf_p) (Z.to_nat cr_p) syms)
    (mk_asm [] None)).

(** ** CRC check and delivery *)

Record frame_meta := mk_frame_meta {
  fm_sf : Z;
  fm_cr : Z;
  fm_bw_hz : Z;
  fm_payload_len : Z;
  fm_has_crc : bool;
  fm_header_crc_ok : bool;
  fm_payload_crc_ok : bool;
  fm_crc_corrected : bool;
  fm_crc_corrected_bits : Z;
  fm_lock_sample_idx : Z;
}.

(** Truncate to payload + CRC, de-whiten the payload part only. *)
Definition trim_and_dewhiten (payload_len : Z) (has_crc : bool) (bytes : list Z) : list Z :=
  let total := Z.to_nat (payload_len + (if has_crc then 2 else 0)) in
  let byte_count := if (total <? length bytes)%nat then total else length bytes in
  let pay_only := Z.to_nat payload_len in
  let pay_only := if (byte_count <? pay_only)%nat then byte_count else pay_only in
  lora_dewhiten (take byte_count bytes) pay_only.

(** The CRC block: the metadata and the buffer it leaves. *)
Definition check_crc (bruteforce bruteforce_2bit : bool) (m : frame_meta) (has_crc : bool)
    (bytes : list Z) : frame_meta * list Z :=
  if has_crc && (4 <=? length bytes)%nat then
    let ok := got_crc bytes =? want_crc bytes (length bytes - 2) in
    let m := m {{ fm_payload_crc_ok := ok; fm_crc_corrected := false; fm_crc_corrected_bits := 0 }} in
    let '(r1, bytes1) :=
      if negb ok && bruteforce then lora_crc_bruteforce_correct bytes else (false, bytes) in
    if r1 then
      (m {{ fm_payload_crc_ok := true; fm_crc_corrected := true; fm_crc_corrected_bits := 1 }}, bytes1)
    else
      let '(r2, bytes2) :=
        if negb ok && bruteforce && bruteforce_2bit
        then lora_crc_bruteforce_correct_2bit bytes1 else (false, bytes1) in
      if r2 then
        (m {{ fm_payload_crc_ok := true; fm_crc_corrected := true; fm_crc_corrected_bits := 2 }}, bytes2)
      else (m, bytes2)
  else (m {{ fm_payload_crc_ok := negb has_crc }}, bytes).

(** What the frame callback receives: [payload_len] bytes of the buffer (the
    part past [byte_count] is what the buffer held) and the metadata. *)
Definition deliver_payload (bruteforce bruteforce_2bit : bool) (m : frame_meta)
    (payload_len : Z) (has_crc : bool) (raw : list Z) : list Z * frame_meta :=
  let bytes := trim_and_dewhiten payload_len has_crc raw in
  let '(m, bytes) := check_crc bruteforce bruteforce_2bit m has_crc bytes in
  (take (Z.to_nat payload_len) (bytes ++ drop (length bytes) raw), m).
