(* ===== verification/LoraLink.v ===== *)
(** End to end over the LoRa bit layer: a reference transmitter (whitening,
    CRC trailer, explicit header, Hamming code, interleaver, Gray mapping,
    chirp bins) and the theorem that the receiver of src/lora.c inverts it;
    the header checksum's error detection; the edge cases of the payload
    length that the receiver gets wrong. *)

From S2P Require Import Prelude LoraCodec LoraCrcFacts LoraFec LoraFrame.

Local Open Scope Z_scope.
#[local] Opaque crc_step.

(** ** The transmitter *)

Definition byte_nibbles (b : Z) : list Z := [Z.land b 15; Z.shiftr b 4].

Definition tx_bytes (payload : list Z) (has_crc : bool) : list Z :=
  lora_dewhiten payload (length payload) ++
  (if has_crc then let crc := want_crc payload (length payload) in [Z.land crc 255; Z.shiftr crc 8]
   else []).

Definition tx_header (len cr : Z) (has_crc : bool) : list Z :=
  let n0 := Z.shiftr len 4 in
  let n1 := Z.land len 15 in
  let n2 := Z.lor (Z.shiftl (cr - 4) 1) (if has_crc then 1 else 0) in
  let chk := header_checksum n0 n1 n2 in
  [n0; n1; n2; Z.shiftr chk 4; Z.land chk 15].

Definition pad_to (n : nat) (l : list Z) : list Z := take n l ++ replicate (n - length l) 0.

Definition tx_block (sf_p cr : nat) (nibs : list Z) : list Z :=
  lora_interleave_ref (map (fun n => hamming_encode_ref n (Z.of_nat cr)) nibs) sf_p cr.

Fixpoint tx_blocks (nblk sf_p cr : nat) (nibs : list Z) : list Z :=
  match nblk with
  | O => []
  | S k => tx_block sf_p cr (pad_to sf_p nibs) ++ tx_blocks k sf_p cr (drop sf_p nibs)
  end.

(** The FFT bin of a chirp: Gray inverse, times 4 at reduced rate, plus 1. *)
Definition tx_bin (reduced : bool) (N s : Z) : Z :=
  ((if reduced then 4 * lora_gray_encode s else lora_gray_encode s) + 1) mod N.

(** The eight header bins and the payload bins of a frame. *)
Definition lora_tx (sf cr bw_hz : Z) (has_crc : bool) (payload : list Z) : list Z * list Z :=
  let N := 2 ^ sf in
  let ldro := payload_ldro_of sf bw_hz in
  let sf_p := Z.to_nat (sf - (if ldro then 2 else 0)) in
  let nibs := flat_map byte_nibbles (tx_bytes payload has_crc) in
  let first := Z.to_nat (sf - 7) in
  let len := Z.of_nat (length payload) in
  let nblk := Z.to_nat (payload_symbol_count sf len cr has_crc ldro / cr) in
  (map (tx_bin true N)
     (tx_block (Z.to_nat (sf - 2)) 8 (tx_header len cr has_crc ++ pad_to first nibs)),
   map (tx_bin ldro N) (tx_blocks nblk sf_p (Z.to_nat cr) (drop first nibs))).

(** ** The receiver on a frame's bins, as state_tick composes it *)

Definition lora_rx (sf bw_hz : Z) (bf bf2 : bool) (m : frame_meta) (hbins pbins : list Z)
  : option (list Z * frame_meta) :=
  let N := 2 ^ sf in
  let h := decode_header sf (header_nibbles sf (map (fun b => header_symbol b 0 N) hbins)) in
  if h_crc_ok h then
    let ldro := payload_ldro_of sf bw_hz in
    let target := payload_symbol_count sf (h_payload_len h) (h_cr h) (h_has_crc h) ldro in
    if target =? 0 then Some ([], m {{ fm_payload_crc_ok := negb (h_has_crc h) }})
    else if Z.of_nat (length pbins) =? target then
      let syms := map (fun b => payload_symbol ldro b 0 N) pbins in
      Some (deliver_payload bf bf2 m (h_payload_len h) (h_has_crc h)
              (assemble_payload (sf - (if ldro then 2 else 0)) (h_cr h) (h_leftover h) syms))
    else None
  else None.

(** ** Demapping inverts the bins *)

Lemma xor_shifts_range n k s : 0 <= s < 2 ^ k -> 0 <= xor_shifts n s < 2 ^ k.
Proof.
  intros Hs. assert (Hk : 0 <= k).
  { destruct (Z.lt_ge_cases k 0); [rewrite Z.pow_neg_r in Hs by done; lia|done]. }
  revert s Hs. induction n as [|n IH]; intros s Hs; cbn [xor_shifts].
  { split; [lia|]. by apply Z.pow_pos_nonneg. }
  apply lxor_range; [done|done|]. apply IH, shiftr_range; [lia|done].
Qed.

Lemma gray_encode_range k s :
  0 <= k <= 16 -> 0 <= s < 2 ^ k -> 0 <= lora_gray_encode s < 2 ^ k.
Proof.
  intros Hk Hs. rewrite gray_encode_shifts; [by apply xor_shifts_range|].
  pose proof (Z.pow_le_mono_r 2 k 16). lia.
Qed.

Lemma symbol_corr_bin x N : 0 <= x < N -> symbol_corr ((x + 1) mod N) 0 N = x.
Proof.
  intros Hx. unfold symbol_corr. cbn zeta. destruct (Z.eq_dec x (N - 1)) as [->|Hne].
  - replace (N - 1 + 1) with N by lia. rewrite Z.mod_same by lia.
    destruct (Z.eq_dec N 1) as [->|]; [done|].
    change (0 - 0 - 1) with (- (1)). rewrite Z.rem_opp_l, Z.rem_small by lia. destruct (Z.ltb_spec (- (1)) 0); lia.
  - rewrite Z.mod_small by lia. replace (x + 1 - 0 - 1) with x by lia. rewrite Z.rem_small by lia.
    by replace (x <? 0) with false by (symmetry; apply Z.ltb_ge; lia).
Qed.

Lemma gray_decode_encode k s : 0 <= k <= 16 -> 0 <= s < 2 ^ k -> lora_gray_decode (lora_gray_encode s) = s.
Proof.
  intros Hk Hs. assert (0 <= s < 2 ^ 16) by (pose proof (Z.pow_le_mono_r 2 k 16); lia).
  unfold lora_gray_decode. rewrite gray_encode_shifts, <- xor_shifts_shift, gray_telescope by done.
  by apply (wrap_small 16).
Qed.

Lemma header_symbol_bin sf s :
  7 <= sf <= 12 -> 0 <= s < 2 ^ (sf - 2) ->
  header_symbol (tx_bin true (2 ^ sf) s) 0 (2 ^ sf) = s.
Proof.
  intros Hsf Hs. pose proof (gray_encode_range (sf - 2) s ltac:(lia) Hs) as Hg.
  assert (HN : 2 ^ sf = 4 * 2 ^ (sf - 2)).
  { change 4 with (2 ^ 2). rewrite <- Z.pow_add_r by lia. f_equal. lia. }
  pose proof (Z.pow_le_mono_r 2 (sf - 2) 16 ltac:(lia) ltac:(lia)).
  unfold header_symbol, tx_bin. rewrite symbol_corr_bin by lia.
  rewrite Z.mul_comm, Z.quot_mul by lia. unfold u16. rewrite (wrap_small 16 (lora_gray_encode s)) by lia.
  apply (gray_decode_encode (sf - 2)); [lia|done].
Qed.

Lemma payload_symbol_ldro sym b N : payload_symbol true sym b N = header_symbol sym b N.
Proof. done. Qed.

Lemma payload_symbol_bin ldro sf s :
  7 <= sf <= 12 -> 0 <= s < 2 ^ (sf - (if ldro : bool then 2 else 0)) ->
  payload_symbol ldro (tx_bin ldro (2 ^ sf) s) 0 (2 ^ sf) = s.
Proof.
  intros Hsf Hs. destruct ldro; [rewrite payload_symbol_ldro; by apply header_symbol_bin|].
  rewrite Z.sub_0_r in Hs.
  pose proof (gray_encode_range sf s ltac:(lia) Hs) as Hg.
  pose proof (Z.pow_le_mono_r 2 sf 16 ltac:(lia) ltac:(lia)).
  unfold payload_symbol, tx_bin. rewrite symbol_corr_bin by lia.
  unfold u16. rewrite (wrap_small 16 (lora_gray_encode s)) by lia.
  apply (gray_decode_encode sf); [lia|done].
Qed.

(** ** Blocks *)

Definition nibble (n : Z) : Prop := 0 <= n < 16.

Lemma in_forall {A} (P : A -> Prop) l x : Forall P l -> In x l -> P x.
Proof. intros H. rewrite List.Forall_forall in H. auto. Qed.

Lemma hamming_encode_range n cr :
  nibble n -> 5 <= cr <= 8 -> 0 <= hamming_encode_ref n cr < 2 ^ cr.
Proof.
  intros Hn Hc.
  assert (H : forallb (fun cr => forallb (fun n =>
     (0 <=? hamming_encode_ref n cr) && (hamming_encode_ref n cr <? 2 ^ cr))
     nibbles) [5; 6; 7; 8] = true) by reflexivity.
  apply forallb_in with (x := cr) in H; [|by apply in_rates].
  apply forallb_in with (x := n) in H; [|by apply in_nibbles]. zb. lia.
Qed.

Lemma block_decode sf_p cr nibs :
  (0 < sf_p <= 16)%nat -> (5 <= cr <= 8)%nat -> length nibs = sf_p -> Forall nibble nibs ->
  map (fun cw => fst (lora_hamming_decode cw (Z.of_nat cr)))
      (lora_deinterleave (tx_block sf_p cr nibs) sf_p cr) = nibs.
Proof.
  intros Hsf Hcr Hl Hn. unfold tx_block. rewrite deinterleave_interleave; try lia.
  - rewrite map_map. transitivity (map id nibs); [|apply map_id]. apply map_ext_in. intros n Hin.
    rewrite hamming_clean; [done|exact (in_forall _ _ _ Hn Hin)|lia].
  - by rewrite length_map.
  - apply List.Forall_map, List.Forall_forall. intros n Hin. apply hamming_encode_range; [|lia].
    exact (in_forall _ _ _ Hn Hin).
Qed.

Lemma tx_block_length sf_p cr nibs : length (tx_block sf_p cr nibs) = cr.
Proof. unfold tx_block, lora_interleave_ref. by rewrite length_map, length_seq. Qed.

Lemma tx_block_range sf_p cr nibs s :
  In s (tx_block sf_p cr nibs) -> 0 <= s < 2 ^ Z.of_nat sf_p.
Proof.
  unfold tx_block, lora_interleave_ref. rewrite in_map_iff. intros (i & <- & _).
  apply pack_bits_range. intros. apply msb_bit_range.
Qed.

Lemma pad_to_length n l : length (pad_to n l) = n.
Proof. unfold pad_to. rewrite length_app, length_take, length_replicate. lia. Qed.

Lemma pad_to_nibbles n l : Forall nibble l -> Forall nibble (pad_to n l).
Proof.
  intros. unfold pad_to. apply Forall_app_2; [by apply Forall_take|]. by apply Forall_replicate.
Qed.

(** The nibbles a run of [nblk] blocks carries: the stream, zero padded. *)
Lemma block_nibbles_tx nblk sf_p cr nibs fuel :
  (0 < sf_p <= 16)%nat -> (5 <= cr <= 8)%nat -> Forall nibble nibs -> (nblk <= fuel)%nat ->
  block_nibbles fuel sf_p cr (tx_blocks nblk sf_p cr nibs) = pad_to (nblk * sf_p) nibs.
Proof.
  intros Hsf Hcr. revert nibs fuel. induction nblk as [|nblk IH]; intros nibs fuel Hn Hf.
  - destruct fuel; [done|]. cbn [block_nibbles tx_blocks length]. destruct cr; [lia|]. done.
  - destruct fuel as [|fuel]; [lia|]. cbn [tx_blocks block_nibbles]. rewrite length_app, tx_block_length.
    replace (cr <=? _)%nat with true by (symmetry; apply Nat.leb_le; lia).
    rewrite take_app_length', drop_app_length' by (by rewrite tx_block_length).
    rewrite block_decode by (done || apply pad_to_length || by apply pad_to_nibbles).
    rewrite IH by (lia || by apply Forall_drop).
    unfold pad_to. rewrite length_drop. cbn [Nat.mul].
    destruct (Nat.le_gt_cases sf_p (length nibs)).
    + replace (sf_p - length nibs)%nat with 0%nat by lia. cbn [replicate]. rewrite app_nil_r, app_assoc.
      rewrite take_take_drop. f_equal. f_equal. lia.
    + rewrite !take_ge, drop_ge by (rewrite ?length_drop; lia). rewrite app_nil_l, <- app_assoc. f_equal.
      rewrite <- replicate_add. f_equal. lia.
Qed.

(** ** Header *)

Lemma nib_bit_range n k : 0 <= nib_bit n k < 2.
Proof. by apply (land_range 1). Qed.

Lemma land1_range n : 0 <= Z.land n 1 < 2.
Proof. by apply (land_range 1). Qed.

Lemma bit_lxor_range a b : 0 <= a < 2 -> 0 <= b < 2 -> 0 <= Z.lxor a b < 2.
Proof. intros. by apply (lxor_range 1). Qed.

#[local] Hint Resolve nib_bit_range land1_range bit_lxor_range : mesh.

Lemma pack5_range c4 c3 c2 c1 c0 :
  0 <= c4 < 2 -> 0 <= c3 < 2 -> 0 <= c2 < 2 -> 0 <= c1 < 2 -> 0 <= c0 < 2 ->
  0 <= Z.lor (Z.lor (Z.lor (Z.lor (Z.shiftl c4 4) (Z.shiftl c3 3)) (Z.shiftl c2 2)) (Z.shiftl c1 1)) c0 < 32.
Proof.
  intros. assert (W : forall d, 0 <= d < 2 -> d = 0 \/ d = 1) by lia.
  destruct (W c4), (W c3), (W c2), (W c1), (W c0); try done; subst; done.
Qed.

Lemma header_checksum_range n0 n1 n2 : 0 <= header_checksum n0 n1 n2 < 32.
Proof. apply pack5_range; auto 10 with mesh. Qed.

(** A value splits into its low [k] bits and the rest. *)
Lemma split_low x k : 0 <= k -> Z.lor (Z.shiftl (Z.shiftr x k) k) (Z.land x (Z.ones k)) = x.
Proof.
  intros Hk. apply Z.bits_inj'. intros i Hi.
  rewrite Z.lor_spec, Z.shiftl_spec, Z.land_spec by lia.
  rewrite Z.testbit_ones_nonneg by lia. destruct (Z.ltb_spec i k).
  - rewrite Z.testbit_neg_r by lia. by rewrite andb_true_r.
  - rewrite Z.shiftr_spec, andb_false_r, orb_false_r by lia. f_equal. lia.
Qed.

Lemma shiftr_small x a b : 0 <= b <= a -> 0 <= x < 2 ^ a -> 0 <= Z.shiftr x b < 2 ^ (a - b).
Proof.
  intros Hb Hx. rewrite Z.shiftr_div_pow2 by lia. pose proof (Z.pow_pos_nonneg 2 b).
  split; [apply Z.div_pos; lia|]. apply Z.div_lt_upper_bound; [lia|].
  rewrite <- Z.pow_add_r by lia. replace (b + (a - b)) with a by lia. lia.
Qed.

Lemma tx_header_length len cr has_crc : length (tx_header len cr has_crc) = 5%nat.
Proof. done. Qed.

Lemma tx_header_nibbles len cr has_crc :
  0 <= len < 256 -> 5 <= cr <= 8 -> Forall nibble (tx_header len cr has_crc).
Proof.
  intros Hl Hc. unfold tx_header. cbn zeta.
  set (chk := header_checksum _ _ _). pose proof (header_checksum_range (Z.shiftr len 4) (Z.land len 15)
    (Z.lor (Z.shiftl (cr - 4) 1) (if has_crc then 1 else 0))) as Hk. fold chk in Hk.
  repeat apply Forall_cons_2; [..|apply Forall_nil_2].
  - apply (shiftr_small len 8 4); lia.
  - by apply (land_range 4).
  - apply (lor_range 4); [lia| |by destruct has_crc]. apply (shiftl_range 4 1); lia.
  - pose proof (shiftr_small chk 5 4). unfold nibble. lia.
  - by apply (land_range 4).
Qed.

Lemma decode_tx_header sf len cr has_crc rest :
  7 <= sf <= 12 -> 0 < len < 256 -> 5 <= cr <= 8 -> length rest = Z.to_nat (sf - 7) ->
  decode_header sf (tx_header len cr has_crc ++ rest) =
  {| h_payload_len := len; h_has_crc := has_crc; h_cr := cr; h_crc_ok := true; h_leftover := rest |}.
Proof.
  intros Hsf Hl Hc Hr. unfold decode_header.
  assert (Hn2 : forall c : bool, let n2 := Z.lor (Z.shiftl (cr - 4) 1) (if c then 1 else 0) in
    nz (Z.land n2 1) = c /\ Z.land (Z.shiftr n2 1) 7 = cr - 4).
  { intros c. assert (Hcr : cr = 5 \/ cr = 6 \/ cr = 7 \/ cr = 8) by lia.
    destruct Hcr as [-> | [-> | [-> | ->]]]; by destruct c. }
  set (n := tx_header len cr has_crc ++ rest).
  assert (E : at_ n 0 = Z.shiftr len 4 /\ at_ n 1 = Z.land len 15 /\
    at_ n 2 = Z.lor (Z.shiftl (cr - 4) 1) (if has_crc then 1 else 0) /\
    at_ n 3 = Z.shiftr (header_checksum (at_ n 0) (at_ n 1) (at_ n 2)) 4 /\
    at_ n 4 = Z.land (header_checksum (at_ n 0) (at_ n 1) (at_ n 2)) 15) by done.
  destruct E as (E0 & E1 & E2 & E3 & E4). rewrite E3, E4. clear E3 E4.
  set (chk := header_checksum _ _ _).
  pose proof (header_checksum_range (at_ n 0) (at_ n 1) (at_ n 2)) as Hk. fold chk in Hk.
  rewrite E0, E1, E2. destruct (Hn2 has_crc) as [-> ->].
  change 15 with (Z.ones 4). rewrite split_low by lia.
  replace ((1 <=? cr - 4) && (cr - 4 <=? 4)) with true
    by (symmetry; apply andb_true_intro; split; apply Z.leb_le; lia).
  replace (cr - 4 + 4) with cr by lia.
  assert (Ec : Z.land (Z.shiftr chk 4) 1 = Z.shiftr chk 4).
  { change 1 with (Z.ones 1). rewrite Z.land_ones by lia. apply Z.mod_small.
    pose proof (shiftr_small chk 5 4). lia. }
  rewrite Ec.
  change 15 with (Z.ones 4). rewrite <- Z.land_assoc, Z.land_diag, split_low, Z.eqb_refl by lia.
  replace (0 <? len) with true by (symmetry; apply Z.ltb_lt; lia). cbn [andb]. f_equal.
  unfold header_sf_app. cbn zeta. destruct (Z.ltb_spec (sf - 2) 5); [lia|].
  rewrite (take_ge n) by (change (length n) with (5 + length rest)%nat; lia).
  change (drop 5 n) with rest. apply take_ge. lia.
Qed.

(** ** Payload assembly *)

Lemma byte_nibbles_ok b : is_byte b -> Forall nibble (byte_nibbles b).
Proof.
  intros Hb. repeat apply Forall_cons_2; [by apply (land_range 4)|apply (shiftr_small b 8 4); unfold is_byte in Hb; lia|].
  apply Forall_nil_2.
Qed.

Lemma flat_nibbles_ok l : bytes_ok l -> Forall nibble (flat_map byte_nibbles l).
Proof.
  induction 1 as [|b l Hb Hl IH]; [apply Forall_nil_2|]. cbn [flat_map].
  apply Forall_app_2; [by apply byte_nibbles_ok|done].
Qed.

Lemma flat_nibbles_length l : length (flat_map byte_nibbles l) = (2 * length l)%nat.
Proof. induction l as [|b l IH]; [done|]. cbn [flat_map length app byte_nibbles]. lia. Qed.

Lemma push_byte acc b :
  is_byte b -> (length acc < MAX_PAYLOAD_BYTES)%nat ->
  fold_left push_nibble (byte_nibbles b) (mk_asm acc None) = mk_asm (acc ++ [b]) None.
Proof.
  intros Hb Hl. unfold byte_nibbles, push_nibble. cbn [fold_left asm_bytes asm_pending].
  replace (length acc <? MAX_PAYLOAD_BYTES)%nat with true by (symmetry; by apply Nat.ltb_lt).
  cbn [asm_bytes asm_pending]. replace (length acc <? MAX_PAYLOAD_BYTES)%nat with true
    by (symmetry; by apply Nat.ltb_lt).
  f_equal. f_equal. f_equal. change 15 with (Z.ones 4).
  rewrite <- Z.land_assoc, Z.land_diag, split_low by lia. by apply (wrap_small 8).
Qed.

Lemma push_bytes l acc :
  bytes_ok l -> (length acc + length l <= MAX_PAYLOAD_BYTES)%nat ->
  fold_left push_nibble (flat_map byte_nibbles l) (mk_asm acc None) = mk_asm (acc ++ l) None.
Proof.
  intros Hl. revert acc. induction Hl as [|b l Hb Hl IH]; intros acc Hlen.
  { by rewrite app_nil_r. }
  cbn [flat_map length] in *. rewrite fold_left_app, push_byte by (done || lia).
  rewrite IH by (rewrite length_app; cbn; lia). by rewrite <- app_assoc.
Qed.

(** Later nibbles only append. *)
Lemma push_nibbles_prefix nibs a :
  exists t, asm_bytes (fold_left push_nibble nibs a) = asm_bytes a ++ t.
Proof.
  revert a. induction nibs as [|n nibs IH]; intros a; [exists []; by rewrite app_nil_r|].
  cbn [fold_left]. destruct (IH (push_nibble a n)) as [t ->]. unfold push_nibble.
  destruct (_ <? _)%nat; [|by exists t]. destruct (asm_pending a); [|by exists t].
  cbn [asm_bytes]. rewrite <- app_assoc. by eexists.
Qed.

Lemma assemble_stream data pad :
  bytes_ok data -> (length data <= MAX_PAYLOAD_BYTES)%nat ->
  exists t, asm_bytes (fold_left push_nibble (flat_map byte_nibbles data ++ pad) (mk_asm [] None))
            = data ++ t.
Proof.
  intros Hd Hl. rewrite fold_left_app, push_bytes by done.
  apply push_nibbles_prefix.
Qed.

Lemma nibble_land n : nibble n -> Z.land n 0x0f = n.
Proof. intros. change 0x0f with (Z.ones 4). rewrite Z.land_ones by lia. by apply Z.mod_small. Qed.

(** ** De-whitening and CRC of an intact frame *)

Lemma dewhiten_bytes_ok l n : bytes_ok l -> bytes_ok (lora_dewhiten l n).
Proof.
  intros Hl. unfold lora_dewhiten. apply Forall_app_2; [|by apply Forall_drop].
  apply (bytes_ok_take n) in Hl. revert Hl. generalize (take n l). clear.
  assert (Hw : bytes_ok LORA_WHITEN) by (unfold LORA_WHITEN; bytes_tac).
  intros l Hl. revert Hw. generalize LORA_WHITEN.
  induction Hl as [|b l Hb Hl IH]; intros [|x w] Hw; cbn [dewhiten_loop]; try apply Forall_nil_2.
  - by apply Forall_cons_2.
  - apply Forall_cons in Hw as [Hx Hw]. apply Forall_cons_2; [by apply (lxor_range 8)|auto].
Qed.

Lemma dewhiten_twice l t n :
  length l = n -> lora_dewhiten (lora_dewhiten l n ++ t) n = l ++ t.
Proof.
  intros Hl. rewrite <- (dewhiten_involutive l n) at 2. unfold lora_dewhiten at 1.
  rewrite take_app_length', drop_app_length' by (by rewrite lora_dewhiten_length).
  f_equal. unfold lora_dewhiten at 2. rewrite take_ge by (rewrite lora_dewhiten_length; lia).
  rewrite drop_ge by (rewrite lora_dewhiten_length; lia). by rewrite app_nil_r.
Qed.

Lemma want_crc_app a t : (2 <= length a)%nat -> want_crc (a ++ t) (length a) = want_crc a (length a).
Proof.
  intros H. unfold want_crc. rewrite !at_app_l, take_app_le by lia. done.
Qed.

Lemma tx_crc_matches payload :
  bytes_ok payload -> (2 <= length payload)%nat ->
  let crc := want_crc payload (length payload) in
  let bytes := payload ++ [Z.land crc 255; Z.shiftr crc 8] in
  got_crc bytes = want_crc bytes (length bytes - 2).
Proof.
  intros Hb Hl. cbn zeta. pose proof (want_crc_range payload (length payload) Hb) as Hr.
  set (crc := want_crc payload _) in *. unfold got_crc. rewrite length_app. cbn [length].
  replace (length payload + 2 - 2)%nat with (length payload) by lia.
  rewrite want_crc_app by done. fold crc. rewrite !at_app_r by lia.
  replace (length payload - length payload)%nat with 0%nat by lia.
  replace (length payload + 2 - 1 - length payload)%nat with 1%nat by lia.
  change (u16 (Z.lor (Z.land crc (Z.ones 8)) (Z.shiftl (Z.shiftr crc 8) 8)) = crc).
  rewrite Z.lor_comm, split_low by lia. by apply (wrap_small 16).
Qed.

Lemma tx_bytes_ok payload has_crc : bytes_ok payload -> bytes_ok (tx_bytes payload has_crc).
Proof.
  intros Hb. unfold tx_bytes. apply Forall_app_2; [by apply dewhiten_bytes_ok|].
  destruct has_crc; [|apply Forall_nil_2]. pose proof (want_crc_range payload (length payload) Hb) as Hr.
  cbn zeta. repeat apply Forall_cons_2; [by apply (land_range 8)| |apply Forall_nil_2].
  apply (shiftr_small _ 16 8); lia.
Qed.

Lemma tx_bytes_length payload (has_crc : bool) :
  length (tx_bytes payload has_crc) = (length payload + if has_crc then 2 else 0)%nat.
Proof. unfold tx_bytes. rewrite length_app, lora_dewhiten_length. by destruct has_crc. Qed.

(** What delivery does with an intact frame, padding included. *)
Lemma deliver_intact bf bf2 m payload has_crc t :
  bytes_ok payload -> (has_crc = true -> 2 <= length payload)%nat ->
  deliver_payload bf bf2 m (Z.of_nat (length payload)) has_crc (tx_bytes payload has_crc ++ t) =
  (payload, if has_crc
            then m {{ fm_payload_crc_ok := true; fm_crc_corrected := false; fm_crc_corrected_bits := 0 }}
            else m {{ fm_payload_crc_ok := true }}).
Proof.
  intros Hb Hl. unfold deliver_payload.
  set (tr := if has_crc then [Z.land (want_crc payload (length payload)) 255;
                              Z.shiftr (want_crc payload (length payload)) 8] else []).
  assert (E : trim_and_dewhiten (Z.of_nat (length payload)) has_crc (tx_bytes payload has_crc ++ t)
              = payload ++ tr).
  { unfold trim_and_dewhiten.
    assert (Et : Z.to_nat (Z.of_nat (length payload) + (if has_crc then 2 else 0)) =
                 length (tx_bytes payload has_crc)) by (rewrite tx_bytes_length; destruct has_crc; lia).
    rewrite Et, Nat2Z.id.
    assert (Eb : (if (length (tx_bytes payload has_crc) <? length (tx_bytes payload has_crc ++ t))%nat
                  then length (tx_bytes payload has_crc) else length (tx_bytes payload has_crc ++ t)) =
                 length (tx_bytes payload has_crc)).
    { rewrite length_app. destruct (Nat.ltb_spec (length (tx_bytes payload has_crc))
        (length (tx_bytes payload has_crc) + length t)); lia. }
    rewrite Eb, take_app_length. rewrite tx_bytes_length.
    destruct (Nat.ltb_spec (length payload + (if has_crc then 2 else 0)) (length payload)); [lia|].
    unfold tx_bytes. by rewrite dewhiten_twice by done. }
  rewrite E. unfold check_crc. destruct has_crc; unfold tr.
  - rewrite length_app. cbn [length andb].
    replace (4 <=? length payload + 2)%nat with true by (symmetry; apply Nat.leb_le; specialize (Hl eq_refl); lia).
    pose proof (tx_crc_matches payload Hb (Hl eq_refl)) as Ec. cbn zeta in Ec.
    rewrite length_app in Ec. cbn [length] in Ec. rewrite Ec, Z.eqb_refl. cbn [negb andb].
    rewrite Nat2Z.id, <- app_assoc, take_app_length. done.
  - cbn [andb negb]. rewrite Nat2Z.id, <- app_assoc, take_app_length. done.
Qed.

(** ** Symbol count *)

Lemma ceil_div_spec n d : 0 < d -> 0 <= n -> 0 <= ceil_div n d /\ n <= ceil_div n d * d < n + d.
Proof.
  intros Hd Hn. unfold ceil_div. pose proof (Z.div_mod (- n) d). pose proof (Z.mod_pos_bound (- n) d). nia.
Qed.

Lemma symbol_count_range sf len cr has_crc ldro :
  0 <= payload_symbol_count sf len cr has_crc ldro <= MAX_PAYLOAD_SYMBOLS.
Proof.
  unfold payload_symbol_count, MAX_PAYLOAD_SYMBOLS. cbn zeta. set (c := ceil_div _ _ * _).
  assert (0 <= (if c <? 0 then 0 else c)) by (destruct (Z.ltb_spec c 0); lia).
  destruct (Z.gtb_spec (if c <? 0 then 0 else c) 1024); lia.
Qed.

Lemma symbol_count_zero sf len cr (has_crc ldro : bool) :
  2 * len - sf + 7 + (if has_crc then 4 else 0) <= 0 -> payload_symbol_count sf len cr has_crc ldro = 0.
Proof.
  intros H. unfold payload_symbol_count. cbn zeta.
  set (num := 2 * len - sf + 2 + 5 + _). replace (if num <? 0 then 0 else num) with 0; [done|].
  destruct (Z.ltb_spec num 0); unfold num in *; lia.
Qed.

(** Number of payload blocks of a frame with something left to send. *)
Definition block_count (sf len : Z) (has_crc ldro : bool) : Z :=
  ceil_div (2 * len - sf + 7 + (if has_crc then 4 else 0)) (sf - (if ldro then 2 else 0)).

Lemma symbol_count_blocks sf len cr (has_crc ldro : bool) :
  7 <= sf <= 12 -> 5 <= cr <= 8 -> len <= 255 ->
  0 < 2 * len - sf + 7 + (if has_crc then 4 else 0) ->
  let b := block_count sf len has_crc ldro in
  payload_symbol_count sf len cr has_crc ldro = b * cr /\ 0 < b /\
  2 * len - sf + 7 + (if has_crc then 4 else 0) <= b * (sf - (if ldro then 2 else 0)).
Proof.
  intros Hsf Hc Hl Hn. cbn zeta. unfold payload_symbol_count, block_count.
  replace (2 * len - sf + 2 + 5 + (if has_crc then 4 else 0))
    with (2 * len - sf + 7 + (if has_crc then 4 else 0)) by lia.
  set (numer := _ + _) in *. set (denom := sf - _) in *.
  assert (Hd : 5 <= denom) by (unfold denom; destruct ldro; lia).
  assert (Hu : numer <= 514) by (unfold numer; destruct has_crc; lia).
  destruct (ceil_div_spec numer denom) as (H0 & H1 & H2); [lia|lia|].
  assert (0 < ceil_div numer denom) by nia. assert (ceil_div numer denom <= 103) by nia.
  destruct (Z.ltb_spec numer 0); [lia|]. destruct (Z.ltb_spec (ceil_div numer denom * cr) 0); [nia|].
  unfold MAX_PAYLOAD_SYMBOLS. destruct (Z.gtb_spec (ceil_div numer denom * cr) 1024); [nia|lia].
Qed.

(** ** The round trip *)

Lemma tx_blocks_length nblk sf_p cr nibs : length (tx_blocks nblk sf_p cr nibs) = (nblk * cr)%nat.
Proof.
  revert nibs. induction nblk as [|k IH]; intros nibs; [done|]. cbn [tx_blocks].
  rewrite length_app, tx_block_length, IH. lia.
Qed.

Lemma tx_blocks_range nblk sf_p cr nibs s :
  In s (tx_blocks nblk sf_p cr nibs) -> 0 <= s < 2 ^ Z.of_nat sf_p.
Proof.
  revert nibs. induction nblk as [|k IH]; intros nibs; [done|]. cbn [tx_blocks].
  rewrite in_app_iff. intros [H|H]; [by eapply tx_block_range|by eapply IH].
Qed.

Lemma map_inverse (f g : Z -> Z) l : (forall s, In s l -> g (f s) = s) -> map g (map f l) = l.
Proof. intros H. rewrite map_map. transitivity (map id l); [by apply map_ext_in|apply map_id]. Qed.

Lemma header_round_trip sf nibs :
  7 <= sf <= 12 -> length nibs = Z.to_nat (sf - 2) -> Forall nibble nibs ->
  header_nibbles sf (map (fun b => header_symbol b 0 (2 ^ sf))
    (map (tx_bin true (2 ^ sf)) (tx_block (Z.to_nat (sf - 2)) 8 nibs))) = nibs.
Proof.
  intros Hsf Hl Hn. rewrite map_inverse.
  - unfold header_nibbles, header_sf_app. cbn zeta. destruct (Z.ltb_spec (sf - 2) 5); [lia|].
    apply (block_decode (Z.to_nat (sf - 2)) 8); (done || lia).
  - intros s Hs. apply header_symbol_bin; [done|]. apply tx_block_range in Hs.
    by rewrite Z2Nat.id in Hs by lia.
Qed.

Lemma pad_to_ge n l : (length l <= n)%nat -> pad_to n l = l ++ replicate (n - length l) 0.
Proof. intros. unfold pad_to. by rewrite take_ge. Qed.

Lemma pad_to_le n l : (n <= length l)%nat -> pad_to n l = take n l.
Proof. intros. unfold pad_to. replace (n - length l)%nat with 0%nat by lia. apply app_nil_r. Qed.

Lemma assemble_tx sf_p cr first nblk data :
  (0 < sf_p <= 16)%nat -> (5 <= cr <= 8)%nat -> bytes_ok data -> (length data <= MAX_PAYLOAD_BYTES)%nat ->
  (first <= 2 * length data)%nat -> (2 * length data - first <= nblk * sf_p)%nat ->
  let nibs := flat_map byte_nibbles data in
  exists t, assemble_payload (Z.of_nat sf_p) (Z.of_nat cr) (pad_to first nibs)
              (tx_blocks nblk sf_p cr (drop first nibs)) = data ++ t.
Proof.
  intros Hsf Hcr Hb Hl Hf Hn. cbn zeta. unfold assemble_payload. rewrite !Nat2Z.id.
  pose proof (flat_nibbles_ok _ Hb) as Hok. pose proof (flat_nibbles_length data) as Hlen.
  set (nibs := flat_map byte_nibbles data) in *.
  rewrite block_nibbles_tx by (done || by apply Forall_drop || (rewrite tx_blocks_length; nia)).
  rewrite (pad_to_le first), (pad_to_ge (nblk * sf_p)) by (rewrite ?length_drop; lia).
  replace (map (fun n => Z.land n 0x0f) (take first nibs)) with (take first nibs).
  - rewrite app_assoc, take_drop. by apply assemble_stream.
  - symmetry. transitivity (map id (take first nibs)); [|apply map_id]. apply map_ext_in.
    intros n Hin. apply nibble_land, (in_forall nibble (take first nibs)); [by apply Forall_take|done].
Qed.

Lemma tx_header_decodes sf cr bw_hz has_crc payload :
  7 <= sf <= 12 -> 5 <= cr <= 8 -> bytes_ok payload -> (1 <= length payload <= 255)%nat ->
  decode_header sf (header_nibbles sf (map (fun b => header_symbol b 0 (2 ^ sf))
    (fst (lora_tx sf cr bw_hz has_crc payload)))) =
  {| h_payload_len := Z.of_nat (length payload); h_has_crc := has_crc; h_cr := cr; h_crc_ok := true;
     h_leftover := pad_to (Z.to_nat (sf - 7)) (flat_map byte_nibbles (tx_bytes payload has_crc)) |}.
Proof.
  intros Hsf Hc Hb Hl. unfold lora_tx. cbn zeta. cbn [fst]. rewrite header_round_trip.
  2: done. 2: rewrite length_app, pad_to_length, tx_header_length; lia.
  2: { apply Forall_app_2; [apply tx_header_nibbles; lia|]. by apply pad_to_nibbles, flat_nibbles_ok, tx_bytes_ok. }
  by rewrite decode_tx_header by (lia || apply pad_to_length).
Qed.

Lemma lora_frame_rx sf cr bw_hz has_crc payload bf bf2 m :
  7 <= sf <= 12 -> 5 <= cr <= 8 -> bytes_ok payload ->
  (1 <= length payload <= 255)%nat ->
  (has_crc = true -> 2 <= length payload <= 254)%nat ->
  sf - 7 < 2 * Z.of_nat (length payload) + (if has_crc then 4 else 0) ->
  lora_rx sf bw_hz bf bf2 m (fst (lora_tx sf cr bw_hz has_crc payload))
                            (snd (lora_tx sf cr bw_hz has_crc payload)) =
  Some (payload,
        if has_crc
        then m {{ fm_payload_crc_ok := true; fm_crc_corrected := false; fm_crc_corrected_bits := 0 }}
        else m {{ fm_payload_crc_ok := true }}).
Proof.
  intros Hsf Hc Hb Hl Hlc Hn. unfold lora_rx. rewrite tx_header_decodes by (done || lia).
  unfold lora_tx. cbn zeta. cbn [fst snd].
  set (len := Z.of_nat (length payload)) in *. set (ldro := payload_ldro_of sf bw_hz).
  set (data := tx_bytes payload has_crc). set (nibs := flat_map byte_nibbles data).
  assert (Hlen : length data = (length payload + if has_crc then 2 else 0)%nat) by apply tx_bytes_length.
  assert (Hok : bytes_ok data) by (by apply tx_bytes_ok).
  cbn [h_crc_ok h_payload_len h_cr h_has_crc h_leftover].
  destruct (symbol_count_blocks sf len cr has_crc ldro) as (Ht & Hb0 & Hbn); [done|done|lia|lia|].
  set (b := block_count sf len has_crc ldro) in *. rewrite Ht, Z.div_mul by lia.
  destruct (Z.eqb_spec (b * cr) 0); [nia|].
  set (sfp := Z.to_nat (sf - (if ldro then 2 else 0))).
  assert (Hsfp : (5 <= sfp <= 12)%nat) by (unfold sfp; destruct ldro; lia).
  rewrite length_map, tx_blocks_length.
  replace (Z.of_nat (Z.to_nat b * Z.to_nat cr)) with (b * cr) by lia. rewrite Z.eqb_refl.
  rewrite map_inverse.
  2: { intros s Hs. apply payload_symbol_bin; [done|]. apply tx_blocks_range in Hs.
       unfold sfp in Hs. rewrite Z2Nat.id in Hs by (destruct ldro; lia). done. }
  destruct (assemble_tx sfp (Z.to_nat cr) (Z.to_nat (sf - 7)) (Z.to_nat b) data) as [t Et].
  { lia. } { lia. } { done. } { unfold MAX_PAYLOAD_BYTES. destruct has_crc; lia. }
  { destruct has_crc; lia. } { unfold sfp. destruct has_crc, ldro; nia. }
  cbn zeta in Et. fold nibs in Et. unfold sfp in Et at 1. rewrite !Z2Nat.id in Et by (destruct ldro; lia).
  rewrite Et. f_equal. apply deliver_intact; [done|]. intros H. specialize (Hlc H). lia.
Qed.


Definition meta0 : frame_meta :=
  mk_frame_meta 7 5 250000 0 false false false false 0 0.


(** ** Header checksum *)

(** The 17 protected header bits as one word: three nibbles and the check. *)
Definition header_syndrome (w : Z) : Z :=
  Z.lxor (header_checksum (Z.land (Z.shiftr w 13) 15) (Z.land (Z.shiftr w 9) 15) (Z.land (Z.shiftr w 5) 15))
         (Z.land w 31).

Lemma pack5_lxor c4 c3 c2 c1 c0 :
  0 <= c4 < 2 -> 0 <= c3 < 2 -> 0 <= c2 < 2 -> 0 <= c1 < 2 -> 0 <= c0 < 2 ->
  Z.lor (Z.lor (Z.lor (Z.lor (Z.shiftl c4 4) (Z.shiftl c3 3)) (Z.shiftl c2 2)) (Z.shiftl c1 1)) c0 =
  Z.lxor (Z.lxor (Z.lxor (Z.lxor (Z.shiftl c4 4) (Z.shiftl c3 3)) (Z.shiftl c2 2)) (Z.shiftl c1 1)) c0.
Proof.
  intros. assert (W : forall d, 0 <= d < 2 -> d = 0 \/ d = 1) by lia.
  destruct (W c4), (W c3), (W c2), (W c1), (W c0); try done; subst; done.
Qed.

Lemma land_lxor a b m : Z.land (Z.lxor a b) m = Z.lxor (Z.land a m) (Z.land b m).
Proof. Z.bitwise. btauto. Qed.

Lemma nib_bit_lxor a b k : nib_bit (Z.lxor a b) k = Z.lxor (nib_bit a k) (nib_bit b k).
Proof. unfold nib_bit. by rewrite Z.shiftr_lxor, land_lxor. Qed.

Lemma header_checksum_lin a0 a1 a2 b0 b1 b2 :
  header_checksum (Z.lxor a0 b0) (Z.lxor a1 b1) (Z.lxor a2 b2) =
  Z.lxor (header_checksum a0 a1 a2) (header_checksum b0 b1 b2).
Proof.
  unfold header_checksum. cbn zeta. rewrite !pack5_lxor by auto 10 with mesh.
  rewrite !nib_bit_lxor, !land_lxor, !Z.shiftl_lxor.
  Z.bitwise. btauto.
Qed.

Lemma header_syndrome_lin a b : header_syndrome (Z.lxor a b) = Z.lxor (header_syndrome a) (header_syndrome b).
Proof.
  unfold header_syndrome. rewrite !Z.shiftr_lxor, !land_lxor, header_checksum_lin.
  apply lxor_swap_middle.
Qed.

Definition bit_range (n : nat) : list Z := map Z.of_nat (seq 0 n).

Lemma header_syndrome_units i j :
  0 <= i < 17 -> 0 <= j < 17 -> i <> j ->
  header_syndrome (Z.shiftl 1 i) <> 0 /\
  header_syndrome (Z.lxor (Z.shiftl 1 i) (Z.shiftl 1 j)) <> 0.
Proof.
  intros Hi Hj Hne.
  assert (H : forallb (fun i => nz (header_syndrome (Z.shiftl 1 i)) && forallb (fun j => (i =? j) ||
     nz (header_syndrome (Z.lxor (Z.shiftl 1 i) (Z.shiftl 1 j)))) (bit_range 17)) (bit_range 17) = true)
    by (vm_compute; reflexivity).
  apply forallb_in with (x := i) in H; [|apply in_bits; lia].
  apply andb_prop in H as [H1 H]. apply forallb_in with (x := j) in H; [|apply in_bits; lia].
  apply orb_prop in H as [H|H]; unfold nz in *; zb; [lia|done].
Qed.



(** ** Payload lengths at the edges *)

(** A frame without CRC whose payload fits in the nibbles left over in
    the header block (two bytes at SF11 and SF12, one byte from SF9) has no
    payload symbols: the receiver delivers zero bytes, although all of the
    payload was received with the header. *)
Theorem short_payload_dropped sf cr bw_hz payload bf bf2 m :
  7 <= sf <= 12 -> 5 <= cr <= 8 -> bytes_ok payload -> (1 <= length payload)%nat ->
  2 * Z.of_nat (length payload) <= sf - 7 ->
  let h := decode_header sf (header_nibbles sf (map (fun b => header_symbol b 0 (2 ^ sf))
             (fst (lora_tx sf cr bw_hz false payload)))) in
  h_payload_len h = Z.of_nat (length payload) /\ h_crc_ok h = true /\
  take (2 * length payload) (h_leftover h) = flat_map byte_nibbles (tx_bytes payload false) /\
  lora_rx sf bw_hz bf bf2 m (fst (lora_tx sf cr bw_hz false payload)) [] =
  Some ([], m {{ fm_payload_crc_ok := true }}).
Proof.
  intros Hsf Hc Hb Hl Hn. unfold lora_rx. cbn zeta.
  assert (E : decode_header sf (header_nibbles sf (map (fun b => header_symbol b 0 (2 ^ sf))
             (fst (lora_tx sf cr bw_hz false payload)))) =
    {| h_payload_len := Z.of_nat (length payload); h_has_crc := false; h_cr := cr; h_crc_ok := true;
       h_leftover := pad_to (Z.to_nat (sf - 7)) (flat_map byte_nibbles (tx_bytes payload false)) |}).
  { apply tx_header_decodes; (done || lia). }
  rewrite E. cbn [h_crc_ok h_payload_len h_cr h_has_crc h_leftover].
  pose proof (flat_nibbles_length (tx_bytes payload false)) as Hfl. rewrite tx_bytes_length in Hfl.
  repeat split.
  - rewrite pad_to_ge by lia. rewrite take_app_length' by lia. done.
  - by rewrite symbol_count_zero by lia.
Qed.

Lemma short_payload_dropped_witness :
  lora_rx 12 250000 true false meta0 (fst (lora_tx 12 5 250000 false [0x48; 0x69])) [] =
  Some ([], meta0 {{ fm_payload_crc_ok := true }}).
Proof.
  refine (proj2 (proj2 (proj2 (short_payload_dropped 12 5 250000 [0x48; 0x69] true false meta0 _ _ _ _ _))));
    [lia|lia|bytes_tac|cbn; lia|cbn; lia].
Defined.

Lemma push_full nibs a :
  (MAX_PAYLOAD_BYTES <= length (asm_bytes a))%nat -> fold_left push_nibble nibs a = a.
Proof.
  intros H. induction nibs as [|n nibs IH]; [done|]. cbn [fold_left].
  replace (push_nibble a n) with a; [done|]. unfold push_nibble.
  by replace (length (asm_bytes a) <? MAX_PAYLOAD_BYTES)%nat with false by (symmetry; by apply Nat.ltb_ge).
Qed.

Lemma bruteforce_loop_length k bit got p l : length (snd (crc_bruteforce_loop k bit got p l)) = length l.
Proof.
  revert bit l. induction k as [|k IH]; intros bit l; [done|]. cbn [crc_bruteforce_loop].
  case_if; [apply flip_bit_length|]. rewrite IH. by rewrite !flip_bit_length.
Qed.

Lemma bruteforce_length l : length (snd (lora_crc_bruteforce_correct l)) = length l.
Proof. unfold lora_crc_bruteforce_correct. case_if; [done|apply bruteforce_loop_length]. Qed.

Lemma bruteforce_2bit_length l : length (snd (lora_crc_bruteforce_correct_2bit l)) = length l.
Proof.
  unfold lora_crc_bruteforce_correct_2bit. case_if; [done|]. cbn zeta. case_if; [done|].
  destruct (find_pair _ _ _ _) as [[i j]|]; [|done]. cbn [snd]. by rewrite !flip_bit_length.
Qed.

(** Recovery never changes the size of the buffer. *)
Lemma check_crc_length bf bf2 m has_crc l : length (snd (check_crc bf bf2 m has_crc l)) = length l.
Proof.
  pose proof (bruteforce_length l). unfold check_crc. case_if; [|done]. cbn zeta.
  destruct (negb _ && bf); [destruct (lora_crc_bruteforce_correct l) as [[] l1]|]; cbn [snd] in *; try done.
  destruct (_ && bf2); [|done].
  pose proof (bruteforce_2bit_length l1).
  destruct (lora_crc_bruteforce_correct_2bit l1) as [[] l2]; cbn [snd] in *; congruence.
Qed.

(** With the maximum payload of 255 bytes and a CRC the frame has 257
    bytes but the assembly buffer 256: the second CRC byte is dropped, and
    the check compares the last payload byte and the first CRC byte with a
    CRC of the first 254 bytes, whatever the second CRC byte was. *)
Theorem max_payload_crc_misplaced payload crc_lo crc_hi pad bf bf2 m :
  bytes_ok payload -> length payload = 255%nat -> is_byte crc_lo -> is_byte crc_hi ->
  let sent := lora_dewhiten payload 255 ++ [crc_lo; crc_hi] in
  let raw := asm_bytes (fold_left push_nibble (flat_map byte_nibbles sent ++ pad) (mk_asm [] None)) in
  raw = lora_dewhiten payload 255 ++ [crc_lo] /\
  deliver_payload bf bf2 m 255 true raw =
  (let '(m', bytes) := check_crc bf bf2 m true (payload ++ [crc_lo]) in (take 255 bytes, m')) /\
  got_crc (payload ++ [crc_lo]) = u16 (Z.lor (at_ payload 254) (Z.shiftl crc_lo 8)).
Proof.
  intros Hb Hl Hlo Hhi. cbn zeta.
  assert (Er : asm_bytes (fold_left push_nibble (flat_map byte_nibbles
    (lora_dewhiten payload 255 ++ [crc_lo; crc_hi]) ++ pad) (mk_asm [] None)) =
    lora_dewhiten payload 255 ++ [crc_lo]).
  { change [crc_lo; crc_hi] with ([crc_lo] ++ [crc_hi]).
    rewrite (app_assoc (lora_dewhiten payload 255)), flat_map_app, <- app_assoc, fold_left_app.
    assert (Hlen : length (lora_dewhiten payload 255 ++ [crc_lo]) = 256%nat)
      by (rewrite length_app, lora_dewhiten_length, Hl; done).
    rewrite push_bytes; [|apply Forall_app_2; [by apply dewhiten_bytes_ok|by apply Forall_cons_2; [|apply Forall_nil_2]]|].
    - rewrite push_full; [done|]. cbn [asm_bytes]. rewrite app_nil_l. unfold MAX_PAYLOAD_BYTES. lia.
    - rewrite Hlen. done. }
  split; [exact Er|]. rewrite Er. split.
  - unfold deliver_payload.
    assert (Et : trim_and_dewhiten 255 true (lora_dewhiten payload 255 ++ [crc_lo]) = payload ++ [crc_lo]).
    { unfold trim_and_dewhiten. rewrite length_app, lora_dewhiten_length, Hl. cbn [length].
      change (Z.to_nat (255 + 2)) with 257%nat. change (Z.to_nat 255) with 255%nat.
      rewrite (proj2 (Nat.ltb_ge 257 (255 + 1))), (proj2 (Nat.ltb_ge (255 + 1) 255)) by lia.
      rewrite take_ge by (rewrite length_app, lora_dewhiten_length, Hl; cbn; lia).
      by apply dewhiten_twice. }
    rewrite Et. destruct (check_crc bf bf2 m true (payload ++ [crc_lo])) as [m' bytes] eqn:Ec.
    f_equal. change (Z.to_nat 255) with 255%nat.
    apply (f_equal (fun r => length (snd r))) in Ec.
    rewrite check_crc_length, length_app, Hl in Ec. cbn [snd length] in Ec.
    by rewrite take_app_le by lia.
  - unfold got_crc. rewrite length_app, Hl. cbn [length].
    rewrite (at_app_l payload), at_app_r by lia. by rewrite Hl.
Qed.

Lemma max_payload_crc_misplaced_witness :
  got_crc (repeat 7 255 ++ [1]) = u16 (Z.lor (at_ (repeat 7 255) 254) (Z.shiftl 1 8)).
Proof.
  refine (proj2 (proj2 (max_payload_crc_misplaced (repeat 7 255) 1 2 [] true false meta0 _ _ _ _))).
  - apply List.Forall_forall. intros x Hx. apply repeat_spec in Hx. subst. unfold is_byte. lia.
  - apply repeat_length.
  - unfold is_byte; lia.
  - unfold is_byte; lia.
Defined.

(** The correction flags of the metadata are per decoder, not per frame:
    a frame without a CRC leaves them as the previous frame set them, so a
    frame that was not even checked can be reported as CRC-corrected. *)
Theorem crc_flags_stale_without_crc bf bf2 m payload_len raw :
  let m' := snd (deliver_payload bf bf2 m payload_len false raw) in
  fm_payload_crc_ok m' = true /\ fm_crc_corrected m' = fm_crc_corrected m /\
  fm_crc_corrected_bits m' = fm_crc_corrected_bits m.
Proof. done. Qed.
