(* ===== verification/LoraDecoder.v ===== *)
(** The LoRa decoder state machine of src/lora.c: lora_decoder_create_os, the
    setters, reset_to_idle, state_tick and lora_decoder_feed, on the hard
    decision path.

    The floating-point front end (downsampling, dechirp, FFTW, the CFO / STO /
    SFO / SNR estimates) is not modelled: each tick takes as an argument what
    the integer state machine reads from it ([tick_obs]), and the theorems
    hold for every observation. *)

From S2P Require Import Prelude LoraCodec LoraFrame.

Local Open Scope Z_scope.

Inductive lora_state := STATE_IDLE | STATE_PREAMBLE_OK | STATE_HEADER | STATE_PAYLOAD.

#[export] Instance lora_state_eq_dec : EqDecision lora_state.
Proof. solve_decision. Defined.

Definition PREAMBLE_MIN : Z := 5.
Definition BIN_HIST_MAX : nat := 16.

(** What the numeric front end reports for one symbol. *)
Record tick_obs := mk_obs {
  o_sym : Z;             (* argmax bin of the dechirped FFT *)
  o_above_floor : bool;  (* peak > 0 and peak > 2 * noise *)
  o_straddle : bool;     (* running peak mean > 0 and peak < 0.7 * mean *)
  o_cfo_int : Z;         (* round(signed_down / 2 - cfo_frac) at DC2 *)
  o_trim : Z;            (* lrint((N / 4 + cfo_int + cfo_frac) * os_factor) *)
  o_sfo_shift : Z;       (* sign of the drift adjustment: -1, 0 or 1 *)
}.

Section Decoder.
Context {S : Type}.

(** The integer part of struct lora_decoder.  [ld_symbuf] holds the
    [symbuf_count] samples collected, [ld_bin_hist] the
    [preamble_bin_hist_count] bins, [ld_header_syms] the header symbols read
    and [ld_payload_syms] the [payload_sym_count] payload symbols. *)
Record lora_decoder := mk_decoder {
  ld_sf : Z;
  ld_cr : Z;
  ld_bw_hz : Z;
  ld_N : Z;
  ld_os_factor : Z;
  ld_samples_per_symbol : Z;
  ld_symbuf : list S;
  ld_state : lora_state;
  ld_preamble_count : Z;
  ld_locked_once : bool;
  ld_preamble_bin : Z;
  ld_bin_hist : list Z;
  ld_sto_skip_remaining : Z;
  ld_sfo_next_sym_shift : Z;
  ld_header_syms : list Z;
  ld_header_idx : Z;
  ld_cfo_int : Z;
  ld_payload_len : Z;
  ld_payload_cr : Z;
  ld_payload_has_crc : bool;
  ld_payload_ldro : bool;
  ld_hdr_leftover : list Z;
  ld_payload_syms : list Z;
  ld_payload_sym_target : Z;
  ld_crc_bruteforce : bool;
  ld_crc_bruteforce_2bit : bool;
  ld_meta : frame_meta;
  ld_chunk_anchor : Z;
  ld_step_per_sample : Z;
  ld_samples_in_chunk : Z;
}.

(** Callbacks fired: preamble lock and frame delivery. *)
Inductive lora_event :=
| EvPreamble (sf cr bw_hz : Z)
| EvFrame (payload : list Z) (meta : frame_meta).

(** [None]: the arguments are refused. *)
Definition lora_decoder_create_os (sf cr bw_hz os_factor : Z) : option lora_decoder :=
  if (sf <? 7) || (12 <? sf) || (cr <? 5) || (8 <? cr) || (bw_hz <=? 0) then None
  else if (os_factor <? 1) || (16 <? os_factor) then None
  else
    let N := Z.shiftl 1 sf in
    Some {| ld_sf := sf; ld_cr := cr; ld_bw_hz := bw_hz; ld_N := N; ld_os_factor := os_factor;
            ld_samples_per_symbol := N * os_factor; ld_symbuf := []; ld_state := STATE_IDLE;
            ld_preamble_count := 0; ld_locked_once := false; ld_preamble_bin := 0; ld_bin_hist := [];
            ld_sto_skip_remaining := 0; ld_sfo_next_sym_shift := 0; ld_header_syms := [];
            ld_header_idx := 0; ld_cfo_int := 0; ld_payload_len := 0; ld_payload_cr := 0;
            ld_payload_has_crc := false; ld_payload_ldro := false; ld_hdr_leftover := [];
            ld_payload_syms := []; ld_payload_sym_target := 0;
            ld_crc_bruteforce := true; ld_crc_bruteforce_2bit := false;
            ld_meta := mk_frame_meta sf cr bw_hz 0 false false false false 0 0;
            ld_chunk_anchor := 0; ld_step_per_sample := 0; ld_samples_in_chunk := 0 |}.

Definition lora_decoder_create (sf cr bw_hz : Z) : option lora_decoder :=
  lora_decoder_create_os sf cr bw_hz 1.

Definition lora_decoder_set_stream_cursor (d : lora_decoder) (chunk_anchor step : Z) : lora_decoder :=
  d {{ ld_chunk_anchor := chunk_anchor; ld_step_per_sample := step; ld_samples_in_chunk := 0 }}.

Definition lora_decoder_set_crc_bruteforce (d : lora_decoder) (enable : bool) : lora_decoder :=
  d {{ ld_crc_bruteforce := enable }}.

Definition lora_decoder_set_crc_bruteforce_2bit (d : lora_decoder) (enable : bool) : lora_decoder :=
  d {{ ld_crc_bruteforce_2bit := enable }}.

(** Returns to IDLE; the header fields, [ld_preamble_bin] and the metadata
    keep their values. *)
Definition reset_to_idle (d : lora_decoder) : lora_decoder :=
  d {{ ld_state := STATE_IDLE; ld_preamble_count := 0; ld_locked_once := false;
       ld_bin_hist := []; ld_header_syms := []; ld_header_idx := 0; ld_sto_skip_remaining := 0;
       ld_hdr_leftover := []; ld_payload_syms := []; ld_payload_sym_target := 0;
       ld_payload_ldro := false; ld_cfo_int := 0; ld_sfo_next_sym_shift := 0 }}.

(** ** IDLE and PREAMBLE_OK *)

Definition tick_idle (d : lora_decoder) (o : tick_obs) : lora_decoder :=
  if o_above_floor o then
    d {{ ld_preamble_bin := o_sym o; ld_preamble_count := 1; ld_bin_hist := [o_sym o];
         ld_cfo_int := 0; ld_state := STATE_PREAMBLE_OK; ld_locked_once := false }}
  else d.

Definition bin_diff (sym bin N : Z) : Z :=
  let diff := Z.abs (sym - bin) in if diff >? Z.quot N 2 then N - diff else diff.

(** The first most frequent bin of the history. *)
Definition count_bin (h : list Z) (x : Z) : Z :=
  fold_left (fun c y => if y =? x then c + 1 else c) h 0.

Definition hist_mode (h : list Z) : Z :=
  fst (fold_left (fun best x => let c := count_bin h x in if c >? snd best then (x, c) else best)
                 h (at_ h 0, 1)).

Definition k_hat_of (preamble_bin N : Z) (h : list Z) : Z :=
  let k_hat := if (2 <=? length h)%nat then hist_mode h else preamble_bin in
  let k_hat := if k_hat <? 0 then 0 else k_hat in
  if k_hat >=? N then 0 else k_hat.

Definition k_signed_of (k_hat N : Z) : Z := if k_hat >=? Z.quot N 2 then k_hat - N else k_hat.

(** The count is capped so that the machine is ready to detect sync. *)
Definition bump_preamble (d : lora_decoder) : lora_decoder :=
  if ld_preamble_count d <? PREAMBLE_MIN + 4
  then d {{ ld_preamble_count := ld_preamble_count d + 1 }} else d.

(** The first tick with enough matching symbols is the lock: stamped and
    announced once per preamble. *)
Definition preamble_lock (d : lora_decoder) : lora_decoder * list lora_event :=
  if (PREAMBLE_MIN <=? ld_preamble_count d) && negb (ld_locked_once d) then
    let idx := u64 (ld_chunk_anchor d + ld_samples_in_chunk d * ld_step_per_sample d) in
    (d {{ ld_locked_once := true; ld_meta := (ld_meta d) {{ fm_lock_sample_idx := idx }} }},
     [EvPreamble (ld_sf d) (ld_cr d) (ld_bw_hz d)])
  else (d, []).

Definition push_bin (d : lora_decoder) (sym : Z) : lora_decoder :=
  if (length (ld_bin_hist d) <? BIN_HIST_MAX)%nat
  then d {{ ld_bin_hist := ld_bin_hist d ++ [sym] }} else d.

Definition tick_preamble_ok (d : lora_decoder) (o : tick_obs) : lora_decoder * list lora_event :=
  if negb (o_above_floor o) then (reset_to_idle d, [])
  else
    let diff := bin_diff (o_sym o) (ld_preamble_bin d) (ld_N d) in
    let straddle_trigger := (PREAMBLE_MIN <=? ld_preamble_count d) && o_straddle o in
    if (diff <=? 2) && negb straddle_trigger then
      let '(d, ev) := preamble_lock (bump_preamble d) in (push_bin d (o_sym o), ev)
    else if PREAMBLE_MIN <=? ld_preamble_count d then
      let k_hat := k_hat_of (ld_preamble_bin d) (ld_N d) (ld_bin_hist d) in
      let k_signed := k_signed_of k_hat (ld_N d) in
      (d {{ ld_header_idx := 0; ld_state := STATE_HEADER; ld_header_syms := [];
            ld_sto_skip_remaining := (ld_N d - k_signed) * ld_os_factor d;
            ld_preamble_bin := 0; ld_bin_hist := [] }}, [])
    else (reset_to_idle d, []).

(** ** HEADER *)

(** DC1 / DC2: the CFO estimate on the second, then the quarter-symbol trim. *)
Definition tick_downchirp (d : lora_decoder) (o : tick_obs) : lora_decoder :=
  let d := if ld_header_idx d =? 1 then d {{ ld_cfo_int := o_cfo_int o }} else d in
  let d := d {{ ld_header_idx := ld_header_idx d + 1 }} in
  if ld_header_idx d =? 2 then
    let trim_input := if o_trim o <? 0 then 0 else o_trim o in
    d {{ ld_sto_skip_remaining := ld_sto_skip_remaining d + trim_input }}
  else d.

(** All eight header symbols are in. *)
Definition finish_header (d : lora_decoder) : lora_decoder * list lora_event :=
  let h := decode_header (ld_sf d) (header_nibbles (ld_sf d) (ld_header_syms d)) in
  let d := d {{ ld_payload_len := h_payload_len h; ld_payload_has_crc := h_has_crc h;
                ld_payload_cr := h_cr h;
                ld_meta := (ld_meta d) {{ fm_payload_len := h_payload_len h;
                                          fm_has_crc := h_has_crc h;
                                          fm_header_crc_ok := h_crc_ok h }} }} in
  if negb (h_crc_ok h) then (reset_to_idle d, [])
  else
    let ldro := payload_ldro_of (ld_sf d) (ld_bw_hz d) in
    let target := payload_symbol_count (ld_sf d) (h_payload_len h) (h_cr h) (h_has_crc h) ldro in
    let d := d {{ ld_hdr_leftover := h_leftover h; ld_payload_ldro := ldro;
                  ld_payload_sym_target := target; ld_payload_syms := [];
                  ld_state := STATE_PAYLOAD }} in
    if target =? 0 then
      let m := (ld_meta d) {{ fm_payload_crc_ok := negb (h_has_crc h) }} in
      (reset_to_idle (d {{ ld_meta := m }}), [EvFrame [] m])
    else (d, []).

Definition tick_header (d : lora_decoder) (o : tick_obs) : lora_decoder * list lora_event :=
  if ld_header_idx d <? 2 then (tick_downchirp d o, [])
  else
    let hi := ld_header_idx d - 2 in
    let d := if hi <? 8
             then d {{ ld_header_syms := ld_header_syms d ++
                         [header_symbol (o_sym o) (ld_preamble_bin d) (ld_N d)];
                       ld_header_idx := ld_header_idx d + 1 }}
             else d in
    if ld_header_idx d =? 2 + 8 then finish_header d else (d, []).

(** ** PAYLOAD *)

Definition finish_payload (d : lora_decoder) : lora_decoder * list lora_event :=
  let sf_p := if ld_payload_ldro d then ld_sf d - 2 else ld_sf d in
  let raw := assemble_payload sf_p (ld_payload_cr d) (ld_hdr_leftover d) (ld_payload_syms d) in
  let '(payload, m) := deliver_payload (ld_crc_bruteforce d) (ld_crc_bruteforce_2bit d) (ld_meta d)
                         (ld_payload_len d) (ld_payload_has_crc d) raw in
  (reset_to_idle (d {{ ld_meta := m }}), [EvFrame payload m]).

Definition tick_payload (d : lora_decoder) (o : tick_obs) : lora_decoder * list lora_event :=
  let sym := payload_symbol (ld_payload_ldro d) (o_sym o) (ld_preamble_bin d) (ld_N d) in
  let d := if Z.of_nat (length (ld_payload_syms d)) <? MAX_PAYLOAD_SYMBOLS
           then d {{ ld_payload_syms := ld_payload_syms d ++ [sym] }} else d in
  if Z.of_nat (length (ld_payload_syms d)) >=? ld_payload_sym_target d
  then finish_payload d else (d, []).

(** ** One symbol, and the sample loop *)

(** The tail: drift adjustment in the header data symbols and the payload. *)
Definition apply_drift (d : lora_decoder) (o : tick_obs) : lora_decoder :=
  if (bool_decide (ld_state d = STATE_HEADER) && (2 <=? ld_header_idx d))
     || bool_decide (ld_state d = STATE_PAYLOAD)
  then if o_sfo_shift o =? 0 then d else d {{ ld_sfo_next_sym_shift := o_sfo_shift o }}
  else d.

Definition state_tick (d : lora_decoder) (o : tick_obs) : lora_decoder * list lora_event :=
  let '(d, ev) :=
    match ld_state d with
    | STATE_IDLE => (tick_idle d o, [])
    | STATE_PREAMBLE_OK => tick_preamble_ok d o
    | STATE_HEADER => tick_header d o
    | STATE_PAYLOAD => tick_payload d o
    end in
  (apply_drift d o, ev).

(** One pass of the loop of lora_decoder_feed; [o] is what the front end
    reports if this sample completes a symbol. *)
Definition feed_sample (d : lora_decoder) (s : S) (o : tick_obs) : lora_decoder * list lora_event :=
  if ld_sto_skip_remaining d >? 0 then
    (d {{ ld_sto_skip_remaining := ld_sto_skip_remaining d - 1;
          ld_samples_in_chunk := u32 (ld_samples_in_chunk d + 1) }}, [])
  else
    let d := d {{ ld_symbuf := ld_symbuf d ++ [s];
                  ld_samples_in_chunk := u32 (ld_samples_in_chunk d + 1) }} in
    if Z.of_nat (length (ld_symbuf d)) =? ld_samples_per_symbol d then
      let '(d, ev) := state_tick d o in
      let d :=
        if ld_sfo_next_sym_shift d >? 0 then d {{ ld_symbuf := [s] }}
        else if ld_sfo_next_sym_shift d <? 0
             then d {{ ld_sto_skip_remaining := ld_sto_skip_remaining d + 1; ld_symbuf := [] }}
             else d {{ ld_symbuf := [] }} in
      (d {{ ld_sfo_next_sym_shift := 0 }}, ev)
    else (d, []).

Fixpoint lora_decoder_feed (d : lora_decoder) (samples : list (S * tick_obs))
  : lora_decoder * list lora_event :=
  match samples with
  | [] => (d, [])
  | (s, o) :: t =>
      let '(d1, ev1) := feed_sample d s o in
      let '(d2, ev2) := lora_decoder_feed d1 t in
      (d2, ev1 ++ ev2)
  end.

End Decoder.
Arguments lora_decoder : clear implicits.
