(* ===== verification/LoraEndToEnd.v ===== *)
(** The decoder of src/lora.c on a whole frame: run symbol by symbol on the
    chirp bins of a transmitted frame, the state machine delivers exactly the
    payload that was sent. *)

From S2P Require Import Prelude LoraCodec LoraFec LoraFrame LoraLink LoraDecoder.

Local Open Scope Z_scope.

(** ** A transmitted frame through the state machine *)

Section EndToEnd.
Context {S : Type}.
Implicit Types (d : lora_decoder S) (o : tick_obs).

Fixpoint run_ticks (d : lora_decoder S) (obs : list tick_obs) : lora_decoder S * list lora_event :=
  match obs with
  | [] => (d, [])
  | o :: t => let '(d1, e1) := state_tick d o in
              let '(d2, e2) := run_ticks d1 t in (d2, e1 ++ e2)
  end.

Lemma run_ticks_app d a b :
  run_ticks d (a ++ b) =
  let '(d1, e1) := run_ticks d a in let '(d2, e2) := run_ticks d1 b in (d2, e1 ++ e2).
Proof.
  revert d. induction a as [|o a IH]; intros d.
  { cbn. by destruct (run_ticks d b). }
  cbn [app run_ticks]. destruct (state_tick d o) as [d1 e1]. rewrite IH.
  destruct (run_ticks d1 a) as [d2 e2]. destruct (run_ticks d2 b) as [d3 e3]. by rewrite app_assoc.
Qed.

(** The configuration a frame is decoded with. *)
Record rx_config := mk_rx { rx_sf : Z; rx_bw : Z; rx_bf : bool; rx_bf2 : bool; rx_meta : frame_meta }.

Definition has_config (c : rx_config) (d : lora_decoder S) : Prop :=
  ld_sf d = rx_sf c /\ ld_bw_hz d = rx_bw c /\ ld_N d = 2 ^ rx_sf c /\ ld_preamble_bin d = 0 /\
  ld_crc_bruteforce d = rx_bf c /\ ld_crc_bruteforce_2bit d = rx_bf2 c /\ ld_meta d = rx_meta c.

Definition in_header (c : rx_config) (syms : list Z) (d : lora_decoder S) : Prop :=
  has_config c d /\ ld_state d = STATE_HEADER /\
  ld_header_idx d = 2 + Z.of_nat (length syms) /\ ld_header_syms d = syms.

Definition in_payload (c : rx_config) (h : header_fields) (syms : list Z) (d : lora_decoder S) : Prop :=
  has_config c d /\ ld_state d = STATE_PAYLOAD /\ ld_payload_len d = h_payload_len h /\
  ld_payload_cr d = h_cr h /\ ld_payload_has_crc d = h_has_crc h /\
  ld_payload_ldro d = payload_ldro_of (rx_sf c) (rx_bw c) /\ ld_hdr_leftover d = h_leftover h /\
  ld_payload_sym_target d = payload_symbol_count (rx_sf c) (h_payload_len h) (h_cr h) (h_has_crc h)
                              (payload_ldro_of (rx_sf c) (rx_bw c)) /\
  ld_payload_syms d = syms.

Lemma drift_in_header c syms d o : in_header c syms d -> in_header c syms (apply_drift d o).
Proof. intros H. unfold apply_drift. case_if; [|done]. destruct (o_sfo_shift o =? 0); exact H. Qed.

Lemma drift_in_payload c h syms d o : in_payload c h syms d -> in_payload c h syms (apply_drift d o).
Proof. intros H. unfold apply_drift. case_if; [|done]. destruct (o_sfo_shift o =? 0); exact H. Qed.

(** A header symbol that is not the last. *)
Lemma header_tick c syms d o :
  in_header c syms d -> (length syms < 7)%nat ->
  exists d', state_tick d o = (d', []) /\
    in_header c (syms ++ [header_symbol (o_sym o) 0 (2 ^ rx_sf c)]) d'.
Proof.
  intros ((E1 & E2 & E3 & E4 & E5 & E6 & E7) & Es & Ei & Eh) Hl. unfold state_tick. rewrite Es.
  unfold tick_header. rewrite Ei. destruct (Z.ltb_spec (2 + Z.of_nat (length syms)) 2); [lia|]. cbn zeta.
  destruct (Z.ltb_spec (2 + Z.of_nat (length syms) - 2) 8); [|lia]. rcbn.
  destruct (Z.eqb_spec (2 + Z.of_nat (length syms) + 1) (2 + 8)); [lia|].
  eexists. split; [reflexivity|]. apply drift_in_header. rewrite Eh, E3, E4.
  repeat split; rcbn; try assumption. rewrite length_app. cbn. lia.
Qed.

(** The metadata the header leaves. *)
Definition header_meta (m : frame_meta) (h : header_fields) : frame_meta :=
  m {{ fm_payload_len := h_payload_len h; fm_has_crc := h_has_crc h; fm_header_crc_ok := h_crc_ok h }}.

(** The last header symbol of a frame with payload symbols. *)
Lemma last_header_tick c syms d o :
  let h := decode_header (rx_sf c) (header_nibbles (rx_sf c) (syms ++ [header_symbol (o_sym o) 0 (2 ^ rx_sf c)])) in
  in_header c syms d -> length syms = 7%nat -> h_crc_ok h = true ->
  payload_symbol_count (rx_sf c) (h_payload_len h) (h_cr h) (h_has_crc h) (payload_ldro_of (rx_sf c) (rx_bw c)) <> 0 ->
  exists d', state_tick d o = (d', []) /\
    in_payload (mk_rx (rx_sf c) (rx_bw c) (rx_bf c) (rx_bf2 c) (header_meta (rx_meta c) h)) h [] d'.
Proof.
  cbn zeta. intros ((E1 & E2 & E3 & E4 & E5 & E6 & E7) & Es & Ei & Eh) Hl Hok Ht.
  unfold state_tick. rewrite Es. unfold tick_header. rewrite Ei, Hl.
  change (2 + Z.of_nat 7 <? 2) with false. change (2 + Z.of_nat 7 - 2 <? 8) with true. cbn match zeta.
  rcbn. change (2 + Z.of_nat 7 + 1 =? 2 + 8) with true. cbn match.
  unfold finish_header. rcbn. rewrite Eh, E1, E2, E3, E4.
  set (h := decode_header _ _) in *. rewrite Hok. cbn [negb]. rcbn.
  rewrite (proj2 (Z.eqb_neq _ _) Ht). eexists. split; [reflexivity|].
  apply drift_in_payload. unfold header_meta. rewrite Hok, <- E7. repeat split; rcbn; done.
Qed.

Lemma payload_tick c h syms d o :
  in_payload c h syms d -> Z.of_nat (length syms) + 1 < ld_payload_sym_target d ->
  exists d', state_tick d o = (d', []) /\
    in_payload c h (syms ++ [payload_symbol (payload_ldro_of (rx_sf c) (rx_bw c)) (o_sym o) 0 (2 ^ rx_sf c)]) d'.
Proof.
  intros ((E1 & E2 & E3 & E4 & E5 & E6 & E7) & Es & F1 & F2 & F3 & F4 & F5 & F6 & F7) Hl.
  pose proof (symbol_count_range (rx_sf c) (h_payload_len h) (h_cr h) (h_has_crc h)
    (payload_ldro_of (rx_sf c) (rx_bw c))) as Hmax.
  unfold state_tick. rewrite Es. unfold tick_payload. rewrite F7. cbn zeta.
  destruct (Z.ltb_spec (Z.of_nat (length syms)) MAX_PAYLOAD_SYMBOLS); [|lia]. rcbn.
  rewrite length_app. cbn [length].
  destruct (Z.geb_spec (Z.of_nat (length syms + 1)) (ld_payload_sym_target d)); [lia|].
  eexists. split; [reflexivity|]. apply drift_in_payload. rewrite F4, E3, E4.
  repeat split; rcbn; assumption || done.
Qed.

Lemma last_payload_tick c h syms d o :
  in_payload c h syms d -> Z.of_nat (length syms) + 1 = ld_payload_sym_target d ->
  let ldro := payload_ldro_of (rx_sf c) (rx_bw c) in
  let all := syms ++ [payload_symbol ldro (o_sym o) 0 (2 ^ rx_sf c)] in
  let '(payload, m) := deliver_payload (rx_bf c) (rx_bf2 c) (rx_meta c) (h_payload_len h) (h_has_crc h)
    (assemble_payload (rx_sf c - (if ldro then 2 else 0)) (h_cr h) (h_leftover h) all) in
  exists d', state_tick d o = (d', [EvFrame payload m]) /\ ld_state d' = STATE_IDLE /\ ld_meta d' = m.
Proof.
  intros ((E1 & E2 & E3 & E4 & E5 & E6 & E7) & Es & F1 & F2 & F3 & F4 & F5 & F6 & F7) Hl. cbn zeta.
  pose proof (symbol_count_range (rx_sf c) (h_payload_len h) (h_cr h) (h_has_crc h)
    (payload_ldro_of (rx_sf c) (rx_bw c))) as Hmax.
  unfold state_tick. rewrite Es. unfold tick_payload. rewrite F7. cbn zeta.
  destruct (Z.ltb_spec (Z.of_nat (length syms)) MAX_PAYLOAD_SYMBOLS); [|lia]. rcbn.
  rewrite length_app. cbn [length].
  destruct (Z.geb_spec (Z.of_nat (length syms + 1)) (ld_payload_sym_target d)); [|lia].
  unfold finish_payload. rcbn. rewrite F1, F2, F3, F4, F5, E1, E3, E4, E5, E6, E7.
  replace (if payload_ldro_of (rx_sf c) (rx_bw c) then rx_sf c - 2 else rx_sf c)
    with (rx_sf c - (if payload_ldro_of (rx_sf c) (rx_bw c) then 2 else 0))
    by (destruct (payload_ldro_of (rx_sf c) (rx_bw c)); lia).
  destruct (deliver_payload _ _ _ _ _ _) as [payload m]. eexists. by repeat split.
Qed.
Lemma header_run c obs : forall syms d,
  in_header c syms d -> (length syms + length obs <= 7)%nat ->
  exists d', run_ticks d obs = (d', []) /\
    in_header c (syms ++ map (fun o => header_symbol (o_sym o) 0 (2 ^ rx_sf c)) obs) d'.
Proof.
  induction obs as [|o obs IH]; intros syms d Hd Hl; [exists d; by rewrite app_nil_r|].
  cbn [length map] in *. destruct (header_tick c syms d o Hd ltac:(lia)) as (d1 & E1 & H1).
  destruct (IH _ d1 H1) as (d2 & E2 & H2); [rewrite length_app; cbn; lia|].
  exists d2. cbn [run_ticks]. rewrite E1, E2. split; [done|]. by rewrite <- app_assoc in H2.
Qed.

Lemma payload_run c h obs : forall syms d,
  in_payload c h syms d -> Z.of_nat (length syms + length obs) < ld_payload_sym_target d ->
  exists d', run_ticks d obs = (d', []) /\ ld_payload_sym_target d' = ld_payload_sym_target d /\
    in_payload c h (syms ++ map (fun o => payload_symbol (payload_ldro_of (rx_sf c) (rx_bw c)) (o_sym o) 0
                                            (2 ^ rx_sf c)) obs) d'.
Proof.
  induction obs as [|o obs IH]; intros syms d Hd Hl; [exists d; by rewrite app_nil_r|].
  cbn [length map] in *. destruct (payload_tick c h syms d o Hd ltac:(lia)) as (d1 & E1 & H1).
  assert (Et : ld_payload_sym_target d1 = ld_payload_sym_target d).
  { destruct Hd as (_ & _ & _ & _ & _ & _ & _ & T & _), H1 as (_ & _ & _ & _ & _ & _ & _ & T1 & _).
    by rewrite T, T1. }
  destruct (IH _ d1 H1) as (d2 & E2 & T2 & H2); [rewrite length_app, Et; cbn; lia|].
  exists d2. cbn [run_ticks]. rewrite E1, E2. split; [done|]. split; [congruence|].
  by rewrite <- app_assoc in H2.
Qed.

(** The tick-by-tick machine computes what [lora_rx] computes at once. *)
Lemma run_ticks_rx c d obs_h obs_p payload m' :
  let hbins := map o_sym obs_h in
  let pbins := map o_sym obs_p in
  let h := decode_header (rx_sf c) (header_nibbles (rx_sf c)
             (map (fun b => header_symbol b 0 (2 ^ rx_sf c)) hbins)) in
  in_header c [] d -> length obs_h = 8%nat -> obs_p <> [] ->
  payload_symbol_count (rx_sf c) (h_payload_len h) (h_cr h) (h_has_crc h)
    (payload_ldro_of (rx_sf c) (rx_bw c)) = Z.of_nat (length obs_p) ->
  lora_rx (rx_sf c) (rx_bw c) (rx_bf c) (rx_bf2 c) (header_meta (rx_meta c) h) hbins pbins
    = Some (payload, m') ->
  exists d', run_ticks d (obs_h ++ obs_p) = (d', [EvFrame payload m']) /\ ld_state d' = STATE_IDLE.
Proof.
  cbn zeta. intros Hd Hh Hp Ht Hrx.
  destruct obs_h as [|oh obs_h _] using rev_ind; [done|]. rewrite length_app in Hh. cbn [length] in Hh.
  destruct obs_p as [|op obs_p _] using rev_ind; [done|].
  destruct (header_run c obs_h [] d Hd ltac:(cbn; lia)) as (d1 & E1 & H1).
  rewrite map_map, map_app in *. cbn [map app] in *.
  set (syms := map (fun o => header_symbol (o_sym o) 0 (2 ^ rx_sf c)) obs_h) in *.
  set (h := decode_header _ _) in *.
  unfold lora_rx in Hrx. cbn zeta in Hrx. rewrite map_map, map_app in Hrx. cbn [map] in Hrx.
  fold syms in Hrx. fold h in Hrx. destruct (h_crc_ok h) eqn:Hok; [|done].
  rewrite Ht in Hrx. rewrite length_app in Ht, Hrx. cbn [length] in Ht, Hrx.
  destruct (Z.eqb_spec (Z.of_nat (length obs_p + 1)) 0) as [|_]; [lia|].
  rewrite length_map, length_app in Hrx. cbn [length] in Hrx. rewrite Z.eqb_refl in Hrx.
  destruct (last_header_tick c syms d1 oh H1) as (d2 & E2 & H2); fold h; try done.
  { unfold syms. rewrite length_map. lia. } { rewrite Ht. lia. }
  fold h in H2. clearbody h. set (c2 := mk_rx _ _ _ _ _) in *.
  assert (Ht2 : ld_payload_sym_target d2 = Z.of_nat (length obs_p + 1)) by (rewrite <- Ht; apply H2).
  destruct (payload_run c2 h obs_p [] d2 H2) as (d3 & E3 & T3 & H3); [rewrite Ht2; cbn [length]; lia|].
  pose proof (last_payload_tick c2 h _ d3 op H3) as H4.
  rewrite app_nil_l in H4. rewrite map_map, map_app in Hrx. cbn [map] in Hrx.
  assert (Hl3 : Z.of_nat (length (map (fun o => payload_symbol (payload_ldro_of (rx_sf c2) (rx_bw c2))
    (o_sym o) 0 (2 ^ rx_sf c2)) obs_p)) + 1 = ld_payload_sym_target d3) by (rewrite length_map; lia).
  specialize (H4 Hl3). cbn zeta in H4. apply (inj Some) in Hrx.
  change (rx_sf c2) with (rx_sf c) in *. change (rx_bw c2) with (rx_bw c) in *.
  change (rx_bf c2) with (rx_bf c) in *. change (rx_bf2 c2) with (rx_bf2 c) in *.
  change (rx_meta c2) with (header_meta (rx_meta c) h) in *.
  rewrite Hrx in H4. destruct H4 as (d4 & E4 & S4 & _). exists d4. split; [|done].
  rewrite <- app_assoc, run_ticks_app, E1, run_ticks_app. cbn [run_ticks]. rewrite E2.
  rewrite run_ticks_app, E3. cbn [run_ticks]. by rewrite E4.
Qed.

(** End to end: a decoder that has just read the two downchirps, fed the
    chirp bins of a transmitted frame one symbol at a time (whatever else the
    front end reports), fires exactly one callback, with exactly the payload
    sent and its CRC accepted, and returns to IDLE. *)
Theorem decoder_delivers_frame sf cr bw_hz has_crc payload bf bf2 m d obs_h obs_p :
  7 <= sf <= 12 -> 5 <= cr <= 8 -> bytes_ok payload ->
  (1 <= length payload <= 255)%nat -> (has_crc = true -> 2 <= length payload <= 254)%nat ->
  sf - 7 < 2 * Z.of_nat (length payload) + (if has_crc then 4 else 0) ->
  in_header (mk_rx sf bw_hz bf bf2 m) [] d ->
  map o_sym obs_h = fst (lora_tx sf cr bw_hz has_crc payload) ->
  map o_sym obs_p = snd (lora_tx sf cr bw_hz has_crc payload) ->
  exists d' m', run_ticks d (obs_h ++ obs_p) = (d', [EvFrame payload m']) /\
    ld_state d' = STATE_IDLE /\ fm_payload_len m' = Z.of_nat (length payload) /\
    fm_header_crc_ok m' = true /\ fm_payload_crc_ok m' = true.
Proof.
  intros Hsf Hcr Hb Hl Hlc Hn Hd Eh Ep.
  set (h := {| h_payload_len := Z.of_nat (length payload); h_has_crc := has_crc; h_cr := cr;
               h_crc_ok := true;
               h_leftover := pad_to (Z.to_nat (sf - 7)) (flat_map byte_nibbles (tx_bytes payload has_crc)) |}).
  assert (E : decode_header sf (header_nibbles sf (map (fun b => header_symbol b 0 (2 ^ sf)) (map o_sym obs_h))) = h).
  { rewrite Eh. apply tx_header_decodes; (done || lia). }
  pose proof (lora_frame_rx sf cr bw_hz has_crc payload bf bf2 (header_meta m h) Hsf Hcr Hb Hl Hlc Hn) as Hrx.
  rewrite <- Eh, <- Ep in Hrx.
  match type of Hrx with _ = Some (_, ?mm) => set (m2 := mm) in Hrx end.
  destruct (symbol_count_blocks sf (Z.of_nat (length payload)) cr has_crc (payload_ldro_of sf bw_hz))
    as (Hc & Hc0 & _); [done|done|lia|lia|].
  assert (Hpl : payload_symbol_count sf (Z.of_nat (length payload)) cr has_crc (payload_ldro_of sf bw_hz)
                = Z.of_nat (length obs_p)).
  { rewrite <- (length_map o_sym obs_p), Ep. unfold lora_tx. cbn zeta. cbn [snd].
    rewrite length_map, tx_blocks_length, Hc, Z.div_mul by lia. nia. }
  destruct (run_ticks_rx (mk_rx sf bw_hz bf bf2 m) d obs_h obs_p payload m2 Hd) as (d' & E1 & E2);
    cbn [rx_sf rx_bw rx_bf rx_bf2 rx_meta] in *; rewrite ?E; cbn [h_payload_len h_cr h_has_crc h]; try done.
  - rewrite <- (length_map o_sym obs_h), Eh. unfold lora_tx. cbn zeta. cbn [fst].
    by rewrite length_map, tx_block_length.
  - intros ->. cbn in Hpl. rewrite Hc in Hpl. nia.
  - exists d', m2. split; [exact E1|]. split; [exact E2|]. by unfold m2; destruct has_crc.
Qed.
End EndToEnd.

(** A decoder in the state the theorem starts from. *)
Definition dec_at_header : lora_decoder unit :=
  mk_decoder 7 5 250000 128 1 128 [] STATE_HEADER 5 true 0 [] 0 0 [] 2 0 0 0 false false [] [] 0 true false
    meta0 0 0 0.

Definition sym_obs (b : Z) : tick_obs := mk_obs b true false 0 0 1.

Lemma map_sym_obs l : map o_sym (map sym_obs l) = l.
Proof. rewrite map_map. apply map_id. Qed.

Lemma decoder_delivers_frame_witness :
  exists d' m', run_ticks dec_at_header
    (map sym_obs (fst (lora_tx 7 5 250000 true [0x48; 0x69; 0x21])) ++
     map sym_obs (snd (lora_tx 7 5 250000 true [0x48; 0x69; 0x21]))) =
    (d', [EvFrame [0x48; 0x69; 0x21] m']) /\
    ld_state d' = STATE_IDLE /\ fm_payload_len m' = 3 /\
    fm_header_crc_ok m' = true /\ fm_payload_crc_ok m' = true.
Proof.
  apply (decoder_delivers_frame 7 5 250000 true [0x48; 0x69; 0x21] true false meta0 dec_at_header);
    [lia|lia|bytes_tac|cbn; lia|cbn; lia|cbn; lia| |apply map_sym_obs|apply map_sym_obs].
  repeat split.
Defined.
