(* ===== verification/CxReal.v ===== *)
(** Exact complex arithmetic: pairs of reals, the unit circle, sums of roots
    of unity and the triangle inequality, as the signal theorems need them. *)

From Stdlib Require Import Reals Lra Psatz Ring.
From S2P Require Import Prelude.

Local Open Scope R_scope.

Definition cx : Type := R * R.
Definition czero : cx := (0, 0).
Definition cone : cx := (1, 0).
Definition cadd (x y : cx) : cx := (fst x + fst y, snd x + snd y).
Definition cmul (x y : cx) : cx := (fst x * fst y - snd x * snd y, fst x * snd y + snd x * fst y).
Definition copp (x : cx) : cx := (- fst x, - snd x).
Definition csub (x y : cx) : cx := cadd x (copp y).
Definition cconj (x : cx) : cx := (fst x, - snd x).
Definition cnorm2 (x : cx) : R := fst x * fst x + snd x * snd x.
Definition cabs (x : cx) : R := sqrt (cnorm2 x).
Definition cis (t : R) : cx := (cos t, sin t).
Definition cscale (r : R) (x : cx) : cx := (r * fst x, r * snd x).

Ltac cx_ring := repeat match goal with x : cx |- _ => destruct x end; unfold czero, cone, cadd, cmul, copp, csub, cconj, cscale in *; cbn [fst snd]; f_equal; ring.

Lemma cx_ring_theory : ring_theory czero cone cadd cmul csub copp (@eq cx).
Proof. constructor; intros; cx_ring. Qed.

Add Ring cx_ring : cx_ring_theory.

(** ** Magnitude *)

Lemma cnorm2_pos x : 0 <= cnorm2 x.
Proof. unfold cnorm2. nra. Qed.

Lemma cabs_pos x : 0 <= cabs x.
Proof. apply sqrt_pos. Qed.

Lemma cabs_sqr x : cabs x * cabs x = cnorm2 x.
Proof. apply sqrt_sqrt, cnorm2_pos. Qed.

Lemma cnorm2_mul x y : cnorm2 (cmul x y) = cnorm2 x * cnorm2 y.
Proof. destruct x, y. unfold cnorm2, cmul. cbn [fst snd]. ring. Qed.

Lemma cabs_mul x y : cabs (cmul x y) = cabs x * cabs y.
Proof. unfold cabs. rewrite cnorm2_mul. apply sqrt_mult_alt, cnorm2_pos. Qed.

Lemma cabs_zero : cabs czero = 0.
Proof. unfold cabs, cnorm2, czero. cbn [fst snd]. rewrite Rmult_0_l, Rplus_0_l. apply sqrt_0. Qed.

Lemma cabs_opp x : cabs (copp x) = cabs x.
Proof. unfold cabs. f_equal. destruct x. unfold cnorm2, copp. cbn [fst snd]. ring. Qed.

Lemma cabs_conj x : cabs (cconj x) = cabs x.
Proof. unfold cabs. f_equal. destruct x. unfold cnorm2, cconj. cbn [fst snd]. ring. Qed.

Lemma cabs_real r : 0 <= r -> cabs (r, 0) = r.
Proof. intros. unfold cabs, cnorm2. cbn [fst snd]. rewrite Rmult_0_l, Rplus_0_r. by apply sqrt_square. Qed.

Lemma sqr_le_abs a b : 0 <= b -> a * a <= b * b -> a <= b.
Proof. nra. Qed.

Lemma cabs_tri x y : cabs (cadd x y) <= cabs x + cabs y.
Proof.
  pose proof (cabs_pos x). pose proof (cabs_pos y). apply sqr_le_abs; [lra|]. rewrite cabs_sqr.
  pose proof (cabs_sqr x) as Ex. pose proof (cabs_sqr y) as Ey.
  assert (Hc : fst x * fst y + snd x * snd y <= cabs x * cabs y).
  { apply sqr_le_abs; [nra|]. replace (cabs x * cabs y * (cabs x * cabs y)) with ((cabs x * cabs x) * (cabs y * cabs y)) by ring.
    rewrite Ex, Ey. unfold cnorm2. destruct x as [a b], y as [c d]. cbn [fst snd].
    pose proof (Rle_0_sqr (a * d - b * c)) as Hq. unfold Rsqr in Hq. lra. }
  unfold cnorm2 in *. destruct x as [a b], y as [c d]. unfold cadd. cbn [fst snd] in *. nra.
Qed.

Lemma cabs_sub_le x y : cabs x - cabs y <= cabs (cadd x y).
Proof. pose proof (cabs_tri (cadd x y) (copp y)) as H. rewrite cabs_opp in H. replace (cadd (cadd x y) (copp y)) with x in H by ring. lra. Qed.

Lemma re_le_cabs x : Rabs (fst x) <= cabs x.
Proof. apply sqr_le_abs; [apply cabs_pos|]. rewrite cabs_sqr. pose proof (Rsqr_abs (fst x)) as E. unfold Rsqr in E. rewrite <- E. unfold cnorm2. nra. Qed.

Lemma im_le_cabs x : Rabs (snd x) <= cabs x.
Proof. apply sqr_le_abs; [apply cabs_pos|]. rewrite cabs_sqr. pose proof (Rsqr_abs (snd x)) as E. unfold Rsqr in E. rewrite <- E. unfold cnorm2. nra. Qed.

Lemma norm2_lt x y : cabs x < cabs y -> cnorm2 x < cnorm2 y.
Proof. intros H. rewrite <- !cabs_sqr. pose proof (cabs_pos x). nra. Qed.

(** ** The unit circle *)

Lemma cis_add a b : cis (a + b) = cmul (cis a) (cis b).
Proof. unfold cis, cmul. cbn [fst snd]. rewrite cos_plus, sin_plus. f_equal; ring. Qed.

Lemma cis_0 : cis 0 = cone.
Proof. unfold cis, cone. by rewrite cos_0, sin_0. Qed.

Lemma cis_neg a : cis (- a) = cconj (cis a).
Proof. unfold cis, cconj. cbn [fst snd]. by rewrite cos_neg, sin_neg. Qed.

Lemma cabs_cis a : cabs (cis a) = 1.
Proof. unfold cabs, cnorm2, cis. cbn [fst snd]. pose proof (sin2_cos2 a) as H. unfold Rsqr in H. replace (_ + _) with 1 by lra. apply sqrt_1. Qed.

Lemma cis_2kPI (k : Z) : cis (2 * PI * IZR k) = cone.
Proof.
  assert (Hn : forall n : nat, cis (2 * PI * IZR (Z.of_nat n)) = cone).
  { induction n as [|n IH]; [rewrite Rmult_0_r; apply cis_0|]. rewrite Nat2Z.inj_succ, succ_IZR, Rmult_plus_distr_l, Rmult_1_r, cis_add, IH.
    unfold cis. rewrite cos_2PI, sin_2PI. unfold cmul, cone. cbn [fst snd]. f_equal; ring. }
  destruct (Z.le_ge_cases 0 k) as [Hk|Hk].
  - rewrite <- (Z2Nat.id k Hk). apply Hn.
  - rewrite <- (Z.opp_involutive k), opp_IZR, Ropp_mult_distr_r_reverse, cis_neg, <- (Z2Nat.id (- k)) by lia. rewrite Hn. unfold cconj, cone. cbn [fst snd]. f_equal. ring.
Qed.

Lemma cis_period a (k : Z) : cis (a + 2 * PI * IZR k) = cis a.
Proof. rewrite cis_add, cis_2kPI. ring. Qed.

(** A turn that is no whole number of turns is not the unit. *)
Lemma cis_not_one (m N : Z) : (0 < N)%Z -> (m mod N <> 0)%Z -> cis (2 * PI * IZR m / IZR N) <> cone.
Proof.
  intros HN Hm E. assert (HNR : 0 < IZR N) by (apply (IZR_lt 0); lia). pose proof PI_RGT_0 as Hpi.
  assert (Em : 2 * PI * IZR m / IZR N = 2 * PI * IZR (m mod N) / IZR N + 2 * PI * IZR (m / N)).
  { rewrite (Z.div_mod m N) at 1 by lia. rewrite plus_IZR, mult_IZR. field. lra. }
  rewrite Em, cis_period in E. pose proof (Z.mod_pos_bound m N HN) as Hb. set (r := (m mod N)%Z) in *.
  assert (Hr : 0 < IZR r < IZR N) by (split; apply IZR_lt; lia). set (x := 2 * PI * IZR r / IZR N) in *.
  assert (Hx : 0 < x < 2 * PI).
  { unfold x. split; [apply Rdiv_lt_0_compat; nra|]. apply (Rmult_lt_reg_r (IZR N)); [lra|]. unfold Rdiv. rewrite Rmult_assoc, Rinv_l by lra. nra. }
  apply (f_equal fst) in E. cbn [cis cone fst] in E. destruct (Rlt_le_dec x PI) as [H|H].
  - pose proof (cos_decreasing_1 0 x ltac:(lra) ltac:(lra) ltac:(lra) ltac:(lra) ltac:(lra)) as H'. rewrite cos_0 in H'. lra.
  - pose proof (cos_increasing_1 x (2 * PI) ltac:(lra) ltac:(lra) ltac:(lra) ltac:(lra) ltac:(lra)) as H'. rewrite cos_2PI in H'. lra.
Qed.

(** ** Sums *)

Fixpoint csum (n : nat) (f : nat -> cx) : cx := match n with O => czero | S n => cadd (csum n f) (f n) end.

Lemma csum_ext n f g : (forall i, (i < n)%nat -> f i = g i) -> csum n f = csum n g.
Proof. induction n as [|n IH]; intros H; [done|]. cbn. rewrite IH by (intros; apply H; lia). by rewrite H by lia. Qed.

Lemma csum_add n f g : csum n (fun i => cadd (f i) (g i)) = cadd (csum n f) (csum n g).
Proof. induction n as [|n IH]; cbn; [ring|]. rewrite IH. ring. Qed.

Lemma csum_scale n c f : csum n (fun i => cmul c (f i)) = cmul c (csum n f).
Proof. induction n as [|n IH]; cbn; [ring|]. rewrite IH. ring. Qed.

Lemma csum_one n : csum n (fun _ => cone) = (IZR (Z.of_nat n), 0).
Proof. induction n as [|n IH]; [done|]. cbn [csum]. rewrite IH, Nat2Z.inj_succ, succ_IZR. unfold cadd, cone. cbn [fst snd]. f_equal; ring. Qed.

Fixpoint rsum (n : nat) (f : nat -> R) : R := match n with O => 0 | S n => rsum n f + f n end.

Lemma csum_abs n f : cabs (csum n f) <= rsum n (fun i => cabs (f i)).
Proof. induction n as [|n IH]; cbn [csum rsum]; [rewrite cabs_zero; lra|]. pose proof (cabs_tri (csum n f) (f n)). lra. Qed.

Lemma rsum_le n f g : (forall i, (i < n)%nat -> f i <= g i) -> rsum n f <= rsum n g.
Proof. induction n as [|n IH]; intros H; cbn [rsum]; [lra|]. pose proof (H n ltac:(lia)). pose proof (IH ltac:(intros; apply H; lia)). lra. Qed.

Lemma rsum_const n c : rsum n (fun _ => c) = IZR (Z.of_nat n) * c.
Proof. induction n as [|n IH]; cbn [rsum]; [cbn; ring|]. rewrite IH, Nat2Z.inj_succ, succ_IZR. ring. Qed.

Lemma rsum_split a b f : rsum (a + b) f = rsum a f + rsum b (fun i => f (a + i)%nat).
Proof. induction b as [|b IH]; [rewrite Nat.add_0_r; cbn; lra|]. rewrite Nat.add_succ_r. cbn [rsum]. rewrite IH. lra. Qed.

Fixpoint cpow (z : cx) (n : nat) : cx := match n with O => cone | S n => cmul z (cpow z n) end.

(** The geometric sum. *)
Lemma csum_geometric n z : cmul (csub z cone) (csum n (cpow z)) = csub (cpow z n) cone.
Proof.
  induction n as [|n IH]; [cbn; ring|]. cbn [csum cpow].
  replace (cmul (csub z cone) (cadd (csum n (cpow z)) (cpow z n))) with (cadd (cmul (csub z cone) (csum n (cpow z))) (cmul (csub z cone) (cpow z n))) by ring.
  rewrite IH. ring.
Qed.

Lemma cis_pow a n : cpow (cis a) n = cis (IZR (Z.of_nat n) * a).
Proof. induction n as [|n IH]; [by rewrite Rmult_0_l, cis_0|]. cbn [cpow]. rewrite IH, <- cis_add. f_equal. rewrite Nat2Z.inj_succ, succ_IZR. ring. Qed.

Lemma cmul_cancel x y : x <> czero -> cmul x y = czero -> y = czero.
Proof.
  intros Hx E. assert (En : cnorm2 x * cnorm2 y = 0) by (rewrite <- cnorm2_mul, E; unfold cnorm2, czero; cbn [fst snd]; ring).
  destruct (Rmult_integral _ _ En) as [H|H].
  - exfalso. apply Hx. destruct x as [a b]. unfold cnorm2 in H. cbn [fst snd] in H. unfold czero. assert (a = 0) by nra. assert (b = 0) by nra. by subst.
  - destruct y as [a b]. unfold cnorm2 in H. cbn [fst snd] in H. unfold czero. assert (a = 0) by nra. assert (b = 0) by nra. by subst.
Qed.

(** Orthogonality of the characters of Z/N. *)
Lemma roots_sum (m : Z) (N : nat) : (0 < N)%nat ->
  csum N (fun n => cis (2 * PI * IZR (m * Z.of_nat n) / IZR (Z.of_nat N))) = if (m mod Z.of_nat N =? 0)%Z then (IZR (Z.of_nat N), 0) else czero.
Proof.
  intros HN. assert (HNR : 0 < IZR (Z.of_nat N)) by (apply (IZR_lt 0); lia).
  destruct (Z.eqb_spec (m mod Z.of_nat N) 0) as [Em|Em].
  - rewrite <- csum_one. apply csum_ext. intros n _. apply Z.mod_divide in Em as [k ->]; [|lia].
    replace (2 * PI * IZR (k * Z.of_nat N * Z.of_nat n) / IZR (Z.of_nat N)) with (2 * PI * IZR (k * Z.of_nat n)) by (rewrite !mult_IZR; field; lra). apply cis_2kPI.
  - set (a := 2 * PI * IZR m / IZR (Z.of_nat N)). pose proof (cis_not_one m (Z.of_nat N) ltac:(lia) Em) as Hne. fold a in Hne.
    rewrite (csum_ext _ _ (cpow (cis a))).
    2: { intros n _. rewrite cis_pow. f_equal. unfold a. rewrite mult_IZR. field. lra. }
    apply (cmul_cancel (csub (cis a) cone)).
    { intros E. apply Hne. replace (cis a) with (cadd (csub (cis a) cone) cone) by ring. rewrite E. ring. }
    rewrite csum_geometric, cis_pow. unfold a. replace (IZR (Z.of_nat N) * (2 * PI * IZR m / IZR (Z.of_nat N))) with (2 * PI * IZR m) by (field; lra).
    rewrite cis_2kPI. ring.
Qed.

(** A small rotation moves a point on the circle by at most its angle. *)
Lemma cis_near_one a : cabs (csub (cis a) cone) <= Rabs a.
Proof.
  apply sqr_le_abs; [apply Rabs_pos|]. rewrite cabs_sqr. pose proof (Rsqr_abs a) as Ea. unfold Rsqr in Ea. rewrite <- Ea.
  unfold cnorm2, csub, cadd, copp, cis, cone. cbn [fst snd]. pose proof (sin2_cos2 a) as H. unfold Rsqr in H.
  replace ((cos a + - (1)) * (cos a + - (1)) + (sin a + - 0) * (sin a + - 0)) with (2 - 2 * cos a) by nra.
  replace a with (2 * (a / 2)) at 1 by field. rewrite cos_2a_sin.
  assert (Hs : Rabs (sin (a / 2)) <= Rabs (a / 2)).
  { destruct (Rle_lt_dec 0 (a / 2)) as [Hp|Hp].
    - rewrite (Rabs_pos_eq (a / 2)) by done. destruct (Req_dec (a / 2) 0) as [->|Hn]; [rewrite sin_0, Rabs_R0; lra|].
      pose proof (sin_lt_x (a / 2) ltac:(lra)) as H1. apply Rabs_le. split; [|lra].
      destruct (Rle_lt_dec (a / 2) PI) as [Hpi|Hpi]; [pose proof (sin_ge_0 (a / 2) Hp Hpi); lra|]. pose proof (SIN_bound (a / 2)) as Hb. pose proof PI2_3_2. lra.
    - rewrite <- Rabs_Ropp, <- (Rabs_Ropp (a / 2)), <- sin_neg. rewrite (Rabs_pos_eq (- (a / 2))) by lra.
      pose proof (sin_lt_x (- (a / 2)) ltac:(lra)) as H1. apply Rabs_le. split; [|lra].
      destruct (Rle_lt_dec (- (a / 2)) PI) as [Hpi|Hpi]; [pose proof (sin_ge_0 (- (a / 2)) ltac:(lra) Hpi); lra|]. pose proof (SIN_bound (- (a / 2))) as Hb. pose proof PI2_3_2. lra. }
  pose proof (Rsqr_le_abs_1 _ _ Hs) as Hq. unfold Rsqr in Hq. nra.
Qed.

(** ** Counting *)

Lemma rsum_zero n : rsum n (fun _ => 0) = 0.
Proof. rewrite rsum_const. ring. Qed.

Lemma rsum_lin n f (x y : R) : rsum n (fun i => x + y * f i) = IZR (Z.of_nat n) * x + y * rsum n f.
Proof. induction n as [|n IH]; [cbn; ring|]. cbn [rsum]. rewrite IH, Nat2Z.inj_succ, succ_IZR. ring. Qed.

Definition ind (b : bool) : R := if b then 1 else 0.

Lemma rsum_prefix n k : rsum n (fun i => ind (i <? k)%nat) <= IZR (Z.of_nat k).
Proof.
  assert (H : rsum n (fun i => ind (i <? k)%nat) = IZR (Z.of_nat (n `min` k))).
  { induction n as [|n IH]; [done|]. cbn [rsum]. rewrite IH. destruct (Nat.ltb_spec n k) as [Hk|Hk]; cbn [ind].
    - rewrite <- (plus_IZR _ 1). f_equal. lia.
    - rewrite Rplus_0_r. do 2 f_equal. lia. }
  rewrite H. apply IZR_le. lia.
Qed.

Lemma rsum_suffix n k : (k <= n)%nat -> rsum n (fun i => ind (k <=? i)%nat) <= IZR (Z.of_nat (n - k)).
Proof.
  intros Hk. replace n with (k + (n - k))%nat at 1 by lia. rewrite rsum_split.
  assert (H0 : rsum k (fun i => ind (k <=? i)%nat) <= 0).
  { rewrite <- (rsum_zero k). apply rsum_le. intros i Hi. rewrite (proj2 (Nat.leb_gt _ _) Hi). cbn. lra. }
  assert (H1 : rsum (n - k) (fun i => ind (k <=? k + i)%nat) <= IZR (Z.of_nat (n - k))); [|lra].
  rewrite <- (Rmult_1_r (IZR (Z.of_nat (n - k)))), <- rsum_const. apply rsum_le. intros i _. destruct (k <=? k + i)%nat; cbn; lra.
Qed.
