(* ===== verification/LoraFront.v ===== *)
(** The numeric front end of the LoRa decoder (src/lora.c): reference chirps,
    downsampling with the timing corrections, dechirping and the search for
    the peak bin, the carrier and timing estimates, and the decoder that feeds
    what it measures to the state machine of LoraDecoder.

    The arithmetic of float, double and float complex, FFTW and libm are the
    operations of a class; the order of the operations is the source's.
    Statistics, traces and the values forced by debugging variables are left
    out, and so is the fractional part of the lock time in the metadata. *)

From S2P Require Import Prelude LoraFrame LoraDecoder.

Local Open Scope Z_scope.

Class FrontOps (C F D : Type) := {
  c_zero : C;
  c_add : C -> C -> C;
  c_mul : C -> C -> C;
  c_conj : C -> C;
  c_re : C -> F;
  c_im : C -> F;
  c_cis : D -> C;               (* cosine and sine, as floats *)
  c_norm2 : C -> F;             (* r * r + im * im *)
  c_absf : C -> F;
  f_lit : Z -> Z -> F;          (* a constant, numerator and denominator *)
  f_add : F -> F -> F;
  f_mul : F -> F -> F;
  f_neg : F -> F;
  f_ltb : F -> F -> bool;
  f_sqrt : F -> F;
  f_lrint : F -> Z;
  f_of_d : D -> F;
  d_of_f : F -> D;
  d_of_Z : Z -> D;
  d_lit : Z -> Z -> D;
  d_pi : D;
  d_add : D -> D -> D;
  d_sub : D -> D -> D;
  d_mul : D -> D -> D;
  d_div : D -> D -> D;
  d_ltb : D -> D -> bool;
  d_is0 : D -> bool;            (* x == 0.0 *)
  d_sqrt : D -> D;
  d_log10 : D -> D;
  d_atan2 : D -> D -> D;
  d_fmod : D -> D -> D;
  d_lrint : D -> Z;
  fftw : nat -> list C -> list C;
}.

Section Front.
Context {C F D : Type} `{ops : FrontOps C F D}.

Definition f_0 : F := f_lit 0 1.
Definition f_1 : F := f_lit 1 1.
Definition d_0 : D := d_of_Z 0.
Definition d_half : D := d_lit 1 2.

(** ** Reference chirps *)

Definition chirp (N n : nat) : C :=
  let x := d_of_Z (Z.of_nat n) in
  c_cis (d_mul (d_mul (d_of_Z 2) d_pi)
               (d_sub (d_div (d_mul x x) (d_mul (d_of_Z 2) (d_of_Z (Z.of_nat N)))) (d_mul x d_half))).

Definition upchirp (N : nat) : list C := map (chirp N) (seq 0 N).
Definition downchirp (N : nat) : list C := map c_conj (upchirp N).

(** ** One symbol *)

(** The strongest bin, its power and the sum of all powers. *)
Fixpoint scan_peak (k : nat) (best : F) (best_bin : nat) (sum : D) (out : list C) : F * nat * D :=
  match out with
  | [] => (best, best_bin, sum)
  | z :: t =>
      let p := c_norm2 z in
      let sum := d_add sum (d_of_f p) in
      if f_ltb best p then scan_peak (S k) p k sum t else scan_peak (S k) best best_bin sum t
  end.

Record measure := mk_measure { ms_sym : nat; ms_peak : F; ms_noise : F; ms_fft_in : list C; ms_fft_out : list C }.

(** [s] times a reference, each sample first turned by [k * n]. *)
Definition turned (k : D) (s ref : list C) : list C :=
  imap (fun n x => c_mul (c_mul x (c_cis (d_mul k (d_of_Z (Z.of_nat n))))) (nth n ref c_zero)) s.

(** The carrier offset turned back, then dechirped. *)
Definition rotated (N : nat) (cfo_int : Z) (cfo_frac : F) (s : list C) : list C :=
  let cfo_bins := d_add (d_of_Z cfo_int) (d_of_f cfo_frac) in
  if d_is0 cfo_bins then zip_with c_mul s (downchirp N)
  else turned (d_div (d_mul (d_mul (d_of_Z (-2)) d_pi) cfo_bins) (d_of_Z (Z.of_nat N))) s (downchirp N).

Definition demod_one_symbol_full (N : nat) (cfo_int : Z) (cfo_frac : F) (s : list C) : measure :=
  let fft_in := rotated N cfo_int cfo_frac s in
  let fft_out := fftw N fft_in in
  let '(best, best_bin, sum) := scan_peak 0 f_0 0 d_0 fft_out in
  let avg := d_div (d_sub sum (d_of_f best)) (d_of_Z (Z.of_nat N - 1)) in
  mk_measure best_bin (f_sqrt best) (f_of_d (d_sqrt (if d_ltb d_0 avg then avg else d_0))) fft_in fft_out.

(** The bin of a downchirp: dechirped with the upchirp, the fractional offset
    taken out first. *)
Definition demod_downchirp_argmax (N : nat) (cfo_frac : F) (s : list C) : nat :=
  let inv_N := d_div (d_of_Z 1) (d_of_Z (Z.of_nat N)) in
  let turn n := c_cis (d_mul (d_mul (d_mul (d_mul (d_of_Z (-2)) d_pi) (d_of_f cfo_frac)) (d_of_Z (Z.of_nat n))) inv_N) in
  let fft_in := imap (fun n x => c_mul (c_mul x (turn n)) (nth n (upchirp N) c_zero)) s in
  snd (fst (scan_peak 0 f_0 0 d_0 (fftw N fft_in))).

(** ** The floating-point part of struct lora_decoder *)

Record front := mk_front {
  fr_sto_offset : Z;
  fr_cfo_frac : F;
  fr_fft_hist : list C;            (* preamble_fft_hist, preamble_fft_count *)
  fr_peak_sum : D;
  fr_peak_count : Z;
  fr_snr_sum : D;
  fr_snr_count : Z;
  fr_center_freq_hz : D;
  fr_sfo_cum : D;
  fr_sfo_hat : D;
  fr_sto_frac : F;
  fr_dechirped : option (list (list C));  (* None: not allocated *)
  fr_dechirped_next : nat;
}.

Definition FFT_HIST_MAX : nat := 8.
Definition PREAMBLE_DECHIRPED_K : nat := 4.

Definition front_create : front := mk_front 0 f_0 [] d_0 0 d_0 0 d_0 d_0 d_0 f_0 None 0.

Definition lora_decoder_set_center_freq (f : front) (center_freq_hz : D) : front :=
  let f := f {{ fr_center_freq_hz := center_freq_hz }} in
  if d_ltb d_0 center_freq_hz
  then match fr_dechirped f with None => f {{ fr_dechirped := Some [] }} | Some _ => f end
  else f.

(** What reset_to_idle does to these fields. *)
Definition front_reset (f : front) : front :=
  f {{ fr_fft_hist := []; fr_peak_sum := d_0; fr_peak_count := 0; fr_cfo_frac := f_0; fr_snr_sum := d_0; fr_snr_count := 0;
       fr_sfo_cum := d_0; fr_sfo_hat := d_0; fr_sto_frac := f_0;
       fr_dechirped := option_map (fun _ => []) (fr_dechirped f); fr_dechirped_next := 0%nat }}.

(** Oversampled symbols: every [os]-th sample, shifted by the phase and the
    fractional estimates. *)
Definition downsample_symbol (d : lora_decoder C) (f : front) (phase : Z) (src : list C) : list C :=
  let os := ld_os_factor d in
  if os =? 1 then src
  else
    let phase := if phase <? 0 then 0 else phase in
    let phase := if os <=? phase then os - 1 else phase in
    let fine := f_lrint (f_mul (f_add (fr_sto_frac f) (f_of_d (fr_sfo_cum f))) (f_of_d (d_of_Z os))) in
    map (fun k =>
           let idx := Z.quot os 2 + os * Z.of_nat k - phase - fine in
           let idx := if idx <? 0 then 0 else idx in
           let idx := if ld_samples_per_symbol d <=? idx then ld_samples_per_symbol d - 1 else idx in
           nth (Z.to_nat idx) src c_zero) (seq 0 (Z.to_nat (ld_N d))).

Definition demod_at (d : lora_decoder C) (f : front) (phase : Z) : measure :=
  demod_one_symbol_full (Z.to_nat (ld_N d)) (ld_cfo_int d) (fr_cfo_frac f) (downsample_symbol d f phase (ld_symbuf d)).

(** The phase with the strongest peak, while the preamble is not locked. *)
Definition scan_phase (d : lora_decoder C) (f : front) : front :=
  if (1 <? ld_os_factor d) &&
     (bool_decide (ld_state d = STATE_IDLE) || (bool_decide (ld_state d = STATE_PREAMBLE_OK) && negb (ld_locked_once d)))
  then
    let '(_, ph) := fold_left (fun '(best, bp) ph => let pk := ms_peak (demod_at d f ph) in if f_ltb best pk then (pk, ph) else (best, bp))
                      (map Z.of_nat (seq 0 (Z.to_nat (ld_os_factor d)))) (f_lit (-1) 1, 0) in
    f {{ fr_sto_offset := ph }}
  else f.

Definition above_floor (m : measure) : bool :=
  f_ltb f_0 (ms_peak m) && f_ltb (f_mul (f_lit 2 1) (if f_ltb f_0 (ms_noise m) then ms_noise m else f_1)) (ms_peak m).

Definition straddle (f : front) (m : measure) : bool :=
  let mean := if 0 <? fr_peak_count f then f_of_d (d_div (fr_peak_sum f) (d_of_Z (fr_peak_count f))) else f_0 in
  f_ltb f_0 mean && f_ltb (ms_peak m) (f_mul (f_lit 7 10) mean).

(** 20 log10 (peak / noise), when both are positive. *)
Definition snr_db (m : measure) : option D :=
  if f_ltb f_0 (ms_peak m) && f_ltb f_0 (ms_noise m)
  then Some (d_mul (d_of_Z 20) (d_log10 (d_div (d_of_f (ms_peak m)) (d_of_f (ms_noise m))))) else None.

(** ** Estimates *)

(** The fractional carrier offset, from the phase steps of the preamble. *)
Definition four_cum (hist : list C) : C :=
  fold_left c_add (zip_with (fun x y => c_mul x (c_conj y)) hist (tail hist)) c_zero.

Definition cfo_frac_of (hist : list C) : F :=
  let z := four_cum hist in
  if f_ltb f_0 (c_absf z)
  then f_of_d (d_div (d_mul (d_of_Z (-1)) (d_atan2 (d_of_f (c_im z)) (d_of_f (c_re z)))) (d_mul (d_of_Z 2) d_pi))
  else f_0.

(** The strongest of the averaged lines, and the three-line interpolation. *)
Definition argmax_d (l : list D) : nat :=
  snd (fold_left (fun '(peak, k0) '(j, v) => if d_ltb peak v then (v, j) else (peak, k0)) (tail (imap pair l)) (hd d_0 l, 0%nat)).

Definition compute_sto_frac (N : nat) (syms : option (list (list C))) : F :=
  match syms with
  | None | Some [] => f_0
  | Some syms =>
      let M2 := (2 * N)%nat in
      let power z := d_of_f (c_norm2 z) in
      let mag_sq := fold_left (fun acc s => zip_with (fun a z => d_add a (power z)) acc (fftw M2 (s ++ replicate N c_zero)))
                      syms (replicate M2 d_0) in
      let k0 := argmax_d mag_sq in
      let line j := nth j mag_sq d_0 in
      let Y_1 := line ((k0 + M2 - 1) mod M2)%nat in
      let Y0 := line k0 in
      let Y1 := line ((k0 + 1) mod M2)%nat in
      let u := d_div (d_mul (d_of_Z 64) (d_of_Z (Z.of_nat N))) (d_lit 4065506497 10000000) in
      let v := d_mul u (d_lit 24674 10000) in
      let denom := d_add (d_mul u (d_add Y1 Y_1)) (d_mul v Y0) in
      let wa := if d_is0 denom then d_0 else d_div (d_sub Y1 Y_1) denom in
      let ka := d_div (d_mul wa (d_of_Z (Z.of_nat N))) d_pi in
      let k_residual := d_fmod (d_div (d_add (d_of_Z (Z.of_nat k0)) ka) (d_of_Z 2)) (d_of_Z 1) in
      let k_residual := if d_ltb k_residual d_0 then d_add k_residual (d_of_Z 1) else k_residual in
      f_of_d (d_sub k_residual (if d_ltb d_half k_residual then d_of_Z 1 else d_0))
  end.

Definition cfo_int_of (N : nat) (cfo_frac : F) (down_val : nat) : Z :=
  let signed_down := if Z.of_nat down_val <? Z.quot (Z.of_nat N) 2 then Z.of_nat down_val else Z.of_nat down_val - Z.of_nat N in
  d_lrint (d_sub (d_div (d_of_Z signed_down) (d_of_Z 2)) (d_of_f cfo_frac)).

Definition trim_of (N : nat) (cfo_int : Z) (cfo_frac : F) (os : Z) : Z :=
  d_lrint (d_mul (d_add (d_add (d_div (d_of_Z (Z.of_nat N)) (d_of_Z 4)) (d_of_Z cfo_int)) (d_of_f cfo_frac)) (d_of_Z os)).

(** The drift of the sample clock, as far as it follows the carrier's. *)
Definition sfo_hat_of (f : front) (cfo_int bw_hz : Z) : D :=
  if d_ltb d_0 (fr_center_freq_hz f)
  then d_div (d_mul (d_add (d_of_Z cfo_int) (d_of_f (fr_cfo_frac f))) (d_of_Z bw_hz)) (fr_center_freq_hz f) else d_0.

(** One symbol of drift: the accumulator and the shift of the next window. *)
Definition drift_step (f : front) (os : Z) : D * Z :=
  if d_is0 (fr_sfo_hat f) then (fr_sfo_cum f, 0)
  else
    let cum := d_add (fr_sfo_cum f) (fr_sfo_hat f) in
    let adj := d_div (d_of_Z 1) (d_of_Z os) in
    if d_ltb (d_of_Z 1) cum then (d_sub cum adj, 1)
    else if d_ltb cum (d_of_Z (-1)) then (d_add cum adj, -1) else (cum, 0).

(** ** A symbol of the whole decoder *)

Definition push_dechirped (f : front) (sym : list C) : front :=
  match fr_dechirped f with
  | None => f
  | Some l =>
      let slot := fr_dechirped_next f in
      f {{ fr_dechirped := Some (if (slot <? length l)%nat then <[slot := sym]> l else l ++ [sym]);
           fr_dechirped_next := ((slot + 1) mod PREAMBLE_DECHIRPED_K)%nat }}
  end.

(** The front end's part of the branches of state_tick; [d] is the decoder
    before the tick, [d'] after it. *)
Definition front_branch (d d' : lora_decoder C) (f : front) (m : measure) : front :=
  match ld_state d, ld_state d' with
  | STATE_IDLE, STATE_IDLE => f
  | STATE_IDLE, _ => f {{ fr_fft_hist := []; fr_peak_sum := d_of_f (ms_peak m); fr_peak_count := 1; fr_cfo_frac := f_0 }}
  | _, STATE_IDLE => front_reset f
  | STATE_PREAMBLE_OK, STATE_PREAMBLE_OK =>
      let f := f {{ fr_peak_sum := d_add (fr_peak_sum f) (d_of_f (ms_peak m)); fr_peak_count := fr_peak_count f + 1 }} in
      let f := if (length (fr_fft_hist f) <? FFT_HIST_MAX)%nat
               then f {{ fr_fft_hist := fr_fft_hist f ++ [nth (Z.to_nat (ld_preamble_bin d)) (ms_fft_out m) c_zero] }} else f in
      push_dechirped f (ms_fft_in m)
  | STATE_PREAMBLE_OK, _ =>
      f {{ fr_sto_frac := compute_sto_frac (Z.to_nat (ld_N d)) (fr_dechirped f); fr_cfo_frac := cfo_frac_of (fr_fft_hist f) }}
  | _, _ => f
  end.

Definition is_dc2 (d : lora_decoder C) : bool := bool_decide (ld_state d = STATE_HEADER) && (ld_header_idx d =? 1).

Definition drifting (d : lora_decoder C) : bool :=
  (bool_decide (ld_state d = STATE_HEADER) && (2 <=? ld_header_idx d)) || bool_decide (ld_state d = STATE_PAYLOAD).

(** What the front end reports for the symbol in [symbuf], and its state
    before the branches of the state machine. *)
Definition front_observe (d : lora_decoder C) (f : front) : front * measure * tick_obs :=
  let N := Z.to_nat (ld_N d) in
  let f := scan_phase d f in
  let s := downsample_symbol d f (fr_sto_offset f) (ld_symbuf d) in
  let m := demod_one_symbol_full N (ld_cfo_int d) (fr_cfo_frac f) s in
  let f := match ld_state d, snr_db m with
           | STATE_HEADER, Some v | STATE_PAYLOAD, Some v => f {{ fr_snr_sum := d_add (fr_snr_sum f) v; fr_snr_count := fr_snr_count f + 1 }}
           | _, _ => f
           end in
  let cfo_int := if is_dc2 d then cfo_int_of N (fr_cfo_frac f) (demod_downchirp_argmax N (fr_cfo_frac f) s) else ld_cfo_int d in
  let obs_straddle := straddle f m in
  let f := if is_dc2 d then f {{ fr_sfo_hat := sfo_hat_of f cfo_int (ld_bw_hz d); fr_sfo_cum := d_0 }} else f in
  (f, m, mk_obs (Z.of_nat (ms_sym m)) (above_floor m) obs_straddle cfo_int
           (trim_of N cfo_int (fr_cfo_frac f) (ld_os_factor d)) (snd (drift_step f (ld_os_factor d)))).

Definition front_after (d d' : lora_decoder C) (f : front) (m : measure) : front :=
  let f := front_branch d d' f m in
  if drifting d' then f {{ fr_sfo_cum := fst (drift_step f (ld_os_factor d')) }} else f.

(** An observation for a sample that completes no symbol: never read. *)
Definition no_obs : tick_obs := mk_obs 0 false false 0 0 0.

(** One sample through the whole decoder (lora_decoder_feed). *)
Definition rx_sample (d : lora_decoder C) (f : front) (s : C) : lora_decoder C * front * list lora_event :=
  let full := d {{ ld_symbuf := ld_symbuf d ++ [s]; ld_samples_in_chunk := u32 (ld_samples_in_chunk d + 1) }} in
  if negb (ld_sto_skip_remaining d >? 0) && (Z.of_nat (length (ld_symbuf full)) =? ld_samples_per_symbol d) then
    let '(f, m, o) := front_observe full f in
    let '(d', ev) := feed_sample d s o in
    (d', front_after full d' f m, ev)
  else let '(d', ev) := feed_sample d s no_obs in (d', f, ev).

Fixpoint rx_feed (d : lora_decoder C) (f : front) (samples : list C) : lora_decoder C * front * list lora_event :=
  match samples with
  | [] => (d, f, [])
  | s :: t =>
      let '(d, f, e1) := rx_sample d f s in
      let '(d, f, e2) := rx_feed d f t in (d, f, e1 ++ e2)
  end.
End Front.
