(* ===== verification/LoraSignal.v ===== *)
(** The front end of LoraFront in exact arithmetic: a window that holds a
    chirp, an interfering remainder and noise is measured as that chirp. *)

From Stdlib Require Import Reals Lra Psatz.
From S2P Require Import Prelude LoraFrame LoraDecoder CxReal LoraFront.

Local Open Scope R_scope.

(** ** The real numbers as the arithmetic of the front end *)

Definition Rltb (x y : R) : bool := if Rlt_dec x y then true else false.

Lemma Rltb_true x y : Rltb x y = true <-> x < y.
Proof. unfold Rltb. destruct (Rlt_dec x y); split; done. Qed.
Lemma Rltb_false x y : Rltb x y = false <-> y <= x.
Proof. unfold Rltb. destruct (Rlt_dec x y); split; intros; try done; lra. Qed.

(** Nearest integer, ties to even. *)
Definition rint (x : R) : Z :=
  let n := Int_part x in
  let r := x - IZR n in
  if Rltb r (1 / 2) then n else if Rltb (1 / 2) r then (n + 1)%Z else if Z.even n then n else (n + 1)%Z.

Lemma rint_near x (k : Z) : Rabs (x - IZR k) < 1 / 2 -> rint x = k.
Proof.
  intros H. unfold rint. destruct (base_Int_part x) as [H1 H2]. set (n := Int_part x) in *. apply Rabs_def2 in H as [Ha Hb].
  assert (Hnk : (k = n \/ k = n + 1)%Z).
  { assert (Hlo : IZR n - 1 < IZR k) by lra. assert (Hhi : IZR k < IZR n + 2) by lra.
    rewrite <- minus_IZR in Hlo. rewrite <- plus_IZR in Hhi. apply lt_IZR in Hlo, Hhi. lia. }
  destruct Hnk as [->| ->].
  - assert (Hr : x - IZR n < 1 / 2) by lra. by rewrite (proj2 (Rltb_true _ _) Hr).
  - rewrite plus_IZR in Ha, Hb. assert (Hr : 1 / 2 < x - IZR n) by lra. rewrite (proj2 (Rltb_false (x - IZR n) (1 / 2))) by lra. by rewrite (proj2 (Rltb_true _ _) Hr).
Qed.

Definition rtrunc (x : R) : Z := if Rltb x 0 then (- Int_part (- x))%Z else Int_part x.

Definition ratan2 (y x : R) : R :=
  if Rltb 0 x then atan (y / x)
  else if Rltb x 0 then if Rltb y 0 then atan (y / x) - PI else atan (y / x) + PI
  else if Rltb 0 y then PI / 2 else if Rltb y 0 then - (PI / 2) else 0.

(** The discrete Fourier transform, as FFTW documents its forward plan. *)
Definition dft (N : nat) (x : list cx) : list cx :=
  map (fun k => csum N (fun n => cmul (nth n x czero) (cis (- (2 * PI * IZR (Z.of_nat k * Z.of_nat n) / IZR (Z.of_nat N)))))) (seq 0 N).

#[export] Instance real_front : FrontOps cx R R := {|
  c_zero := czero; c_add := cadd; c_mul := cmul; c_conj := cconj; c_re := fst; c_im := snd; c_cis := cis; c_norm2 := cnorm2; c_absf := cabs;
  f_lit n d := IZR n / IZR d; f_add := Rplus; f_mul := Rmult; f_neg := Ropp; f_ltb := Rltb; f_sqrt := sqrt; f_lrint := rint;
  f_of_d x := x; d_of_f x := x; d_of_Z := IZR; d_lit n d := IZR n / IZR d; d_pi := PI;
  d_add := Rplus; d_sub := Rminus; d_mul := Rmult; d_div := Rdiv; d_ltb := Rltb;
  d_is0 x := if Req_dec_T x 0 then true else false; d_sqrt := sqrt; d_log10 x := ln x / ln 10; d_atan2 := ratan2;
  d_fmod x y := x - IZR (rtrunc (x / y)) * y; d_lrint := rint; fftw := dft;
|}.

Section Signal.
Context (N : nat) (HN : (0 < N)%nat).
Abbreviation RN := (IZR (Z.of_nat N)).

Lemma RN_pos : 0 < RN.
Proof using HN. apply (IZR_lt 0). lia. Qed.

(** ** Chirps *)

(** [m] bins for [n] samples: exp (2 pi j m n / N). *)
Definition tw (m : Z) : cx := cis (2 * PI * IZR m / RN).

Lemma tw_add a b : tw (a + b) = cmul (tw a) (tw b).
Proof using HN. unfold tw. rewrite <- cis_add. f_equal. rewrite plus_IZR. pose proof RN_pos. field. lra. Qed.

Lemma tw_mul_N k : tw (k * Z.of_nat N) = cone.
Proof using HN. unfold tw. replace (2 * PI * IZR (k * Z.of_nat N) / RN) with (2 * PI * IZR k) by (rewrite mult_IZR; pose proof RN_pos; field; lra). apply cis_2kPI. Qed.

Lemma tw_mod a b : (a mod Z.of_nat N = b mod Z.of_nat N)%Z -> tw a = tw b.
Proof using HN.
  intros E. rewrite (Z.div_mod a (Z.of_nat N)), (Z.div_mod b (Z.of_nat N)), E by lia.
  rewrite !tw_add, !(Z.mul_comm (Z.of_nat N)), !tw_mul_N. ring.
Qed.

Lemma tw_0 : tw 0 = cone.
Proof using HN. exact (tw_mul_N 0). Qed.

Lemma tw_abs a : cabs (tw a) = 1.
Proof. apply cabs_cis. Qed.

(** The upchirp at any sample index. *)
Definition chirpz (n : Z) : cx := cis (2 * PI * (IZR n * IZR n / (2 * RN) - IZR n * (1 / 2))).

Lemma chirp_z n : chirp N n = chirpz (Z.of_nat n).
Proof. reflexivity. Qed.

Lemma chirpz_add a b : chirpz (a + b) = cmul (cmul (chirpz a) (chirpz b)) (tw (a * b)).
Proof using HN. unfold chirpz, tw. rewrite <- !cis_add. f_equal. rewrite plus_IZR, mult_IZR. pose proof RN_pos. field. lra. Qed.

Lemma chirpz_N : chirpz (Z.of_nat N) = cone.
Proof using HN. unfold chirpz. replace (2 * PI * (RN * RN / (2 * RN) - RN * (1 / 2))) with 0 by (pose proof RN_pos; field; lra). apply cis_0. Qed.

Lemma chirpz_shift_N a : chirpz (a + Z.of_nat N) = chirpz a.
Proof using HN. rewrite chirpz_add, chirpz_N, tw_mul_N. ring. Qed.

Lemma chirpz_nat_mul (k : nat) a : chirpz (a + Z.of_nat k * Z.of_nat N) = chirpz a.
Proof using HN. induction k as [|k IH]; [f_equal; lia|]. replace (a + Z.of_nat (S k) * Z.of_nat N)%Z with (a + Z.of_nat k * Z.of_nat N + Z.of_nat N)%Z by lia. by rewrite chirpz_shift_N. Qed.

Lemma chirpz_mul_N k a : chirpz (a + k * Z.of_nat N) = chirpz a.
Proof using HN.
  destruct (Z.le_ge_cases 0 k) as [H|H]; [rewrite <- (Z2Nat.id k H); apply chirpz_nat_mul|].
  rewrite <- (chirpz_nat_mul (Z.to_nat (- k)) (a + k * Z.of_nat N)). f_equal. rewrite Z2Nat.id by lia. lia.
Qed.

Lemma conj_unit x : cabs x = 1 -> cmul x (cconj x) = cone.
Proof.
  intros H. pose proof (cabs_sqr x) as E. rewrite H in E. destruct x as [a b]. unfold cnorm2 in E. unfold cmul, cconj, cone. cbn [fst snd] in *. f_equal; lra.
Qed.

Lemma chirp_conj n : cmul (chirpz n) (cconj (chirpz n)) = cone.
Proof. apply conj_unit, cabs_cis. Qed.

(** ** A tone and its peak *)

(** [x] is a tone of [u] bins and amplitude [al], up to an error of [E] in all. *)
Definition tone (al : cx) (u : Z) (E : R) (x : list cx) : Prop :=
  exists e : nat -> cx, (forall n, (n < N)%nat -> nth n x czero = cadd (cmul al (tw (u * Z.of_nat n))) (e n)) /\ rsum N (fun n => cabs (e n)) <= E.

Definition tone_bin (u : Z) : nat := Z.to_nat (u mod Z.of_nat N).

Lemma tone_bin_lt u : (tone_bin u < N)%nat.
Proof using HN. unfold tone_bin. pose proof (Z.mod_pos_bound u (Z.of_nat N)). lia. Qed.

Lemma tone_bin_spec u k : (k < N)%nat -> ((u - Z.of_nat k) mod Z.of_nat N =? 0)%Z = (k =? tone_bin u)%nat.
Proof using HN.
  intros Hk. pose proof (Z.mod_pos_bound u (Z.of_nat N) ltac:(lia)) as Hb. destruct (Z.eqb_spec ((u - Z.of_nat k) mod Z.of_nat N) 0) as [E|E], (Nat.eqb_spec k (tone_bin u)) as [E'|E']; try done.
  - exfalso. apply E'. unfold tone_bin. apply Z.mod_divide in E as [q Eq]; [|lia]. replace u with (Z.of_nat k + q * Z.of_nat N)%Z by lia. rewrite Z.mod_add, Z.mod_small by lia. lia.
  - exfalso. apply E. subst k. unfold tone_bin. rewrite Z2Nat.id by lia. rewrite Zminus_mod_idemp_r, Z.sub_diag. apply Z.mod_0_l. lia.
Qed.

Lemma tone_dft al u E x : tone al u E x -> forall k, (k < N)%nat ->
  exists e, nth k (dft N x) czero = cadd (if (k =? tone_bin u)%nat then cmul (RN, 0) al else czero) e /\ cabs e <= E.
Proof using HN.
  intros (e & He & Hs) k Hk. set (tn n := cis (- (2 * PI * IZR (Z.of_nat k * Z.of_nat n) / RN))).
  exists (csum N (fun n => cmul (e n) (tn n))). split.
  - unfold dft. rewrite (nth_indep _ czero (csum N (fun n => cmul (nth n x czero) (cis (- (2 * PI * IZR (Z.of_nat 0 * Z.of_nat n) / RN)))))) by (rewrite length_map, length_seq; done).
    rewrite (map_nth (fun k => csum N (fun n => cmul (nth n x czero) (cis (- (2 * PI * IZR (Z.of_nat k * Z.of_nat n) / RN)))))), seq_nth by done. cbn [Nat.add].
    rewrite (csum_ext _ _ (fun n => cadd (cmul al (cis (2 * PI * IZR ((u - Z.of_nat k) * Z.of_nat n) / RN))) (cmul (e n) (tn n)))).
    + rewrite csum_add, csum_scale, roots_sum, tone_bin_spec by done. destruct (k =? tone_bin u)%nat; ring.
    + intros n Hn. rewrite He by done. fold (tn n).
      assert (Et : cmul (tw (u * Z.of_nat n)) (tn n) = cis (2 * PI * IZR ((u - Z.of_nat k) * Z.of_nat n) / RN)).
      { unfold tw, tn. rewrite <- cis_add. f_equal. rewrite !mult_IZR, minus_IZR. pose proof RN_pos. field. lra. }
      rewrite <- Et. ring.
  - etransitivity; [apply csum_abs|]. etransitivity; [|apply Hs]. apply rsum_le. intros n _. rewrite cabs_mul. unfold tn. rewrite cabs_cis. lra.
Qed.

(** The search finds the strictly strongest bin; the sum is that of all. *)
Fixpoint power_sum (l : list cx) : R := match l with [] => 0 | z :: t => cnorm2 z + power_sum t end.

Lemma power_sum_app l1 l2 : power_sum (l1 ++ l2) = power_sum l1 + power_sum l2.
Proof. induction l1 as [|z l1 IH]; cbn; [lra|]. rewrite IH. lra. Qed.

Lemma power_sum_le B l : Forall (fun z => cnorm2 z <= B) l -> power_sum l <= IZR (Z.of_nat (length l)) * B.
Proof. induction 1 as [|z l Hz _ IH]; cbn [power_sum length]; [change (Z.of_nat 0) with 0%Z; lra|]. rewrite Nat2Z.inj_succ, succ_IZR. lra. Qed.

Lemma power_sum_pos l : 0 <= power_sum l.
Proof. induction l as [|z l IH]; cbn; [lra|]. pose proof (cnorm2_pos z). lra. Qed.

Lemma scan_peak_rest best bin l : Forall (fun z => cnorm2 z < best) l -> forall k sum, scan_peak k best bin sum l = (best, bin, sum + power_sum l).
Proof.
  induction 1 as [|z l Hz _ IH]; intros k sum; cbn [scan_peak power_sum]; [by rewrite Rplus_0_r|].
  cbn [f_ltb c_norm2 d_add d_of_f real_front]. rewrite (proj2 (Rltb_false best (cnorm2 z))) by lra. rewrite IH. cbn. f_equal. lra.
Qed.

Lemma scan_peak_at l1 z l2 : Forall (fun y => cnorm2 y < cnorm2 z) (l1 ++ l2) -> forall k best bin sum, best < cnorm2 z ->
  scan_peak k best bin sum (l1 ++ z :: l2) = (cnorm2 z, (k + length l1)%nat, sum + power_sum (l1 ++ z :: l2)).
Proof.
  induction l1 as [|y l1 IH]; intros H k best bin sum Hb; cbn [app scan_peak length].
  - cbn [f_ltb c_norm2 d_add d_of_f real_front]. rewrite (proj2 (Rltb_true best (cnorm2 z))) by done. rewrite scan_peak_rest by done. rewrite Nat.add_0_r. cbn. f_equal. lra.
  - inversion H as [|? ? Hy Hl]; subst. cbn [f_ltb c_norm2 d_add d_of_f real_front]. destruct (Rltb best (cnorm2 y)); rewrite IH by done; cbn [power_sum]; f_equal; [f_equal; lia|cbn; lra|f_equal; lia|cbn; lra].
Qed.

Lemma dft_length x : length (dft N x) = N.
Proof. unfold dft. by rewrite length_map, length_seq. Qed.

(** A tone whose error is at most a quarter of it is found. *)
Lemma tone_peak al u E x : tone al u E x -> E <= RN * cabs al / 4 -> 0 < cabs al ->
  exists best sum, scan_peak 0 0 0 0 (dft N x) = (best, tone_bin u, sum) /\
    Rabs (sqrt best - RN * cabs al) <= E /\ 0 <= sum - best <= (RN - 1) * (E * E).
Proof using HN.
  intros Ht HE Ha. pose proof RN_pos as Hp. pose proof (tone_bin_lt u) as Hk. pose proof (tone_dft al u E x Ht) as Hd.
  assert (HE0 : 0 <= E) by (destruct Ht as (e & _ & Hs); etransitivity; [|apply Hs]; rewrite <- (Rmult_0_r RN), <- (rsum_const N 0); apply rsum_le; intros; apply cabs_pos).
  destruct (nth_split (dft N x) czero ltac:(rewrite dft_length; exact Hk)) as (l1 & l2 & El & Hl1). set (z := nth (tone_bin u) (dft N x) czero) in *.
  assert (Hz : RN * cabs al - E <= cabs z <= RN * cabs al + E).
  { destruct (Hd _ Hk) as (e & Ee & He). fold z in Ee. rewrite Nat.eqb_refl in Ee. rewrite Ee.
    pose proof (cabs_tri (cmul (RN, 0) al) e) as H1. pose proof (cabs_sub_le (cmul (RN, 0) al) e) as H2. rewrite cabs_mul, cabs_real in H1, H2 by lra. lra. }
  assert (Ho : Forall (fun y => cabs y <= E) (l1 ++ l2)).
  { apply Forall_forall. intros y Hy. assert (Hex : exists j, (j < N)%nat /\ j <> tone_bin u /\ nth j (dft N x) czero = y).
    { pose proof (dft_length x) as Hlen. rewrite El, length_app in Hlen. cbn [length] in Hlen. apply elem_of_app in Hy as [Hy|Hy]; apply list_elem_of_In, (In_nth _ _ czero) in Hy as (j & Hj & Ej).
      - exists j. split; [lia|]. split; [lia|]. rewrite El, app_nth1; [exact Ej|exact Hj].
      - exists (length l1 + S j)%nat. split; [lia|]. split; [lia|]. rewrite El, app_nth2_plus. exact Ej. }
    destruct Hex as (j & Hj & Hne & <-). destruct (Hd j Hj) as (e & Ee & He). rewrite (proj2 (Nat.eqb_neq _ _) Hne) in Ee. rewrite Ee. replace (cadd czero e) with e by ring. exact He. }
  exists (cnorm2 z), (0 + power_sum (dft N x)). rewrite El at 1. rewrite scan_peak_at.
  - rewrite Hl1. split; [by rewrite El|]. split; [apply Rabs_le; fold (cabs z); lra|]. rewrite El, power_sum_app. cbn [power_sum].
    pose proof (power_sum_app l1 l2) as Ep. pose proof (power_sum_pos (l1 ++ l2)) as H0.
    assert (Hle : power_sum (l1 ++ l2) <= (RN - 1) * (E * E)); [|lra].
    replace (RN - 1) with (IZR (Z.of_nat (length (l1 ++ l2)))).
    + apply power_sum_le. eapply Forall_impl; [exact Ho|]. intros y Hy. cbn beta in *. rewrite <- cabs_sqr. pose proof (cabs_pos y). nra.
    + pose proof (dft_length x) as Hlen. rewrite El, length_app in Hlen. cbn [length] in Hlen. rewrite length_app, <- Hlen, <- (minus_IZR _ 1). f_equal. lia.
  - eapply Forall_impl; [exact Ho|]. intros y Hy. cbn beta in *. apply norm2_lt. nra.
  - rewrite <- cabs_sqr. assert (0 < cabs z) by nra. nra.
Qed.

(** ** Measuring a window *)

(** What the demodulator reports for a window holding a chirp of [u] bins. *)
Definition measured (al : cx) (u : Z) (E : R) (m : measure (C := cx) (F := R)) : Prop :=
  ms_sym m = tone_bin u /\ Rabs (ms_peak m - RN * cabs al) <= E /\ 0 <= ms_noise m <= E /\
  cabs (csub (nth (tone_bin u) (ms_fft_out m) czero) (cmul (RN, 0) al)) <= E.

(** The window after the carrier's offset is turned back and dechirped. *)
Definition dechirped (off : R) (s : list cx) (n : nat) : cx :=
  cmul (cmul (nth n s czero) (cis (- (2 * PI * off / RN * IZR (Z.of_nat n))))) (cconj (chirpz (Z.of_nat n))).

Lemma nth_map_seq {X} (g : nat -> X) n dflt : (n < N)%nat -> nth n (map g (seq 0 N)) dflt = g n.
Proof. intros H. rewrite (nth_indep _ dflt (g 0%nat)) by (rewrite length_map, length_seq; done). by rewrite map_nth, seq_nth. Qed.

Lemma nth_downchirp n : (n < N)%nat -> nth n (downchirp N) czero = cconj (chirpz (Z.of_nat n)).
Proof. intros H. unfold downchirp, upchirp. rewrite map_map. by rewrite nth_map_seq. Qed.

Lemma nth_zip (s t : list cx) n : length s = N -> length t = N -> (n < N)%nat -> nth n (zip_with cmul s t) czero = cmul (nth n s czero) (nth n t czero).
Proof.
  intros Hs Ht Hn. destruct (lookup_lt_is_Some_2 s n ltac:(lia)) as [x Hx]. destruct (lookup_lt_is_Some_2 t n ltac:(lia)) as [y Hy].
  apply nth_lookup_Some with (d := czero). rewrite lookup_zip_with, Hx, Hy. cbn. by rewrite (nth_lookup_Some _ _ czero _ Hx), (nth_lookup_Some _ _ czero _ Hy).
Qed.

Lemma nth_imap (g : nat -> cx -> cx) (s : list cx) n : length s = N -> (n < N)%nat -> nth n (imap g s) czero = g n (nth n s czero).
Proof.
  intros Hs Hn. destruct (lookup_lt_is_Some_2 s n ltac:(lia)) as [x Hx]. apply nth_lookup_Some with (d := czero). rewrite list_lookup_imap, Hx. cbn. by rewrite (nth_lookup_Some _ _ czero _ Hx).
Qed.

(** The dechirped window as a tone and an error. *)
Definition carries (cfo_int : Z) (cfo_frac : R) (s : list cx) (al : cx) (u : Z) (E : R) : Prop :=
  exists e, (forall n, (n < N)%nat -> dechirped (IZR cfo_int + cfo_frac) s n = cadd (cmul al (tw (u * Z.of_nat n))) (e n)) /\ rsum N (fun n => cabs (e n)) <= E.

Lemma rotated_tone cfo_int cfo_frac s al u E : length s = N -> carries cfo_int cfo_frac s al u E -> tone al u E (rotated N cfo_int cfo_frac s).
Proof using HN.
  intros Hs (e & He & Hr). unfold rotated. cbn [d_is0 d_add d_of_Z d_of_f real_front]. set (off := IZR cfo_int + cfo_frac) in *.
  exists e. split; [|exact Hr]. intros n Hn. rewrite <- He by done. unfold dechirped. destruct (Req_dec_T off 0) as [E0|_].
  - cbn [c_mul real_front]. rewrite nth_zip, nth_downchirp by (done || unfold downchirp, upchirp; rewrite !length_map, length_seq; done).
    rewrite E0. replace (- (2 * PI * 0 / RN * IZR (Z.of_nat n))) with 0 by (unfold Rdiv; ring). rewrite cis_0. ring.
  - unfold turned. rewrite nth_imap by done. cbn [c_mul c_cis c_zero d_mul d_div d_of_Z d_pi real_front]. rewrite nth_downchirp by done. do 2 f_equal. f_equal. unfold Rdiv. ring.
Qed.

Lemma demod_measured cfo_int cfo_frac s al u E :
  length s = N -> (2 <= N)%nat -> 0 < cabs al -> E <= RN * cabs al / 4 -> carries cfo_int cfo_frac s al u E ->
  measured al u E (demod_one_symbol_full N cfo_int cfo_frac s).
Proof using HN.
  intros Hs H2 Ha HE Hc. pose proof (rotated_tone cfo_int cfo_frac s al u E Hs Hc) as Hfi. unfold demod_one_symbol_full. set (fi := rotated _ _ _ _) in *.
  clearbody fi. destruct (tone_peak al u E fi Hfi HE Ha) as (best & sum & Ep & Hb & Hsum). cbn [fftw real_front]. unfold f_0, d_0. cbn [f_lit d_of_Z real_front].
  replace (0 / 1) with 0 by field. rewrite Ep. pose proof RN_pos as Hp.
  assert (HN1 : 1 < RN) by (apply (IZR_lt 1); lia). unfold measured. cbn [ms_sym ms_peak ms_noise ms_fft_out f_sqrt f_of_d d_sqrt d_ltb d_div d_sub d_of_f d_of_Z real_front].
  split; [done|]. split; [exact Hb|]. rewrite minus_IZR. set (avg := (sum - best) / (RN - 1)).
  assert (HE0 : 0 <= E) by (pose proof (Rabs_pos (sqrt best - RN * cabs al)); lra).
  assert (Havg : 0 <= avg <= E * E).
  { unfold avg. split; [apply Rle_mult_inv_pos; lra|]. apply (Rmult_le_reg_r (RN - 1)); [lra|]. unfold Rdiv. rewrite Rmult_assoc, Rinv_l by lra. lra. }
  split.
  - replace (if Rltb 0 avg then avg else 0) with avg by (destruct (Rltb 0 avg) eqn:Et; [done|]; apply Rltb_false in Et; lra).
    split; [apply sqrt_pos|]. apply sqr_le_abs; [done|]. rewrite sqrt_sqrt; lra.
  - destruct (tone_dft al u E fi Hfi _ (tone_bin_lt u)) as (e' & Ee & He'). rewrite Nat.eqb_refl in Ee. rewrite Ee. replace (csub _ _) with e' by ring. exact He'.
Qed.

End Signal.

(** ** The carrier estimate *)

Lemma Rabs_bound x b : Rabs x <= b -> - b <= x <= b.
Proof. unfold Rabs. destruct (Rcase_abs x); lra. Qed.

Lemma atan_le x : Rabs (atan x) <= Rabs x.
Proof.
  assert (Hp : forall y, 0 < y -> 0 <= atan y <= y).
  { intros y Hy. destruct (MVT_cor2 atan (fun c => / (1 + c ^ 2)) 0 y Hy) as (c & E & Hc); [intros c _; apply derivable_pt_lim_atan|].
    rewrite atan_0 in E. assert (1 <= 1 + c ^ 2) by nra. assert (0 < / (1 + c ^ 2) <= 1); [|nra]. split; [apply Rinv_0_lt_compat; lra|]. rewrite <- Rinv_1. apply Rinv_le_contravar; lra. }
  destruct (Rtotal_order x 0) as [H|[->|H]].
  - pose proof (Hp (- x) ltac:(lra)) as H'. rewrite atan_opp in H'. rewrite <- (Rabs_Ropp x), <- (Rabs_Ropp (atan x)), !Rabs_pos_eq by lra. lra.
  - rewrite atan_0. lra.
  - pose proof (Hp x H). rewrite !Rabs_pos_eq by lra. lra.
Qed.

(** Values near a common one: the phase of their products is small. *)
Definition near_value (v : cx) (B : R) (y : cx) : Prop := cabs (csub y v) <= B.

Lemma product_near v eta y y' : 0 <= eta -> near_value v (eta * cabs v) y -> near_value v (eta * cabs v) y' ->
  cabs (csub (cmul y (cconj y')) (cnorm2 v, 0)) <= (2 * eta + eta * eta) * cnorm2 v.
Proof.
  intros He H H'. unfold near_value in *. set (e := csub y v) in *. set (e' := csub y' v) in *.
  assert (Ey : y = cadd v e) by (unfold e; ring). assert (Ey' : y' = cadd v e') by (unfold e'; ring).
  assert (E : csub (cmul y (cconj y')) (cnorm2 v, 0) = cadd (cadd (cmul v (cconj e')) (cmul e (cconj v))) (cmul e (cconj e'))).
  { rewrite Ey, Ey'. clear. destruct v, e, e'. unfold csub, cadd, cmul, cconj, copp, cnorm2. cbn [fst snd]. f_equal; ring. }
  rewrite E. pose proof (cabs_tri (cadd (cmul v (cconj e')) (cmul e (cconj v))) (cmul e (cconj e'))) as H1. pose proof (cabs_tri (cmul v (cconj e')) (cmul e (cconj v))) as H2.
  rewrite (cabs_mul e (cconj e')), cabs_conj in H1. rewrite (cabs_mul v), (cabs_mul e (cconj v)), !cabs_conj in H2. rewrite <- cabs_sqr. pose proof (cabs_pos v). pose proof (cabs_pos e). pose proof (cabs_pos e').
  assert (cabs v * cabs e' <= eta * (cabs v * cabs v)) by nra. assert (cabs e * cabs v <= eta * (cabs v * cabs v)) by nra.
  assert (cabs e * cabs e' <= (eta * cabs v) * (eta * cabs v)) by (apply Rmult_le_compat; lra).
  replace ((2 * eta + eta * eta) * (cabs v * cabs v)) with (eta * (cabs v * cabs v) + eta * (cabs v * cabs v) + eta * cabs v * (eta * cabs v)) by ring. lra.
Qed.

Lemma sum_near v B l : Forall (fun y => cabs (csub y (v, 0)) <= B) l -> forall acc k, cabs (csub acc (k * v, 0)) <= k * B ->
  cabs (csub (fold_left cadd l acc) ((k + IZR (Z.of_nat (length l))) * v, 0)) <= (k + IZR (Z.of_nat (length l))) * B.
Proof.
  induction 1 as [|y l Hy _ IH]; intros acc k Ha; cbn [fold_left length].
  - change (Z.of_nat 0) with 0%Z. replace (k + 0) with k by lra. exact Ha.
  - rewrite Nat2Z.inj_succ, succ_IZR. replace (k + (IZR (Z.of_nat (length l)) + 1)) with ((k + 1) + IZR (Z.of_nat (length l))) by lra. apply IH.
    replace (csub (cadd acc y) ((k + 1) * v, 0)) with (cadd (csub acc (k * v, 0)) (csub y (v, 0))).
    + pose proof (cabs_tri (csub acc (k * v, 0)) (csub y (v, 0))). lra.
    + destruct acc, y. unfold csub, cadd, copp. cbn [fst snd]. f_equal; ring.
Qed.

Lemma zip_tail_near v eta hist : 0 <= eta -> Forall (near_value v (eta * cabs v)) hist ->
  Forall (fun y => cabs (csub y (cnorm2 v, 0)) <= (2 * eta + eta * eta) * cnorm2 v) (zip_with (fun x y => cmul x (cconj y)) hist (tail hist)).
Proof.
  intros He. induction hist as [|x hist IH]; intros H; [constructor|]. inversion H as [|? ? Hx Hr]; subst. cbn [tail]. destruct hist as [|x' hist]; [constructor|].
  cbn [zip_with]. inversion Hr as [|? ? Hx' _]; subst. constructor; [by apply product_near|]. by apply IH.
Qed.

(** With at least two values of the preamble within a sixteenth of their
    common value, the fractional offset is estimated as nearly none. *)
Lemma cfo_frac_small v hist : (2 <= length hist)%nat -> 0 < cabs v -> Forall (near_value v (1 / 16 * cabs v)) hist ->
  2 * PI * Rabs (cfo_frac_of (D := R) hist) <= 33 / 223.
Proof.
  intros Hl Hv Hh. unfold cfo_frac_of, four_cum. cbn [f_ltb c_absf c_add c_mul c_conj c_zero f_of_d d_div d_mul d_atan2 d_of_f d_of_Z c_im c_re d_pi real_front]. unfold f_0. cbn [f_lit real_front].
  pose proof (zip_tail_near v (1 / 16) hist ltac:(lra) Hh) as Hz. set (l := zip_with _ _ _) in *.
  assert (Hn : (1 <= length l)%nat) by (unfold l; rewrite length_zip_with, length_tl; lia).
  pose proof (sum_near _ _ l Hz czero 0) as Hs. replace (csub czero (0 * cnorm2 v, 0)) with czero in Hs by (unfold csub, cadd, copp, czero; cbn [fst snd]; f_equal; ring).
  rewrite cabs_zero in Hs. specialize (Hs ltac:(lra)). rewrite Rplus_0_l in Hs. set (k := IZR (Z.of_nat (length l))) in *.
  assert (Hk : 1 <= k) by (apply (IZR_le 1); lia). set (z := fold_left cadd l czero) in *.
  assert (Hv2 : 0 < cnorm2 v) by (rewrite <- cabs_sqr; nra). pose proof (re_le_cabs (csub z (k * cnorm2 v, 0))) as Hre. pose proof (im_le_cabs (csub z (k * cnorm2 v, 0))) as Him.
  destruct z as [x y]. unfold csub, cadd, copp in Hre, Him, Hs. cbn [fst snd] in *. apply Rabs_bound in Hre, Him. pose proof PI_RGT_0 as Hpi.
  set (B := k * cnorm2 v) in *. assert (HB : 0 < B) by (unfold B; nra). replace (k * ((2 * (1 / 16) + 1 / 16 * (1 / 16)) * cnorm2 v)) with (33 / 256 * B) in Hs by (unfold B; field).
  destruct (Rltb (0 / 1) (cabs (x, y))); [|replace (0 / 1) with 0 by field; rewrite Rabs_R0; lra].
  assert (Hx : 0 < x) by lra. unfold ratan2. rewrite (proj2 (Rltb_true 0 x) Hx).
  replace (-1 * atan (y / x) / (2 * PI)) with (- (atan (y / x) / (2 * PI))) by (field; lra). rewrite Rabs_Ropp. unfold Rdiv at 1. rewrite Rabs_mult, (Rabs_pos_eq (/ (2 * PI))) by (left; apply Rinv_0_lt_compat; lra).
  replace (2 * PI * (Rabs (atan (y / x)) * / (2 * PI))) with (Rabs (atan (y / x))) by (field; lra).
  etransitivity; [apply atan_le|]. unfold Rdiv at 1. rewrite Rabs_mult, (Rabs_pos_eq (/ x)) by (left; by apply Rinv_0_lt_compat).
  apply (Rmult_le_reg_r x); [done|]. rewrite Rmult_assoc, Rinv_l, Rmult_1_r by lra. apply Rabs_le. lra.
Qed.
