(* ===== verification/LoraWave.v ===== *)
(** A LoRa frame on the air: the waveform of a reference transmitter, the
    signal received with a carrier offset, a complex amplitude and noise, and
    what the front end measures in the windows of it. *)

From Stdlib Require Import Reals Lra Psatz.
From S2P Require Import Prelude LoraFrame LoraDecoder CxReal LoraFront LoraSignal.

Local Open Scope R_scope.

(** ** The transmitter *)

Inductive tx_kind := Up (v : Z) | Down.

(** A chirp that starts at bin [v], or a plain downchirp. *)
Definition tx_sample (N : nat) (k : tx_kind) (n : Z) : cx :=
  match k with Up v => cmul (chirpz N n) (tw N (v * n)) | Down => cconj (chirpz N n) end.

Definition tx_symbol (N : nat) (k : tx_kind) : list cx := map (fun n => tx_sample N k (Z.of_nat n)) (seq 0 N).

(** [p] upchirps, the two sync symbols, two downchirps and a quarter, and the
    symbols of the frame. *)
Definition sync_symbols (p : nat) (s1 s2 : Z) : list tx_kind := replicate p (Up 0) ++ [Up s1; Up s2; Down; Down].

Definition tx_wave (N p : nat) (s1 s2 : Z) (bins : list Z) : list cx :=
  flat_map (tx_symbol N) (sync_symbols p s1 s2) ++ take (N / 4) (tx_symbol N Down) ++ flat_map (fun b => tx_symbol N (Up b)) bins.

(** The signal at the receiver: amplitude [a], a carrier [c] bins off, noise. *)
Definition received (N : nat) (a : cx) (c : Z) (z : nat -> cx) (wave : list cx) : list cx :=
  imap (fun t x => cadd (cmul (cmul a (tw N (c * Z.of_nat t))) x) (z t)) wave.

(** ** Samples of the waveform *)

Lemma flat_blocks_length {K} (g : K -> list cx) N ks : (forall k, length (g k) = N) -> length (flat_map g ks) = (length ks * N)%nat.
Proof. intros Hg. induction ks as [|k ks IH]; [done|]. cbn [flat_map]. rewrite length_app, Hg, IH. cbn. lia. Qed.

Lemma nth_blocks {K} (g : K -> list cx) N ks q n k : (forall k, length (g k) = N) -> ks !! q = Some k -> (n < N)%nat ->
  nth (q * N + n) (flat_map g ks) czero = nth n (g k) czero.
Proof.
  intros Hg. revert q. induction ks as [|k' ks IH]; intros q Hk Hn; [done|]. cbn [flat_map]. destruct q as [|q].
  - injection Hk as ->. cbn [Nat.mul Nat.add]. rewrite app_nth1 by (rewrite Hg; lia). done.
  - cbn [Nat.mul]. rewrite app_nth2 by (rewrite Hg; lia). rewrite Hg. replace (N + q * N + n - N)%nat with (q * N + n)%nat by lia. by apply IH.
Qed.

Lemma tx_symbol_length N k : length (tx_symbol N k) = N.
Proof. unfold tx_symbol. by rewrite length_map, length_seq. Qed.

Lemma nth_tx_symbol N k n : (n < N)%nat -> nth n (tx_symbol N k) czero = tx_sample N k (Z.of_nat n).
Proof. intros. unfold tx_symbol. by rewrite (nth_map_seq N). Qed.

Section Wave.
Context (N : nat) (HN : (16 <= N)%nat) (H4 : (N mod 4 = 0)%nat) (p : nat) (s1 s2 : Z) (bins : list Z).
Let HN0 : (0 < N)%nat := ltac:(lia).
Abbreviation wave := (tx_wave N p s1 s2 bins).
Abbreviation syms := (sync_symbols p s1 s2).
Abbreviation ZN := (Z.of_nat N).

Lemma quarter_le : (N / 4 <= N)%nat.
Proof using All. apply Nat.Div0.div_le_upper_bound. lia. Qed.

(** The sample at time [t] of a chirp of a block that starts at a multiple of
    [N] is that of a chirp that never ends. *)
Lemma tx_sample_shift k (q : Z) n : tx_sample N k (n + q * ZN) = tx_sample N k n.
Proof using All.
  destruct k as [v|]; cbn [tx_sample]; rewrite (chirpz_mul_N N HN0); [|done]. f_equal. apply (tw_mod N HN0).
  rewrite Z.mul_add_distr_l, Z.mul_assoc, Z.mod_add by lia. done.
Qed.

Lemma syms_length : length syms = (p + 4)%nat.
Proof. unfold sync_symbols. rewrite length_app, length_replicate. done. Qed.

Lemma wave_length : length wave = ((p + 4) * N + N / 4 + length bins * N)%nat.
Proof using All.
  unfold tx_wave. rewrite !length_app, length_take, tx_symbol_length, (flat_blocks_length (tx_symbol N) N), (flat_blocks_length (fun b => tx_symbol N (Up b)) N), syms_length by (intros; apply tx_symbol_length).
  pose proof quarter_le. lia.
Qed.

Lemma wave_sync t q k : (q * N <= t < (q + 1) * N)%nat -> syms !! q = Some k -> nth t wave czero = tx_sample N k (Z.of_nat t).
Proof using All.
  intros Ht Hk. pose proof (lookup_lt_Some _ _ _ Hk) as Hq. unfold tx_wave. replace t with (q * N + (t - q * N))%nat at 1 by lia.
  rewrite app_nth1 by (rewrite (flat_blocks_length _ N) by apply tx_symbol_length; nia).
  rewrite (nth_blocks _ N _ _ _ k) by (apply tx_symbol_length || done || lia). rewrite nth_tx_symbol by lia.
  rewrite <- (tx_sample_shift k (Z.of_nat q) (Z.of_nat (t - q * N))). f_equal. nia.
Qed.

Lemma wave_preamble t : (t < p * N)%nat -> nth t wave czero = tx_sample N (Up 0) (Z.of_nat t).
Proof using All.
  intros Ht. assert (Hq : (t / N < p)%nat) by (apply Nat.Div0.div_lt_upper_bound; lia). pose proof (Nat.div_mod_eq t N) as E. pose proof (Nat.mod_upper_bound t N ltac:(lia)).
  apply (wave_sync t (t / N)); [nia|]. unfold sync_symbols. rewrite lookup_app_l by (rewrite length_replicate; done). by apply lookup_replicate_2.
Qed.

Lemma syms_at j k : [Up s1; Up s2; Down; Down] !! j = Some k -> syms !! (p + j)%nat = Some k.
Proof. intros H. unfold sync_symbols. rewrite lookup_app_r by (rewrite length_replicate; lia). rewrite length_replicate. by replace (p + j - p)%nat with j by lia. Qed.

Lemma wave_down t : ((p + 2) * N <= t < (p + 4) * N + N / 4)%nat -> nth t wave czero = tx_sample N Down (Z.of_nat t).
Proof using All.
  intros Ht. destruct (Nat.lt_ge_cases t ((p + 3) * N)) as [H|H]; [apply (wave_sync t (p + 2)); [nia|by apply syms_at]|].
  destruct (Nat.lt_ge_cases t ((p + 4) * N)) as [H'|H']; [apply (wave_sync t (p + 3)); [nia|by apply syms_at]|].
  unfold tx_wave. rewrite app_nth2; rewrite (flat_blocks_length _ N), syms_length by apply tx_symbol_length; [|lia].
  pose proof quarter_le.
  rewrite app_nth1 by (rewrite length_take, tx_symbol_length; lia). rewrite nth_firstn, (proj2 (Nat.ltb_lt _ _)) by lia. rewrite nth_tx_symbol by lia.
  rewrite <- (tx_sample_shift Down (Z.of_nat (p + 4)) (Z.of_nat (t - (p + 4) * N))). f_equal. nia.
Qed.

(** Where the symbols of the frame start. *)
Definition data_start : nat := ((p + 4) * N + N / 4)%nat.

Lemma wave_data i b n : bins !! i = Some b -> (n < N)%nat -> nth (data_start + i * N + n) wave czero = tx_sample N (Up b) (Z.of_nat n).
Proof using All.
  intros Hb Hn. pose proof quarter_le. unfold tx_wave, data_start.
  rewrite app_nth2; rewrite (flat_blocks_length _ N), syms_length by apply tx_symbol_length; [|lia].
  rewrite app_nth2; rewrite length_take, tx_symbol_length; [|lia].
  replace ((p + 4) * N + N / 4 + i * N + n - (p + 4) * N - (N / 4) `min` N)%nat with (i * N + n)%nat by lia.
  rewrite (nth_blocks (fun b => tx_symbol N (Up b)) N _ _ _ b) by (intros; apply tx_symbol_length || done). by apply nth_tx_symbol.
Qed.

Lemma tx_sample_abs k n : cabs (tx_sample N k n) = 1.
Proof. destruct k; cbn [tx_sample]; [rewrite cabs_mul; unfold chirpz, tw|rewrite cabs_conj; unfold chirpz]; rewrite !cabs_cis; lra. Qed.

Lemma tx_symbol_abs k : Forall (fun x => cabs x <= 1) (tx_symbol N k).
Proof. unfold tx_symbol. apply Forall_map, Forall_forall. intros n _. rewrite tx_sample_abs. lra. Qed.

Lemma wave_abs t : cabs (nth t wave czero) <= 1.
Proof.
  assert (H : Forall (fun x => cabs x <= 1) wave).
  { assert (Hf : forall {K} (g : K -> list cx) l, (forall k, Forall (fun x => cabs x <= 1) (g k)) -> Forall (fun x => cabs x <= 1) (flat_map g l)).
    { intros K g l Hg. induction l as [|k l IH]; cbn [flat_map]; [constructor|]. by apply Forall_app. }
    unfold tx_wave. apply Forall_app. split; [apply Hf; apply tx_symbol_abs|]. apply Forall_app. split; [apply Forall_take, tx_symbol_abs|]. apply Hf. intros. apply tx_symbol_abs. }
  destruct (nth_in_or_default t wave czero) as [Hi| ->]; [|rewrite cabs_zero; lra]. rewrite Forall_forall in H. by apply H, list_elem_of_In.
Qed.

(** ** Windows of the received signal *)

Context (a : cx) (c : Z) (z : nat -> cx) (Ha : 0 < cabs a) (Hz : forall t, cabs (z t) <= cabs a / 16).
Abbreviation rx := (received N a c z wave).
Abbreviation rxt := (fun t => nth t rx czero).

Definition window (t : nat) : list cx := map rxt (seq t N).

Lemma rx_length : length rx = length wave.
Proof. unfold received. by rewrite length_imap. Qed.

Lemma rx_at t : (t < length wave)%nat -> nth t rx czero = cadd (cmul (cmul a (tw N (c * Z.of_nat t))) (nth t wave czero)) (z t).
Proof.
  intros Ht. destruct (lookup_lt_is_Some_2 wave t Ht) as [x Hx]. apply nth_lookup_Some with (d := czero). unfold received. rewrite list_lookup_imap, Hx. cbn. by rewrite (nth_lookup_Some _ _ czero _ Hx).
Qed.

Lemma nth_window t n : (n < N)%nat -> nth n (window t) czero = nth (t + n) rx czero.
Proof. intros Hn. unfold window. rewrite (nth_indep _ czero (rxt 0%nat)) by (rewrite length_map, length_seq; done). by rewrite (map_nth rxt), seq_nth. Qed.

Lemma win_length t : length (window t) = N.
Proof. unfold window. by rewrite length_map, length_seq. Qed.

(** The amplitude of the chirp of bin [v] seen from time [t]. *)
Definition seen (v : Z) (t : nat) : cx := cmul (cmul a (tw N ((c + v) * Z.of_nat t))) (chirpz N (Z.of_nat t)).

Lemma seen_abs v t : cabs (seen v t) = cabs a.
Proof. unfold seen, chirpz, tw. rewrite !cabs_mul, !cabs_cis. ring. Qed.

Lemma seen_period v t q : seen v (t + q * N) = seen v t.
Proof using All.
  unfold seen. f_equal; [f_equal; apply (tw_mod N HN0)|].
  - rewrite Nat2Z.inj_add, Nat2Z.inj_mul, Z.mul_add_distr_l, Z.mul_assoc, Z.mod_add by lia. done.
  - rewrite Nat2Z.inj_add, Nat2Z.inj_mul. apply (chirpz_mul_N N HN0).
Qed.

(** A window most of whose samples are of one chirp. *)
Lemma up_window t v (bad : nat -> bool) B :
  (t + N <= length wave)%nat -> (forall n, (n < N)%nat -> bad n = false -> nth (t + n) wave czero = tx_sample N (Up v) (Z.of_nat (t + n))) ->
  rsum N (fun n => ind (bad n)) <= B ->
  exists e, (forall n, (n < N)%nat -> dechirped N 0 (window t) n = cadd (cmul (seen v t) (tw N ((c + v + Z.of_nat t) * Z.of_nat n))) (e n)) /\
    rsum N (fun n => cabs (e n)) <= IZR ZN * (cabs a / 16) + 2 * cabs a * B.
Proof using All.
  intros Ht Hg HB.
  set (e n := cadd (cmul (z (t + n)%nat) (cconj (chirpz N (Z.of_nat n))))
                   (cmul (cmul (cmul a (tw N (c * Z.of_nat (t + n)))) (csub (nth (t + n) wave czero) (tx_sample N (Up v) (Z.of_nat (t + n))))) (cconj (chirpz N (Z.of_nat n))))).
  exists e. split.
  - intros n Hn. unfold dechirped. rewrite nth_window, rx_at by lia. replace (- (2 * PI * 0 / IZR ZN * IZR (Z.of_nat n))) with 0 by (unfold Rdiv; ring). rewrite cis_0.
    unfold e, seen. set (w := nth (t + n) wave czero). clearbody w. rewrite Nat2Z.inj_add. cbn [tx_sample]. rewrite (chirpz_add N HN0).
    replace (tw N ((c + v + Z.of_nat t) * Z.of_nat n)) with (cmul (tw N ((c + v) * Z.of_nat n)) (tw N (Z.of_nat t * Z.of_nat n))) by (rewrite <- (tw_add N HN0); f_equal; lia).
    replace (tw N (v * (Z.of_nat t + Z.of_nat n))) with (cmul (tw N (v * Z.of_nat t)) (tw N (v * Z.of_nat n))) by (rewrite <- (tw_add N HN0); f_equal; lia).
    replace (tw N (c * (Z.of_nat t + Z.of_nat n))) with (cmul (tw N (c * Z.of_nat t)) (tw N (c * Z.of_nat n))) by (rewrite <- (tw_add N HN0); f_equal; lia).
    replace (tw N ((c + v) * Z.of_nat t)) with (cmul (tw N (c * Z.of_nat t)) (tw N (v * Z.of_nat t))) by (rewrite <- (tw_add N HN0); f_equal; lia).
    replace (tw N ((c + v) * Z.of_nat n)) with (cmul (tw N (c * Z.of_nat n)) (tw N (v * Z.of_nat n))) by (rewrite <- (tw_add N HN0); f_equal; lia).
    pose proof (chirp_conj N (Z.of_nat n)) as Hc. set (x := chirpz N (Z.of_nat n)) in *. set (x' := cconj x) in *. clearbody x'.
    set (A := cmul (cmul a (cmul (tw N (c * Z.of_nat t)) (tw N (v * Z.of_nat t)))) (chirpz N (Z.of_nat t))).
    set (T := tw N (Z.of_nat t * Z.of_nat n)). set (p1 := tw N (c * Z.of_nat n)). set (p2 := tw N (v * Z.of_nat n)).
    transitivity (cadd (cmul (cmul A (cmul (cmul p1 p2) T)) (cmul x x')) (cadd (cmul (z (t + n)%nat) x')
      (cmul (cmul (cmul a (cmul (tw N (c * Z.of_nat t)) p1)) (csub w (cmul (cmul (cmul (chirpz N (Z.of_nat t)) x) T) (cmul (tw N (v * Z.of_nat t)) p2)))) x'))).
    + unfold A. ring.
    + rewrite Hc. ring.
  - etransitivity; [apply (rsum_le N _ (fun n => cabs a / 16 + 2 * cabs a * ind (bad n)))|].
    + intros n Hn. pose proof (Hz (t + n)) as Hzt. unfold e.
      set (dw := csub (nth (t + n) wave czero) (tx_sample N (Up v) (Z.of_nat (t + n)))) in *.
      assert (Hd : cabs dw <= 2 * ind (bad n)).
      { destruct (bad n) eqn:Eb; cbn [ind].
        - unfold dw, csub. pose proof (cabs_tri (nth (t + n) wave czero) (copp (tx_sample N (Up v) (Z.of_nat (t + n))))) as H1. rewrite cabs_opp, tx_sample_abs in H1. pose proof (wave_abs (t + n)). lra.
        - unfold dw. rewrite Hg by done. replace (csub _ _) with czero by ring. rewrite cabs_zero. lra. }
      etransitivity; [apply cabs_tri|]. rewrite !cabs_mul, !cabs_conj. unfold chirpz at 1 2, tw. rewrite !cabs_cis. pose proof (cabs_pos dw). pose proof (cabs_pos a). nra.
    + rewrite rsum_lin. pose proof (cabs_pos a). nra.
Qed.

Lemma up_measured t v (bad : nat -> bool) B :
  (t + N <= length wave)%nat -> (forall n, (n < N)%nat -> bad n = false -> nth (t + n) wave czero = tx_sample N (Up v) (Z.of_nat (t + n))) ->
  rsum N (fun n => ind (bad n)) <= B -> B <= IZR ZN / 16 ->
  measured N (seen v t) (c + v + Z.of_nat t) (IZR ZN * (cabs a / 16) + 2 * cabs a * B) (demod_one_symbol_full N 0 0 (window t)).
Proof using All.
  intros Ht Hg HB HB16. pose proof (RN_pos N HN0) as Hp. apply demod_measured; [done|apply win_length|lia|by rewrite seen_abs|rewrite seen_abs; nra|].
  unfold carries. replace (IZR 0 + 0) with 0 by lra. by apply (up_window t v bad B).
Qed.

(** ** The symbols of the frame *)

(** What an error of the carrier estimate adds to a sample. *)
Lemma turn_error (x : cx) (dl : R) n : (n < N)%nat -> 2 * PI * Rabs dl <= 33 / 223 -> cabs (cmul x (csub (cis (- (2 * PI * dl / IZR ZN * IZR (Z.of_nat n)))) cone)) <= cabs x * (33 / 223).
Proof using All.
  intros Hn Hd. rewrite cabs_mul. apply Rmult_le_compat_l; [apply cabs_pos|]. etransitivity; [apply cis_near_one|]. rewrite Rabs_Ropp.
  pose proof (RN_pos N HN0) as Hp. pose proof PI_RGT_0 as Hpi. assert (Hq : 0 <= IZR (Z.of_nat n) / IZR ZN <= 1).
  { split; [apply Rle_mult_inv_pos; [apply (IZR_le 0); lia|lra]|]. apply (Rmult_le_reg_r (IZR ZN)); [lra|]. unfold Rdiv. rewrite Rmult_assoc, Rinv_l, Rmult_1_r, Rmult_1_l by lra. apply IZR_le. lia. }
  replace (2 * PI * dl / IZR ZN * IZR (Z.of_nat n)) with (2 * PI * dl * (IZR (Z.of_nat n) / IZR ZN)) by (field; lra).
  rewrite !Rabs_mult, (Rabs_pos_eq 2), (Rabs_pos_eq PI), (Rabs_pos_eq (IZR (Z.of_nat n) / IZR ZN)) by lra. pose proof (Rabs_pos dl). nra.
Qed.

Lemma cis_split (x y : R) n : cis (- (2 * PI * (x + y) / IZR ZN * IZR (Z.of_nat n))) = cmul (cis (- (2 * PI * x / IZR ZN * IZR (Z.of_nat n)))) (cis (- (2 * PI * y / IZR ZN * IZR (Z.of_nat n)))).
Proof using All. rewrite <- cis_add. f_equal. pose proof (RN_pos N HN0). field. lra. Qed.

Lemma tw_back (m : Z) n : cmul (tw N (m * Z.of_nat n)) (cis (- (2 * PI * IZR m / IZR ZN * IZR (Z.of_nat n)))) = cone.
Proof using All. unfold tw. rewrite <- cis_add. replace (_ + _) with 0; [apply cis_0|]. rewrite mult_IZR. pose proof (RN_pos N HN0). field. lra. Qed.

Lemma data_carries i b dl : bins !! i = Some b -> 2 * PI * Rabs dl <= 33 / 223 ->
  let t := (data_start + i * N)%nat in
  carries N c dl (window t) (cmul a (tw N (c * Z.of_nat t))) b (IZR ZN * (cabs a / 16 + cabs a * (33 / 223))).
Proof using All.
  intros Hb Hd t. pose proof (RN_pos N HN0) as Hp. set (al := cmul a (tw N (c * Z.of_nat t))).
  assert (Hal : cabs al = cabs a) by (unfold al, tw; rewrite cabs_mul, cabs_cis; ring). pose proof (lookup_lt_Some _ _ _ Hb) as Hi.
  set (ph n := cis (- (2 * PI * dl / IZR ZN * IZR (Z.of_nat n)))). set (rot n := cis (- (2 * PI * (IZR c + dl) / IZR ZN * IZR (Z.of_nat n)))).
  exists (fun n => cadd (cmul (cmul al (tw N (b * Z.of_nat n))) (csub (ph n) cone)) (cmul (cmul (z (t + n)%nat) (rot n)) (cconj (chirpz N (Z.of_nat n))))). split.
  - intros n Hn. unfold dechirped. rewrite nth_window by done. rewrite rx_at by (rewrite wave_length; unfold t, data_start; nia).
    assert (Ew : nth (t + n) wave czero = tx_sample N (Up b) (Z.of_nat n)) by (unfold t; by apply wave_data). rewrite Ew. fold (rot n). cbn [tx_sample].
    assert (Er : cmul (tw N (c * Z.of_nat n)) (rot n) = ph n) by (unfold rot; rewrite cis_split; fold (ph n); pose proof (tw_back c n) as Hb'; transitivity (cmul (cmul (tw N (c * Z.of_nat n)) (cis (- (2 * PI * IZR c / IZR ZN * IZR (Z.of_nat n))))) (ph n)); [ring|rewrite Hb'; ring]).
    rewrite Nat2Z.inj_add, Z.mul_add_distr_l, (tw_add N HN0). unfold al. pose proof (chirp_conj N (Z.of_nat n)) as Hc. set (x := chirpz N (Z.of_nat n)) in *. set (x' := cconj x) in *. clearbody x'.
    transitivity (cadd (cmul (cmul (cmul (cmul a (tw N (c * Z.of_nat t))) (tw N (b * Z.of_nat n))) (cmul (tw N (c * Z.of_nat n)) (rot n))) (cmul x x')) (cmul (cmul (z (t + n)%nat) (rot n)) x')); [ring|].
    rewrite Er, Hc. ring.
  - rewrite <- rsum_const. apply rsum_le. intros n Hn. cbn beta. etransitivity; [apply cabs_tri|].
    pose proof (turn_error (cmul al (tw N (b * Z.of_nat n))) dl n Hn Hd) as H1. fold (ph n) in H1. rewrite (cabs_mul al), tw_abs, Hal, Rmult_1_r in H1.
    assert (H2 : cabs (cmul (cmul (z (t + n)%nat) (rot n)) (cconj (chirpz N (Z.of_nat n)))) <= cabs a / 16).
    { rewrite !cabs_mul, cabs_conj. unfold rot, chirpz. rewrite !cabs_cis. pose proof (Hz (t + n)). lra. }
    lra.
Qed.

Lemma data_loud : IZR ZN * (cabs a / 16 + cabs a * (33 / 223)) <= IZR ZN * cabs a / 4.
Proof using All. pose proof (RN_pos N HN0). nra. Qed.

Lemma data_measured i b dl : bins !! i = Some b -> 2 * PI * Rabs dl <= 33 / 223 ->
  let t := (data_start + i * N)%nat in
  measured N (cmul a (tw N (c * Z.of_nat t))) b (IZR ZN * (cabs a / 16 + cabs a * (33 / 223))) (demod_one_symbol_full N c dl (window t)).
Proof using All.
  intros Hb Hd t. assert (Hal : cabs (cmul a (tw N (c * Z.of_nat t))) = cabs a) by (unfold tw; rewrite cabs_mul, cabs_cis; ring).
  apply demod_measured; [done|apply win_length|lia|by rewrite Hal|rewrite Hal; apply data_loud|by apply data_carries].
Qed.

(** ** The second downchirp *)

Lemma down_bin t dl : (4 * Z.abs c < ZN)%Z -> Z.of_nat t = (Z.of_nat (p + 3) * ZN - c)%Z -> 2 * PI * Rabs dl <= 33 / 223 ->
  demod_downchirp_argmax N dl (window t) = tone_bin N (2 * c).
Proof using All.
  intros Hc Ht Hd. pose proof (RN_pos N HN0) as Hp. unfold demod_downchirp_argmax. cbn [c_mul c_cis c_zero d_mul d_div d_of_Z d_pi d_of_f fftw real_front]. unfold f_0, d_0. cbn [f_lit d_of_Z real_front].
  replace (0 / 1) with 0 by field. set (fi := imap _ _). set (al := cmul (cmul a (tw N (c * Z.of_nat t))) (cconj (chirpz N (Z.of_nat t)))).
  assert (Hal : cabs al = cabs a) by (unfold al, tw, chirpz; rewrite !cabs_mul, cabs_conj, !cabs_cis; ring).
  assert (Htone : tone N al (2 * c) (IZR ZN * (cabs a / 16 + cabs a * (33 / 223))) fi).
  { set (ph n := cis (- (2 * PI * dl / IZR ZN * IZR (Z.of_nat n)))).
    exists (fun n => cadd (cmul (cmul al (tw N (2 * c * Z.of_nat n))) (csub (ph n) cone)) (cmul (cmul (z (t + n)%nat) (ph n)) (chirpz N (Z.of_nat n)))). split.
    - intros n Hn. unfold fi. rewrite nth_imap with (N := N) by (apply win_length || done). rewrite nth_window by done.
      assert (Hr : ((p + 2) * N <= t + n < (p + 4) * N + N / 4)%nat) by (pose proof (Nat.div_mod_eq N 4); nia).
      rewrite rx_at by (rewrite wave_length; lia). rewrite wave_down by exact Hr. cbn [tx_sample].
      assert (Eu : nth n (upchirp N) czero = chirpz N (Z.of_nat n)) by (unfold upchirp; by rewrite (nth_map_seq N)). rewrite Eu.
      replace (cis (-2 * PI * dl * IZR (Z.of_nat n) * (1 / IZR ZN))) with (ph n) by (unfold ph; f_equal; field; lra).
      rewrite Nat2Z.inj_add, (chirpz_add N HN0). rewrite Z.mul_add_distr_l, (tw_add N HN0). unfold al.
      assert (Ecc : forall x y, cconj (cmul x y) = cmul (cconj x) (cconj y)) by (intros x y; destruct x, y; unfold cconj, cmul; cbn [fst snd]; f_equal; ring). rewrite !Ecc.
      assert (Et : cmul (tw N (c * Z.of_nat n)) (cconj (tw N (Z.of_nat t * Z.of_nat n))) = tw N (2 * c * Z.of_nat n)).
      { unfold tw at 2. rewrite <- cis_neg. replace (- (2 * PI * IZR (Z.of_nat t * Z.of_nat n) / IZR ZN)) with (2 * PI * IZR (- (Z.of_nat t * Z.of_nat n)) / IZR ZN) by (rewrite opp_IZR; field; lra).
        fold (tw N (- (Z.of_nat t * Z.of_nat n))). rewrite <- (tw_add N HN0). apply (tw_mod N HN0). rewrite Ht.
        replace (c * Z.of_nat n + - ((Z.of_nat (p + 3) * ZN - c) * Z.of_nat n))%Z with (2 * c * Z.of_nat n + (- Z.of_nat (p + 3) * Z.of_nat n) * ZN)%Z by ring. apply Z.mod_add. lia. }
      pose proof (chirp_conj N (Z.of_nat n)) as Hcj. set (x := chirpz N (Z.of_nat n)) in *. set (x' := cconj x) in *. clearbody x'. set (T' := cconj (tw N (Z.of_nat t * Z.of_nat n))) in *.
      rewrite <- Et. set (p1 := tw N (c * Z.of_nat n)). set (c0 := tw N (c * Z.of_nat t)). set (y' := cconj (chirpz N (Z.of_nat t))).
      transitivity (cadd (cmul (cmul (cmul (cmul (cmul a c0) y') (cmul p1 T')) (ph n)) (cmul x x')) (cmul (cmul (z (t + n)%nat) (ph n)) x)); [ring|]. rewrite Hcj. ring.
    - rewrite <- rsum_const. apply rsum_le. intros n Hn. cbn beta. etransitivity; [apply cabs_tri|].
      pose proof (turn_error (cmul al (tw N (2 * c * Z.of_nat n))) dl n Hn Hd) as H1. fold (ph n) in H1. rewrite (cabs_mul al), tw_abs, Hal, Rmult_1_r in H1.
      assert (H2 : cabs (cmul (cmul (z (t + n)%nat) (ph n)) (chirpz N (Z.of_nat n))) <= cabs a / 16).
      { rewrite !cabs_mul. unfold ph, chirpz. rewrite !cabs_cis. pose proof (Hz (t + n)). lra. }
      lra. }
  destruct (tone_peak N HN0 al (2 * c) _ fi Htone ltac:(rewrite Hal; nra) ltac:(by rewrite Hal)) as (best & sum & E & _). by rewrite E.
Qed.
End Wave.
