(* ===== verification/LoraSync.v ===== *)
(** From samples to a payload: the decoder of src/lora.c with its front end,
    fed the received waveform of a frame, finds the preamble, aligns itself
    to the symbols, estimates the carrier and delivers the payload. *)

From Stdlib Require Import Reals Lra Psatz.
From S2P Require Import Prelude LoraCodec LoraFec LoraFrame LoraLink LoraDecoder LoraEndToEnd CxReal LoraFront LoraSignal LoraWave.

Local Open Scope Z_scope.

(** ** Feeding windows *)

Section Feed.
Context {C F D : Type} `{ops : FrontOps C F D}.
Implicit Types (d : lora_decoder C) (f : front (C := C) (F := F) (D := D)).

Lemma rx_feed_app l1 l2 : forall d f,
  rx_feed d f (l1 ++ l2) =
  let '(d1, f1, e1) := rx_feed d f l1 in let '(d2, f2, e2) := rx_feed d1 f1 l2 in (d2, f2, e1 ++ e2).
Proof.
  induction l1 as [|s l1 IH]; intros d f; cbn [app rx_feed]; [by destruct (rx_feed d f l2) as [[] ]|].
  destruct (rx_sample d f s) as [[d0 f0] e0]. rewrite IH. destruct (rx_feed d0 f0 l1) as [[d1 f1] e1]. destruct (rx_feed d1 f1 l2) as [[d2 f2] e2]. by rewrite app_assoc.
Qed.

(** Samples dropped to move the window. *)
Lemma feed_skip l : forall d f, ld_sto_skip_remaining d = Z.of_nat (length l) ->
  exists v, rx_feed d f l = (d {{ ld_sto_skip_remaining := 0; ld_samples_in_chunk := v }}, f, []).
Proof.
  induction l as [|s l IH]; intros d f Hs; cbn [rx_feed].
  - exists (ld_samples_in_chunk d). destruct d. cbn in *. by rewrite Hs.
  - unfold rx_sample, feed_sample. cbn [length] in Hs. replace (ld_sto_skip_remaining d >? 0) with true by (symmetry; apply Z.gtb_lt; lia). cbn [negb andb].
    destruct (IH (d {{ ld_sto_skip_remaining := ld_sto_skip_remaining d - 1; ld_samples_in_chunk := u32 (ld_samples_in_chunk d + 1) }}) f) as (v & E); [rcbn; lia|].
    rewrite E. by exists v.
Qed.

(** Samples collected for the next symbol. *)
Lemma feed_fill l : forall d f, ld_sto_skip_remaining d = 0 -> Z.of_nat (length (ld_symbuf d) + length l) < ld_samples_per_symbol d ->
  exists v, rx_feed d f l = (d {{ ld_symbuf := ld_symbuf d ++ l; ld_samples_in_chunk := v }}, f, []).
Proof.
  induction l as [|s l IH]; intros d f Hs Hl; cbn [rx_feed].
  - exists (ld_samples_in_chunk d). rewrite app_nil_r. by destruct d.
  - unfold rx_sample, feed_sample. cbn zeta. rewrite Hs. cbn [length] in Hl. rcbn. rewrite length_app. cbn [length].
    replace (Z.of_nat (length (ld_symbuf d) + 1) =? ld_samples_per_symbol d) with false by (symmetry; apply Z.eqb_neq; lia). cbn match.
    destruct (IH (d {{ ld_symbuf := ld_symbuf d ++ [s]; ld_samples_in_chunk := u32 (ld_samples_in_chunk d + 1) }}) f) as (v & E); [rcbn; lia|rcbn; rewrite length_app; cbn [length]; lia|].
    exists v. cbn [andb negb Z.gtb Z.compare]. cbv beta iota zeta. rewrite E. rcbn. by rewrite <- app_assoc.
Qed.

(** The sample that completes a symbol, when the tick asks for no shift of the
    next window. *)
Lemma feed_last s d f f1 m o d1 ev : let full := d {{ ld_symbuf := ld_symbuf d ++ [s]; ld_samples_in_chunk := u32 (ld_samples_in_chunk d + 1) }} in
  ld_sto_skip_remaining d = 0 -> Z.of_nat (length (ld_symbuf d) + 1) = ld_samples_per_symbol d ->
  front_observe full f = (f1, m, o) -> state_tick full o = (d1, ev) -> ld_sfo_next_sym_shift d1 = 0 ->
  let d2 := d1 {{ ld_symbuf := []; ld_sfo_next_sym_shift := 0 }} in rx_sample d f s = (d2, front_after full d2 f1 m, ev).
Proof.
  intros full Hs Hl Ho Et Hsh d2. unfold rx_sample, feed_sample. cbn zeta. fold full. rewrite Hs. rcbn.
  assert (El : (Z.of_nat (length (ld_symbuf full)) =? ld_samples_per_symbol d) = true) by (unfold full; rcbn; rewrite length_app; cbn [length]; by apply Z.eqb_eq).
  assert (El2 : (Z.of_nat (length (ld_symbuf full)) =? ld_samples_per_symbol full) = true) by exact El.
  rewrite El2. change (0 >? 0) with false. cbn [negb andb]. cbn match. rewrite El, Ho, Et, Hsh. reflexivity.
Qed.

(** A whole symbol. *)
Lemma feed_window w d f : ld_sto_skip_remaining d = 0 -> ld_symbuf d = [] -> ld_samples_per_symbol d = Z.of_nat (length w) -> w <> [] ->
  exists v, forall f1 m o d1 ev, let full := d {{ ld_symbuf := w; ld_samples_in_chunk := v }} in
  front_observe full f = (f1, m, o) -> state_tick full o = (d1, ev) -> ld_sfo_next_sym_shift d1 = 0 ->
  let d2 := d1 {{ ld_symbuf := []; ld_sfo_next_sym_shift := 0 }} in
  rx_feed d f w = (d2, front_after full d2 f1 m, ev).
Proof.
  intros Hs Hb Hw Hne. destruct w as [|s w _] using rev_ind; [done|]. rewrite length_app in Hw. cbn [length] in Hw.
  destruct (feed_fill w d f Hs) as (v0 & E0); [rewrite Hb; cbn [length]; lia|]. exists (u32 (v0 + 1)).
  intros f1 m o d1 ev full Ho Et Hsh d2. rewrite rx_feed_app, E0. cbn [rx_feed]. set (d0 := d {{ ld_symbuf := ld_symbuf d ++ w; ld_samples_in_chunk := v0 }}).
  assert (Ef : d0 {{ ld_symbuf := ld_symbuf d0 ++ [s]; ld_samples_in_chunk := u32 (ld_samples_in_chunk d0 + 1) }} = full) by (unfold d0, full; rcbn; by rewrite Hb).
  rewrite (feed_last s d0 f f1 m o d1 ev); rewrite ?Ef; try done; unfold d0; rcbn; [by rewrite app_nil_r|rewrite Hb; cbn [app]; lia].
Qed.
End Feed.

(** ** The front end on whole symbols *)

Section Sync.
Context (sf cr0 bw : Z) (bf bf2 : bool) (Hsf : 7 <= sf <= 12).
Definition NS : nat := Z.to_nat (2 ^ sf).
Abbreviation dec := (lora_decoder cx).
Abbreviation frt := (front (C := cx) (F := R) (D := R)).

Lemma NS_Z : Z.of_nat NS = 2 ^ sf.
Proof using Hsf. unfold NS. rewrite Z2Nat.id; [done|]. apply Z.pow_nonneg. lia. Qed.

Lemma NS_sizes : (128 <= NS)%nat /\ (NS mod 4 = 0)%nat /\ 4 * Z.of_nat (NS / 4) = 2 ^ sf.
Proof using Hsf.
  assert (Hq : exists q, 2 ^ sf = 4 * q /\ 32 <= q).
  { exists (2 ^ (sf - 2)). replace sf with (2 + (sf - 2)) at 1 by lia. rewrite Z.pow_add_r by lia. split; [lia|]. change 32 with (2 ^ 5). apply Z.pow_le_mono_r; lia. }
  destruct Hq as (q & Eq & Hq). pose proof NS_Z as E. assert (En : NS = (4 * Z.to_nat q)%nat) by lia.
  rewrite En. split; [lia|]. rewrite Nat.mul_comm, Nat.Div0.mod_mul, Nat.div_mul by lia. split; [done|]. lia.
Qed.

(** A decoder between two symbols. *)
Definition config (d : dec) : Prop :=
  ld_sfo_next_sym_shift d = 0 /\ ld_N d = 2 ^ sf /\ ld_samples_per_symbol d = 2 ^ sf /\ ld_os_factor d = 1 /\
  ld_sf d = sf /\ ld_bw_hz d = bw /\ ld_cr d = cr0 /\ ld_crc_bruteforce d = bf /\ ld_crc_bruteforce_2bit d = bf2.
Definition ready (d : dec) : Prop := ld_symbuf d = [] /\ config d.

Lemma observe_plain (d : dec) (f : frt) : ld_os_factor d = 1 -> ld_N d = 2 ^ sf -> is_dc2 d = false ->
  let m := demod_one_symbol_full NS (ld_cfo_int d) (fr_cfo_frac f) (ld_symbuf d) in
  exists s n trim, front_observe d f =
    (match ld_state d with STATE_HEADER | STATE_PAYLOAD => f {{ fr_snr_sum := s; fr_snr_count := n }} | _ => f end, m,
     mk_obs (Z.of_nat (ms_sym m)) (above_floor m) (straddle f m) (ld_cfo_int d) trim (snd (drift_step f 1))).
Proof.
  intros Ho HN Hd m. exists (match snr_db m with Some v => (fr_snr_sum f + v)%R | None => fr_snr_sum f end), (match snr_db m with Some _ => fr_snr_count f + 1 | None => fr_snr_count f end),
    (trim_of NS (ld_cfo_int d) (fr_cfo_frac f) 1). unfold front_observe, scan_phase, downsample_symbol. rewrite Ho, HN, Hd. cbn [Z.ltb Z.compare andb Pos.compare Pos.compare_cont Z.eqb Pos.eqb]. fold NS. fold m.
  destruct (ld_state d), (snr_db m) as [v|]; try reflexivity; by destruct f.
Qed.

(** One symbol from start to end. *)
Lemma window_tick w (d : dec) (f : frt) : ready d -> ld_sto_skip_remaining d = 0 -> length w = NS -> is_dc2 d = false ->
  let m := demod_one_symbol_full NS (ld_cfo_int d) (fr_cfo_frac f) w in
  exists v s n trim, forall d1 ev, let full := d {{ ld_symbuf := w; ld_samples_in_chunk := v }} in
  state_tick full (mk_obs (Z.of_nat (ms_sym m)) (above_floor m) (straddle f m) (ld_cfo_int d) trim (snd (drift_step f 1))) = (d1, ev) ->
  ld_sfo_next_sym_shift d1 = 0 ->
  let d2 := d1 {{ ld_symbuf := []; ld_sfo_next_sym_shift := 0 }} in
  rx_feed d f w = (d2, front_after full d2 (match ld_state d with STATE_HEADER | STATE_PAYLOAD => f {{ fr_snr_sum := s; fr_snr_count := n }} | _ => f end) m, ev).
Proof using Hsf.
  intros (R1 & R2 & R3 & R4 & R5 & _) Hs Hw Hd m. destruct NS_sizes as (HN & _).
  destruct (feed_window w d f Hs R1) as (v & Hfeed); [rewrite R4, Hw, NS_Z; done|intros ->; cbn in Hw; lia|].
  set (full := d {{ ld_symbuf := w; ld_samples_in_chunk := v }}) in *. destruct (observe_plain full f R5 R3) as (s & n & trim & Eo); [exact Hd|].
  exists v, s, n, trim. intros d1 ev full' Et Hsh. exact (Hfeed _ _ _ _ _ Eo Et Hsh).
Qed.

Context (a : cx) (Ha : (0 < cabs a)%R) (HA : (3 <= IZR (2 ^ sf) * cabs a)%R).
Definition amp : R := (IZR (Z.of_nat NS) * cabs a)%R.

Lemma amp_3 : (3 <= amp)%R.
Proof using All. unfold amp. by rewrite NS_Z. Qed.

Lemma measured_peak al u E m : measured NS al u E m -> cabs al = cabs a -> (Rabs (ms_peak m - amp) <= E)%R.
Proof. intros (_ & Hp & _) Hal. by rewrite Hal in Hp. Qed.

(** A window whose error is at most a quarter is above the noise floor. *)
Lemma measured_loud al u E m : measured NS al u E m -> cabs al = cabs a -> (E <= amp / 4)%R -> above_floor m = true.
Proof using All.
  intros Hm Hal HE. pose proof (measured_peak al u E m Hm Hal) as Hp. destruct Hm as (_ & _ & Hn & _). apply Rabs_bound in Hp. pose proof amp_3 as H3.
  unfold above_floor, f_0, f_1. cbn [f_ltb f_lit f_mul real_front]. rewrite (proj2 (Rltb_true (0 / 1) (ms_peak m))) by lra. cbn [andb]. apply Rltb_true.
  destruct (Rltb (0 / 1) (ms_noise m)); lra.
Qed.

(** ** The preamble *)

Record pre_dec (k : Z) (j : nat) (d : dec) : Prop := {
  pd_config : config d;
  pd_skip : ld_sto_skip_remaining d = 0;
  pd_state : ld_state d = STATE_PREAMBLE_OK;
  pd_count : ld_preamble_count d = Z.min (1 + Z.of_nat j) 9;
  pd_lock : ld_locked_once d = (5 <=? ld_preamble_count d);
  pd_bin : ld_preamble_bin d = k;
  pd_hist : ld_bin_hist d = replicate (S j `min` 16)%nat k;
  pd_cfo : ld_cfo_int d = 0;
}.

(** The values at the preamble's bin are near [V]. *)
Record pre_hist (V : cx) (ce : R) (f : frt) : Prop := {
  ph_frac : fr_cfo_frac f = 0%R;
  ph_hist : Forall (near_value V (1 / 16 * cabs V)) (fr_fft_hist f);
  ph_center : fr_center_freq_hz f = ce;
}.

Record pre_front (V : cx) (ce : R) (j : nat) (f : frt) : Prop := {
  pf_hist : pre_hist V ce f;
  pf_length : length (fr_fft_hist f) = (j `min` 8)%nat;
  pf_count : fr_peak_count f = 1 + Z.of_nat j;
  pf_sum : (IZR (1 + Z.of_nat j) * (15 / 16 * amp) <= fr_peak_sum f <= IZR (1 + Z.of_nat j) * (17 / 16 * amp))%R;
}.

(** The first symbol above the floor. *)
Lemma idle_window w d (f : frt) al u ce : ready d -> ld_sto_skip_remaining d = 0 -> ld_state d = STATE_IDLE -> ld_cfo_int d = 0 ->
  fr_cfo_frac f = 0%R -> fr_center_freq_hz f = ce -> length w = NS -> cabs al = cabs a ->
  measured NS al u (amp / 16) (demod_one_symbol_full NS 0 0%R w) ->
  exists d' f', rx_feed d f w = (d', f', []) /\ ld_symbuf d' = [] /\ pre_dec (Z.of_nat (tone_bin NS u)) 0 d' /\ pre_front (cmul (IZR (Z.of_nat NS), 0%R) al) ce 0 f'.
Proof using All.
  intros Hr Hs Hst Hci Hcf Hce Hw Hal Hm. pose proof (amp_3) as H3.
  destruct (window_tick w d f Hr Hs Hw) as (v & s & n & trim & Hfeed); [unfold is_dc2; by rewrite Hst|]. rewrite Hci, Hcf, Hst in Hfeed.
  set (full := d {{ ld_symbuf := w; ld_samples_in_chunk := v }}) in *. set (m := demod_one_symbol_full NS 0 0%R w) in *. set (o := mk_obs _ _ _ _ _ _) in Hfeed.
  pose proof (measured_peak _ _ _ _ Hm Hal) as Hp. apply Rabs_bound in Hp.
  set (k := Z.of_nat (tone_bin NS u)).
  set (d1 := full {{ ld_preamble_bin := k; ld_preamble_count := 1; ld_bin_hist := [k]; ld_cfo_int := 0; ld_state := STATE_PREAMBLE_OK; ld_locked_once := false }}).
  assert (Et : state_tick full o = (d1, [])).
  { unfold state_tick. change (ld_state full) with (ld_state d). rewrite Hst. unfold tick_idle. change (o_above_floor o) with (above_floor m). rewrite (measured_loud al u _ m Hm Hal) by lra.
    change (o_sym o) with (Z.of_nat (ms_sym m)). rewrite (proj1 Hm). fold k. reflexivity. }
  specialize (Hfeed _ _ Et (proj1 (proj2 Hr))). cbn zeta in Hfeed. eexists _, _. split; [exact Hfeed|]. split; [done|]. split.
  - constructor; try done. destruct Hr as (_ & _ & R). by split.
  - assert (Ef : front_after full (d1 {{ ld_symbuf := []; ld_sfo_next_sym_shift := 0 }}) f m =
      f {{ fr_fft_hist := []; fr_peak_sum := ms_peak m; fr_peak_count := 1; fr_cfo_frac := (0 / 1)%R }}).
    { unfold front_after, front_branch. change (ld_state full) with (ld_state d). rewrite Hst. reflexivity. }
    rewrite Ef. split; [split| | |]; rcbn; [lra|constructor|done|done|done|change (1 + Z.of_nat 0) with 1; lra].
Qed.

Lemma not_straddle V ce j f m : pre_front V ce j f -> (3 / 4 * amp <= ms_peak m)%R -> straddle f m = false.
Proof using All.
  intros [_ _ Hc Hs] Hp. pose proof amp_3. unfold straddle. rewrite Hc. rewrite (proj2 (Z.ltb_lt 0 (1 + Z.of_nat j))) by lia. cbn [f_ltb f_of_d d_div d_of_Z f_mul f_lit real_front].
  apply andb_false_iff. right. apply Rltb_false. assert (Hj : (0 < IZR (1 + Z.of_nat j))%R) by (apply (IZR_lt 0); lia).
  assert (Hm : (fr_peak_sum f / IZR (1 + Z.of_nat j) <= 17 / 16 * amp)%R).
  { apply (Rmult_le_reg_r (IZR (1 + Z.of_nat j))); [lra|]. unfold Rdiv at 1. rewrite Rmult_assoc, Rinv_l by lra. lra. }
  lra.
Qed.

Definition lock_event (j : nat) : list lora_event := if (j =? 3)%nat then [EvPreamble sf cr0 bw] else [].

(** What a further preamble symbol leaves in the front end. *)
Definition still_front (k : Z) (f : frt) (m : measure) : frt :=
  push_dechirped
    (let f := f {{ fr_peak_sum := (fr_peak_sum f + ms_peak m)%R; fr_peak_count := fr_peak_count f + 1 }} in
     if (length (fr_fft_hist f) <? FFT_HIST_MAX)%nat
     then f {{ fr_fft_hist := fr_fft_hist f ++ [nth (Z.to_nat k) (ms_fft_out m) czero] }} else f) (ms_fft_in m).

Lemma drift_pre (d : dec) o : ld_state d = STATE_PREAMBLE_OK -> apply_drift d o = d.
Proof. intros H. unfold apply_drift. by rewrite H. Qed.

(** The state machine's part of a further preamble symbol. *)
Lemma still_tick k j (d : dec) o : pre_dec k j d -> o_sym o = k -> o_above_floor o = true -> o_straddle o = false ->
  exists d1, state_tick d o = (d1, lock_event j) /\ pre_dec k (S j) d1.
Proof using Hsf.
  intros [Hr Hs Hst Hc Hl Hb Hh Hci] Eo Ea Es. unfold state_tick. rewrite Hst. unfold tick_preamble_ok. rewrite Ea, Es, andb_false_r. cbn [negb].
  rewrite Eo, Hb. assert (Ed : bin_diff k k (ld_N d) = 0).
  { unfold bin_diff. destruct Hr as (_ & -> & _). rewrite Z.sub_diag. cbn [Z.abs]. assert (Hq : 0 <= 2 ^ sf ÷ 2) by (apply Z.quot_pos; [apply Z.pow_nonneg|]; lia).
    change (Z.abs 0) with 0. by rewrite Z.gtb_ltb, (proj2 (Z.ltb_ge _ _) Hq). }
  rewrite Ed. cbn [Z.leb Z.compare andb]. set (d0 := bump_preamble d).
  assert (H0 : config d0 /\ ld_sto_skip_remaining d0 = 0 /\ ld_state d0 = STATE_PREAMBLE_OK /\ ld_preamble_count d0 = Z.min (1 + Z.of_nat (S j)) 9 /\
    ld_locked_once d0 = ld_locked_once d /\ ld_preamble_bin d0 = k /\ ld_bin_hist d0 = ld_bin_hist d /\ ld_cfo_int d0 = 0).
  { unfold d0, bump_preamble, PREAMBLE_MIN. rewrite Hc. destruct (Z.ltb_spec (Z.min (1 + Z.of_nat j) 9) (5 + 4)); rcbn; split_and!; try done; lia. }
  clearbody d0. destruct H0 as (Hr0 & Hs0 & Hst0 & Hc0 & Hl0 & Hb0 & Hh0 & Hci0). unfold preamble_lock. rewrite Hl0, Hl, Hc, Hc0. unfold PREAMBLE_MIN.
  assert (Hev : (5 <=? Z.min (1 + Z.of_nat (S j)) 9) && negb (5 <=? Z.min (1 + Z.of_nat j) 9) = (j =? 3)%nat).
  { destruct (Z.leb_spec 5 (Z.min (1 + Z.of_nat (S j)) 9)), (Z.leb_spec 5 (Z.min (1 + Z.of_nat j) 9)), (Nat.eqb_spec j 3); cbn; lia || done. }
  rewrite Hev. unfold lock_event.
  assert (Hpush : forall d1 : dec, config d1 -> ld_sto_skip_remaining d1 = 0 -> ld_state d1 = STATE_PREAMBLE_OK -> ld_preamble_count d1 = Z.min (1 + Z.of_nat (S j)) 9 ->
    ld_locked_once d1 = (5 <=? ld_preamble_count d1) -> ld_preamble_bin d1 = k -> ld_bin_hist d1 = ld_bin_hist d -> ld_cfo_int d1 = 0 -> pre_dec k (S j) (apply_drift (push_bin d1 k) o)).
  { intros d1 Q1 Q2 Q3 Q4 Q5 Q6 Q7 Q8. rewrite drift_pre by (unfold push_bin; by destruct (_ <? _)%nat). unfold push_bin. rewrite Q7, Hh, length_replicate. unfold BIN_HIST_MAX.
    destruct (Nat.ltb_spec (S j `min` 16) 16); split; rcbn; try done.
    - rewrite <- replicate_cons_app. change (replicate (S (S j `min` 16)) k = replicate (S (S j) `min` 16)%nat k). f_equal. lia.
    - rewrite Q7, Hh. f_equal. lia. }
  destruct (Nat.eqb_spec j 3) as [->|Hj].
  - eexists. split; [destruct Hr0 as (_ & _ & _ & _ & -> & -> & -> & _); reflexivity|]. apply Hpush; rcbn; try done. rewrite Hc0. done.
  - eexists. split; [reflexivity|]. apply Hpush; try done. rewrite Hl0, Hl, Hc0, Hc. destruct (Z.leb_spec 5 (Z.min (1 + Z.of_nat j) 9)), (Z.leb_spec 5 (Z.min (1 + Z.of_nat (S j)) 9)); lia || done.
Qed.

Lemma still_window w d f al u V ce j k E : ld_symbuf d = [] -> pre_dec k j d -> pre_front V ce j f -> length w = NS -> cabs al = cabs a ->
  measured NS al u E (demod_one_symbol_full NS 0 0%R w) -> (E <= 3 / 16 * amp)%R -> k = Z.of_nat (tone_bin NS u) ->
  exists d', rx_feed d f w = (d', still_front k f (demod_one_symbol_full NS 0 0%R w), lock_event j) /\ ld_symbuf d' = [] /\ pre_dec k (S j) d'.
Proof using All.
  intros Hb Hd Hf Hw Hal Hm HE Hk. pose proof amp_3 as H3. pose proof (measured_peak _ _ _ _ Hm Hal) as Hp. apply Rabs_bound in Hp.
  destruct (window_tick w d f (conj Hb (pd_config _ _ _ Hd)) (pd_skip _ _ _ Hd) Hw) as (v & s & n & trim & Hfeed); [unfold is_dc2; by rewrite (pd_state _ _ _ Hd)|].
  rewrite (pd_cfo _ _ _ Hd), (ph_frac _ _ _ (pf_hist _ _ _ _ Hf)), (pd_state _ _ _ Hd) in Hfeed. set (m := demod_one_symbol_full NS 0 0%R w) in *.
  set (full := d {{ ld_symbuf := w; ld_samples_in_chunk := v }}) in *. set (o := mk_obs _ _ _ _ _ _) in Hfeed.
  assert (Hfull : pre_dec k j full) by (destruct Hd; by split).
  destruct (still_tick k j full o Hfull) as (d1 & Et & H1).
  { change (o_sym o) with (Z.of_nat (ms_sym m)). by rewrite (proj1 Hm). } { exact (measured_loud al u E m Hm Hal ltac:(lra)). } { exact (not_straddle V ce j f m Hf ltac:(lra)). }
  pose proof (pd_config _ _ _ H1) as Hc1. specialize (Hfeed _ _ Et (proj1 Hc1)). cbn zeta in Hfeed.
  exists (d1 {{ ld_symbuf := []; ld_sfo_next_sym_shift := 0 }}). split; [|split; [done|]].
  - rewrite Hfeed. set (d2 := d1 {{ ld_symbuf := []; ld_sfo_next_sym_shift := 0 }}). assert (S2 : ld_state d2 = STATE_PREAMBLE_OK) by exact (pd_state _ _ _ H1). clearbody d2.
    unfold front_after, front_branch, drifting. rewrite S2, (pd_state _ _ _ Hfull), (pd_bin _ _ _ Hfull). reflexivity.
  - destruct H1 as [H1a H1b H1c H1d H1e H1f H1g H1h]. split; try done. destruct H1a as (_ & R). by split.
Qed.

Lemma push_dechirped_keeps (f : frt) sym : let f' := push_dechirped f sym in
  fr_cfo_frac f' = fr_cfo_frac f /\ fr_fft_hist f' = fr_fft_hist f /\ fr_center_freq_hz f' = fr_center_freq_hz f /\ fr_peak_count f' = fr_peak_count f /\ fr_peak_sum f' = fr_peak_sum f.
Proof. unfold push_dechirped. by destruct (fr_dechirped f). Qed.

(** A whole window of the preamble. *)
Lemma still_clean (f : frt) m al u V ce j k : pre_front V ce j f -> measured NS al u (amp / 16) m -> cabs al = cabs a -> V = cmul (IZR (Z.of_nat NS), 0%R) al -> k = Z.of_nat (tone_bin NS u) ->
  pre_front V ce (S j) (still_front k f m).
Proof using All.
  intros [[Hf1 Hf2 Hf3] Hl Hc Hs] Hm Hal HV Hk. pose proof (measured_peak _ _ _ _ Hm Hal) as Hp. apply Rabs_bound in Hp. destruct Hm as (_ & _ & _ & Hv).
  unfold still_front. cbn zeta. match goal with |- context [push_dechirped ?x _] => set (g := x) end. destruct (push_dechirped_keeps g (ms_fft_in m)) as (E1 & E2 & E3 & E4 & E5).
  assert (HcV : cabs V = amp) by (rewrite HV, cabs_mul, cabs_real, Hal; [done|apply (IZR_le 0); lia]).
  assert (Hg : fr_cfo_frac g = 0%R /\ fr_center_freq_hz g = ce /\ fr_peak_count g = 1 + Z.of_nat (S j) /\ fr_peak_sum g = (fr_peak_sum f + ms_peak m)%R /\
    Forall (near_value V (1 / 16 * cabs V)) (fr_fft_hist g) /\ length (fr_fft_hist g) = (S j `min` 8)%nat).
  { unfold g. rcbn. rewrite Hl. unfold FFT_HIST_MAX. destruct (Nat.ltb_spec (j `min` 8) 8); rcbn; split_and!; try done; try lia.
    - apply Forall_app. split; [done|]. constructor; [|constructor]. unfold near_value. rewrite HcV, Hk, Nat2Z.id, HV. lra.
    - rewrite length_app, Hl. cbn [length]. lia. }
  clearbody g. destruct Hg as (G1 & G2 & G3 & G4 & G5 & G6). assert (Ej : IZR (1 + Z.of_nat (S j)) = (IZR (1 + Z.of_nat j) + 1)%R) by (rewrite <- (plus_IZR _ 1); f_equal; lia).
  split; [split|..]; rewrite ?E1, ?E2, ?E3, ?E4, ?E5; try done. rewrite G4, Ej. lra.
Qed.

(** A window that already holds some of the next symbol, once the history of
    the carrier estimate is full. *)
Lemma still_full (f : frt) m V ce j k : pre_front V ce j f -> (8 <= j)%nat -> pre_hist V ce (still_front k f m) /\ (2 <= length (fr_fft_hist (still_front k f m)))%nat.
Proof.
  intros [[Hf1 Hf2 Hf3] Hl Hc Hs] Hj. unfold still_front. cbn zeta. match goal with |- context [push_dechirped ?x _] => set (g := x) end. destruct (push_dechirped_keeps g (ms_fft_in m)) as (E1 & E2 & E3 & _).
  assert (Hg : g = f {{ fr_peak_sum := (fr_peak_sum f + ms_peak m)%R; fr_peak_count := fr_peak_count f + 1 }}) by (unfold g; rcbn; rewrite Hl; unfold FFT_HIST_MAX; by rewrite (proj2 (Nat.ltb_ge _ _)) by lia).
  clearbody g. subst g. split; [split; [by rewrite E1|by rewrite E2|by rewrite E3]|]. rewrite E2. rcbn. rewrite Hl. lia.
Qed.

(** ** The sync word *)

Lemma hist_mode_replicate n k : (0 < n)%nat -> hist_mode (replicate n k) = k.
Proof.
  intros Hn. unfold hist_mode. set (g := fun best x => _). assert (H : forall l b, Forall (eq k) l -> fst b = k -> fst (fold_left g l b) = k).
  { induction l as [|x l IH]; intros b Hl Hb; [done|]. inversion Hl; subst. cbn [fold_left]. apply IH; [done|]. unfold g. cbn zeta. by destruct (_ >? _). }
  apply H; [apply Forall_replicate; done|]. destruct n; [lia|]. done.
Qed.

(** A decoder reading the downchirps and the header: [i] symbols read after
    the sync word, [sk] samples to drop, carrier estimate [ci]. *)
Record hdr_dec (i sk ci : Z) (d : dec) : Prop := {
  hd_config : config d;
  hd_state : ld_state d = STATE_HEADER;
  hd_idx : ld_header_idx d = i;
  hd_syms : ld_header_syms d = [];
  hd_skip : ld_sto_skip_remaining d = sk;
  hd_bin : ld_preamble_bin d = 0;
  hd_cfo : ld_cfo_int d = ci;
}.

(** The first sync symbol, or a window that seems to hold some of it. *)
Lemma sync_tick k j (d : dec) o : pre_dec k j d -> (4 <= j)%nat -> 0 <= k < 2 ^ sf -> o_above_floor o = true -> o_straddle o = true \/ 2 < bin_diff (o_sym o) k (2 ^ sf) ->
  exists d1, state_tick d o = (d1, []) /\ hdr_dec 0 (2 ^ sf - k_signed_of k (2 ^ sf)) 0 d1.
Proof using Hsf.
  intros [Hr Hs Hst Hc Hl Hb Hh Hci] Hj Hk Ea Hd. unfold state_tick. rewrite Hst. unfold tick_preamble_ok. rewrite Ea, Hb. pose proof Hr as (R1 & R2 & R3 & R4 & _). rewrite R2. cbn [negb].
  rewrite Hc. unfold PREAMBLE_MIN. rewrite (proj2 (Z.leb_le 5 _)) by lia. cbn [andb].
  replace ((bin_diff (o_sym o) k (2 ^ sf) <=? 2) && negb (o_straddle o)) with false by (destruct Hd as [->|Hd]; [by rewrite andb_false_r|by rewrite (proj2 (Z.leb_gt _ 2)) by lia]). cbn zeta. rewrite Hh.
  assert (Ek : k_hat_of k (2 ^ sf) (replicate (S j `min` 16) k) = k).
  { unfold k_hat_of. rewrite length_replicate, (proj2 (Nat.leb_le 2 _)) by lia. rewrite hist_mode_replicate by lia. rewrite (proj2 (Z.ltb_ge k 0)) by lia.
    rewrite Z.geb_leb, (proj2 (Z.leb_gt _ k)) by lia. done. }
  rewrite Ek, R4, Z.mul_1_r. eexists. split; [reflexivity|]. unfold apply_drift. rcbn. cbn. by split.
Qed.

Lemma sync_window w d f al u V ce j k E : ld_symbuf d = [] -> pre_dec k j d -> pre_hist V ce f -> (2 <= length (fr_fft_hist f))%nat -> (0 < cabs V)%R -> (4 <= j)%nat -> 0 <= k < 2 ^ sf ->
  length w = NS -> cabs al = cabs a -> measured NS al u E (demod_one_symbol_full NS 0 0%R w) -> (E <= amp / 4)%R -> 2 < bin_diff (Z.of_nat (tone_bin NS u)) k (2 ^ sf) ->
  exists d' f', rx_feed d f w = (d', f', []) /\ ld_symbuf d' = [] /\ hdr_dec 0 (2 ^ sf - k_signed_of k (2 ^ sf)) 0 d' /\
    (2 * PI * Rabs (fr_cfo_frac f') <= 33 / 223)%R /\ fr_center_freq_hz f' = ce.
Proof using All.
  intros Hb Hd [Hf1 Hf2 Hf3] Hl HV Hj Hk Hw Hal Hm HE Hdiff.
  destruct (window_tick w d f (conj Hb (pd_config _ _ _ Hd)) (pd_skip _ _ _ Hd) Hw) as (v & s & n & trim & Hfeed); [unfold is_dc2; by rewrite (pd_state _ _ _ Hd)|].
  rewrite (pd_cfo _ _ _ Hd), Hf1, (pd_state _ _ _ Hd) in Hfeed. set (m := demod_one_symbol_full NS 0 0%R w) in *.
  set (full := d {{ ld_symbuf := w; ld_samples_in_chunk := v }}) in *. set (o := mk_obs _ _ _ _ _ _) in Hfeed.
  assert (Hfull : pre_dec k j full) by (destruct Hd; by split).
  destruct (sync_tick k j full o Hfull Hj Hk) as (d1 & Et & H1).
  { exact (measured_loud al u E m Hm Hal HE). } { right. change (o_sym o) with (Z.of_nat (ms_sym m)). by rewrite (proj1 Hm). }
  specialize (Hfeed _ _ Et (proj1 (hd_config _ _ _ _ H1))). cbn zeta in Hfeed. set (d2 := d1 {{ ld_symbuf := []; ld_sfo_next_sym_shift := 0 }}) in *.
  assert (H2 : hdr_dec 0 (2 ^ sf - k_signed_of k (2 ^ sf)) 0 d2) by (destruct H1 as [[_ R] ? ? ? ? ? ?]; split; try done; by split).
  assert (Hsb : ld_symbuf d2 = []) by done. clearbody d2. exists d2, (front_after full d2 f m). split; [exact Hfeed|]. split; [done|]. split; [done|].
  unfold front_after, front_branch, drifting. rewrite (hd_state _ _ _ _ H2), (pd_state _ _ _ Hfull), (hd_idx _ _ _ _ H2). cbn [bool_decide andb orb Z.leb Z.compare]. rcbn. cbn.
  split; [|done]. by apply (cfo_frac_small V).
Qed.

(** ** The downchirps *)

Lemma dc1_tick (d : dec) o : ld_state d = STATE_HEADER -> ld_header_idx d = 0 -> state_tick d o = (d {{ ld_header_idx := 1 }}, []).
Proof. destruct d. cbn. intros -> ->. reflexivity. Qed.

Lemma dc1_window w d f ce : ld_symbuf d = [] -> hdr_dec 0 0 0 d -> fr_center_freq_hz f = ce -> length w = NS ->
  exists d' f', rx_feed d f w = (d', f', []) /\ ld_symbuf d' = [] /\ hdr_dec 1 0 0 d' /\ fr_cfo_frac f' = fr_cfo_frac f /\ fr_center_freq_hz f' = ce.
Proof using Hsf.
  intros Hb Hd Hce Hw. destruct (window_tick w d f (conj Hb (hd_config _ _ _ _ Hd)) (hd_skip _ _ _ _ Hd) Hw) as (v & s & n & trim & Hfeed); [unfold is_dc2; by rewrite (hd_state _ _ _ _ Hd), (hd_idx _ _ _ _ Hd)|].
  rewrite (hd_state _ _ _ _ Hd) in Hfeed. set (full := d {{ ld_symbuf := w; ld_samples_in_chunk := v }}) in *. set (o := mk_obs _ _ _ _ _ _) in Hfeed.
  pose proof (dc1_tick full o (hd_state _ _ _ _ Hd) (hd_idx _ _ _ _ Hd)) as Et.
  specialize (Hfeed _ _ Et (proj1 (hd_config _ _ _ _ Hd))). cbn zeta in Hfeed. set (d2 := (full {{ ld_header_idx := 1 }}) {{ ld_symbuf := []; ld_sfo_next_sym_shift := 0 }}) in *.
  assert (H2 : hdr_dec 1 0 0 d2) by (destruct Hd as [[_ R] ? ? ? ? ? ?]; split; try done; by split). assert (Hsb : ld_symbuf d2 = []) by done. clearbody d2.
  exists d2, (front_after full d2 (f {{ fr_snr_sum := s; fr_snr_count := n }}) (demod_one_symbol_full NS (ld_cfo_int d) (fr_cfo_frac f) w)).
  split; [exact Hfeed|]. split; [done|]. split; [done|]. unfold front_after, front_branch, drifting. change (ld_state full) with (ld_state d).
  rewrite (hd_state _ _ _ _ H2), (hd_state _ _ _ _ Hd), (hd_idx _ _ _ _ H2). cbn. by subst.
Qed.

Lemma cfo_int_found c dl : 4 * Z.abs c < 2 ^ sf -> (2 * PI * Rabs dl <= 33 / 223)%R -> cfo_int_of NS dl (tone_bin NS (2 * c)) = c.
Proof using Hsf.
  intros Hc Hd. unfold cfo_int_of. cbn [d_lrint d_sub d_div d_of_Z d_of_f real_front]. destruct NS_sizes as (HN & _ & H4). pose proof NS_Z as HZ.
  assert (Eb : Z.of_nat (tone_bin NS (2 * c)) = if 2 * c <? 0 then 2 * c + 2 ^ sf else 2 * c).
  { unfold tone_bin. rewrite HZ. assert (Hpos : 0 < 2 ^ sf) by lia. pose proof (Z.mod_pos_bound (2 * c) (2 ^ sf) Hpos) as [Hm _]. rewrite (Z2Nat.id _ Hm). destruct (Z.ltb_spec (2 * c) 0); [|apply Z.mod_small; lia].
    rewrite <- (Z.mod_add _ 1) by lia. rewrite Z.mul_1_l. apply Z.mod_small. lia. }
  rewrite Eb, HZ, Z.quot_div_nonneg by lia. set (sd := if _ <? 2 ^ sf / 2 then _ else _).
  assert (Es : sd = 2 * c).
  { unfold sd. assert (Hh : 2 ^ sf / 2 = 2 * Z.of_nat (NS / 4)) by (rewrite <- H4; replace (4 * Z.of_nat (NS / 4)) with (2 * Z.of_nat (NS / 4) * 2) by lia; apply Z.div_mul; lia).
    rewrite Hh. destruct (Z.ltb_spec (2 * c) 0); match goal with |- context [?x <? ?y] => destruct (Z.ltb_spec x y) end; lia. }
  rewrite Es. apply rint_near. rewrite mult_IZR. replace (2 * IZR c / 2 - dl - IZR c)%R with (- dl)%R by field. rewrite Rabs_Ropp. pose proof PI2_3_2. pose proof (Rabs_pos dl). nra.
Qed.

Lemma trim_found c dl : (2 * PI * Rabs dl <= 33 / 223)%R -> trim_of NS c dl 1 = 2 ^ sf / 4 + c.
Proof using Hsf.
  intros Hd. unfold trim_of. cbn [d_lrint d_add d_mul d_div d_of_Z d_of_f real_front]. destruct NS_sizes as (HN & _ & H4). rewrite NS_Z.
  assert (Eq : 2 ^ sf / 4 = Z.of_nat (NS / 4)) by (rewrite <- H4, Z.mul_comm; apply Z.div_mul; lia). rewrite Eq. apply rint_near. rewrite plus_IZR, <- H4, mult_IZR.
  replace ((4 * IZR (Z.of_nat (NS / 4)) / 4 + IZR c + dl) * 1 - (IZR (Z.of_nat (NS / 4)) + IZR c))%R with dl by field. pose proof PI2_3_2. pose proof (Rabs_pos dl). nra.
Qed.

(** The front end while the frame is read: [j] symbols of drift. *)
Record dat_front (dl h : R) (j : nat) (f : frt) : Prop := {
  df_frac : fr_cfo_frac f = dl;
  df_hat : fr_sfo_hat f = h;
  df_cum : fr_sfo_cum f = (IZR (Z.of_nat j) * h)%R;
}.

Lemma drift_small dl h j f : dat_front dl h j f -> (IZR (Z.of_nat (S j)) * Rabs h <= 1)%R -> drift_step f 1 = ((IZR (Z.of_nat (S j)) * h)%R, 0).
Proof.
  intros [_ Hh Hc] Hb. unfold drift_step. rewrite Hh, Hc. cbn [d_is0 d_add d_ltb d_of_Z real_front]. rewrite Nat2Z.inj_succ, succ_IZR in *. destruct (Req_dec_T h 0) as [->|Hn]; [f_equal; ring|].
  assert (Hj : (0 <= IZR (Z.of_nat j))%R) by (apply (IZR_le 0); lia). assert (Ha' : (Rabs ((IZR (Z.of_nat j) + 1) * h) <= 1)%R) by (rewrite Rabs_mult, (Rabs_pos_eq (_ + 1)) by lra; lra).
  apply Rabs_bound in Ha'. rewrite (proj2 (Rltb_false 1 _)), (proj2 (Rltb_false _ (-1))) by lra. f_equal. ring.
Qed.

Definition drift_of (ce dl : R) (c : Z) : R := if Rltb 0 ce then ((IZR c + dl) * IZR bw / ce)%R else 0%R.

Lemma dc2_tick (d : dec) o : ld_state d = STATE_HEADER -> ld_header_idx d = 1 -> o_sfo_shift o = 0 ->
  state_tick d o = (d {{ ld_cfo_int := o_cfo_int o; ld_header_idx := 2; ld_sto_skip_remaining := ld_sto_skip_remaining d + (if o_trim o <? 0 then 0 else o_trim o) }}, []).
Proof. destruct d, o. cbn. intros -> -> ->. reflexivity. Qed.

Lemma dc2_window w d f ce c dl : ld_symbuf d = [] -> hdr_dec 1 0 0 d -> fr_cfo_frac f = dl -> fr_center_freq_hz f = ce -> length w = NS ->
  demod_downchirp_argmax NS dl w = tone_bin NS (2 * c) -> 4 * Z.abs c < 2 ^ sf -> (2 * PI * Rabs dl <= 33 / 223)%R -> (Rabs (drift_of ce dl c) <= 1)%R ->
  exists d' f', rx_feed d f w = (d', f', []) /\ ld_symbuf d' = [] /\ hdr_dec 2 (2 ^ sf / 4 + c) c d' /\ dat_front dl (drift_of ce dl c) 1 f'.
Proof using Hsf.
  intros Hb Hd Hfr Hce Hw Hdown Hc Hdl Hh. pose proof (hd_config _ _ _ _ Hd) as (R1 & R2 & R3 & R4 & _ & R6 & _). destruct NS_sizes as (HN & _ & H4).
  destruct (feed_window w d f (hd_skip _ _ _ _ Hd) Hb) as (v & Hfeed); [rewrite R3, Hw, NS_Z; done|intros ->; cbn in Hw; lia|].
  set (full := d {{ ld_symbuf := w; ld_samples_in_chunk := v }}) in *. assert (Hdc : is_dc2 full = true) by (unfold is_dc2; change (ld_state full) with (ld_state d); change (ld_header_idx full) with (ld_header_idx d); by rewrite (hd_state _ _ _ _ Hd), (hd_idx _ _ _ _ Hd)).
  assert (Eo : exists f1 m o, front_observe full f = (f1, m, o) /\ dat_front dl (drift_of ce dl c) 0 f1 /\ o_cfo_int o = c /\ o_trim o = 2 ^ sf / 4 + c /\ o_sfo_shift o = snd (drift_step f1 1)).
  { unfold front_observe. rewrite Hdc. unfold scan_phase, downsample_symbol. replace (ld_os_factor full) with 1 by (symmetry; exact R4). replace (ld_N full) with (2 ^ sf) by (symmetry; exact R2). cbn [Z.ltb Z.compare andb Pos.compare Pos.compare_cont Z.eqb Pos.eqb]. fold NS.
    change (ld_symbuf full) with w. replace (ld_bw_hz full) with bw by (symmetry; exact R6). cbn zeta. set (m := demod_one_symbol_full _ _ _ _). set (g := match ld_state full with STATE_IDLE => _ | _ => _ end).
    assert (Hg : fr_cfo_frac g = dl /\ fr_center_freq_hz g = ce) by (unfold g; destruct (ld_state full), (snr_db m); cbn; done). clearbody g m. destruct Hg as [G1 G2]. rewrite G1, Hdown, cfo_int_found by done.
    do 3 eexists. split; [reflexivity|]. split; [|rcbn; by rewrite G1, trim_found]. split; rcbn; [done| |unfold d_0; cbn [d_of_Z real_front]; change (Z.of_nat 0) with 0; lra].
    unfold sfo_hat_of, drift_of, d_0. rewrite G1, G2. reflexivity. }
  destruct Eo as (f1 & m & o & Eo & Hf1 & O1 & O2 & O3). rewrite (drift_small dl (drift_of ce dl c) 0 f1 Hf1) in O3 by (change (Z.of_nat 1) with 1; lra).
  pose proof (dc2_tick full o (hd_state _ _ _ _ Hd) (hd_idx _ _ _ _ Hd) O3) as Et. rewrite O1, O2 in Et. change (ld_sto_skip_remaining full) with (ld_sto_skip_remaining d) in Et. rewrite (hd_skip _ _ _ _ Hd), Z.add_0_l in Et.
  assert (Hq : 2 ^ sf / 4 = Z.of_nat (NS / 4)) by (rewrite <- H4, Z.mul_comm; apply Z.div_mul; lia). rewrite (proj2 (Z.ltb_ge _ 0)) in Et by lia.
  specialize (Hfeed _ _ _ _ _ Eo Et R1). cbn zeta in Hfeed. match type of Hfeed with rx_feed _ _ _ = (?x, _, _) => set (d2 := x) in * end.
  assert (H2 : hdr_dec 2 (2 ^ sf / 4 + c) c d2) by (destruct Hd as [[_ R] ? ? ? ? ? ?]; split; try done; by split). assert (Hsb : ld_symbuf d2 = []) by done. clearbody d2.
  exists d2, (front_after full d2 f1 m). split; [exact Hfeed|]. split; [done|]. split; [done|].
  unfold front_after, front_branch, drifting. rewrite (hd_state _ _ _ _ H2). change (ld_state full) with (ld_state d). rewrite (hd_state _ _ _ _ Hd), (hd_idx _ _ _ _ H2).
  pose proof (hd_config _ _ _ _ H2) as (_ & _ & _ & -> & _). cbn [bool_decide andb orb Z.leb Z.compare Pos.compare Pos.compare_cont]. rewrite bool_decide_true by done. cbn [andb orb].
  rewrite (drift_small dl (drift_of ce dl c) 0 f1 Hf1) by (change (Z.of_nat 1) with 1; lra). destruct Hf1 as [F1 F2 F3]. split; rcbn; done.
Qed.
(** ** The symbols of the frame *)

Definition settled (d : dec) : dec := d {{ ld_symbuf := []; ld_sfo_next_sym_shift := 0 }}.

(** A decoder that reads the frame: carrier estimate [c] and [dl], drift [h]
    per symbol, [j] symbols of it. *)
Record data_ok (c : Z) (dl h : R) (j : nat) (d : dec) (f : frt) : Prop := {
  do_symbuf : ld_symbuf d = [];
  do_config : config d;
  do_skip : ld_sto_skip_remaining d = 0;
  do_cfo : ld_cfo_int d = c;
  do_front : dat_front dl h j f;
}.

Lemma drifting_cases (d : dec) : drifting d = true -> is_dc2 d = false /\ (ld_state d = STATE_HEADER /\ 2 <= ld_header_idx d \/ ld_state d = STATE_PAYLOAD).
Proof.
  unfold drifting, is_dc2. destruct (ld_state d); rewrite ?bool_decide_false, ?bool_decide_true by done; cbn [andb orb]; try done; intros H.
  - rewrite orb_false_r in H. apply Z.leb_le in H. split; [apply Z.eqb_neq; lia|by left].
  - split; [done|by right].
Qed.

(** A tick of the frame moves no window and keeps the carrier estimate. *)
Definition kept (d d1 : dec) : Prop := config d1 /\ (drifting d1 = true -> ld_sto_skip_remaining d1 = ld_sto_skip_remaining d /\ ld_cfo_int d1 = ld_cfo_int d).

Lemma kept_idle (d d1 : dec) : config d -> kept d (reset_to_idle d) /\ (config d1 -> kept d (reset_to_idle d1)).
Proof. intros (_ & R). split; [split; [by split|done]|]. intros (_ & R'). split; [by split|done]. Qed.

Lemma header_kept (d : dec) o d1 ev : config d -> 2 <= ld_header_idx d -> tick_header d o = (d1, ev) -> kept d d1.
Proof.
  intros Hc Hi. unfold tick_header. rewrite (proj2 (Z.ltb_ge _ 2)) by lia. cbn zeta. set (d0 := if _ <? 8 then _ else d).
  assert (H0 : config d0 /\ ld_sto_skip_remaining d0 = ld_sto_skip_remaining d /\ ld_cfo_int d0 = ld_cfo_int d) by (unfold d0; by destruct (_ <? 8)). clearbody d0. destruct H0 as (C0 & S0 & F0).
  destruct (_ =? _); [|intros [= <- _]; by split]. unfold finish_header. cbn zeta. set (h := decode_header _ _). clearbody h. destruct (negb (h_crc_ok h)); [intros [= <- _]; apply kept_idle; done|].
  rcbn. destruct (_ =? 0); intros [= <- _]; [apply kept_idle; done|]. by split.
Qed.

Lemma payload_kept (d : dec) o d1 ev : config d -> tick_payload d o = (d1, ev) -> kept d d1.
Proof.
  intros Hc. unfold tick_payload. cbn zeta. set (d0 := if _ <? MAX_PAYLOAD_SYMBOLS then _ else d).
  assert (H0 : config d0 /\ ld_sto_skip_remaining d0 = ld_sto_skip_remaining d /\ ld_cfo_int d0 = ld_cfo_int d) by (unfold d0; by destruct (_ <? MAX_PAYLOAD_SYMBOLS)). clearbody d0. destruct H0 as (C0 & S0 & F0).
  destruct (_ >=? _); [|intros [= <- _]; by split]. unfold finish_payload. cbn zeta. destruct (deliver_payload _ _ _ _ _ _) as [pl m]. intros [= <- _]. apply kept_idle; done.
Qed.

Lemma tick_kept (d : dec) o d1 ev : config d -> drifting d = true -> o_sfo_shift o = 0 -> state_tick d o = (d1, ev) -> kept d d1.
Proof.
  intros Hc Hd Ho. unfold state_tick. assert (Ha' : forall d0 : dec, apply_drift d0 o = d0) by (intros d0; unfold apply_drift; rewrite Ho; by destruct (_ || _)).
  destruct (drifting_cases d Hd) as (_ & [[Hs Hi]|Hs]); rewrite Hs.
  - destruct (tick_header d o) as [d0 e0] eqn:E. intros [= <- _]. rewrite Ha'. by eapply header_kept.
  - destruct (tick_payload d o) as [d0 e0] eqn:E. intros [= <- _]. rewrite Ha'. by eapply payload_kept.
Qed.

Definition filled (d : dec) (w : list cx) (v : Z) : dec := d {{ ld_symbuf := w; ld_samples_in_chunk := v }}.

(** A window that holds the chirp of bin [b]. *)
Definition holds (c : Z) (dl : R) (w : list cx) (b : Z) : Prop :=
  length w = NS /\ 0 <= b < 2 ^ sf /\ exists al E, measured NS al b E (demod_one_symbol_full NS c dl w).

Lemma data_step c dl h j w b d f : data_ok c dl h j d f -> drifting d = true -> holds c dl w b -> (IZR (Z.of_nat (S j)) * Rabs h <= 1)%R ->
  exists o v, o_sym o = b /\ forall d1 ev, state_tick (filled d w v) o = (d1, ev) ->
    exists f', rx_feed d f w = (settled d1, f', ev) /\ (drifting d1 = true -> data_ok c dl h (S j) (settled d1) f').
Proof using Hsf.
  intros [D1 D2 D3 D4 D5] Hdr (Hw & Hb & al & E & Hm) Hh. destruct (drifting_cases d Hdr) as (Hdc & Hst).
  destruct (window_tick w d f (conj D1 D2) D3 Hw Hdc) as (v & s & n & trim & Hfeed). rewrite D4, (df_frac _ _ _ _ D5), (drift_small _ _ _ _ D5 Hh) in Hfeed. cbn [snd] in Hfeed.
  set (m := demod_one_symbol_full NS c dl w) in *. set (o := mk_obs _ _ _ _ _ _) in Hfeed. exists o, v. split.
  { change (o_sym o) with (Z.of_nat (ms_sym m)). rewrite (proj1 Hm). unfold tone_bin. rewrite NS_Z, Z.mod_small by done. lia. }
  intros d1 ev Et. fold (filled d w v) in Hfeed. set (full := filled d w v) in *. destruct (tick_kept full o d1 ev D2 Hdr eq_refl Et) as (K1 & K2).
  specialize (Hfeed _ _ Et (proj1 K1)). cbn zeta in Hfeed. eexists. split; [exact Hfeed|]. intros H1. destruct (K2 H1) as (K3 & K4).
  split; try done; [destruct K1 as (_ & R); by split|by etransitivity; [exact K3|]|by etransitivity; [exact K4|]|].
  unfold front_after. change (drifting (settled d1)) with (drifting d1). change (ld_os_factor (settled d1)) with (ld_os_factor d1). pose proof K1 as (_ & _ & _ & K5 & _).
  fold (settled d1). change (drifting (settled d1)) with (drifting d1). rewrite H1. change (ld_os_factor (settled d1)) with (ld_os_factor d1). rewrite K5.
  assert (Eb : front_branch full (settled d1) (f {{ fr_snr_sum := s; fr_snr_count := n }}) m = f {{ fr_snr_sum := s; fr_snr_count := n }}).
  { unfold front_branch. change (ld_state full) with (ld_state d). change (ld_state (settled d1)) with (ld_state d1). destruct (drifting_cases d1 H1) as (_ & [[S1 _]|S1]), Hst as [[S0 _]|S0]; by rewrite S0, S1. }
  assert (Ef : dat_front dl h j (f {{ fr_snr_sum := s; fr_snr_count := n }})) by (destruct D5; by split).
  replace (match ld_state d with STATE_HEADER | STATE_PAYLOAD => f {{ fr_snr_sum := s; fr_snr_count := n }} | _ => f end) with (f {{ fr_snr_sum := s; fr_snr_count := n }}) by (destruct Hst as [[-> _]| ->]; done).
  rewrite Eb, (drift_small _ _ _ _ Ef Hh). destruct D5 as [F1 F2 F3]. split; rcbn; done.
Qed.
Lemma in_header_drifting cfg syms (d : dec) : in_header cfg syms d -> drifting d = true.
Proof. intros (_ & Hs & Hi & _). unfold drifting. rewrite Hs, Hi, bool_decide_true by done. by rewrite (proj2 (Z.leb_le 2 _)) by lia. Qed.

Lemma in_payload_drifting cfg h syms (d : dec) : in_payload cfg h syms d -> drifting d = true.
Proof. intros (_ & Hs & _). unfold drifting. by rewrite Hs. Qed.

Lemma in_header_settled cfg syms d : in_header cfg syms d -> in_header cfg syms (settled d).
Proof. done. Qed.

Lemma in_payload_settled cfg h syms d : in_payload cfg h syms d -> in_payload cfg h syms (settled d).
Proof. done. Qed.

Section Frame.
Context (c : Z) (dl h : R) (M : nat) (Hdrift : (IZR (Z.of_nat M) * Rabs h <= 1)%R).

Lemma drift_in j : (S j <= M)%nat -> (IZR (Z.of_nat (S j)) * Rabs h <= 1)%R.
Proof using Hsf Hdrift. intros Hj. etransitivity; [|exact Hdrift]. apply Rmult_le_compat_r; [apply Rabs_pos|]. apply IZR_le. lia. Qed.

(** Header symbols, the last excepted. *)
Lemma header_feed cfg ws bins : Forall2 (holds c dl) ws bins -> rx_sf cfg = sf -> forall syms j d f,
  in_header cfg syms d -> data_ok c dl h j d f -> (length syms + length bins <= 7)%nat -> (j + length bins <= M)%nat ->
  exists d' f', rx_feed d f (concat ws) = (d', f', []) /\ in_header cfg (syms ++ map (fun b => header_symbol b 0 (2 ^ sf)) bins) d' /\ data_ok c dl h (j + length bins) d' f'.
Proof using Hsf Hdrift.
  intros Hall Ecfg. induction Hall as [|w b ws bins Hwb _ IH]; intros syms j d f Hin Hok Hl Hj; cbn [length map concat] in *.
  - exists d, f. rewrite app_nil_r, Nat.add_0_r. done.
  - destruct (data_step c dl h j w b d f Hok (in_header_drifting _ _ _ Hin) Hwb) as (o & v & Eo & Hstep); [apply drift_in; lia|].
    destruct (header_tick cfg syms (filled d w v) o Hin ltac:(lia)) as (d1 & Et & H1). rewrite Eo, Ecfg in H1.
    destruct (Hstep _ _ Et) as (f1 & E1 & Hok1). specialize (Hok1 (in_header_drifting _ _ _ H1)). apply in_header_settled in H1.
    destruct (IH _ (S j) (settled d1) f1 H1 Hok1) as (d2 & f2 & E2 & H2 & Hok2); [rewrite length_app; cbn; lia|lia|].
    exists d2, f2. rewrite rx_feed_app, E1, E2. split; [done|]. rewrite <- app_assoc in H2. split; [exact H2|]. by replace (j + S (length bins))%nat with (S j + length bins)%nat by lia.
Qed.

Lemma payload_feed cfg hd ws bins : Forall2 (holds c dl) ws bins -> rx_sf cfg = sf -> forall syms j d f,
  in_payload cfg hd syms d -> data_ok c dl h j d f -> Z.of_nat (length syms + length bins) < ld_payload_sym_target d -> (j + length bins <= M)%nat ->
  exists d' f', rx_feed d f (concat ws) = (d', f', []) /\
    in_payload cfg hd (syms ++ map (fun b => payload_symbol (payload_ldro_of sf (rx_bw cfg)) b 0 (2 ^ sf)) bins) d' /\ data_ok c dl h (j + length bins) d' f'.
Proof using Hsf Hdrift.
  intros Hall Ecfg. induction Hall as [|w b ws bins Hwb _ IH]; intros syms j d f Hin Hok Hl Hj; cbn [length map concat] in *.
  - exists d, f. rewrite app_nil_r, Nat.add_0_r. done.
  - destruct (data_step c dl h j w b d f Hok (in_payload_drifting _ _ _ _ Hin) Hwb) as (o & v & Eo & Hstep); [apply drift_in; lia|].
    destruct (payload_tick cfg hd syms (filled d w v) o Hin) as (d1 & Et & H1); [change (ld_payload_sym_target (filled d w v)) with (ld_payload_sym_target d); lia|]. rewrite Eo, Ecfg in H1.
    assert (Etg : ld_payload_sym_target d1 = ld_payload_sym_target d).
    { destruct Hin as (_ & _ & _ & _ & _ & _ & _ & T & _), H1 as (_ & _ & _ & _ & _ & _ & _ & T1 & _). by rewrite T, T1. }
    destruct (Hstep _ _ Et) as (f1 & E1 & Hok1). specialize (Hok1 (in_payload_drifting _ _ _ _ H1)). apply in_payload_settled in H1.
    destruct (IH _ (S j) (settled d1) f1 H1 Hok1) as (d2 & f2 & E2 & H2 & Hok2); [rewrite length_app; cbn [length]; change (ld_payload_sym_target (settled d1)) with (ld_payload_sym_target d1); lia|lia|].
    exists d2, f2. rewrite rx_feed_app, E1, E2. split; [done|]. rewrite <- app_assoc in H2. split; [exact H2|]. by replace (j + S (length bins))%nat with (S j + length bins)%nat by lia.
Qed.
End Frame.

(** ** A transmitted frame *)

Section Tx.
Context (cr : Z) (has_crc : bool) (payload : list Z) (Hcr : 5 <= cr <= 8) (Hpl : bytes_ok payload) (Hlen : (1 <= length payload <= 255)%nat)
  (Hlc : (has_crc = true -> 2 <= length payload <= 254)%nat) (Hnib : sf - 7 < 2 * Z.of_nat (length payload) + (if has_crc then 4 else 0)).
Abbreviation tx := (lora_tx sf cr bw has_crc payload).
Abbreviation ldro := (payload_ldro_of sf bw).

Definition tx_fields : header_fields :=
  {| h_payload_len := Z.of_nat (length payload); h_has_crc := has_crc; h_cr := cr; h_crc_ok := true;
     h_leftover := pad_to (Z.to_nat (sf - 7)) (flat_map byte_nibbles (tx_bytes payload has_crc)) |}.

Lemma tx_bins_range b : In b (fst tx ++ snd tx) -> 0 <= b < 2 ^ sf.
Proof using All.
  assert (Hp : 0 < 2 ^ sf) by (apply Z.pow_pos_nonneg; lia). unfold lora_tx. cbn [fst snd]. rewrite in_app_iff. intros [H|H]; apply in_map_iff in H as (s & <- & _); by apply Z.mod_pos_bound.
Qed.

Lemma tx_fields_decode : decode_header sf (header_nibbles sf (map (fun b => header_symbol b 0 (2 ^ sf)) (fst tx))) = tx_fields.
Proof using All. apply tx_header_decodes; (done || lia). Qed.

Lemma tx_lengths : length (fst tx) = 8%nat /\ snd tx <> [] /\ payload_symbol_count sf (Z.of_nat (length payload)) cr has_crc ldro = Z.of_nat (length (snd tx)).
Proof using All.
  destruct (symbol_count_blocks sf (Z.of_nat (length payload)) cr has_crc ldro) as (Hc & Hc0 & _); [done|done|lia|lia|].
  assert (El : payload_symbol_count sf (Z.of_nat (length payload)) cr has_crc ldro = Z.of_nat (length (snd tx))).
  { unfold lora_tx. cbn zeta. cbn [snd]. rewrite length_map, tx_blocks_length, Hc, Z.div_mul by lia. nia. }
  split; [unfold lora_tx; cbn zeta; cbn [fst]; by rewrite length_map, tx_block_length|]. split; [|exact El]. intros E. rewrite E in El. cbn in El. nia.
Qed.

Lemma tx_delivers m : exists m', deliver_payload bf bf2 (header_meta m tx_fields) (Z.of_nat (length payload)) has_crc
    (assemble_payload (sf - (if ldro then 2 else 0)) cr (h_leftover tx_fields) (map (fun b => payload_symbol ldro b 0 (2 ^ sf)) (snd tx))) = (payload, m') /\
  fm_payload_len m' = Z.of_nat (length payload) /\ fm_header_crc_ok m' = true /\ fm_payload_crc_ok m' = true.
Proof using All.
  pose proof (lora_frame_rx sf cr bw has_crc payload bf bf2 (header_meta m tx_fields) Hsf Hcr Hpl Hlen Hlc Hnib) as Hrx.
  match type of Hrx with _ = Some (_, ?mm) => exists mm; set (m2 := mm) in * end. destruct tx_lengths as (_ & Hne & Hc).
  unfold lora_rx in Hrx. cbn zeta in Hrx. rewrite tx_fields_decode in Hrx. cbn [h_crc_ok h_payload_len h_cr h_has_crc tx_fields] in Hrx. rewrite Hc, Z.eqb_refl in Hrx.
  destruct (Z.eqb_spec (Z.of_nat (length (snd tx))) 0) as [E0|_]; [destruct (snd tx); cbn in E0; (done || lia)|].
  split; [by apply (inj Some) in Hrx|]. by unfold m2; destruct has_crc.
Qed.
(** The windows of a frame, from the first header symbol on. *)
Lemma frame_feed c dl h M hw pw m j d f : (IZR (Z.of_nat M) * Rabs h <= 1)%R -> Forall2 (holds c dl) hw (fst tx) -> Forall2 (holds c dl) pw (snd tx) ->
  in_header (mk_rx sf bw bf bf2 m) [] d -> data_ok c dl h j d f -> (j + length (fst tx ++ snd tx) <= M)%nat ->
  exists d' f' m', rx_feed d f (concat (hw ++ pw)) = (d', f', [EvFrame payload m']) /\ ld_state d' = STATE_IDLE /\
    fm_payload_len m' = Z.of_nat (length payload) /\ fm_header_crc_ok m' = true /\ fm_payload_crc_ok m' = true.
Proof using All.
  intros Hdr Hh Hp Hin Hok Hj. destruct tx_lengths as (L8 & Lne & Lc). destruct (tx_delivers m) as (m' & Ed & Hm'). pose proof tx_fields_decode as Eh. rewrite length_app, L8 in Hj.
  set (cfg := mk_rx sf bw bf bf2 m) in *. set (bh := fst tx) in *. set (bp := snd tx) in *. clearbody bh bp.
  destruct bh as [|b8 bh _] using rev_ind; [done|]. apply Forall2_app_inv_r in Hh as (hw' & ? & Hh & Hl8 & ->). inversion Hl8 as [|w8 ? l0 ? Hw8 Hnil]; subst. inversion Hnil; subst. clear Hl8 Hnil.
  destruct bp as [|be bp _] using rev_ind; [done|]. apply Forall2_app_inv_r in Hp as (pw' & ? & Hp & Hle & ->). inversion Hle as [|we ? l0 ? Hwe Hnil]; subst. inversion Hnil; subst. clear Hle Hnil.
  rewrite !length_app in *. cbn [length] in *. rewrite !map_app in *. cbn [map] in *.
  destruct (header_feed c dl h M Hdr cfg hw' bh Hh eq_refl [] j d f Hin Hok) as (d1 & f1 & E1 & I1 & O1); [cbn; lia|lia|].
  set (syms := map (fun b => header_symbol b 0 (2 ^ sf)) bh) in *. cbn [app] in I1.
  destruct (data_step c dl h _ w8 b8 d1 f1 O1 (in_header_drifting _ _ _ I1) Hw8) as (o8 & v8 & Eo8 & Hs8); [apply (drift_in h M Hdr); lia|].
  destruct (last_header_tick cfg syms (filled d1 w8 v8) o8 I1) as (d2 & Et2 & I2).
  { unfold syms. rewrite length_map. lia. } { cbn [rx_sf cfg]. by rewrite Eo8, Eh. } { cbn [rx_sf rx_bw cfg]. rewrite Eo8, Eh. cbn [h_payload_len h_cr h_has_crc tx_fields]. rewrite Lc. lia. }
  cbn [rx_sf rx_bw rx_bf rx_bf2 rx_meta cfg] in I2. rewrite Eo8, Eh in I2. set (cfg2 := mk_rx _ _ _ _ _) in I2.
  destruct (Hs8 _ _ Et2) as (f2 & E2 & O2). specialize (O2 (in_payload_drifting _ _ _ _ I2)). apply in_payload_settled in I2.
  assert (T2 : ld_payload_sym_target (settled d2) = Z.of_nat (length bp + 1)) by (destruct I2 as (_ & _ & _ & _ & _ & _ & _ & T & _); rewrite T; exact Lc).
  destruct (payload_feed c dl h M Hdr cfg2 tx_fields pw' bp Hp eq_refl [] _ (settled d2) f2 I2 O2) as (d3 & f3 & E3 & I3 & O3); [rewrite T2; cbn [length]; lia|lia|].
  destruct (data_step c dl h _ we be d3 f3 O3 (in_payload_drifting _ _ _ _ I3) Hwe) as (oe & ve & Eoe & Hse); [apply (drift_in h M Hdr); lia|].
  pose proof (last_payload_tick cfg2 tx_fields _ (filled d3 we ve) oe I3) as H4.
  assert (T3 : ld_payload_sym_target d3 = Z.of_nat (length bp + 1)) by (destruct I3 as (_ & _ & _ & _ & _ & _ & _ & T & _); rewrite T; exact Lc).
  assert (Hl4 : Z.of_nat (length ([] ++ map (fun b => payload_symbol (payload_ldro_of sf (rx_bw cfg2)) b 0 (2 ^ sf)) bp)) + 1 = ld_payload_sym_target (filled d3 we ve)).
  { change (ld_payload_sym_target (filled d3 we ve)) with (ld_payload_sym_target d3). rewrite T3. cbn [app]. rewrite length_map. lia. }
  specialize (H4 Hl4). cbn zeta in H4. cbn [app rx_sf rx_bw rx_bf rx_bf2 rx_meta cfg2 h_payload_len h_has_crc h_cr tx_fields] in H4. rewrite Eoe in H4.
  rewrite Ed in H4. destruct H4 as (d4 & E4 & S4 & _). destruct (Hse _ _ E4) as (f4 & E5 & _).
  exists (settled d4), f4, m'. split; [|split; [exact S4|exact Hm']].
  rewrite !concat_app, !rx_feed_app, E1. cbn [concat]. rewrite !app_nil_r, E2, rx_feed_app, E3, E5. done.
Qed.
End Tx.
End Sync.
