(* ===== verification/LoraReceive.v ===== *)
(** The decoder of src/lora.c on the samples of a whole frame: preamble, sync
    word, downchirps, header and payload. *)

From Stdlib Require Import Reals Lra Psatz.
From S2P Require Import Prelude LoraCodec LoraFec LoraFrame LoraLink LoraDecoder LoraEndToEnd CxReal LoraFront LoraSignal LoraWave LoraSync.

Local Open Scope Z_scope.

(** ** Pieces of a signal *)

Definition piece (l : list cx) (t k : nat) : list cx := map (fun i => nth i l czero) (seq t k).

Lemma piece_app l t j k : piece l t (j + k) = piece l t j ++ piece l (t + j) k.
Proof. unfold piece. by rewrite seq_app, map_app. Qed.

Lemma drop_piece l k : forall t, (t + k <= length l)%nat -> drop t l = piece l t k ++ drop (t + k) l.
Proof.
  induction k as [|k IH]; intros t Ht; [by rewrite Nat.add_0_r|]. destruct (lookup_lt_is_Some_2 l t ltac:(lia)) as [x Hx]. rewrite (drop_S l x t Hx), (IH (S t)) by lia.
  unfold piece. cbn [seq map app]. rewrite (nth_lookup_Some _ _ czero _ Hx). by replace (t + S k)%nat with (S t + k)%nat by lia.
Qed.

Lemma piece_length l t k : length (piece l t k) = k.
Proof. unfold piece. by rewrite length_map, length_seq. Qed.

(** [n] windows in a row. *)
Lemma windows_concat l N n : forall t, piece l t (n * N) = concat (map (fun i => piece l (t + i * N) N) (seq 0 n)).
Proof.
  induction n as [|n IH]; intros t; [done|]. rewrite seq_S, map_app, concat_app. cbn [map concat]. rewrite app_nil_r. cbn [Nat.add].
  replace (S n * N)%nat with (n * N + N)%nat by lia. by rewrite piece_app, IH.
Qed.

(** ** Bins *)

Lemma k_signed_found N x : 0 < N -> N mod 2 = 0 -> 2 * Z.abs x < N -> k_signed_of (x mod N) N = x.
Proof.
  intros HN He Hx. unfold k_signed_of. rewrite Z.quot_div_nonneg, Z.geb_leb by lia. assert (Eh : N = 2 * (N / 2)) by (pose proof (Z.div_mod N 2); lia). destruct (Z.ltb_spec x 0).
  - replace (x mod N) with (x + N) by (rewrite <- (Z.mod_add _ 1) by lia; rewrite Z.mul_1_l, Z.mod_small; lia). rewrite (proj2 (Z.leb_le _ _)); lia.
  - rewrite Z.mod_small by lia. rewrite (proj2 (Z.leb_gt _ _)); lia.
Qed.

Lemma sync_bin_far N x s : 3 <= s <= N - 3 -> 2 < bin_diff ((x + s) mod N) (x mod N) N.
Proof.
  intros Hs. pose proof (Z.mod_pos_bound x N ltac:(lia)) as Hx. assert (E : (x + s) mod N = x mod N + s \/ (x + s) mod N = x mod N + s - N).
  { rewrite <- Zplus_mod_idemp_l. destruct (Z.ltb_spec (x mod N + s) N); [left; apply Z.mod_small; lia|right]. rewrite <- (Z.mod_add _ (-1)) by lia. rewrite Z.mod_small; lia. }
  unfold bin_diff. destruct E as [-> | ->].
  - replace (Z.abs (x mod N + s - x mod N)) with s by lia. destruct (s >? Z.quot N 2); lia.
  - replace (Z.abs (x mod N + s - N - x mod N)) with (N - s) by lia. destruct (N - s >? Z.quot N 2); lia.
Qed.

Section Receive.
Context (sf cr0 bw : Z) (bf bf2 : bool) (Hsf : 7 <= sf <= 12) (a : cx) (Ha : (0 < cabs a)%R) (HA : (3 <= IZR (2 ^ sf) * cabs a)%R).
Context (p : nat) (s1 s2 : Z) (bins : list Z) (c : Z) (z : nat -> cx) (Hz : forall t, (cabs (z t) <= cabs a / 16)%R).
Abbreviation N := (NS sf).
Abbreviation wave := (tx_wave N p s1 s2 bins).
Abbreviation rx := (received N a c z wave).
Abbreviation win := (window N p s1 s2 bins a c z).
Abbreviation dec := (lora_decoder cx).
Abbreviation frt := (front (C := cx) (F := R) (D := R)).

Lemma N16 : (16 <= N)%nat.
Proof using Hsf. pose proof (NS_sizes sf Hsf). lia. Qed.
Lemma N4 : (N mod 4 = 0)%nat.
Proof using Hsf. apply (NS_sizes sf Hsf). Qed.
Lemma N_pos : 128 <= 2 ^ sf.
Proof using Hsf. pose proof (NS_Z sf Hsf). pose proof (NS_sizes sf Hsf). lia. Qed.
Lemma N_even : 2 ^ sf mod 2 = 0.
Proof using Hsf. replace sf with (1 + (sf - 1)) by lia. rewrite Z.pow_add_r, Z.mul_comm by lia. apply Z.mod_mul. lia. Qed.

Lemma win_piece t : win t = piece rx t N.
Proof. done. Qed.

Lemma bin_at v t q th : Z.of_nat t = q * 2 ^ sf + th -> Z.of_nat (tone_bin N (c + v + Z.of_nat t)) = (c + th + v) mod 2 ^ sf.
Proof using Hsf.
  intros Ht. pose proof N_pos. unfold tone_bin. rewrite (NS_Z sf Hsf), Z2Nat.id by (apply Z.mod_pos_bound; lia). rewrite Ht. replace (c + v + (q * 2 ^ sf + th)) with (c + th + v + q * 2 ^ sf) by ring. apply Z.mod_add. lia.
Qed.

(** A window of nothing but preamble. *)
Lemma clean_measured t : (t + N <= p * N)%nat -> measured N (seen N a c 0 t) (c + 0 + Z.of_nat t) (amp sf a / 16) (demod_one_symbol_full N 0 0%R (win t)).
Proof using All.
  intros Ht. replace (amp sf a / 16)%R with (IZR (Z.of_nat N) * (cabs a / 16) + 2 * cabs a * 0)%R by (unfold amp; field).
  apply (up_measured N N16 N4 p s1 s2 bins a c z Ha Hz t 0 (fun _ => false) 0).
  - rewrite (wave_length N N16 N4). nia.
  - intros n Hn _. apply (wave_preamble N N16 N4). lia.
  - cbn [ind]. rewrite rsum_zero. lra.
  - apply Rle_mult_inv_pos; [apply (IZR_le 0); lia|lra].
Qed.

(** A window that starts at most a sixteenth off a symbol. *)
Lemma edge_measured t v q th : sync_symbols p s1 s2 !! q = Some (Up v) -> Z.of_nat t = Z.of_nat q * 2 ^ sf + th -> 16 * Z.abs th <= 2 ^ sf ->
  exists E, (E <= 3 / 16 * amp sf a)%R /\ measured N (seen N a c v t) (c + v + Z.of_nat t) E (demod_one_symbol_full N 0 0%R (win t)).
Proof using All.
  intros Hq Ht Hth. pose proof (NS_Z sf Hsf) as HZ. pose proof N16. assert (Hqp : (q < p + 2)%nat).
  { unfold sync_symbols in Hq. destruct (Nat.lt_ge_cases q (p + 2)) as [|Hge]; [done|]. rewrite lookup_app_r in Hq by (rewrite length_replicate; lia). rewrite length_replicate in Hq.
    destruct (q - p)%nat as [|[|[|[|?]]]] eqn:Eq; cbn in Hq; (done || lia). }
  assert (HR : (0 < IZR (Z.of_nat N))%R) by (apply (IZR_lt 0); lia). rewrite <- HZ in *.
  assert (Hlen : (t + N <= length wave)%nat) by (rewrite (wave_length N N16 N4); nia).
  set (B := IZR (Z.abs th)). assert (HB : (0 <= B <= IZR (Z.of_nat N) / 16)%R).
  { split; [apply (IZR_le 0); lia|]. apply (Rmult_le_reg_l 16); [lra|]. unfold B. rewrite <- mult_IZR. replace (16 * (IZR (Z.of_nat N) / 16))%R with (IZR (Z.of_nat N)) by field. apply IZR_le. lia. }
  exists (IZR (Z.of_nat N) * (cabs a / 16) + 2 * cabs a * B)%R. split; [unfold amp; nra|].
  destruct (Z.ltb_spec th 0).
  - apply (up_measured N N16 N4 p s1 s2 bins a c z Ha Hz t v (fun n => (n <? Z.to_nat (- th))%nat) B); [done| | |lra].
    + intros n Hn Hb. apply Nat.ltb_ge in Hb. apply (wave_sync N N16 N4 p s1 s2 bins _ q); [nia|done].
    + etransitivity; [apply rsum_prefix|]. apply IZR_le. lia.
  - apply (up_measured N N16 N4 p s1 s2 bins a c z Ha Hz t v (fun n => (N - Z.to_nat th <=? n)%nat) B); [done| | |lra].
    + intros n Hn Hb. apply Nat.leb_gt in Hb. apply (wave_sync N N16 N4 p s1 s2 bins _ q); [nia|done].
    + etransitivity; [apply rsum_suffix; lia|]. apply IZR_le. lia.
Qed.
(** ** Up to the sync word *)

(** The first window starts [th] samples off a symbol. *)
Context (th : Z) (t0 q0 : nat) (Hth : 16 * Z.abs th <= 2 ^ sf) (Ht0 : Z.of_nat t0 = Z.of_nat q0 * 2 ^ sf + th) (Hq0 : (q0 <= 1)%nat) (Hp : (11 <= p)%nat)
  (Hc : 4 * Z.abs c < 2 ^ sf) (Hs1 : 3 <= s1 <= 2 ^ sf - 3).
Abbreviation kbin := ((c + th) mod 2 ^ sf).
Abbreviation V := (cmul (IZR (Z.of_nat N), 0%R) (seen N a c 0 t0)).

Lemma bin_from v i : Z.of_nat (tone_bin N (c + v + Z.of_nat (t0 + i * N))) = (c + th + v) mod 2 ^ sf.
Proof using All. apply (bin_at v _ (Z.of_nat q0 + Z.of_nat i)). rewrite Nat2Z.inj_add, Nat2Z.inj_mul, Ht0, (NS_Z sf Hsf). ring. Qed.

Lemma V_pos : (0 < cabs V)%R.
Proof using All. pose proof N16. rewrite cabs_mul, cabs_real, seen_abs by (apply (IZR_le 0); lia). apply Rmult_lt_0_compat; [apply (IZR_lt 0); lia|done]. Qed.

Lemma preamble_run (d : dec) (f : frt) ce : ready sf cr0 bw bf bf2 d -> ld_sto_skip_remaining d = 0 -> ld_state d = STATE_IDLE -> ld_cfo_int d = 0 ->
  fr_cfo_frac f = 0%R -> fr_center_freq_hz f = ce -> forall i, (q0 + i + 2 <= p)%nat ->
  exists d' f', rx_feed d f (piece rx t0 (S i * N)) = (d', f', if (4 <=? i)%nat then [EvPreamble sf cr0 bw] else []) /\ ld_symbuf d' = [] /\
    pre_dec sf cr0 bw bf bf2 kbin i d' /\ pre_front sf a V ce i f'.
Proof using All.
  intros Hr Hsk Hst Hci Hcf Hce. pose proof (NS_Z sf Hsf) as HZ. pose proof N16 as H16.
  assert (Hclean : forall i, (q0 + i + 2 <= p)%nat -> measured N (seen N a c 0 (t0 + i * N)) (c + 0 + Z.of_nat (t0 + i * N)) (amp sf a / 16) (demod_one_symbol_full N 0 0%R (win (t0 + i * N)))).
  { intros i Hi. apply clean_measured. nia. }
  assert (Ek : forall i, Z.of_nat (tone_bin N (c + 0 + Z.of_nat (t0 + i * N))) = kbin) by (intros i; rewrite bin_from; f_equal; lia).
  induction i as [|i IH]; intros Hi.
  - specialize (Hclean 0%nat Hi). specialize (Ek 0%nat). rewrite Nat.mul_0_l, Nat.add_0_r in *.
    destruct (idle_window sf cr0 bw bf bf2 Hsf a Ha HA (win t0) d f _ _ ce Hr Hsk Hst Hci Hcf Hce (win_length _ _ _ _ _ _ _ _ _) (seen_abs _ _ _ _ _) Hclean) as (d' & f' & E & Hb & Hd & Hf).
    rewrite Ek in Hd. exists d', f'. rewrite Nat.mul_1_l. done.
  - destruct IH as (d1 & f1 & E1 & Hb1 & Hd1 & Hf1); [lia|]. specialize (Hclean (S i) Hi). specialize (Ek (S i)).
    destruct (still_window sf cr0 bw bf bf2 Hsf a Ha HA (win (t0 + S i * N)) d1 f1 _ _ V ce i kbin _ Hb1 Hd1 Hf1 (win_length _ _ _ _ _ _ _ _ _) (seen_abs _ _ _ _ _) Hclean) as (d2 & E2 & Hb2 & Hd2); [pose proof (amp_3 sf cr0 bw bf bf2 Hsf a Ha HA); lra|done|].
    exists d2. eexists. replace (S (S i) * N)%nat with (S i * N + N)%nat by lia. rewrite piece_app, rx_feed_app, E1, <- win_piece, E2. split; [|split; [done|split; [done|]]].
    + f_equal. unfold lock_event. destruct (Nat.leb_spec 4 i), (Nat.leb_spec 4 (S i)), (Nat.eqb_spec i 3); lia || done.
    + apply (still_clean sf cr0 bw bf bf2 Hsf a Ha HA f1 _ _ _ V ce i kbin Hf1 Hclean); [apply seen_abs|by rewrite (seen_period N N16 N4 p s1 s2 bins a c z Ha Hz)|done].
Qed.

(** The whole preamble and the first sync symbol: the decoder has estimated
    the carrier's fraction and will drop the samples up to the downchirps. *)
Lemma sync_run (d : dec) (f : frt) ce : ready sf cr0 bw bf bf2 d -> ld_sto_skip_remaining d = 0 -> ld_state d = STATE_IDLE -> ld_cfo_int d = 0 ->
  fr_cfo_frac f = 0%R -> fr_center_freq_hz f = ce ->
  exists d' f', rx_feed d f (piece rx t0 ((p + 1 - q0) * N)) = (d', f', [EvPreamble sf cr0 bw]) /\ ld_symbuf d' = [] /\
    hdr_dec sf cr0 bw bf bf2 0 (2 ^ sf - (c + th)) 0 d' /\ (2 * PI * Rabs (fr_cfo_frac f') <= 33 / 223)%R /\ fr_center_freq_hz f' = ce.
Proof using All.
  intros Hr Hsk Hst Hci Hcf Hce. pose proof (NS_Z sf Hsf) as HZ. pose proof N16 as H16. pose proof N_pos as HN. pose proof (amp_3 sf cr0 bw bf bf2 Hsf a Ha HA) as H3.
  set (i := (p - 2 - q0)%nat). destruct (preamble_run d f ce Hr Hsk Hst Hci Hcf Hce i) as (d1 & f1 & E1 & Hb1 & Hd1 & Hf1); [lia|].
  rewrite (proj2 (Nat.leb_le 4 i)) in E1 by lia. replace (p + 1 - q0)%nat with (S i + 1 + 1)%nat by lia. rewrite !Nat.mul_add_distr_r, Nat.mul_1_l, !piece_app, !rx_feed_app, E1.
  set (t1 := (t0 + S i * N)%nat). fold t1. set (t2 := (t0 + (S i * N + N))%nat).
  assert (T1 : Z.of_nat t1 = Z.of_nat (p - 1) * 2 ^ sf + th) by (unfold t1; nia). assert (T2 : Z.of_nat t2 = Z.of_nat p * 2 ^ sf + th) by (unfold t2; nia).
  destruct (edge_measured t1 0 (p - 1) th) as (E & HE & Hm); [unfold sync_symbols; rewrite lookup_app_l by (rewrite length_replicate; lia); apply lookup_replicate_2; lia|done|done|].
  destruct (still_window sf cr0 bw bf bf2 Hsf a Ha HA (win t1) d1 f1 _ _ V ce i kbin E Hb1 Hd1 Hf1 (win_length _ _ _ _ _ _ _ _ _) (seen_abs _ _ _ _ _) Hm HE) as (d2 & E2 & Hb2 & Hd2).
  { symmetry. rewrite (bin_at 0 t1 (Z.of_nat (p - 1)) th T1). f_equal. lia. }
  destruct (still_full sf Hsf a f1 (demod_one_symbol_full N 0 0%R (win t1)) V ce i kbin Hf1) as (Hf2 & Hl2); [lia|].
  rewrite <- win_piece, E2. unfold lock_event. rewrite (proj2 (Nat.eqb_neq i 3)) by lia.
  destruct (edge_measured t2 s1 p th) as (E' & HE' & Hm'); [pose proof (syms_at N N16 N4 p s1 s2 0 (Up s1) eq_refl) as Hs; by rewrite Nat.add_0_r in Hs|done|done|].
  assert (Hi4 : (4 <= S i)%nat) by lia. assert (Hk0 : 0 <= kbin < 2 ^ sf) by (apply Z.mod_pos_bound; lia).
  destruct (sync_window sf cr0 bw bf bf2 Hsf a Ha HA (win t2) d2 _ _ _ V ce (S i) kbin E' Hb2 Hd2 Hf2 Hl2 V_pos Hi4 Hk0 (win_length _ _ _ _ _ _ _ _ _) (seen_abs _ _ _ _ _) Hm')
    as (d3 & f3 & E3 & Hb3 & Hd3 & Hc3); [lra|rewrite (bin_at s1 t2 (Z.of_nat p) th T2); by apply sync_bin_far|].
  rewrite (k_signed_found (2 ^ sf) (c + th)) in Hd3 by (lia || exact N_even). rewrite <- win_piece, E3. exists d3, f3. done.
Qed.
(** ** The downchirps *)

Lemma skip_run (l : list cx) i ci (d : dec) (f : frt) : ld_symbuf d = [] -> hdr_dec sf cr0 bw bf bf2 i (Z.of_nat (length l)) ci d ->
  exists d', rx_feed d f l = (d', f, []) /\ ld_symbuf d' = [] /\ hdr_dec sf cr0 bw bf bf2 i 0 ci d'.
Proof using Hsf.
  intros Hb [H1 H2 H3 H4 H5 H6 H7]. destruct (feed_skip l d f H5) as (v & E). eexists. split; [exact E|]. split; [done|]. by split.
Qed.

(** From the end of the window with the sync symbol to the first data symbol. *)
Lemma down_run (d : dec) (f : frt) ce dl t3 : ld_symbuf d = [] -> hdr_dec sf cr0 bw bf bf2 0 (2 ^ sf - (c + th)) 0 d -> fr_cfo_frac f = dl -> (2 * PI * Rabs dl <= 33 / 223)%R ->
  fr_center_freq_hz f = ce -> (Rabs (drift_of bw ce dl c) <= 1)%R -> Z.of_nat t3 = Z.of_nat (p + 1) * 2 ^ sf + th ->
  exists d' f', rx_feed d f (piece rx t3 (data_start N p - t3)) = (d', f', []) /\ ld_symbuf d' = [] /\ hdr_dec sf cr0 bw bf bf2 2 0 c d' /\ dat_front dl (drift_of bw ce dl c) 1 f'.
Proof using All.
  intros Hb Hd Hfr Hdl Hce Hdr Ht3. pose proof (NS_Z sf Hsf) as HZ. destruct (NS_sizes sf Hsf) as (HN & _ & H4).
  assert (Hq : 2 ^ sf / 4 = Z.of_nat (N / 4)) by (rewrite <- H4, Z.mul_comm; apply Z.div_mul; lia).
  set (k1 := Z.to_nat (2 ^ sf - (c + th))). set (k2 := Z.to_nat (2 ^ sf / 4 + c)).
  assert (K : (data_start N p - t3 = k1 + (N + (N + k2)))%nat) by (unfold data_start, k1, k2; nia). rewrite K, !piece_app, rx_feed_app.
  set (t4 := (t3 + k1)%nat). assert (T4 : Z.of_nat t4 = Z.of_nat (p + 2) * 2 ^ sf - c) by (unfold t4, k1; nia).
  destruct (skip_run (piece rx t3 k1) 0 0 d f Hb) as (d1 & E1 & Hb1 & Hd1); [rewrite piece_length; unfold k1; rewrite Z2Nat.id by lia; exact Hd|]. rewrite E1, rx_feed_app. fold t4.
  destruct (dc1_window sf cr0 bw bf bf2 Hsf (piece rx t4 N) d1 f ce Hb1 Hd1 Hce (piece_length _ _ _)) as (d2 & f2 & E2 & Hb2 & Hd2 & Hfr2 & Hce2). rewrite E2, rx_feed_app.
  destruct (dc2_window sf cr0 bw bf bf2 Hsf (win (t4 + N)) d2 f2 ce c dl Hb2 Hd2 ltac:(congruence) Hce2 (win_length _ _ _ _ _ _ _ _ _)) as (d3 & f3 & E3 & Hb3 & Hd3 & Hf3); [|done|done|done|].
  { apply (down_bin N N16 N4 p s1 s2 bins a c z Ha Hz); [lia|nia|done]. }
  rewrite <- win_piece, E3. destruct (skip_run (piece rx (t4 + N + N) k2) 2 c d3 f3 Hb3) as (d4 & E4 & Hb4 & Hd4); [rewrite piece_length; unfold k2; rewrite Z2Nat.id by lia; exact Hd3|].
  rewrite E4. exists d4, f3. done.
Qed.

(** ** The data symbols *)

Lemma data_holds dl : (forall b, In b bins -> 0 <= b < 2 ^ sf) -> (2 * PI * Rabs dl <= 33 / 223)%R ->
  Forall2 (holds sf c dl) (map (fun i => piece rx (data_start N p + i * N) N) (seq 0 (length bins))) bins.
Proof using All.
  intros Hb Hdl. apply Forall2_lookup. intros i. rewrite list_lookup_fmap. destruct (bins !! i) as [b|] eqn:Eb.
  - rewrite lookup_seq_lt by (by eapply lookup_lt_Some). constructor. split; [apply piece_length|]. split; [apply Hb; by eapply list_elem_of_In, list_elem_of_lookup_2|].
    do 2 eexists. exact (data_measured N N16 N4 p s1 s2 bins a c z Ha Hz i b dl Eb Hdl).
  - rewrite lookup_seq_ge by (by apply lookup_ge_None). constructor.
Qed.

Lemma drift_bound ce dl M : (2 * PI * Rabs dl <= 33 / 223)%R -> 0 < bw -> (ce <= 0 \/ IZR ((Z.abs c + 1) * bw * Z.of_nat M) <= ce)%R -> (IZR (Z.of_nat M) * Rabs (drift_of bw ce dl c) <= 1)%R.
Proof using All.
  intros Hdl Hbw Hce. unfold drift_of. destruct (Rltb 0 ce) eqn:Er; [|rewrite Rabs_R0; lra]. apply Rltb_true in Er. destruct Hce as [|Hce]; [lra|].
  rewrite !mult_IZR, plus_IZR, abs_IZR in Hce. unfold Rdiv. rewrite !Rabs_mult, (Rabs_pos_eq (/ ce)) by (left; by apply Rinv_0_lt_compat). rewrite (Rabs_pos_eq (IZR bw)) by (apply (IZR_le 0); lia).
  apply (Rmult_le_reg_r ce); [done|]. rewrite Rmult_assoc. replace (Rabs (IZR c + dl) * IZR bw * / ce * ce)%R with (Rabs (IZR c + dl) * IZR bw)%R by (field; lra).
  pose proof (Rabs_triang (IZR c) dl) as Ht. pose proof PI2_3_2. pose proof (Rabs_pos dl). pose proof (Rabs_pos (IZR c + dl)). assert (Hd1 : (Rabs dl <= 1)%R) by nra.
  assert (HM : (0 <= IZR (Z.of_nat M))%R) by (apply (IZR_le 0); lia). assert (Hb0 : (0 <= IZR bw)%R) by (apply (IZR_le 0); lia).
  rewrite Rmult_1_l. etransitivity; [|exact Hce]. rewrite <- Rmult_assoc, (Rmult_comm (IZR (Z.of_nat M))), Rmult_assoc, (Rmult_comm _ (IZR bw)), <- Rmult_assoc.
  apply Rmult_le_compat_r; [done|]. apply Rmult_le_compat_r; [done|]. lra.
Qed.
End Receive.

(** ** Windows that start late *)

(** A weak window at the end of the preamble counts as the sync word: when the
    windows start [th] samples late, the one that starts at symbol [p - 1]
    ends at [p * 2^sf + th], and the samples dropped from there lead to symbol
    [p + 1], the second sync symbol, instead of the first downchirp at
    [p + 2]. *)
Lemma straddle_reads_early sf cr0 bw bf bf2 k j (d : lora_decoder cx) o p c th : 7 <= sf <= 12 -> pre_dec sf cr0 bw bf bf2 k j d -> (4 <= j)%nat ->
  o_above_floor o = true -> o_straddle o = true -> o_sym o = k -> k = (c + th) mod 2 ^ sf -> 2 * Z.abs (c + th) < 2 ^ sf ->
  exists d1 sk, state_tick d o = (d1, []) /\ hdr_dec sf cr0 bw bf bf2 0 sk 0 d1 /\ (p * 2 ^ sf + th) + sk = (p + 1) * 2 ^ sf - c.
Proof.
  intros Hsf Hd Hj Ha Hs Ho Hk Hc. pose proof (N_pos sf Hsf). destruct (sync_tick sf cr0 bw bf bf2 Hsf k j d o Hd Hj) as (d1 & E & H1); [rewrite Hk; apply Z.mod_pos_bound; lia|done|by left|].
  exists d1, (2 ^ sf - (c + th)). split; [done|]. split; [|ring]. by rewrite Hk, (k_signed_found (2 ^ sf) (c + th)) in H1 by (lia || exact (N_even sf Hsf)).
Qed.

(** ** The drift of the sample clock *)

(** Drift below -1 moves the next window one sample later. *)
Lemma late_shift_applied (f : front (C := cx) (F := R) (D := R)) os : (fr_sfo_cum f + fr_sfo_hat f < -1)%R -> fr_sfo_hat f <> 0%R -> snd (drift_step f os) = -1.
Proof.
  intros H Hn. unfold drift_step. cbn [d_is0 d_add d_ltb d_of_Z real_front]. destruct (Req_dec_T (fr_sfo_hat f) 0) as [E|_]; [done|].
  by rewrite (proj2 (Rltb_false 1 _)), (proj2 (Rltb_true _ (-1))) by lra.
Qed.

(** Drift up to one output sample moves no window, whatever the oversampling. *)
Lemma drift_threshold_is_one (f : front (C := cx) (F := R) (D := R)) os : (-1 <= fr_sfo_cum f + fr_sfo_hat f <= 1)%R -> snd (drift_step f os) = 0.
Proof.
  intros H. unfold drift_step. cbn [d_is0 d_add d_ltb d_of_Z real_front]. destruct (Req_dec_T (fr_sfo_hat f) 0) as [E|_]; [done|].
  by rewrite (proj2 (Rltb_false 1 _)), (proj2 (Rltb_false _ (-1))) by lra.
Qed.

(** ** The first sample *)

Lemma created_ready sf cr0 bw d : lora_decoder_create sf cr0 bw = Some d ->
  7 <= sf <= 12 /\ 0 < bw /\ ready sf cr0 bw true false d /\ ld_sto_skip_remaining d = 0 /\ ld_state d = STATE_IDLE /\ ld_cfo_int d = 0.
Proof.
  unfold lora_decoder_create, lora_decoder_create_os. destruct (Z.ltb_spec sf 7), (Z.ltb_spec 12 sf), (Z.ltb_spec cr0 5), (Z.ltb_spec 8 cr0), (Z.leb_spec bw 0); try done.
  cbn [orb]. cbn [Z.ltb Z.compare Pos.compare Pos.compare_cont orb]. rewrite Z.mul_1_r, Z.shiftl_1_l. intros [= <-]. split; [done|]. split; [done|]. split; [|done]. by split.
Qed.

Lemma amp_pos sf (a : cx) : 7 <= sf <= 12 -> (3 <= IZR (2 ^ sf) * cabs a)%R -> (0 < cabs a)%R.
Proof. intros Hsf H. pose proof (cabs_pos a). destruct (Req_dec (cabs a) 0) as [E|]; [rewrite E in H|]; lra. Qed.

Lemma center_front (ce : R) : fr_cfo_frac (lora_decoder_set_center_freq (C := cx) (F := R) front_create ce) = 0%R /\ fr_center_freq_hz (lora_decoder_set_center_freq (C := cx) (F := R) front_create ce) = ce.
Proof. unfold lora_decoder_set_center_freq. cbn zeta. destruct (d_ltb _ _); (split; [exact (Rdiv_0_l 1)|reflexivity]). Qed.

Lemma hdr_in_header sf cr0 bw bf bf2 c (d : lora_decoder cx) : hdr_dec sf cr0 bw bf bf2 2 0 c d -> in_header (mk_rx sf bw bf bf2 (ld_meta d)) [] d.
Proof. intros [(_ & H1 & _ & _ & H2 & H3 & _ & H4 & H5) ? ? ? ? ? ?]. repeat split; done. Qed.


