(* ===== verification/LoraSoft.v ===== *)
(** Soft-decision decoding (src/lora.c): a log-likelihood ratio per bit from
    the powers of all bins, the soft deinterleaver and the soft Hamming
    decoder, and the frame decoded from them.

    On the windows of a received frame the soft decisions give the payload
    that was sent. *)

From Stdlib Require Import Reals Lra Psatz.
From S2P Require Import Prelude LoraCodec LoraFec LoraFrame LoraLink LoraDecoder CxReal LoraFront LoraSignal LoraWave LoraSync.

Local Open Scope Z_scope.

Section Soft.
Context {C F D : Type} `{ops : FrontOps C F D}.

Definition f_sub (x y : F) : F := f_add x (f_neg y).

(** ** Bits of a symbol *)

(** The information value a transmitter would send at bin [n]. *)
Definition llr_symbol (N n : Z) (sf_app : nat) (divide_by_4 : bool) : Z :=
  let sym_v := Z.land (u32 (n - 1)) (N - 1) in
  let sym_v := if divide_by_4 then Z.shiftr sym_v 2 else sym_v in
  Z.land (Z.lxor sym_v (Z.shiftr sym_v 1)) (Z.shiftl 1 (Z.of_nat sf_app) - 1).

(** The strongest bin whose value has bit [i] as wanted ([max_x1], [max_x0]). *)
Definition best_ll (want : bool) (i : Z) (bins : list (Z * F)) : F :=
  fold_left (fun best '(v, ll) => if Bool.eqb (Z.testbit v i) want && f_ltb best ll then ll else best) bins f_0.

Definition compute_symbol_llrs (N sf_app : nat) (divide_by_4 : bool) (cfo_int : Z) (cfo_frac : F) (s : list C) : list F :=
  let ll_buf := map c_norm2 (fftw N (rotated N cfo_int cfo_frac s)) in
  let bins := imap (fun n ll => (llr_symbol (Z.of_nat N) (Z.of_nat n) sf_app divide_by_4, ll)) ll_buf in
  map (fun j => let i := Z.of_nat (sf_app - 1 - j) in f_sub (best_ll true i bins) (best_ll false i bins)) (seq 0 sf_app).

(** ** Codewords *)

Definition lora_deinterleave_soft (sym_llrs : list (list F)) (sf_app cr_use : nat) : list (list F) :=
  fold_left (fun m i =>
    fold_left (fun m j =>
      mat_set m (Z.to_nat (mod_pos (Z.of_nat i - Z.of_nat j - 1) (Z.of_nat sf_app))) i (nth j (nth i sym_llrs []) f_0))
      (seq 0 sf_app) m)
    (seq 0 cr_use) (replicate sf_app (replicate cr_use f_0)).

Definition cw_LUT : list Z := [0; 23; 45; 58; 78; 89; 99; 116; 139; 156; 166; 177; 197; 210; 232; 255].
Definition cw_LUT_cr5 : list Z := [0; 24; 40; 48; 72; 80; 96; 120; 136; 144; 160; 184; 192; 216; 232; 240].

(** How well the ratios fit a codeword. *)
Definition cw_score (cw_llrs : list F) (cw_len code : Z) : F :=
  fold_left (fun p j =>
    let bit := Z.testbit code (cw_len - 1 - Z.of_nat j) in
    let l := nth j cw_llrs f_0 in
    let a := if f_ltb l f_0 then f_neg l else l in
    if (bit && f_ltb f_0 l) || (negb bit && f_ltb l f_0) then f_add p a else f_sub p a)
    (seq 0 (Z.to_nat cw_len)) f_0.

Definition soft_code (cr_app : Z) (n : nat) : Z :=
  Z.shiftr (at_ (if cr_app =? 1 then cw_LUT_cr5 else cw_LUT) n) (8 - (cr_app + 4)).

(** The nibble and [*err]. *)
Definition lora_hamming_decode_soft (cw_llrs : list F) (cr : Z) : Z * Z :=
  let cr_app := cr - 4 in
  let cr_app := if cr_app <? 1 then 1 else cr_app in
  let cr_app := if cr_app >? 4 then 4 else cr_app in
  let cw_len := cr_app + 4 in
  let best := snd (fold_left (fun '(best_p, best) n =>
                let p := cw_score cw_llrs cw_len (soft_code cr_app n) in
                if f_ltb best_p p then (p, n) else (best_p, best))
              (seq 0 16) (f_lit (- 10 ^ 30) 1, 0%nat)) in
  let data_msb_first := Z.shiftr (at_ cw_LUT best) 4 in
  (u8 (Z.lor (Z.lor (Z.shiftl (Z.land data_msb_first 1) 3) (Z.shiftl (Z.land data_msb_first 2) 1))
             (Z.lor (Z.shiftr (Z.land data_msb_first 4) 1) (Z.shiftr (Z.land data_msb_first 8) 3))), 0).

(** ** A frame *)

Definition soft_header_nibbles (sf : Z) (header_llrs : list (list F)) : list Z :=
  map (fun cw => fst (lora_hamming_decode_soft cw 8))
      (lora_deinterleave_soft header_llrs (Z.to_nat (header_sf_app sf)) 8).

Fixpoint soft_block_nibbles (fuel : nat) (sf_p cr_p : nat) (llrs : list (list F)) : list Z :=
  match fuel with
  | O => []
  | S k =>
      if (cr_p <=? length llrs)%nat then
        map (fun cw => fst (lora_hamming_decode_soft cw (Z.of_nat cr_p)))
            (lora_deinterleave_soft (take cr_p llrs) sf_p cr_p)
        ++ soft_block_nibbles k sf_p cr_p (drop cr_p llrs)
      else []
  end.

Definition soft_assemble_payload (sf_p cr_p : Z) (leftover : list Z) (payload_llrs : list (list F)) : list Z :=
  asm_bytes (fold_left push_nibble
    (map (fun n => Z.land n 0x0f) leftover
     ++ soft_block_nibbles (length payload_llrs) (Z.to_nat sf_p) (Z.to_nat cr_p) payload_llrs)
    (mk_asm [] None)).

(** The receiver on a frame's ratios, as state_tick composes it. *)
Definition soft_rx (sf bw_hz : Z) (bf bf2 : bool) (m : frame_meta) (header_llrs payload_llrs : list (list F)) : option (list Z * frame_meta) :=
  let h := decode_header sf (soft_header_nibbles sf header_llrs) in
  if h_crc_ok h then
    let ldro := payload_ldro_of sf bw_hz in
    let target := payload_symbol_count sf (h_payload_len h) (h_cr h) (h_has_crc h) ldro in
    if target =? 0 then Some ([], m {{ fm_payload_crc_ok := negb (h_has_crc h) }})
    else if Z.of_nat (length payload_llrs) =? target then
      Some (deliver_payload bf bf2 m (h_payload_len h) (h_has_crc h)
              (soft_assemble_payload (sf - (if ldro then 2 else 0)) (h_cr h) (h_leftover h) payload_llrs))
    else None
  else None.
End Soft.

(** ** Clear ratios *)

(** Ratios whose signs are the bits of [s], most significant first. *)
Definition clear_bits (n : nat) (row : list R) (s : Z) : Prop :=
  length row = n /\ forall j, (j < n)%nat -> if msb_bit n s j =? 1 then (0 < nth j row 0)%R else (nth j row 0 < 0)%R.

Lemma msb_testbit n s j : (j < n)%nat -> Z.testbit s (Z.of_nat n - 1 - Z.of_nat j) = (msb_bit n s j =? 1).
Proof.
  intros Hj. unfold msb_bit. rewrite (Z.land_ones _ 1), Z.shiftr_div_pow2, Z.testbit_odd, Z.shiftr_div_pow2 by lia. change (2 ^ 1) with 2.
  rewrite Zmod_odd. by destruct (Z.odd _).
Qed.

(** A fold that adds a term per index. *)
Lemma fold_rsum (G : R -> nat -> R) (g : nat -> R) n : (forall p j, G p j = (p + g j)%R) -> forall p, fold_left G (seq 0 n) p = (p + rsum n g)%R.
Proof. intros HG. induction n as [|n IH]; intros p; [cbn; ring|]. rewrite seq_S, fold_left_app, IH. cbn [fold_left rsum Nat.add]. rewrite HG. ring. Qed.

(** The contribution of one ratio to a codeword's score. *)
Definition fit (bit : bool) (l : R) : R := if (bit && Rltb 0 l) || (negb bit && Rltb l 0) then Rabs l else (- Rabs l)%R.

Lemma cw_score_sum row n code : cw_score row (Z.of_nat n) code = rsum n (fun j => fit (Z.testbit code (Z.of_nat n - 1 - Z.of_nat j)) (nth j row 0%R)).
Proof.
  unfold cw_score, f_sub, f_0. rewrite Nat2Z.id. cbn [f_ltb f_neg f_add f_lit real_front]. replace (0 / 1)%R with 0%R by field.
  rewrite <- (Rplus_0_l (rsum n _)). apply fold_rsum. intros p j. cbn zeta. unfold fit. set (l := nth j row 0%R).
  assert (El : (if Rltb l 0 then - l else l)%R = Rabs l).
  { destruct (Rltb l 0) eqn:E; [apply Rltb_true in E; by rewrite Rabs_left|apply Rltb_false in E; by rewrite Rabs_right by lra]. }
  rewrite El. by destruct (_ || _).
Qed.

Lemma fit_le bit l : (fit bit l <= Rabs l)%R.
Proof. unfold fit. pose proof (Rabs_pos l). destruct (_ || _); lra. Qed.

(** A clear ratio fits its own bit, and no other. *)
Lemma fit_clear bit l : (if bit : bool then (0 < l)%R else (l < 0)%R) -> fit bit l = Rabs l /\ fit (negb bit) l = (- Rabs l)%R /\ (0 < Rabs l)%R.
Proof.
  intros H. unfold fit. destruct bit; cbn [negb andb orb].
  - rewrite (proj2 (Rltb_true 0 l) H), (proj2 (Rltb_false l 0)) by lra. cbn. split; [done|]. split; [done|]. by apply Rabs_pos_lt; lra.
  - rewrite (proj2 (Rltb_true l 0) H), (proj2 (Rltb_false 0 l)) by lra. cbn. split; [done|]. split; [done|]. apply Rabs_pos_lt. lra.
Qed.

Lemma rsum_lt n f g k : (k < n)%nat -> (forall i, (i < n)%nat -> (f i <= g i)%R) -> (f k < g k)%R -> (rsum n f < rsum n g)%R.
Proof.
  intros Hk. induction n as [|n IH]; [lia|]. intros Hle Hlt. cbn [rsum]. pose proof (Hle n ltac:(lia)). destruct (decide (k = n)) as [->|Hne].
  - assert (rsum n f <= rsum n g)%R by (apply rsum_le; intros; apply Hle; lia). lra.
  - assert (rsum n f < rsum n g)%R by (apply IH; [lia|intros; apply Hle; lia|done]). lra.
Qed.

(** The codeword the ratios spell scores more than every other. *)
Lemma clear_score n row s s' k : clear_bits n row s -> (k < n)%nat -> Z.testbit s (Z.of_nat n - 1 - Z.of_nat k) <> Z.testbit s' (Z.of_nat n - 1 - Z.of_nat k) ->
  (cw_score row (Z.of_nat n) s' < cw_score row (Z.of_nat n) s)%R /\ (0 <= cw_score row (Z.of_nat n) s)%R.
Proof.
  intros [Hl Hb] Hk Hne. rewrite !cw_score_sum. assert (Hfit : forall j, (j < n)%nat -> fit (Z.testbit s (Z.of_nat n - 1 - Z.of_nat j)) (nth j row 0%R) = Rabs (nth j row 0%R)).
  { intros j Hj. apply fit_clear. rewrite msb_testbit by done. by apply Hb. }
  split.
  - apply (rsum_lt n _ _ k Hk); [intros j Hj; rewrite Hfit by done; apply fit_le|]. specialize (Hb k Hk). rewrite <- msb_testbit in Hb by done. destruct (fit_clear _ _ Hb) as (-> & E & Hp).
    replace (Z.testbit s' _) with (negb (Z.testbit s (Z.of_nat n - 1 - Z.of_nat k))) by (destruct (Z.testbit s _), (Z.testbit s' _); done). rewrite E. lra.
  - transitivity (rsum n (fun _ => 0%R)); [right; symmetry; apply rsum_zero|]. apply rsum_le. intros j Hj. cbn beta. rewrite Hfit by done. apply Rabs_pos.
Qed.

(** The first best of a list, when one is best. *)
Lemma argmax_unique (sc : nat -> R) k l : In k l -> (forall n, In n l -> n <> k -> (sc n < sc k)%R) -> forall bp b, (bp < sc k)%R ->
  snd (fold_left (fun '(bp, b) n => if Rltb bp (sc n) then (sc n, n) else (bp, b)) l (bp, b)) = k.
Proof.
  assert (Hrest : forall l, (forall n, In n l -> n <> k -> (sc n < sc k)%R) -> snd (fold_left (fun '(bp, b) n => if Rltb bp (sc n) then (sc n, n) else (bp, b)) l (sc k, k)) = k).
  { clear l. induction l as [|n l IH]; intros Hl; [done|]. cbn [fold_left]. assert (E : Rltb (sc k) (sc n) = false).
    { apply Rltb_false. destruct (decide (n = k)) as [->|Hne]; [lra|]. left. apply Hl; [by left|done]. }
    rewrite E. apply IH. intros. apply Hl; [by right|done]. }
  induction l as [|n l IH]; intros Hin Hl bp b Hb; [done|]. cbn [fold_left]. destruct (decide (n = k)) as [->|Hne].
  - rewrite (proj2 (Rltb_true _ _) Hb). apply Hrest. intros. apply Hl; [by right|done].
  - assert (Hin' : In k l) by (destruct Hin; done). assert (Hl' : forall n, In n l -> n <> k -> (sc n < sc k)%R) by (intros; apply Hl; [by right|done]).
    destruct (Rltb bp (sc n)); apply IH; try done. apply Hl; [by left|done].
Qed.

(** ** Codewords and blocks *)

Definition soft_index (nib : Z) : nat := Z.to_nat (Z.shiftr (hamming_encode_ref nib 8) 4).

(** The table holds the transmitter's codewords, all different. *)
Lemma soft_code_table nib cr : nibble nib -> 5 <= cr <= 8 ->
  (soft_index nib < 16)%nat /\ soft_code (cr - 4) (soft_index nib) = hamming_encode_ref nib cr /\
  (forall n, (n < 16)%nat -> n <> soft_index nib ->
     exists k, (k < Z.to_nat cr)%nat /\ Z.testbit (hamming_encode_ref nib cr) (cr - 1 - Z.of_nat k) <> Z.testbit (soft_code (cr - 4) n) (cr - 1 - Z.of_nat k)) /\
  (let d := Z.shiftr (at_ cw_LUT (soft_index nib)) 4 in
   u8 (Z.lor (Z.lor (Z.shiftl (Z.land d 1) 3) (Z.shiftl (Z.land d 2) 1)) (Z.lor (Z.shiftr (Z.land d 4) 1) (Z.shiftr (Z.land d 8) 3))) = nib).
Proof.
  intros Hn Hc.
  assert (H : forallb (fun cr => forallb (fun nib =>
     (soft_index nib <? 16)%nat && (soft_code (cr - 4) (soft_index nib) =? hamming_encode_ref nib cr) &&
     forallb (fun n => (n =? soft_index nib)%nat || existsb (fun k => xorb (Z.testbit (hamming_encode_ref nib cr) (cr - 1 - Z.of_nat k)) (Z.testbit (soft_code (cr - 4) n) (cr - 1 - Z.of_nat k))) (seq 0 (Z.to_nat cr))) (seq 0 16) &&
     (let d := Z.shiftr (at_ cw_LUT (soft_index nib)) 4 in
      u8 (Z.lor (Z.lor (Z.shiftl (Z.land d 1) 3) (Z.shiftl (Z.land d 2) 1)) (Z.lor (Z.shiftr (Z.land d 4) 1) (Z.shiftr (Z.land d 8) 3))) =? nib)) nibbles) [5; 6; 7; 8] = true) by (by vm_compute).
  apply forallb_in with (x := cr) in H; [|by apply in_rates]. apply forallb_in with (x := nib) in H; [|by apply in_nibbles].
  apply andb_prop in H as [H H4]. apply andb_prop in H as [H H3]. apply andb_prop in H as [H1 H2].
  split; [by apply Nat.ltb_lt|]. split; [by apply Z.eqb_eq|]. split; [|by apply Z.eqb_eq]. intros n Hn16 Hne.
  apply forallb_in with (x := n) in H3; [|apply in_seq; lia]. rewrite (proj2 (Nat.eqb_neq _ _) Hne) in H3. cbn [orb] in H3. apply existsb_exists in H3 as (k & Hk & Hx). apply in_seq in Hk.
  exists k. split; [lia|]. intros E. rewrite E, xorb_nilpotent in Hx. done.
Qed.

(** Soft decoding of clear ratios inverts the transmitter's code. *)
Lemma hamming_soft_clear nib cr row : nibble nib -> (5 <= cr <= 8)%nat -> clear_bits cr row (hamming_encode_ref nib (Z.of_nat cr)) ->
  fst (lora_hamming_decode_soft row (Z.of_nat cr)) = nib.
Proof.
  intros Hn Hc Hrow. destruct (soft_code_table nib (Z.of_nat cr) Hn ltac:(lia)) as (Hi & Hcode & Hdiff & Hdata). unfold lora_hamming_decode_soft. cbn zeta.
  rewrite (proj2 (Z.ltb_ge _ 1)) by lia. rewrite Z.gtb_ltb, (proj2 (Z.ltb_ge 4 _)) by lia. replace (Z.of_nat cr - 4 + 4) with (Z.of_nat cr) by lia. cbn [f_ltb f_lit real_front].
  assert (Hs : forall n, (n < 16)%nat -> n <> soft_index nib -> (cw_score row (Z.of_nat cr) (soft_code (Z.of_nat cr - 4) n) < cw_score row (Z.of_nat cr) (soft_code (Z.of_nat cr - 4) (soft_index nib)))%R /\
    (0 <= cw_score row (Z.of_nat cr) (soft_code (Z.of_nat cr - 4) (soft_index nib)))%R).
  { intros n Hn16 Hne. rewrite Hcode. destruct (Hdiff n Hn16 Hne) as (k & Hk & Hx). apply (clear_score cr row _ _ k Hrow); [lia|done]. }
  rewrite (argmax_unique (fun n => cw_score row (Z.of_nat cr) (soft_code (Z.of_nat cr - 4) n)) (soft_index nib)); [exact Hdata|apply in_seq; lia| |].
  - intros n Hin Hne. apply in_seq in Hin. apply Hs; [lia|done].
  - assert (H0 : (0 <= cw_score row (Z.of_nat cr) (soft_code (Z.of_nat cr - 4) (soft_index nib)))%R).
    { destruct (decide (soft_index nib = 0%nat)) as [E|E]; [apply (Hs 1%nat)|apply (Hs 0%nat)]; lia. }
    assert (Hm : (IZR (- 10 ^ 30) / 1 < 0)%R) by (unfold Rdiv; rewrite Rinv_1, Rmult_1_r; apply (IZR_lt _ 0); lia). lra.
Qed.

Lemma soft_cell (rows : list (list R)) sf cr r c : (0 < sf)%nat -> (r < sf)%nat -> (c < cr)%nat ->
  mat_ok sf cr (lora_deinterleave_soft rows sf cr) /\ mat_nth 0%R (lora_deinterleave_soft rows sf cr) r c = nth (diag sf c r) (nth c rows []) 0%R.
Proof.
  intros Hsf Hr Hc. unfold lora_deinterleave_soft, f_0. cbn [f_lit real_front]. replace (0 / 1)%R with 0%R by field.
  destruct (deinter_fill 0%R sf cr (fun i j => nth j (nth i rows []) 0%R) sf ltac:(lia) cr (replicate sf (replicate cr 0%R)) ltac:(lia)) as (Hok & Hget).
  { split; [apply length_replicate|]. apply Forall_replicate. apply length_replicate. }
  split; [exact Hok|]. by apply Hget.
Qed.

Lemma soft_matrix (rows : list (list R)) sf cr : (0 < sf)%nat -> (0 < cr)%nat -> mat_ok sf cr (lora_deinterleave_soft rows sf cr).
Proof. intros Hsf Hcr. by apply (soft_cell rows sf cr 0 0). Qed.

(** A block of clear ratios decodes to the nibbles sent. *)
Lemma soft_block sf_p cr nibs rows : (0 < sf_p <= 16)%nat -> (5 <= cr <= 8)%nat -> length nibs = sf_p -> Forall nibble nibs ->
  Forall2 (clear_bits sf_p) rows (tx_block sf_p cr nibs) ->
  map (fun cw => fst (lora_hamming_decode_soft cw (Z.of_nat cr))) (lora_deinterleave_soft rows sf_p cr) = nibs.
Proof.
  intros Hsf Hcr Hl Hn Hrows. destruct (soft_matrix rows sf_p cr ltac:(lia) ltac:(lia)) as (Hlen & Hcols). set (m := lora_deinterleave_soft rows sf_p cr) in *.
  apply (nth_ext _ _ 0 0); [rewrite length_map; lia|]. intros r Hr. rewrite length_map, Hlen in Hr.
  rewrite (nth_indep _ 0 (fst (lora_hamming_decode_soft [] (Z.of_nat cr)))) by (rewrite length_map; lia). rewrite (map_nth (fun cw => fst (lora_hamming_decode_soft cw (Z.of_nat cr)))).
  destruct (lookup_lt_is_Some_2 m r ltac:(lia)) as [row Hrow]. rewrite (nth_lookup_Some _ _ [] _ Hrow). pose proof (Forall_lookup_1 _ _ _ _ Hcols Hrow) as Hrl. cbn beta in Hrl.
  destruct (lookup_lt_is_Some_2 nibs r ltac:(lia)) as [nib Hnib]. rewrite (nth_lookup_Some _ _ 0 _ Hnib). apply hamming_soft_clear; [exact (Forall_lookup_1 _ _ _ _ Hn Hnib)|done|].
  split; [done|]. intros c Hc. destruct (soft_cell rows sf_p cr r c ltac:(lia) Hr Hc) as (_ & Hcell). fold m in Hcell. unfold mat_nth in Hcell. rewrite (nth_lookup_Some _ _ [] _ Hrow) in Hcell. rewrite Hcell.
  assert (Hx : tx_block sf_p cr nibs !! c = Some (pack_bits sf_p (fun j => msb_bit cr (at_ (map (fun n => hamming_encode_ref n (Z.of_nat cr)) nibs) (diag sf_p c j)) c))).
  { unfold tx_block, lora_interleave_ref. by rewrite list_lookup_fmap, lookup_seq_lt. }
  destruct (Forall2_lookup_r _ _ _ _ _ Hrows Hx) as (llr & Hllr & _ & Hbits). rewrite (nth_lookup_Some _ _ [] _ Hllr). specialize (Hbits (diag sf_p c r) (diag_lt sf_p c r ltac:(lia))).
  rewrite msb_bit_pack in Hbits by (intros; apply msb_bit_range || apply diag_lt; lia). rewrite diag_involutive in Hbits by lia.
  replace (at_ (map (fun n => hamming_encode_ref n (Z.of_nat cr)) nibs) r) with (hamming_encode_ref nib (Z.of_nat cr)) in Hbits; [exact Hbits|].
  unfold at_. symmetry. apply nth_lookup_Some. by rewrite list_lookup_fmap, Hnib.
Qed.

Lemma soft_blocks nblk sf_p cr : (0 < sf_p <= 16)%nat -> (5 <= cr <= 8)%nat -> forall nibs rows fuel, Forall nibble nibs -> (nblk <= fuel)%nat ->
  Forall2 (clear_bits sf_p) rows (tx_blocks nblk sf_p cr nibs) -> soft_block_nibbles fuel sf_p cr rows = block_nibbles fuel sf_p cr (tx_blocks nblk sf_p cr nibs).
Proof.
  intros Hsf Hcr. induction nblk as [|nblk IH]; intros nibs rows fuel Hn Hf Hrows; (destruct fuel as [|fuel]; [done || lia|]); cbn [tx_blocks soft_block_nibbles block_nibbles] in *.
  - inversion Hrows; subst. cbn [length]. destruct cr; [lia|]. done.
  - apply Forall2_app_inv_r in Hrows as (r1 & r2 & H1 & H2 & ->). pose proof (Forall2_length _ _ _ H1) as L1. rewrite tx_block_length in L1. rewrite !length_app, L1, tx_block_length.
    rewrite !(proj2 (Nat.leb_le cr _)) by lia. rewrite !take_app_length', !drop_app_length' by (rewrite ?tx_block_length; done).
    rewrite (soft_block sf_p cr (pad_to sf_p nibs)), block_decode by (done || apply pad_to_length || by apply pad_to_nibbles). f_equal. apply IH; [by apply Forall_drop|lia|done].
Qed.

(** ** Ratios of a clear window *)

Lemma best_ll_spec want i (bins : list (Z * R)) :
  (forall v ll, In (v, ll) bins -> Z.testbit v i = want -> (ll <= best_ll want i bins)%R) /\
  (best_ll want i bins = 0%R \/ exists v, In (v, best_ll want i bins) bins /\ Z.testbit v i = want).
Proof.
  unfold best_ll, f_0. cbn [f_lit f_ltb real_front]. replace (0 / 1)%R with 0%R by field. set (step := fun (best : R) '(v, ll) => _).
  assert (H : forall l b0, (b0 <= fold_left step l b0)%R /\ (forall v ll, In (v, ll) l -> Z.testbit v i = want -> (ll <= fold_left step l b0)%R) /\
    (fold_left step l b0 = b0 \/ exists v, In (v, fold_left step l b0) l /\ Z.testbit v i = want)).
  { induction l as [|[v ll] l IH]; intros b0; [cbn; split; [lra|]; split; [done|by left]|]. cbn [fold_left]. destruct (IH (step b0 (v, ll))) as (H1 & H2 & H3).
    set (r := fold_left step l (step b0 (v, ll))) in *. unfold step in H1, H3. destruct (Bool.eqb (Z.testbit v i) want) eqn:Ev; [apply eqb_prop in Ev|apply eqb_false_iff in Ev]; cbn [andb] in H1, H3.
    - destruct (Rltb b0 ll) eqn:Eb; [apply Rltb_true in Eb|apply Rltb_false in Eb]; split; try lra; (split; [intros v' ll' [[= <- <-]|Hin] Ht; [lra|by eapply H2]|]).
      + destruct H3 as [->|(v' & Hin & Ht)]; right; [exists v; split; [by left|done]|exists v'; split; [by right|done]].
      + destruct H3 as [->|(v' & Hin & Ht)]; [by left|]. right. exists v'. split; [by right|done].
    - split; [lra|]. split; [intros v' ll' [[= <- <-]|Hin] Ht; [done|by eapply H2]|]. destruct H3 as [->|(v' & Hin & Ht)]; [by left|]. right. exists v'. split; [by right|done]. }
  destruct (H bins 0%R) as (_ & H2 & H3). done.
Qed.

(** One bin above all others decides every bit. *)
Lemma llrs_clear N sf_app div4 ci cf s b : (b < N)%nat -> let out := dft N (rotated N ci cf s) in
  (0 < cnorm2 (nth b out czero))%R -> (forall n, (n < N)%nat -> n <> b -> (cnorm2 (nth n out czero) < cnorm2 (nth b out czero))%R) ->
  clear_bits sf_app (compute_symbol_llrs N sf_app div4 ci cf s) (llr_symbol (Z.of_nat N) (Z.of_nat b) sf_app div4).
Proof.
  intros Hb out Hpos Hmax. unfold compute_symbol_llrs. cbn [fftw c_norm2 real_front]. fold out. assert (Hlen : length out = N) by (unfold out, dft; by rewrite length_map, length_seq).
  set (bins := imap _ _). set (top := cnorm2 (nth b out czero)) in *. set (vb := llr_symbol (Z.of_nat N) (Z.of_nat b) sf_app div4).
  assert (Hin : In (vb, top) bins).
  { apply list_elem_of_In, (list_elem_of_lookup_2 _ b). unfold bins. rewrite list_lookup_imap, list_lookup_fmap. destruct (lookup_lt_is_Some_2 out b ltac:(lia)) as [x Hx]. rewrite Hx. cbn. unfold top. by rewrite (nth_lookup_Some _ _ czero _ Hx). }
  assert (Hall : forall v ll, In (v, ll) bins -> (v, ll) = (vb, top) \/ (ll < top)%R).
  { intros v ll Hv. apply list_elem_of_In, list_elem_of_lookup_1 in Hv as (n & Hv). unfold bins in Hv. rewrite list_lookup_imap, list_lookup_fmap in Hv. destruct (out !! n) as [x|] eqn:Hx; [|done]. cbn in Hv. injection Hv as <- <-.
    destruct (decide (n = b)) as [->|Hne]; [left; unfold top; by rewrite (nth_lookup_Some _ _ czero _ Hx)|right]. rewrite <- (nth_lookup_Some _ _ czero _ Hx). apply Hmax; [rewrite <- Hlen; by eapply lookup_lt_Some|done]. }
  clearbody bins. split; [by rewrite length_map, length_seq|]. intros j Hj. rewrite <- msb_testbit by done. replace (Z.of_nat sf_app - 1 - Z.of_nat j) with (Z.of_nat (sf_app - 1 - j)) by lia.
  rewrite (nth_map_seq sf_app) by done. cbn zeta. set (i := Z.of_nat (sf_app - 1 - j)). unfold f_sub. cbn [f_add f_neg real_front].
  assert (Hhit : forall w, Z.testbit vb i = w -> best_ll w i bins = top).
  { intros w Hw. destruct (best_ll_spec w i bins) as (H1 & H2). specialize (H1 _ _ Hin Hw). destruct H2 as [E|(v & Hv & _)]; [lra|]. destruct (Hall _ _ Hv) as [[= _ E]|E]; [done|lra]. }
  assert (Hmiss : forall w, Z.testbit vb i <> w -> (best_ll w i bins < top)%R).
  { intros w Hw. destruct (best_ll_spec w i bins) as (_ & H2). destruct H2 as [E|(v & Hv & Ht)]; [lra|]. destruct (Hall _ _ Hv) as [[= -> _]|E]; [done|done]. }
  destruct (Z.testbit vb i) eqn:Eb; [pose proof (Hhit true eq_refl); pose proof (Hmiss false ltac:(done))|pose proof (Hhit false eq_refl); pose proof (Hmiss true ltac:(done))]; lra.
Qed.

(** A window that carries a tone has a clear bin. *)
Lemma carried_llrs N sf_app div4 ci cf s al u E : (0 < N)%nat -> length s = N -> carries N ci cf s al u E -> (E <= IZR (Z.of_nat N) * cabs al / 4)%R -> (0 < cabs al)%R ->
  clear_bits sf_app (compute_symbol_llrs N sf_app div4 ci cf s) (llr_symbol (Z.of_nat N) (Z.of_nat (tone_bin N u)) sf_app div4).
Proof.
  intros HN Hs Hc HE Ha. pose proof (rotated_tone N HN ci cf s al u E Hs Hc) as Ht. pose proof (tone_bin_lt N HN u) as Hk. pose proof (tone_dft N HN al u E _ Ht) as Hd. pose proof (RN_pos N HN) as Hp.
  set (out := dft N (rotated N ci cf s)) in *. assert (Hbig : (IZR (Z.of_nat N) * cabs al - E <= cabs (nth (tone_bin N u) out czero))%R).
  { destruct (Hd _ Hk) as (e & Ee & He). rewrite Nat.eqb_refl in Ee. rewrite Ee. pose proof (cabs_sub_le (cmul (IZR (Z.of_nat N), 0%R) al) e) as H2. rewrite cabs_mul, cabs_real in H2 by lra. lra. }
  assert (Hm : (0 < IZR (Z.of_nat N) * cabs al)%R) by nra. apply llrs_clear; fold out; [done| |].
  - rewrite <- cabs_sqr. assert (0 < cabs (nth (tone_bin N u) out czero))%R by lra. nra.
  - intros n Hn Hne. destruct (Hd n Hn) as (e & Ee & He). rewrite (proj2 (Nat.eqb_neq _ _) Hne) in Ee. assert (Hsm : (cabs (nth n out czero) <= E)%R) by (rewrite Ee; replace (cadd czero e) with e by ring; exact He).
    apply norm2_lt. lra.
Qed.

(** ** The transmitter's bins *)

Lemma llr_symbol_bin (div4 : bool) sf s : 7 <= sf <= 12 -> 0 <= s < 2 ^ (sf - (if div4 then 2 else 0)) ->
  llr_symbol (2 ^ sf) (tx_bin div4 (2 ^ sf) s) (Z.to_nat (sf - (if div4 then 2 else 0))) div4 = s.
Proof.
  intros Hsf Hs. set (k := sf - (if div4 then 2 else 0)) in *. assert (Hk : 5 <= k <= 12) by (unfold k; destruct div4; lia).
  pose proof (gray_encode_range k s ltac:(lia) Hs) as Hg. set (g := lora_gray_encode s) in *. set (x := if div4 then 4 * g else g).
  assert (Hx : 0 <= x < 2 ^ sf) by (unfold x, k in *; destruct div4; [replace sf with (2 + (sf - 2)) by lia; rewrite Z.pow_add_r by lia; lia|by rewrite Z.sub_0_r in Hg]).
  pose proof (Z.pow_le_mono_r 2 sf 12 ltac:(lia) ltac:(lia)) as Hle. change (2 ^ 12) with 4096 in Hle.
  assert (Ex : Z.land (u32 ((x + 1) mod 2 ^ sf - 1)) (2 ^ sf - 1) = x).
  { replace (2 ^ sf - 1) with (Z.ones sf) by (rewrite Z.ones_equiv; lia). rewrite Z.land_ones by lia. unfold u32, wrap. destruct (Z.eq_dec x (2 ^ sf - 1)) as [E|Hne].
    - rewrite E. replace (2 ^ sf - 1 + 1) with (2 ^ sf) by lia. rewrite Z.mod_same by lia. change ((0 - 1) mod 2 ^ 32) with (2 ^ 32 - 1).
      symmetry. apply (Z.mod_unique _ _ (2 ^ (32 - sf) - 1)); [lia|]. replace 32 with (sf + (32 - sf)) at 1 by lia. rewrite Z.pow_add_r by lia. ring.
    - rewrite (Z.mod_small (x + 1)) by lia. replace (x + 1 - 1) with x by lia. rewrite (Z.mod_small x (2 ^ 32)) by lia. by apply Z.mod_small. }
  unfold llr_symbol, tx_bin. fold g. fold x. rewrite Ex. cbn zeta. assert (Eg : (if div4 then Z.shiftr x 2 else x) = g).
  { unfold x. destruct div4; [|done]. rewrite Z.shiftr_div_pow2 by lia. change (2 ^ 2) with 4. rewrite Z.mul_comm. by apply Z.div_mul. }
  rewrite Eg. pose proof (gray_decode_encode k s ltac:(lia) Hs) as Hd. fold g in Hd. unfold lora_gray_decode in Hd.
  assert (Hxr : 0 <= Z.lxor g (Z.shiftr g 1) < 2 ^ k) by (apply lxor_range; [lia|done|apply shiftr_range; [lia|done]]).
  pose proof (Z.pow_le_mono_r 2 k 12 ltac:(lia) ltac:(lia)) as Hlk. change (2 ^ 12) with 4096 in Hlk. unfold u16 in Hd. rewrite (wrap_small 16) in Hd by lia. rewrite Hd.
  rewrite Z.shiftl_1_l, Z2Nat.id by lia. replace (2 ^ k - 1) with (Z.ones k) by (rewrite Z.ones_equiv; lia). rewrite Z.land_ones by lia. by apply Z.mod_small.
Qed.

(** ** A received frame *)

Section Received.
Context (sf cr bw : Z) (has_crc : bool) (payload : list Z) (Hsf : 7 <= sf <= 12) (Hcr : 5 <= cr <= 8) (Hpl : bytes_ok payload) (Hlen : (1 <= length payload <= 255)%nat)
  (Hlc : (has_crc = true -> 2 <= length payload <= 254)%nat) (Hnib : sf - 7 < 2 * Z.of_nat (length payload) + (if has_crc then 4 else 0)).
Context (p : nat) (s1 s2 : Z) (a : cx) (c : Z) (z : nat -> cx) (Ha : (0 < cabs a)%R) (Hz : forall t, (cabs (z t) <= cabs a / 16)%R) (dl : R) (Hdl : (2 * PI * Rabs dl <= 33 / 223)%R).
Abbreviation tx := (lora_tx sf cr bw has_crc payload).
Abbreviation bins := (fst tx ++ snd tx).
Abbreviation ldro := (payload_ldro_of sf bw).
Abbreviation win := (fun i => window (NS sf) p s1 s2 bins a c z (data_start (NS sf) p + i * NS sf)).

(** The ratios of the window of a bin. *)
Lemma window_llrs i (div4 : bool) s : bins !! i = Some (tx_bin div4 (2 ^ sf) s) -> 0 <= s < 2 ^ (sf - (if div4 then 2 else 0)) ->
  clear_bits (Z.to_nat (sf - (if div4 then 2 else 0))) (compute_symbol_llrs (NS sf) (Z.to_nat (sf - (if div4 then 2 else 0))) div4 c dl (win i)) s.
Proof using All.
  intros Hi Hs. destruct (NS_sizes sf Hsf) as (HN & H4 & _). pose proof (NS_Z sf Hsf) as HZ. assert (H16 : (16 <= NS sf)%nat) by lia.
  pose proof (data_carries (NS sf) H16 H4 p s1 s2 bins a c z Ha Hz i _ dl Hi Hdl) as Hc. cbn zeta in Hc.
  assert (Hp : 0 < 2 ^ sf) by lia. assert (Hb : 0 <= tx_bin div4 (2 ^ sf) s < 2 ^ sf) by (apply Z.mod_pos_bound; lia).
  set (t := (data_start (NS sf) p + i * NS sf)%nat) in *. assert (Hal : cabs (cmul a (tw (NS sf) (c * Z.of_nat t))) = cabs a) by (unfold tw; rewrite cabs_mul, cabs_cis; ring).
  pose proof (carried_llrs (NS sf) (Z.to_nat (sf - (if div4 then 2 else 0))) div4 c dl (window (NS sf) p s1 s2 bins a c z t) _ _ _ ltac:(lia) (win_length _ _ _ _ _ _ _ _ _) Hc) as Hllr.
  rewrite Hal in Hllr. specialize (Hllr (data_loud (NS sf) H16 H4 p s1 s2 bins a c z Ha Hz) Ha). unfold tone_bin in Hllr. rewrite HZ, (Z.mod_small _ _ Hb), Z2Nat.id in Hllr by lia. rewrite llr_symbol_bin in Hllr by done. exact Hllr.
Qed.
(** The rows of a run of bins. *)
Lemma run_llrs (div4 : bool) l1 syms l2 : bins = l1 ++ map (tx_bin div4 (2 ^ sf)) syms ++ l2 -> (forall s, In s syms -> 0 <= s < 2 ^ (sf - (if div4 then 2 else 0))) ->
  Forall2 (clear_bits (Z.to_nat (sf - (if div4 then 2 else 0))))
    (map (fun i => compute_symbol_llrs (NS sf) (Z.to_nat (sf - (if div4 then 2 else 0))) div4 c dl (win i)) (seq (length l1) (length syms))) syms.
Proof using All.
  intros Eb Hs. apply Forall2_lookup. intros i. rewrite list_lookup_fmap. destruct (syms !! i) as [s|] eqn:Ei.
  - pose proof (lookup_lt_Some _ _ _ Ei) as Hi. rewrite lookup_seq_lt by done. constructor. apply window_llrs; [|apply Hs; by eapply list_elem_of_In, list_elem_of_lookup_2].
    rewrite Eb, lookup_app_r by lia. replace (length l1 + i - length l1)%nat with i by lia. rewrite lookup_app_l by (rewrite length_map; lia). by rewrite list_lookup_fmap, Ei.
  - rewrite lookup_seq_ge by (by apply lookup_ge_None). constructor.
Qed.

Abbreviation hnibs := (tx_header (Z.of_nat (length payload)) cr has_crc ++ pad_to (Z.to_nat (sf - 7)) (flat_map byte_nibbles (tx_bytes payload has_crc))).

Lemma hnibs_ok : length hnibs = Z.to_nat (sf - 2) /\ Forall nibble hnibs.
Proof using All.
  split; [rewrite length_app, pad_to_length, tx_header_length; lia|]. apply Forall_app_2; [apply tx_header_nibbles; lia|]. by apply pad_to_nibbles, flat_nibbles_ok, tx_bytes_ok.
Qed.

(** The soft header is the hard one. *)
Lemma soft_header_agrees :
  soft_header_nibbles sf (map (fun i => compute_symbol_llrs (NS sf) (Z.to_nat (sf - 2)) true c dl (win i)) (seq 0 8)) =
  header_nibbles sf (map (fun b => header_symbol b 0 (2 ^ sf)) (fst tx)).
Proof using All.
  destruct hnibs_ok as (Hl & Hn). etransitivity; [|symmetry; apply (header_round_trip sf hnibs); done].
  unfold soft_header_nibbles, header_sf_app. cbn zeta. rewrite (proj2 (Z.ltb_ge _ 5)) by lia. apply (soft_block (Z.to_nat (sf - 2)) 8); [lia|lia|done|done|].
  pose proof (run_llrs true [] (tx_block (Z.to_nat (sf - 2)) 8 hnibs) (snd tx)) as H. rewrite tx_block_length in H. apply H; [done|].
  intros s Hs. apply tx_block_range in Hs. by rewrite Z2Nat.id in Hs by lia.
Qed.

Abbreviation sf_p := (sf - (if ldro then 2 else 0)).
Abbreviation pllrs := (map (fun i => compute_symbol_llrs (NS sf) (Z.to_nat sf_p) ldro c dl (win i)) (seq 8 (length (snd tx)))).

(** So are the payload's bytes. *)
Lemma soft_payload_agrees leftover : soft_assemble_payload sf_p cr leftover pllrs = assemble_payload sf_p cr leftover (map (fun b => payload_symbol ldro b 0 (2 ^ sf)) (snd tx)).
Proof using All.
  unfold soft_assemble_payload, assemble_payload. rewrite !length_map, length_seq. f_equal. f_equal. f_equal.
  set (nblk := Z.to_nat (payload_symbol_count sf (Z.of_nat (length payload)) cr has_crc ldro / cr)). set (nibs := drop (Z.to_nat (sf - 7)) (flat_map byte_nibbles (tx_bytes payload has_crc))).
  assert (Hk : 5 <= sf_p <= 12) by (destruct ldro; lia). assert (Er : forall s, In s (tx_blocks nblk (Z.to_nat sf_p) (Z.to_nat cr) nibs) -> 0 <= s < 2 ^ sf_p).
  { intros s Hs. apply tx_blocks_range in Hs. by rewrite Z2Nat.id in Hs by lia. }
  assert (Hl : length (fst tx) = 8%nat) by (unfold lora_tx; cbn [fst]; by rewrite length_map, tx_block_length).
  assert (Es : snd tx = map (tx_bin ldro (2 ^ sf)) (tx_blocks nblk (Z.to_nat sf_p) (Z.to_nat cr) nibs)) by done.
  assert (Em : map (fun b => payload_symbol ldro b 0 (2 ^ sf)) (snd tx) = tx_blocks nblk (Z.to_nat sf_p) (Z.to_nat cr) nibs) by (rewrite Es; apply map_inverse; intros s Hs; apply payload_symbol_bin; [done|by apply Er]).
  assert (El : length (snd tx) = length (tx_blocks nblk (Z.to_nat sf_p) (Z.to_nat cr) nibs)) by (by rewrite Es, length_map).
  rewrite Em, El. apply soft_blocks; [lia|lia| | |].
  - apply Forall_drop. by apply flat_nibbles_ok, tx_bytes_ok.
  - rewrite tx_blocks_length. nia.
  - pose proof (run_llrs ldro (fst tx) (tx_blocks nblk (Z.to_nat sf_p) (Z.to_nat cr) nibs) []) as H. rewrite Hl in H. apply H; [by rewrite app_nil_r|done].
Qed.
End Received.

(** C3: soft decisions decode a received frame: the header and the payload decoded
    from the log-likelihood ratios of the windows of a frame, received with
    noise up to a sixteenth of the signal and a carrier estimate whose error
    turns a symbol by at most 33/223 rad (what the preamble gives), are those
    sent. *)
Theorem soft_decodes_frame sf cr bw has_crc payload bf bf2 m p s1 s2 a c z dl :
  let tx := lora_tx sf cr bw has_crc payload in
  let ldro := payload_ldro_of sf bw in
  let llrs sf_app div4 i := compute_symbol_llrs (NS sf) (Z.to_nat sf_app) div4 c dl
    (window (NS sf) p s1 s2 (fst tx ++ snd tx) a c z (data_start (NS sf) p + i * NS sf)) in
  7 <= sf <= 12 -> 5 <= cr <= 8 -> bytes_ok payload -> (1 <= length payload <= 255)%nat -> (has_crc = true -> 2 <= length payload <= 254)%nat ->
  sf - 7 < 2 * Z.of_nat (length payload) + (if has_crc then 4 else 0) ->
  (0 < cabs a)%R -> (forall t, (cabs (z t) <= cabs a / 16)%R) -> (2 * PI * Rabs dl <= 33 / 223)%R ->
  soft_rx sf bw bf bf2 m (map (llrs (sf - 2) true) (seq 0 8)) (map (llrs (sf - (if ldro then 2 else 0)) ldro) (seq 8 (length (snd tx)))) =
  Some (payload,
        if has_crc
        then m {{ fm_payload_crc_ok := true; fm_crc_corrected := false; fm_crc_corrected_bits := 0 }}
        else m {{ fm_payload_crc_ok := true }}).
Proof.
  intros tx ldro llrs Hsf Hcr Hpl Hlen Hlc Hnib Ha Hz Hdl.
  rewrite <- (lora_frame_rx sf cr bw has_crc payload bf bf2 m Hsf Hcr Hpl Hlen Hlc Hnib). unfold soft_rx, lora_rx. cbn zeta. unfold llrs, tx, ldro.
  rewrite (soft_header_agrees sf cr bw has_crc payload Hsf Hcr Hpl Hlen Hlc Hnib p s1 s2 a c z Ha Hz dl Hdl), tx_header_decodes by (done || lia). cbn [h_crc_ok h_payload_len h_cr h_has_crc h_leftover].
  rewrite (soft_payload_agrees sf cr bw has_crc payload Hsf Hcr Hpl Hlen Hlc Hnib p s1 s2 a c z Ha Hz dl Hdl). by rewrite !length_map, length_seq.
Qed.

Lemma soft_decodes_frame_witness :
  let tx := lora_tx 7 5 250000 true [0x48; 0x69; 0x21] in
  let llrs sf_app div4 i := compute_symbol_llrs (NS 7) (Z.to_nat sf_app) div4 (-3) (1 / 100)%R
    (window (NS 7) 16 16 88 (fst tx ++ snd tx) (1, 0)%R (-3) (fun _ => (1 / 32, 0)%R) (data_start (NS 7) 16 + i * NS 7)) in
  soft_rx 7 250000 true false meta0 (map (llrs 5 true) (seq 0 8)) (map (llrs 7 false) (seq 8 (length (snd tx)))) =
  Some ([0x48; 0x69; 0x21], meta0 {{ fm_payload_crc_ok := true }}).
Proof.
  assert (E1 : cabs (1, 0)%R = 1%R) by (apply cabs_real; lra).
  refine (eq_trans (soft_decodes_frame 7 5 250000 true [0x48; 0x69; 0x21] true false meta0 16 16 88 (1, 0)%R (-3) (fun _ => (1 / 32, 0)%R) (1 / 100)%R _ _ _ _ _ _ _ _ _) _);
    [lia|lia|bytes_tac|cbn; lia|cbn; lia|cbn; lia|rewrite E1; lra|intros _; rewrite E1, cabs_real; lra|rewrite Rabs_pos_eq by lra; pose proof PI_4; lra|reflexivity].
Defined.
