(* ===== verification/Protobuf.v ===== *)
(** The protobuf wire-format reader (src/protobuf.c, src/protobuf.h).

    The cursor pair [*cur, end) is the list of bytes not yet consumed: a
    read takes it and returns the value, if any, together with the cursor it
    leaves, which has moved also when the read fails, as in the source. *)

From S2P Require Import Prelude.

Local Open Scope Z_scope.

Definition PB_WIRE_VARINT : Z := 0.
Definition PB_WIRE_FIXED64 : Z := 1.
Definition PB_WIRE_LENGTH : Z := 2.
Definition PB_WIRE_FIXED32 : Z := 5.

(** A reader: value on success, cursor left behind. *)
Definition pb_reader (A : Type) : Type := list Z -> option A * list Z.

Fixpoint varint_loop (v shift : Z) (cur : list Z) : option Z * list Z :=
  match cur with
  | [] => (None, [])
  | b :: t =>
      let v := u64 (Z.lor v (u64 (Z.shiftl (Z.land b 0x7f) shift))) in
      if negb (nz (Z.land b 0x80)) then (Some v, t)
      else
        let shift := shift + 7 in
        if shift >? 63 then (None, t) else varint_loop v shift t
  end.

Definition pb_read_varint : pb_reader Z := varint_loop 0 0.

(** Field number and wire type. *)
Definition pb_read_tag : pb_reader (Z * Z) := fun cur =>
  match pb_read_varint cur with
  | (None, cur) => (None, cur)
  | (Some tag, cur) => (Some (u32 (Z.shiftr tag 3), Z.land tag 7), cur)
  end.

Definition pb_read_fixed32 : pb_reader Z := fun cur =>
  if (length cur <? 4)%nat then (None, cur) else (Some (le_combine (take 4 cur)), drop 4 cur).

Definition pb_read_fixed64 : pb_reader Z := fun cur =>
  if (length cur <? 8)%nat then (None, cur) else (Some (le_combine (take 8 cur)), drop 8 cur).

Definition pb_read_length : pb_reader (list Z) := fun cur =>
  match pb_read_varint cur with
  | (None, cur) => (None, cur)
  | (Some l, cur) =>
      if Z.of_nat (length cur) <? l then (None, cur)
      else (Some (take (Z.to_nat l) cur), drop (Z.to_nat l) cur)
  end.

Definition pb_skip_value (wire_type : Z) : list Z -> bool * list Z := fun cur =>
  let done {A} (r : option A * list Z) := (match fst r with Some _ => true | None => false end, snd r) in
  if wire_type =? PB_WIRE_VARINT then done (pb_read_varint cur)
  else if wire_type =? PB_WIRE_FIXED64 then done (pb_read_fixed64 cur)
  else if wire_type =? PB_WIRE_LENGTH then done (pb_read_length cur)
  else if wire_type =? PB_WIRE_FIXED32 then done (pb_read_fixed32 cur)
  else (false, cur).

Definition pb_zigzag32 (v : Z) : Z := i32 (Z.lxor (Z.shiftr v 1) (u32 (- Z.land v 1))).
Definition pb_zigzag64 (v : Z) : Z := i64 (Z.lxor (Z.shiftr v 1) (u64 (- Z.land v 1))).

(** ** Encoder (reference) *)

(** Base-128 groups, least significant first; [fuel] groups at most. *)
Fixpoint enc_varint (fuel : nat) (v : Z) : list Z :=
  match fuel with
  | O => []
  | S k => if v <? 128 then [v] else Z.lor (Z.land v 127) 128 :: enc_varint k (Z.shiftr v 7)
  end.

(** Ten groups hold any 64-bit value. *)
Definition pb_varint (v : Z) : list Z := enc_varint 10 v.

Definition enc_tag (field wt : Z) : list Z := pb_varint (Z.lor (Z.shiftl field 3) wt).
Definition enc_bytes (payload : list Z) : list Z := pb_varint (Z.of_nat (length payload)) ++ payload.
Definition enc_fixed (n : nat) (v : Z) : list Z := map (fun i => u8 (Z.shiftr v (8 * Z.of_nat i))) (seq 0 n).
Definition zigzag_enc (w v : Z) : Z := if v <? 0 then - 2 * v - 1 else 2 * v.

(** ** A reader stays inside its buffer *)

(** [cur'] is a suffix of [cur]: nothing before the cursor or past the end is
    visited. *)
Definition consumed (cur cur' : list Z) : Prop := exists read, cur = read ++ cur'.

#[export] Instance consumed_preorder : PreOrder consumed.
Proof.
  split.
  - intros l. by exists [].
  - intros a b c [x ->] [y ->]. exists (x ++ y). by rewrite app_assoc.
Qed.

Lemma consumed_drop n l : consumed l (drop n l).
Proof. exists (take n l). by rewrite take_drop. Qed.

Lemma consumed_length a b : consumed a b -> (length b <= length a)%nat.
Proof. intros [x ->]. rewrite length_app. lia. Qed.

Lemma varint_loop_consumed cur v shift : consumed cur (snd (varint_loop v shift cur)).
Proof.
  revert v shift. induction cur as [|b t IH]; intros v shift; cbn [varint_loop]; [by exists []|].
  cbn zeta. case_if; [by exists [b]|]. case_if; [by exists [b]|].
  destruct (IH (u64 (Z.lor v (u64 (Z.shiftl (Z.land b 127) shift)))) (shift + 7)) as [x Hx].
  exists (b :: x). cbn [app]. by rewrite <- Hx.
Qed.

Lemma varint_loop_progress cur v shift r :
  fst (varint_loop v shift cur) = Some r -> (length (snd (varint_loop v shift cur)) < length cur)%nat.
Proof.
  revert v shift. induction cur as [|b t IH]; intros v shift; cbn [varint_loop]; [done|].
  cbn zeta. case_if; [cbn; lia|]. case_if; [done|]. intros H. apply IH in H. cbn. lia.
Qed.

Lemma pb_read_varint_consumed cur : consumed cur (snd (pb_read_varint cur)).
Proof. apply varint_loop_consumed. Qed.

Lemma pb_read_tag_consumed cur : consumed cur (snd (pb_read_tag cur)).
Proof.
  unfold pb_read_tag. pose proof (varint_loop_consumed cur 0 0) as H.
  unfold pb_read_varint. by destruct (varint_loop 0 0 cur) as [[t|] c].
Qed.

Lemma pb_read_tag_progress cur r :
  fst (pb_read_tag cur) = Some r -> (length (snd (pb_read_tag cur)) < length cur)%nat.
Proof.
  unfold pb_read_tag, pb_read_varint. pose proof (varint_loop_progress cur 0 0) as H.
  destruct (varint_loop 0 0 cur) as [[t|] c]; [|done]. intros _. by apply (H t).
Qed.

Lemma pb_read_fixed32_consumed cur : consumed cur (snd (pb_read_fixed32 cur)).
Proof. unfold pb_read_fixed32. case_if; [reflexivity|apply consumed_drop]. Qed.

Lemma pb_read_fixed64_consumed cur : consumed cur (snd (pb_read_fixed64 cur)).
Proof. unfold pb_read_fixed64. case_if; [reflexivity|apply consumed_drop]. Qed.

Lemma pb_read_length_consumed cur : consumed cur (snd (pb_read_length cur)).
Proof.
  unfold pb_read_length, pb_read_varint. pose proof (varint_loop_consumed cur 0 0) as H.
  destruct (varint_loop 0 0 cur) as [[l|] c]; [|done]. cbn [snd] in *.
  case_if; [done|]. cbn [snd]. transitivity c; [done|apply consumed_drop].
Qed.

Lemma pb_skip_value_consumed wt cur : consumed cur (snd (pb_skip_value wt cur)).
Proof.
  unfold pb_skip_value. cbn zeta.
  case_if; [apply pb_read_varint_consumed|]. case_if; [apply pb_read_fixed64_consumed|].
  case_if; [apply pb_read_length_consumed|]. case_if; [apply pb_read_fixed32_consumed|reflexivity].
Qed.

#[export] Hint Resolve pb_read_varint_consumed pb_read_tag_consumed pb_read_fixed32_consumed
  pb_read_fixed64_consumed pb_read_length_consumed pb_skip_value_consumed : mesh.

(** No reader of the wire format reads outside the buffer it is given,
    on success or failure: the cursor it leaves is always a suffix of the
    cursor it got, and the bytes a length-delimited read returns are a
    contiguous part of the buffer. *)
Theorem pb_readers_in_bounds cur wt :
  consumed cur (snd (pb_read_varint cur)) /\ consumed cur (snd (pb_read_tag cur)) /\
  consumed cur (snd (pb_read_fixed32 cur)) /\ consumed cur (snd (pb_read_fixed64 cur)) /\
  consumed cur (snd (pb_skip_value wt cur)) /\
  (forall bytes, fst (pb_read_length cur) = Some bytes ->
     exists hdr, cur = hdr ++ bytes ++ snd (pb_read_length cur)).
Proof.
  repeat split; auto with mesh.
  intros bytes. unfold pb_read_length, pb_read_varint.
  destruct (varint_loop_consumed cur 0 0) as [hdr Hh].
  destruct (varint_loop 0 0 cur) as [[l|] c]; [|done]. cbn [snd] in Hh. case_if; [done|].
  cbn [fst snd]. intros [= <-]. exists hdr. by rewrite take_drop.
Qed.

(** ** Varint round trip *)

Lemma enc_group b : 0 <= b -> Z.land (Z.lor (Z.land b 127) 128) 0x80 = 128 /\
  Z.land (Z.lor (Z.land b 127) 128) 0x7f = Z.land b 127.
Proof.
  intros Hb. split.
  - rewrite Z.land_lor_distr_l, <- Z.land_assoc. change (Z.land 127 128) with 0.
    by rewrite Z.land_0_r.
  - rewrite Z.land_lor_distr_l, <- Z.land_assoc. change (Z.land 127 127) with 127.
    change (Z.land 128 127) with 0. by rewrite Z.lor_0_r.
Qed.

Lemma small_group b : 0 <= b < 128 -> Z.land b 0x80 = 0 /\ Z.land b 0x7f = b.
Proof.
  intros Hb. split.
  - apply Z.bits_inj'. intros i Hi. rewrite Z.land_spec, Z.bits_0.
    destruct (Z.eq_dec i 7) as [->|]; [by rewrite (bits_above 7 b 7)|].
    change 128 with (2 ^ 7). rewrite Z.pow2_bits_false by done. apply andb_false_r.
  - change 0x7f with (Z.ones 7). rewrite Z.land_ones by lia. by apply Z.mod_small.
Qed.

(** Adding the group [g] of weight [shift] to a value below [2 ^ shift]. *)
Lemma lor_high v g shift :
  0 <= shift -> 0 <= v < 2 ^ shift -> Z.lor v (Z.shiftl g shift) = v + g * 2 ^ shift.
Proof.
  intros Hs Hv. rewrite <- Z.shiftl_mul_pow2 by done. rewrite Z.add_nocarry_lxor.
  - symmetry. apply Z.lxor_lor. apply Z.bits_inj'. intros i Hi. rewrite Z.land_spec, Z.bits_0.
    destruct (Z.lt_ge_cases i shift).
    + rewrite (Z.shiftl_spec_low g) by done. apply andb_false_r.
    + by rewrite (bits_above shift v i).
  - apply Z.bits_inj'. intros i Hi. rewrite Z.land_spec, Z.bits_0. destruct (Z.lt_ge_cases i shift).
    + rewrite (Z.shiftl_spec_low g) by done. apply andb_false_r.
    + by rewrite (bits_above shift v i).
Qed.

Lemma varint_loop_enc n v acc shift rest :
  0 <= shift -> shift + 7 * Z.of_nat n = 70 -> 0 <= acc < 2 ^ shift -> 0 <= v < 2 ^ (64 - shift) ->
  varint_loop acc shift (enc_varint n v ++ rest) = (Some (acc + v * 2 ^ shift), rest).
Proof.
  revert v acc shift. induction n as [|n IH]; intros v acc shift Hs Hn Ha Hv.
  { rewrite Z.pow_neg_r in Hv by lia. lia. }
  assert (Hp : 0 < 2 ^ shift) by (apply Z.pow_pos_nonneg; lia).
  assert (H64 : shift <= 63) by lia.
  assert (Hw : 2 ^ (64 - shift) * 2 ^ shift = 2 ^ 64) by (rewrite <- Z.pow_add_r by lia; f_equal; lia).
  cbn [enc_varint]. destruct (Z.ltb_spec v 128) as [Hsm|Hbg].
  - cbn [app varint_loop]. cbn zeta. destruct (small_group v ltac:(lia)) as [E1 E2]. rewrite E1, E2.
    change (negb (nz 0)) with true. cbn match. f_equal. f_equal. unfold u64.
    rewrite (wrap_small 64 (Z.shiftl v shift)) by (rewrite Z.shiftl_mul_pow2 by lia; nia).
    rewrite lor_high by lia. apply (wrap_small 64). nia.
  - cbn [app varint_loop]. cbn zeta. destruct (enc_group v ltac:(lia)) as [E1 E2]. rewrite E1, E2.
    change (negb (nz 128)) with false. cbn match.
    assert (Hg : Z.land v 127 = v mod 128) by (apply (Z.land_ones v 7); lia).
    assert (Hsv : Z.shiftr v 7 = v / 128) by (apply (Z.shiftr_div_pow2 v 7); lia).
    pose proof (Z.mod_pos_bound v 128). pose proof (Z.div_mod v 128).
    assert (Hnext : shift + 7 <= 63).
    { destruct (Z.le_gt_cases (shift + 7) 63); [done|].
      assert (2 ^ (64 - shift) <= 2 ^ 7) by (apply Z.pow_le_mono_r; lia). lia. }
    destruct (Z.gtb_spec (shift + 7) 63); [lia|].
    assert (Hp7 : 2 ^ (shift + 7) = 128 * 2 ^ shift) by (rewrite Z.pow_add_r by lia; lia).
    assert (Hq : 2 ^ (64 - shift) = 128 * 2 ^ (64 - (shift + 7))).
    { change 128 with (2 ^ 7). rewrite <- Z.pow_add_r by lia. f_equal. lia. }
    unfold u64. rewrite Hg, (wrap_small 64 (Z.shiftl _ shift)) by (rewrite Z.shiftl_mul_pow2 by lia; nia).
    rewrite lor_high, (wrap_small 64) by nia. rewrite IH by (try lia; nia).
    rewrite Hsv, Hp7. f_equal. f_equal. nia.
Qed.

Lemma read_enc_varint v rest :
  0 <= v < 2 ^ 64 -> pb_read_varint (pb_varint v ++ rest) = (Some v, rest).
Proof.
  intros Hv. unfold pb_read_varint, pb_varint. rewrite varint_loop_enc by (cbn; lia). f_equal. f_equal. lia.
Qed.

(** A varint written by a conforming encoder for any 64-bit value is read
    back exactly, and the cursor is left just after it. *)
Theorem varint_round_trip v rest :
  0 <= v < 2 ^ 64 -> pb_read_varint (pb_varint v ++ rest) = (Some v, rest).
Proof. apply read_enc_varint. Qed.

Lemma varint_round_trip_witness :
  pb_read_varint (pb_varint 0xffffffffffffffff ++ [1; 2]) = (Some 0xffffffffffffffff, [1; 2]).
Proof. apply varint_round_trip. lia. Defined.

(** ** The other encodings *)

Lemma lor_low f wt : 0 <= wt < 8 -> Z.lor (Z.shiftl f 3) wt = wt + f * 8.
Proof. intros. rewrite Z.lor_comm. apply (lor_high wt f 3); lia. Qed.

Lemma read_enc_tag f wt rest :
  0 <= f < 2 ^ 29 -> 0 <= wt < 8 -> pb_read_tag (enc_tag f wt ++ rest) = (Some (f, wt), rest).
Proof.
  intros Hf Hw. unfold pb_read_tag, enc_tag. rewrite lor_low, read_enc_varint by lia.
  f_equal. f_equal. f_equal.
  - rewrite Z.shiftr_div_pow2 by lia. change (2 ^ 3) with 8. rewrite Z.div_add by lia.
    rewrite Z.div_small by lia. apply (wrap_small 32). lia.
  - change 7 with (Z.ones 3). rewrite Z.land_ones by lia. change (2 ^ 3) with 8.
    rewrite Z.mod_add by lia. apply Z.mod_small. lia.
Qed.

Lemma read_enc_bytes payload rest :
  Z.of_nat (length payload) < 2 ^ 64 ->
  pb_read_length (enc_bytes payload ++ rest) = (Some payload, rest).
Proof.
  intros Hl. unfold pb_read_length, enc_bytes. rewrite <- app_assoc, read_enc_varint by lia.
  destruct (Z.ltb_spec (Z.of_nat (length (payload ++ rest))) (Z.of_nat (length payload))) as [H|H].
  - rewrite length_app in H. lia.
  - by rewrite Nat2Z.id, take_app_length, drop_app_length.
Qed.

Lemma le_combine_enc n v : 0 <= v < 2 ^ (8 * Z.of_nat n) -> le_combine (enc_fixed n v) = v.
Proof.
  revert v. induction n as [|n IH]; intros v Hv.
  { change (2 ^ (8 * Z.of_nat 0)) with 1 in Hv. cbn. lia. }
  unfold enc_fixed. cbn [seq map le_combine]. rewrite <- seq_shift, map_map.
  rewrite (map_ext _ (fun i => u8 (Z.shiftr (Z.shiftr v 8) (8 * Z.of_nat i)))).
  - change (map _ (seq 0 n)) with (enc_fixed n (Z.shiftr v 8)). rewrite IH.
    + rewrite Z.shiftr_0_r. unfold u8. rewrite wrap_land by lia. apply Z.bits_inj'. intros i Hi.
      rewrite Z.lor_spec, Z.shiftl_spec, Z.land_spec, Z.testbit_ones_nonneg by lia.
      destruct (Z.ltb_spec i 8).
      * rewrite andb_true_r, (Z.testbit_neg_r (Z.shiftr v 8)) by lia. apply orb_false_r.
      * rewrite andb_false_r, orb_false_l, Z.shiftr_spec by lia. f_equal. lia.
    + rewrite Z.shiftr_div_pow2 by lia. split; [apply Z.div_pos; lia|].
      apply Z.div_lt_upper_bound; [lia|]. rewrite <- Z.pow_add_r by lia.
      replace (8 + 8 * Z.of_nat n) with (8 * Z.of_nat (S n)) by lia. lia.
  - intros i. rewrite Z.shiftr_shiftr by lia. f_equal. f_equal. lia.
Qed.

Lemma enc_fixed_length n v : length (enc_fixed n v) = n.
Proof. unfold enc_fixed. by rewrite length_map, length_seq. Qed.

Lemma read_enc_fixed32 v rest :
  0 <= v < 2 ^ 32 -> pb_read_fixed32 (enc_fixed 4 v ++ rest) = (Some v, rest).
Proof.
  intros Hv. unfold pb_read_fixed32. rewrite length_app, enc_fixed_length.
  replace (4 + length rest <? 4)%nat with false by (symmetry; apply Nat.ltb_ge; lia).
  rewrite take_app_length', drop_app_length' by (by rewrite enc_fixed_length).
  by rewrite le_combine_enc by done.
Qed.

Lemma read_enc_fixed64 v rest :
  0 <= v < 2 ^ 64 -> pb_read_fixed64 (enc_fixed 8 v ++ rest) = (Some v, rest).
Proof.
  intros Hv. unfold pb_read_fixed64. rewrite length_app, enc_fixed_length.
  replace (8 + length rest <? 8)%nat with false by (symmetry; apply Nat.ltb_ge; lia).
  rewrite take_app_length', drop_app_length' by (by rewrite enc_fixed_length).
  by rewrite le_combine_enc by done.
Qed.

Lemma zigzag_round w v :
  0 < w -> - 2 ^ (w - 1) <= v < 2 ^ (w - 1) ->
  swrap w (Z.lxor (Z.shiftr (zigzag_enc w v) 1) (wrap w (- Z.land (zigzag_enc w v) 1))) = v.
Proof.
  intros Hw Hv. assert (E2 : 2 ^ w = 2 * 2 ^ (w - 1)).
  { rewrite <- Z.pow_succ_r by lia. f_equal. lia. }
  assert (Hp : 0 < 2 ^ (w - 1)) by (apply Z.pow_pos_nonneg; lia).
  assert (Hl : forall x, Z.land x 1 = x mod 2) by (intros; apply (Z.land_ones x 1); lia).
  assert (Hs : forall x, Z.shiftr x 1 = x / 2) by (intros; apply (Z.shiftr_div_pow2 x 1); lia).
  rewrite Hl, Hs. unfold zigzag_enc, swrap. destruct (Z.ltb_spec v 0).
  - replace (-2 * v - 1) with (1 + (- v - 1) * 2) by lia.
    rewrite Z.mod_add, Z.div_add by lia. change (1 mod 2) with 1. change (1 / 2) with 0.
    rewrite Z.add_0_l. unfold wrap.
    replace (- (1) mod 2 ^ w) with (Z.ones w).
    2: { rewrite Z.ones_equiv. apply (Z.mod_unique _ _ (-1)); lia. }
    assert (El : Z.lxor (- v - 1) (Z.ones w) = 2 ^ w + v).
    { assert (E0 : 2 ^ w + v = Z.ones w - (- v - 1)) by (rewrite Z.ones_equiv; lia).
      rewrite E0, (Z.sub_nocarry_ldiff (Z.ones w)).
      - apply Z.bits_inj'. intros i Hi. rewrite Z.lxor_spec, Z.ldiff_spec, Z.testbit_ones_nonneg by lia.
        destruct (Z.ltb_spec i w); [by destruct (Z.testbit (- v - 1) i)|].
        rewrite (bits_above w (- v - 1) i) by lia. done.
      - apply Z.bits_inj'. intros i Hi. rewrite Z.ldiff_spec, Z.testbit_ones_nonneg, Z.bits_0 by lia.
        destruct (Z.ltb_spec i w); cbn [negb]; [by rewrite andb_false_r|].
        by rewrite (bits_above w (- v - 1) i) by lia. }
    rewrite El.
    replace (2 ^ w + v + 2 ^ (w - 1)) with (v + 2 ^ (w - 1) + 1 * 2 ^ w) by lia.
    rewrite Z.mod_add, Z.mod_small by lia. lia.
  - rewrite (Z.mul_comm 2 v), Z.mod_mul, Z.div_mul by lia. unfold wrap. rewrite Z.mod_0_l by lia.
    rewrite Z.lxor_0_r, Z.mod_small by lia. lia.
Qed.

(** The zig-zag decoders invert the zig-zag encoding on the whole range
    of sint32 and sint64. *)
Theorem zigzag_round_trip v :
  (- 2 ^ 31 <= v < 2 ^ 31 -> pb_zigzag32 (zigzag_enc 32 v) = v) /\
  (- 2 ^ 63 <= v < 2 ^ 63 -> pb_zigzag64 (zigzag_enc 64 v) = v).
Proof. split; intros H; by apply zigzag_round. Qed.

Lemma zigzag_round_trip_witness : pb_zigzag32 (zigzag_enc 32 (-2147483648)) = -2147483648.
Proof. apply (zigzag_round_trip (-2147483648)). lia. Defined.
