(* ===== verification/PbMessage.v ===== *)
(** The message loop shared by the protobuf decoders of src/mesh_packet.c and
    src/mesh_decoders.c:

      while (p < end) {
          if (!pb_read_tag(&p, end, &fld, &wt)) return ...;
          switch (fld) { case 1: ...; default: if (!pb_skip_value(...)) return ...; }
      }

    A decoder is the loop [pb_message] over its switch; most switches are
    tables of field actions.  The section at the end relates a table decoder
    to the abstract meaning of a message, the left fold of its fields. *)

From S2P Require Import Prelude Protobuf.

Local Open Scope Z_scope.

(** ** The loop *)

(** What a [case] does: go round with a new cursor, or [return]. *)
Inductive step_result (T : Type) := Next (cur : list Z) (st : T) | Stop (st : T).
Arguments Next {T}. Arguments Stop {T}.

(** How the loop ends: the buffer is exhausted, a tag does not parse, or a
    [case] returned. *)
Inductive outcome := AtEnd | BadTag | BadField.

#[export] Instance outcome_eq_dec : EqDecision outcome.
Proof. solve_decision. Defined.

Definition switch (T : Type) : Type := Z -> Z -> list Z -> T -> step_result T.

(** Each round reads a tag of at least one byte, so [length cur] rounds are
    enough ([pb_message_fuel]); running out of fuel is reported as [BadTag]. *)
Fixpoint pb_message_loop {T} (fuel : nat) (sw : switch T) (cur : list Z) (st : T) : outcome * T :=
  match cur with
  | [] => (AtEnd, st)
  | _ =>
      match fuel with
      | O => (BadTag, st)
      | S k =>
          match pb_read_tag cur with
          | (None, _) => (BadTag, st)
          | (Some (fld, wt), cur) =>
              match sw fld wt cur st with
              | Next cur st => pb_message_loop k sw cur st
              | Stop st => (BadField, st)
              end
          end
      end
  end.

Definition pb_message {T} (sw : switch T) (buf : list Z) (st : T) : outcome * T :=
  pb_message_loop (length buf) sw buf st.

(** ** The bodies of a [case] *)

(** [if (!pb_read_xxx(&p, end, &v)) return; ...use v...; break;] *)
Definition on_read {T A} (rd : pb_reader A) (f : A -> T -> T) (cur : list Z) (st : T) : step_result T :=
  match rd cur with
  | (Some v, cur) => Next cur (f v st)
  | (None, _) => Stop st
  end.

(** [if (!pb_skip_value(&p, end, wt)) return; break;] *)
Definition on_skip {T} (wt : Z) (cur : list Z) (st : T) : step_result T :=
  match pb_skip_value wt cur with
  | (true, cur) => Next cur st
  | (false, _) => Stop st
  end.

(** [if (wt != W || !pb_read_xxx(&p, end, &v)) { if (!pb_skip_value(&p, end,
    wt)) return; break; }]: after a failed read the skip starts where the
    read stopped. *)
Definition on_checked {T} (want : Z) (rd : pb_reader Z) (f : Z -> T -> T) (wt : Z) (cur : list Z)
    (st : T) : step_result T :=
  if negb (wt =? want) then on_skip wt cur st
  else match rd cur with
       | (Some v, cur) => Next cur (f v st)
       | (None, cur) => on_skip wt cur st
       end.

(** The field actions; the first three do not look at the wire type. *)
Inductive action (T : Type) :=
| Varint (f : Z -> T -> T)
| Fixed32 (f : Z -> T -> T)
| Bytes (f : list Z -> T -> T)
| CkVarint (f : Z -> T -> T)
| CkFixed32 (f : Z -> T -> T).
Arguments Varint {T}. Arguments Fixed32 {T}. Arguments Bytes {T}.
Arguments CkVarint {T}. Arguments CkFixed32 {T}.

Definition run_action {T} (a : action T) (wt : Z) (cur : list Z) (st : T) : step_result T :=
  match a with
  | Varint f => on_read pb_read_varint f cur st
  | Fixed32 f => on_read pb_read_fixed32 f cur st
  | Bytes f => on_read pb_read_length f cur st
  | CkVarint f => on_checked PB_WIRE_VARINT pb_read_varint f wt cur st
  | CkFixed32 f => on_checked PB_WIRE_FIXED32 pb_read_fixed32 f wt cur st
  end.

(** [switch (fld)] with one action per case and a skipping default. *)
Fixpoint table_find {T} (tbl : list (Z * action T)) (fld : Z) : option (action T) :=
  match tbl with
  | [] => None
  | (n, a) :: t => if n =? fld then Some a else table_find t fld
  end.

Definition table {T} (tbl : list (Z * action T)) : switch T := fun fld wt cur st =>
  match table_find tbl fld with
  | Some a => run_action a wt cur st
  | None => on_skip wt cur st
  end.

(** ** Switches stay in the buffer *)

(** A switch that never leaves the part of the buffer it is given. *)
Class InBounds {T} (sw : switch T) : Prop :=
  in_bounds : forall fld wt cur st cur' st', sw fld wt cur st = Next cur' st' -> consumed cur cur'.

Lemma on_read_consumed {T A} (rd : pb_reader A) (f : A -> T -> T) cur st cur' st' :
  (forall c, consumed c (snd (rd c))) -> on_read rd f cur st = Next cur' st' -> consumed cur cur'.
Proof.
  intros Hrd. unfold on_read. specialize (Hrd cur). destruct (rd cur) as [[v|] c]; [|done].
  by intros [= -> _].
Qed.

Lemma on_skip_consumed {T} wt cur (st : T) cur' st' :
  on_skip wt cur st = Next cur' st' -> consumed cur cur'.
Proof.
  unfold on_skip. pose proof (pb_skip_value_consumed wt cur) as H.
  destruct (pb_skip_value wt cur) as [[] c]; [|done]. by intros [= -> _].
Qed.

Lemma on_checked_consumed {T} want rd (f : Z -> T -> T) wt cur st cur' st' :
  (forall c, consumed c (snd (rd c))) -> on_checked want rd f wt cur st = Next cur' st' ->
  consumed cur cur'.
Proof.
  intros Hrd. unfold on_checked. case_if; [apply on_skip_consumed|].
  specialize (Hrd cur). destruct (rd cur) as [[v|] c].
  - by intros [= -> _].
  - intros H. transitivity c; [done|]. by apply on_skip_consumed in H.
Qed.

Lemma run_action_consumed {T} (a : action T) wt cur st cur' st' :
  run_action a wt cur st = Next cur' st' -> consumed cur cur'.
Proof.
  destruct a; cbn [run_action];
    first [eapply on_read_consumed; auto with mesh | apply on_checked_consumed; auto with mesh].
Qed.

#[export] Instance table_in_bounds {T} (tbl : list (Z * action T)) : InBounds (table tbl).
Proof.
  intros fld wt cur st cur' st'. unfold table. destruct (table_find tbl fld).
  - apply run_action_consumed.
  - apply on_skip_consumed.
Qed.

(** The loop never runs out of fuel: any fuel from the buffer length on gives
    the same result. *)
Lemma pb_message_fuel {T} (sw : switch T) `{!InBounds sw} fuel fuel' cur st :
  (length cur <= fuel)%nat -> (length cur <= fuel')%nat ->
  pb_message_loop fuel sw cur st = pb_message_loop fuel' sw cur st.
Proof.
  revert fuel' cur st. induction fuel as [|k IH]; intros [|k'] cur st Hk Hk';
    destruct cur as [|b cur]; cbn [length] in *; try lia; try done.
  cbn [pb_message_loop]. pose proof (pb_read_tag_progress (b :: cur)) as Hp.
  destruct (pb_read_tag (b :: cur)) as [[[fld wt]|] c]; [|done].
  specialize (Hp _ eq_refl). cbn [snd length] in Hp.
  destruct (sw fld wt c st) as [c' st'|st'] eqn:E; [|done].
  apply in_bounds, consumed_length in E. apply IH; lia.
Qed.

(** ** Messages as sequences of fields *)

Inductive wire := WVarint (v : Z) | WFixed64 (v : Z) | WBytes (b : list Z) | WFixed32 (v : Z).

Definition wire_type (w : wire) : Z :=
  match w with
  | WVarint _ => PB_WIRE_VARINT
  | WFixed64 _ => PB_WIRE_FIXED64
  | WBytes _ => PB_WIRE_LENGTH
  | WFixed32 _ => PB_WIRE_FIXED32
  end.

Definition wire_ok (w : wire) : Prop :=
  match w with
  | WVarint v | WFixed64 v => 0 <= v < 2 ^ 64
  | WFixed32 v => 0 <= v < 2 ^ 32
  | WBytes b => Z.of_nat (length b) < 2 ^ 64
  end.

Definition enc_wire (w : wire) : list Z :=
  match w with
  | WVarint v => pb_varint v
  | WFixed64 v => enc_fixed 8 v
  | WBytes b => enc_bytes b
  | WFixed32 v => enc_fixed 4 v
  end.

(** A field as a conforming encoder writes it, and a message. *)
Definition enc_field (f : Z * wire) : list Z := enc_tag (fst f) (wire_type (snd f)) ++ enc_wire (snd f).
Definition enc_message (fs : list (Z * wire)) : list Z := concat (map enc_field fs).
Definition field_ok (f : Z * wire) : Prop := 1 <= fst f < 2 ^ 29 /\ wire_ok (snd f).

(** What a case means on a value of its own wire type; a checked case
    ignores any other. *)
Definition act {T} (a : action T) (w : wire) (st : T) : T :=
  match a, w with
  | Varint f, WVarint v | CkVarint f, WVarint v => f v st
  | Fixed32 f, WFixed32 v | CkFixed32 f, WFixed32 v => f v st
  | Bytes f, WBytes b => f b st
  | _, _ => st
  end.

(** The wire types a case can be given: an unchecked case must get its own. *)
Definition act_ok {T} (a : action T) (w : wire) : bool :=
  match a, w with
  | Varint _, WVarint _ | Fixed32 _, WFixed32 _ | Bytes _, WBytes _ => true
  | CkVarint _, _ | CkFixed32 _, _ => true
  | _, _ => false
  end.

Definition table_ok {T} (tbl : list (Z * action T)) (f : Z * wire) : bool :=
  match table_find tbl (fst f) with Some a => act_ok a (snd f) | None => true end.

Definition apply_field {T} (tbl : list (Z * action T)) (st : T) (f : Z * wire) : T :=
  match table_find tbl (fst f) with Some a => act a (snd f) st | None => st end.

Lemma skip_enc {T} w rest (st : T) :
  wire_ok w -> on_skip (wire_type w) (enc_wire w ++ rest) st = Next rest st.
Proof.
  intros Hw. unfold on_skip, pb_skip_value. destruct w; cbn [wire_type enc_wire wire_ok] in *;
    cbn -[app pb_read_varint pb_read_length pb_read_fixed32 pb_read_fixed64 pb_varint enc_bytes enc_fixed].
  - by rewrite read_enc_varint.
  - by rewrite read_enc_fixed64.
  - by rewrite read_enc_bytes.
  - by rewrite read_enc_fixed32.
Qed.

Lemma run_action_enc {T} (a : action T) w rest st :
  wire_ok w -> act_ok a w = true ->
  run_action a (wire_type w) (enc_wire w ++ rest) st = Next rest (act a w st).
Proof.
  intros Hw Ha. pose proof (skip_enc w rest st Hw) as Hs.
  destruct a, w; try discriminate Ha; cbn [run_action act];
    unfold on_read, on_checked; cbn [wire_type enc_wire wire_ok] in *;
    try exact Hs; cbn -[app pb_read_varint pb_read_length pb_read_fixed32 pb_varint enc_bytes enc_fixed];
    by rewrite ?read_enc_varint, ?read_enc_bytes, ?read_enc_fixed32.
Qed.

Lemma wire_type_range w : 0 <= wire_type w < 8.
Proof. destruct w; by split. Qed.

Lemma enc_varint_nonnil n v : (n <> 0)%nat -> exists b t, enc_varint n v = b :: t.
Proof. destruct n; [done|]. intros _. cbn [enc_varint]. destruct (v <? 128); eauto. Qed.

Lemma enc_field_nonnil f rest : exists b t, enc_field f ++ rest = b :: t.
Proof.
  unfold enc_field, enc_tag, pb_varint. destruct (enc_varint_nonnil 10 (Z.lor (Z.shiftl (fst f) 3) (wire_type (snd f))))
    as (b & t & ->); [done|]. cbn [app]. eauto.
Qed.

(** One round of the loop on an encoded field. *)
Lemma pb_message_step {T} (sw : switch T) `{!InBounds sw} f rest st st' :
  field_ok f ->
  sw (fst f) (wire_type (snd f)) (enc_wire (snd f) ++ rest) st = Next rest st' ->
  pb_message sw (enc_field f ++ rest) st = pb_message sw rest st'.
Proof.
  intros [Hf Hw] Hs. unfold pb_message.
  destruct (enc_field_nonnil f rest) as (b & t & E).
  assert (Ht : pb_read_tag (enc_field f ++ rest) =
               (Some (fst f, wire_type (snd f)), enc_wire (snd f) ++ rest)).
  { unfold enc_field. rewrite <- app_assoc. apply read_enc_tag; [lia|apply wire_type_range]. }
  pose proof (pb_read_tag_progress (enc_field f ++ rest)) as Hp. rewrite Ht in Hp.
  specialize (Hp _ eq_refl). cbn [snd] in Hp. rewrite E in *. cbn [length pb_message_loop]. rewrite Ht, Hs.
  apply pb_message_fuel; [done| |lia]. apply in_bounds, consumed_length in Hs. cbn [length] in Hp. lia.
Qed.

(** A table decoder on an encoded message is the fold of the fields. *)
Lemma pb_message_fold {T} (tbl : list (Z * action T)) fs st :
  Forall field_ok fs -> forallb (table_ok tbl) fs = true ->
  pb_message (table tbl) (enc_message fs) st = (AtEnd, fold_left (apply_field tbl) fs st).
Proof.
  intros Hok Ht. revert st. induction Hok as [|f fs Hf Hok IH]; intros st; [done|].
  cbn [forallb] in Ht. apply andb_prop in Ht as [Ht Hts]. unfold enc_message. cbn [map concat fold_left].
  rewrite (pb_message_step (table tbl) f _ st (apply_field tbl st f) Hf); [by apply IH|].
  unfold table, apply_field, table_ok in *. destruct Hf as [_ Hw].
  destruct (table_find tbl (fst f)); [by apply run_action_enc|by apply skip_enc].
Qed.

Lemma enc_message_app a b : enc_message (a ++ b) = enc_message a ++ enc_message b.
Proof. unfold enc_message. by rewrite map_app, concat_app. Qed.

Lemma enc_message_pos f fs : (0 < length (enc_message (f :: fs)))%nat.
Proof.
  change (enc_message (f :: fs)) with (enc_field f ++ enc_message fs).
  destruct (enc_field_nonnil f (enc_message fs)) as (b & t & ->). cbn [length]. lia.
Qed.

(** ** Invariants of the loop *)

(** A predicate every case preserves, whatever part of the buffer it works
    on, holds of the result. *)
Lemma pb_message_invariant {T} (sw : switch T) `{!InBounds sw} (I : T -> Prop) buf st :
  (forall fld wt cur st0, consumed buf cur -> I st0 ->
     match sw fld wt cur st0 with Next _ st1 => I st1 | Stop st1 => I st1 end) ->
  I st -> I (snd (pb_message sw buf st)).
Proof.
  intros Hsw. unfold pb_message. assert (Hc : consumed buf buf) by reflexivity. revert Hc.
  generalize buf at 2 4 as cur. generalize (length buf) as fuel. intros fuel. revert st.
  induction fuel as [|k IH]; intros st [|b cur] Hc HI; try done.
  cbn [pb_message_loop]. pose proof (pb_read_tag_consumed (b :: cur)) as Ht.
  destruct (pb_read_tag (b :: cur)) as [[[fld wt]|] c]; [|done]. cbn [snd] in Ht.
  assert (Hc' : consumed buf c) by (by transitivity (b :: cur)).
  specialize (Hsw fld wt c st Hc' HI). destruct (sw fld wt c st) as [c' st'|st'] eqn:E; [|done].
  apply IH; [|done]. transitivity c; [done|]. by eapply in_bounds.
Qed.

(** The bytes a length-delimited read returns are a slice of the buffer. *)
Definition slice_of (buf b : list Z) : Prop := exists pre post, buf = pre ++ b ++ post.

Lemma slice_of_nil buf : slice_of buf [].
Proof. by exists [], buf. Qed.

Lemma slice_of_length buf b : slice_of buf b -> (length b <= length buf)%nat.
Proof. intros (x & y & ->). rewrite !length_app. lia. Qed.

Lemma pb_read_length_slice buf cur b cur' :
  consumed buf cur -> pb_read_length cur = (Some b, cur') -> slice_of buf b.
Proof.
  intros [r ->] H. unfold pb_read_length, pb_read_varint in H.
  destruct (varint_loop_consumed cur 0 0) as [hdr Hh].
  destruct (varint_loop 0 0 cur) as [[l|] c]; [|done]. cbn [snd] in Hh.
  destruct (Z.of_nat (length c) <? l); [done|]. injection H as <- <-. subst cur.
  exists (r ++ hdr), (drop (Z.to_nat l) c). by rewrite take_drop, <- app_assoc.
Qed.

(** A table whose actions preserve [I], the byte actions on slices of the
    buffer. *)
Definition action_keeps {T} (buf : list Z) (I : T -> Prop) (a : action T) : Prop :=
  match a with
  | Varint f | Fixed32 f | CkVarint f | CkFixed32 f => forall v st, I st -> I (f v st)
  | Bytes f => forall b st, slice_of buf b -> I st -> I (f b st)
  end.

Lemma on_skip_keeps {T} (I : T -> Prop) wt cur st :
  I st -> match on_skip wt cur st with Next _ st1 => I st1 | Stop st1 => I st1 end.
Proof. unfold on_skip. by destruct (pb_skip_value wt cur) as [[] ?]. Qed.

Lemma table_keeps {T} (tbl : list (Z * action T)) (I : T -> Prop) buf st :
  Forall (fun p => action_keeps buf I (snd p)) tbl -> I st ->
  I (snd (pb_message (table tbl) buf st)).
Proof.
  intros Htbl. apply pb_message_invariant; [apply _|]. clear st. intros fld wt cur st Hc HI.
  unfold table. destruct (table_find tbl fld) as [a|] eqn:E; [|by apply on_skip_keeps].
  assert (Ha : action_keeps buf I a).
  { clear -Htbl E. induction Htbl as [|[n a'] t Ha Ht IH]; [done|]. cbn [table_find] in E.
    destruct (n =? fld); [by injection E as <-|auto]. }
  destruct a; cbn [run_action action_keeps] in *; unfold on_read, on_checked.
  - destruct (pb_read_varint cur) as [[]]; auto.
  - destruct (pb_read_fixed32 cur) as [[]]; auto.
  - destruct (pb_read_length cur) as [[b|] c] eqn:Er; [|done].
    apply Ha; [|done]. by eapply pb_read_length_slice.
  - case_if; [by apply on_skip_keeps|]. destruct (pb_read_varint cur) as [[]]; [auto|by apply on_skip_keeps].
  - case_if; [by apply on_skip_keeps|]. destruct (pb_read_fixed32 cur) as [[]]; [auto|by apply on_skip_keeps].
Qed.
