(* ===== verification/CString.v ===== *)
(** C strings as the lists of their bytes (the terminating NUL left out), and
    the libc functions the sources use on them. *)

From Stdlib Require Import Ascii String.
From S2P Require Import Prelude.

Local Open Scope Z_scope.

(** A string literal of the source. *)
Fixpoint str (s : string) : list Z :=
  match s with
  | EmptyString => []
  | String a t => Z.of_N (N_of_ascii a) :: str t
  end.

Definition ch (a : ascii) : Z := Z.of_N (N_of_ascii a).

(** A C string: bytes, none of them NUL. *)
Definition is_cstr (s : list Z) : Prop := Forall (fun c => 0 < c < 256) s.

(** [strncpy(dst, s, size - 1)] into a zeroed [char dst[size]]. *)
Definition copy_to (size : nat) (s : list Z) : list Z := take (size - 1) s.

Definition tolower (c : Z) : Z := if (65 <=? c) && (c <=? 90) then c + 32 else c.
Definition is_digit (c : Z) : bool := (48 <=? c) && (c <=? 57).

Fixpoint list_eqb (a b : list Z) : bool :=
  match a, b with
  | [], [] => true
  | x :: a, y :: b => (x =? y) && list_eqb a b
  | _, _ => false
  end.

(** [strcmp(a, b) == 0], [!strcasecmp(a, b)], [!strncasecmp(a, b, n)]. *)
Definition strcmp_eq (a b : list Z) : bool := list_eqb a b.
Definition strcasecmp_eq (a b : list Z) : bool := list_eqb (map tolower a) (map tolower b).
Definition strncasecmp_eq (n : nat) (a b : list Z) : bool :=
  list_eqb (map tolower (take n a)) (map tolower (take n b)).

(** [strchr(s, c)]: what precedes the first [c] and what follows it. *)
Fixpoint strchr (c : Z) (s : list Z) : option (list Z * list Z) :=
  match s with
  | [] => None
  | x :: t => if x =? c then Some ([], t)
              else match strchr c t with
                   | Some (a, b) => Some (x :: a, b)
                   | None => None
                   end
  end.

(** [atoi] on a string that starts with a digit. *)
Fixpoint atoi_digits (acc : Z) (s : list Z) : Z :=
  match s with
  | [] => acc
  | c :: t => if is_digit c then atoi_digits (acc * 10 + (c - 48)) t else acc
  end.
Definition atoi (s : list Z) : Z := atoi_digits 0 s.

Definition is_blank (c : Z) : bool := (c =? 32) || (c =? 9).

Fixpoint skip_while (p : Z -> bool) (s : list Z) : list Z :=
  match s with
  | [] => []
  | c :: t => if p c then skip_while p t else s
  end.

(** Trailing characters satisfying [p] removed. *)
Definition trim_end (p : Z -> bool) (s : list Z) : list Z := rev (skip_while p (rev s)).

(** The tokens of [strtok_r] for the delimiter set [d]: maximal runs of
    non-delimiters. *)
Fixpoint tokens_from (d : Z -> bool) (cur : list Z) (s : list Z) : list (list Z) :=
  match s with
  | [] => match cur with [] => [] | _ => [cur] end
  | c :: t => if d c then match cur with [] => tokens_from d [] t
                          | _ => cur :: tokens_from d [] t end
              else tokens_from d (cur ++ [c]) t
  end.
Definition strtok_all (d : Z -> bool) (s : list Z) : list (list Z) := tokens_from d [] s.

Lemma list_eqb_eq a b : list_eqb a b = true <-> a = b.
Proof.
  revert b. induction a as [|x a IH]; intros [|y b]; try (split; congruence || done). cbn [list_eqb].
  rewrite andb_true_iff, Z.eqb_eq, IH. split; [intros [-> ->]; done|intros [= -> ->]; done].
Qed.

Lemma list_eqb_refl a : list_eqb a a = true.
Proof. by apply list_eqb_eq. Qed.

Lemma skip_while_suffix p s : exists t, s = t ++ skip_while p s.
Proof.
  induction s as [|c s [t IH]]; [by exists []|]. cbn [skip_while]. destruct (p c).
  - exists (c :: t). cbn [app]. by rewrite <- IH.
  - by exists [].
Qed.

Lemma copy_to_length n s : (0 < n)%nat -> (length (copy_to n s) < n)%nat.
Proof. intros. unfold copy_to. rewrite length_take. lia. Qed.

Lemma copy_to_short n s : (length s < n)%nat -> copy_to n s = s.
Proof. intros. apply take_ge. lia. Qed.

Lemma cstr_check s : forallb (fun c => (0 <? c) && (c <? 256)) s = true -> is_cstr s.
Proof.
  intros H. apply List.Forall_forall. intros c Hc. rewrite forallb_forall in H. specialize (H c Hc).
  zb. lia.
Qed.

(** A concrete string is a C string. *)
Ltac cstr_tac := apply cstr_check; reflexivity.

(** ** Numbers as text *)

(** Decimal digits of a non-negative number: a number has no more decimal
    than binary digits, which bounds the recursion. *)
Fixpoint dec_loop (fuel : nat) (z : Z) (acc : list Z) : list Z :=
  match fuel with
  | O => acc
  | S k => let acc := (48 + z mod 10) :: acc in if z <? 10 then acc else dec_loop k (z / 10) acc
  end.

Definition dec_of_Z (z : Z) : list Z := dec_loop (S (Z.to_nat (Z.log2 z))) z [].

(** [%d] and [%0wd]. *)
Definition fmt_d (z : Z) : list Z := if z <? 0 then 45 :: dec_of_Z (- z) else dec_of_Z z.
Definition pad0 (w : nat) (s : list Z) : list Z := replicate (w - length s) 48 ++ s.

(** The parts of <time.h> the program uses: gmtime_r and the printf formats
    of its fields. *)

(** gmtime_r: the proleptic Gregorian date of a day number counted from
    1970-01-01 (eras of 400 years, years starting in March). *)
Record tm := mk_tm { tm_year : Z; tm_mon : Z; tm_mday : Z; tm_hour : Z; tm_min : Z; tm_sec : Z }.

Definition civil_of_days (days : Z) : Z * Z * Z :=
  let z := days + 719468 in
  let era := z / 146097 in
  let doe := z mod 146097 in
  let yoe := (doe - doe / 1460 + doe / 36524 - doe / 146096) / 365 in
  let doy := doe - (365 * yoe + yoe / 4 - yoe / 100) in
  let mp := (5 * doy + 2) / 153 in
  let m := if mp <? 10 then mp + 3 else mp - 9 in
  (yoe + era * 400 + (if m <=? 2 then 1 else 0), m, doy - (153 * mp + 2) / 5 + 1).

Definition gmtime (sec : Z) : tm :=
  let s := sec mod 86400 in
  let '(y, m, d) := civil_of_days (sec / 86400) in
  mk_tm (y - 1900) (m - 1) d (s / 3600) (s / 60 mod 60) (s mod 60).

(** [%0<w>d] *)
Definition fmt_0d (w : nat) (z : Z) : list Z :=
  if z <? 0 then 45 :: pad0 (w - 1) (dec_of_Z (- z)) else pad0 w (dec_of_Z z).

(** Numbers in C strings: strtol, strtoull and atoi in base ten, and that they
    read back what printf prints. *)

Definition is_space (c : Z) : bool := ((9 <=? c) && (c <=? 13)) || (c =? 32).

(** The sign and the digits after leading space. *)
Definition scan_number (s : list Z) : bool * Z :=
  match skip_while is_space s with
  | [] => (false, 0)
  | c :: t => if c =? 45 then (true, atoi_digits 0 t)
              else if c =? 43 then (false, atoi_digits 0 t)
              else (false, atoi_digits 0 (c :: t))
  end.

Definition LONG_MAX : Z := 2 ^ 63 - 1.
Definition ULLONG_MAX : Z := 2 ^ 64 - 1.

(** [strtol(s, NULL, 10)] with a 64-bit long. *)
Definition strtol10 (s : list Z) : Z :=
  let '(neg, n) := scan_number s in if neg then Z.max (- n) (- LONG_MAX - 1) else Z.min n LONG_MAX.

(** [strtoull(s, NULL, 10)]: a negative number wraps. *)
Definition strtoull10 (s : list Z) : Z :=
  let '(neg, n) := scan_number s in
  if ULLONG_MAX <? n then ULLONG_MAX else if neg then u64 (- n) else n.

(** [atoi(s)]. *)
Definition atoi_c (s : list Z) : Z := i32 (strtol10 s).

(** A string that does not go on with a digit. *)
Definition no_digit (s : list Z) : Prop := match s with [] => True | c :: _ => is_digit c = false end.

Lemma atoi_digits_app ds rest : forallb is_digit ds = true -> no_digit rest -> forall acc,
  atoi_digits acc (ds ++ rest) = atoi_digits acc ds.
Proof.
  induction ds as [|d ds IH]; intros Hd Hr acc.
  - destruct rest as [|c rest]; [done|]. cbn [app atoi_digits]. cbn in Hr. by rewrite Hr.
  - cbn [forallb] in Hd. apply andb_prop in Hd as [H1 H2]. cbn [app atoi_digits]. rewrite H1. by apply IH.
Qed.

Lemma dec_loop_value fuel : forall z acc, (0 < fuel)%nat -> 0 <= z < 2 ^ Z.of_nat fuel ->
  exists d ds, dec_loop fuel z acc = (d :: ds) ++ acc /\ forallb is_digit (d :: ds) = true /\
    forall t, atoi_digits 0 ((d :: ds) ++ t) = atoi_digits z t.
Proof.
  induction fuel as [|k IH]; intros z acc Hf Hz; [lia|]. cbn [dec_loop].
  pose proof (Z.mod_pos_bound z 10 ltac:(lia)) as Hm. pose proof (Z.div_mod z 10 ltac:(lia)) as Hd.
  assert (Hdig : is_digit (48 + z mod 10) = true) by (unfold is_digit; apply andb_true_intro; split; apply Z.leb_le; lia).
  destruct (Z.ltb_spec z 10) as [Hs|Hs].
  - exists (48 + z mod 10), []. split; [done|]. split; [cbn; by rewrite Hdig|]. intros t. cbn [app atoi_digits]. rewrite Hdig.
    rewrite Z.mod_small by lia. f_equal. lia.
  - rewrite Nat2Z.inj_succ, Z.pow_succ_r in Hz by lia. destruct k as [|k]; [cbn in Hz; lia|]. set (P := 2 ^ Z.of_nat (S k)) in *.
    destruct (IH (z / 10) ((48 + z mod 10) :: acc) ltac:(lia) ltac:(clearbody P; lia)) as (d & ds & -> & Hu & Hv).
    exists d, (ds ++ [48 + z mod 10]). split; [cbn [app]; by rewrite <- app_assoc|]. split.
    + cbn [forallb] in *. rewrite forallb_app. cbn [forallb]. by rewrite Hdig, !andb_true_r.
    + intros t. specialize (Hv ((48 + z mod 10) :: t)). cbn [app] in *. rewrite <- app_assoc. cbn [app]. rewrite Hv.
      cbn [atoi_digits]. rewrite Hdig. f_equal. lia.
Qed.

Lemma dec_value z : 0 <= z -> exists d ds, dec_of_Z z = d :: ds /\ forallb is_digit (d :: ds) = true /\
  forall rest, no_digit rest -> atoi_digits 0 (dec_of_Z z ++ rest) = z.
Proof.
  intros Hz. unfold dec_of_Z. destruct (dec_loop_value (S (Z.to_nat (Z.log2 z))) z []) as (d & ds & E & Hd & Hv).
  - lia.
  - split; [done|]. rewrite Nat2Z.inj_succ, Z2Nat.id by apply Z.log2_nonneg.
    destruct (Z.eq_dec z 0) as [->|]; [done|]. apply Z.log2_spec. lia.
  - rewrite E, app_nil_r. exists d, ds. split; [done|]. split; [done|]. intros rest Hr. rewrite Hv.
    destruct rest as [|c rest]; [done|]. cbn [atoi_digits]. cbn in Hr. by rewrite Hr.
Qed.

Lemma digit_plain c : is_digit c = true -> is_space c = false /\ c <> 45 /\ c <> 43.
Proof. unfold is_digit, is_space. intros H. zb. destruct ((9 <=? c) && (c <=? 13)) eqn:E1, (c =? 32) eqn:E2; zb; repeat split; lia || done. Qed.

(** What printf prints with %d, whatever follows that is no digit. *)
Lemma scan_fmt_d z rest : no_digit rest -> scan_number (fmt_d z ++ rest) = (z <? 0, Z.abs z).
Proof.
  intros Hr. unfold scan_number, fmt_d. destruct (Z.ltb_spec z 0) as [Hz|Hz].
  - destruct (dec_value (- z) ltac:(lia)) as (d & ds & _ & _ & Hv). cbn [app skip_while]. change (is_space 45) with false. cbn iota.
    rewrite Z.eqb_refl, Hv by done. f_equal. lia.
  - destruct (dec_value z Hz) as (d & ds & E & Hd & Hv). specialize (Hv rest Hr). rewrite E in *. cbn [app] in *. cbn [forallb] in Hd.
    apply andb_prop in Hd as [Hd _]. destruct (digit_plain d Hd) as (S1 & N1 & N2). cbn [skip_while]. rewrite S1.
    apply Z.eqb_neq in N1, N2. rewrite N1, N2, Hv. f_equal. lia.
Qed.

Lemma strtoull_dec z rest : 0 <= z < 2 ^ 64 -> no_digit rest -> strtoull10 (dec_of_Z z ++ rest) = z.
Proof.
  intros Hz Hr. unfold strtoull10. assert (E : dec_of_Z z = fmt_d z) by (unfold fmt_d; destruct (Z.ltb_spec z 0); [lia|done]).
  rewrite E, scan_fmt_d by done. destruct (Z.ltb_spec z 0); [lia|]. rewrite Z.abs_eq by lia. unfold ULLONG_MAX.
  destruct (Z.ltb_spec (2 ^ 64 - 1) z); [lia|done].
Qed.

Lemma atoi_fmt_d z rest : - 2 ^ 31 <= z < 2 ^ 31 -> no_digit rest -> atoi_c (fmt_d z ++ rest) = z.
Proof.
  intros Hz Hr. unfold atoi_c, strtol10, LONG_MAX. rewrite scan_fmt_d by done.
  assert (E : (if z <? 0 then Z.max (- Z.abs z) (- (2 ^ 63 - 1) - 1) else Z.min (Z.abs z) (2 ^ 63 - 1)) = z)
    by (destruct (Z.ltb_spec z 0); lia).
  rewrite E. unfold i32, swrap. change (32 - 1) with 31. rewrite Z.mod_small by lia. lia.
Qed.
