(* ===== verification/CFloat.v ===== *)
(** The C floating point the decoders compute with.

    A [float] that is only copied (a bit cast from the wire, a value handed
    through) is its 32-bit pattern, a [Z].  A [double] or [float] that is
    computed is a [spec_float], with the IEEE-754 operations of the Standard
    Library at the precision of the C type. *)

From Stdlib Require Export SpecFloat.
From Stdlib Require Import String.
From S2P Require Import Prelude CString.

Local Open Scope Z_scope.

(** [(double)z], [a * b], [a / b] on double. *)
Definition f64_of_Z (z : Z) : spec_float := binary_normalize 53 1024 z 0 false.
Definition f64_mul : spec_float -> spec_float -> spec_float := SFmul 53 1024.
Definition f64_div : spec_float -> spec_float -> spec_float := SFdiv 53 1024.

(** [(float)z] and [a / b] on float. *)
Definition f32_of_Z (z : Z) : spec_float := binary_normalize 24 128 z 0 false.
Definition f32_div : spec_float -> spec_float -> spec_float := SFdiv 24 128.

(** The literals 1e-7 and 1e6. *)
Definition f64_1e_7 : spec_float := S754_finite false 7555786372591432 (-76).
Definition f64_1e6 : spec_float := f64_of_Z 1000000.

(** 0.0 of either type. *)
Definition f_zero : spec_float := S754_zero false.

(** A bit pattern read as a float. *)
Definition u32_as_float (v : Z) : Z := v.

(** ** printf

    [%.<prec>f]: the exact value rounded to [prec] decimals, half to even. *)
Definition round_half_even (n d : Z) : Z :=
  let q := n / d in let r := n mod d in
  if 2 * r <? d then q else if d <? 2 * r then q + 1 else if Z.even q then q else q + 1.

Definition fmt_decimal (prec : nat) (q : Z) : list Z :=
  let p := 10 ^ Z.of_nat prec in
  dec_of_Z (q / p) ++ match prec with O => [] | _ => 46 :: pad0 prec (dec_of_Z (q mod p)) end.

Definition fmt_f (prec : nat) (x : spec_float) : list Z :=
  let sign (s : bool) := if s then [45] else [] in
  match x with
  | S754_zero s => sign s ++ fmt_decimal prec 0
  | S754_infinity s => sign s ++ str "inf"
  | S754_nan => str "nan"
  | S754_finite s m e =>
      let n := Zpos m * 10 ^ Z.of_nat prec in
      sign s ++ fmt_decimal prec (if 0 <=? e then n * 2 ^ e else round_half_even n (2 ^ (- e)))
  end.

(** [(double)x] of a float is exact. *)
Definition f64_of_f32 (x : spec_float) : spec_float := x.

Definition f32_mul : spec_float -> spec_float -> spec_float := SFmul 24 128.
Definition f64_ltb (a b : spec_float) : bool := SFltb a b.
Definition f64_eqb (a b : spec_float) : bool := SFeqb a b.

(** The float pattern as a double; [a + b] and [a - b] on double. *)
Definition f32_of_bits (p : Z) : spec_float :=
  let s := Z.testbit p 31 in
  let e := Z.land (Z.shiftr p 23) 0xff in
  let m := Z.land p 0x7fffff in
  if e =? 255 then (if m =? 0 then S754_infinity s else S754_nan)
  else match (if e =? 0 then m else m + 0x800000) with
       | Zpos q => S754_finite s q ((if e =? 0 then 1 else e) - 150)
       | _ => S754_zero s
       end.
Definition f64_add : spec_float -> spec_float -> spec_float := SFadd 53 1024.
Definition f64_sub : spec_float -> spec_float -> spec_float := SFsub 53 1024.

(** Double arithmetic that is exact: integers of at most 53 bits, and their
    differences within a binade.  Used where the source computes frequencies
    in doubles. *)

(** A mantissa shifted to 53 bits. *)
Definition full (m : positive) : positive := Z.to_pos (Zpos m * 2 ^ (53 - Zpos (digits2_pos m))).

Lemma digits2_pos_size m : digits2_pos m = Pos.size m.
Proof. induction m as [m IH|m IH|]; cbn; by rewrite ?IH. Qed.

Lemma digits_log2 m : Zpos (digits2_pos m) = Z.log2 (Zpos m) + 1.
Proof.
  rewrite digits2_pos_size. destruct m as [m|m|]; cbn [Z.log2 Pos.size]; lia.
Qed.

Lemma digits_mul_pow2 m n k : 0 <= k -> Zpos n = Zpos m * 2 ^ k -> Zpos (digits2_pos n) = Zpos (digits2_pos m) + k.
Proof. intros Hk E. rewrite !digits_log2, E, Z.log2_mul_pow2 by lia. lia. Qed.

Lemma shift_mul k m : Zpos (Pos.iter xO m k) = Zpos m * 2 ^ Zpos k.
Proof.
  induction k as [|k IH] using Pos.peano_ind; [rewrite Z.pow_1_r; cbn [Pos.iter]; lia|].
  rewrite Pos.iter_succ, Pos2Z.inj_succ, Z.pow_succ_r, Pos2Z.inj_xO, IH by lia. lia.
Qed.

(** A mantissa of 53 bits is kept as it is. *)
Lemma round_aux_full s m e : Zpos (digits2_pos m) = 53 -> -1000 <= e <= 0 ->
  binary_round_aux 53 1024 s (Zpos m) e loc_Exact = S754_finite s m e.
Proof.
  intros Hd He. unfold binary_round_aux.
  assert (Hs : shr_fexp 53 1024 (Zpos m) e loc_Exact = (shr_record_of_loc (Zpos m) loc_Exact, e)).
  { unfold shr_fexp, fexp, SpecFloat.emin. cbn [Zdigits2]. rewrite Hd. replace (Z.max (53 + e - 53) (3 - 1024 - 53) - e) with 0 by lia. done. }
  rewrite Hs. cbn [shr_record_of_loc shr_m loc_of_shr_record round_nearest_even]. rewrite Hs. cbn [shr_record_of_loc shr_m].
  destruct (Z.leb_spec e (1024 - 53)); [done|lia].
Qed.

(** A mantissa of at most 53 bits is normalised, not rounded. *)
Lemma round_small s m e : Zpos (digits2_pos m) <= 53 -> -900 <= e <= 0 ->
  binary_round 53 1024 s m e = S754_finite s (full m) (e - (53 - Zpos (digits2_pos m))).
Proof.
  intros Hd He. unfold binary_round, shl_align, fexp, SpecFloat.emin.
  replace (Z.max (Zpos (digits2_pos m) + e - 53) (3 - 1024 - 53) - e) with (Zpos (digits2_pos m) - 53) by lia.
  destruct (Zpos (digits2_pos m) - 53) as [|d|d] eqn:E; [|lia|].
  - assert (Ef : full m = m). { unfold full. replace (53 - Zpos (digits2_pos m)) with 0 by lia. by rewrite Z.pow_0_r, Z.mul_1_r. }
    rewrite Ef, round_aux_full by lia. f_equal. lia.
  - assert (Ef : Pos.iter xO m d = full m).
    { unfold full. replace (53 - Zpos (digits2_pos m)) with (Zpos d) by lia. by rewrite <- shift_mul. }
    rewrite round_aux_full; [f_equal; [done|lia]| |lia].
    rewrite (digits_mul_pow2 m _ (Zpos d)); [lia|lia|apply shift_mul].
Qed.

Lemma full_mul_pow2 m n k : 0 <= k -> Zpos n = Zpos m * 2 ^ k -> Zpos (digits2_pos n) <= 53 -> full n = full m.
Proof.
  intros Hk E Hd. pose proof (digits_mul_pow2 m n k Hk E). unfold full. f_equal. rewrite E, H, <- Z.mul_assoc, <- Z.pow_add_r by lia.
  do 2 f_equal. lia.
Qed.

(** The sign and mantissa of an integer, scaled: the same double. *)
Lemma normalize_scaled z k : 0 <= k -> Z.abs z * 2 ^ k < 2 ^ 53 -> k <= 53 ->
  binary_normalize 53 1024 (z * 2 ^ k) (- k) false = f64_of_Z z.
Proof.
  intros Hk Hz Hk'. unfold f64_of_Z, binary_normalize.
  assert (G : forall s p q, Zpos q = Zpos p * 2 ^ k -> Zpos p * 2 ^ k < 2 ^ 53 -> binary_round 53 1024 s q (- k) = binary_round 53 1024 s p 0).
  { intros s p q E Hp. pose proof (digits_mul_pow2 p q k Hk E) as Hd.
    assert (Zpos (digits2_pos q) <= 53). { rewrite digits_log2, E. apply Z.log2_lt_pow2 in Hp; [lia|]. pose proof (Z.pow_pos_nonneg 2 k). nia. }
    rewrite !round_small by lia. f_equal; [by apply (full_mul_pow2 p q k)|lia]. }
  pose proof (Z.pow_pos_nonneg 2 k ltac:(lia) Hk) as Hp. destruct z as [|p|p].
  - done.
  - destruct (Zpos p * 2 ^ k) as [|q|q] eqn:E; [lia| |lia]. apply G; [by symmetry|]. exact Hz.
  - destruct (Zneg p * 2 ^ k) as [|q|q] eqn:E; [lia|lia|]. apply G; [|cbn [Z.abs] in Hz; lia].
    apply (f_equal Z.opp) in E. rewrite <- Z.mul_opp_l in E. cbn [Z.opp] in E. by symmetry.
Qed.

Lemma f64_of_pos p : Zpos p < 2 ^ 53 -> f64_of_Z (Zpos p) = S754_finite false (full p) (Z.log2 (Zpos p) - 52).
Proof.
  intros H. unfold f64_of_Z, binary_normalize. apply Z.log2_lt_pow2 in H; [|lia]. pose proof (digits_log2 p). rewrite round_small by lia. f_equal. lia.
Qed.

(** The difference of two integers of the same binade is exact. *)
Lemma f64_sub_exact a b : 0 < a < 2 ^ 53 -> 0 < b < 2 ^ 53 -> Z.log2 a = Z.log2 b ->
  f64_sub (f64_of_Z a) (f64_of_Z b) = f64_of_Z (a - b).
Proof.
  intros Ha Hb Hl. destruct a as [|p|p]; try lia. destruct b as [|q|q]; try lia.
  rewrite !f64_of_pos by lia. rewrite <- Hl. set (k := 52 - Z.log2 (Zpos p)).
  assert (Hk : 0 <= k <= 52) by (destruct Ha as [_ Ha]; apply Z.log2_lt_pow2 in Ha; [|lia]; pose proof (Z.log2_nonneg (Zpos p)); lia).
  unfold f64_sub, SFsub. replace (Z.log2 (Zpos p) - 52) with (- k) by lia. rewrite Z.min_id. unfold shl_align. rewrite Z.sub_diag.
  cbn [cond_Zopp fst].
  assert (Hf : forall r, Z.log2 (Zpos r) = Z.log2 (Zpos p) -> Zpos (full r) = Zpos r * 2 ^ k).
  { intros r Hr. unfold full. rewrite digits_log2, Hr. replace (53 - (Z.log2 (Zpos p) + 1)) with k by lia.
    rewrite Z2Pos.id; [done|]. apply Z.mul_pos_pos; [lia|]. apply Z.pow_pos_nonneg; lia. }
  rewrite !Hf by done. rewrite <- Z.mul_sub_distr_r. apply normalize_scaled; [lia| |lia].
  assert (Hu : forall r, Z.log2 (Zpos r) = Z.log2 (Zpos p) -> 0 < Zpos r * 2 ^ k < 2 ^ 53).
  { intros r Hr. pose proof (Z.log2_spec (Zpos r) ltac:(lia)) as [_ H]. rewrite Hr in H.
    pose proof (Z.pow_pos_nonneg 2 k ltac:(lia) ltac:(lia)). split; [nia|].
    replace 53 with (Z.succ (Z.log2 (Zpos p)) + k) by lia. rewrite Z.pow_add_r by (pose proof (Z.log2_nonneg (Zpos p)); lia). nia. }
  pose proof (Hu p eq_refl). pose proof (Hu q (eq_sym Hl)). rewrite <- (Z.abs_eq (2 ^ k)) by lia. rewrite <- Z.abs_mul, Z.mul_sub_distr_r. lia.
Qed.
