(* ===== verification/MeshEvent.v ===== *)
(** struct mesh_event (src/mesh_packet.h, lines 25-228), the record every
    decoder fills and every consumer reads, and the effects of a decode. *)

From S2P Require Import Prelude CFloat.

Local Open Scope Z_scope.

(** The 16-byte Meshtastic radio header (src/meshtastic.h). *)
Record mesh_header := mk_mesh_header {
  hd_to : Z;
  hd_from : Z;
  hd_packet_id : Z;
  hd_flags : Z;
  hd_channel : Z;
  hd_next_hop : Z;
  hd_relay_node : Z;
}.

(** Strings are C strings without their NUL, byte arrays lists of bytes;
    [ev_payload] is the slice [payload[0 .. payload_len)].  The floats handed
    through are bit patterns, the computed ones [spec_float]. *)
Record mesh_event := mk_event {
  ev_header : mesh_header;
  ev_hop_limit : Z;
  ev_hop_start : Z;
  ev_want_ack : bool;
  ev_via_mqtt : bool;
  ev_decrypted : bool;
  ev_channel_name : list Z;
  ev_rssi_db : Z;
  ev_snr_db : Z;
  ev_sf : Z;
  ev_cr : Z;
  ev_bw_hz : Z;
  ev_freq_hz : Z;
  ev_preset_name : list Z;
  ev_slot_id : Z;
  ev_has_crc : bool;
  ev_payload_crc_ok : bool;
  ev_crc_corrected : bool;
  ev_crc_corrected_bits : Z;
  ev_cfo_hz : Z;
  ev_station_t_ns : Z;
  ev_station_t_acc_ns : Z;
  ev_preamble_lock_sample_idx : Z;
  ev_sample_rate_sps : Z;
  ev_preamble_lock_sample_frac : Z;
  ev_preamble_lock_t_ns : Z;
  ev_portnum : Z;
  ev_payload : list Z;
  ev_raw_hex : list Z;
  ev_request_id : Z;
  ev_reply_id : Z;
  ev_want_response : bool;
  ev_is_meshcore : bool;
  ev_mc_route_type : Z;
  ev_mc_payload_type : Z;
  ev_mc_payload_ver : Z;
  ev_mc_type_name : list Z;
  ev_mc_dest_hash : Z;
  ev_mc_src_hash : Z;
  ev_mc_channel_hash : Z;
  ev_mc_timestamp : Z;
  ev_mc_node_name : list Z;
  ev_mc_text : list Z;
  ev_mc_pubkey : list Z;
  ev_mc_path_hop_count : Z;
  ev_mc_path_snrs : list Z;
  ev_mc_path_hashes : list Z;
  ev_mc_hdr_path_hash_count : Z;
  ev_mc_hdr_path_hash_size : Z;
  ev_mc_hdr_path : list Z;              (* mc_hdr_path[0 .. mc_hdr_path_len) *)
  ev_mc_sig_valid : bool;
  ev_mc_data_type : Z;
  ev_mc_data_len : Z;
  ev_mc_txt_type : Z;
  ev_mc_telemetry_json : list Z;
  ev_mc_adv_type : Z;
  ev_mc_has_latlon : bool;
  ev_mc_lat : spec_float;
  ev_mc_lon : spec_float;
  ev_mc_has_name : bool;
  ev_mc_extra1 : Z;
  ev_mc_extra2 : Z;
  ev_mc_has_region_scope : bool;
  ev_mc_region_code1 : Z;
  ev_mc_region_code2 : Z;
  ev_mc_region_name : list Z;
  ev_mc_multipart_remaining : Z;
  ev_mc_multipart_inner_type : Z;
  ev_mc_ctl_subtype : list Z;
  ev_mc_ctl_tag : Z;
  ev_mc_ctl_filter : Z;
  ev_mc_ctl_since : Z;
  ev_mc_ctl_snr : spec_float;
}.

(** [memset(&ev, 0, sizeof(ev))] *)
Definition event_zero : mesh_event :=
  mk_event (mk_mesh_header 0 0 0 0 0 0 0) 0 0 false false false [] 0 0 0 0 0 0 [] 0 false false false
    0 0 0 0 0 0 0 0 0 [] [] 0 0 false false 0 0 0 [] 0 0 0 0 [] [] [] 0 [] [] 0 0 [] false 0 0 0 []
    0 false f_zero f_zero false 0 0 false 0 0 [] 0 0 [] 0 0 0 f_zero.

(** [hex_dump]: lowercase hex of as many bytes as fit in [char out[max]]. *)
Definition hex_digit (n : Z) : Z := if n <? 10 then 48 + n else 97 + (n - 10).

Fixpoint hex_dump (p : list Z) (o max : nat) : list Z :=
  match p with
  | [] => []
  | b :: t =>
      if (o + 2 <? max)%nat
      then hex_digit (Z.land (Z.shiftr b 4) 0xF) :: hex_digit (Z.land b 0xF) :: hex_dump t (o + 2) max
      else []
  end.
