(* ===== verification/Meshtastic.v ===== *)
(** Protocol constants and lookups of src/meshtastic.h and src/meshtastic.c:
    modem presets, region names, port names, the default key and the channel
    hash. *)

From Stdlib Require Import String.
From S2P Require Import Prelude CString.

Local Open Scope string_scope.
Local Open Scope Z_scope.

Definition MESH_HEADER_BYTES : nat := 16.
Definition MESH_FLAG_HOP_LIMIT_MASK : Z := 0x07.
Definition MESH_FLAG_WANT_ACK_MASK : Z := 0x08.
Definition MESH_FLAG_VIA_MQTT_MASK : Z := 0x10.
Definition MESH_FLAG_HOP_START_MASK : Z := 0xE0.
Definition MESH_FLAG_HOP_START_SHIFT : Z := 5.

(** ** Modem presets *)

Record mesh_preset_def := mk_preset {
  mp_name : list Z;
  mp_channel_name : list Z;
  mp_spread_factor : Z;
  mp_coding_rate : Z;
  mp_bw_hz_narrow : Z;
  mp_bw_hz_wide : Z;
  mp_preamble_sub : Z;
  mp_preamble_24 : Z;
}.

Definition MESH_PRESETS : list mesh_preset_def :=
  [ mk_preset (str "SHORT_TURBO")   (str "ShortTurbo")  7 5 500000 1625000 16 12;
    mk_preset (str "SHORT_FAST")    (str "ShortFast")   7 5 250000  812000 16 12;
    mk_preset (str "SHORT_SLOW")    (str "ShortSlow")   8 5 250000  812000 16 12;
    mk_preset (str "MEDIUM_FAST")   (str "MediumFast")  9 5 250000  812000 16 12;
    mk_preset (str "MEDIUM_SLOW")   (str "MediumSlow") 10 5 250000  812000 16 12;
    mk_preset (str "LONG_FAST")     (str "LongFast")   11 5 250000  812000 16 12;
    mk_preset (str "LONG_MODERATE") (str "LongMod")    11 8 125000  406000 16 12;
    mk_preset (str "LONG_SLOW")     (str "LongSlow")   12 8 125000  406000 16 12;
    mk_preset (str "LONG_TURBO")    (str "LongTurbo")  11 8 500000 1625000 16 12 ].

(** The preset a received (sf, cr, bw) belongs to: the first match. *)
Definition preset_of_radio (sf cr bw_hz : Z) : option mesh_preset_def :=
  find (fun d => (mp_spread_factor d =? sf) && (mp_coding_rate d =? cr) &&
                 ((mp_bw_hz_narrow d =? bw_hz) || (mp_bw_hz_wide d =? bw_hz))) MESH_PRESETS.

(** ** Name lookup *)

Fixpoint strcasematch (a b : list Z) : bool :=
  match a, b with
  | x :: a, y :: b => if tolower x =? tolower y then strcasematch a b else false
  | [], [] => true
  | _, _ => false
  end.

(** The copy loop into a [char buf[32]]: separators dropped, lower case, at
    most 31 characters kept. *)
Definition squash (sep : Z -> bool) (name : list Z) : list Z :=
  take 31 (map tolower (List.filter (fun c => negb (sep c)) name)).

Definition is_name_sep (c : Z) : bool := (c =? 95) || (c =? 45) || (c =? 32).
Definition is_underscore (c : Z) : bool := c =? 95.

Definition mesh_lookup_preset (name : list Z) : option mesh_preset_def :=
  let buf := squash is_name_sep name in
  find (fun p => strcmp_eq buf (squash is_underscore (mp_name p)) ||
                 strcasematch buf (mp_channel_name p)) MESH_PRESETS.

Definition MESH_REGION_NAMES : list (list Z) :=
  map str [ "US"; "EU_433"; "EU_868"; "CN"; "JP"; "ANZ"; "ANZ_433"; "RU"; "KR"; "TW"; "IN";
            "NZ_865"; "TH"; "UA_433"; "UA_868"; "MY_433"; "MY_919"; "SG_923"; "PH_433"; "PH_868";
            "PH_915"; "KZ_433"; "KZ_863"; "NP_865"; "BR_902"; "LORA_24" ].

(** The index of the region in MESH_REGIONS. *)
Fixpoint find_index (p : list Z -> bool) (l : list (list Z)) : option nat :=
  match l with
  | [] => None
  | x :: t => if p x then Some O else option_map S (find_index p t)
  end.

Definition mesh_lookup_region (name : list Z) : option nat :=
  let aliased :=
    if strcasematch name (str "EU868") then str "EU_868"
    else if strcasematch name (str "EU433") then str "EU_433"
    else if strcasematch name (str "LORA24") || strcasematch name (str "LORA_2G4") then str "LORA_24"
    else name in
  find_index (strcasematch aliased) MESH_REGION_NAMES.

(** ** Ports *)

Definition PORT_NAMES : list (Z * list Z) :=
  [ (0, str "UNKNOWN_APP"); (1, str "TEXT_MESSAGE_APP"); (2, str "REMOTE_HARDWARE_APP");
    (3, str "POSITION_APP"); (4, str "NODEINFO_APP"); (5, str "ROUTING_APP"); (6, str "ADMIN_APP");
    (7, str "TEXT_MESSAGE_COMPRESSED_APP"); (8, str "WAYPOINT_APP"); (9, str "AUDIO_APP");
    (10, str "DETECTION_SENSOR_APP"); (11, str "ALERT_APP"); (12, str "KEY_VERIFICATION_APP");
    (32, str "REPLY_APP"); (33, str "IP_TUNNEL_APP"); (34, str "PAXCOUNTER_APP");
    (35, str "STORE_FORWARD_PLUSPLUS_APP"); (36, str "NODE_STATUS_APP"); (64, str "SERIAL_APP");
    (65, str "STORE_FORWARD_APP"); (66, str "RANGE_TEST_APP"); (67, str "TELEMETRY_APP");
    (68, str "ZPS_APP"); (69, str "SIMULATOR_APP"); (70, str "TRACEROUTE_APP");
    (71, str "NEIGHBORINFO_APP"); (72, str "ATAK_PLUGIN"); (73, str "MAP_REPORT_APP");
    (74, str "POWERSTRESS_APP"); (76, str "RETICULUM_TUNNEL_APP"); (256, str "PRIVATE_APP");
    (257, str "ATAK_FORWARDER") ].

Definition mesh_port_name (port : Z) : list Z :=
  match find (fun p => fst p =? port) PORT_NAMES with
  | Some p => snd p
  | None => str "UNKNOWN"
  end.

(** ** Keys *)

Definition MESH_DEFAULT_PSK : list Z :=
  [0xd4; 0xf1; 0xbb; 0x3a; 0x20; 0x29; 0x07; 0x59; 0xf0; 0xbc; 0xff; 0xab; 0xcf; 0x4e; 0x69; 0x01].

Definition xor_hash_bytes (p : list Z) : Z := fold_left Z.lxor p 0.

(** A NULL name or key is the empty list. *)
Definition mesh_channel_hash (channel_name psk : list Z) : Z :=
  Z.lxor (xor_hash_bytes channel_name) (xor_hash_bytes psk).

(** ** Properties *)

Lemma xor_hash_range p : bytes_ok p -> is_byte (xor_hash_bytes p).
Proof.
  intros Hp. enough (W : forall a, is_byte a -> is_byte (fold_left Z.lxor p a))
    by (apply W; unfold is_byte; lia).
  induction Hp as [|x p Hx Hp IH]; intros a Ha; [done|].
  cbn [fold_left]. apply IH. by apply (lxor_range 8).
Qed.

Lemma xor_fold_app a b c : fold_left Z.lxor (a ++ b) c = Z.lxor (fold_left Z.lxor a c) (fold_left Z.lxor b 0).
Proof.
  rewrite fold_left_app. generalize (fold_left Z.lxor a c). clear. intros x.
  rewrite <- (Z.lxor_0_r x) at 1. generalize 0. induction b as [|y b IH]; intros z; [done|].
  cbn [fold_left]. by rewrite Z.lxor_assoc, IH.
Qed.

Lemma strcasematch_spec a b : strcasematch a b = strcasecmp_eq a b.
Proof.
  unfold strcasecmp_eq. revert b. induction a as [|x a IH]; intros [|y b]; try done.
  cbn [strcasematch map list_eqb]. destruct (_ =? _); [apply IH|done].
Qed.

(** Each of the nine presets is found under its table name and under its
    channel name, and its (sf, cr, bandwidth) triple, narrow or wide,
    identifies it uniquely: the first match in table order is the preset
    itself. *)
Theorem presets_identified p :
  In p MESH_PRESETS ->
  mesh_lookup_preset (mp_name p) = Some p /\ mesh_lookup_preset (mp_channel_name p) = Some p /\
  preset_of_radio (mp_spread_factor p) (mp_coding_rate p) (mp_bw_hz_narrow p) = Some p /\
  preset_of_radio (mp_spread_factor p) (mp_coding_rate p) (mp_bw_hz_wide p) = Some p.
Proof.
  intros H. repeat (destruct H as [<- | H]; [repeat split; reflexivity|]). destruct H.
Qed.

Lemma presets_identified_witness :
  mesh_lookup_preset (str "LONG_FAST") = Some (mk_preset (str "LONG_FAST") (str "LongFast") 11 5 250000 812000 16 12).
Proof.
  apply (presets_identified (mk_preset (str "LONG_FAST") (str "LongFast") 11 5 250000 812000 16 12)).
  right. right. right. right. right. left. reflexivity.
Defined.
