(* ===== verification/Keyset.v ===== *)
(** The Meshtastic key store (src/keyset.c, src/keyset.h): hex and base64
    decoding, the 256-bucket dispatch table on the channel hash, and the
    --keys specification parser. *)

From Stdlib Require Import String.
From coqutil Require Import Z.bitblast.
From S2P Require Import Prelude CString Meshtastic.

Local Open Scope Z_scope.

Definition KEYSET_MAX_ENTRIES : nat := 64.
Definition KEYSET_MAX_NAME : nat := 32.
Definition KEYSET_MAX_PSK_BYTES : nat := 32.
Definition BUCKET_SLOTS : nat := 8.

(** ** Text decoding; [None] is the return value -1 *)

Definition hex_nibble (c : Z) : option Z :=
  if (48 <=? c) && (c <=? 57) then Some (c - 48)
  else if (97 <=? c) && (c <=? 102) then Some (c - 97 + 10)
  else if (65 <=? c) && (c <=? 70) then Some (c - 65 + 10)
  else None.

Fixpoint hex_pairs (s : list Z) : option (list Z) :=
  match s with
  | [] => Some []
  | h :: l :: t =>
      match hex_nibble h, hex_nibble l with
      | Some hi, Some lo =>
          match hex_pairs t with
          | Some r => Some (u8 (Z.lor (Z.shiftl hi 4) lo) :: r)
          | None => None
          end
      | _, _ => None
      end
  | [_] => None
  end.

Definition hex_decode (hex : list Z) (max_out : nat) : option (list Z) :=
  if negb (length hex mod 2 =? 0)%nat then None
  else if (max_out <? length hex / 2)%nat then None
  else hex_pairs hex.

Definition b64_value (c : Z) : option Z :=
  if (65 <=? c) && (c <=? 90) then Some (c - 65)
  else if (97 <=? c) && (c <=? 122) then Some (c - 97 + 26)
  else if (48 <=? c) && (c <=? 57) then Some (c - 48 + 52)
  else if (c =? 43) || (c =? 45) then Some 62
  else if (c =? 47) || (c =? 95) then Some 63
  else None.

(** '=', newline, carriage return and space are trimmed from the end. *)
Definition b64_pad (c : Z) : bool := (c =? 61) || (c =? 10) || (c =? 13) || (c =? 32).

Fixpoint b64_loop (max_out : nat) (accum bits : Z) (out : list Z) (s : list Z) : option (list Z) :=
  match s with
  | [] => Some out
  | c :: t =>
      match b64_value c with
      | None => None
      | Some v =>
          let accum := u32 (Z.lor (u32 (Z.shiftl accum 6)) v) in
          let bits := bits + 6 in
          if 8 <=? bits then
            let bits := bits - 8 in
            if (max_out <=? length out)%nat then None
            else b64_loop max_out accum bits (out ++ [u8 (Z.land (Z.shiftr accum bits) 0xff)]) t
          else b64_loop max_out accum bits out t
      end
  end.

Definition b64_decode (b64 : list Z) (max_out : nat) : option (list Z) :=
  b64_loop max_out 0 0 [] (trim_end b64_pad b64).

(** ** The store *)

Record keyset_entry := mk_entry {
  ke_channel_name : list Z;
  ke_psk : list Z;          (* its length is psk_len *)
  ke_channel_hash : Z;
}.

(** [ks_entries] is entries[0 .. n_entries); the lock is left out. *)
Record keyset := mk_keyset {
  ks_entries : list keyset_entry;
  ks_buckets : list (list Z);
}.

Definition keyset_create : keyset :=
  mk_keyset [] (replicate 256 (replicate BUCKET_SLOTS (-1))).

(** Writes [idx] into the first free slot among the first seven and
    re-terminates; [None]: bucket full. *)
Fixpoint bucket_push_from (fuel i : nat) (bucket : list Z) (idx : Z) : option (list Z) :=
  match fuel with
  | O => None
  | S k =>
      if nth i bucket 0 =? -1 then Some (<[(i + 1)%nat := -1]> (<[i := idx]> bucket))
      else bucket_push_from k (i + 1) bucket idx
  end.

Definition bucket_push (k : keyset) (hash : Z) (idx : Z) : option keyset :=
  match bucket_push_from (BUCKET_SLOTS - 1) 0 (nth (Z.to_nat hash) (ks_buckets k) []) idx with
  | Some b => Some (mk_keyset (ks_entries k) (<[Z.to_nat hash := b]> (ks_buckets k)))
  | None => None
  end.

Definition psk_len_ok (n : nat) : bool := (n =? 0)%nat || (n =? 16)%nat || (n =? 32)%nat.

(** The common tail of keyset_add and keyset_add_raw: append the entry and
    dispatch it; nothing changes when a table is full. *)
Definition keyset_insert (k : keyset) (e : keyset_entry) : bool * keyset :=
  if (KEYSET_MAX_ENTRIES <=? length (ks_entries k))%nat then (false, k)
  else
    let idx := Z.of_nat (length (ks_entries k)) in
    match bucket_push k (ke_channel_hash e) (i8 idx) with
    | Some k' => (true, mk_keyset (ks_entries k' ++ [e]) (ks_buckets k'))
    | None => (false, k)
    end.

(** [true] is the return value 0.  A NULL or empty name becomes LongFast. *)
Definition keyset_add (k : keyset) (channel_name psk : list Z) : bool * keyset :=
  if negb (psk_len_ok (length psk)) then (false, k)
  else if (KEYSET_MAX_PSK_BYTES <? length psk)%nat then (false, k)
  else
    let name := copy_to KEYSET_MAX_NAME (match channel_name with [] => str "LongFast" | _ => channel_name end) in
    keyset_insert k (mk_entry name psk (Z.lxor (xor_hash_bytes name) (xor_hash_bytes psk))).

Definition keyset_add_raw (k : keyset) (channel_hash : Z) (psk display_name : list Z) : bool * keyset :=
  if negb (psk_len_ok (length psk)) then (false, k)
  else if (KEYSET_MAX_PSK_BYTES <? length psk)%nat then (false, k)
  else
    let name := copy_to KEYSET_MAX_NAME
                  (match display_name with [] => str "(discovered)" | _ => display_name end) in
    keyset_insert k (mk_entry name psk channel_hash).

Definition make_simple_psk (n : Z) : list Z := <[15%nat := u8 n]> MESH_DEFAULT_PSK.

Definition keyset_add_psk (k : keyset) (channel_name psk : list Z) : bool * keyset :=
  match psk with
  | [b] => keyset_add k channel_name (<[15%nat := b]> MESH_DEFAULT_PSK)
  | _ => if psk_len_ok (length psk) then keyset_add k channel_name psk else (false, k)
  end.

Definition keyset_lookup (k : keyset) (channel_hash : Z) : list Z :=
  nth (Z.to_nat channel_hash) (ks_buckets k) [].

Definition keyset_get (k : keyset) (index : Z) : option keyset_entry :=
  if (index <? 0) || (Z.of_nat (length (ks_entries k)) <=? index) then None
  else ks_entries k !! Z.to_nat index.

(** ** Specifications *)

(** The nine adds of a bare "default": -1 if any fails. *)
Definition add_default_presets (k : keyset) : bool * keyset :=
  fold_left (fun st p => let '(rc, k) := st in
               let '(ok, k') := keyset_add k (mp_channel_name p) (make_simple_psk 1) in
               (rc && ok, k'))
            MESH_PRESETS (true, k).

(** The key of a specification value, before keyset_add_psk. *)
Definition spec_psk (value : list Z) : option (list Z) :=
  let nonempty (r : option (list Z)) := match r with Some (b :: t) => Some (b :: t) | _ => None end in
  if strcasecmp_eq value (str "default") then Some (make_simple_psk 1)
  else if strcasecmp_eq value (str "none") || strcasecmp_eq value (str "unencrypted") then Some []
  else if strncasecmp_eq 6 value (str "simple") && is_digit (at_ value 6) then
    let n := atoi (drop 6 value) in
    if (n <? 0) || (255 <? n) then None
    else if n =? 0 then Some [] else Some (make_simple_psk n)
  else if strncasecmp_eq 4 value (str "hex:") then nonempty (hex_decode (drop 4 value) 32)
  else if strncasecmp_eq 7 value (str "base64:") then nonempty (b64_decode (drop 7 value) 32)
  else match nonempty (b64_decode value 32) with
       | Some psk => Some psk
       | None => nonempty (hex_decode value 32)
       end.

Definition keyset_parse_spec (k : keyset) (spec : list Z) : bool * keyset :=
  let spec := skip_while is_blank spec in
  match spec with
  | [] => (true, k)
  | _ =>
      let '(named, name, value) :=
        match strchr 61 spec with
        | Some (pre, post) => (true, trim_end is_blank (take (KEYSET_MAX_NAME - 1) pre), skip_while is_blank post)
        | None => (false, [], spec)
        end in
      if strcasecmp_eq value (str "default") && negb named then add_default_presets k
      else match spec_psk value with
           | Some psk => keyset_add_psk k (if named : bool then name else []) psk
           | None => (false, k)
           end
  end.

Definition is_list_sep (c : Z) : bool := (c =? 44) || (c =? 59) || (c =? 10).

(** The number of specifications accepted, and the store. *)
Definition keyset_parse_csv (k : keyset) (csv : list Z) : Z * keyset :=
  fold_left (fun st tok => let '(ok, k) := st in
               match skip_while is_blank tok with
               | [] => (ok, k)
               | tok => let '(r, k) := keyset_parse_spec k tok in (if r then ok + 1 else ok, k)
               end)
            (strtok_all is_list_sep csv) (0, k).

(** The key store against its abstract specification (a bounded list of
    entries, looked up by hash in insertion order), and round trips of the
    key text formats. *)

(** ** Bucket representation *)

(** Indices, in insertion order, of the entries with hash [h]. *)
Definition hash_is (h : Z) (e : keyset_entry) : bool := ke_channel_hash e =? h.

Fixpoint indices_from (i : nat) (h : Z) (es : list keyset_entry) : list nat :=
  match es with
  | [] => []
  | e :: t => if hash_is h e then i :: indices_from (S i) h t else indices_from (S i) h t
  end.

Definition bucket_rep (b : list Z) (idxs : list nat) : Prop :=
  length b = 8%nat /\ exists junk, b = map Z.of_nat idxs ++ -1 :: junk.

(** The concrete store represents its own list of entries. *)
Definition ks_rep (k : keyset) : Prop :=
  (length (ks_entries k) <= KEYSET_MAX_ENTRIES)%nat /\ length (ks_buckets k) = 256%nat /\
  forall h, 0 <= h < 256 -> bucket_rep (keyset_lookup k h) (indices_from 0 h (ks_entries k)).

(** What the dispatch loops visit for a hash byte: the bucket up to its
    terminator, each index resolved. *)
Fixpoint take_valid (b : list Z) : list Z :=
  match b with
  | [] => []
  | i :: t => if 0 <=? i then i :: take_valid t else []
  end.

Definition candidates (k : keyset) (h : Z) : list keyset_entry :=
  omap (keyset_get k) (take_valid (keyset_lookup k h)).

Lemma take_valid_rep idxs junk : take_valid (map Z.of_nat idxs ++ -1 :: junk) = map Z.of_nat idxs.
Proof.
  induction idxs as [|i idxs IH]; [done|]. cbn [map app take_valid].
  replace (0 <=? Z.of_nat i) with true by (symmetry; apply Z.leb_le; lia). by rewrite IH.
Qed.

Lemma indices_from_app i h es e :
  indices_from i h (es ++ [e]) =
  indices_from i h es ++ (if hash_is h e then [(i + length es)%nat] else []).
Proof.
  revert i. induction es as [|x es IH]; intros i; cbn [indices_from app length].
  - rewrite Nat.add_0_r. by destruct (hash_is h e).
  - rewrite IH. replace (S i + length es)%nat with (i + S (length es))%nat by lia.
    by destruct (hash_is h x).
Qed.

Lemma indices_from_lt i h es x : In x (indices_from i h es) -> (i <= x < i + length es)%nat.
Proof.
  revert i. induction es as [|e es IH]; intros i; cbn [indices_from length]; [done|].
  destruct (hash_is h e); cbn [In]; [intros [<-|H]; [lia|]|intros H]; apply IH in H; lia.
Qed.

Lemma indices_resolve pre h es :
  omap (keyset_get (mk_keyset (pre ++ es) [])) (map Z.of_nat (indices_from (length pre) h es)) =
  List.filter (hash_is h) es.
Proof.
  revert pre. induction es as [|e es IH]; intros pre; [done|]. cbn [indices_from List.filter].
  specialize (IH (pre ++ [e])). rewrite <- app_assoc, length_app in IH. cbn [length app] in IH.
  rewrite Nat.add_1_r in IH. destruct (hash_is h e); [|exact IH].
  cbn [map omap list_omap].
  replace (keyset_get (mk_keyset (pre ++ e :: es) []) (Z.of_nat (length pre))) with (Some e).
  - cbn. f_equal. exact IH.
  - unfold keyset_get. cbn [ks_entries]. rewrite length_app. cbn [length].
    destruct (Z.ltb_spec (Z.of_nat (length pre)) 0); [lia|].
    destruct (Z.leb_spec (Z.of_nat (length pre + S (length es))) (Z.of_nat (length pre))); [lia|].
    cbn [orb]. rewrite Nat2Z.id, lookup_app_r, Nat.sub_diag by lia. done.
Qed.

Lemma candidates_rep k h :
  ks_rep k -> 0 <= h < 256 -> candidates k h = List.filter (hash_is h) (ks_entries k).
Proof.
  intros (_ & _ & Hb) Hh. destruct (Hb h Hh) as (_ & junk & E). unfold candidates.
  rewrite E, take_valid_rep. exact (indices_resolve [] h (ks_entries k)).
Qed.

(** ** Pushing into a bucket *)

Lemma nth_idx idxs t i :
  (i < length idxs)%nat -> (nth i (map Z.of_nat idxs ++ t) 0 =? -1) = false.
Proof.
  intros Hi. rewrite app_nth1 by (by rewrite length_map).
  rewrite (nth_indep _ 0 (Z.of_nat 0)), map_nth by (by rewrite length_map).
  apply Z.eqb_neq. lia.
Qed.

Lemma push_from_scan fuel i b idxs junk idx :
  b = map Z.of_nat idxs ++ -1 :: junk -> (i <= length idxs)%nat ->
  bucket_push_from fuel i b idx =
  if (length idxs <? i + fuel)%nat
  then Some (<[(length idxs + 1)%nat := -1]> (<[length idxs := idx]> b)) else None.
Proof.
  intros Hb. revert i. induction fuel as [|fuel IH]; intros i Hi; cbn [bucket_push_from].
  { replace (length idxs <? i + 0)%nat with false by (symmetry; apply Nat.ltb_ge; lia). done. }
  destruct (Nat.eq_dec i (length idxs)) as [->|Hne].
  - rewrite Hb at 1. rewrite app_nth2 by (by rewrite length_map). rewrite length_map, Nat.sub_diag.
    cbn [nth]. change (-1 =? -1) with true. cbn match.
    by replace (length idxs <? length idxs + S fuel)%nat with true by (symmetry; apply Nat.ltb_lt; lia).
  - rewrite Hb at 1. rewrite nth_idx, IH by lia. by replace (i + 1 + fuel)%nat with (i + S fuel)%nat by lia.
Qed.

Lemma push_rep b idxs idx :
  bucket_rep b idxs ->
  match bucket_push_from 7 0 b (Z.of_nat idx) with
  | Some b' => (length idxs < 7)%nat /\ bucket_rep b' (idxs ++ [idx])
  | None => length idxs = 7%nat
  end.
Proof.
  intros (Hl & junk & E). rewrite (push_from_scan 7 0 b idxs junk) by (done || lia). cbn [Nat.add].
  assert (Hj : (length idxs + S (length junk) = 8)%nat).
  { rewrite E, length_app, length_map in Hl. done. }
  destruct (Nat.ltb_spec (length idxs) 7); [|lia]. split; [done|]. split; [by rewrite !length_insert|].
  destruct junk as [|x junk]; [cbn in Hj; lia|]. exists junk. rewrite E.
  rewrite insert_app_r_alt by (rewrite length_map; lia). rewrite length_map, Nat.sub_diag. cbn [insert list_insert].
  rewrite insert_app_r_alt by (rewrite length_map; lia). rewrite length_map.
  replace (length idxs + 1 - length idxs)%nat with 1%nat by lia. cbn [insert list_insert].
  rewrite map_app. cbn [map]. by rewrite <- app_assoc.
Qed.

Lemma i8_small z : 0 <= z < 128 -> i8 z = z.
Proof. intros. unfold i8, swrap. rewrite Z.mod_small by lia. lia. Qed.

(** Inserting an entry: the abstract specification. *)
Definition insert_allowed (es : list keyset_entry) (h : Z) : bool :=
  (length es <? KEYSET_MAX_ENTRIES)%nat && (length (List.filter (hash_is h) es) <? 7)%nat.

Lemma indices_count i h es : length (indices_from i h es) = length (List.filter (hash_is h) es).
Proof.
  revert i. induction es as [|e es IH]; intros i; [done|]. cbn [indices_from List.filter].
  destruct (hash_is h e); cbn [length]; by rewrite IH.
Qed.

Lemma lookup_nth h (l : list (list Z)) : (h < length l)%nat -> l !! h = Some (nth h l []).
Proof.
  intros. destruct (l !! h) eqn:E; [by rewrite (nth_lookup_Some _ _ _ _ E)|].
  apply lookup_ge_None in E. lia.
Qed.

Lemma keyset_insert_spec k e :
  ks_rep k -> 0 <= ke_channel_hash e < 256 ->
  let '(ok, k') := keyset_insert k e in
  ok = insert_allowed (ks_entries k) (ke_channel_hash e) /\ ks_rep k' /\
  (if ok then ks_entries k' = ks_entries k ++ [e] else k' = k).
Proof.
  intros Hk Hh. pose proof Hk as (Hn & Hlb & Hb). unfold keyset_insert, insert_allowed.
  destruct (Nat.leb_spec KEYSET_MAX_ENTRIES (length (ks_entries k))) as [Hf|Hf].
  { replace (length (ks_entries k) <? KEYSET_MAX_ENTRIES)%nat with false by (symmetry; apply Nat.ltb_ge; lia). done. }
  replace (length (ks_entries k) <? KEYSET_MAX_ENTRIES)%nat with true by (symmetry; apply Nat.ltb_lt; lia).
  unfold KEYSET_MAX_ENTRIES in Hf. rewrite i8_small by lia. cbn [andb]. unfold bucket_push.
  set (h := ke_channel_hash e) in *. pose proof (push_rep _ _ (length (ks_entries k)) (Hb h Hh)) as Hp.
  rewrite indices_count in Hp. unfold keyset_lookup in Hp. change (BUCKET_SLOTS - 1)%nat with 7%nat.
  destruct (bucket_push_from 7 0 _ _) as [b'|].
  - destruct Hp as [Hc Hr]. replace (_ <? 7)%nat with true by (symmetry; by apply Nat.ltb_lt).
    cbn [ks_entries ks_buckets]. split; [done|]. split; [|done].
    split; [cbn [ks_entries]; rewrite length_app; unfold KEYSET_MAX_ENTRIES; cbn; lia|].
    split; [cbn [ks_buckets]; by rewrite length_insert|].
    intros h' Hh'. unfold keyset_lookup. cbn [ks_entries ks_buckets]. rewrite indices_from_app.
    rewrite nth_lookup. destruct (Z.eq_dec h' h) as [->|Hne].
    + rewrite list_lookup_insert_eq by lia. unfold hash_is. fold h. rewrite Z.eqb_refl. exact Hr.
    + rewrite list_lookup_insert_ne by lia. rewrite lookup_nth by lia. cbn.
      unfold hash_is. fold h. rewrite (proj2 (Z.eqb_neq h h')) by done. rewrite app_nil_r.
      exact (Hb h' Hh').
  - rewrite Hp. done.
Qed.

Lemma keyset_create_rep : ks_rep keyset_create.
Proof.
  split; [unfold KEYSET_MAX_ENTRIES; cbn; lia|]. split; [apply length_replicate|]. intros h Hh.
  unfold keyset_lookup, keyset_create. cbn [ks_buckets ks_entries indices_from].
  rewrite nth_lookup, lookup_replicate_2 by lia. split; [done|]. by exists (replicate 7 (-1)).
Qed.

(** Every public operation goes through the insertion. *)
Lemma copy_name_cstr n s : is_cstr s -> is_cstr (copy_to n s).
Proof. apply Forall_take. Qed.

Lemma cstr_bytes s : is_cstr s -> bytes_ok s.
Proof. intros H. eapply Forall_impl; [exact H|]. unfold is_byte. cbn. intros. lia. Qed.

Lemma add_hash_range name psk :
  is_cstr name -> bytes_ok psk -> 0 <= Z.lxor (xor_hash_bytes name) (xor_hash_bytes psk) < 256.
Proof.
  intros Hn Hp. apply (lxor_range 8); [lia| |]; apply xor_hash_range; [by apply cstr_bytes|done].
Qed.

Lemma str_cstr_default (name d : list Z) :
  is_cstr name -> is_cstr d -> is_cstr (match name with [] => d | _ => name end).
Proof. by destruct name. Qed.

Definition stored_name (name : list Z) : list Z :=
  copy_to KEYSET_MAX_NAME (match name with [] => str "LongFast" | _ => name end).

Lemma stored_name_cstr name : is_cstr name -> is_cstr (stored_name name).
Proof. intros. apply copy_name_cstr, str_cstr_default; [done|]. cstr_tac. Qed.

(** The key store refines a bounded list of entries.  From any store that
    represents its entry list, adding a (name, key) pair succeeds exactly when
    the key has 0, 16 or 32 bytes, fewer than 64 entries are stored and fewer
    than 7 of them share the new entry's channel hash; then the entry is
    appended, otherwise nothing changes; the store still represents its
    entries, and looking up any hash byte yields precisely the stored entries
    with this hash, in insertion order. *)
Theorem keyset_refines_list k name psk :
  ks_rep k -> is_cstr name -> bytes_ok psk ->
  let e := mk_entry (stored_name name) psk (mesh_channel_hash (stored_name name) psk) in
  let '(ok, k') := keyset_add k name psk in
  ok = psk_len_ok (length psk) && insert_allowed (ks_entries k) (ke_channel_hash e) /\
  ks_rep k' /\ ks_entries k' = (if ok then ks_entries k ++ [e] else ks_entries k) /\
  forall h, 0 <= h < 256 -> candidates k' h = List.filter (hash_is h) (ks_entries k').
Proof.
  intros Hk Hn Hp. cbn zeta. unfold keyset_add, mesh_channel_hash.
  destruct (psk_len_ok (length psk)) eqn:El; cbn [negb andb].
  2: { split; [done|]. split; [done|]. split; [done|]. intros. by apply candidates_rep. }
  assert (Hl : (length psk <= 32)%nat).
  { unfold psk_len_ok in El. apply orb_prop in El as [El|El]; [apply orb_prop in El as [El|El]|]; zb; lia. }
  unfold KEYSET_MAX_PSK_BYTES. rewrite (proj2 (Nat.ltb_ge 32 (length psk))) by lia. fold (stored_name name).
  pose proof (keyset_insert_spec k (mk_entry (stored_name name) psk
    (Z.lxor (xor_hash_bytes (stored_name name)) (xor_hash_bytes psk))) Hk
    (add_hash_range _ _ (stored_name_cstr _ Hn) Hp)) as H.
  destruct (keyset_insert _ _) as [ok k']. destruct H as (H1 & H2 & H3).
  split; [done|]. split; [done|]. split; [by destruct ok; [|subst]|]. intros. by apply candidates_rep.
Qed.

Lemma keyset_refines_list_witness :
  let '(ok, k') := keyset_add keyset_create (str "LongFast") MESH_DEFAULT_PSK in
  ok = true /\ candidates k' 8 = [mk_entry (str "LongFast") MESH_DEFAULT_PSK 8].
Proof.
  pose proof (keyset_refines_list keyset_create (str "LongFast") MESH_DEFAULT_PSK keyset_create_rep
    ltac:(cstr_tac) ltac:(bytes_tac)) as H. cbn zeta in H.
  destruct (keyset_add keyset_create (str "LongFast") MESH_DEFAULT_PSK) as [ok k'].
  destruct H as (H1 & H2 & H3 & H4). assert (E : ok = true) by (rewrite H1; reflexivity).
  split; [exact E|]. rewrite H4, H3, E; [reflexivity|lia].
Defined.

(** ** Hex *)

Definition hex_digits : list Z := str "0123456789abcdef".
Definition hex_of_byte (b : Z) : list Z :=
  [at_ hex_digits (Z.to_nat (Z.shiftr b 4)); at_ hex_digits (Z.to_nat (Z.land b 15))].
Definition hex_encode (l : list Z) : list Z := flat_map hex_of_byte l.

Lemma hex_nibble_digit n : 0 <= n < 16 -> hex_nibble (at_ hex_digits (Z.to_nat n)) = Some n.
Proof.
  intros Hn. assert (H : forallb (fun n => match hex_nibble (at_ hex_digits n) with
    | Some v => v =? Z.of_nat n | None => false end) (seq 0 16) = true) by reflexivity.
  rewrite forallb_forall in H. specialize (H (Z.to_nat n) ltac:(apply in_seq; lia)).
  destruct (hex_nibble _); [|done]. apply Z.eqb_eq in H. f_equal. lia.
Qed.

Lemma byte_split b : is_byte b -> 0 <= Z.shiftr b 4 < 16 /\ 0 <= Z.land b 15 < 16 /\
  u8 (Z.lor (Z.shiftl (Z.shiftr b 4) 4) (Z.land b 15)) = b.
Proof.
  intros Hb. unfold is_byte in Hb. rewrite (Z.shiftr_div_pow2 b 4) by lia. change (2 ^ 4) with 16.
  split; [split; [apply Z.div_pos; lia|apply Z.div_lt_upper_bound; lia]|].
  split; [by apply (land_range 4)|].
  change 15 with (Z.ones 4). rewrite Z.land_ones, Z.shiftl_mul_pow2 by lia. change (2 ^ 4) with 16.
  rewrite Z.lor_comm. rewrite <- (Z.shiftl_mul_pow2 _ 4) by lia.
  replace (Z.lor (b mod 16) (Z.shiftl (b / 16) 4)) with b; [by apply (wrap_small 8)|].
  symmetry. rewrite Z.lor_comm. apply Z.bits_inj'. intros i Hi.
  rewrite Z.lor_spec, Z.shiftl_spec by lia. change 16 with (2 ^ 4). destruct (Z.lt_ge_cases i 4).
  - rewrite Z.testbit_neg_r by lia. by rewrite Z.mod_pow2_bits_low.
  - rewrite Z.mod_pow2_bits_high, Z.div_pow2_bits, orb_false_r by lia. f_equal. lia.
Qed.

Lemma hex_pairs_encode l : bytes_ok l -> hex_pairs (hex_encode l) = Some l.
Proof.
  induction 1 as [|b l Hb Hl IH]; [done|]. unfold hex_encode in *. cbn [flat_map hex_of_byte app hex_pairs].
  destruct (byte_split b Hb) as (H1 & H2 & H3). rewrite !hex_nibble_digit by done.
  by rewrite IH, H3.
Qed.

Lemma hex_pairs_bytes n : forall s l, (length s <= n)%nat -> hex_pairs s = Some l -> bytes_ok l.
Proof.
  induction n as [|n IH]; intros s l Hn.
  - destruct s; [|cbn in Hn; lia]. intros [= <-]. apply Forall_nil_2.
  - destruct s as [|h [|l0 t]]; cbn [hex_pairs]; [intros [= <-]; apply Forall_nil_2|done|].
    destruct (hex_nibble h), (hex_nibble l0); try done. destruct (hex_pairs t) as [r|] eqn:E; [|done]. intros [= <-].
    apply Forall_cons_2; [apply wrap_range; lia|]. apply (IH t r); [cbn in Hn; lia|done].
Qed.

Lemma hex_encode_length l : length (hex_encode l) = (2 * length l)%nat.
Proof. unfold hex_encode. induction l as [|b l IH]; [done|]. cbn [flat_map hex_of_byte app length]. lia. Qed.

Lemma hex_decode_encode l n : bytes_ok l -> (length l <= n)%nat -> hex_decode (hex_encode l) n = Some l.
Proof.
  intros Hl Hn. unfold hex_decode. rewrite hex_encode_length, (Nat.mul_comm 2), Nat.Div0.mod_mul, Nat.div_mul by lia.
  cbn [Nat.eqb negb]. rewrite (proj2 (Nat.ltb_ge _ _)) by lia. by apply hex_pairs_encode.
Qed.

(** ** Base64 *)

Definition b64_alphabet : list Z := str "ABCDEFGHIJKLMNOPQRSTUVWXYZabcdefghijklmnopqrstuvwxyz0123456789+/".
Definition b64_char (v : Z) : Z := at_ b64_alphabet (Z.to_nat v).

Fixpoint b64_body (l : list Z) : list Z :=
  match l with
  | a :: b :: c :: t =>
      [b64_char (Z.shiftr a 2); b64_char (Z.lor (Z.shiftl (Z.land a 3) 4) (Z.shiftr b 4));
       b64_char (Z.lor (Z.shiftl (Z.land b 15) 2) (Z.shiftr c 6)); b64_char (Z.land c 63)] ++ b64_body t
  | [a; b] =>
      [b64_char (Z.shiftr a 2); b64_char (Z.lor (Z.shiftl (Z.land a 3) 4) (Z.shiftr b 4));
       b64_char (Z.shiftl (Z.land b 15) 2)]
  | [a] => [b64_char (Z.shiftr a 2); b64_char (Z.shiftl (Z.land a 3) 4)]
  | [] => []
  end.

(** The standard encoding, padded with '=' to a multiple of four. *)
Definition b64_padding (l : list Z) : list Z :=
  match (length l mod 3)%nat with 1%nat => [61; 61] | 2%nat => [61] | _ => [] end.
Definition b64_encode (l : list Z) : list Z := b64_body l ++ b64_padding l.

Lemma b64_value_char v :
  0 <= v < 64 -> b64_value (b64_char v) = Some v /\ b64_pad (b64_char v) = false /\ b64_char v <> 61.
Proof.
  intros Hv. assert (H : forallb (fun n => match b64_value (at_ b64_alphabet n) with
    | Some v => v =? Z.of_nat n | None => false end && negb (b64_pad (at_ b64_alphabet n)) &&
      negb (at_ b64_alphabet n =? 61)) (seq 0 64) = true)
    by reflexivity.
  rewrite forallb_forall in H. specialize (H (Z.to_nat v) ltac:(apply in_seq; lia)). unfold b64_char.
  apply andb_prop in H as [H H3]. apply andb_prop in H as [H1 H2]. zb. split; [|done].
  destruct (b64_value _); [|done]. apply Z.eqb_eq in H1. f_equal. lia.
Qed.

(** Shifting a sextet into the accumulator. *)
Definition b64_push (acc v : Z) : Z := u32 (Z.lor (u32 (Z.shiftl acc 6)) v).

Lemma b64_push_bits acc v j :
  0 <= v < 64 -> 0 <= j < 32 ->
  Z.testbit (b64_push acc v) j = if j <? 6 then Z.testbit v j else Z.testbit acc (j - 6).
Proof.
  intros Hv Hj. unfold b64_push, u32. rewrite wrap_bits, Z.lor_spec, wrap_bits, Z.shiftl_spec by lia.
  rewrite (proj2 (Z.ltb_lt j 32)) by lia. cbn [andb]. destruct (Z.ltb_spec j 6).
  - by rewrite (Z.testbit_neg_r acc) by lia.
  - by rewrite (bits_above 6 v j), orb_false_r by lia.
Qed.

(** The byte taken out of the accumulator with [bits] bits left. *)
Lemma b64_take_byte acc bits b :
  0 <= bits <= 24 -> is_byte b ->
  (forall i, 0 <= i < 8 -> Z.testbit acc (i + bits) = Z.testbit b i) ->
  u8 (Z.land (Z.shiftr acc bits) 0xff) = b.
Proof.
  intros Hb Hr H. apply Z.bits_inj'. intros i Hi. unfold u8. rewrite wrap_bits by lia.
  change 0xff with (Z.ones 8). rewrite Z.land_spec, Z.testbit_ones_nonneg, Z.shiftr_spec by lia.
  destruct (Z.ltb_spec i 8); [|by rewrite (bits_above 8 b i)].
  rewrite andb_true_r. apply H. lia.
Qed.

Lemma sextet0 a : is_byte a -> 0 <= Z.shiftr a 2 < 64.
Proof.
  unfold is_byte. intros. rewrite Z.shiftr_div_pow2 by lia. change (2 ^ 2) with 4.
  split; [apply Z.div_pos; lia|apply Z.div_lt_upper_bound; lia].
Qed.

Lemma sextet_hi a m k : 0 <= k -> 0 <= m < 2 ^ (6 - k) -> k <= 6 -> 0 <= Z.shiftl (Z.land a m) k < 64.
Proof. intros. apply (shiftl_range 6 k); [lia|]. apply land_range; lia. Qed.

Lemma sextet_lo b k : is_byte b -> 2 <= k <= 8 -> 0 <= Z.shiftr b k < 64.
Proof.
  unfold is_byte. intros Hb Hk. rewrite Z.shiftr_div_pow2 by lia.
  assert (4 <= 2 ^ k) by (change 4 with (2 ^ 2); apply Z.pow_le_mono_r; lia).
  split; [apply Z.div_pos; lia|]. apply Z.div_lt_upper_bound; lia.
Qed.

Lemma sextet1 a b : is_byte a -> is_byte b -> 0 <= Z.lor (Z.shiftl (Z.land a 3) 4) (Z.shiftr b 4) < 64.
Proof. intros. apply (lor_range 6); [lia|apply sextet_hi; lia|apply sextet_lo; [done|lia]]. Qed.

Lemma sextet2 b c : is_byte b -> is_byte c -> 0 <= Z.lor (Z.shiftl (Z.land b 15) 2) (Z.shiftr c 6) < 64.
Proof. intros. apply (lor_range 6); [lia|apply sextet_hi; lia|apply sextet_lo; [done|lia]]. Qed.

Lemma sextet3 c : 0 <= Z.land c 63 < 64.
Proof. by apply (land_range 6). Qed.

Lemma group_byte0 acc a v1 :
  is_byte a -> 0 <= v1 < 64 -> Z.shiftr v1 4 = Z.land a 3 ->
  u8 (Z.land (Z.shiftr (b64_push (b64_push acc (Z.shiftr a 2)) v1) 4) 0xff) = a.
Proof.
  intros Ha Hv E. pose proof (sextet0 a Ha). apply b64_take_byte; [lia|done|].
  assert (Hlow : forall j, 0 <= j -> Z.testbit v1 (j + 4) = Z.testbit a j && Z.testbit 3 j).
  { intros j Hj. rewrite <- Z.shiftr_spec, E, Z.land_spec by lia. done. }
  intros i Hi. rewrite b64_push_bits by lia. destruct (Z.ltb_spec (i + 4) 6).
  - rewrite Hlow by lia. assert (Hc : i = 0 \/ i = 1) by lia.
    destruct Hc as [-> | ->]; apply andb_true_r.
  - rewrite b64_push_bits by lia. destruct (Z.ltb_spec (i + 4 - 6) 6); [|lia].
    rewrite Z.shiftr_spec by lia. f_equal. lia.
Qed.

Lemma group_byte1 acc b v1 v2 :
  is_byte b -> 0 <= v1 < 64 -> 0 <= v2 < 64 -> Z.land v1 15 = Z.shiftr b 4 -> Z.shiftr v2 2 = Z.land b 15 ->
  u8 (Z.land (Z.shiftr (b64_push (b64_push acc v1) v2) 2) 0xff) = b.
Proof.
  intros Hb H1 H2 E1 E2. apply b64_take_byte; [lia|done|]. intros i Hi.
  rewrite b64_push_bits by lia. destruct (Z.ltb_spec (i + 2) 6).
  - rewrite <- Z.shiftr_spec, E2, Z.land_spec by lia. change 15 with (Z.ones 4).
    rewrite Z.testbit_ones_nonneg, (proj2 (Z.ltb_lt i 4)) by lia. apply andb_true_r.
  - rewrite b64_push_bits by lia. destruct (Z.ltb_spec (i + 2 - 6) 6); [|lia].
    assert (Hx : Z.testbit (Z.land v1 15) (i + 2 - 6) = Z.testbit v1 (i + 2 - 6)).
    { change 15 with (Z.ones 4). rewrite Z.land_spec, Z.testbit_ones_nonneg, (proj2 (Z.ltb_lt _ 4)) by lia.
      apply andb_true_r. }
    rewrite <- Hx, E1, Z.shiftr_spec by lia. f_equal. lia.
Qed.

Lemma group_byte2 acc c v2 :
  is_byte c -> 0 <= v2 < 64 -> Z.land v2 3 = Z.shiftr c 6 ->
  u8 (Z.land (Z.shiftr (b64_push (b64_push acc v2) (Z.land c 63)) 0) 0xff) = c.
Proof.
  intros Hc H2 E2. pose proof (sextet3 c). apply b64_take_byte; [lia|done|]. intros i Hi.
  rewrite Z.add_0_r, b64_push_bits by lia. destruct (Z.ltb_spec i 6).
  - rewrite Z.land_spec. change 63 with (Z.ones 6).
    rewrite Z.testbit_ones_nonneg, (proj2 (Z.ltb_lt i 6)) by lia. apply andb_true_r.
  - rewrite b64_push_bits by lia. destruct (Z.ltb_spec (i - 6) 6); [|lia].
    assert (Hx : Z.testbit (Z.land v2 3) (i - 6) = Z.testbit v2 (i - 6)).
    { change 3 with (Z.ones 2). rewrite Z.land_spec, Z.testbit_ones_nonneg, (proj2 (Z.ltb_lt _ 2)) by lia.
      apply andb_true_r. }
    rewrite <- Hx, E2, Z.shiftr_spec by lia. f_equal. lia.
Qed.

(** The fields of a joined sextet. *)
Lemma join_high x k y : 0 <= k -> 0 <= y < 2 ^ k -> Z.shiftr (Z.lor (Z.shiftl x k) y) k = x.
Proof.
  intros Hk Hy. rewrite Z.shiftr_lor, Z.shiftr_shiftl_l, Z.sub_diag, Z.shiftl_0_r by lia.
  rewrite (Z.shiftr_div_pow2 y), Z.div_small by lia. apply Z.lor_0_r.
Qed.

Lemma join_low x k y : 0 <= k -> 0 <= y < 2 ^ k -> Z.land (Z.lor (Z.shiftl x k) y) (Z.ones k) = y.
Proof.
  intros Hk Hy. rewrite Z.land_ones by lia. rewrite Z.lor_comm. apply Z.bits_inj'. intros i Hi.
  destruct (Z.lt_ge_cases i k).
  - rewrite Z.mod_pow2_bits_low, Z.lor_spec, Z.shiftl_spec_low by lia. apply orb_false_r.
  - rewrite Z.mod_pow2_bits_high by lia. symmetry. by apply (bits_above k).
Qed.

Lemma nib_hi b : is_byte b -> 0 <= Z.shiftr b 4 < 2 ^ 4.
Proof. intros. by apply (byte_split b). Qed.

Lemma top2 c : is_byte c -> 0 <= Z.shiftr c 6 < 2 ^ 2.
Proof.
  unfold is_byte. intros. rewrite Z.shiftr_div_pow2 by lia. change (2 ^ 6) with 64.
  split; [apply Z.div_pos; lia|apply Z.div_lt_upper_bound; lia].
Qed.

(** One sextet of the loop. *)
Lemma b64_step max acc bits out v t :
  0 <= v < 64 ->
  b64_loop max acc bits out (b64_char v :: t) =
  if 8 <=? bits + 6 then
    if (max <=? length out)%nat then None
    else b64_loop max (b64_push acc v) (bits + 6 - 8)
           (out ++ [u8 (Z.land (Z.shiftr (b64_push acc v) (bits + 6 - 8)) 0xff)]) t
  else b64_loop max (b64_push acc v) (bits + 6) out t.
Proof. intros Hv. cbn [b64_loop]. by destruct (b64_value_char v Hv) as (-> & _). Qed.

(** Runs the loop over the sextets of one group. *)
Ltac b64_steps :=
  rewrite !b64_step by (auto using sextet0 || (apply sextet_hi; lia));
  change (8 <=? 0 + 6) with false; cbn match;
  change (8 <=? 0 + 6 + 6) with true; cbn match;
  rewrite (proj2 (Nat.leb_gt _ _)) by lia; change (0 + 6 + 6 - 8) with 4;
  try (change (8 <=? 4 + 6) with true; cbn match;
       rewrite (proj2 (Nat.leb_gt _ _)) by (rewrite length_app; cbn [length]; lia);
       change (4 + 6 - 8) with 2);
  try (change (8 <=? 2 + 6) with true; cbn match;
       rewrite (proj2 (Nat.leb_gt _ _)) by (rewrite !length_app; cbn [length]; lia);
       change (2 + 6 - 8) with 0).

Lemma b64_loop_body l : forall max acc out,
  bytes_ok l -> (length out + length l <= max)%nat -> b64_loop max acc 0 out (b64_body l) = Some (out ++ l).
Proof.
  induction l as [l IH] using (well_founded_induction (Wf_nat.well_founded_ltof _ (@length Z))).
  intros max acc out Hl Hm. destruct l as [|a [|b [|c t]]].
  - cbn. by rewrite app_nil_r.
  - apply Forall_cons in Hl as [Ha _]. cbn [b64_body length] in *.
    b64_steps. rewrite group_byte0; [done|done|apply sextet_hi; lia|].
    by rewrite Z.shiftr_shiftl_l, Z.shiftl_0_r by lia.
  - apply Forall_cons in Hl as [Ha Hl]. apply Forall_cons in Hl as [Hb _]. cbn [b64_body length] in *.
    pose proof (sextet1 a b Ha Hb). b64_steps.
    rewrite group_byte0, (group_byte1 _ b); try done; try (apply sextet_hi; lia).
    + by rewrite <- app_assoc.
    + apply (join_low _ 4); [lia|by apply nib_hi].
    + by rewrite Z.shiftr_shiftl_l, Z.shiftl_0_r by lia.
    + apply join_high; [lia|by apply nib_hi].
  - apply Forall_cons in Hl as [Ha Hl]. apply Forall_cons in Hl as [Hb Hl].
    apply Forall_cons in Hl as [Hc Hl]. cbn [b64_body length app] in *.
    pose proof (sextet1 a b Ha Hb). pose proof (sextet2 b c Hb Hc). pose proof (sextet3 c). b64_steps.
    rewrite group_byte0, (group_byte1 _ b), group_byte2; try done.
    + rewrite IH; [|unfold Wf_nat.ltof; cbn; lia|done|rewrite !length_app; cbn; lia].
      by rewrite <- !app_assoc.
    + apply (join_low _ 2); [lia|by apply top2].
    + apply (join_low _ 4); [lia|by apply nib_hi].
    + apply join_high; [lia|by apply top2].
    + apply join_high; [lia|by apply nib_hi].
Qed.

Lemma b64_char_ok v : 0 <= v < 64 -> b64_pad (b64_char v) = false /\ b64_char v <> 61.
Proof. intros H. by destruct (b64_value_char v H) as (_ & H2 & H3). Qed.

Lemma b64_body_chars l : bytes_ok l -> Forall (fun c => b64_pad c = false /\ c <> 61) (b64_body l).
Proof.
  induction l as [l IH] using (well_founded_induction (Wf_nat.well_founded_ltof _ (@length Z))).
  intros Hl. destruct l as [|a [|b [|c t]]]; [apply Forall_nil_2|..].
  - apply Forall_cons in Hl as [Ha _]. repeat apply Forall_cons_2; try apply Forall_nil_2;
      apply b64_char_ok; auto using sextet0; apply sextet_hi; lia.
  - apply Forall_cons in Hl as [Ha Hl]. apply Forall_cons in Hl as [Hb _].
    repeat apply Forall_cons_2; try apply Forall_nil_2; apply b64_char_ok; auto using sextet0, sextet1;
      apply sextet_hi; lia.
  - apply Forall_cons in Hl as [Ha Hl]. apply Forall_cons in Hl as [Hb Hl].
    apply Forall_cons in Hl as [Hc Hl]. cbn [b64_body app].
    repeat apply Forall_cons_2; try (apply b64_char_ok; auto using sextet0, sextet1, sextet2, sextet3).
    apply IH; [unfold Wf_nat.ltof; cbn; lia|done].
Qed.

Lemma skip_while_all p a b : Forall (fun c => p c = true) a -> skip_while p (a ++ b) = skip_while p b.
Proof. induction 1 as [|c a Hc Ha IH]; [done|]. cbn [app skip_while]. by rewrite Hc. Qed.

Lemma skip_while_none p a : Forall (fun c => p c = false) a -> skip_while p a = a.
Proof. intros H. destruct a as [|c a]; [done|]. cbn [skip_while]. apply Forall_cons in H as [-> _]. done. Qed.

Lemma Forall_rev_list {A} (P : A -> Prop) l : Forall P l -> Forall P (rev l).
Proof. rewrite !List.Forall_forall. intros H x Hx. apply H. by apply in_rev. Qed.

Lemma trim_end_pad p a b :
  Forall (fun c => p c = false) a -> Forall (fun c => p c = true) b -> trim_end p (a ++ b) = a.
Proof.
  intros Ha Hb. unfold trim_end. rewrite rev_app_distr, skip_while_all, skip_while_none by
    (by apply Forall_rev_list). apply rev_involutive.
Qed.

Lemma b64_padding_pad l : Forall (fun c => b64_pad c = true) (b64_padding l).
Proof. unfold b64_padding. destruct (length l mod 3)%nat as [|[|[|n]]]; repeat constructor. Qed.

Lemma b64_decode_encode l n : bytes_ok l -> (length l <= n)%nat -> b64_decode (b64_encode l) n = Some l.
Proof.
  intros Hl Hn. unfold b64_decode, b64_encode. rewrite trim_end_pad.
  - by apply b64_loop_body.
  - eapply Forall_impl; [by apply b64_body_chars|]. by intros c [H _].
  - apply b64_padding_pad.
Qed.

(** The key text formats round-trip: hex and padded base64 of any key of
    up to 32 bytes decode to exactly the key. *)
Theorem key_text_round_trip key :
  bytes_ok key -> (length key <= 32)%nat ->
  hex_decode (hex_encode key) 32 = Some key /\ b64_decode (b64_encode key) 32 = Some key.
Proof. intros. split; [by apply hex_decode_encode|by apply b64_decode_encode]. Qed.

Lemma key_text_round_trip_witness :
  hex_decode (hex_encode MESH_DEFAULT_PSK) 32 = Some MESH_DEFAULT_PSK /\
  b64_decode (b64_encode MESH_DEFAULT_PSK) 32 = Some MESH_DEFAULT_PSK.
Proof. apply key_text_round_trip; [bytes_tac|cbn; lia]. Defined.

(** ** Specifications *)

Lemma strchr_app c a b : Forall (fun x => x <> c) a -> strchr c (a ++ c :: b) = Some (a, b).
Proof.
  induction 1 as [|x a Hx Ha IH]; cbn [app strchr]; [by rewrite Z.eqb_refl|].
  rewrite (proj2 (Z.eqb_neq x c) Hx). by rewrite IH.
Qed.

Lemma body_no_eq l : bytes_ok l -> Forall (fun c => c <> 61) (b64_body l).
Proof. intros H. eapply Forall_impl; [by apply b64_body_chars|]. by intros c [_ ?]. Qed.

(** Keys of 16 and 32 bytes encode with padding. *)
Lemma key_padding key :
  (length key = 16 \/ length key = 32)%nat -> exists t, b64_padding key = 61 :: t /\ (t = [] \/ t = [61]).
Proof.
  unfold b64_padding. intros [-> | ->]; [exists [61]|exists []]; split; auto.
Qed.

Lemma add_psk_full k name key :
  (length key = 16 \/ length key = 32)%nat -> keyset_add_psk k name key = keyset_add k name key.
Proof.
  intros Hl. destruct key as [|a [|b key]]; [done|cbn in Hl; lia|]. unfold keyset_add_psk.
  replace (psk_len_ok _) with true; [done|]. unfold psk_len_ok. by destruct Hl as [-> | ->].
Qed.

Lemma strchr_none c a : Forall (fun x => x <> c) a -> strchr c a = None.
Proof.
  induction 1 as [|x a Hx Ha IH]; cbn [strchr]; [done|].
  rewrite (proj2 (Z.eqb_neq x c) Hx). by rewrite IH.
Qed.

Lemma hex_encode_no_eq key : bytes_ok key -> Forall (fun c => c <> 61) (hex_encode key).
Proof.
  unfold hex_encode. induction 1 as [|b l Hb Hk IH]; [apply Forall_nil_2|].
  cbn [flat_map hex_of_byte app]. destruct (byte_split b Hb) as (H1 & H2 & _).
  repeat apply Forall_cons_2; [| |exact IH];
    [pose proof (hex_nibble_digit _ H1) as E|pose proof (hex_nibble_digit _ H2) as E];
    intros E2; rewrite E2 in E; discriminate E.
Qed.

Lemma nonempty_key (key : list Z) : (length key = 16 \/ length key = 32)%nat -> key <> [].
Proof. intros [H|H] ->; discriminate H. Qed.

Lemma spec_psk_hex key :
  bytes_ok key -> (length key = 16 \/ length key = 32)%nat ->
  spec_psk (str "hex:" ++ hex_encode key) = Some key.
Proof.
  intros Hk Hl. unfold spec_psk.
  change (match (match hex_decode (hex_encode key) 32 with Some (b :: t) => Some (b :: t) | _ => None end)
          with Some x => Some x | None => None end = Some key) ||
  change ((match hex_decode (hex_encode key) 32 with Some (b :: t) => Some (b :: t) | _ => None end) = Some key).
  rewrite hex_decode_encode by (done || lia). apply nonempty_key in Hl. by destruct key.
Qed.

Lemma spec_psk_base64 key :
  bytes_ok key -> (length key = 16 \/ length key = 32)%nat ->
  spec_psk (str "base64:" ++ b64_encode key) = Some key.
Proof.
  intros Hk Hl. unfold spec_psk.
  change ((match b64_decode (b64_encode key) 32 with Some (b :: t) => Some (b :: t) | _ => None end) = Some key).
  rewrite b64_decode_encode by (done || lia). apply nonempty_key in Hl. by destruct key.
Qed.

(** A key given as plain "base64:..." in the standard padded encoding, the
    documented form without a channel prefix, is rejected for every 16- and
    32-byte key: the '=' of the padding is taken for the separator of a
    channel name.  The same key is accepted in hex. *)
Theorem bare_padded_base64_rejected k key :
  bytes_ok key -> (length key = 16 \/ length key = 32)%nat ->
  keyset_parse_spec k (str "base64:" ++ b64_encode key) = (false, k) /\
  keyset_parse_spec k (str "hex:" ++ hex_encode key) = keyset_add k [] key.
Proof.
  intros Hk Hl. split.
  - destruct (key_padding key Hl) as (t & Ep & Ht). unfold b64_encode. rewrite Ep.
    unfold keyset_parse_spec. rewrite (app_assoc (str "base64:")).
    replace (skip_while is_blank ((str "base64:" ++ b64_body key) ++ 61 :: t))
      with ((str "base64:" ++ b64_body key) ++ 61 :: t) by done.
    rewrite strchr_app.
    2: { apply Forall_app_2; [|by apply body_no_eq]. repeat (apply Forall_cons_2; [cbn; lia|]). apply Forall_nil_2. }
    destruct Ht as [-> | ->]; rewrite andb_false_r; done.
  - unfold keyset_parse_spec.
    replace (skip_while is_blank (str "hex:" ++ hex_encode key)) with (str "hex:" ++ hex_encode key) by done.
    rewrite (strchr_none 61 (str "hex:" ++ hex_encode key)).
    2: { apply Forall_app_2; [|by apply hex_encode_no_eq]. repeat (apply Forall_cons_2; [cbn; lia|]). apply Forall_nil_2. }
    rewrite spec_psk_hex by done. rewrite <- (add_psk_full k [] key Hl). done.
Qed.

Lemma bare_padded_base64_rejected_witness :
  keyset_parse_spec keyset_create (str "base64:1PG7OiApB1nwvP+rz05pAQ==") = (false, keyset_create).
Proof.
  refine (proj1 (bare_padded_base64_rejected keyset_create MESH_DEFAULT_PSK _ _)); [bytes_tac|by left].
Defined.

(** A channel name as a user writes it before the '='. *)
Definition clean_name (name : list Z) : Prop :=
  is_cstr name /\ name <> [] /\ (length name < KEYSET_MAX_NAME)%nat /\
  Forall (fun c => c <> 61) name /\ Forall (fun c => is_blank c = false) name.

(** With the channel name in front, the padded base64 form of any 16- or
    32-byte key registers exactly this key under exactly this name, so the
    store then dispatches the channel's hash to it. *)
Theorem named_base64_accepted k name key :
  clean_name name -> bytes_ok key -> (length key = 16 \/ length key = 32)%nat ->
  keyset_parse_spec k (name ++ str "=base64:" ++ b64_encode key) = keyset_add k name key.
Proof.
  intros (Hc & Hne & Hlen & Heq & Hbl) Hk Hl. unfold keyset_parse_spec.
  replace (skip_while is_blank (name ++ str "=base64:" ++ b64_encode key))
    with (name ++ str "=base64:" ++ b64_encode key).
  2: { destruct name as [|c name]; [done|]. apply Forall_cons in Hbl as [Hb _].
       cbn [app skip_while]. by rewrite Hb. }
  change (str "=base64:") with (61 :: str "base64:"). rewrite <- app_comm_cons.
  rewrite strchr_app by done.
  replace (trim_end is_blank (take (KEYSET_MAX_NAME - 1) name)) with name.
  2: { unfold KEYSET_MAX_NAME in *. rewrite take_ge by lia. rewrite <- (app_nil_r name) at 2.
       symmetry. apply trim_end_pad; [done|apply Forall_nil_2]. }
  replace (skip_while is_blank (str "base64:" ++ b64_encode key)) with (str "base64:" ++ b64_encode key) by done.
  rewrite andb_false_r, spec_psk_base64, add_psk_full by done. by destruct name.
Qed.

Lemma named_base64_accepted_witness :
  keyset_parse_spec keyset_create (str "Home=base64:1PG7OiApB1nwvP+rz05pAQ==") =
  keyset_add keyset_create (str "Home") MESH_DEFAULT_PSK.
Proof.
  apply (named_base64_accepted keyset_create (str "Home") MESH_DEFAULT_PSK); [|bytes_tac|by left].
  repeat split; try done; try (cbn; unfold KEYSET_MAX_NAME; lia);
    repeat (apply Forall_cons_2; [cbn; (lia || done)|]); apply Forall_nil_2.
Defined.

(** "--keys=default" on an empty store registers the stock key under all
    nine preset channel names, in table order, each dispatched by its own
    channel hash. *)
Theorem default_spec_registers_presets :
  let '(ok, k) := keyset_parse_spec keyset_create (str "default") in
  ok = true /\
  ks_entries k = map (fun p => mk_entry (mp_channel_name p) MESH_DEFAULT_PSK
                                 (mesh_channel_hash (mp_channel_name p) MESH_DEFAULT_PSK)) MESH_PRESETS.
Proof. vm_compute. split; reflexivity. Qed.
