(* ===== verification/MeshPacket.v ===== *)
(** The Meshtastic packet decoder (src/mesh_packet.c): radio header, AES-CTR
    nonce, Data envelope, and mesh_packet_decode_with_radio, which tries the
    keys of the frame's channel hash in turn.

    AES-CTR itself (OpenSSL's EVP calls) is the parameter [evp_aes_ctr]. *)

From Stdlib Require Import String.
From S2P Require Import Prelude Protobuf PbMessage CFloat MeshEvent CString Meshtastic Keyset.

Local Open Scope Z_scope.

(** ** Radio header *)

Definition parse_mesh_header (frame : list Z) : mesh_header :=
  {| hd_to := rd_le32 frame;
     hd_from := rd_le32 (drop 4 frame);
     hd_packet_id := rd_le32 (drop 8 frame);
     hd_flags := at_ frame 12;
     hd_channel := at_ frame 13;
     hd_next_hop := at_ frame 14;
     hd_relay_node := at_ frame 15 |}.

Definition parse_header (frame : list Z) (ev : mesh_event) : mesh_event :=
  let h := parse_mesh_header frame in
  ev {{ ev_header := h;
        ev_hop_limit := Z.land (hd_flags h) MESH_FLAG_HOP_LIMIT_MASK;
        ev_hop_start := Z.shiftr (Z.land (hd_flags h) MESH_FLAG_HOP_START_MASK) MESH_FLAG_HOP_START_SHIFT;
        ev_want_ack := nz (Z.land (hd_flags h) MESH_FLAG_WANT_ACK_MASK);
        ev_via_mqtt := nz (Z.land (hd_flags h) MESH_FLAG_VIA_MQTT_MASK) }}.

(** ** Nonce *)

Definition build_nonce (packet_id from_node : Z) : list Z :=
  [ u8 packet_id; u8 (Z.shiftr packet_id 8); u8 (Z.shiftr packet_id 16); u8 (Z.shiftr packet_id 24);
    0; 0; 0; 0;
    u8 from_node; u8 (Z.shiftr from_node 8); u8 (Z.shiftr from_node 16); u8 (Z.shiftr from_node 24);
    0; 0; 0; 0 ].

(** ** Data envelope *)

(** The cases of the switch; fields 4, 5 and every other one are skipped. *)
Definition data_fields : list (Z * action mesh_event) :=
  [ (1, Varint (fun v ev => ev {{ ev_portnum := u32 v }}));
    (2, Bytes (fun b ev => ev {{ ev_payload := b }}));
    (3, Varint (fun v ev => ev {{ ev_want_response := nz v }}));
    (6, Fixed32 (fun v ev => ev {{ ev_request_id := v }}));
    (7, Fixed32 (fun v ev => ev {{ ev_reply_id := v }})) ].

Definition clear_envelope (ev : mesh_event) : mesh_event :=
  ev {{ ev_portnum := 0; ev_payload := []; ev_request_id := 0; ev_reply_id := 0;
        ev_want_response := false }}.

(** The return value and the event left behind. *)
Definition parse_data_envelope (buf : list Z) (ev : mesh_event) : bool * mesh_event :=
  match pb_message (table data_fields) buf (clear_envelope ev) with
  | (AtEnd, ev) => (negb (ev_portnum ev >? 1024), ev)
  | (_, ev) => (false, ev)
  end.

(** ** Decoding a frame *)

(** What the decode does to the outside: the key store's lock, the event
    callback, the hand-over to the PSK dictionary thread. *)
Inductive mesh_effect :=
| KeysRdLock
| KeysRdUnlock
| EmitEvent (ev : mesh_event)
| PskDictEnqueue (frame : list Z) (rssi_db snr_db sf cr bw_hz : Z).

Section Decode.
Variable evp_aes_ctr : list Z -> list Z -> list Z -> option (list Z).

(** [None] is the return value -1. *)
Definition aes_ctr_decrypt (key iv input : list Z) : option (list Z) :=
  if (length key =? 16)%nat || (length key =? 32)%nat then evp_aes_ctr key iv input else None.

(** The event before decryption. *)
Definition base_event (frame : list Z) (rssi_db snr_db sf cr bw_hz : Z) : mesh_event :=
  let ev := parse_header frame event_zero in
  let ev := ev {{ ev_rssi_db := rssi_db; ev_snr_db := snr_db; ev_sf := sf; ev_cr := cr;
                  ev_bw_hz := bw_hz; ev_slot_id := -1;
                  ev_raw_hex := hex_dump (take 256 frame) 0 513 }} in
  if sf >? 0 then
    match preset_of_radio sf cr bw_hz with
    | Some d => ev {{ ev_preset_name := copy_to 24 (mp_channel_name d) }}
    | None => ev
    end
  else ev.

(** One candidate key: the event to emit if its plaintext parses. *)
Definition try_key (ev : mesh_event) (nonce cipher : list Z) (e : keyset_entry) : option mesh_event :=
  let plaintext := match ke_psk e with
                   | [] => Some cipher
                   | psk => aes_ctr_decrypt psk nonce cipher
                   end in
  match plaintext with
  | None => None
  | Some p =>
      let '(ok, cand) := parse_data_envelope p ev in
      if ok then Some (cand {{ ev_decrypted := true; ev_channel_name := copy_to 32 (ke_channel_name e) }})
      else None
  end.

(** The loop over the bucket: up to the terminator, the first key that works. *)
Fixpoint try_bucket (keys : keyset) (ev : mesh_event) (nonce cipher bucket : list Z) : option mesh_event :=
  match bucket with
  | [] => None
  | i :: t =>
      if i <? 0 then None
      else match keyset_get keys i with
           | None => try_bucket keys ev nonce cipher t
           | Some e => match try_key ev nonce cipher e with
                       | Some cand => Some cand
                       | None => try_bucket keys ev nonce cipher t
                       end
           end
  end.

(** [cb] says whether a callback is given; [keys] is [None] for NULL. *)
Definition mesh_packet_decode_with_radio (frame : list Z) (rssi_db snr_db sf cr bw_hz : Z)
    (keys : option keyset) (cb : bool) : Z * list mesh_effect :=
  if (length frame <? MESH_HEADER_BYTES)%nat then (-1, [])
  else
    let ev := base_event frame rssi_db snr_db sf cr bw_hz in
    let cipher := drop MESH_HEADER_BYTES frame in
    let emit ev := if cb then [EmitEvent ev] else [] in
    if (length cipher =? 0)%nat then (0, emit (ev {{ ev_decrypted := true }}))
    else
      let found :=
        match keys with
        | None => None
        | Some k =>
            try_bucket k ev (build_nonce (hd_packet_id (ev_header ev)) (hd_from (ev_header ev)))
              (take 512 cipher) (take 8 (keyset_lookup k (hd_channel (ev_header ev))))
        end in
      let locked eff := match keys with None => eff | Some _ => [KeysRdLock] ++ eff ++ [KeysRdUnlock] end in
      match found with
      | Some cand => (0, locked (emit cand))
      | None =>
          (0, locked [] ++
              (if cb then [EmitEvent (ev {{ ev_decrypted := false }});
                           PskDictEnqueue frame rssi_db snr_db sf cr bw_hz] else []))
      end.

Definition mesh_packet_decode_with_meta (frame : list Z) (rssi_db snr_db : Z) keys cb :=
  mesh_packet_decode_with_radio frame rssi_db snr_db 0 0 0 keys cb.

Definition mesh_packet_decode (frame : list Z) keys cb :=
  mesh_packet_decode_with_radio frame 0 0 0 0 0 keys cb.

End Decode.
