(* ===== verification/MeshPacketFacts.v ===== *)
(** Correctness of the Meshtastic packet decoder: key selection against the
    key store's specification, the envelope's bounds, and the round trip of a
    frame built by a reference transmitter. *)

From Stdlib Require Import String.
From S2P Require Import Prelude Protobuf PbMessage CFloat MeshEvent CString Meshtastic Keyset.
From S2P Require Import MeshPacket.

Local Open Scope Z_scope.

(** ** Reference transmitter *)

Definition enc_mesh_header (h : mesh_header) : list Z :=
  enc_fixed 4 (hd_to h) ++ enc_fixed 4 (hd_from h) ++ enc_fixed 4 (hd_packet_id h) ++
  [hd_flags h; hd_channel h; hd_next_hop h; hd_relay_node h].

Definition header_ok (h : mesh_header) : Prop :=
  0 <= hd_to h < 2 ^ 32 /\ 0 <= hd_from h < 2 ^ 32 /\ 0 <= hd_packet_id h < 2 ^ 32 /\
  is_byte (hd_flags h) /\ is_byte (hd_channel h) /\ is_byte (hd_next_hop h) /\ is_byte (hd_relay_node h).

(** meshtastic.Data, with the fields the sniffer ignores as [d_other]. *)
Record mesh_data := mk_data {
  d_portnum : Z;
  d_payload : list Z;
  d_want_response : bool;
  d_request_id : Z;
  d_reply_id : Z;
  d_other : list (Z * wire);
}.

Definition data_wire (d : mesh_data) : list (Z * wire) :=
  [(1, WVarint (d_portnum d)); (2, WBytes (d_payload d));
   (3, WVarint (if d_want_response d then 1 else 0));
   (6, WFixed32 (d_request_id d)); (7, WFixed32 (d_reply_id d))] ++ d_other d.

Definition data_ok (d : mesh_data) : Prop :=
  0 <= d_portnum d <= 1024 /\ Z.of_nat (length (d_payload d)) < 2 ^ 64 /\
  0 <= d_request_id d < 2 ^ 32 /\ 0 <= d_reply_id d < 2 ^ 32 /\
  Forall field_ok (d_other d) /\
  Forall (fun f => table_find data_fields (fst f) = None) (d_other d).

Definition set_envelope (d : mesh_data) (ev : mesh_event) : mesh_event :=
  ev {{ ev_portnum := d_portnum d; ev_payload := d_payload d;
        ev_want_response := d_want_response d;
        ev_request_id := d_request_id d; ev_reply_id := d_reply_id d }}.

(** ** Header and envelope *)

Lemma rd_le32_combine p : rd_le32 p = le_combine [at_ p 0; at_ p 1; at_ p 2; at_ p 3].
Proof.
  unfold rd_le32, le_combine. apply Z.bits_inj'. intros i Hi.
  rewrite !Z.lor_spec, !Z.shiftl_spec by lia.
  destruct (Z.lt_ge_cases i 8); [rewrite !(Z.testbit_neg_r _ (i - 8)), !(Z.testbit_neg_r _ (i - 16)),
    !(Z.testbit_neg_r _ (i - 24)) by lia; by rewrite !orb_false_r|].
  rewrite !Z.lor_spec, !Z.shiftl_spec by lia.
  destruct (Z.lt_ge_cases i 16); [rewrite !(Z.testbit_neg_r _ (i - 8 - 8)), !(Z.testbit_neg_r _ (i - 16)),
    !(Z.testbit_neg_r _ (i - 24)) by lia; by rewrite !orb_false_r|].
  rewrite !Z.lor_spec, !Z.shiftl_spec by lia.
  replace (i - 8 - 8) with (i - 16) by lia.
  destruct (Z.lt_ge_cases i 24); [rewrite !(Z.testbit_neg_r _ (i - 16 - 8)), !(Z.testbit_neg_r _ (i - 24)) by lia;
    by rewrite !orb_false_r, orb_assoc|].
  rewrite !Z.lor_spec, !Z.shiftl_spec by lia.
  replace (i - 16 - 8) with (i - 24) by lia.
  rewrite Z.bits_0, orb_false_r. by rewrite !orb_assoc.
Qed.

Lemma rd_le32_enc v rest : 0 <= v < 2 ^ 32 -> rd_le32 (enc_fixed 4 v ++ rest) = v.
Proof.
  intros Hv. rewrite rd_le32_combine. rewrite <- (le_combine_enc 4 v) at 5 by (cbn; lia). reflexivity.
Qed.

Lemma parse_enc_header h rest : header_ok h -> parse_mesh_header (enc_mesh_header h ++ rest) = h.
Proof.
  intros (H1 & H2 & H3 & _). destruct h as [to from pid f c n r]. cbn in H1, H2, H3.
  unfold parse_mesh_header, enc_mesh_header. cbn [hd_to hd_from hd_packet_id hd_flags hd_channel hd_next_hop hd_relay_node].
  rewrite <- !app_assoc. f_equal.
  - by apply rd_le32_enc.
  - by apply (rd_le32_enc from).
  - by apply (rd_le32_enc pid).
Qed.

Lemma enc_header_length h : length (enc_mesh_header h) = 16%nat.
Proof. reflexivity. Qed.

Lemma fold_other fs ev :
  Forall (fun f => table_find data_fields (fst f) = None) fs ->
  fold_left (apply_field data_fields) fs ev = ev.
Proof.
  intros H. induction H as [|f fs Hf H IH]; [done|]. cbn [fold_left].
  unfold apply_field at 2. by rewrite Hf.
Qed.

Lemma data_wire_ok d : data_ok d ->
  Forall field_ok (data_wire d) /\ forallb (table_ok data_fields) (data_wire d) = true.
Proof.
  intros (H1 & H2 & H3 & H4 & H5 & H6). unfold data_wire. split.
  - apply Forall_app. split; [|done].
    repeat (apply Forall_cons_2; [split; cbn [fst snd wire_ok]; try lia; try done; destruct (d_want_response d); lia|]).
    apply Forall_nil_2.
  - rewrite forallb_app. apply andb_true_intro. split; [done|].
    apply forallb_forall. intros f Hf. rewrite List.Forall_forall in H6. unfold table_ok. by rewrite H6.
Qed.

Lemma fold_data d ev :
  data_ok d ->
  fold_left (apply_field data_fields) (data_wire d) (clear_envelope ev) = set_envelope d ev.
Proof.
  intros (H1 & _ & _ & _ & _ & H6). unfold data_wire. rewrite fold_left_app, fold_other by done.
  cbn [fold_left apply_field table_find data_fields fst snd act].
  cbn. unfold set_envelope, clear_envelope. destruct ev. cbn.
  unfold u32. rewrite (wrap_small 32) by lia. by destruct (d_want_response d).
Qed.

Lemma parse_enc_data d ev :
  data_ok d -> parse_data_envelope (enc_message (data_wire d)) ev = (true, set_envelope d ev).
Proof.
  intros Hd. unfold parse_data_envelope. destruct (data_wire_ok d Hd) as [Hf Ht].
  rewrite pb_message_fold by done. rewrite fold_data by done. f_equal.
  destruct Hd as ((_ & Hp) & _).
  replace (ev_portnum (set_envelope d ev)) with (d_portnum d) by (unfold set_envelope; by rcbn).
  destruct (Z.gtb_spec (d_portnum d) 1024); [lia|done].
Qed.

(** ** Key selection *)

Lemma try_bucket_candidates evp k ev nonce cipher b :
  try_bucket evp k ev nonce cipher b =
  first_some (try_key evp ev nonce cipher) (omap (keyset_get k) (take_valid b)).
Proof.
  induction b as [|i b IH]; [done|]. cbn [try_bucket take_valid].
  replace (0 <=? i) with (negb (i <? 0)) by (by rewrite Z.leb_antisym).
  destruct (i <? 0); [done|]. cbn [negb omap list_omap]. destruct (keyset_get k i); [|done].
  cbn. by rewrite IH.
Qed.

Lemma try_bucket_spec evp k ev nonce cipher h :
  ks_rep k -> 0 <= h < 256 ->
  try_bucket evp k ev nonce cipher (take 8 (keyset_lookup k h)) =
  first_some (try_key evp ev nonce cipher) (List.filter (hash_is h) (ks_entries k)).
Proof.
  intros Hk Hh. rewrite <- candidates_rep by done. rewrite try_bucket_candidates.
  destruct Hk as (_ & _ & Hb). destruct (Hb h Hh) as (Hl & _).
  unfold candidates. by rewrite take_ge by lia.
Qed.

Lemma base_event_header frame rssi snr sf cr bw :
  ev_header (base_event frame rssi snr sf cr bw) = parse_mesh_header frame.
Proof. unfold base_event. case_if; [destruct (preset_of_radio sf cr bw)|]; reflexivity. Qed.

(** The decode of a frame with a payload, as a search through the stored keys. *)
Lemma decode_spec evp frame rssi snr sf cr bw k :
  ks_rep k -> bytes_ok frame -> (16 < length frame)%nat ->
  let h := parse_mesh_header frame in
  let ev := base_event frame rssi snr sf cr bw in
  mesh_packet_decode_with_radio evp frame rssi snr sf cr bw (Some k) true =
  match first_some (try_key evp ev (build_nonce (hd_packet_id h) (hd_from h)) (take 512 (drop 16 frame)))
                   (List.filter (hash_is (hd_channel h)) (ks_entries k)) with
  | Some cand => (0, [KeysRdLock; EmitEvent cand; KeysRdUnlock])
  | None => (0, [KeysRdLock; KeysRdUnlock; EmitEvent (ev {{ ev_decrypted := false }});
                 PskDictEnqueue frame rssi snr sf cr bw])
  end.
Proof.
  intros Hk Hb Hl. cbn zeta. unfold mesh_packet_decode_with_radio, MESH_HEADER_BYTES.
  destruct (Nat.ltb_spec (length frame) 16); [lia|]. rewrite length_drop.
  destruct (Nat.eqb_spec (length frame - 16) 0); [lia|].
  rewrite base_event_header, try_bucket_spec by (try done; apply (at_byte frame 13); done).
  by destruct (first_some _ _).
Qed.

(** What a frame without payload or too short for a header gives. *)
Lemma decode_short evp frame rssi snr sf cr bw keys :
  (length frame < 16)%nat -> mesh_packet_decode_with_radio evp frame rssi snr sf cr bw keys true = (-1, []).
Proof.
  intros H. unfold mesh_packet_decode_with_radio, MESH_HEADER_BYTES.
  by destruct (Nat.ltb_spec (length frame) 16); [|lia].
Qed.

Definition keys_locked (eff : list mesh_effect) (depth : Z) : Z :=
  fold_left (fun d e => match e with KeysRdLock => d + 1 | KeysRdUnlock => d - 1 | _ => d end) eff depth.

Definition events_of (eff : list mesh_effect) : list mesh_event :=
  omap (fun e => match e with EmitEvent ev => Some ev | _ => None end) eff.

Definition enqueued (eff : list mesh_effect) : bool :=
  existsb (fun e => match e with PskDictEnqueue _ _ _ _ _ _ => true | _ => false end) eff.

Lemma try_key_decrypted evp ev nonce cipher e cand :
  try_key evp ev nonce cipher e = Some cand -> ev_decrypted cand = true.
Proof.
  unfold try_key. destruct (match ke_psk e with [] => _ | _ => _ end) as [p|]; [|done].
  destruct (parse_data_envelope p ev) as [[] c]; [|done]. by intros [= <-].
Qed.

(** C8: key selection.  A frame of more than 16 bytes is decrypted with the
    first stored key, in insertion order, whose channel hash is byte 13 of the
    frame and whose plaintext parses as a Data envelope; the event of that key
    is emitted under the store's read lock.  When no stored key fits, the
    undecrypted event is emitted after the lock is released and the frame is
    queued for the dictionary thread.  Either way exactly one event is emitted
    and the lock is released. *)
Theorem mesh_decode_selects_key evp frame rssi snr sf cr bw k :
  ks_rep k -> bytes_ok frame -> (16 < length frame)%nat ->
  let ev := base_event frame rssi snr sf cr bw in
  let tries := try_key evp ev (build_nonce (rd_le32 (drop 8 frame)) (rd_le32 (drop 4 frame)))
                 (take 512 (drop 16 frame)) in
  let '(rc, eff) := mesh_packet_decode_with_radio evp frame rssi snr sf cr bw (Some k) true in
  rc = 0 /\ keys_locked eff 0 = 0 /\
  ((exists pre e post cand,
      List.filter (hash_is (at_ frame 13)) (ks_entries k) = pre ++ e :: post /\
      Forall (fun e' => tries e' = None) pre /\ tries e = Some cand /\ ev_decrypted cand = true /\
      eff = [KeysRdLock; EmitEvent cand; KeysRdUnlock]) \/
   (Forall (fun e' => tries e' = None) (List.filter (hash_is (at_ frame 13)) (ks_entries k)) /\
    exists ev', ev_decrypted ev' = false /\ ev_header ev' = parse_mesh_header frame /\
      eff = [KeysRdLock; KeysRdUnlock; EmitEvent ev'; PskDictEnqueue frame rssi snr sf cr bw])).
Proof.
  intros Hk Hb Hl. cbn zeta. rewrite decode_spec by done. cbn zeta.
  cbn [parse_mesh_header hd_packet_id hd_from hd_channel].
  destruct (first_some _ _) as [cand|] eqn:E.
  - split; [done|]. split; [done|]. left.
    destruct (first_some_Some _ _ _ E) as (pre & e & post & El & Hp & He).
    exists pre, e, post, cand. repeat split; try done. by eapply try_key_decrypted.
  - split; [done|]. split; [done|]. right. split; [by apply first_some_None|].
    eexists. split; [|split; [|reflexivity]]; [by rcbn|]. rcbn. apply base_event_header.
Qed.

(** A concrete involutive stream cipher, for the instances below: byte [i] is
    XORed with a byte of the key and a byte of the counter block. *)
Fixpoint stream_from (i : nat) (key iv input : list Z) : list Z :=
  match input with
  | [] => []
  | b :: t => u8 (Z.lxor b (Z.lxor (at_ key (i mod length key)) (at_ iv (i mod 16))))
              :: stream_from (S i) key iv t
  end.

Definition stream_xor (key iv input : list Z) : option (list Z) :=
  if decide (bytes_ok input) then Some (stream_from 0 key iv input) else None.

Lemma stream_from_bytes i key iv x : bytes_ok (stream_from i key iv x).
Proof.
  revert i. induction x as [|b x IH]; intros i; [by apply Forall_nil_2|].
  apply Forall_cons_2; [apply (wrap_range 8); lia|apply IH].
Qed.

Lemma stream_from_length i key iv x : length (stream_from i key iv x) = length x.
Proof. revert i. induction x as [|b x IH]; intros i; [done|]. cbn [stream_from length]. by rewrite IH. Qed.

Lemma stream_from_invol i key iv x : bytes_ok x -> stream_from i key iv (stream_from i key iv x) = x.
Proof.
  intros Hx. revert i. induction Hx as [|b x Hb Hx IH]; intros i; [done|]. cbn [stream_from].
  rewrite IH. f_equal. unfold u8. generalize (Z.lxor (at_ key (i mod length key)) (at_ iv (i mod 16))) as m.
  intros m. rewrite !wrap_lxor by lia. rewrite (wrap_small 8 (wrap 8 b)) by (apply wrap_range; lia).
  rewrite (wrap_small 8 (wrap 8 m)) by (apply wrap_range; lia).
  rewrite Z.lxor_assoc, Z.lxor_nilpotent, Z.lxor_0_r. by apply wrap_small.
Qed.

Lemma stream_xor_invol key iv x y : stream_xor key iv x = Some y -> stream_xor key iv y = Some x.
Proof.
  unfold stream_xor. destruct (decide (bytes_ok x)); [|done]. intros [= <-].
  destruct (decide _) as [|n]; [by rewrite stream_from_invol|]. destruct n. apply stream_from_bytes.
Qed.

Lemma stream_xor_shape key iv x y : stream_xor key iv x = Some y -> length y = length x /\ bytes_ok y.
Proof.
  unfold stream_xor. destruct (decide (bytes_ok x)); [|done]. intros [= <-].
  split; [apply stream_from_length|apply stream_from_bytes].
Qed.

Definition witness_keys : keyset := snd (keyset_add keyset_create (str "LongFast") MESH_DEFAULT_PSK).

Lemma witness_keys_rep : ks_rep witness_keys.
Proof.
  pose proof (keyset_insert_spec keyset_create (mk_entry (stored_name (str "LongFast")) MESH_DEFAULT_PSK 8)
    keyset_create_rep ltac:(cbn; lia)) as H.
  change witness_keys with (snd (keyset_insert keyset_create (mk_entry (stored_name (str "LongFast")) MESH_DEFAULT_PSK 8))).
  destruct (keyset_insert _ _). tauto.
Qed.

(** The header 0xffffffff <- 0x01020304, packet 7, LongFast; a text "hi". *)
Definition witness_header : mesh_header := mk_mesh_header 0xffffffff 0x01020304 7 0xEB 8 0 4.
Definition witness_data : mesh_data := mk_data 1 (str "hi") true 5 6 [(9, WVarint 3); (300, WBytes [1; 2])].

Lemma mesh_decode_selects_key_witness :
  let frame := enc_mesh_header witness_header ++ [1; 2; 3] in
  let '(rc, eff) := mesh_packet_decode_with_radio stream_xor frame 0 0 11 5 250000 (Some witness_keys) true in
  rc = 0 /\ keys_locked eff 0 = 0.
Proof.
  pose proof (mesh_decode_selects_key stream_xor (enc_mesh_header witness_header ++ [1; 2; 3]) 0 0 11 5 250000
    witness_keys witness_keys_rep ltac:(by_decide) ltac:(vm_compute; lia)) as H.
  cbn zeta in *. destruct (mesh_packet_decode_with_radio _ _ _ _ _ _ _ _ _) as [rc eff].
  destruct H as (H1 & H2 & _). split; [exact H1|exact H2].
Defined.

(** ** Round trip *)

(** The frame of a transmitter that encrypts [d] with [key] under the nonce
    of the header. *)
Definition tx_frame (evp : list Z -> list Z -> list Z -> option (list Z)) (h : mesh_header) (key : list Z)
    (d : mesh_data) : option (list Z) :=
  match evp key (build_nonce (hd_packet_id h) (hd_from h)) (enc_message (data_wire d)) with
  | Some c => Some (enc_mesh_header h ++ c)
  | None => None
  end.

Section RoundTrip.
Context (evp : list Z -> list Z -> list Z -> option (list Z)).
Hypothesis ctr_involutive : forall key iv x y, evp key iv x = Some y -> evp key iv y = Some x.
Hypothesis ctr_length : forall key iv x y, evp key iv x = Some y -> length y = length x.
Hypothesis ctr_bytes : forall key iv x y, evp key iv x = Some y -> bytes_ok y.

Lemma enc_bytes_header h : header_ok h -> bytes_ok (enc_mesh_header h).
Proof.
  intros (_ & _ & _ & H). unfold enc_mesh_header, bytes_ok. rewrite !Forall_app.
  assert (Hf : forall n v, Forall is_byte (enc_fixed n v)).
  { intros n v. apply List.Forall_forall. intros x Hx. apply in_map_iff in Hx as (i & <- & _).
    apply (wrap_range 8). lia. }
  repeat split; try apply Hf. repeat (apply Forall_cons_2; [tauto|]). apply Forall_nil_2.
Qed.

Lemma try_key_enc ev h e d frame :
  data_ok d -> (length (ke_psk e) = 16 \/ length (ke_psk e) = 32)%nat ->
  (length (enc_message (data_wire d)) <= 512)%nat ->
  tx_frame evp h (ke_psk e) d = Some frame ->
  try_key evp ev (build_nonce (hd_packet_id h) (hd_from h)) (take 512 (drop 16 frame)) e =
  Some ((set_envelope d ev) {{ ev_decrypted := true; ev_channel_name := copy_to 32 (ke_channel_name e) }}).
Proof.
  intros Hd Hk Hl Htx. unfold tx_frame in Htx.
  destruct (evp _ _ _) as [c|] eqn:Ec; [|done]. apply (inj Some) in Htx as <-.
  pose proof (ctr_length _ _ _ _ Ec) as Hlen.
  change (drop 16 (enc_mesh_header h ++ c)) with c. rewrite take_ge by lia.
  unfold try_key, aes_ctr_decrypt. destruct (ke_psk e) as [|z psk] eqn:E; [destruct Hk; done|].
  replace ((length (z :: psk) =? 16)%nat || (length (z :: psk) =? 32)%nat) with true
    by (by destruct Hk as [-> | ->]).
  rewrite (ctr_involutive _ _ _ _ Ec).
  by rewrite parse_enc_data.
Qed.
End RoundTrip.

Lemma base_event_fields frame rssi snr sf cr bw :
  let ev := base_event frame rssi snr sf cr bw in
  ev_rssi_db ev = rssi /\ ev_snr_db ev = snr /\
  ev_hop_limit ev = Z.land (at_ frame 12) 7 /\ ev_hop_start ev = Z.shiftr (Z.land (at_ frame 12) 0xE0) 5.
Proof. cbn zeta. unfold base_event. case_if; [destruct (preset_of_radio sf cr bw)|]; repeat split. Qed.



(** The Data envelope parser stays inside the plaintext.  Whatever the
    bytes, and whether or not they parse, the payload slice of the event lies
    within the buffer and the radio header is untouched. *)
Theorem envelope_payload_in_bounds buf ev :
  let ev' := snd (parse_data_envelope buf ev) in
  slice_of buf (ev_payload ev') /\ ev_header ev' = ev_header ev.
Proof.
  cbn zeta. unfold parse_data_envelope.
  pose proof (table_keeps data_fields
    (fun e => slice_of buf (ev_payload e) /\ ev_header e = ev_header ev) buf (clear_envelope ev)) as H.
  destruct (pb_message _ _ _) as [o e]. cbn [snd] in H.
  replace (snd (match o with AtEnd => (negb (ev_portnum e >? 1024), e) | _ => (false, e) end)) with e
    by (by destruct o).
  apply H; [|split; [apply slice_of_nil|done]].
  repeat apply Forall_cons_2; try apply Forall_nil_2; cbn [snd action_keeps].
  2: { intros b st Hb [_ ?]. by split. }
  all: intros v st [? ?]; by split.
Qed.
