(* ===== verification/MeshTelemetry.v ===== *)
(** TELEMETRY_APP (src/mesh_decoders.c, lines 19-31 and 188-483): the
    telemetry message and its eight submessages.

    struct mesh_telemetry is split into one record per submessage; a decoder
    of a submessage updates its group, and sets the group's [have] flag only
    when it reaches the end of its buffer. *)

From S2P Require Import Prelude Protobuf PbMessage CFloat.

Local Open Scope Z_scope.

(** [copy_str]: the bytes stored before the terminating NUL. *)
Definition copy_str (dst_size : nat) (src : list Z) : list Z :=
  if (dst_size <=? length src)%nat then take (dst_size - 1) src else src.

(** A submessage decoder: [fin] is the assignment after the loop. *)
Definition sub_message {T} (tbl : list (Z * action T)) (fin : T -> T) (buf : list Z) (st : T) : T :=
  match pb_message (table tbl) buf st with
  | (AtEnd, st) => fin st
  | (_, st) => st
  end.

Record device_metrics := mk_device {
  have_device : bool;
  battery_level : Z;
  voltage : Z;
  channel_utilization : Z;
  air_util_tx : Z;
  uptime_seconds : Z;
}.
Definition device_zero := mk_device false 0 0 0 0 0.

Definition device_fields : list (Z * action device_metrics) :=
  [ (1, Varint (fun v o => o {{ battery_level := u32 v }}));
    (2, Fixed32 (fun f o => o {{ voltage := u32_as_float f }}));
    (3, Fixed32 (fun f o => o {{ channel_utilization := u32_as_float f }}));
    (4, Fixed32 (fun f o => o {{ air_util_tx := u32_as_float f }}));
    (5, Varint (fun v o => o {{ uptime_seconds := u32 v }})) ].

Definition parse_device_metrics := sub_message device_fields (fun o => o {{ have_device := true }}).

Record env_metrics := mk_env {
  have_environment : bool;
  temperature_c : Z;
  relative_humidity : Z;
  barometric_pressure_hpa : Z;
  gas_resistance : Z;
  voltage_env : Z;
  current : Z;
  iaq : Z;
  distance_mm : Z;
  lux : Z;
  white_lux : Z;
  ir_lux : Z;
  uv_lux : Z;
  wind_direction : Z;
  wind_speed : Z;
  weight : Z;
  wind_gust : Z;
  wind_lull : Z;
  radiation_uSvh : Z;
  rainfall_1h_mm : Z;
  rainfall_24h_mm : Z;
  soil_moisture : Z;
  soil_temperature_c : Z;
}.
Definition env_zero := mk_env false 0 0 0 0 0 0 0 0 0 0 0 0 0 0 0 0 0 0 0 0 0 0.

Definition env_fields : list (Z * action env_metrics) :=
  [ (1, CkFixed32 (fun f o => o {{ temperature_c := u32_as_float f }}));
    (2, CkFixed32 (fun f o => o {{ relative_humidity := u32_as_float f }}));
    (3, CkFixed32 (fun f o => o {{ barometric_pressure_hpa := u32_as_float f }}));
    (4, CkFixed32 (fun f o => o {{ gas_resistance := u32_as_float f }}));
    (5, CkFixed32 (fun f o => o {{ voltage_env := u32_as_float f }}));
    (6, CkFixed32 (fun f o => o {{ current := u32_as_float f }}));
    (7, CkVarint (fun v o => o {{ iaq := u32 v }}));
    (8, CkFixed32 (fun f o => o {{ distance_mm := u32_as_float f }}));
    (9, CkFixed32 (fun f o => o {{ lux := u32_as_float f }}));
    (10, CkFixed32 (fun f o => o {{ white_lux := u32_as_float f }}));
    (11, CkFixed32 (fun f o => o {{ ir_lux := u32_as_float f }}));
    (12, CkFixed32 (fun f o => o {{ uv_lux := u32_as_float f }}));
    (13, CkVarint (fun v o => o {{ wind_direction := u32 v }}));
    (14, CkFixed32 (fun f o => o {{ wind_speed := u32_as_float f }}));
    (15, CkFixed32 (fun f o => o {{ weight := u32_as_float f }}));
    (16, CkFixed32 (fun f o => o {{ wind_gust := u32_as_float f }}));
    (17, CkFixed32 (fun f o => o {{ wind_lull := u32_as_float f }}));
    (18, CkFixed32 (fun f o => o {{ radiation_uSvh := u32_as_float f }}));
    (19, CkFixed32 (fun f o => o {{ rainfall_1h_mm := u32_as_float f }}));
    (20, CkFixed32 (fun f o => o {{ rainfall_24h_mm := u32_as_float f }}));
    (21, CkVarint (fun v o => o {{ soil_moisture := u32 v }}));
    (22, CkFixed32 (fun f o => o {{ soil_temperature_c := u32_as_float f }})) ].

Definition parse_env_metrics := sub_message env_fields (fun o => o {{ have_environment := true }}).

Record power_metrics := mk_power {
  have_power : bool;
  ch1_voltage : Z; ch1_current : Z;
  ch2_voltage : Z; ch2_current : Z;
  ch3_voltage : Z; ch3_current : Z;
  ch4_voltage : Z; ch4_current : Z;
  ch5_voltage : Z; ch5_current : Z;
  ch6_voltage : Z; ch6_current : Z;
  ch7_voltage : Z; ch7_current : Z;
  ch8_voltage : Z; ch8_current : Z;
}.
Definition power_zero := mk_power false 0 0 0 0 0 0 0 0 0 0 0 0 0 0 0 0.

Definition power_fields : list (Z * action power_metrics) :=
  [ (1, Fixed32 (fun f o => o {{ ch1_voltage := u32_as_float f }}));
    (2, Fixed32 (fun f o => o {{ ch1_current := u32_as_float f }}));
    (3, Fixed32 (fun f o => o {{ ch2_voltage := u32_as_float f }}));
    (4, Fixed32 (fun f o => o {{ ch2_current := u32_as_float f }}));
    (5, Fixed32 (fun f o => o {{ ch3_voltage := u32_as_float f }}));
    (6, Fixed32 (fun f o => o {{ ch3_current := u32_as_float f }}));
    (7, Fixed32 (fun f o => o {{ ch4_voltage := u32_as_float f }}));
    (8, Fixed32 (fun f o => o {{ ch4_current := u32_as_float f }}));
    (9, Fixed32 (fun f o => o {{ ch5_voltage := u32_as_float f }}));
    (10, Fixed32 (fun f o => o {{ ch5_current := u32_as_float f }}));
    (11, Fixed32 (fun f o => o {{ ch6_voltage := u32_as_float f }}));
    (12, Fixed32 (fun f o => o {{ ch6_current := u32_as_float f }}));
    (13, Fixed32 (fun f o => o {{ ch7_voltage := u32_as_float f }}));
    (14, Fixed32 (fun f o => o {{ ch7_current := u32_as_float f }}));
    (15, Fixed32 (fun f o => o {{ ch8_voltage := u32_as_float f }}));
    (16, Fixed32 (fun f o => o {{ ch8_current := u32_as_float f }})) ].

Definition parse_power_metrics := sub_message power_fields (fun o => o {{ have_power := true }}).

Record air_quality := mk_air {
  have_air_quality : bool;
  aq_pm10_standard : Z; aq_pm25_standard : Z; aq_pm100_standard : Z;
  aq_pm10_env : Z; aq_pm25_env : Z; aq_pm100_env : Z;
  aq_particles_03um : Z; aq_particles_05um : Z; aq_particles_10um : Z;
  aq_particles_25um : Z; aq_particles_50um : Z; aq_particles_100um : Z;
  aq_co2 : Z;
  aq_co2_temperature_c : Z;
  aq_co2_humidity : Z;
  aq_formaldehyde_ppb : Z;
  aq_form_humidity : Z;
  aq_form_temperature_c : Z;
  aq_pm40_standard : Z;
  aq_particles_40um : Z;
  aq_pm_temperature_c : Z;
  aq_pm_humidity : Z;
  aq_pm_voc_idx : Z;
  aq_pm_nox_idx : Z;
  aq_particles_tps : Z;
}.
Definition air_zero := mk_air false 0 0 0 0 0 0 0 0 0 0 0 0 0 0 0 0 0 0 0 0 0 0 0 0 0.

Definition air_fields : list (Z * action air_quality) :=
  [ (1, Varint (fun v o => o {{ aq_pm10_standard := u32 v }}));
    (2, Varint (fun v o => o {{ aq_pm25_standard := u32 v }}));
    (3, Varint (fun v o => o {{ aq_pm100_standard := u32 v }}));
    (4, Varint (fun v o => o {{ aq_pm10_env := u32 v }}));
    (5, Varint (fun v o => o {{ aq_pm25_env := u32 v }}));
    (6, Varint (fun v o => o {{ aq_pm100_env := u32 v }}));
    (7, Varint (fun v o => o {{ aq_particles_03um := u32 v }}));
    (8, Varint (fun v o => o {{ aq_particles_05um := u32 v }}));
    (9, Varint (fun v o => o {{ aq_particles_10um := u32 v }}));
    (10, Varint (fun v o => o {{ aq_particles_25um := u32 v }}));
    (11, Varint (fun v o => o {{ aq_particles_50um := u32 v }}));
    (12, Varint (fun v o => o {{ aq_particles_100um := u32 v }}));
    (13, Varint (fun v o => o {{ aq_co2 := u32 v }}));
    (14, Fixed32 (fun f o => o {{ aq_co2_temperature_c := u32_as_float f }}));
    (15, Fixed32 (fun f o => o {{ aq_co2_humidity := u32_as_float f }}));
    (16, Fixed32 (fun f o => o {{ aq_formaldehyde_ppb := u32_as_float f }}));
    (17, Fixed32 (fun f o => o {{ aq_form_humidity := u32_as_float f }}));
    (18, Fixed32 (fun f o => o {{ aq_form_temperature_c := u32_as_float f }}));
    (19, Varint (fun v o => o {{ aq_pm40_standard := u32 v }}));
    (20, Varint (fun v o => o {{ aq_particles_40um := u32 v }}));
    (21, Fixed32 (fun f o => o {{ aq_pm_temperature_c := u32_as_float f }}));
    (22, Fixed32 (fun f o => o {{ aq_pm_humidity := u32_as_float f }}));
    (23, Fixed32 (fun f o => o {{ aq_pm_voc_idx := u32_as_float f }}));
    (24, Fixed32 (fun f o => o {{ aq_pm_nox_idx := u32_as_float f }}));
    (25, Fixed32 (fun f o => o {{ aq_particles_tps := u32_as_float f }})) ].

Definition parse_air_quality := sub_message air_fields (fun o => o {{ have_air_quality := true }}).

Record local_stats := mk_local {
  have_local_stats : bool;
  local_uptime_s : Z;
  local_channel_utilization : Z;
  local_air_util_tx : Z;
  local_num_packets_tx : Z;
  local_num_packets_rx : Z;
  local_num_packets_rx_bad : Z;
  local_num_online_nodes : Z;
  local_num_total_nodes : Z;
  local_num_rx_dupe : Z;
  local_num_tx_relay : Z;
  local_num_tx_relay_canceled : Z;
  local_heap_total_bytes : Z;
  local_heap_free_bytes : Z;
  local_num_tx_dropped : Z;
  local_noise_floor_dbm : Z;
}.
Definition local_zero := mk_local false 0 0 0 0 0 0 0 0 0 0 0 0 0 0 0.

Definition local_fields : list (Z * action local_stats) :=
  [ (1, Varint (fun v o => o {{ local_uptime_s := u32 v }}));
    (2, Fixed32 (fun f o => o {{ local_channel_utilization := u32_as_float f }}));
    (3, Fixed32 (fun f o => o {{ local_air_util_tx := u32_as_float f }}));
    (4, Varint (fun v o => o {{ local_num_packets_tx := u32 v }}));
    (5, Varint (fun v o => o {{ local_num_packets_rx := u32 v }}));
    (6, Varint (fun v o => o {{ local_num_packets_rx_bad := u32 v }}));
    (7, Varint (fun v o => o {{ local_num_online_nodes := u32 v }}));
    (8, Varint (fun v o => o {{ local_num_total_nodes := u32 v }}));
    (9, Varint (fun v o => o {{ local_num_rx_dupe := u32 v }}));
    (10, Varint (fun v o => o {{ local_num_tx_relay := u32 v }}));
    (11, Varint (fun v o => o {{ local_num_tx_relay_canceled := u32 v }}));
    (12, Varint (fun v o => o {{ local_heap_total_bytes := u32 v }}));
    (13, Varint (fun v o => o {{ local_heap_free_bytes := u32 v }}));
    (14, Varint (fun v o => o {{ local_num_tx_dropped := u32 v }}));
    (15, Varint (fun v o => o {{ local_noise_floor_dbm := i32 (i64 v) }})) ].

Definition parse_local_stats := sub_message local_fields (fun o => o {{ have_local_stats := true }}).

Record health_metrics := mk_health {
  have_health : bool;
  health_heart_bpm : Z;
  health_spo2 : Z;
  health_temperature_c : Z;
}.
Definition health_zero := mk_health false 0 0 0.

Definition health_fields : list (Z * action health_metrics) :=
  [ (1, Varint (fun v o => o {{ health_heart_bpm := u32 v }}));
    (2, Varint (fun v o => o {{ health_spo2 := u32 v }}));
    (3, Fixed32 (fun f o => o {{ health_temperature_c := u32_as_float f }})) ].

Definition parse_health := sub_message health_fields (fun o => o {{ have_health := true }}).

Record host_metrics := mk_host {
  have_host : bool;
  host_uptime_s : Z;
  host_freemem_bytes : Z;
  host_diskfree1_bytes : Z;
  host_diskfree2_bytes : Z;
  host_diskfree3_bytes : Z;
  host_load1_x100 : Z;
  host_load5_x100 : Z;
  host_load15_x100 : Z;
  host_user_string : list Z;
}.
Definition host_zero := mk_host false 0 0 0 0 0 0 0 0 [].

Definition host_fields : list (Z * action host_metrics) :=
  [ (1, Varint (fun v o => o {{ host_uptime_s := u32 v }}));
    (2, Varint (fun v o => o {{ host_freemem_bytes := v }}));
    (3, Varint (fun v o => o {{ host_diskfree1_bytes := v }}));
    (4, Varint (fun v o => o {{ host_diskfree2_bytes := v }}));
    (5, Varint (fun v o => o {{ host_diskfree3_bytes := v }}));
    (6, Varint (fun v o => o {{ host_load1_x100 := u32 v }}));
    (7, Varint (fun v o => o {{ host_load5_x100 := u32 v }}));
    (8, Varint (fun v o => o {{ host_load15_x100 := u32 v }}));
    (9, Bytes (fun b o => o {{ host_user_string := copy_str 64 b }})) ].

Definition parse_host := sub_message host_fields (fun o => o {{ have_host := true }}).

Record traffic_mgmt := mk_traffic {
  have_traffic_mgmt : bool;
  tm_packets_inspected : Z;
  tm_position_dedup_drops : Z;
  tm_nodeinfo_cache_hits : Z;
  tm_rate_limit_drops : Z;
  tm_unknown_packet_drops : Z;
  tm_hop_exhausted_packets : Z;
  tm_router_hops_preserved : Z;
}.
Definition traffic_zero := mk_traffic false 0 0 0 0 0 0 0.

Definition traffic_fields : list (Z * action traffic_mgmt) :=
  [ (1, Varint (fun v o => o {{ tm_packets_inspected := u32 v }}));
    (2, Varint (fun v o => o {{ tm_position_dedup_drops := u32 v }}));
    (3, Varint (fun v o => o {{ tm_nodeinfo_cache_hits := u32 v }}));
    (4, Varint (fun v o => o {{ tm_rate_limit_drops := u32 v }}));
    (5, Varint (fun v o => o {{ tm_unknown_packet_drops := u32 v }}));
    (6, Varint (fun v o => o {{ tm_hop_exhausted_packets := u32 v }}));
    (7, Varint (fun v o => o {{ tm_router_hops_preserved := u32 v }})) ].

Definition parse_traffic_mgmt := sub_message traffic_fields (fun o => o {{ have_traffic_mgmt := true }}).

Record mesh_telemetry := mk_telemetry {
  te_time_unix : Z;
  te_device : device_metrics;
  te_env : env_metrics;
  te_power : power_metrics;
  te_air : air_quality;
  te_local : local_stats;
  te_health : health_metrics;
  te_host : host_metrics;
  te_traffic : traffic_mgmt;
  te_any : bool;                 (* the local variable [any] *)
}.
Definition telemetry_zero :=
  mk_telemetry 0 device_zero env_zero power_zero air_zero local_zero health_zero host_zero traffic_zero false.

Definition telemetry_fields : list (Z * action mesh_telemetry) :=
  [ (1, Fixed32 (fun v o => o {{ te_time_unix := v; te_any := true }}));
    (2, Bytes (fun b o => o {{ te_device := parse_device_metrics b (te_device o); te_any := true }}));
    (3, Bytes (fun b o => o {{ te_env := parse_env_metrics b (te_env o); te_any := true }}));
    (4, Bytes (fun b o => o {{ te_air := parse_air_quality b (te_air o); te_any := true }}));
    (5, Bytes (fun b o => o {{ te_power := parse_power_metrics b (te_power o); te_any := true }}));
    (6, Bytes (fun b o => o {{ te_local := parse_local_stats b (te_local o); te_any := true }}));
    (7, Bytes (fun b o => o {{ te_health := parse_health b (te_health o); te_any := true }}));
    (8, Bytes (fun b o => o {{ te_host := parse_host b (te_host o); te_any := true }}));
    (9, Bytes (fun b o => o {{ te_traffic := parse_traffic_mgmt b (te_traffic o); te_any := true }})) ].

(** Every [return] returns [any]. *)
Definition mesh_decode_telemetry (buf : list Z) : bool * mesh_telemetry :=
  let out := snd (pb_message (table telemetry_fields) buf telemetry_zero) in
  (te_any out, out).
