(* ===== verification/MeshDecoders.v ===== *)
(** The other per-port decoders of src/mesh_decoders.c: position, user,
    routing, waypoint, neighbour info, key verification, map report, admin,
    ATAK, traceroute, remote hardware, detection sensor, store & forward and
    pax counter.  A decoder returns the bool of the source and the struct it
    leaves in [*out]. *)

From Stdlib Require Import String.
From S2P Require Import Prelude Protobuf PbMessage CFloat CString MeshTelemetry.

Local Open Scope Z_scope.

(** [(double)(int32_t)f * 1e-7] *)
Definition deg_of_fixed (f : Z) : spec_float := f64_mul (f64_of_Z (i32 f)) f64_1e_7.

(** [s[0]] of a char array, zero when nothing was copied. *)
Definition nonempty (s : list Z) : bool := nz (at_ s 0).

(** ** POSITION_APP *)

Record mesh_position := mk_position {
  po_have_lat : bool; po_have_lon : bool;
  po_have_alt : bool; po_have_alt_hae : bool; po_have_alt_geosep : bool;
  po_have_time : bool; po_have_timestamp : bool;
  po_have_ground_speed : bool; po_have_ground_track : bool;
  po_lat_deg : spec_float; po_lon_deg : spec_float;
  po_altitude_m : Z;
  po_time : Z;
  po_location_source : Z;
  po_altitude_source : Z;
  po_timestamp : Z;
  po_timestamp_millis_adjust : Z;
  po_altitude_hae_m : Z;
  po_altitude_geoidal_separation_m : Z;
  po_pdop_x100 : Z;
  po_hdop_x100 : Z;
  po_vdop_x100 : Z;
  po_gps_accuracy_mm : Z;
  po_ground_speed_mps : Z;
  po_ground_track_x100 : Z;
  po_fix_quality : Z;
  po_fix_type : Z;
  po_sats_in_view : Z;
  po_sensor_id : Z;
  po_next_update_s : Z;
  po_seq_number : Z;
  po_precision_bits : Z;
}.
Definition position_zero :=
  mk_position false false false false false false false false false f_zero f_zero
    0 0 0 0 0 0 0 0 0 0 0 0 0 0 0 0 0 0 0 0 0.

Definition position_fields : list (Z * action mesh_position) :=
  [ (1, CkFixed32 (fun f o => o {{ po_lat_deg := deg_of_fixed f; po_have_lat := true }}));
    (2, CkFixed32 (fun f o => o {{ po_lon_deg := deg_of_fixed f; po_have_lon := true }}));
    (3, CkVarint (fun v o => o {{ po_altitude_m := i32 v; po_have_alt := true }}));
    (4, CkFixed32 (fun f o => o {{ po_time := f; po_have_time := true }}));
    (5, CkVarint (fun v o => o {{ po_location_source := u32 v }}));
    (6, CkVarint (fun v o => o {{ po_altitude_source := u32 v }}));
    (7, CkFixed32 (fun f o => o {{ po_timestamp := f; po_have_timestamp := true }}));
    (8, CkVarint (fun v o => o {{ po_timestamp_millis_adjust := i32 v }}));
    (9, CkVarint (fun v o => o {{ po_altitude_hae_m := pb_zigzag32 (u32 v); po_have_alt_hae := true }}));
    (10, CkVarint (fun v o => o {{ po_altitude_geoidal_separation_m := pb_zigzag32 (u32 v);
                                   po_have_alt_geosep := true }}));
    (11, CkVarint (fun v o => o {{ po_pdop_x100 := u32 v }}));
    (12, CkVarint (fun v o => o {{ po_hdop_x100 := u32 v }}));
    (13, CkVarint (fun v o => o {{ po_vdop_x100 := u32 v }}));
    (14, CkVarint (fun v o => o {{ po_gps_accuracy_mm := u32 v }}));
    (15, CkVarint (fun v o => o {{ po_ground_speed_mps := u32 v; po_have_ground_speed := true }}));
    (16, CkVarint (fun v o => o {{ po_ground_track_x100 := u32 v; po_have_ground_track := true }}));
    (17, CkVarint (fun v o => o {{ po_fix_quality := u32 v }}));
    (18, CkVarint (fun v o => o {{ po_fix_type := u32 v }}));
    (19, CkVarint (fun v o => o {{ po_sats_in_view := u32 v }}));
    (20, CkVarint (fun v o => o {{ po_sensor_id := u32 v }}));
    (21, CkVarint (fun v o => o {{ po_next_update_s := u32 v }}));
    (22, CkVarint (fun v o => o {{ po_seq_number := u32 v }}));
    (23, CkVarint (fun v o => o {{ po_precision_bits := u32 v }})) ].

Definition mesh_decode_position (buf : list Z) : bool * mesh_position :=
  match pb_message (table position_fields) buf position_zero with
  | (AtEnd, o) => (po_have_lat o || po_have_lon o || po_have_time o || po_have_timestamp o, o)
  | (_, o) => (false, o)
  end.

(** ** NODEINFO_APP *)

Record mesh_user := mk_user {
  us_id : list Z;
  us_long_name : list Z;
  us_short_name : list Z;
  us_macaddr : list Z;
  us_have_macaddr : bool;
  us_hw_model : Z;
  us_is_licensed : bool;
  us_role : Z;
  us_public_key : list Z;
  us_have_public_key : bool;
  us_is_unmessagable : bool;
  us_have_is_unmessagable : bool;
}.
Definition user_zero :=
  mk_user [] [] [] (replicate 6 0) false 0 false 0 (replicate 32 0) false false false.

Definition user_fields : list (Z * action mesh_user) :=
  [ (1, Bytes (fun b o => o {{ us_id := copy_str 24 b }}));
    (2, Bytes (fun b o => o {{ us_long_name := copy_str 64 b }}));
    (3, Bytes (fun b o => o {{ us_short_name := copy_str 8 b }}));
    (4, Bytes (fun b o => if (length b =? 6)%nat
                          then o {{ us_macaddr := b; us_have_macaddr := true }} else o));
    (5, Varint (fun v o => o {{ us_hw_model := u32 v }}));
    (6, Varint (fun v o => o {{ us_is_licensed := nz v }}));
    (7, Varint (fun v o => o {{ us_role := u32 v }}));
    (8, Bytes (fun b o => if (length b <=? 32)%nat
                          then o {{ us_public_key := b ++ drop (length b) (us_public_key o);
                                    us_have_public_key := true }} else o));
    (9, Varint (fun v o => o {{ us_is_unmessagable := nz v; us_have_is_unmessagable := true }})) ].

Definition mesh_decode_user (buf : list Z) : bool * mesh_user :=
  match pb_message (table user_fields) buf user_zero with
  | (AtEnd, o) => (nonempty (us_id o) || nonempty (us_long_name o) || nonempty (us_short_name o), o)
  | (_, o) => (false, o)
  end.

(** ** Repeated scalars *)

(** [while (q < qend && n < cap) { if (!pb_read_varint(&q, qend, &v)) break;
    arr[n++] = v; }]: each round consumes a byte. *)
Fixpoint parse_packed (fuel : nat) (conv : Z -> Z) (cap : nat) (q : list Z) (arr : list Z) : list Z :=
  match fuel with
  | O => arr
  | S k =>
      match q with
      | [] => arr
      | _ =>
          if (length arr <? cap)%nat then
            match pb_read_varint q with
            | (Some v, q) => parse_packed k conv cap q (arr ++ [conv v])
            | (None, _) => arr
            end
          else arr
      end
  end.

(** append_repeated_u32 / append_repeated_i8: the array, and the cursor when
    the call succeeds. *)
Definition append_repeated (conv : Z -> Z) (cap : nat) (wt : Z) (cur arr : list Z)
  : option (list Z) * list Z :=
  if wt =? 0 then
    match pb_read_varint cur with
    | (Some v, cur) => (Some cur, if (length arr <? cap)%nat then arr ++ [conv v] else arr)
    | (None, _) => (None, arr)
    end
  else if wt =? 2 then
    match pb_read_length cur with
    | (Some b, cur) => (Some cur, parse_packed (length b) conv cap b arr)
    | (None, _) => (None, arr)
    end
  else match pb_skip_value wt cur with
       | (true, cur) => (Some cur, arr)
       | (false, _) => (None, arr)
       end.

Definition on_repeated {T} (conv : Z -> Z) (cap : nat) (get : T -> list Z) (set : list Z -> T -> T)
    (wt : Z) (cur : list Z) (st : T) : step_result T :=
  match append_repeated conv cap wt cur (get st) with
  | (Some cur, arr) => Next cur (set arr st)
  | (None, arr) => Stop (set arr st)
  end.

(** [(int8_t)(int32_t)v] *)
Definition to_i8 (v : Z) : Z := i8 (i32 v).

(** ** ROUTING_APP *)

Inductive mesh_routing_kind :=
  MESH_ROUTING_NONE | MESH_ROUTING_REQUEST | MESH_ROUTING_REPLY | MESH_ROUTING_ERROR.

#[export] Instance routing_kind_eq_dec : EqDecision mesh_routing_kind.
Proof. solve_decision. Defined.

Record mesh_routing := mk_routing {
  ro_kind : mesh_routing_kind;
  ro_error_reason : Z;
  ro_route : list Z;            (* route[0 .. n_route) *)
  ro_have_error : bool;
}.
Definition routing_zero := mk_routing MESH_ROUTING_NONE 0 [] false.

Definition route_discovery_switch : switch mesh_routing := fun fld wt cur st =>
  if fld =? 1 then on_repeated u32 16 ro_route (fun r o => o {{ ro_route := r }}) wt cur st
  else on_skip wt cur st.

Definition parse_route_discovery (buf : list Z) (o : mesh_routing) : mesh_routing :=
  snd (pb_message route_discovery_switch buf o).

Definition routing_fields : list (Z * action mesh_routing) :=
  [ (1, Bytes (fun b o => parse_route_discovery b (o {{ ro_kind := MESH_ROUTING_REQUEST }})));
    (2, Bytes (fun b o => parse_route_discovery b (o {{ ro_kind := MESH_ROUTING_REPLY }})));
    (3, Varint (fun v o => o {{ ro_kind := MESH_ROUTING_ERROR; ro_error_reason := u32 v;
                                ro_have_error := true }})) ].

Definition mesh_decode_routing (buf : list Z) : bool * mesh_routing :=
  match pb_message (table routing_fields) buf routing_zero with
  | (AtEnd, o) => (bool_decide (ro_kind o <> MESH_ROUTING_NONE), o)
  | (_, o) => (false, o)
  end.

(** ** WAYPOINT_APP *)

Record mesh_waypoint := mk_waypoint {
  wp_id : Z;
  wp_have_lat : bool; wp_have_lon : bool;
  wp_lat_deg : spec_float; wp_lon_deg : spec_float;
  wp_expire : Z;
  wp_locked_to : Z;
  wp_name : list Z;
  wp_description : list Z;
  wp_icon : Z;
}.
Definition waypoint_zero := mk_waypoint 0 false false f_zero f_zero 0 0 [] [] 0.

Definition waypoint_fields : list (Z * action mesh_waypoint) :=
  [ (1, Varint (fun v o => o {{ wp_id := u32 v }}));
    (2, Fixed32 (fun f o => o {{ wp_lat_deg := deg_of_fixed f; wp_have_lat := true }}));
    (3, Fixed32 (fun f o => o {{ wp_lon_deg := deg_of_fixed f; wp_have_lon := true }}));
    (4, Varint (fun v o => o {{ wp_expire := u32 v }}));
    (5, Varint (fun v o => o {{ wp_locked_to := u32 v }}));
    (6, Bytes (fun b o => o {{ wp_name := copy_str 32 b }}));
    (7, Bytes (fun b o => o {{ wp_description := copy_str 80 b }}));
    (8, Fixed32 (fun f o => o {{ wp_icon := f }})) ].

Definition mesh_decode_waypoint (buf : list Z) : bool * mesh_waypoint :=
  match pb_message (table waypoint_fields) buf waypoint_zero with
  | (AtEnd, o) => (wp_have_lat o || wp_have_lon o || nonempty (wp_name o), o)
  | (_, o) => (false, o)
  end.

(** ** NEIGHBORINFO_APP *)

Record mesh_neighbor := mk_neighbor {
  nb_node_id : Z;
  nb_snr_db : Z;
  nb_last_rx_time : Z;
  nb_node_broadcast_interval_secs : Z;
}.

Definition neighbor_fields : list (Z * action mesh_neighbor) :=
  [ (1, Varint (fun v n => n {{ nb_node_id := u32 v }}));
    (2, Fixed32 (fun f n => n {{ nb_snr_db := u32_as_float f }}));
    (3, Fixed32 (fun f n => n {{ nb_last_rx_time := f }}));
    (4, Varint (fun v n => n {{ nb_node_broadcast_interval_secs := u32 v }})) ].

Definition parse_one_neighbor (buf : list Z) : mesh_neighbor :=
  snd (pb_message (table neighbor_fields) buf (mk_neighbor 0 0 0 0)).

Record mesh_neighborinfo := mk_neighborinfo {
  ni_node_id : Z;
  ni_last_sent_by_id : Z;
  ni_node_broadcast_interval_secs : Z;
  ni_neighbors : list mesh_neighbor;     (* neighbors[0 .. n_neighbors) *)
}.

Definition neighborinfo_fields : list (Z * action mesh_neighborinfo) :=
  [ (1, Varint (fun v o => o {{ ni_node_id := u32 v }}));
    (2, Varint (fun v o => o {{ ni_last_sent_by_id := u32 v }}));
    (3, Varint (fun v o => o {{ ni_node_broadcast_interval_secs := u32 v }}));
    (4, Bytes (fun b o => if (length (ni_neighbors o) <? 16)%nat
                          then o {{ ni_neighbors := ni_neighbors o ++ [parse_one_neighbor b] }} else o)) ].

Definition mesh_decode_neighborinfo (buf : list Z) : bool * mesh_neighborinfo :=
  match pb_message (table neighborinfo_fields) buf (mk_neighborinfo 0 0 0 []) with
  | (AtEnd, o) => (nz (ni_node_id o) || (0 <? length (ni_neighbors o))%nat, o)
  | (_, o) => (false, o)
  end.

(** ** KEY_VERIFICATION_APP *)

Record mesh_keyverif := mk_keyverif { kv_nonce : Z; kv_hash1_len : Z; kv_hash2_len : Z }.

Definition keyverif_fields : list (Z * action mesh_keyverif) :=
  [ (1, Varint (fun v o => o {{ kv_nonce := v }}));
    (2, Bytes (fun b o => o {{ kv_hash1_len := i32 (Z.of_nat (length b)) }}));
    (3, Bytes (fun b o => o {{ kv_hash2_len := i32 (Z.of_nat (length b)) }})) ].

Definition mesh_decode_keyverif (buf : list Z) : bool * mesh_keyverif :=
  match pb_message (table keyverif_fields) buf (mk_keyverif 0 0 0) with
  | (AtEnd, o) => (nz (kv_nonce o) || nz (kv_hash1_len o) || nz (kv_hash2_len o), o)
  | (_, o) => (false, o)
  end.

(** ** MAP_REPORT_APP *)

Record mesh_mapreport := mk_mapreport {
  mr_long_name : list Z;
  mr_short_name : list Z;
  mr_role : Z;
  mr_hw_model : Z;
  mr_firmware_version : list Z;
  mr_region : Z;
  mr_modem_preset : Z;
  mr_has_default_channel : Z;
  mr_have_lat : bool; mr_have_lon : bool;
  mr_lat_deg : spec_float; mr_lon_deg : spec_float;
  mr_altitude_m : Z;
  mr_position_precision : Z;
  mr_num_online_local_nodes : Z;
}.
Definition mapreport_zero := mk_mapreport [] [] 0 0 [] 0 0 0 false false f_zero f_zero 0 0 0.

Definition mapreport_fields : list (Z * action mesh_mapreport) :=
  [ (1, Bytes (fun b o => o {{ mr_long_name := copy_str 64 b }}));
    (2, Bytes (fun b o => o {{ mr_short_name := copy_str 8 b }}));
    (3, Varint (fun v o => o {{ mr_role := u32 v }}));
    (4, Varint (fun v o => o {{ mr_hw_model := u32 v }}));
    (5, Bytes (fun b o => o {{ mr_firmware_version := copy_str 24 b }}));
    (6, Varint (fun v o => o {{ mr_region := u32 v }}));
    (7, Varint (fun v o => o {{ mr_modem_preset := u32 v }}));
    (8, Varint (fun v o => o {{ mr_has_default_channel := u32 v }}));
    (9, Fixed32 (fun f o => o {{ mr_lat_deg := deg_of_fixed f; mr_have_lat := true }}));
    (10, Fixed32 (fun f o => o {{ mr_lon_deg := deg_of_fixed f; mr_have_lon := true }}));
    (11, Varint (fun v o => o {{ mr_altitude_m := i32 v }}));
    (12, Varint (fun v o => o {{ mr_position_precision := u32 v }}));
    (13, Varint (fun v o => o {{ mr_num_online_local_nodes := u32 v }})) ].

Definition mesh_decode_mapreport (buf : list Z) : bool * mesh_mapreport :=
  match pb_message (table mapreport_fields) buf mapreport_zero with
  | (AtEnd, o) => (nonempty (mr_long_name o) || mr_have_lat o, o)
  | (_, o) => (false, o)
  end.

(** ** ADMIN_APP *)

Record mesh_admin := mk_admin { ad_variant_field : Z; ad_has_session_passkey : bool }.

(** The first field number other than the session passkey's is latched. *)
Definition admin_switch : switch mesh_admin := fun fld wt cur o =>
  if fld =? 101 then
    on_read pb_read_length (fun b o => o {{ ad_has_session_passkey := (0 <? length b)%nat }}) cur o
  else
    on_skip wt cur (if (ad_variant_field o =? 0) && negb (fld =? 0)
                    then o {{ ad_variant_field := fld }} else o).

Definition mesh_decode_admin (buf : list Z) : bool * mesh_admin :=
  match pb_message admin_switch buf (mk_admin 0 false) with
  | (AtEnd, o) => (nz (ad_variant_field o) || ad_has_session_passkey o, o)
  | (_, o) => (false, o)
  end.

(** ** ATAK_PLUGIN *)

Inductive mesh_atak_kind := MESH_ATAK_NONE | MESH_ATAK_PLI | MESH_ATAK_CHAT | MESH_ATAK_DETAIL.

#[export] Instance atak_kind_eq_dec : EqDecision mesh_atak_kind.
Proof. solve_decision. Defined.

Definition ATAK_TEAMS : list (list Z) :=
  [ str "Unspecified"; str "White"; str "Yellow"; str "Orange"; str "Magenta"; str "Red"; str "Maroon";
    str "Purple"; str "DarkBlue"; str "Blue"; str "Cyan"; str "Teal"; str "Green"; str "DarkGreen";
    str "Brown" ].

Definition mesh_atak_team_name (team : Z) : list Z :=
  if (team <? 0) || (Z.of_nat (length ATAK_TEAMS) <=? team) then str "Unspecified"
  else nth (Z.to_nat team) ATAK_TEAMS [].

Definition ATAK_ROLES : list (list Z) :=
  [ str "Unspecified"; str "TeamMember"; str "TeamLead"; str "HQ"; str "Sniper"; str "Medic";
    str "ForwardObserver"; str "RTO"; str "K9" ].

Definition mesh_atak_role_name (role : Z) : list Z :=
  if (role <? 0) || (Z.of_nat (length ATAK_ROLES) <=? role) then str "Unknown"
  else nth (Z.to_nat role) ATAK_ROLES [].

Record mesh_atak := mk_atak {
  ak_is_compressed : bool;
  ak_callsign : list Z;
  ak_device_callsign : list Z;
  ak_team : Z;
  ak_role : Z;
  ak_battery : Z;
  ak_kind : mesh_atak_kind;
  ak_have_lat : bool; ak_have_lon : bool;
  ak_lat_deg : spec_float; ak_lon_deg : spec_float;
  ak_altitude_hae_m : Z;
  ak_speed_mps : Z;
  ak_course_deg : Z;
  ak_chat_message : list Z;
  ak_chat_to : list Z;
  ak_chat_to_callsign : list Z;
  ak_chat_receipt_for_uid : list Z;
  ak_chat_receipt_type : Z;
  ak_chat_lang : list Z;
  ak_chat_room_id : list Z;
  ak_chat_has_voice_profile : bool;
  ak_detail_xml : list Z;
}.
Definition atak_zero :=
  mk_atak false [] [] 0 0 0 MESH_ATAK_NONE false false f_zero f_zero 0 0 0 [] [] [] [] 0 [] [] false [].

Definition contact_fields : list (Z * action mesh_atak) :=
  [ (1, Bytes (fun b o => o {{ ak_callsign := copy_str 32 b }}));
    (2, Bytes (fun b o => o {{ ak_device_callsign := copy_str 32 b }})) ].
Definition parse_contact := sub_message contact_fields id.

Definition group_fields : list (Z * action mesh_atak) :=
  [ (1, Varint (fun v o => o {{ ak_role := i32 v }}));
    (2, Varint (fun v o => o {{ ak_team := i32 v }})) ].
Definition parse_group := sub_message group_fields id.

Definition status_fields : list (Z * action mesh_atak) :=
  [ (1, Varint (fun v o => o {{ ak_battery := u32 v }})) ].
Definition parse_status := sub_message status_fields id.

Definition pli_fields : list (Z * action mesh_atak) :=
  [ (1, Fixed32 (fun f o => o {{ ak_lat_deg := deg_of_fixed f; ak_have_lat := true }}));
    (2, Fixed32 (fun f o => o {{ ak_lon_deg := deg_of_fixed f; ak_have_lon := true }}));
    (3, Varint (fun v o => o {{ ak_altitude_hae_m := i32 v }}));
    (4, Varint (fun v o => o {{ ak_speed_mps := u32 v }}));
    (5, Varint (fun v o => o {{ ak_course_deg := u32 v }})) ].
Definition parse_pli (b : list Z) (o : mesh_atak) : mesh_atak :=
  sub_message pli_fields id b (o {{ ak_kind := MESH_ATAK_PLI }}).

Definition chat_fields : list (Z * action mesh_atak) :=
  [ (1, Bytes (fun b o => o {{ ak_chat_message := copy_str 200 b }}));
    (2, Bytes (fun b o => o {{ ak_chat_to := copy_str 64 b }}));
    (3, Bytes (fun b o => o {{ ak_chat_to_callsign := copy_str 32 b }}));
    (4, Bytes (fun b o => o {{ ak_chat_receipt_for_uid := copy_str 64 b }}));
    (5, Varint (fun v o => o {{ ak_chat_receipt_type := u32 v }}));
    (6, Bytes (fun b o => o {{ ak_chat_lang := copy_str 16 b }}));
    (7, Bytes (fun b o => o {{ ak_chat_room_id := copy_str 40 b }}));
    (8, Bytes (fun _ o => o {{ ak_chat_has_voice_profile := true }})) ].
Definition parse_chat (b : list Z) (o : mesh_atak) : mesh_atak :=
  sub_message chat_fields id b (o {{ ak_kind := MESH_ATAK_CHAT }}).

Definition atak_fields : list (Z * action mesh_atak) :=
  [ (1, Varint (fun v o => o {{ ak_is_compressed := nz v }}));
    (2, Bytes parse_contact);
    (3, Bytes parse_group);
    (4, Bytes parse_status);
    (5, Bytes parse_pli);
    (6, Bytes parse_chat);
    (7, Bytes (fun b o => o {{ ak_kind := MESH_ATAK_DETAIL; ak_detail_xml := b }})) ].

(** A tag that does not parse ends the packet without failing it. *)
Definition mesh_decode_atak (buf : list Z) : bool * mesh_atak :=
  match pb_message (table atak_fields) buf atak_zero with
  | (AtEnd, o) => (bool_decide (ak_kind o <> MESH_ATAK_NONE) || nonempty (ak_callsign o), o)
  | (BadTag, o) => (bool_decide (ak_kind o <> MESH_ATAK_NONE), o)
  | (BadField, o) => (false, o)
  end.

(** ** TRACEROUTE_APP *)

Record mesh_traceroute := mk_traceroute {
  tr_route : list Z;
  tr_snr_towards : list Z;
  tr_route_back : list Z;
  tr_snr_back : list Z;
}.

Definition traceroute_switch : switch mesh_traceroute := fun fld wt cur o =>
  if fld =? 1 then on_repeated u32 16 tr_route (fun a o => o {{ tr_route := a }}) wt cur o
  else if fld =? 2 then on_repeated to_i8 16 tr_snr_towards (fun a o => o {{ tr_snr_towards := a }}) wt cur o
  else if fld =? 3 then on_repeated u32 16 tr_route_back (fun a o => o {{ tr_route_back := a }}) wt cur o
  else if fld =? 4 then on_repeated to_i8 16 tr_snr_back (fun a o => o {{ tr_snr_back := a }}) wt cur o
  else on_skip wt cur o.

Definition mesh_decode_traceroute (buf : list Z) : bool * mesh_traceroute :=
  match pb_message traceroute_switch buf (mk_traceroute [] [] [] []) with
  | (AtEnd, o) => ((0 <? length (tr_route o))%nat || (0 <? length (tr_route_back o))%nat, o)
  | (_, o) => (false, o)
  end.

(** ** REMOTE_HARDWARE_APP, DETECTION_SENSOR_APP *)

Record mesh_remote_hw := mk_remote_hw { hw_type : Z; hw_gpio_mask : Z; hw_gpio_value : Z }.

Definition remote_hw_fields : list (Z * action mesh_remote_hw) :=
  [ (1, Varint (fun v o => o {{ hw_type := u32 v }}));
    (2, Varint (fun v o => o {{ hw_gpio_mask := v }}));
    (3, Varint (fun v o => o {{ hw_gpio_value := v }})) ].

Definition mesh_decode_remote_hw (buf : list Z) : bool * mesh_remote_hw :=
  match pb_message (table remote_hw_fields) buf (mk_remote_hw 0 0 0) with
  | (AtEnd, o) => (true, o)
  | (_, o) => (false, o)
  end.

(** The text is the payload, cut to 127 bytes. *)
Definition mesh_decode_detection (buf : list Z) : bool * list Z :=
  let n := if (length buf <? 127)%nat then length buf else 127%nat in
  ((0 <? n)%nat, take n buf).

(** ** STORE_FORWARD_APP *)

Record mesh_storeforward := mk_storeforward {
  sw_rr : Z;
  sw_have_stats : bool;
  sw_stats_total : Z;
  sw_stats_history : Z;
  sw_stats_max : Z;
  sw_stats_up_time_s : Z;
  sw_stats_requests : Z;
  sw_have_history : bool;
  sw_hist_count : Z;
  sw_hist_window_s : Z;
}.
Definition storeforward_zero := mk_storeforward 0 false 0 0 0 0 0 false 0 0.

Definition sf_stats_fields : list (Z * action mesh_storeforward) :=
  [ (1, Varint (fun v o => o {{ sw_stats_total := u32 v }}));
    (2, Varint (fun v o => o {{ sw_stats_history := u32 v }}));
    (3, Varint (fun v o => o {{ sw_stats_max := u32 v }}));
    (4, Varint (fun v o => o {{ sw_stats_up_time_s := u32 v }}));
    (5, Varint (fun v o => o {{ sw_stats_requests := u32 v }})) ].
Definition sf_decode_stats := sub_message sf_stats_fields (fun o => o {{ sw_have_stats := true }}).

Definition sf_history_fields : list (Z * action mesh_storeforward) :=
  [ (1, Varint (fun v o => o {{ sw_hist_count := u32 v }}));
    (2, Varint (fun v o => o {{ sw_hist_window_s := u32 v }})) ].
Definition sf_decode_history := sub_message sf_history_fields (fun o => o {{ sw_have_history := true }}).

(** A submessage is a length and that many bytes, as in pb_read_length. *)
Definition storeforward_switch : switch mesh_storeforward := fun fld wt cur o =>
  if fld =? 1 then on_read pb_read_varint (fun v o => o {{ sw_rr := u32 v }}) cur o
  else if (fld =? 2) && (wt =? 2) then on_read pb_read_length sf_decode_stats cur o
  else if (fld =? 3) && (wt =? 2) then on_read pb_read_length sf_decode_history cur o
  else on_skip wt cur o.

Definition mesh_decode_storeforward (buf : list Z) : bool * mesh_storeforward :=
  match pb_message storeforward_switch buf storeforward_zero with
  | (AtEnd, o) => (true, o)
  | (_, o) => (false, o)
  end.

Definition SF_RR_NAMES : list (Z * list Z) :=
  [ (0, str "UNSET"); (1, str "ROUTER_ERROR"); (2, str "ROUTER_HEARTBEAT"); (3, str "ROUTER_PING");
    (4, str "ROUTER_PONG"); (5, str "ROUTER_BUSY"); (6, str "ROUTER_HISTORY"); (7, str "ROUTER_STATS");
    (8, str "ROUTER_TEXT_DIRECT"); (9, str "ROUTER_TEXT_BROADCAST"); (64, str "CLIENT_ERROR");
    (65, str "CLIENT_HISTORY"); (66, str "CLIENT_STATS"); (67, str "CLIENT_PING");
    (68, str "CLIENT_PONG"); (106, str "CLIENT_ABORT") ].

Definition mesh_storeforward_rr_name (rr : Z) : option (list Z) :=
  option_map snd (find (fun p => fst p =? rr) SF_RR_NAMES).

(** ** PAXCOUNTER_APP *)

Record mesh_paxcounter := mk_paxcounter { px_wifi : Z; px_ble : Z; px_uptime_s : Z }.

Definition paxcounter_fields : list (Z * action mesh_paxcounter) :=
  [ (1, Varint (fun v o => o {{ px_wifi := u32 v }}));
    (2, Varint (fun v o => o {{ px_ble := u32 v }}));
    (3, Varint (fun v o => o {{ px_uptime_s := u32 v }})) ].

Definition mesh_decode_paxcounter (buf : list Z) : bool * mesh_paxcounter :=
  match pb_message (table paxcounter_fields) buf (mk_paxcounter 0 0 0) with
  | (AtEnd, o) => (true, o)
  | (_, o) => (false, o)
  end.
