(* ===== verification/MeshDecodersFacts.v ===== *)
(** Correctness of the per-port decoders: round trips against a conforming
    encoder and the bounds of every fixed-size array they fill. *)

From Stdlib Require Import String.
From S2P Require Import Prelude Protobuf PbMessage CFloat CString MeshTelemetry MeshDecoders.

Local Open Scope Z_scope.

(** ** Telemetry *)

Lemma sub_message_fold {T} (tbl : list (Z * action T)) fin fs st :
  Forall field_ok fs -> forallb (table_ok tbl) fs = true ->
  sub_message tbl fin (enc_message fs) st = fin (fold_left (apply_field tbl) fs st).
Proof. intros Hf Ht. unfold sub_message. by rewrite pb_message_fold. Qed.

(** The messages a sender builds from a set of metrics. *)
Definition device_wire (d : device_metrics) : list (Z * wire) :=
  [(1, WVarint (battery_level d)); (2, WFixed32 (voltage d)); (3, WFixed32 (channel_utilization d));
   (4, WFixed32 (air_util_tx d)); (5, WVarint (uptime_seconds d))].

Definition env_wire (e : env_metrics) : list (Z * wire) :=
  [(1, WFixed32 (temperature_c e)); (2, WFixed32 (relative_humidity e));
   (3, WFixed32 (barometric_pressure_hpa e)); (4, WFixed32 (gas_resistance e));
   (5, WFixed32 (voltage_env e)); (6, WFixed32 (current e)); (7, WVarint (iaq e));
   (8, WFixed32 (distance_mm e)); (9, WFixed32 (lux e)); (10, WFixed32 (white_lux e));
   (11, WFixed32 (ir_lux e)); (12, WFixed32 (uv_lux e)); (13, WVarint (wind_direction e));
   (14, WFixed32 (wind_speed e)); (15, WFixed32 (weight e)); (16, WFixed32 (wind_gust e));
   (17, WFixed32 (wind_lull e)); (18, WFixed32 (radiation_uSvh e)); (19, WFixed32 (rainfall_1h_mm e));
   (20, WFixed32 (rainfall_24h_mm e)); (21, WVarint (soil_moisture e));
   (22, WFixed32 (soil_temperature_c e))].

(** Every value of the message fits 32 bits. *)
Definition wire32 (f : Z * wire) : Prop :=
  match snd f with WVarint v | WFixed32 v => 0 <= v < 2 ^ 32 | _ => False end.

Lemma wire32_ok fs : forallb (fun f => (1 <=? fst f) && (fst f <? 2 ^ 29)) fs = true ->
  Forall wire32 fs -> Forall field_ok fs.
Proof.
  intros Hn Hw. induction Hw as [|[n w] fs Hf Hw IH]; [by apply Forall_nil_2|].
  cbn [forallb fst] in Hn. zb. apply Forall_cons_2; [|by apply IH].
  split; [cbn [fst]; lia|]. unfold wire32 in Hf. cbn [snd] in *. destruct w; try done; cbn [wire_ok]; lia.
Qed.

Lemma device_fold d :
  Forall wire32 (device_wire d) -> fold_left (apply_field device_fields) (device_wire d) device_zero =
  d {{ have_device := false }}.
Proof.
  intros H. destruct d. unfold device_wire in *. cbn in *.
  rewrite !Forall_cons in H. cbn in H. destruct H as (? & ? & ? & ? & ? & _).
  cbn. unfold u32, u32_as_float. by rewrite !(wrap_small 32) by done.
Qed.

Lemma env_fold e :
  Forall wire32 (env_wire e) -> fold_left (apply_field env_fields) (env_wire e) env_zero =
  e {{ have_environment := false }}.
Proof.
  intros H. destruct e. unfold env_wire in *. cbn in *.
  rewrite !Forall_cons in H. cbn in H. destruct_and? H.
  cbn. unfold u32, u32_as_float. by rewrite !(wrap_small 32) by done.
Qed.

(** Telemetry round trip.  A telemetry message with a time, device metrics
    and all 22 environment metrics, as a conforming encoder writes it,
    decodes to exactly these values, with both groups marked present. *)
Theorem telemetry_round_trip t d e :
  0 <= t < 2 ^ 32 -> Forall wire32 (device_wire d) -> Forall wire32 (env_wire e) ->
  have_device d = true -> have_environment e = true ->
  Z.of_nat (length (enc_message (device_wire d))) < 2 ^ 64 ->
  Z.of_nat (length (enc_message (env_wire e))) < 2 ^ 64 ->
  mesh_decode_telemetry (enc_message [(1, WFixed32 t); (2, WBytes (enc_message (device_wire d)));
                                      (3, WBytes (enc_message (env_wire e)))]) =
  (true, telemetry_zero {{ te_time_unix := t; te_device := d; te_env := e; te_any := true }}).
Proof.
  intros Ht Hd He Ed Ee Hld Hle. unfold mesh_decode_telemetry.
  rewrite pb_message_fold.
  - cbn -[parse_device_metrics parse_env_metrics enc_message].
    assert (E1 : parse_device_metrics (enc_message (device_wire d)) device_zero = d).
    { unfold parse_device_metrics. rewrite sub_message_fold, device_fold;
        [destruct d; cbn in *; by subst|done|by apply wire32_ok|done]. }
    assert (E2 : parse_env_metrics (enc_message (env_wire e)) env_zero = e).
    { unfold parse_env_metrics. rewrite sub_message_fold, env_fold;
        [destruct e; cbn in *; by subst|done|by apply wire32_ok|done]. }
    by rewrite E1, E2.
  - repeat apply Forall_cons_2; try apply Forall_nil_2; split; cbn [fst snd wire_ok]; lia.
  - reflexivity.
Qed.

Definition witness_device : device_metrics := mk_device true 101 0x40833333 0x41200000 0x3f800000 86400.
Definition witness_env : env_metrics :=
  mk_env true 0x41b80000 0x42480000 1 2 3 4 250 5 6 7 8 9 359 10 11 12 13 14 15 16 55 17.

Lemma telemetry_round_trip_witness :
  iaq (te_env (snd (mesh_decode_telemetry (enc_message [(1, WFixed32 1700000000);
     (2, WBytes (enc_message (device_wire witness_device)));
     (3, WBytes (enc_message (env_wire witness_env)))])))) = 250.
Proof.
  rewrite (telemetry_round_trip 1700000000 witness_device witness_env);
    [reflexivity|lia| | |reflexivity|reflexivity|vm_compute; reflexivity|vm_compute; reflexivity];
    repeat apply Forall_cons_2; try apply Forall_nil_2; cbn; lia.
Defined.

(** ** Position *)

(** A field the position decoder does not use: an unknown number, or a known
    one with another wire type. *)
Definition ignored_position (f : Z * wire) : Prop :=
  field_ok f /\ forall o, apply_field position_fields o f = o.

(** A value of an int32 field on the wire: sign-extended to 64 bits. *)
Definition wire_int32 (v : Z) : wire := WVarint (u64 v).

Definition position_wire (lat lon alt time hae sats : Z) : list (Z * wire) :=
  [(1, WFixed32 (u32 lat)); (2, WFixed32 (u32 lon)); (3, wire_int32 alt); (4, WFixed32 time);
   (9, WVarint (zigzag_enc 32 hae)); (19, WVarint sats)].

Lemma fold_ignored fs o :
  Forall ignored_position fs -> fold_left (apply_field position_fields) fs o = o.
Proof. intros H. induction H as [|f fs [_ Hf] H IH]; [done|]. cbn [fold_left]. by rewrite Hf. Qed.

Lemma swrap_wrap w w' v : 0 < w <= w' -> swrap w (wrap w' v) = swrap w v.
Proof.
  intros Hw. unfold swrap, wrap. f_equal.
  rewrite Z.add_mod, (Z.add_mod v) by (apply Z.pow_nonzero; lia). f_equal. f_equal.
  replace (2 ^ w') with (2 ^ w * 2 ^ (w' - w)) by (rewrite <- Z.pow_add_r by lia; f_equal; lia).
  assert (0 < 2 ^ w) by (apply Z.pow_pos_nonneg; lia).
  assert (0 < 2 ^ (w' - w)) by (apply Z.pow_pos_nonneg; lia).
  rewrite Z.rem_mul_r by lia. rewrite Z.mul_comm, Z.mod_add by lia. apply Z.mod_mod. lia.
Qed.

Lemma swrap_small w v : 0 < w -> - 2 ^ (w - 1) <= v < 2 ^ (w - 1) -> swrap w v = v.
Proof.
  intros Hw Hv. unfold swrap. assert (2 ^ w = 2 * 2 ^ (w - 1)) by (rewrite <- Z.pow_succ_r by lia; f_equal; lia).
  rewrite Z.mod_small by lia. lia.
Qed.

Lemma zigzag_enc_range v : - 2 ^ 31 <= v < 2 ^ 31 -> 0 <= zigzag_enc 32 v < 2 ^ 32.
Proof. unfold zigzag_enc. destruct (Z.ltb_spec v 0); lia. Qed.

(** Position round trip.  For any coordinates, altitude, time, altitude
    above the ellipsoid and satellite count in the range of their wire types,
    the message decodes to these values (the coordinates scaled by 1e-7 in
    double precision), with the corresponding flags set, whatever unknown
    fields or fields of an unexpected wire type follow. *)
Theorem position_round_trip lat lon alt time hae sats other :
  - 2 ^ 31 <= lat < 2 ^ 31 -> - 2 ^ 31 <= lon < 2 ^ 31 -> - 2 ^ 31 <= alt < 2 ^ 31 ->
  0 <= time < 2 ^ 32 -> - 2 ^ 31 <= hae < 2 ^ 31 -> 0 <= sats < 2 ^ 32 ->
  Forall ignored_position other ->
  mesh_decode_position (enc_message (position_wire lat lon alt time hae sats ++ other)) =
  (true, position_zero {{ po_have_lat := true; po_lat_deg := f64_mul (f64_of_Z lat) f64_1e_7;
                          po_have_lon := true; po_lon_deg := f64_mul (f64_of_Z lon) f64_1e_7;
                          po_have_alt := true; po_altitude_m := alt;
                          po_have_time := true; po_time := time;
                          po_have_alt_hae := true; po_altitude_hae_m := hae;
                          po_sats_in_view := sats }}).
Proof.
  intros Hlat Hlon Halt Ht Hhae Hs Ho. unfold mesh_decode_position.
  pose proof (zigzag_enc_range hae Hhae) as Hz.
  rewrite pb_message_fold.
  - rewrite fold_left_app, fold_ignored by done.
    cbn -[deg_of_fixed u32 i32 pb_zigzag32 u64]. unfold deg_of_fixed, i32, u32, u64.
    rewrite !swrap_wrap, !swrap_small by lia. rewrite !(wrap_small 32) by lia.
    unfold pb_zigzag32, i32, u32. by rewrite (zigzag_round 32 hae) by lia.
  - apply Forall_app. split.
    + repeat apply Forall_cons_2; try apply Forall_nil_2; split; cbn [fst snd wire_ok]; try lia;
        try (apply (wrap_range 32); lia); apply (wrap_range 64); lia.
    + eapply Forall_impl; [exact Ho|]. by intros f [? _].
  - rewrite forallb_app. apply andb_true_intro. split; [reflexivity|].
    apply forallb_forall. intros [n w] _. unfold table_ok. cbn [fst snd].
    destruct (table_find position_fields n) as [a|] eqn:E; [|done].
    unfold position_fields in E. cbn [table_find] in E.
    repeat (case_match; [by injection E as <- | ]); done.
Qed.

Lemma position_round_trip_witness :
  po_altitude_m (snd (mesh_decode_position (enc_message
    (position_wire 377749000 (-1224194000) (-12) 1700000000 7 9 ++ [(99, WVarint 5); (1, WVarint 3)])))) = -12.
Proof.
  rewrite position_round_trip; [reflexivity|lia..|].
  repeat apply Forall_cons_2; try apply Forall_nil_2; (split; [split; cbn; lia|]); intros o; by destruct o.
Defined.

(** ** Array bounds *)

Lemma parse_packed_cap fuel conv cap q arr :
  (length arr <= cap)%nat -> (length (parse_packed fuel conv cap q arr) <= cap)%nat.
Proof.
  revert q arr. induction fuel as [|k IH]; intros q arr Ha; [done|]. cbn [parse_packed].
  destruct q; [done|]. destruct (Nat.ltb_spec (length arr) cap); [|done].
  destruct (pb_read_varint _) as [[v|] q']; [|done]. apply IH. rewrite length_app. cbn [length]. lia.
Qed.

Lemma append_repeated_cap conv cap wt cur arr :
  (length arr <= cap)%nat -> (length (snd (append_repeated conv cap wt cur arr)) <= cap)%nat.
Proof.
  intros Ha. unfold append_repeated. case_if; [|case_if].
  - destruct (pb_read_varint cur) as [[v|] c]; [|done]. cbn [snd].
    destruct (Nat.ltb_spec (length arr) cap); [|done]. rewrite length_app. cbn [length]. lia.
  - destruct (pb_read_length cur) as [[b|] c]; [|done]. by apply parse_packed_cap.
  - by destruct (pb_skip_value wt cur) as [[] c].
Qed.

Lemma append_repeated_consumed conv cap wt cur arr cur' arr' :
  append_repeated conv cap wt cur arr = (Some cur', arr') -> consumed cur cur'.
Proof.
  unfold append_repeated. case_if; [|case_if].
  - pose proof (pb_read_varint_consumed cur) as H. destruct (pb_read_varint cur) as [[v|] c]; [|done].
    by intros [= <- _].
  - pose proof (pb_read_length_consumed cur) as H. destruct (pb_read_length cur) as [[v|] c]; [|done].
    by intros [= <- _].
  - pose proof (pb_skip_value_consumed wt cur) as H. destruct (pb_skip_value wt cur) as [[] c]; [|done].
    by intros [= <- _].
Qed.

Lemma on_repeated_consumed {T} conv cap get (set : list Z -> T -> T) wt cur st cur' st' :
  on_repeated conv cap get set wt cur st = Next cur' st' -> consumed cur cur'.
Proof.
  unfold on_repeated. destruct (append_repeated _ _ _ _ _) as [[c|] a] eqn:E; [|done].
  apply append_repeated_consumed in E. by intros [= <- _].
Qed.

#[export] Instance route_discovery_in_bounds : InBounds route_discovery_switch.
Proof.
  intros fld wt cur st cur' st'. unfold route_discovery_switch.
  case_if; [apply on_repeated_consumed|apply on_skip_consumed].
Qed.

#[export] Instance traceroute_in_bounds : InBounds traceroute_switch.
Proof.
  intros fld wt cur st cur' st'. unfold traceroute_switch.
  repeat (case_if; [apply on_repeated_consumed|]). apply on_skip_consumed.
Qed.

#[export] Instance admin_in_bounds : InBounds admin_switch.
Proof.
  intros fld wt cur st cur' st'. unfold admin_switch. destruct (fld =? 101).
  - apply on_read_consumed; auto with mesh.
  - apply on_skip_consumed.
Qed.

#[export] Instance storeforward_in_bounds : InBounds storeforward_switch.
Proof.
  intros fld wt cur st cur' st'. unfold storeforward_switch.
  repeat (case_if; [apply on_read_consumed; auto with mesh|]). apply on_skip_consumed.
Qed.

(** An array grown by [on_repeated] keeps any bound above its capacity. *)
Lemma on_repeated_keeps {T} conv cap get (set : list Z -> T -> T) (I : T -> Prop) wt cur st :
  (forall a st, (length a <= cap)%nat -> I st -> I (set a st)) ->
  (length (get st) <= cap)%nat -> I st ->
  match on_repeated conv cap get set wt cur st with Next _ st1 => I st1 | Stop st1 => I st1 end.
Proof.
  intros Hset Hg HI. unfold on_repeated. pose proof (append_repeated_cap conv cap wt cur (get st) Hg) as H.
  destruct (append_repeated _ _ _ _ _) as [[c|] a]; by apply Hset.
Qed.

Lemma copy_str_length n s : (0 < n)%nat -> (length (copy_str n s) < n)%nat.
Proof.
  intros. unfold copy_str. destruct (Nat.leb_spec n (length s)); [rewrite length_take; lia|lia].
Qed.

Definition user_in_bounds (u : mesh_user) : Prop :=
  (length (us_id u) < 24 /\ length (us_long_name u) < 64 /\ length (us_short_name u) < 8 /\
   length (us_macaddr u) = 6 /\ length (us_public_key u) = 32)%nat.

Definition traceroute_bounded (t : mesh_traceroute) : Prop :=
  (length (tr_route t) <= 16 /\ length (tr_snr_towards t) <= 16 /\ length (tr_route_back t) <= 16 /\
   length (tr_snr_back t) <= 16)%nat.

Definition atak_bounded (a : mesh_atak) : Prop :=
  (length (ak_callsign a) < 32 /\ length (ak_device_callsign a) < 32 /\ length (ak_chat_message a) < 200 /\
   length (ak_chat_to a) < 64 /\ length (ak_chat_to_callsign a) < 32 /\
   length (ak_chat_receipt_for_uid a) < 64 /\ length (ak_chat_lang a) < 16 /\
   length (ak_chat_room_id a) < 40)%nat.

Ltac bounded_tac :=
  repeat apply Forall_cons_2; try apply Forall_nil_2; cbn [snd action_keeps];
  intros; repeat case_if; zb; unfold user_in_bounds, atak_bounded in *; rcbn;
  intuition (try (apply copy_str_length; lia); try lia).

Lemma user_bounds buf : user_in_bounds (snd (mesh_decode_user buf)).
Proof.
  unfold mesh_decode_user.
  pose proof (table_keeps user_fields user_in_bounds buf user_zero) as H.
  destruct (pb_message _ _ _) as [o u]. cbn [snd] in H.
  replace (snd (match o with AtEnd => _ | _ => (false, u) end)) with u by (by destruct o).
  apply H; [bounded_tac|unfold user_in_bounds; cbn; lia].
  rewrite length_app, length_drop. lia.
Qed.

Lemma sub_message_keeps {T} (tbl : list (Z * action T)) fin (I : T -> Prop) buf st :
  Forall (fun p => action_keeps buf I (snd p)) tbl -> (forall st, I st -> I (fin st)) -> I st ->
  I (sub_message tbl fin buf st).
Proof.
  intros Ht Hf HI. unfold sub_message. pose proof (table_keeps tbl I buf st Ht HI) as H.
  destruct (pb_message _ _ _) as [[] s]; cbn [snd] in H; auto.
Qed.

Lemma atak_bounds buf : atak_bounded (snd (mesh_decode_atak buf)).
Proof.
  unfold mesh_decode_atak.
  pose proof (table_keeps atak_fields atak_bounded buf atak_zero) as H.
  destruct (pb_message _ _ _) as [o u]. cbn [snd] in H.
  replace (snd (match o with AtEnd => _ | BadTag => _ | BadField => (false, u) end)) with u by (by destruct o).
  apply H; [|unfold atak_bounded; cbn; lia].
  repeat apply Forall_cons_2; try apply Forall_nil_2; cbn [snd action_keeps];
    [intros; unfold atak_bounded in *; by rcbn|intros b st _ Hst..|
     intros; unfold atak_bounded in *; by rcbn];
    unfold parse_contact, parse_group, parse_status, parse_pli, parse_chat;
    apply (sub_message_keeps _ _ atak_bounded); auto; try (unfold atak_bounded in *; by rcbn); bounded_tac.
Qed.

Lemma routing_bounds buf : (length (ro_route (snd (mesh_decode_routing buf))) <= 16)%nat.
Proof.
  unfold mesh_decode_routing.
  pose proof (table_keeps routing_fields (fun o => length (ro_route o) <= 16)%nat buf routing_zero) as H.
  destruct (pb_message _ _ _) as [o u]. cbn [snd] in H.
  replace (snd (match o with AtEnd => _ | _ => (false, u) end)) with u by (by destruct o).
  assert (Hd : forall b o, (length (ro_route o) <= 16)%nat -> (length (ro_route (parse_route_discovery b o)) <= 16)%nat).
  { intros b o' Ho. unfold parse_route_discovery.
    apply (pb_message_invariant route_discovery_switch (fun o => length (ro_route o) <= 16)%nat); [|done].
    intros fld wt cur st _ Hst. unfold route_discovery_switch. case_if; [|by apply on_skip_keeps].
    by apply (on_repeated_keeps u32 16 ro_route _ (fun o => length (ro_route o) <= 16)%nat). }
  apply H; [|cbn; lia].
  repeat apply Forall_cons_2; try apply Forall_nil_2; cbn [snd action_keeps]; intros; auto; apply Hd; by rcbn.
Qed.

Lemma traceroute_bounds buf : traceroute_bounded (snd (mesh_decode_traceroute buf)).
Proof.
  unfold mesh_decode_traceroute.
  pose proof (pb_message_invariant traceroute_switch traceroute_bounded buf (mk_traceroute [] [] [] [])) as H.
  destruct (pb_message _ _ _) as [o u]. cbn [snd] in H.
  replace (snd (match o with AtEnd => _ | _ => (false, u) end)) with u by (by destruct o).
  apply H; [|unfold traceroute_bounded; cbn; lia].
  intros fld wt cur st _ Hst. unfold traceroute_switch.
  repeat (case_if; [apply (on_repeated_keeps _ _ _ _ traceroute_bounded);
    [intros; unfold traceroute_bounded in *; rcbn; tauto|apply Hst|done]|]).
  by apply on_skip_keeps.
Qed.

Lemma neighborinfo_bounds buf : (length (ni_neighbors (snd (mesh_decode_neighborinfo buf))) <= 16)%nat.
Proof.
  unfold mesh_decode_neighborinfo.
  pose proof (table_keeps neighborinfo_fields (fun o => length (ni_neighbors o) <= 16)%nat buf
    (mk_neighborinfo 0 0 0 [])) as H.
  destruct (pb_message _ _ _) as [o u]. cbn [snd] in H.
  replace (snd (match o with AtEnd => _ | _ => (false, u) end)) with u by (by destruct o).
  apply H; [|cbn; lia].
  repeat apply Forall_cons_2; try apply Forall_nil_2; cbn [snd action_keeps]; intros; auto.
  case_if; [|done]. zb. rcbn. rewrite length_app. cbn [length]. lia.
Qed.

(** C39: memory safety of the decoders that fill fixed-size arrays.  For any
    payload whatsoever, well-formed or not: the strings of the user and ATAK
    records keep room for their terminator, the MAC address and public key
    arrays keep their size, and routes, SNR lists and neighbour lists hold at
    most 16 elements. *)
Theorem decoders_in_bounds buf :
  user_in_bounds (snd (mesh_decode_user buf)) /\
  atak_bounded (snd (mesh_decode_atak buf)) /\
  (length (ro_route (snd (mesh_decode_routing buf))) <= 16)%nat /\
  traceroute_bounded (snd (mesh_decode_traceroute buf)) /\
  (length (ni_neighbors (snd (mesh_decode_neighborinfo buf))) <= 16)%nat /\
  (length (snd (mesh_decode_detection buf)) < 128)%nat.
Proof.
  split; [apply user_bounds|]. split; [apply atak_bounds|]. split; [apply routing_bounds|].
  split; [apply traceroute_bounds|]. split; [apply neighborinfo_bounds|].
  unfold mesh_decode_detection. cbn zeta. cbn [snd]. rewrite length_take.
  destruct (Nat.ltb_spec (length buf) 127); lia.
Qed.

(** ** Routes *)

(** A route is read as varints.  The header comment of mesh_routing_t says
    the node ids of a RouteDiscovery are repeated fixed32; a packed block of
    fixed32 ids, here the single id 0x04030201, is decoded as one id per
    byte. *)
Theorem packed_fixed32_route_misread :
  ro_route (snd (mesh_decode_routing
    (enc_message [(1, WBytes (enc_message [(1, WBytes (enc_fixed 4 0x04030201))]))]))) = [1; 2; 3; 4].
Proof. reflexivity. Qed.
