(* ===== verification/MeshCoreLpp.v ===== *)
(** CayenneLPP telemetry in MeshCore GRP_DATA blobs (src/meshcore_lpp.c):
    the type table, the record decoder and the two renderings. *)

From Stdlib Require Import String.
From S2P Require Import Prelude CString CFloat.

Local Open Scope Z_scope.

Definition MESHCORE_LPP_MAX_RECORDS : nat := 16.

Record lpp_type_info := mk_lpp_type {
  lt_type : Z;
  lt_name : list Z;
  lt_unit : list Z;
  lt_width : nat;
  lt_n_values : nat;
  lt_mult : Z;
  lt_is_signed : bool;
}.

Definition LPP_TYPES : list lpp_type_info :=
  [ mk_lpp_type 0   (str "digital_in")    (str "")      1 1 1    false;
    mk_lpp_type 1   (str "digital_out")   (str "")      1 1 1    false;
    mk_lpp_type 2   (str "analog_in")     (str "")      2 1 100  true;
    mk_lpp_type 3   (str "analog_out")    (str "")      2 1 100  true;
    mk_lpp_type 100 (str "generic")       (str "")      4 1 1    false;
    mk_lpp_type 101 (str "luminosity")    (str "lux")   2 1 1    false;
    mk_lpp_type 102 (str "presence")      (str "")      1 1 1    false;
    mk_lpp_type 103 (str "temperature")   (str "C")     2 1 10   true;
    mk_lpp_type 104 (str "humidity")      (str "%")     1 1 2    false;
    mk_lpp_type 113 (str "accelerometer") (str "G")     2 3 1000 true;
    mk_lpp_type 115 (str "pressure")      (str "hPa")   2 1 10   false;
    mk_lpp_type 116 (str "voltage")       (str "V")     2 1 100  false;
    mk_lpp_type 117 (str "current")       (str "A")     2 1 1000 true;
    mk_lpp_type 118 (str "frequency")     (str "Hz")    4 1 1    false;
    mk_lpp_type 120 (str "percentage")    (str "%")     1 1 1    false;
    mk_lpp_type 121 (str "altitude")      (str "m")     2 1 1    true;
    mk_lpp_type 125 (str "concentration") (str "ppm")   2 1 1    false;
    mk_lpp_type 128 (str "power")         (str "W")     2 1 1    false;
    mk_lpp_type 130 (str "distance")      (str "m")     4 1 1000 false;
    mk_lpp_type 131 (str "energy")        (str "kWh")   4 1 1000 false;
    mk_lpp_type 132 (str "direction")     (str "deg")   2 1 1    false;
    mk_lpp_type 133 (str "unixtime")      (str "")      4 1 1    false;
    mk_lpp_type 134 (str "gyrometer")     (str "deg/s") 2 3 100  true;
    mk_lpp_type 135 (str "colour")        (str "")      1 3 1    false;
    mk_lpp_type 136 (str "gps")           (str "")      3 3 0    true;
    mk_lpp_type 142 (str "switch")        (str "")      1 1 1    false ].

Definition lpp_type_lookup (type : Z) : option lpp_type_info :=
  find (fun t => lt_type t =? type) LPP_TYPES.

(** ** Values *)

(** The big-endian magnitude and sign of a value of [width] bytes. *)
Definition lpp_raw (p : list Z) (width : nat) : Z :=
  fold_left (fun raw b => u32 (Z.lor (u32 (Z.shiftl raw 8)) b)) (take width p) 0.

Definition lpp_signed (raw : Z) (width : nat) (is_signed : bool) : Z * Z :=
  let bit := u32 (Z.shiftl 1 (Z.of_nat width * 8 - 1)) in
  if is_signed && nz (Z.land raw bit) then (-1, u32 (u32 (Z.shiftl bit 1) - raw)) else (1, raw).

Definition lpp_read_value (p : list Z) (width : nat) (mult : Z) (is_signed : bool) : spec_float :=
  let '(sign, raw) := lpp_signed (lpp_raw p width) width is_signed in
  if nz mult then f32_mul (f32_of_Z sign) (f32_div (f32_of_Z raw) (f32_of_Z mult))
  else f32_mul (f32_of_Z sign) (f32_of_Z raw).

Record lpp_record := mk_lpp_record {
  lr_channel : Z;
  lr_type : Z;
  lr_type_name : list Z;
  lr_unit : list Z;
  lr_values : list spec_float;     (* values[0 .. n_values) *)
}.

(** ** Decoder *)

Definition lpp_record_of (channel type : Z) (ti : lpp_type_info) (p : list Z) : lpp_record :=
  {| lr_channel := channel; lr_type := type; lr_type_name := lt_name ti; lr_unit := lt_unit ti;
     lr_values :=
       if type =? 136 then
         [lpp_read_value p 3 10000 true; lpp_read_value (drop 3 p) 3 10000 true;
          lpp_read_value (drop 6 p) 3 100 true]
       else map (fun v => lpp_read_value (drop (v * lt_width ti) p) (lt_width ti) (lt_mult ti) (lt_is_signed ti))
                (seq 0 (lt_n_values ti)) |}.

(** [while (pos < len)]: [None] is a [return -1].  [n] counts the records
    seen, of which the first [max_records] are stored in [out]. *)
Fixpoint lpp_loop (fuel : nat) (max_records : nat) (p : list Z) (n : nat) (out : list lpp_record)
  : option (nat * list lpp_record) :=
  match p with
  | [] => Some (n, out)
  | _ =>
      match fuel with
      | O => None
      | S k =>
          match p with
          | channel :: type :: p =>
              if channel =? 0 then None
              else match lpp_type_lookup type with
                   | None => None
                   | Some ti =>
                       let rec_bytes := (lt_width ti * lt_n_values ti)%nat in
                       if (length p <? rec_bytes)%nat then None
                       else
                         let out := if (n <? max_records)%nat
                                    then out ++ [lpp_record_of channel type ti p] else out in
                         lpp_loop k max_records (drop rec_bytes p) (S n) out
                   end
          | _ => None
          end
      end
  end.

(** The records; [None] is the return value -1.  A record takes at least
    three bytes, so [length buf] rounds are enough. *)
Definition meshcore_lpp_decode (buf : list Z) (max_records : nat) : option (list lpp_record) :=
  match buf with
  | [] => None
  | _ => match lpp_loop (length buf) max_records buf 0 [] with
         | None => None
         | Some (n, out) => if (n =? 0)%nat then None else Some out
         end
  end.

(** ** Rendering *)

(** A buffer of [cap] bytes being filled by successive
    [snprintf(out + off, cap - off, ...)]: a piece that does not fit is cut,
    and the writer returns -1. *)
Fixpoint snprintf_all (cap : nat) (off : list Z) (pieces : list (list Z)) : bool * list Z :=
  match pieces with
  | [] => (true, off)
  | s :: t =>
      if (cap - length off <=? length s)%nat then (false, off ++ take (cap - length off - 1) s)
      else snprintf_all cap (off ++ s) t
  end.

Definition value_of (r : lpp_record) (i : nat) : spec_float := nth i (lr_values r) f_zero.

Definition lpp_json_piece (i : nat) (r : lpp_record) : list Z :=
  let q := [34] in
  let f4 k := fmt_f 4 (f64_of_f32 (value_of r k)) in
  (if (i =? 0)%nat then [] else str ",") ++ str "{" ++ q ++ str "ch" ++ q ++ str ":" ++ fmt_d (lr_channel r) ++
  str "," ++ q ++ str "type" ++ q ++ str ":" ++ fmt_d (lr_type r) ++
  str "," ++ q ++ str "name" ++ q ++ str ":" ++ q ++ lr_type_name r ++ q ++
  str "," ++ q ++ str "unit" ++ q ++ str ":" ++ q ++ lr_unit r ++ q ++
  str "," ++ q ++ str "value" ++ q ++ str ":" ++
  (if (length (lr_values r) =? 3)%nat
   then str "[" ++ f4 0%nat ++ str "," ++ f4 1%nat ++ str "," ++ f4 2%nat ++ str "]"
   else f4 0%nat) ++ str "}".

(** Whether it fits ([true] is a non-negative return value) and what the
    buffer holds. *)
Definition meshcore_lpp_to_json (records : list lpp_record) (cap : nat) : bool * list Z :=
  snprintf_all cap [] ([str "["] ++ imap lpp_json_piece records ++ [str "]"]).

Definition lpp_text_piece (i : nat) (r : lpp_record) : list Z :=
  (if (i =? 0)%nat then [] else str " ") ++ lr_type_name r ++ str "=" ++
  (if (length (lr_values r) =? 3)%nat
   then fmt_f 3 (value_of r 0) ++ str "," ++ fmt_f 3 (value_of r 1) ++ str "," ++ fmt_f 3 (value_of r 2)
   else fmt_f 2 (value_of r 0)) ++ lr_unit r.

Definition meshcore_lpp_to_text (records : list lpp_record) (cap : nat) : bool * list Z :=
  snprintf_all cap [] (imap lpp_text_piece records).

(** ** The decoder accepts exactly the record runs *)

(** A record on the wire: channel, type and the bytes of its values. *)
Definition lpp_item : Type := Z * Z * list Z.

Definition item_wire (r : lpp_item) : list Z := let '(c, t, b) := r in c :: t :: b.

Definition item_ok (r : lpp_item) : Prop :=
  let '(c, t, b) := r in
  c <> 0 /\ exists ti, lpp_type_lookup t = Some ti /\ length b = (lt_width ti * lt_n_values ti)%nat.

Definition item_record (r : lpp_item) : lpp_record :=
  let '(c, t, b) := r in
  match lpp_type_lookup t with
  | Some ti => lpp_record_of c t ti b
  | None => mk_lpp_record c t [] [] []
  end.

Lemma lpp_read_app a b w m s : (w <= length a)%nat -> lpp_read_value (a ++ b) w m s = lpp_read_value a w m s.
Proof. intros H. unfold lpp_read_value, lpp_raw. by rewrite take_app_le by done. Qed.

(** A record reads nothing past its own bytes. *)
Lemma lpp_record_app c t ti b rest :
  lpp_type_lookup t = Some ti -> length b = (lt_width ti * lt_n_values ti)%nat ->
  lpp_record_of c t ti (b ++ rest) = lpp_record_of c t ti b.
Proof.
  intros Ht Hl. unfold lpp_record_of. f_equal. destruct (Z.eqb_spec t 136) as [-> | Hn].
  - injection Ht as <-. cbn in Hl.
    rewrite !drop_app_le by lia. by rewrite !lpp_read_app by (rewrite ?length_drop; lia).
  - apply map_ext_in. intros v Hv. apply in_seq in Hv.
    rewrite drop_app_le by nia. apply lpp_read_app. rewrite length_drop. nia.
Qed.

Lemma lpp_loop_run fuel max rs n out :
  Forall item_ok rs -> (length (concat (map item_wire rs)) <= fuel)%nat -> length out = Nat.min n max ->
  lpp_loop fuel max (concat (map item_wire rs)) n out =
  Some ((n + length rs)%nat, out ++ take (max - n) (map item_record rs)).
Proof.
  intros Hok. revert fuel n out. induction Hok as [|[[c t] b] rs (Hc & ti & Ht & Hl) Hok IH];
    intros fuel n out Hf Ho.
  { destruct fuel; cbn [map concat lpp_loop]; rewrite Nat.add_0_r, take_nil, app_nil_r; done. }
  cbn [map concat item_wire length app] in Hf |- *. destruct fuel as [|fuel]; [lia|]. cbn [lpp_loop].
  destruct (Z.eqb_spec c 0); [done|]. rewrite Ht. rewrite length_app in Hf |- *.
  destruct (Nat.ltb_spec (length b + length (concat (map item_wire rs))) (lt_width ti * lt_n_values ti)); [lia|].
  rewrite <- Hl, drop_app_length, lpp_record_app by done.
  assert (Er : item_record (c, t, b) = lpp_record_of c t ti b) by (unfold item_record; by rewrite Ht).
  rewrite Er. destruct (Nat.ltb_spec n max).
  - rewrite IH by (rewrite ?length_app; cbn [length]; lia).
    replace (max - n)%nat with (S (max - S n)) by lia. cbn [take]. rewrite <- app_assoc. cbn [app length].
    do 2 f_equal. lia.
  - rewrite IH by lia. replace (max - S n)%nat with 0%nat by lia. replace (max - n)%nat with 0%nat by lia.
    cbn [take length]. do 2 f_equal. lia.
Qed.

(** What the loop accepts is a record run. *)
Lemma lpp_loop_inv fuel max p n out n' out' :
  lpp_loop fuel max p n out = Some (n', out') ->
  exists rs, Forall item_ok rs /\ p = concat (map item_wire rs) /\ n' = (n + length rs)%nat.
Proof.
  revert p n out. induction fuel as [|fuel IH]; intros p n out.
  { destruct p; [|done]. intros [= <- <-]. exists []. split; [by apply Forall_nil_2|]. split; [done|]. cbn. lia. }
  destruct p as [|c p]; [intros [= <- <-]; exists []; split; [by apply Forall_nil_2|]; split; [done|]; cbn; lia|].
  cbn [lpp_loop]. destruct p as [|t p]; [done|]. destruct (Z.eqb_spec c 0); [done|].
  destruct (lpp_type_lookup t) as [ti|] eqn:Ht; [|done].
  destruct (Nat.ltb_spec (length p) (lt_width ti * lt_n_values ti)); [done|]. intros Hloop.
  apply IH in Hloop as (rs & Hrs & Hp & Hn).
  exists ((c, t, take (lt_width ti * lt_n_values ti) p) :: rs). split; [|split].
  - apply Forall_cons_2; [|done]. split; [done|]. exists ti. split; [done|]. rewrite length_take. lia.
  - cbn [map concat item_wire app]. by rewrite <- Hp, take_drop.
  - cbn [length]. lia.
Qed.

(** The LPP decoder accepts a blob exactly when the whole of it is a
    non-empty run of records, each with a non-zero channel, a type of the
    table and precisely the bytes that type needs; it then returns those
    records, the first [max] of them. *)
Theorem lpp_decode_iff_record_run buf max out :
  meshcore_lpp_decode buf max = Some out <->
  exists rs, rs <> [] /\ Forall item_ok rs /\ buf = concat (map item_wire rs) /\
             out = take max (map item_record rs).
Proof.
  unfold meshcore_lpp_decode. split.
  - destruct buf as [|b buf]; [done|].
    destruct (lpp_loop (length (b :: buf)) max (b :: buf) 0 []) as [[n out']|] eqn:E; [|done].
    destruct (Nat.eqb_spec n 0) as [|Hn]; [done|]. intros [= <-].
    destruct (lpp_loop_inv _ _ _ _ _ _ _ E) as (rs & Hrs & Hp & Hl).
    exists rs. split; [intros ->; cbn in Hl; lia|]. split; [done|]. split; [done|].
    rewrite Hp, lpp_loop_run in E by (done || cbn; lia). rewrite Nat.sub_0_r in E. cbn [app] in E. congruence.
  - intros (rs & Hne & Hrs & -> & ->). rewrite lpp_loop_run by (done || cbn; lia).
    rewrite Nat.sub_0_r. cbn [app Nat.add]. destruct rs as [|[[c t] b] rs]; [done|]. reflexivity.
Qed.

(** Telemetry text that does not fit is cut, and the caller does not look:
    twelve accelerometer records, 96 bytes of blob, need more than the 1024
    bytes of mc_telemetry_json, and what the buffer then holds has no closing
    bracket. *)
Theorem lpp_json_cut :
  let blob := concat (replicate 12 [1; 113; 128; 0; 128; 0; 128; 0]) in
  match meshcore_lpp_decode blob MESHCORE_LPP_MAX_RECORDS with
  | Some recs =>
      let '(fits, text) := meshcore_lpp_to_json recs 1024 in
      fits = false /\ Z.of_nat (length text) = 1023 /\ last text <> Some 93
  | None => False
  end.
Proof. vm_compute. split; [reflexivity|]. split; [reflexivity|discriminate]. Qed.
