(* ===== verification/MeshCore.v ===== *)
(** The MeshCore channel table (src/meshcore.c, src/meshcore.h): payload
    types, channel hash, secret decoding, the upserting channel set, hashtag
    channels and the candidate names of the dictionary attacks.

    OpenSSL's SHA-256 and base64 block decoder are the parameters [sha256]
    and [evp_decode_block]; a failing call is [None]. *)

From Stdlib Require Import String.
From S2P Require Import Prelude CString Keyset.

Local Open Scope Z_scope.

(** ** Constants *)

Definition MC_HEADER_ROUTE_TYPE_MASK : Z := 0x03.
Definition MC_HEADER_PAYLOAD_TYPE_MASK : Z := 0x3C.
Definition MC_HEADER_PAYLOAD_TYPE_SHIFT : Z := 2.
Definition MC_HEADER_PAYLOAD_VER_MASK : Z := 0xC0.
Definition MC_HEADER_PAYLOAD_VER_SHIFT : Z := 6.
Definition MC_ROUTE_TRANSPORT_FLOOD : Z := 0.
Definition MC_ROUTE_FLOOD : Z := 1.
Definition MC_ROUTE_DIRECT : Z := 2.
Definition MC_ROUTE_TRANSPORT_DIRECT : Z := 3.

Definition mc_route_has_transport_codes (route_type : Z) : bool :=
  (route_type =? MC_ROUTE_TRANSPORT_FLOOD) || (route_type =? MC_ROUTE_TRANSPORT_DIRECT).

Definition MC_PAYLOAD_REQ : Z := 0.
Definition MC_PAYLOAD_RESPONSE : Z := 1.
Definition MC_PAYLOAD_TXT_MSG : Z := 2.
Definition MC_PAYLOAD_ACK : Z := 3.
Definition MC_PAYLOAD_ADVERT : Z := 4.
Definition MC_PAYLOAD_GRP_TXT : Z := 5.
Definition MC_PAYLOAD_GRP_DATA : Z := 6.
Definition MC_PAYLOAD_ANON_REQ : Z := 7.
Definition MC_PAYLOAD_PATH : Z := 8.
Definition MC_PAYLOAD_TRACE : Z := 9.
Definition MC_PAYLOAD_MULTIPART : Z := 0x0A.
Definition MC_PAYLOAD_CONTROL : Z := 0x0B.
Definition MC_PAYLOAD_RAW_CUSTOM : Z := 0x0F.

Definition ADV_TYPE_MASK : Z := 0x0F.
Definition ADV_LATLON_MASK : Z := 0x10.
Definition ADV_FEAT1_MASK : Z := 0x20.
Definition ADV_FEAT2_MASK : Z := 0x40.
Definition ADV_NAME_MASK : Z := 0x80.
Definition MC_CTL_TYPE_NODE_DISCOVER_REQ : Z := 0x80.
Definition MC_CTL_TYPE_NODE_DISCOVER_RESP : Z := 0x90.

Definition MC_MAX_PACKET_PAYLOAD : nat := 184.
Definition MC_MAX_PATH_SIZE : nat := 64.
Definition MC_PUB_KEY_SIZE : nat := 32.
Definition MC_SIGNATURE_SIZE : nat := 64.
Definition MC_CIPHER_MAC_SIZE : nat := 2.
Definition MC_CIPHER_BLOCK_SIZE : nat := 16.
Definition MC_CHANNEL_MAX_ENTRIES : nat := 32.
Definition MC_CHANNEL_MAX_NAME : nat := 32.
Definition MC_CHANNEL_SECRET_BYTES : nat := 32.

Definition MC_PAYLOAD_NAMES : list (Z * list Z) :=
  [ (MC_PAYLOAD_REQ, str "REQ"); (MC_PAYLOAD_RESPONSE, str "RESPONSE"); (MC_PAYLOAD_TXT_MSG, str "TXT_MSG");
    (MC_PAYLOAD_ACK, str "ACK"); (MC_PAYLOAD_ADVERT, str "ADVERT"); (MC_PAYLOAD_GRP_TXT, str "GRP_TXT");
    (MC_PAYLOAD_GRP_DATA, str "GRP_DATA"); (MC_PAYLOAD_ANON_REQ, str "ANON_REQ");
    (MC_PAYLOAD_PATH, str "PATH"); (MC_PAYLOAD_TRACE, str "TRACE"); (MC_PAYLOAD_MULTIPART, str "MULTIPART");
    (MC_PAYLOAD_CONTROL, str "CONTROL"); (MC_PAYLOAD_RAW_CUSTOM, str "RAW_CUSTOM") ].

Definition mc_payload_type_name (payload_type : Z) : list Z :=
  match find (fun p => fst p =? payload_type) MC_PAYLOAD_NAMES with
  | Some p => snd p
  | None => str "UNKNOWN"
  end.

(** ** The channel set *)

Record meshcore_channel := mk_channel {
  ch_name : list Z;
  ch_secret : list Z;        (* secret[0 .. secret_len) *)
  ch_hash : Z;
}.

(** entries[0 .. n_entries) *)
Abbreviation channelset := (list meshcore_channel).

Definition meshcore_channelset_create : channelset := [].

Section Crypto.
Variable sha256 : list Z -> option (list Z).
Variable evp_decode_block : list Z -> option (list Z).

Definition meshcore_channel_hash (secret : list Z) : Z :=
  match sha256 secret with
  | Some (d :: _) => d
  | _ => 0
  end.

Definition is_strict_hex (s : list Z) : bool :=
  forallb (fun c => match hex_nibble c with Some _ => true | None => false end) s.

Definition base64_char_ok (len i : nat) (c : Z) : bool :=
  ((65 <=? c) && (c <=? 90)) || ((97 <=? c) && (c <=? 122)) || ((48 <=? c) && (c <=? 57)) ||
  (c =? 43) || (c =? 47) || ((c =? 61) && (len - 2 <=? i)%nat).

(** [None] is the return value -1. *)
Definition base64_decode (b64 : list Z) (max_out : nat) : option (list Z) :=
  let len := length b64 in
  if (len =? 0)%nat || negb (len mod 4 =? 0)%nat then None
  else
    let pad := ((if (at_ b64 (len - 1) =? 61)%Z then 1 else 0) + (if (at_ b64 (len - 2) =? 61)%Z then 1 else 0))%nat in
    if negb (forallb id (imap (base64_char_ok len) b64)) then None
    else if (128 <? len / 4 * 3)%nat then None
    else match evp_decode_block b64 with
         | None => None
         | Some tmp =>
             let n := (length tmp - pad)%nat in
             if (max_out <? n)%nat then None else Some (take n tmp)
         end.

Definition secret_len_ok (n : nat) : bool := (n =? 16)%nat || (n =? 32)%nat.

Definition meshcore_decode_psk (s : list Z) : option (list Z) :=
  let hex :=
    if ((length s =? 32)%nat || (length s =? 64)%nat) && is_strict_hex s then
      match hex_decode s MC_CHANNEL_SECRET_BYTES with
      | Some k => if secret_len_ok (length k) then Some k else None
      | None => None
      end
    else None in
  match hex with
  | Some k => Some k
  | None => match base64_decode s MC_CHANNEL_SECRET_BYTES with
            | Some k => if secret_len_ok (length k) then Some k else None
            | None => None
            end
  end.

(** The index of the entry called [name]. *)
Fixpoint channel_index (cs : channelset) (name : list Z) : option nat :=
  match cs with
  | [] => None
  | e :: t => if strcmp_eq (ch_name e) name then Some O else option_map S (channel_index t name)
  end.

(** On success the new set and the entry written; the lock is held for the
    whole update. *)
Definition add_channel_locked (cs : channelset) (name secret : list Z)
  : option (channelset * meshcore_channel) :=
  let e := mk_channel (copy_to MC_CHANNEL_MAX_NAME name) secret (meshcore_channel_hash secret) in
  match channel_index cs name with
  | Some i => Some (<[i := e]> cs, e)
  | None => if (MC_CHANNEL_MAX_ENTRIES <=? length cs)%nat then None else Some (cs ++ [e], e)
  end.

Definition meshcore_channelset_add_spec (cs : channelset) (spec : list Z)
  : option (channelset * meshcore_channel) :=
  match strchr 58 spec with
  | None => None
  | Some (pre, post) =>
      let name := take (MC_CHANNEL_MAX_NAME - 1) pre in
      match meshcore_decode_psk post with
      | None => None
      | Some secret => add_channel_locked cs name secret
      end
  end.

Definition meshcore_channel_hashtag_secret (name : list Z) : list Z :=
  match sha256 (35 :: take MC_CHANNEL_MAX_NAME name) with
  | Some d => if (16 <=? length d)%nat then take 16 d else replicate 16 0
  | None => replicate 16 0
  end.

Definition PUBLIC_SPEC : list Z := str "Public:izOH6cXN6mrJ5e26oRXNcg==".

Definition meshcore_channelset_add_default_public (cs : channelset) :=
  meshcore_channelset_add_spec cs PUBLIC_SPEC.

Definition meshcore_channelset_add_hashtag (cs : channelset) (name : list Z)
  : option (channelset * meshcore_channel) :=
  match name with
  | [] => None
  | c :: t =>
      let name := if c =? 35 then t else name in
      match name with
      | [] => None
      | _ =>
          if strcasecmp_eq name (str "public") then meshcore_channelset_add_default_public cs
          else add_channel_locked cs (copy_to MC_CHANNEL_MAX_NAME (35 :: name))
                 (meshcore_channel_hashtag_secret name)
      end
  end.
End Crypto.

(** The indices to try for a hash byte: exact matches, then the others. *)
Fixpoint indices_where (p : meshcore_channel -> bool) (i : nat) (cs : channelset) : list nat :=
  match cs with
  | [] => []
  | e :: t => if p e then i :: indices_where p (S i) t else indices_where p (S i) t
  end.

Definition meshcore_channelset_lookup (cs : channelset) (hash : Z) (max_out : nat) : list nat :=
  take max_out (indices_where (fun e => ch_hash e =? hash) 0 cs ++
                indices_where (fun e => negb (ch_hash e =? hash)) 0 cs).

(** ** Candidate names *)

Definition toupper (c : Z) : Z := if (97 <=? c) && (c <=? 122) then c - 32 else c.

Definition meshcore_name_case_variants (name : list Z) : list (list Z) :=
  let v := copy_to MC_CHANNEL_MAX_NAME name in
  let passes := [map tolower v; map toupper v;
                 match v with [] => [] | c :: t => toupper c :: map tolower t end] in
  fold_left (fun out w => if existsb (list_eqb w) out then out
                          else if (length out <? 4)%nat then out ++ [w] else out) passes [v].

(** "fr-%02d" for 1..99, then fr-2a, fr-2b, the regions and the rest. *)
Definition builtin_candidates : list (list Z) :=
  map (fun d => str "fr-" ++ pad0 2 (dec_of_Z (Z.of_nat d))) (seq 1 99) ++
  [str "fr-2a"; str "fr-2b"] ++
  map (fun r => str "fr-" ++ r)
    [str "ara"; str "bfc"; str "bre"; str "cvl"; str "cor"; str "ges"; str "hdf"; str "idf"; str "nor";
     str "naq"; str "occ"; str "pdl"; str "paca"] ++
  [str "eu"; str "europe"; str "fr"; str "france"].

Definition meshcore_builtin_hashtag_candidates (max_out : nat) : list (list Z) :=
  take max_out (map (copy_to MC_CHANNEL_MAX_NAME) builtin_candidates).

(** The MeshCore frame (src/meshcore_packet.c): framing of header, transport
    codes, path and payload, and MAC-then-decrypt of a channel message.

    HMAC-SHA256 and AES-128-ECB (OpenSSL) are parameters; a failing call is
    [None]. *)

Record meshcore_packet := mk_packet {
  pk_route_type : Z;
  pk_payload_type : Z;
  pk_payload_ver : Z;
  pk_has_transport_codes : bool;
  pk_transport_code1 : Z;
  pk_transport_code2 : Z;
  pk_path : list Z;              (* path[0 .. path_len) *)
  pk_path_hash_count : Z;
  pk_path_hash_size : Z;
  pk_payload : list Z;           (* payload[0 .. payload_len) *)
}.

(** Transport codes, when the route type has them: the two codes and the
    cursor. *)
Definition parse_transport (has : bool) (p : list Z) : option (Z * Z * list Z) :=
  if has then if (length p <? 4)%nat then None else Some (rd_le16 p, rd_le16 (drop 2 p), drop 4 p)
  else Some (0, 0, p).

(** [None] is the return value -1. *)
Definition meshcore_packet_parse (raw : list Z) : option meshcore_packet :=
  if (length raw <? 2)%nat then None
  else
    let header := at_ raw 0 in
    let p := drop 1 raw in
    let route_type := Z.land header MC_HEADER_ROUTE_TYPE_MASK in
    let has := mc_route_has_transport_codes route_type in
    match parse_transport has p with
    | None => None
    | Some (c1, c2, p) =>
        match p with
        | [] => None
        | path_len_byte :: p =>
            let count := Z.land path_len_byte 0x3F in
            let size := Z.shiftr (Z.land path_len_byte 0xC0) 6 + 1 in
            if (size <? 1) || (3 <? size) then None
            else
              let path_bytes := (Z.to_nat count * Z.to_nat size)%nat in
              if (MC_MAX_PATH_SIZE <? path_bytes)%nat then None
              else if (length p <? path_bytes)%nat then None
              else
                Some {| pk_route_type := route_type;
                        pk_payload_type := Z.shiftr (Z.land header MC_HEADER_PAYLOAD_TYPE_MASK)
                                             MC_HEADER_PAYLOAD_TYPE_SHIFT;
                        pk_payload_ver := Z.shiftr (Z.land header MC_HEADER_PAYLOAD_VER_MASK)
                                            MC_HEADER_PAYLOAD_VER_SHIFT;
                        pk_has_transport_codes := has;
                        pk_transport_code1 := c1;
                        pk_transport_code2 := c2;
                        pk_path := take path_bytes p;
                        pk_path_hash_count := count;
                        pk_path_hash_size := size;
                        pk_payload := take MC_MAX_PACKET_PAYLOAD (drop path_bytes p) |}
        end
    end.

Section Crypto.
Variable hmac_sha256 : list Z -> list Z -> option (list Z).
Variable aes128_ecb_decrypt : list Z -> list Z -> option (list Z).

(** The plaintext; [None] is the return value -1. *)
Definition meshcore_verify_and_decrypt (secret enc_with_mac : list Z) : option (list Z) :=
  if negb (secret_len_ok (length secret)) then None
  else if (length enc_with_mac <? MC_CIPHER_MAC_SIZE)%nat then None
  else
    let mac_bytes := take MC_CIPHER_MAC_SIZE enc_with_mac in
    let ciphertext := drop MC_CIPHER_MAC_SIZE enc_with_mac in
    let cipher_len := length ciphertext in
    let hmac_key := secret ++ replicate (MC_PUB_KEY_SIZE - length secret) 0 in
    match hmac_sha256 hmac_key ciphertext with
    | None => None
    | Some hmac_full =>
        if (length hmac_full <? MC_CIPHER_MAC_SIZE)%nat then None
        else if negb (list_eqb (take MC_CIPHER_MAC_SIZE hmac_full) mac_bytes) then None
        else if (cipher_len =? 0)%nat then Some []
        else
          let n_blocks := ((cipher_len + MC_CIPHER_BLOCK_SIZE - 1) / MC_CIPHER_BLOCK_SIZE)%nat in
          let padded_len := (n_blocks * MC_CIPHER_BLOCK_SIZE)%nat in
          if (MC_MAX_PACKET_PAYLOAD + MC_CIPHER_BLOCK_SIZE <? padded_len)%nat then None
          else
            match aes128_ecb_decrypt (take 16 secret)
                    (ciphertext ++ replicate (padded_len - cipher_len) 0) with
            | None => None
            | Some plain => Some (take cipher_len plain)
            end
    end.
End Crypto.
