(* ===== verification/FrameQueue.v ===== *)
(** The drop-oldest ring queue between the decoders and the dictionary
    threads: the same code in src/psk_dict.c, src/meshcore_hashtag_dict.c and
    src/meshcore_region_dict.c, with 128, 128 and 64 slots.

    [head] is the next slot to write, [tail] the next to read; the queue is
    empty when they are equal, so a ring of [n] slots holds at most [n - 1]
    frames.  The mutex makes each operation atomic; a queue history is a
    sequence of operations. *)

From S2P Require Import Prelude.

Section Ring.
Context {A : Type}.

Record ring := mk_ring { rg_slots : list A; rg_head : nat; rg_tail : nat }.

Definition ring_size (r : ring) : nat := length (rg_slots r).

Definition ring_init (zero : A) (n : nat) : ring := mk_ring (replicate n zero) 0 0.

(** The enqueue under the lock: a full queue drops its oldest frame. *)
Definition ring_push (r : ring) (x : A) : ring :=
  let n := ring_size r in
  let next := (rg_head r + 1) mod n in
  let tail := if next =? rg_tail r then (rg_tail r + 1) mod n else rg_tail r in
  mk_ring (<[rg_head r := x]> (rg_slots r)) next tail.

(** The worker's dequeue; [None]: it waits on the condition variable. *)
Definition ring_pop (r : ring) : option (A * ring) :=
  if rg_head r =? rg_tail r then None
  else match rg_slots r !! rg_tail r with
       | Some x => Some (x, mk_ring (rg_slots r) (rg_head r) ((rg_tail r + 1) mod ring_size r))
       | None => None
       end.

(** ** Refinement to a bounded FIFO *)

Definition ring_count (r : ring) : nat := (rg_head r + ring_size r - rg_tail r) mod ring_size r.

(** The frames waiting, oldest first. *)
Definition ring_list (r : ring) : list A :=
  omap (fun i => rg_slots r !! ((rg_tail r + i) mod ring_size r)) (seq 0 (ring_count r)).

Definition ring_ok (r : ring) : Prop :=
  2 <= ring_size r /\ rg_head r < ring_size r /\ rg_tail r < ring_size r.

(** The abstract queue of capacity [cap]. *)
Definition fifo_push (cap : nat) (q : list A) (x : A) : list A :=
  (if length q =? cap then tail q else q) ++ [x].

Lemma mod_step a n : a < n -> (a + 1) mod n = if S a =? n then 0 else S a.
Proof.
  intros Ha. rewrite Nat.add_1_r. destruct (Nat.eqb_spec (S a) n) as [<-|]; [|apply Nat.mod_small; lia].
  apply Nat.Div0.mod_same.
Qed.

Lemma mod_wrap a n : a < 2 * n -> a mod n = if a <? n then a else a - n.
Proof.
  intros Ha. destruct (Nat.ltb_spec a n); [by apply Nat.mod_small|].
  symmetry. apply (Nat.mod_unique a n 1); lia.
Qed.

Lemma ring_count_lt r : ring_ok r -> ring_count r < ring_size r.
Proof. intros (H & _). apply Nat.mod_upper_bound. lia. Qed.

Lemma ring_count_alt r : ring_ok r ->
  ring_count r = if rg_tail r <=? rg_head r then rg_head r - rg_tail r else rg_head r + ring_size r - rg_tail r.
Proof.
  intros (H1 & H2 & H3). unfold ring_count. rewrite mod_wrap by lia.
  destruct (Nat.ltb_spec (rg_head r + ring_size r - rg_tail r) (ring_size r)), (Nat.leb_spec (rg_tail r) (rg_head r)); lia.
Qed.

Lemma omap_length_some {B C} (f : B -> option C) l :
  Forall (fun b => is_Some (f b)) l -> length (omap f l) = length l.
Proof.
  intros H. induction H as [|b l [c Hc] H IH]; [done|]. cbn [omap list_omap]. rewrite Hc. cbn. by f_equal.
Qed.

Lemma ring_list_length r : ring_ok r -> length (ring_list r) = ring_count r.
Proof.
  intros (H1 & H2 & H3). unfold ring_list. rewrite omap_length_some; [apply length_seq|].
  apply List.Forall_forall. intros i _. apply lookup_lt_is_Some.
  apply Nat.mod_upper_bound. unfold ring_size in *. lia.
Qed.

Lemma omap_seq_shift {C} (f : nat -> option C) n : omap f (seq 1 n) = omap (fun i => f (S i)) (seq 0 n).
Proof.
  rewrite <- seq_shift. generalize (seq 0 n). intros l. induction l as [|i l IH]; [done|].
  cbn [map omap list_omap]. by rewrite IH.
Qed.

(** Dropping the head of the waiting frames is advancing the tail. *)
Lemma ring_list_advance r :
  ring_ok r -> 0 < ring_count r ->
  exists x, rg_slots r !! rg_tail r = Some x /\
    ring_list r = x :: ring_list (mk_ring (rg_slots r) (rg_head r) ((rg_tail r + 1) mod ring_size r)) /\
    ring_ok (mk_ring (rg_slots r) (rg_head r) ((rg_tail r + 1) mod ring_size r)).
Proof.
  intros Hr Hc. pose proof Hr as (H1 & H2 & H3).
  set (r' := mk_ring (rg_slots r) (rg_head r) ((rg_tail r + 1) mod ring_size r)).
  assert (Hr' : ring_ok r') by (split; [exact H1|split; [exact H2|apply (Nat.mod_upper_bound _ (ring_size r)); lia]]).
  assert (Hc' : ring_count r = S (ring_count r')).
  { rewrite ring_count_alt in Hc by done. rewrite !ring_count_alt by done. cbn [r' rg_head rg_tail].
    change (ring_size r') with (ring_size r). rewrite mod_step by done. revert Hc.
    destruct (Nat.eqb_spec (S (rg_tail r)) (ring_size r)), (Nat.leb_spec (rg_tail r) (rg_head r)); try lia;
      repeat match goal with |- context [?a <=? ?b] => destruct (Nat.leb_spec a b) end; lia. }
  destruct (lookup_lt_is_Some_2 (rg_slots r) (rg_tail r)) as [x Hx]; [exact H3|].
  exists x. split; [done|]. split; [|done].
  unfold ring_list at 1. rewrite Hc'. cbn [seq omap list_omap].
  rewrite Nat.add_0_r, Nat.mod_small, Hx by done. f_equal. rewrite omap_seq_shift. unfold ring_list.
  apply omap_ext_in. intros i _. cbn [r' rg_slots rg_tail]. change (ring_size r') with (ring_size r). f_equal.
  rewrite Nat.Div0.add_mod_idemp_l. f_equal. lia.
Qed.

Lemma omap_app_list {B C} (f : B -> option C) a b : omap f (a ++ b) = omap f a ++ omap f b.
Proof.
  induction a as [|x a IH]; [done|]. cbn [app omap list_omap]. destruct (f x); [cbn; by f_equal|done].
Qed.

(** Writing at the head and moving it on appends, when there is room. *)
Lemma ring_list_append r x :
  ring_ok r -> ring_count r < ring_size r - 1 ->
  let r' := mk_ring (<[rg_head r := x]> (rg_slots r)) ((rg_head r + 1) mod ring_size r) (rg_tail r) in
  ring_ok r' /\ ring_list r' = ring_list r ++ [x].
Proof.
  intros Hr Hc. cbn zeta. pose proof Hr as (H1 & H2 & H3).
  set (r' := mk_ring (<[rg_head r := x]> (rg_slots r)) ((rg_head r + 1) mod ring_size r) (rg_tail r)).
  assert (Hs : ring_size r' = ring_size r) by (unfold ring_size; cbn; apply length_insert).
  assert (Hr' : ring_ok r') by (unfold ring_ok; rewrite Hs; split; [exact H1|split; [apply Nat.mod_upper_bound; lia|exact H3]]).
  assert (Hc' : ring_count r' = S (ring_count r)).
  { rewrite !ring_count_alt in * by done. rewrite Hs. cbn [r' rg_head rg_tail]. rewrite mod_step by done. revert Hc.
    destruct (Nat.eqb_spec (S (rg_head r)) (ring_size r)), (Nat.leb_spec (rg_tail r) (rg_head r)); try lia;
      repeat match goal with |- context [?a <=? ?b] => destruct (Nat.leb_spec a b) end; lia. }
  split; [done|]. unfold ring_list at 1. rewrite Hc', seq_S, omap_app_list, Hs. cbn [r' rg_slots rg_tail Nat.add].
  assert (Hat : (rg_tail r + ring_count r) mod ring_size r = rg_head r).
  { rewrite ring_count_alt in * by done. rewrite mod_wrap by (destruct (Nat.leb_spec (rg_tail r) (rg_head r)); lia).
    destruct (Nat.leb_spec (rg_tail r) (rg_head r)); destruct (Nat.ltb_spec (rg_tail r + (rg_head r - rg_tail r)) (ring_size r));
      try destruct (Nat.ltb_spec (rg_tail r + (rg_head r + ring_size r - rg_tail r)) (ring_size r)); lia. }
  f_equal.
  - unfold ring_list. apply omap_ext_in. intros i Hi. apply in_seq in Hi.
    apply list_lookup_insert_ne. intros E. rewrite <- Hat in E.
    rewrite !mod_wrap in E by (pose proof (ring_count_lt r Hr); lia).
    repeat match type of E with context [?a <? ?b] => destruct (Nat.ltb_spec a b) end; lia.
  - cbn [omap list_omap]. rewrite Hat, list_lookup_insert_eq by exact H2. done.
Qed.

(** The ring implements the bounded drop-oldest FIFO. *)
Lemma ring_push_list r x :
  ring_ok r ->
  ring_ok (ring_push r x) /\ ring_size (ring_push r x) = ring_size r /\
  ring_list (ring_push r x) = fifo_push (ring_size r - 1) (ring_list r) x.
Proof.
  intros Hr. pose proof Hr as (H1 & H2 & H3). unfold ring_push, fifo_push. cbn zeta.
  split; [|split; [unfold ring_size; cbn; apply length_insert|]];
    rewrite ?ring_list_length by done.
  - destruct (Nat.eqb_spec ((rg_head r + 1) mod ring_size r) (rg_tail r)) as [E|E];
      (unfold ring_ok, ring_size in *; cbn [rg_slots rg_head rg_tail]; rewrite length_insert; split; [exact H1|];
       split; [apply Nat.mod_upper_bound; lia|]; first [exact H3 | apply Nat.mod_upper_bound; lia]).
  - destruct (Nat.eqb_spec ((rg_head r + 1) mod ring_size r) (rg_tail r)) as [E|E].
    + assert (Hfull : ring_count r = ring_size r - 1).
      { rewrite ring_count_alt by done. rewrite mod_step in E by done. revert E.
        destruct (Nat.eqb_spec (S (rg_head r)) (ring_size r)), (Nat.leb_spec (rg_tail r) (rg_head r)); lia. }
      rewrite Hfull, Nat.eqb_refl.
      destruct (ring_list_advance r Hr) as (y & _ & El & Hr'); [lia|]. rewrite El. cbn [tail].
      set (r1 := mk_ring (rg_slots r) (rg_head r) ((rg_tail r + 1) mod ring_size r)) in *.
      assert (Hc1 : ring_count r1 < ring_size r1 - 1).
      { pose proof (ring_list_length r Hr) as L. rewrite El in L. cbn [length] in L.
        rewrite ring_list_length in L by done. change (ring_size r1) with (ring_size r). lia. }
      exact (proj2 (ring_list_append r1 x Hr' Hc1)).
    + assert (Hroom : ring_count r < ring_size r - 1).
      { rewrite ring_count_alt by done. rewrite mod_step in E by done. revert E.
        destruct (Nat.eqb_spec (S (rg_head r)) (ring_size r)), (Nat.leb_spec (rg_tail r) (rg_head r)); lia. }
      destruct (Nat.eqb_spec (ring_count r) (ring_size r - 1)); [lia|].
      exact (proj2 (ring_list_append r x Hr Hroom)).
Qed.

Lemma ring_pop_list r :
  ring_ok r ->
  match ring_pop r with
  | Some (x, r') => ring_ok r' /\ ring_size r' = ring_size r /\ ring_list r = x :: ring_list r'
  | None => ring_list r = []
  end.
Proof.
  intros Hr. pose proof Hr as (H1 & H2 & H3). unfold ring_pop.
  destruct (Nat.eqb_spec (rg_head r) (rg_tail r)) as [E|E].
  - assert (Hc : ring_count r = 0) by (rewrite ring_count_alt, E, Nat.leb_refl by done; lia).
    unfold ring_list. by rewrite Hc.
  - destruct (ring_list_advance r Hr) as (x & Hx & El & Hr').
    + rewrite ring_count_alt by done. destruct (Nat.leb_spec (rg_tail r) (rg_head r)); lia.
    + rewrite Hx. split; [done|]. split; done.
Qed.

Lemma ring_init_ok zero n : 2 <= n -> ring_ok (ring_init zero n) /\ ring_list (ring_init zero n) = [].
Proof.
  intros Hn. assert (Hs : ring_size (ring_init zero n) = n) by (unfold ring_size; cbn; apply length_replicate).
  assert (Hr : ring_ok (ring_init zero n)) by (repeat split; rewrite ?Hs; cbn; lia).
  split; [done|]. assert (ring_count (ring_init zero n) = 0) as E.
  { rewrite ring_count_alt by done. cbn. done. }
  unfold ring_list. by rewrite E.
Qed.

(** ** Histories *)

Inductive queue_op := Enqueue (x : A) | Dequeue.

(** Runs a history on the ring: the frames handed to the worker, in order. *)
Fixpoint run_ring (r : ring) (ops : list queue_op) : list A * ring :=
  match ops with
  | [] => ([], r)
  | Enqueue x :: t => run_ring (ring_push r x) t
  | Dequeue :: t =>
      match ring_pop r with
      | None => run_ring r t
      | Some (x, r) => let '(out, r) := run_ring r t in (x :: out, r)
      end
  end.

(** The same on the abstract queue. *)
Fixpoint run_fifo (cap : nat) (q : list A) (ops : list queue_op) : list A * list A :=
  match ops with
  | [] => ([], q)
  | Enqueue x :: t => run_fifo cap (fifo_push cap q x) t
  | Dequeue :: t =>
      match q with
      | [] => run_fifo cap [] t
      | x :: q => let '(out, q) := run_fifo cap q t in (x :: out, q)
      end
  end.
End Ring.

Arguments ring : clear implicits.
Arguments queue_op : clear implicits.

(** The ring queue of the dictionary threads refines a FIFO of capacity
    [n - 1] that drops its oldest element when full.  For every interleaving
    of enqueues and dequeues, from any well-formed state, the worker receives
    the same frames in the same order and the same frames are left waiting. *)
Theorem ring_refines_fifo {A} (r : ring A) (ops : list (queue_op A)) :
  ring_ok r ->
  run_fifo (ring_size r - 1) (ring_list r) ops =
  (fst (run_ring r ops), ring_list (snd (run_ring r ops))).
Proof.
  revert r. induction ops as [|[x|] ops IH]; intros r Hr; [done| |]; cbn [run_ring run_fifo].
  - destruct (ring_push_list r x Hr) as (Hr' & Hs & El). rewrite <- El, <- Hs. by apply IH.
  - pose proof (ring_pop_list r Hr) as H. destruct (ring_pop r) as [[x r']|].
    + destruct H as (Hr' & Hs & ->). rewrite <- Hs, IH by done. by destruct (run_ring r' ops).
    + rewrite H, <- H. by apply IH.
Qed.

Lemma ring_refines_fifo_witness :
  fst (run_ring (ring_init 0 4) (map Enqueue [1; 2; 3; 4; 5] ++ [Dequeue; Dequeue])) = [3; 4].
Proof.
  destruct (ring_init_ok 0 4) as [Hok Hl]; [lia|].
  pose proof (ring_refines_fifo (ring_init 0 4) (map Enqueue [1; 2; 3; 4; 5] ++ [Dequeue; Dequeue]) Hok) as H.
  rewrite Hl in H. destruct (run_ring _ _) as [out r]. cbn in H. injection H as H _. symmetry. exact H.
Defined.
