(* ===== verification/PskDict.v ===== *)
(** The PSK dictionary attack on undecrypted Meshtastic frames
    (src/psk_dict.c): wordlist parsing, the frame queue, the trial of every
    candidate and the promotion of the one that decrypts.

    The queue's mutex makes each queue operation atomic; the worker handles
    one frame at a time ([psk_thread_step]).  The lines of the wordlist file
    are an argument. *)

From Stdlib Require Import String.
From S2P Require Import Prelude CString MeshEvent Meshtastic Keyset FrameQueue MeshPacket Protobuf PbMessage MeshPacketFacts.

Local Open Scope Z_scope.

Definition PSK_QUEUE_SIZE : nat := 128.
Definition PSK_FRAME_MAX_BYTES : nat := 256.
Definition PSK_MAX_CANDIDATES : Z := 32768.

Record psk_frame := mk_psk_frame {
  pf_bytes : list Z;
  pf_rssi_db : Z;
  pf_snr_db : Z;
  pf_sf : Z;
  pf_cr : Z;
  pf_bw_hz : Z;
}.

Record candidate := mk_candidate { cd_spec : list Z; cd_psk : list Z }.

(** The static state, and the live key store it promotes into. *)
Record psk_dict := mk_psk_dict {
  pd_queue : ring psk_frame;
  pd_candidates : list candidate;
  pd_run : bool;
  pd_started : bool;
  pd_live : option keyset;
}.

(** ** Wordlist *)

Fixpoint take_until (stop : Z -> bool) (s : list Z) : list Z :=
  match s with
  | [] => []
  | c :: t => if stop c then [] else c :: take_until stop t
  end.

Definition ends_spec (c : Z) : bool := (c =? 0) || (c =? 10) || (c =? 13) || (c =? 35).

(** [None] is the return value -1. *)
Definition parse_psk_spec (line : list Z) : option (list Z) :=
  let line := skip_while is_blank line in
  let line := match strchr 61 line with Some (_, post) => post | None => line end in
  let buf := trim_end is_blank (take 255 (take_until ends_spec line)) in
  match buf with
  | [] => None
  | _ =>
      let '(ok, tmp) := keyset_parse_spec keyset_create buf in
      if negb ok || (length (ks_entries tmp) <? 1)%nat then None
      else match keyset_get tmp 0 with
           | Some e => match ke_psk e with
                       | [] => None
                       | psk => if (KEYSET_MAX_PSK_BYTES <? length psk)%nat then None else Some psk
                       end
           | None => None
           end
  end.

Definition is_line_end (c : Z) : bool := (c =? 10) || (c =? 13) || (c =? 32) || (c =? 9).

(** One line of fgets: comments, blank lines and unparsable ones are skipped. *)
Definition load_line (cands : list candidate) (line : list Z) : list candidate :=
  match line with
  | [] => cands
  | c :: _ =>
      if (c =? 35) || (c =? 10) then cands
      else match parse_psk_spec line with
           | None => cands
           | Some psk => cands ++ [mk_candidate (trim_end is_line_end line) psk]
           end
  end.

Definition load_wordlist (lines : list (list Z)) : list candidate :=
  fold_left (fun cands line => if Z.of_nat (length cands) <? PSK_MAX_CANDIDATES then load_line cands line else cands)
            lines [].

(** ** Queue *)

Definition psk_dict_enqueue (d : psk_dict) (f : psk_frame) : psk_dict :=
  if negb (pd_started d) || (length (pf_bytes f) =? 0)%nat then d
  else d {{ pd_queue := ring_push (pd_queue d) (f {{ pf_bytes := take PSK_FRAME_MAX_BYTES (pf_bytes f) }}) }}.

(** ** Trying the candidates *)

(** The PSK_DISCOVERED line: what snprintf would write into line[384]. *)
Definition discovery_line (channel_hash : Z) (c : candidate) (channel_name : list Z) : list Z :=
  let q := [34] in
  str "{" ++ q ++ str "event" ++ q ++ str ":" ++ q ++ str "PSK_DISCOVERED" ++ q ++
  str "," ++ q ++ str "channel" ++ q ++ str ":" ++ fmt_d channel_hash ++
  str "," ++ q ++ str "channel_name" ++ q ++ str ":" ++ q ++
    (match channel_name with [] => str "(unknown)" | _ => channel_name end) ++ q ++
  str "," ++ q ++ str "psk_bytes" ++ q ++ str ":" ++ fmt_d (Z.of_nat (length (cd_psk c))) ++
  str "," ++ q ++ str "spec" ++ q ++ str ":" ++ q ++ cd_spec c ++ q ++ str "}" ++ [10].

(** What emit_discovery hands to fwrite and the publishers: the number of
    bytes they read from the 384-byte buffer. *)
Definition emit_discovery_len (channel_hash : Z) (c : candidate) (channel_name : list Z) : nat :=
  length (discovery_line channel_hash c channel_name).

(** The attempt context after the callbacks of one decode. *)
Definition attempt_cb (ctx : bool * list Z) (ev : mesh_event) : bool * list Z :=
  if ev_decrypted ev then
    (true, match ev_channel_name ev with [] => snd ctx | n => copy_to 32 n end)
  else ctx.

(** The effects of a decode on the dictionary: the callback sees each event,
    an enqueue goes to the queue of this very module. *)
Definition attempt_effect (st : psk_dict * (bool * list Z)) (e : mesh_effect) : psk_dict * (bool * list Z) :=
  match e with
  | EmitEvent ev => (fst st, attempt_cb (snd st) ev)
  | PskDictEnqueue frame rssi snr sf cr bw =>
      (psk_dict_enqueue (fst st) (mk_psk_frame frame rssi snr sf cr bw), snd st)
  | KeysRdLock | KeysRdUnlock => st
  end.

Inductive discovery := Discovered (channel_hash : Z) (c : candidate) (channel_name : list Z).

Section Attack.
Variable evp_aes_ctr : list Z -> list Z -> list Z -> option (list Z).

Definition promote (d : psk_dict) (channel_hash : Z) (c : candidate) (name : list Z) : psk_dict :=
  match pd_live d with
  | None => d
  | Some live =>
      d {{ pd_live := Some (snd (keyset_add_raw live channel_hash (cd_psk c)
                                   (match name with [] => str "(discovered)" | _ => name end))) }}
  end.

Fixpoint try_loop (cands : list candidate) (f : psk_frame) (d : psk_dict) : psk_dict * list discovery :=
  match cands with
  | [] => (d, [])
  | c :: rest =>
      if negb (pd_run d) then (d, [])
      else
        let channel_hash := at_ (pf_bytes f) 13 in
        let '(ok, tmp) := keyset_add_raw keyset_create channel_hash (cd_psk c) (str "(trial)") in
        if negb ok then try_loop rest f d
        else
          let '(_, eff) := mesh_packet_decode_with_radio evp_aes_ctr (pf_bytes f) (pf_rssi_db f) (pf_snr_db f)
                             (pf_sf f) (pf_cr f) (pf_bw_hz f) (Some tmp) true in
          let '(d, (decrypted, name)) := fold_left attempt_effect eff (d, (false, [])) in
          if decrypted : bool then (promote d channel_hash c name, [Discovered channel_hash c name])
          else try_loop rest f d
  end.

Definition try_candidates (f : psk_frame) (d : psk_dict) : psk_dict * list discovery :=
  if (length (pf_bytes f) <? 16)%nat then (d, []) else try_loop (pd_candidates d) f d.

(** One round of psk_thread; [None]: it waits, or stops. *)
Definition psk_thread_step (d : psk_dict) : option (psk_dict * list discovery) :=
  if negb (pd_run d) then None
  else match ring_pop (pd_queue d) with
       | None => None
       | Some (f, q) => Some (try_candidates f (d {{ pd_queue := q }}))
       end.
End Attack.

(** ** Life cycle *)

(** [None] is a failed initialisation; the thread starts. *)
Definition psk_dict_init (d : psk_dict) (wordlist : option (list (list Z))) : option psk_dict :=
  if pd_started d then Some d
  else match wordlist with
       | None => None
       | Some lines =>
           match load_wordlist lines with
           | [] => None
           | cands => Some (d {{ pd_candidates := cands; pd_run := true; pd_started := true }})
           end
       end.

Definition psk_dict_shutdown (d : psk_dict) : psk_dict :=
  if negb (pd_started d) then d
  else d {{ pd_run := false; pd_candidates := []; pd_started := false }}.

(** What the PSK dictionary attack does to its queue and to the live key
    store. *)

(** A queued frame that has a payload. *)
Definition frame_ok (f : psk_frame) : Prop :=
  bytes_ok (pf_bytes f) /\ (16 < length (pf_bytes f) <= 256)%nat.

Definition cand_ok (c : candidate) : Prop := (length (cd_psk c) = 16 \/ length (cd_psk c) = 32)%nat.

(** The event a stored key would decrypt the frame to. *)
Definition key_hit evp (f : psk_frame) (e : keyset_entry) : option mesh_event :=
  try_key evp (base_event (pf_bytes f) (pf_rssi_db f) (pf_snr_db f) (pf_sf f) (pf_cr f) (pf_bw_hz f))
    (build_nonce (rd_le32 (drop 8 (pf_bytes f))) (rd_le32 (drop 4 (pf_bytes f))))
    (take 512 (drop 16 (pf_bytes f))) e.

Definition trial_entry (f : psk_frame) (c : candidate) : keyset_entry :=
  mk_entry (str "(trial)") (cd_psk c) (at_ (pf_bytes f) 13).

Lemma add_raw_spec k h psk name :
  ks_rep k -> 0 <= h < 256 -> (length psk = 16 \/ length psk = 32)%nat ->
  let e := mk_entry (copy_to KEYSET_MAX_NAME (match name with [] => str "(discovered)" | _ => name end)) psk h in
  let '(ok, k') := keyset_add_raw k h psk name in
  ok = insert_allowed (ks_entries k) h /\ ks_rep k' /\
  (if ok then ks_entries k' = ks_entries k ++ [e] else k' = k).
Proof.
  intros Hk Hh Hl. cbn zeta. unfold keyset_add_raw, psk_len_ok, KEYSET_MAX_PSK_BYTES.
  replace ((length psk =? 0)%nat || (length psk =? 16)%nat || (length psk =? 32)%nat) with true
    by (by destruct Hl as [-> | ->]). cbn [negb].
  rewrite (proj2 (Nat.ltb_ge 32 (length psk))) by lia.
  exact (keyset_insert_spec k (mk_entry _ psk h) Hk Hh).
Qed.

Lemma trial_keyset f c :
  bytes_ok (pf_bytes f) -> cand_ok c ->
  exists k, keyset_add_raw keyset_create (at_ (pf_bytes f) 13) (cd_psk c) (str "(trial)") = (true, k) /\
    ks_rep k /\ ks_entries k = [trial_entry f c].
Proof.
  intros Hf Hc. pose proof (add_raw_spec keyset_create (at_ (pf_bytes f) 13) (cd_psk c) (str "(trial)")
    keyset_create_rep (at_byte _ 13 Hf) Hc) as H. cbn zeta in H.
  destruct (keyset_add_raw _ _ _ _) as [ok k]. destruct H as (-> & Hk & He).
  change (insert_allowed (ks_entries keyset_create) (at_ (pf_bytes f) 13)) with true in *. by exists k.
Qed.

(** One frame decoded with a store, in terms of [key_hit]. *)
Lemma decode_hits evp f k :
  frame_ok f -> ks_rep k ->
  mesh_packet_decode_with_radio evp (pf_bytes f) (pf_rssi_db f) (pf_snr_db f) (pf_sf f) (pf_cr f) (pf_bw_hz f)
    (Some k) true =
  match first_some (key_hit evp f) (List.filter (hash_is (at_ (pf_bytes f) 13)) (ks_entries k)) with
  | Some cand => (0, [KeysRdLock; EmitEvent cand; KeysRdUnlock])
  | None => (0, [KeysRdLock; KeysRdUnlock;
                 EmitEvent ((base_event (pf_bytes f) (pf_rssi_db f) (pf_snr_db f) (pf_sf f) (pf_cr f) (pf_bw_hz f))
                              {{ ev_decrypted := false }});
                 PskDictEnqueue (pf_bytes f) (pf_rssi_db f) (pf_snr_db f) (pf_sf f) (pf_cr f) (pf_bw_hz f)])
  end.
Proof. intros [Hb Hl] Hk. rewrite decode_spec by (done || lia). reflexivity. Qed.

Lemma key_hit_name evp f e ev :
  key_hit evp f e = Some ev -> ev_decrypted ev = true /\ ev_channel_name ev = copy_to 32 (ke_channel_name e).
Proof.
  unfold key_hit, try_key. destruct (match ke_psk e with [] => _ | _ => _ end) as [p|]; [|done].
  destruct (parse_data_envelope p _) as [[] c]; [|done]. by intros [= <-].
Qed.

Lemma trial_filter f c : List.filter (hash_is (at_ (pf_bytes f) 13)) [trial_entry f c] = [trial_entry f c].
Proof. cbn [List.filter]. unfold hash_is. cbn [trial_entry ke_channel_hash]. by rewrite Z.eqb_refl. Qed.

(** A candidate that fails puts the frame back in the queue. *)
Lemma try_loop_miss evp c rest f d :
  frame_ok f -> cand_ok c -> pd_run d = true -> key_hit evp f (trial_entry f c) = None ->
  try_loop evp (c :: rest) f d = try_loop evp rest f (psk_dict_enqueue d f).
Proof.
  intros Hf Hc Hr Hm. destruct (trial_keyset f c (proj1 Hf) Hc) as (k & Ek & Hk & He).
  cbn [try_loop]. rewrite Hr, Ek. cbn [negb]. rewrite decode_hits, He, trial_filter by done.
  cbn [first_some]. rewrite Hm. cbn [fold_left attempt_effect fst snd].
  unfold attempt_cb. change (ev_decrypted (_ {{ ev_decrypted := false }})) with false. cbn match.
  by destruct f.
Qed.

Lemma try_loop_hit evp c rest f d ev :
  frame_ok f -> cand_ok c -> pd_run d = true -> key_hit evp f (trial_entry f c) = Some ev ->
  try_loop evp (c :: rest) f d =
  (promote d (at_ (pf_bytes f) 13) c (str "(trial)"), [Discovered (at_ (pf_bytes f) 13) c (str "(trial)")]).
Proof.
  intros Hf Hc Hr Hm. destruct (trial_keyset f c (proj1 Hf) Hc) as (k & Ek & Hk & He).
  cbn [try_loop]. rewrite Hr, Ek. cbn [negb]. rewrite decode_hits, He, trial_filter by done.
  cbn [first_some]. rewrite Hm. cbn [fold_left attempt_effect fst snd].
  destruct (key_hit_name _ _ _ _ Hm) as [Hd Hn]. unfold attempt_cb. by rewrite Hd, Hn.
Qed.

(** ** The queue after a failed frame *)

Lemma enqueue_list d f :
  frame_ok f -> pd_started d = true -> ring_ok (pd_queue d) ->
  let d' := psk_dict_enqueue d f in
  pd_started d' = true /\ pd_run d' = pd_run d /\ pd_candidates d' = pd_candidates d /\ pd_live d' = pd_live d /\
  ring_ok (pd_queue d') /\ ring_size (pd_queue d') = ring_size (pd_queue d) /\
  ring_list (pd_queue d') = fifo_push (ring_size (pd_queue d) - 1) (ring_list (pd_queue d)) f.
Proof.
  intros [Hb Hl] Hs Hq. cbn zeta. unfold psk_dict_enqueue. rewrite Hs.
  destruct (Nat.eqb_spec (length (pf_bytes f)) 0); [lia|]. cbn [negb orb].
  destruct (ring_push_list (pd_queue d) f Hq) as (H1 & H2 & H3).
  replace (f {{ pf_bytes := take PSK_FRAME_MAX_BYTES (pf_bytes f) }}) with f.
  2: { destruct f. cbn in Hl. cbn. unfold PSK_FRAME_MAX_BYTES. by rewrite take_ge by lia. }
  split; [exact Hs|]. do 3 (split; [reflexivity|]). split; [exact H1|]. split; [exact H2|exact H3].
Qed.

Lemma try_loop_all_miss evp cands f d :
  frame_ok f -> Forall cand_ok cands -> Forall (fun c => key_hit evp f (trial_entry f c) = None) cands ->
  pd_run d = true -> pd_started d = true -> ring_ok (pd_queue d) ->
  let '(d', disc) := try_loop evp cands f d in
  disc = [] /\
  ring_list (pd_queue d') =
    Nat.iter (length cands) (fun q => fifo_push (ring_size (pd_queue d) - 1) q f) (ring_list (pd_queue d)).
Proof.
  intros Hf Hc Hm. revert d. induction Hc as [|c cands Hc0 Hc IH]; intros d Hr Hs Hq; [done|].
  apply Forall_cons in Hm as [Hm0 Hm]. rewrite try_loop_miss by done.
  destruct (enqueue_list d f Hf Hs Hq) as (Hs' & Hr' & _ & _ & Hq' & Hsz & El).
  specialize (IH Hm (psk_dict_enqueue d f) (eq_trans Hr' Hr) Hs' Hq').
  destruct (try_loop evp cands f _) as [d' disc]. destruct IH as [-> IH]. split; [done|].
  rewrite IH, Hsz, El. cbn [length]. by rewrite Nat.iter_succ_r.
Qed.

Lemma fifo_iter_last cap n q (f : psk_frame) :
  (0 < n)%nat -> last (Nat.iter n (fun q => fifo_push cap q f) q) = Some f.
Proof. destruct n; [lia|]. intros _. cbn [Nat.iter nat_rect]. unfold fifo_push at 1. apply last_snoc. Qed.

Lemma drop_replicate_app {A} (a b : list A) k : drop (length a + k) (a ++ b) = drop k b.
Proof. rewrite drop_app_ge by lia. f_equal. lia. Qed.

Lemma fifo_iter_drop cap n q (f : psk_frame) :
  (0 < cap)%nat -> (length q <= cap)%nat ->
  Nat.iter n (fun q => fifo_push cap q f) q = drop (length q + n - cap) (q ++ replicate n f).
Proof.
  intros Hcap Hq. induction n as [|n IH].
  { cbn [Nat.iter nat_rect replicate]. rewrite app_nil_r, Nat.add_0_r. by replace (length q - cap)%nat with 0%nat by lia. }
  cbn [Nat.iter nat_rect]. change (nat_rect _ _ _ n) with (Nat.iter n (fun q => fifo_push cap q f) q).
  rewrite IH. unfold fifo_push. rewrite length_drop, length_app, length_replicate.
  rewrite replicate_S_end, app_assoc.
  destruct (Nat.eqb_spec (length q + n - (length q + n - cap)) cap) as [E|E].
  - rewrite (drop_app_le (q ++ replicate n f)) by (rewrite length_app, length_replicate; lia). f_equal.
    replace (length q + S n - cap)%nat with (length q + n - cap + 1)%nat by lia.
    rewrite <- drop_drop. by destruct (drop _ _).
  - replace (length q + S n - cap)%nat with 0%nat by lia. by replace (length q + n - cap)%nat with 0%nat by lia.
Qed.

(** A frame no candidate decrypts goes back into the queue.  The trial
    decodes run mesh_packet_decode_with_radio with a callback, which queues
    every undecrypted frame for this same thread; after the worker has tried
    its candidates in vain the frame is again the newest in the queue, so the
    worker never runs out of work, and with 127 or more candidates its copies
    have pushed every other waiting frame out. *)
Theorem psk_worker_requeues_failures evp d f q :
  pd_run d = true -> pd_started d = true -> ring_ok (pd_queue d) ->
  ring_size (pd_queue d) = PSK_QUEUE_SIZE ->
  pd_candidates d <> [] -> Forall cand_ok (pd_candidates d) ->
  ring_pop (pd_queue d) = Some (f, q) -> frame_ok f ->
  Forall (fun c => key_hit evp f (trial_entry f c) = None) (pd_candidates d) ->
  exists d', psk_thread_step evp d = Some (d', []) /\ last (ring_list (pd_queue d')) = Some f /\
    ((127 <= length (pd_candidates d))%nat -> ring_list (pd_queue d') = replicate 127 f).
Proof.
  intros Hr Hs Hq Hsz Hne Hc Hpop Hf Hm. unfold psk_thread_step. rewrite Hr, Hpop. cbn [negb].
  pose proof (ring_pop_list (pd_queue d) Hq) as Hp. rewrite Hpop in Hp. destruct Hp as (Hq' & Hsz' & El).
  unfold try_candidates. destruct Hf as [Hb Hl]. destruct (Nat.ltb_spec (length (pf_bytes f)) 16); [lia|].
  set (d1 := d {{ pd_queue := q }}).
  assert (E1 : pd_queue d1 = q) by reflexivity. assert (E2 : pd_candidates d1 = pd_candidates d) by reflexivity.
  assert (E3 : pd_run d1 = true) by exact Hr. assert (E4 : pd_started d1 = true) by exact Hs.
  clearbody d1. pose proof (try_loop_all_miss evp (pd_candidates d) f d1 (conj Hb Hl) Hc Hm E3 E4) as H0.
  rewrite E1 in H0. rewrite E2. specialize (H0 Hq').
  destruct (try_loop evp (pd_candidates d) f d1) as [d' disc]. destruct H0 as [-> H0]. rewrite Hsz', Hsz in H0.
  exists d'. split; [done|]. rewrite H0. split.
  - apply fifo_iter_last. destruct (pd_candidates d); [done|cbn; lia].
  - intros Hn. assert (Hql : (length (ring_list q) <= 127)%nat).
    { rewrite ring_list_length by done. pose proof (ring_count_lt q Hq'). rewrite Hsz', Hsz in *.
      unfold PSK_QUEUE_SIZE in *. lia. }
    unfold PSK_QUEUE_SIZE. rewrite fifo_iter_drop by lia.
    replace (length (ring_list q) + length (pd_candidates d) - (128 - 1))%nat
      with (length (ring_list q) + (length (pd_candidates d) - 127))%nat by lia.
    rewrite drop_replicate_app, drop_replicate. f_equal. lia.
Qed.

Definition witness_frame : psk_frame :=
  mk_psk_frame (enc_mesh_header witness_header ++ [255; 255; 255; 255]) 0 0 11 5 250000.
Definition witness_cand : candidate := mk_candidate (str "default") MESH_DEFAULT_PSK.
Definition witness_dict : psk_dict :=
  mk_psk_dict (ring_push (ring_init witness_frame PSK_QUEUE_SIZE) witness_frame) [witness_cand] true true
    (Some keyset_create).

Lemma psk_worker_requeues_failures_witness :
  exists d', psk_thread_step (fun _ _ x => Some x) witness_dict = Some (d', []) /\
    last (ring_list (pd_queue d')) = Some witness_frame.
Proof.
  destruct (ring_init_ok witness_frame PSK_QUEUE_SIZE) as [Hok _]; [unfold PSK_QUEUE_SIZE; lia|].
  destruct (ring_push_list _ witness_frame Hok) as (Hq & Hsz & _).
  destruct (psk_worker_requeues_failures (fun _ _ x => Some x) witness_dict witness_frame
    (mk_ring (replicate 128 witness_frame) 1 1)) as (d' & H1 & H2 & _).
  - reflexivity.
  - reflexivity.
  - exact Hq.
  - reflexivity.
  - discriminate.
  - apply Forall_cons_2; [left; reflexivity|apply Forall_nil_2].
  - reflexivity.
  - split; [by_decide|vm_compute; lia].
  - apply Forall_cons_2; [vm_compute; reflexivity|apply Forall_nil_2].
  - exists d'. split; [exact H1|exact H2].
Defined.

(** ** Discovery *)

Lemma enqueue_keeps d f :
  pd_run (psk_dict_enqueue d f) = pd_run d /\ pd_live (psk_dict_enqueue d f) = pd_live d.
Proof. unfold psk_dict_enqueue. by destruct (_ || _). Qed.

Lemma try_loop_first evp pre c post f d ev :
  frame_ok f -> Forall cand_ok pre -> cand_ok c ->
  Forall (fun c => key_hit evp f (trial_entry f c) = None) pre ->
  key_hit evp f (trial_entry f c) = Some ev -> pd_run d = true ->
  exists d1, pd_live d1 = pd_live d /\
    try_loop evp (pre ++ c :: post) f d =
    (promote d1 (at_ (pf_bytes f) 13) c (str "(trial)"), [Discovered (at_ (pf_bytes f) 13) c (str "(trial)")]).
Proof.
  intros Hf Hpre Hc Hm Hhit. revert d. induction Hpre as [|c0 pre Hc0 Hpre IH]; intros d Hr; cbn [app].
  - exists d. split; [done|]. by eapply try_loop_hit.
  - apply Forall_cons in Hm as [Hm0 Hm]. rewrite try_loop_miss by done.
    destruct (enqueue_keeps d f) as [E1 E2].
    destruct (IH Hm (psk_dict_enqueue d f)) as (d1 & El & E); [by rewrite E1|].
    exists d1. split; [by rewrite El|done].
Qed.

(** A discovered key decrypts from then on.  When the frame fails with
    every key of the live store but some candidate decrypts it, the first such
    candidate in wordlist order is reported and added to the live store under
    the frame's hash byte (there being room), and decoding the frame again
    with that store emits a decrypted event.  The entry's display name is the
    name of the trial store's entry, "(trial)", never one from the frame. *)
Theorem psk_discovery_decrypts evp d f live pre c post ev :
  frame_ok f -> pd_run d = true -> pd_live d = Some live -> ks_rep live ->
  pd_candidates d = pre ++ c :: post -> Forall cand_ok (pd_candidates d) ->
  Forall (fun e => key_hit evp f e = None) (List.filter (hash_is (at_ (pf_bytes f) 13)) (ks_entries live)) ->
  Forall (fun c => key_hit evp f (trial_entry f c) = None) pre ->
  key_hit evp f (trial_entry f c) = Some ev ->
  insert_allowed (ks_entries live) (at_ (pf_bytes f) 13) = true ->
  exists d' live' ev',
    try_candidates evp f d = (d', [Discovered (at_ (pf_bytes f) 13) c (str "(trial)")]) /\
    pd_live d' = Some live' /\ ks_rep live' /\ ks_entries live' = ks_entries live ++ [trial_entry f c] /\
    mesh_packet_decode_with_radio evp (pf_bytes f) (pf_rssi_db f) (pf_snr_db f) (pf_sf f) (pf_cr f) (pf_bw_hz f)
      (Some live') true = (0, [KeysRdLock; EmitEvent ev'; KeysRdUnlock]) /\ ev_decrypted ev' = true.
Proof.
  intros Hf Hr Hlive Hk Ec Hc Hold Hpre Hhit Hroom. rewrite Ec in Hc.
  apply Forall_app in Hc as [Hcp Hc]. apply Forall_cons in Hc as [Hc0 _].
  destruct (try_loop_first evp pre c post f d ev Hf Hcp Hc0 Hpre Hhit Hr) as (d1 & El & E).
  pose proof (add_raw_spec live (at_ (pf_bytes f) 13) (cd_psk c) (str "(trial)") Hk (at_byte _ 13 (proj1 Hf)) Hc0) as Ha.
  cbn zeta in Ha. destruct (keyset_add_raw live (at_ (pf_bytes f) 13) (cd_psk c) (str "(trial)")) as [ok live'] eqn:Ek.
  rewrite Hroom in Ha. destruct Ha as (-> & Hk' & He').
  exists (promote d1 (at_ (pf_bytes f) 13) c (str "(trial)")), live', ev.
  split; [|split; [|split; [done|split; [exact He'|]]]].
  - unfold try_candidates. destruct Hf as [_ Hl]. destruct (Nat.ltb_spec (length (pf_bytes f)) 16); [lia|].
    by rewrite Ec.
  - unfold promote. rewrite El, Hlive.
    change (Some (snd (keyset_add_raw live (at_ (pf_bytes f) 13) (cd_psk c) (str "(trial)"))) = Some live').
    by rewrite Ek.
  - rewrite decode_hits by done. change (mk_entry _ (cd_psk c) _) with (trial_entry f c) in He'.
    rewrite He', List.filter_app, trial_filter. rewrite (first_some_app _ _ _ [] _ Hold Hhit).
    split; [done|]. exact (proj1 (key_hit_name _ _ _ _ Hhit)).
Qed.

Definition witness_frame2 : psk_frame :=
  match tx_frame stream_xor witness_header MESH_DEFAULT_PSK witness_data with
  | Some bytes => mk_psk_frame bytes 0 0 11 5 250000
  | None => witness_frame
  end.

Lemma psk_discovery_decrypts_witness :
  exists d' live' ev',
    try_candidates stream_xor witness_frame2 witness_dict = (d', [Discovered 8 witness_cand (str "(trial)")]) /\
    pd_live d' = Some live' /\
    mesh_packet_decode_with_radio stream_xor (pf_bytes witness_frame2) 0 0 11 5 250000 (Some live') true =
      (0, [KeysRdLock; EmitEvent ev'; KeysRdUnlock]) /\ ev_decrypted ev' = true.
Proof.
  destruct (key_hit stream_xor witness_frame2 (trial_entry witness_frame2 witness_cand)) as [ev|] eqn:E;
    [|vm_compute in E; discriminate E].
  destruct (psk_discovery_decrypts stream_xor witness_dict witness_frame2 keyset_create [] witness_cand [] ev)
    as (d' & live' & ev' & H1 & H2 & _ & _ & H3 & H4).
  - split; [by_decide|vm_compute; lia].
  - reflexivity.
  - reflexivity.
  - exact keyset_create_rep.
  - reflexivity.
  - apply Forall_cons_2; [left; reflexivity|apply Forall_nil_2].
  - apply Forall_nil_2.
  - apply Forall_nil_2.
  - exact E.
  - reflexivity.
  - exists d', live', ev'. split; [exact H1|]. split; [exact H2|]. split; [exact H3|exact H4].
Defined.

(** ** Wordlist *)

(** The report of a discovery can read past its buffer.  A wordlist line
    may be 510 characters long, comment included, and the whole line is kept
    as the candidate's text; for such a line the length emit_discovery passes
    to fwrite and the publishers exceeds the 384 bytes it formatted into. *)
Theorem discovery_report_overreads :
  exists line c, (length line <= 511)%nat /\ load_wordlist [line] = [c] /\
    (384 < emit_discovery_len 8 c (str "(trial)"))%nat.
Proof.
  exists (str "simple1 # " ++ replicate 400 97 ++ [10]). eexists.
  split; [vm_compute; lia|]. split; [vm_compute; reflexivity|]. vm_compute. lia.
Qed.

Lemma after_padding t : (t = [] \/ t = [61]) -> parse_psk_spec t = None.
Proof. intros [-> | ->]; reflexivity. Qed.

(** No padded base64 key of a wordlist is ever loaded: everything up to
    the first '=' is dropped as a channel name, which for a line without one
    is the key itself. *)
Theorem wordlist_padded_base64_rejected key :
  bytes_ok key -> (length key = 16 \/ length key = 32)%nat ->
  load_wordlist [str "base64:" ++ b64_encode key] = [].
Proof.
  intros Hk Hl. destruct (key_padding key Hl) as (t & Ep & Ht).
  unfold load_wordlist. cbn [fold_left]. change (Z.of_nat (length (@nil candidate)) <? PSK_MAX_CANDIDATES) with true.
  cbn match. unfold load_line. change (str "base64:" ++ b64_encode key) with (98 :: (str "ase64:" ++ b64_encode key)).
  cbn match. change ((98 =? 35) || (98 =? 10)) with false. cbn match.
  replace (parse_psk_spec (98 :: (str "ase64:" ++ b64_encode key))) with (@None (list Z)); [done|].
  symmetry. unfold b64_encode. rewrite Ep. unfold parse_psk_spec.
  replace (skip_while is_blank (98 :: str "ase64:" ++ b64_body key ++ 61 :: t))
    with ((str "base64:" ++ b64_body key) ++ 61 :: t) by (by rewrite <- app_assoc).
  rewrite strchr_app.
  2: { apply Forall_app_2; [|by apply body_no_eq]. repeat (apply Forall_cons_2; [cbn; lia|]). apply Forall_nil_2. }
  by destruct Ht as [-> | ->].
Qed.

Lemma wordlist_padded_base64_rejected_witness :
  load_wordlist [str "base64:1PG7OiApB1nwvP+rz05pAQ=="] = [].
Proof. apply (wordlist_padded_base64_rejected MESH_DEFAULT_PSK); [bytes_tac|by left]. Defined.
