(* ===== verification/MeshCoreRegion.v ===== *)
(** Region-scope resolution (src/meshcore_region_dict.c): transport codes, the
    cache of confirmed regions, the fast and the full search, and the queue
    of the background worker.

    SHA-256 and HMAC-SHA256 (OpenSSL) are parameters; a failing call is
    [None].  The confirmed table and the queue are each behind a mutex; one
    search works on a snapshot of the table. *)

From Stdlib Require Import String.
From S2P Require Import Prelude CString MeshCore FrameQueue.

Local Open Scope Z_scope.

Definition REGION_CURATED_CANDIDATES : list (list Z) :=
  [ str "Europe"; str "UK"; str "France"; str "Germany"; str "Spain"; str "Italy"; str "Portugal";
    str "Netherlands"; str "Belgium"; str "Switzerland"; str "Austria"; str "Ireland"; str "Scotland";
    str "Wales"; str "Poland"; str "Sweden"; str "Norway"; str "Denmark"; str "Finland"; str "London";
    str "Paris"; str "Lyon"; str "Manchester"; str "US"; str "USA"; str "Canada"; str "Mexico";
    str "Australia"; str "NZ"; str "Asia"; str "Africa"; str "World"; str "Global"; str "Local"; str "Test";
    str "Home" ].

Definition REGION_MAX_CANDIDATES : nat := 256.
Definition MC_REGION_MAX_CONFIRMED : nat := 64.
Definition MC_REGION_QUEUE_SIZE : nat := 64.

(** The candidate table init_candidates builds. *)
Definition region_candidates : list (list Z) :=
  let curated := take REGION_MAX_CANDIDATES (map (copy_to MC_CHANNEL_MAX_NAME) REGION_CURATED_CANDIDATES) in
  curated ++ meshcore_builtin_hashtag_candidates (REGION_MAX_CANDIDATES - length curated).

Record confirmed_region := mk_confirmed { cr_name : list Z; cr_key : list Z }.

Section Crypto.
Variable sha256 : list Z -> option (list Z).
Variable hmac_sha256 : list Z -> list Z -> option (list Z).

Definition sha256_key16 (s : list Z) : list Z :=
  match sha256 s with
  | Some d => if (16 <=? length d)%nat then take 16 d else replicate 16 0
  | None => replicate 16 0
  end.

Definition calc_transport_code (key16 : list Z) (payload_type : Z) (payload : list Z) : Z :=
  match hmac_sha256 key16 (payload_type :: take MC_MAX_PACKET_PAYLOAD payload) with
  | None => 0
  | Some h =>
      let code := rd_le16 h in
      if code =? 0 then 1 else if code =? 0xFFFF then 0xFFFE else code
  end.

Definition remember_confirmed (tbl : list confirmed_region) (name key16 : list Z) : list confirmed_region :=
  if existsb (fun r => strcmp_eq (cr_name r) name) tbl then tbl
  else if (length tbl <? MC_REGION_MAX_CONFIRMED)%nat
       then tbl ++ [mk_confirmed (copy_to MC_CHANNEL_MAX_NAME name) key16] else tbl.

(** The name written to [name_out], a buffer of [name_cap] bytes. *)
Definition meshcore_region_resolve_fast (tbl : list confirmed_region) (payload_type : Z) (payload : list Z)
    (code : Z) (name_cap : nat) : option (list Z) :=
  if code =? 0 then None
  else match find (fun r => calc_transport_code (cr_key r) payload_type payload =? code) tbl with
       | Some r => Some (copy_to name_cap (cr_name r))
       | None => None
       end.

(** Every spelling tried, in order: each case variant plain, then with '#'. *)
Definition region_spellings : list (list Z) :=
  flat_map (fun c => flat_map (fun v => [v; copy_to (MC_CHANNEL_MAX_NAME + 1) (35 :: v)])
                              (meshcore_name_case_variants c))
           region_candidates.

Definition meshcore_region_resolve_full (tbl : list confirmed_region) (payload_type : Z) (payload : list Z)
    (code : Z) (name_cap : nat) : option (list Z) * list confirmed_region :=
  match meshcore_region_resolve_fast tbl payload_type payload code name_cap with
  | Some n => (Some n, tbl)
  | None =>
      if code =? 0 then (None, tbl)
      else match find (fun c => calc_transport_code (sha256_key16 c) payload_type payload =? code)
                      region_spellings with
           | Some cand => (Some (copy_to name_cap cand), remember_confirmed tbl cand (sha256_key16 cand))
           | None => (None, tbl)
           end
  end.

(** ** Background worker *)

Record mc_region_frame := mk_region_frame { rf_payload_type : Z; rf_payload : list Z; rf_code : Z }.

Definition meshcore_region_dict_enqueue (q : ring mc_region_frame) (payload_type : Z) (payload : list Z)
    (code : Z) : ring mc_region_frame :=
  if (length payload =? 0)%nat then q
  else ring_push q (mk_region_frame payload_type (take MC_MAX_PACKET_PAYLOAD payload) code).

(** One round of region_dict_worker; [None]: it waits. *)
Definition region_dict_worker (q : ring mc_region_frame) (tbl : list confirmed_region)
  : option (ring mc_region_frame * list confirmed_region) :=
  match ring_pop q with
  | None => None
  | Some (f, q) =>
      Some (q, snd (meshcore_region_resolve_full tbl (rf_payload_type f) (rf_payload f) (rf_code f)
                      MC_CHANNEL_MAX_NAME))
  end.

(** ** Correctness of the search *)

(** Every cached key is the key of its name. *)
Definition confirmed_ok (tbl : list confirmed_region) : Prop :=
  (length tbl <= MC_REGION_MAX_CONFIRMED)%nat /\ NoDup (map cr_name tbl) /\
  Forall (fun r => cr_key r = sha256_key16 (cr_name r) /\ (length (cr_name r) < MC_CHANNEL_MAX_NAME)%nat) tbl.

Lemma spellings_short : forallb (fun s => (length s <? MC_CHANNEL_MAX_NAME)%nat) region_spellings = true.
Proof. vm_compute. reflexivity. Qed.

Lemma remember_ok tbl c :
  confirmed_ok tbl -> (length c < MC_CHANNEL_MAX_NAME)%nat -> confirmed_ok (remember_confirmed tbl c (sha256_key16 c)).
Proof.
  intros (Hl & Hd & Hk) Hc. unfold remember_confirmed. destruct (existsb _ tbl) eqn:E; [done|].
  destruct (Nat.ltb_spec (length tbl) MC_REGION_MAX_CONFIRMED) as [Hr|]; [|done].
  rewrite copy_to_short by done. split; [rewrite length_app; cbn; lia|]. split.
  - rewrite map_app. apply NoDup_app. split; [done|]. split; [|apply NoDup_singleton].
    intros x Hx Hx'. apply list_elem_of_singleton in Hx' as ->. apply list_elem_of_fmap in Hx as (r & En & Hr').
    apply list_elem_of_In in Hr'.
    assert (existsb (fun r => strcmp_eq (cr_name r) c) tbl = true) as E'.
    { apply existsb_exists. exists r. split; [done|]. apply list_eqb_eq. done. }
    congruence.
  - apply Forall_app. split; [done|]. apply Forall_singleton. by split.
Qed.

Lemma find_total {A} (p : A -> bool) l x : In x l -> p x = true -> exists y, find p l = Some y.
Proof.
  induction l as [|z l IH]; [done|]. cbn [In find]. intros [<-|H] Hp; [rewrite Hp; eauto|].
  destruct (p z); eauto.
Qed.

(** The confirmed table keeps its invariant, a returned name reproduces the
    code, and a spelling that reproduces the code is found. *)
Lemma resolve_full_spec tbl t payload code :
  confirmed_ok tbl -> code <> 0 ->
  let '(r, tbl') := meshcore_region_resolve_full tbl t payload code MC_CHANNEL_MAX_NAME in
  confirmed_ok tbl' /\
  (forall n, r = Some n -> calc_transport_code (sha256_key16 n) t payload = code) /\
  (forall c, In c region_spellings -> calc_transport_code (sha256_key16 c) t payload = code -> r <> None) /\
  ((length tbl < MC_REGION_MAX_CONFIRMED)%nat -> r <> None ->
     meshcore_region_resolve_fast tbl' t payload code MC_CHANNEL_MAX_NAME <> None).
Proof.
  intros Hok Hc. unfold meshcore_region_resolve_full.
  destruct (meshcore_region_resolve_fast tbl t payload code MC_CHANNEL_MAX_NAME) as [n|] eqn:Ef.
  - split; [done|]. split; [|split; [done|intros _ _; by rewrite Ef]]. intros n' [= <-].
    unfold meshcore_region_resolve_fast in Ef. destruct (code =? 0); [done|].
    destruct (find _ tbl) as [r|] eqn:E; [|done]. injection Ef as <-.
    apply find_some in E as [Hin E]. zb. destruct Hok as (_ & _ & Hk). rewrite List.Forall_forall in Hk.
    destruct (Hk r Hin) as [Ek Hn]. rewrite copy_to_short by done. by rewrite <- Ek.
  - rewrite (proj2 (Z.eqb_neq code 0) Hc).
    destruct (find _ region_spellings) as [c|] eqn:E.
    + apply find_some in E as [Hin E]. zb. pose proof spellings_short as Hs.
      rewrite forallb_forall in Hs. specialize (Hs c Hin). zb.
      split; [by apply remember_ok|]. split; [intros n [= <-]; by rewrite copy_to_short|].
      split; [done|]. intros Hroom _. unfold meshcore_region_resolve_fast.
      rewrite (proj2 (Z.eqb_neq code 0) Hc).
      destruct (find_total (fun r => calc_transport_code (cr_key r) t payload =? code)
        (remember_confirmed tbl c (sha256_key16 c)) (mk_confirmed c (sha256_key16 c))) as [y ->]; [|by apply Z.eqb_eq|done].
      unfold remember_confirmed. destruct (existsb _ tbl) eqn:Ex.
      * apply existsb_exists in Ex as (r & Hr & En). apply list_eqb_eq in En. subst c.
        destruct Hok as (_ & _ & Hk). rewrite List.Forall_forall in Hk. destruct (Hk r Hr) as [Ek _].
        rewrite <- Ek. by destruct r.
      * rewrite (proj2 (Nat.ltb_lt _ _) Hroom). rewrite copy_to_short by done. apply in_or_app. right. by left.
    + split; [done|]. split; [done|]. split; [|done]. intros c Hin Ecode _.
      destruct (find_total (fun c => calc_transport_code (sha256_key16 c) t payload =? code) _ c Hin) as [y Hy];
        [by apply Z.eqb_eq|]. congruence.
Qed.
End Crypto.

(** Region resolution is sound, complete for its word list, and cached.
    For any hash functions: a name the full search returns produces, through
    its key, exactly the transport code of the packet; whenever some spelling
    of the candidate list (plain or with '#', in any of the case variants)
    produces the code, a name is returned; while the cache of 64 confirmed
    regions has room, the fast lookup of the same packet then succeeds; and
    the cache only ever holds distinct names with their own keys. *)
Theorem region_resolution_correct sha256 hmac tbl t payload code :
  confirmed_ok sha256 tbl -> code <> 0 ->
  let '(r, tbl') := meshcore_region_resolve_full sha256 hmac tbl t payload code MC_CHANNEL_MAX_NAME in
  confirmed_ok sha256 tbl' /\
  (forall n, r = Some n -> calc_transport_code hmac (sha256_key16 sha256 n) t payload = code) /\
  (forall c, In c region_spellings -> calc_transport_code hmac (sha256_key16 sha256 c) t payload = code ->
     r <> None) /\
  ((length tbl < MC_REGION_MAX_CONFIRMED)%nat -> r <> None ->
     meshcore_region_resolve_fast hmac tbl' t payload code MC_CHANNEL_MAX_NAME <> None).
Proof. apply resolve_full_spec. Qed.

(** Hash functions for the instances: the text padded to 32 bytes, and key
    followed by message. *)
Definition pad_hash (s : list Z) : option (list Z) := Some (take 32 (s ++ replicate 32 0)).
Definition cat_mac (key msg : list Z) : option (list Z) := Some (key ++ msg).

Lemma region_resolution_correct_witness :
  fst (meshcore_region_resolve_full pad_hash cat_mac [] 5 [1; 2] (rd_le16 (str "fr-33")) 32) <> None.
Proof.
  pose proof (region_resolution_correct pad_hash cat_mac [] 5 [1; 2] (rd_le16 (str "fr-33"))) as H.
  destruct (meshcore_region_resolve_full pad_hash cat_mac [] 5 [1; 2] (rd_le16 (str "fr-33")) _) as [r tbl'].
  destruct H as (_ & _ & H & _).
  - split; [cbn; lia|]. split; [constructor|constructor].
  - vm_compute. discriminate.
  - apply (H (str "fr-33")); [|vm_compute; reflexivity].
    apply list_elem_of_In. by_decide.
Defined.
