(* ===== verification/MeshCoreDecoders.v ===== *)
(** The MeshCore payload decoders (src/meshcore_decoders.c) and the dispatch
    meshcore_packet_decode_with_radio.

    Ed25519 verification, HMAC-SHA256 and AES-128-ECB (OpenSSL) are
    parameters.  A decoder returns the event, [None] standing for [false], on
    which the frame is dropped. *)

From Stdlib Require Import String.
From S2P Require Import Prelude CString CFloat MeshEvent MeshCore MeshCoreLpp.
From S2P Require Import MeshCoreRegion.

Local Open Scope Z_scope.

(** [copy_printable]: up to [max - 1] bytes, stopping at a NUL. *)
Fixpoint until_nul (s : list Z) : list Z :=
  match s with
  | [] => []
  | c :: t => if c =? 0 then [] else c :: until_nul t
  end.

Definition copy_printable (p : list Z) (max : nat) : list Z := until_nul (take (max - 1) p).

Definition type_name (s : list Z) : list Z := copy_to 16 s.

(** ** ADVERT *)

Definition mc_latlon_plausible (lat lon : spec_float) : bool :=
  if f64_ltb lat (f64_of_Z (-90)) || f64_ltb (f64_of_Z 90) lat ||
     f64_ltb lon (f64_of_Z (-180)) || f64_ltb (f64_of_Z 180) lon then false
  else if f64_eqb lat f_zero && f64_eqb lon f_zero then false
  else true.

Definition le32_bytes (v : Z) : list Z :=
  [u8 v; u8 (Z.shiftr v 8); u8 (Z.shiftr v 16); u8 (Z.shiftr v 24)].

(** The optional fields, in their fixed order: each step returns the event and
    the offset [i] of the next field. *)
Definition advert_latlon (flags : Z) (app : list Z) (st : mesh_event * nat) : mesh_event * nat :=
  let '(ev, i) := st in
  if nz (Z.land flags ADV_LATLON_MASK) then
    if (i + 8 <=? length app)%nat then
      let lat := f64_div (f64_of_Z (i32 (rd_le32 (drop i app)))) f64_1e6 in
      let lon := f64_div (f64_of_Z (i32 (rd_le32 (drop (i + 4) app)))) f64_1e6 in
      ((if mc_latlon_plausible lat lon
        then ev {{ ev_mc_has_latlon := true; ev_mc_lat := lat; ev_mc_lon := lon }} else ev), (i + 8)%nat)
    else (ev, length app)
  else (ev, i).

Definition advert_feat1 (flags : Z) (app : list Z) (st : mesh_event * nat) : mesh_event * nat :=
  let '(ev, i) := st in
  if nz (Z.land flags ADV_FEAT1_MASK) && (i + 2 <=? length app)%nat
  then (ev {{ ev_mc_extra1 := rd_le16 (drop i app) }}, (i + 2)%nat)
  else if nz (Z.land flags ADV_FEAT1_MASK) then (ev, length app) else (ev, i).

Definition advert_feat2 (flags : Z) (app : list Z) (st : mesh_event * nat) : mesh_event * nat :=
  let '(ev, i) := st in
  if nz (Z.land flags ADV_FEAT2_MASK) && (i + 2 <=? length app)%nat
  then (ev {{ ev_mc_extra2 := rd_le16 (drop i app) }}, (i + 2)%nat)
  else if nz (Z.land flags ADV_FEAT2_MASK) then (ev, length app) else (ev, i).

Definition advert_name (flags : Z) (app : list Z) (st : mesh_event * nat) : mesh_event :=
  let '(ev, i) := st in
  if nz (Z.land flags ADV_NAME_MASK) && (i <=? length app)%nat
  then ev {{ ev_mc_has_name := true; ev_mc_node_name := copy_printable (drop i app) 40 }} else ev.

Definition advert_app_data (app : list Z) (ev : mesh_event) : mesh_event :=
  match app with
  | [] => ev
  | flags :: _ =>
      let ev := ev {{ ev_mc_adv_type := Z.land flags ADV_TYPE_MASK }} in
      advert_name flags app (advert_feat2 flags app (advert_feat1 flags app (advert_latlon flags app (ev, 1%nat))))
  end.

(** ** TRACE *)

Definition meshcore_decode_trace (pkt : meshcore_packet) (ev : mesh_event) : option mesh_event :=
  let p := pk_payload pkt in
  if (length p <? 9)%nat then None
  else
    let flags := at_ p 8 in
    let p := drop 9 p in
    let route_entry_size := Z.to_nat (Z.shiftl 1 (Z.land flags 3)) in
    let n_route_hops := Nat.min (length p / route_entry_size) MC_MAX_PATH_SIZE in
    let n_snr_hops := Nat.min (Z.to_nat (pk_path_hash_count pkt)) MC_MAX_PATH_SIZE in
    Some (ev {{ ev_mc_path_snrs := take n_snr_hops (pk_path pkt);
                ev_mc_path_hashes := map (fun i => at_ p (i * route_entry_size)) (seq 0 n_route_hops);
                ev_mc_path_hop_count := Z.of_nat (Nat.max n_route_hops n_snr_hops);
                ev_mc_type_name := type_name (str "TRACE"); ev_decrypted := true }}).

(** ** Envelopes without key material *)

Definition decode_envelope_only (pkt : meshcore_packet) (ev : mesh_event) (name : list Z) (has_pubkey : bool)
  : option mesh_event :=
  let hdr_len := if has_pubkey then (1 + MC_PUB_KEY_SIZE + MC_CIPHER_MAC_SIZE)%nat
                 else (2 + MC_CIPHER_MAC_SIZE)%nat in
  let p := pk_payload pkt in
  if (length p <? hdr_len)%nat then None
  else
    let ev := ev {{ ev_mc_dest_hash := at_ p 0; ev_mc_type_name := type_name name; ev_decrypted := false }} in
    Some (if has_pubkey then ev {{ ev_mc_pubkey := take MC_PUB_KEY_SIZE (drop 1 p) }}
          else ev {{ ev_mc_src_hash := at_ p 1 }}).

Definition decode_ack (pkt : meshcore_packet) (ev : mesh_event) : option mesh_event :=
  if (length (pk_payload pkt) <? 4)%nat then None
  else Some (ev {{ ev_mc_timestamp := rd_le32 (pk_payload pkt); ev_mc_type_name := type_name (str "ACK");
                   ev_decrypted := true }}).

Definition decode_unknown (pkt : meshcore_packet) (ev : mesh_event) : option mesh_event :=
  Some (ev {{ ev_mc_type_name := type_name (mc_payload_type_name (pk_payload_type pkt)); ev_decrypted := false }}).

(** ** MULTIPART and CONTROL *)

Definition decode_multipart (pkt : meshcore_packet) (ev : mesh_event) : option mesh_event :=
  let p := pk_payload pkt in
  let ev := ev {{ ev_mc_type_name := type_name (str "MULTIPART") }} in
  if (length p <? 1)%nat then None
  else
    let ev := ev {{ ev_mc_multipart_remaining := Z.shiftr (at_ p 0) 4;
                    ev_mc_multipart_inner_type := Z.land (at_ p 0) 0x0F }} in
    if (ev_mc_multipart_inner_type ev =? MC_PAYLOAD_ACK) && (5 <=? length p)%nat
    then Some (ev {{ ev_mc_timestamp := rd_le32 (drop 1 p); ev_decrypted := true }})
    else Some (ev {{ ev_decrypted := false }}).

Definition decode_control (pkt : meshcore_packet) (ev : mesh_event) : option mesh_event :=
  let p := pk_payload pkt in
  let ev := ev {{ ev_mc_type_name := type_name (str "CONTROL") }} in
  if (length p <? 1)%nat then None
  else
    let subtype := Z.land (at_ p 0) 0xF0 in
    if (subtype =? MC_CTL_TYPE_NODE_DISCOVER_REQ) && (6 <=? length p)%nat then
      let ev := ev {{ ev_mc_ctl_subtype := copy_to 24 (str "NODE_DISCOVER_REQ"); ev_mc_ctl_filter := at_ p 1;
                      ev_mc_ctl_tag := rd_le32 (drop 2 p); ev_decrypted := true }} in
      Some (if (10 <=? length p)%nat then ev {{ ev_mc_ctl_since := rd_le32 (drop 6 p) }} else ev)
    else if (subtype =? MC_CTL_TYPE_NODE_DISCOVER_RESP) && (6 + MC_PUB_KEY_SIZE <=? length p)%nat then
      Some (ev {{ ev_mc_ctl_subtype := copy_to 24 (str "NODE_DISCOVER_RESP");
                  ev_mc_adv_type := Z.land (at_ p 0) 0x0F;
                  ev_mc_ctl_snr := f32_div (f32_of_Z (i8 (at_ p 1))) (f32_of_Z 4);
                  ev_mc_ctl_tag := rd_le32 (drop 2 p);
                  ev_mc_pubkey := take MC_PUB_KEY_SIZE (drop 6 p); ev_decrypted := true }})
    else Some (ev {{ ev_decrypted := false }}).

(** ** The decoders with crypto *)

(** What a decode does to the outside. *)
Inductive mc_effect :=
| McEvent (ev : mesh_event)
| RegionEnqueue (payload_type : Z) (payload : list Z) (code : Z)
| HashtagEnqueue (frame : list Z) (rssi_db snr_db sf cr bw_hz : Z).

Section Crypto.
Variable ed25519_verify : list Z -> list Z -> list Z -> bool.  (* key, signature, message *)
Variable hmac_sha256 : list Z -> list Z -> option (list Z).
Variable aes128_ecb_decrypt : list Z -> list Z -> option (list Z).

Definition meshcore_advert_verify_signature (pubkey : list Z) (timestamp : Z) (app_data signature : list Z) : bool :=
  let msg := pubkey ++ le32_bytes timestamp ++ app_data in
  if (MC_PUB_KEY_SIZE + 4 + MC_MAX_PACKET_PAYLOAD <? MC_PUB_KEY_SIZE + 4 + length app_data)%nat then false
  else ed25519_verify pubkey signature msg.

Definition meshcore_decode_advert (pkt : meshcore_packet) (ev : mesh_event) : option mesh_event :=
  let p := pk_payload pkt in
  if (length p <? MC_PUB_KEY_SIZE + 4 + MC_SIGNATURE_SIZE)%nat then None
  else
    let pubkey := take MC_PUB_KEY_SIZE p in
    let timestamp := rd_le32 (drop MC_PUB_KEY_SIZE p) in
    let signature := take MC_SIGNATURE_SIZE (drop (MC_PUB_KEY_SIZE + 4) p) in
    let app_data := drop (MC_PUB_KEY_SIZE + 4 + MC_SIGNATURE_SIZE) p in
    let ev := ev {{ ev_mc_pubkey := pubkey; ev_mc_timestamp := timestamp;
                    ev_mc_sig_valid := meshcore_advert_verify_signature pubkey timestamp app_data signature }} in
    Some ((advert_app_data app_data ev) {{ ev_mc_type_name := type_name (str "ADVERT"); ev_decrypted := true }}).

(** The index and plaintext of the first channel whose MAC verifies. *)
Definition grp_decrypt (pkt : meshcore_packet) (channels : option channelset) : option (nat * list Z) :=
  if (length (pk_payload pkt) <? 1 + MC_CIPHER_MAC_SIZE)%nat then None
  else match channels with
       | None => None
       | Some cs =>
           first_some (fun i => match cs !! i with
                                | None => None
                                | Some ch =>
                                    match meshcore_verify_and_decrypt hmac_sha256 aes128_ecb_decrypt
                                            (ch_secret ch) (drop 1 (pk_payload pkt)) with
                                    | Some plain => Some (i, plain)
                                    | None => None
                                    end
                                end)
             (meshcore_channelset_lookup cs (at_ (pk_payload pkt) 0) MC_CHANNEL_MAX_ENTRIES)
       end.

Definition channel_at (channels : option channelset) (i : nat) : meshcore_channel :=
  match channels with
  | Some cs => nth i cs (mk_channel [] [] 0)
  | None => mk_channel [] [] 0
  end.

Definition grp_undecrypted (pkt : meshcore_packet) (ev : mesh_event) (name : list Z) : mesh_event :=
  ev {{ ev_mc_type_name := type_name name;
        ev_mc_channel_hash := (if (0 <? length (pk_payload pkt))%nat then at_ (pk_payload pkt) 0 else 0);
        ev_decrypted := false }}.

Definition meshcore_decode_grp_txt (pkt : meshcore_packet) (channels : option channelset) (ev : mesh_event)
  : option mesh_event :=
  match grp_decrypt pkt channels with
  | None => Some (grp_undecrypted pkt ev (str "GRP_TXT"))
  | Some (idx, plain) =>
      if (length plain <? 5)%nat then None
      else
        let txt_type := at_ plain 4 in
        if nz (Z.shiftr txt_type 2) then None
        else
          let ch := channel_at channels idx in
          Some (ev {{ ev_mc_timestamp := rd_le32 plain; ev_mc_txt_type := txt_type;
                      ev_mc_text := copy_printable (drop 5 plain) 256;
                      ev_channel_name := copy_to 32 (ch_name ch);
                      ev_mc_channel_hash := ch_hash ch;
                      ev_mc_type_name := type_name (str "GRP_TXT"); ev_decrypted := true }})
  end.

Definition meshcore_decode_grp_data (pkt : meshcore_packet) (channels : option channelset) (ev : mesh_event)
  : option mesh_event :=
  match grp_decrypt pkt channels with
  | None => Some (grp_undecrypted pkt ev (str "GRP_DATA"))
  | Some (idx, plain) =>
      if (length plain <? 3)%nat then None
      else
        let data_len := at_ plain 2 in
        let avail := (length plain - 3)%nat in
        let n := if (Z.to_nat data_len <? avail)%nat then Z.to_nat data_len else avail in
        let blob := take n (drop 3 plain) in
        let ev := ev {{ ev_mc_data_type := rd_le16 plain; ev_mc_data_len := data_len }} in
        let ev := match meshcore_lpp_decode blob MESHCORE_LPP_MAX_RECORDS with
                  | Some recs => ev {{ ev_mc_telemetry_json := snd (meshcore_lpp_to_json recs 1024);
                                       ev_mc_text := snd (meshcore_lpp_to_text recs 256) }}
                  | None => ev {{ ev_mc_text := hex_dump blob 0 256 }}
                  end in
        let ch := channel_at channels idx in
        Some (ev {{ ev_channel_name := copy_to 32 (ch_name ch); ev_mc_channel_hash := ch_hash ch;
                    ev_mc_type_name := type_name (str "GRP_DATA"); ev_decrypted := true }})
  end.

(** The event before the payload is looked at. *)
Definition mc_base_event (pkt : meshcore_packet) (frame : list Z) (rssi_db snr_db sf cr bw_hz : Z)
    (region : option (list Z)) : mesh_event :=
  let ev := event_zero {{ ev_is_meshcore := true; ev_rssi_db := rssi_db; ev_snr_db := snr_db; ev_sf := sf;
                          ev_cr := cr; ev_bw_hz := bw_hz; ev_slot_id := -1;
                          ev_mc_route_type := pk_route_type pkt; ev_mc_payload_type := pk_payload_type pkt;
                          ev_mc_payload_ver := pk_payload_ver pkt;
                          ev_mc_hdr_path_hash_count := pk_path_hash_count pkt;
                          ev_mc_hdr_path_hash_size := pk_path_hash_size pkt;
                          ev_mc_hdr_path := take MC_MAX_PATH_SIZE (pk_path pkt);
                          ev_mc_has_region_scope := pk_has_transport_codes pkt;
                          ev_raw_hex := hex_dump (take 256 frame) 0 513 }} in
  if pk_has_transport_codes pkt then
    ev {{ ev_mc_region_code1 := pk_transport_code1 pkt; ev_mc_region_code2 := pk_transport_code2 pkt;
          ev_mc_region_name := match region with Some n => n | None => [] end }}
  else ev.

(** The switch on the payload type. *)
Definition mc_dispatch (pkt : meshcore_packet) (channels : option channelset) (ev : mesh_event) : option mesh_event :=
  let t := pk_payload_type pkt in
  if t =? MC_PAYLOAD_ADVERT then meshcore_decode_advert pkt ev
  else if t =? MC_PAYLOAD_TRACE then meshcore_decode_trace pkt ev
  else if t =? MC_PAYLOAD_GRP_TXT then meshcore_decode_grp_txt pkt channels ev
  else if t =? MC_PAYLOAD_GRP_DATA then meshcore_decode_grp_data pkt channels ev
  else if t =? MC_PAYLOAD_ACK then decode_ack pkt ev
  else if (t =? MC_PAYLOAD_TXT_MSG) || (t =? MC_PAYLOAD_REQ) || (t =? MC_PAYLOAD_RESPONSE) || (t =? MC_PAYLOAD_PATH)
       then decode_envelope_only pkt ev (mc_payload_type_name t) false
  else if t =? MC_PAYLOAD_ANON_REQ then decode_envelope_only pkt ev (str "ANON_REQ") true
  else if t =? MC_PAYLOAD_MULTIPART then decode_multipart pkt ev
  else if t =? MC_PAYLOAD_CONTROL then decode_control pkt ev
  else decode_unknown pkt ev.

(** [regions] is the confirmed-region table the fast lookup reads. *)
Definition meshcore_packet_decode_with_radio (frame : list Z) (rssi_db snr_db sf cr bw_hz : Z)
    (regions : list confirmed_region) (channels : option channelset) (cb : bool) : Z * list mc_effect :=
  match meshcore_packet_parse frame with
  | None => (-1, [])
  | Some pkt =>
      let region :=
        if pk_has_transport_codes pkt
        then meshcore_region_resolve_fast hmac_sha256 regions (pk_payload_type pkt) (pk_payload pkt)
               (pk_transport_code1 pkt) 32
        else None in
      let enq := if pk_has_transport_codes pkt
                 then match region with
                      | Some _ => []
                      | None => [RegionEnqueue (pk_payload_type pkt) (pk_payload pkt) (pk_transport_code1 pkt)]
                      end
                 else [] in
      match mc_dispatch pkt channels (mc_base_event pkt frame rssi_db snr_db sf cr bw_hz region) with
      | None => (-1, enq)
      | Some ev =>
          (0, enq ++ (if cb then [McEvent ev] else []) ++
              (if ((pk_payload_type pkt =? MC_PAYLOAD_GRP_TXT) || (pk_payload_type pkt =? MC_PAYLOAD_GRP_DATA))
                  && negb (ev_decrypted ev)
               then [HashtagEnqueue frame rssi_db snr_db sf cr bw_hz] else []))
      end
  end.
End Crypto.

(** ** The trust gate of two-bit CRC corrections *)

Definition mesh_event_crc2bit_trusted (ev : mesh_event) : bool :=
  if negb (ev_is_meshcore ev) then false
  else if ((ev_mc_payload_type ev =? MC_PAYLOAD_GRP_TXT) || (ev_mc_payload_type ev =? MC_PAYLOAD_GRP_DATA))
          && ev_decrypted ev then true
  else if (ev_mc_payload_type ev =? MC_PAYLOAD_ADVERT) && ev_mc_sig_valid ev then true
  else false.
