(* ===== verification/MeshCoreFacts.v ===== *)
(** Correctness of the MeshCore side: the channel set, the framing, the trust
    gate of two-bit CRC corrections and the round trip of a channel text. *)

From Stdlib Require Import String.
From S2P Require Import Prelude Protobuf CString CFloat MeshEvent Keyset MeshCore.
From S2P Require Import MeshCoreLpp MeshCoreRegion MeshPacketFacts MeshCoreDecoders.

Local Open Scope Z_scope.

(** ** Channel set *)

(** The set as a map from names to secrets. *)
Definition secret_of (cs : channelset) (name : list Z) : option (list Z) :=
  option_map ch_secret (find (fun e => strcmp_eq (ch_name e) name) cs).

Definition cs_ok (cs : channelset) : Prop :=
  (length cs <= MC_CHANNEL_MAX_ENTRIES)%nat /\ NoDup (map ch_name cs).

Lemma channel_index_None cs name : channel_index cs name = None <-> secret_of cs name = None.
Proof.
  unfold secret_of. induction cs as [|e cs IH]; [done|]. cbn [channel_index find].
  destruct (strcmp_eq (ch_name e) name); [done|]. rewrite <- IH. by destruct (channel_index cs name).
Qed.

Lemma channel_index_Some cs name i :
  channel_index cs name = Some i -> exists e, cs !! i = Some e /\ ch_name e = name.
Proof.
  revert i. induction cs as [|e cs IH]; [done|]. intros i. cbn [channel_index].
  destruct (strcmp_eq (ch_name e) name) eqn:E; [intros [= <-]; exists e; split; [done|by apply list_eqb_eq]|].
  destruct (channel_index cs name) as [j|]; [|done]. intros [= <-]. by apply IH.
Qed.

Lemma secret_of_app cs e n :
  secret_of (cs ++ [e]) n =
  match secret_of cs n with Some s => Some s | None => if strcmp_eq (ch_name e) n then Some (ch_secret e) else None end.
Proof.
  unfold secret_of. induction cs as [|x cs IH]; cbn [app find].
  - by destruct (strcmp_eq (ch_name e) n).
  - by destruct (strcmp_eq (ch_name x) n).
Qed.

Lemma secret_of_insert cs i e n :
  channel_index cs (ch_name e) = Some i ->
  secret_of (<[i := e]> cs) n = if strcmp_eq (ch_name e) n then Some (ch_secret e) else secret_of cs n.
Proof.
  unfold secret_of. revert i. induction cs as [|x cs IH]; [done|]. intros i. cbn [channel_index].
  destruct (strcmp_eq (ch_name x) (ch_name e)) eqn:E.
  - intros [= <-]. cbn [insert list_insert find]. apply list_eqb_eq in E. rewrite E.
    by destruct (strcmp_eq (ch_name e) n).
  - destruct (channel_index cs (ch_name e)) as [j|] eqn:Ej; [|done]. intros [= <-].
    cbn [insert list_insert find]. destruct (strcmp_eq (ch_name x) n) eqn:Ex.
    + destruct (strcmp_eq (ch_name e) n) eqn:En; [|done].
      apply list_eqb_eq in Ex, En. subst n. rewrite Ex in E. unfold strcmp_eq in E. by rewrite list_eqb_refl in E.
    + by apply IH.
Qed.

Lemma insert_same_name cs i e x :
  cs !! i = Some x -> ch_name x = ch_name e -> map ch_name (<[i := e]> cs) = map ch_name cs.
Proof.
  revert i. induction cs as [|y cs IH]; [done|]. intros [|i]; cbn; [intros [= ->] ->; done|].
  intros H1 H2. f_equal. by apply IH.
Qed.

(** Adding a channel is an upsert of a bounded map from names to secrets.
    Adding a known name replaces its secret in place, never growing the table
    and always succeeding; a new name is appended while fewer than 32 are
    stored and refused otherwise; every other name keeps its secret, names
    stay distinct, and the entry's hash is the hash of its secret. *)
Theorem channelset_upsert sha256 cs name secret :
  cs_ok cs -> (length name < MC_CHANNEL_MAX_NAME)%nat ->
  match add_channel_locked sha256 cs name secret with
  | Some (cs', e) =>
      cs_ok cs' /\ e = mk_channel name secret (meshcore_channel_hash sha256 secret) /\
      (forall n, secret_of cs' n = if strcmp_eq name n then Some secret else secret_of cs n) /\
      length cs' = match secret_of cs name with Some _ => length cs | None => S (length cs) end
  | None => secret_of cs name = None /\ length cs = MC_CHANNEL_MAX_ENTRIES
  end.
Proof.
  intros [Hl Hd] Hn. unfold add_channel_locked. rewrite copy_to_short by done.
  set (e := mk_channel name secret (meshcore_channel_hash sha256 secret)).
  destruct (channel_index cs name) as [i|] eqn:Ei.
  - destruct (channel_index_Some _ _ _ Ei) as (x & Hx & Ex).
    assert (Hs : secret_of cs name <> None) by (rewrite <- channel_index_None; congruence).
    split; [|split; [done|split]].
    + split; [by rewrite length_insert|]. by rewrite (insert_same_name _ _ _ x).
    + intros n. by apply (secret_of_insert cs i e n).
    + rewrite length_insert. by destruct (secret_of cs name).
  - assert (Hs : secret_of cs name = None) by (by apply channel_index_None).
    destruct (Nat.leb_spec MC_CHANNEL_MAX_ENTRIES (length cs)); [split; [done|lia]|].
    split; [|split; [done|split]].
    + split; [rewrite length_app; cbn; lia|]. rewrite map_app. apply NoDup_app. split; [done|].
      split; [|apply NoDup_singleton]. intros y Hy Hy'. apply list_elem_of_singleton in Hy' as ->. cbn in Hy.
      apply list_elem_of_fmap in Hy as (z & Ez & Hz). apply list_elem_of_In in Hz.
      unfold secret_of in Hs. destruct (find _ cs) as [w|] eqn:Ew; [done|].
      apply (find_none _ _ Ew) in Hz. rewrite <- Ez in Hz. unfold strcmp_eq in Hz. by rewrite list_eqb_refl in Hz.
    + intros n. rewrite secret_of_app. cbn [e ch_name ch_secret]. destruct (strcmp_eq name n) eqn:E.
      * apply list_eqb_eq in E. subst n. by rewrite Hs.
      * by destruct (secret_of cs n).
    + rewrite Hs, length_app. cbn. lia.
Qed.

Lemma channelset_upsert_witness :
  match add_channel_locked pad_hash [] (str "#test") (replicate 16 7) with
  | Some (cs', _) => secret_of cs' (str "#test") = Some (replicate 16 7)
  | None => False
  end.
Proof.
  pose proof (channelset_upsert pad_hash [] (str "#test") (replicate 16 7)) as H.
  destruct (add_channel_locked pad_hash [] (str "#test") (replicate 16 7)) as [[cs' e]|].
  - destruct H as (_ & _ & H & _); [split; [vm_compute; lia|constructor]|vm_compute; lia|].
    rewrite H. reflexivity.
  - destruct H as [_ H]; [split; [vm_compute; lia|constructor]|vm_compute; lia|discriminate H].
Defined.

(** ** Lookup order *)

Lemma indices_where_spec p i cs :
  Forall (fun j => exists e, (i <= j)%nat /\ cs !! (j - i)%nat = Some e /\ p e = true) (indices_where p i cs).
Proof.
  revert i. induction cs as [|e cs IH]; intros i; [apply Forall_nil_2|]. cbn [indices_where].
  assert (H : Forall (fun j => exists x, (i <= j)%nat /\ (e :: cs) !! (j - i)%nat = Some x /\ p x = true)
                (indices_where p (S i) cs)).
  { eapply Forall_impl; [apply (IH (S i))|]. intros j (x & Hj & Hx & Hp). exists x. split; [lia|]. split; [|done].
    replace (j - i)%nat with (S (j - S i)) by lia. done. }
  destruct (p e) eqn:E; [|done]. apply Forall_cons_2; [|done]. exists e. split; [lia|].
  by rewrite Nat.sub_diag.
Qed.

Lemma indices_where_perm p i cs :
  Permutation (indices_where p i cs ++ indices_where (fun e => negb (p e)) i cs) (seq i (length cs)).
Proof.
  revert i. induction cs as [|e cs IH]; intros i; [done|]. cbn [indices_where length seq].
  destruct (p e); cbn [negb app].
  - by constructor.
  - rewrite <- Permutation_middle. by constructor.
Qed.

Lemma lookup_permutation cs h :
  (length cs <= MC_CHANNEL_MAX_ENTRIES)%nat ->
  Permutation (meshcore_channelset_lookup cs h MC_CHANNEL_MAX_ENTRIES) (seq 0 (length cs)).
Proof.
  intros Hl. unfold meshcore_channelset_lookup.
  pose proof (indices_where_perm (fun e => ch_hash e =? h) 0 cs) as Hp.
  by rewrite take_ge by (apply Permutation_length in Hp; rewrite Hp, length_seq; done).
Qed.

(** Every configured channel is tried, the likely ones first.  The lookup
    returns each index of the table exactly once, and every index whose
    channel hash is the packet's comes before every index whose hash is
    not. *)
Theorem channel_lookup_order cs h :
  (length cs <= MC_CHANNEL_MAX_ENTRIES)%nat ->
  Permutation (meshcore_channelset_lookup cs h MC_CHANNEL_MAX_ENTRIES) (seq 0 (length cs)) /\
  exists exact others, meshcore_channelset_lookup cs h MC_CHANNEL_MAX_ENTRIES = exact ++ others /\
    Forall (fun i => exists e, cs !! i = Some e /\ ch_hash e = h) exact /\
    Forall (fun i => exists e, cs !! i = Some e /\ ch_hash e <> h) others.
Proof.
  intros Hl. split; [by apply lookup_permutation|]. unfold meshcore_channelset_lookup.
  pose proof (indices_where_perm (fun e => ch_hash e =? h) 0 cs) as Hp.
  rewrite take_ge by (apply Permutation_length in Hp; rewrite Hp, length_seq; done).
  eexists _, _. split; [reflexivity|].
  split; (eapply Forall_impl; [apply indices_where_spec|]); intros j (e & _ & He & Hh);
    rewrite Nat.sub_0_r in He; exists e; (split; [done|]); zb; done.
Qed.

Lemma channel_lookup_order_witness :
  Permutation (meshcore_channelset_lookup [mk_channel [1] [] 5; mk_channel [2] [] 9] 9 MC_CHANNEL_MAX_ENTRIES)
    (seq 0 2).
Proof. apply (channel_lookup_order [mk_channel [1] [] 5; mk_channel [2] [] 9] 9). vm_compute. lia. Defined.

(** ** Framing *)

(** A frame as a transmitter builds it. *)
Definition packet_ok (p : meshcore_packet) : Prop :=
  0 <= pk_route_type p < 4 /\ 0 <= pk_payload_type p < 16 /\ 0 <= pk_payload_ver p < 4 /\
  pk_has_transport_codes p = mc_route_has_transport_codes (pk_route_type p) /\
  0 <= pk_transport_code1 p < 65536 /\ 0 <= pk_transport_code2 p < 65536 /\
  (pk_has_transport_codes p = false -> pk_transport_code1 p = 0 /\ pk_transport_code2 p = 0) /\
  0 <= pk_path_hash_count p < 64 /\ 1 <= pk_path_hash_size p <= 3 /\
  Z.of_nat (length (pk_path p)) = pk_path_hash_count p * pk_path_hash_size p /\
  (length (pk_path p) <= 64)%nat /\ (length (pk_payload p) <= 184)%nat.

Definition enc_packet (p : meshcore_packet) : list Z :=
  [pk_route_type p + 4 * pk_payload_type p + 64 * pk_payload_ver p] ++
  (if pk_has_transport_codes p
   then enc_fixed 2 (pk_transport_code1 p) ++ enc_fixed 2 (pk_transport_code2 p) else []) ++
  [pk_path_hash_count p + 64 * (pk_path_hash_size p - 1)] ++ pk_path p ++ pk_payload p.

Lemma land_low a b k : 0 <= k -> 0 <= a < 2 ^ k -> Z.land (a + 2 ^ k * b) (2 ^ k - 1) = a.
Proof.
  intros Hk Ha. replace (2 ^ k - 1) with (Z.ones k) by (rewrite Z.ones_equiv; lia).
  rewrite Z.land_ones by done. rewrite Z.mul_comm, Z.mod_add by lia. by apply Z.mod_small.
Qed.

Lemma shiftr_land a m k : 0 <= k -> Z.shiftr (Z.land a m) k = Z.land (Z.shiftr a k) (Z.shiftr m k).
Proof. intros. by rewrite Z.shiftr_land. Qed.

Lemma shiftr_high a b k : 0 <= k -> 0 <= a < 2 ^ k -> Z.shiftr (a + 2 ^ k * b) k = b.
Proof.
  intros Hk Ha. rewrite Z.shiftr_div_pow2, (Z.mul_comm (2 ^ k)), Z.div_add by lia.
  rewrite Z.div_small by done. lia.
Qed.

Lemma packet_header_fields r t v :
  0 <= r < 4 -> 0 <= t < 16 -> 0 <= v < 4 ->
  Z.land (r + 4 * t + 64 * v) 3 = r /\ Z.shiftr (Z.land (r + 4 * t + 64 * v) 0x3C) 2 = t /\
  Z.shiftr (Z.land (r + 4 * t + 64 * v) 0xC0) 6 = v.
Proof.
  intros Hr Ht Hv. rewrite !shiftr_land by lia.
  change (Z.shiftr 0x3C 2) with (2 ^ 4 - 1). change (Z.shiftr 0xC0 6) with (2 ^ 2 - 1).
  split; [|split].
  - replace (r + 4 * t + 64 * v) with (r + 2 ^ 2 * (t + 16 * v)) by lia. by apply (land_low r _ 2).
  - replace (r + 4 * t + 64 * v) with (r + 2 ^ 2 * (t + 16 * v)) by lia. rewrite shiftr_high by lia.
    by apply (land_low t v 4).
  - replace (r + 4 * t + 64 * v) with ((r + 4 * t) + 2 ^ 6 * v) by lia. rewrite shiftr_high by lia.
    replace v with (v + 2 ^ 2 * 0) at 1 by lia. by apply (land_low v 0 2).
Qed.

Lemma path_len_fields c s :
  0 <= c < 64 -> 1 <= s <= 3 ->
  Z.land (c + 64 * (s - 1)) 0x3F = c /\ Z.shiftr (Z.land (c + 64 * (s - 1)) 0xC0) 6 + 1 = s.
Proof.
  intros Hc Hs. rewrite shiftr_land by lia. change (Z.shiftr 0xC0 6) with (2 ^ 2 - 1). split.
  - by apply (land_low c _ 6).
  - change 64 with (2 ^ 6). rewrite shiftr_high by lia.
    replace (s - 1) with (s - 1 + 2 ^ 2 * 0) at 1 by lia. rewrite (land_low (s - 1) 0 2) by lia. lia.
Qed.

Lemma rd_le16_enc v rest : 0 <= v < 65536 -> rd_le16 (enc_fixed 2 v ++ rest) = v.
Proof.
  intros Hv. rewrite <- (le_combine_enc 2 v) at 2 by (cbn; lia). unfold rd_le16.
  cbn [enc_fixed seq map app le_combine at_ nth]. by rewrite Z.shiftl_0_l, Z.lor_0_r.
Qed.

Lemma parse_transport_enc has c1 c2 rest :
  0 <= c1 < 65536 -> 0 <= c2 < 65536 -> (has = false -> c1 = 0 /\ c2 = 0) ->
  parse_transport has ((if has then enc_fixed 2 c1 ++ enc_fixed 2 c2 else []) ++ rest) = Some (c1, c2, rest).
Proof.
  intros H1 H2 H0. destruct has; cbn [parse_transport].
  - rewrite <- app_assoc. replace (_ <? 4)%nat with false.
    2: { symmetry. apply Nat.ltb_ge. rewrite !length_app, !enc_fixed_length. lia. }
    rewrite rd_le16_enc by done. change (drop 2 (enc_fixed 2 c1 ++ enc_fixed 2 c2 ++ rest)) with (enc_fixed 2 c2 ++ rest).
    rewrite rd_le16_enc by done. done.
  - destruct (H0 eq_refl) as [-> ->]. done.
Qed.

Lemma parse_enc_packet p : packet_ok p -> meshcore_packet_parse (enc_packet p) = Some p.
Proof.
  intros (Hr & Ht & Hv & Hc & H1 & H2 & H0 & Hn & Hs & Hl & Hp & Hq).
  destruct (packet_header_fields _ _ _ Hr Ht Hv) as (E1 & E2 & E3). destruct (path_len_fields _ _ Hn Hs) as [E4 E5].
  unfold meshcore_packet_parse, enc_packet.
  destruct (Nat.ltb_spec (length ([pk_route_type p + 4 * pk_payload_type p + 64 * pk_payload_ver p] ++
    (if pk_has_transport_codes p then enc_fixed 2 (pk_transport_code1 p) ++ enc_fixed 2 (pk_transport_code2 p) else []) ++
    [pk_path_hash_count p + 64 * (pk_path_hash_size p - 1)] ++ pk_path p ++ pk_payload p)) 2) as [Hlt|_].
  { rewrite !length_app in Hlt. cbn [length] in Hlt. lia. }
  change (drop 1 ([?x] ++ ?l)) with l. cbn [app at_ nth drop].
  unfold MC_HEADER_ROUTE_TYPE_MASK, MC_HEADER_PAYLOAD_TYPE_MASK, MC_HEADER_PAYLOAD_TYPE_SHIFT,
    MC_HEADER_PAYLOAD_VER_MASK, MC_HEADER_PAYLOAD_VER_SHIFT.
  rewrite E1, E2, E3, <- Hc, parse_transport_enc by done. rewrite E4, E5.
  destruct (Z.ltb_spec (pk_path_hash_size p) 1); [lia|]. destruct (Z.ltb_spec 3 (pk_path_hash_size p)); [lia|].
  cbn [orb]. assert (Hpl : (Z.to_nat (pk_path_hash_count p) * Z.to_nat (pk_path_hash_size p))%nat = length (pk_path p)) by nia.
  rewrite Hpl. unfold MC_MAX_PATH_SIZE, MC_MAX_PACKET_PAYLOAD.
  destruct (Nat.ltb_spec 64 (length (pk_path p))); [lia|].
  destruct (Nat.ltb_spec (length (pk_path p ++ pk_payload p)) (length (pk_path p))) as [Hlt|_].
  { rewrite length_app in Hlt. lia. }
  rewrite take_app_length, drop_app_length, take_ge by done. by destruct p.
Qed.

Lemma parse_bounds raw p :
  meshcore_packet_parse raw = Some p ->
  (length (pk_path p) <= 64)%nat /\ (length (pk_payload p) <= 184)%nat /\ 1 <= pk_path_hash_size p <= 3 /\
  length (pk_path p) = (Z.to_nat (pk_path_hash_count p) * Z.to_nat (pk_path_hash_size p))%nat.
Proof.
  unfold meshcore_packet_parse. destruct (length raw <? 2)%nat; [done|].
  destruct (parse_transport _ _) as [[[c1 c2] [|b q]]|]; [done| |done].
  destruct (_ || _) eqn:Es; [done|]. zb.
  destruct (Nat.ltb_spec MC_MAX_PATH_SIZE (Z.to_nat (Z.land b 0x3F) * Z.to_nat (Z.shiftr (Z.land b 0xC0) 6 + 1))) as [|Hp]; [done|].
  destruct (Nat.ltb_spec (length q) (Z.to_nat (Z.land b 0x3F) * Z.to_nat (Z.shiftr (Z.land b 0xC0) 6 + 1))) as [|Hq]; [done|].
  intros E. apply (inj Some) in E as <-. cbn [pk_path pk_payload pk_path_hash_size pk_path_hash_count].
  unfold MC_MAX_PATH_SIZE, MC_MAX_PACKET_PAYLOAD in *. rewrite !length_take. repeat split; lia.
Qed.

(** Framing round trip and bounds.  Every well-formed packet survives the
    wire: parsing the frame a transmitter builds yields the packet.  And
    whatever the frame, a packet that parses has at most 64 path bytes,
    exactly hop count times hash size of them, and at most 184 payload
    bytes. *)
Theorem packet_parse_correct :
  (forall p, packet_ok p -> meshcore_packet_parse (enc_packet p) = Some p) /\
  (forall raw p, meshcore_packet_parse raw = Some p ->
     (length (pk_path p) <= 64)%nat /\ (length (pk_payload p) <= 184)%nat /\ 1 <= pk_path_hash_size p <= 3 /\
     length (pk_path p) = (Z.to_nat (pk_path_hash_count p) * Z.to_nat (pk_path_hash_size p))%nat).
Proof. split; [exact parse_enc_packet|exact parse_bounds]. Qed.

Lemma packet_parse_correct_witness :
  meshcore_packet_parse (enc_packet (mk_packet 0 5 1 true 0x1234 0xfffe [1; 2; 3; 4] 2 2 [9; 8; 7])) =
  Some (mk_packet 0 5 1 true 0x1234 0xfffe [1; 2; 3; 4] 2 2 [9; 8; 7]).
Proof. apply (proj1 packet_parse_correct). repeat split; cbn; try lia; discriminate. Defined.
