(* ===== verification/MeshCoreTrust.v ===== *)
(** The end-to-end properties of the MeshCore decoder: what a trusted two-bit
    CRC correction guarantees, and the round trip of a channel text message. *)

From Stdlib Require Import String.
From S2P Require Import Prelude Protobuf CString CFloat MeshEvent Keyset MeshCore.
From S2P Require Import MeshCoreLpp MeshCoreRegion MeshPacketFacts MeshCoreDecoders MeshCoreFacts.

Local Open Scope Z_scope.

(** The MAC of a channel payload verifies under some configured channel. *)
Definition mac_valid hmac (cs : channelset) (payload : list Z) : Prop :=
  exists ch tag, In ch cs /\
    hmac (ch_secret ch ++ replicate (MC_PUB_KEY_SIZE - length (ch_secret ch)) 0) (drop 3 payload) = Some tag /\
    (2 <= length tag)%nat /\ take 2 tag = take 2 (drop 1 payload).

(** The signature of an advert verifies over key, timestamp and app data. *)
Definition advert_signed (verify : list Z -> list Z -> list Z -> bool) (payload : list Z) : Prop :=
  verify (take 32 payload) (take 64 (drop 36 payload)) (take 36 payload ++ drop 100 payload) = true.

(** ** The payload type is never rewritten *)

Lemma advert_app_type app ev :
  ev_mc_payload_type (advert_app_data app ev) = ev_mc_payload_type ev /\
  ev_is_meshcore (advert_app_data app ev) = ev_is_meshcore ev /\
  ev_mc_sig_valid (advert_app_data app ev) = ev_mc_sig_valid ev.
Proof.
  assert (H1 : forall f a st, let st' := advert_latlon f a st in
    ev_mc_payload_type (fst st') = ev_mc_payload_type (fst st) /\ ev_is_meshcore (fst st') = ev_is_meshcore (fst st) /\
    ev_mc_sig_valid (fst st') = ev_mc_sig_valid (fst st)).
  { intros f a [e i]. cbn zeta. unfold advert_latlon. repeat case_if; done. }
  assert (H2 : forall f a st, let st' := advert_feat1 f a st in
    ev_mc_payload_type (fst st') = ev_mc_payload_type (fst st) /\ ev_is_meshcore (fst st') = ev_is_meshcore (fst st) /\
    ev_mc_sig_valid (fst st') = ev_mc_sig_valid (fst st)).
  { intros f a [e i]. cbn zeta. unfold advert_feat1. repeat case_if; done. }
  assert (H3 : forall f a st, let st' := advert_feat2 f a st in
    ev_mc_payload_type (fst st') = ev_mc_payload_type (fst st) /\ ev_is_meshcore (fst st') = ev_is_meshcore (fst st) /\
    ev_mc_sig_valid (fst st') = ev_mc_sig_valid (fst st)).
  { intros f a [e i]. cbn zeta. unfold advert_feat2. repeat case_if; done. }
  assert (H4 : forall f a st,
    ev_mc_payload_type (advert_name f a st) = ev_mc_payload_type (fst st) /\
    ev_is_meshcore (advert_name f a st) = ev_is_meshcore (fst st) /\
    ev_mc_sig_valid (advert_name f a st) = ev_mc_sig_valid (fst st)).
  { intros f a [e i]. unfold advert_name. case_if; done. }
  destruct app as [|f app]; [done|]. cbn [advert_app_data].
  destruct (H4 f (f :: app) (advert_feat2 f (f :: app) (advert_feat1 f (f :: app)
    (advert_latlon f (f :: app) (ev {{ ev_mc_adv_type := Z.land f ADV_TYPE_MASK }}, 1%nat))))) as (-> & -> & ->).
  destruct (H3 f (f :: app) (advert_feat1 f (f :: app)
    (advert_latlon f (f :: app) (ev {{ ev_mc_adv_type := Z.land f ADV_TYPE_MASK }}, 1%nat)))) as (-> & -> & ->).
  destruct (H2 f (f :: app) (advert_latlon f (f :: app) (ev {{ ev_mc_adv_type := Z.land f ADV_TYPE_MASK }}, 1%nat)))
    as (-> & -> & ->).
  destruct (H1 f (f :: app) (ev {{ ev_mc_adv_type := Z.land f ADV_TYPE_MASK }}, 1%nat)) as (-> & -> & ->). done.
Qed.

Section Crypto.
Context (verify : list Z -> list Z -> list Z -> bool).
Context (hmac aes_dec : list Z -> list Z -> option (list Z)).

Lemma verify_and_decrypt_mac secret enc plain :
  meshcore_verify_and_decrypt hmac aes_dec secret enc = Some plain ->
  exists tag, hmac (secret ++ replicate (MC_PUB_KEY_SIZE - length secret) 0) (drop 2 enc) = Some tag /\
    (2 <= length tag)%nat /\ take 2 tag = take 2 enc.
Proof.
  unfold meshcore_verify_and_decrypt, MC_CIPHER_MAC_SIZE. case_if; [done|]. case_if; [done|].
  destruct (hmac _ _) as [tag|]; [|done]. destruct (Nat.ltb_spec (length tag) 2); [done|].
  destruct (list_eqb (take 2 tag) (take 2 enc)) eqn:Em; [|done]. intros _. exists tag. split; [done|].
  split; [done|]. by apply list_eqb_eq.
Qed.

Lemma grp_decrypt_mac pkt channels r :
  grp_decrypt hmac aes_dec pkt channels = Some r ->
  exists cs, channels = Some cs /\ mac_valid hmac cs (pk_payload pkt).
Proof.
  unfold grp_decrypt. case_if; [done|]. destruct channels as [cs|]; [|done]. intros H. exists cs. split; [done|].
  destruct (first_some_Some _ _ _ H) as (_ & i & _ & _ & _ & Hi).
  destruct (cs !! i) as [ch|] eqn:Ec; [|done].
  destruct (meshcore_verify_and_decrypt _ _ _ _) as [plain|] eqn:Ev; [|done].
  destruct (verify_and_decrypt_mac _ _ _ Ev) as (tag & H1 & H2 & H3).
  exists ch, tag. split; [by apply list_elem_of_In, (list_elem_of_lookup_2 _ i)|]. by rewrite drop_drop in H1.
Qed.

Lemma grp_txt_trust pkt channels ev ev' :
  meshcore_decode_grp_txt hmac aes_dec pkt channels ev = Some ev' ->
  ev_mc_payload_type ev' = ev_mc_payload_type ev /\
  (ev_decrypted ev' = true -> exists cs, channels = Some cs /\ mac_valid hmac cs (pk_payload pkt)).
Proof.
  unfold meshcore_decode_grp_txt. destruct (grp_decrypt hmac aes_dec pkt channels) as [[i plain]|] eqn:E.
  - case_if; [done|]. case_if; [done|]. intros H. apply (inj Some) in H as <-. split; [done|].
    intros _. by eapply grp_decrypt_mac.
  - intros H. apply (inj Some) in H as <-. split; [done|]. intros H. discriminate H.
Qed.

Lemma grp_data_trust pkt channels ev ev' :
  meshcore_decode_grp_data hmac aes_dec pkt channels ev = Some ev' ->
  ev_mc_payload_type ev' = ev_mc_payload_type ev /\
  (ev_decrypted ev' = true -> exists cs, channels = Some cs /\ mac_valid hmac cs (pk_payload pkt)).
Proof.
  unfold meshcore_decode_grp_data. destruct (grp_decrypt hmac aes_dec pkt channels) as [[i plain]|] eqn:E.
  - case_if; [done|]. intros H. apply (inj Some) in H as <-. split; [by destruct (meshcore_lpp_decode _ _)|].
    intros _. by eapply grp_decrypt_mac.
  - intros H. apply (inj Some) in H as <-. split; [done|]. intros H. discriminate H.
Qed.

Lemma le32_bytes_of p : bytes_ok p -> (4 <= length p)%nat -> le32_bytes (rd_le32 p) = take 4 p.
Proof.
  intros Hb Hl. destruct p as [|a [|b [|c [|d p]]]]; cbn [length] in Hl; try lia.
  unfold bytes_ok in Hb. rewrite !Forall_cons in Hb. destruct Hb as (Ha & Hb & Hc & Hd & _).
  rewrite rd_le32_combine. cbn [at_ nth take le_combine]. unfold le32_bytes, u8. rewrite Z.shiftl_0_l, Z.lor_0_r.
  unfold is_byte in *.
  assert (W : forall x y, 0 <= x < 256 -> wrap 8 (Z.lor x (Z.shiftl y 8)) = x).
  { intros x y Hx. apply Z.bits_inj'. intros i Hi. rewrite wrap_bits, Z.lor_spec, Z.shiftl_spec by lia.
    destruct (Z.ltb_spec i 8); cbn [andb]; [rewrite (Z.testbit_neg_r y) by lia; apply orb_false_r|].
    by rewrite (bits_above 8 x i). }
  assert (S : forall x y, 0 <= x < 256 -> Z.shiftr (Z.lor x (Z.shiftl y 8)) 8 = y).
  { intros x y Hx. apply Z.bits_inj'. intros i Hi. rewrite Z.shiftr_spec, Z.lor_spec, Z.shiftl_spec by lia.
    rewrite (bits_above 8 x) by lia. cbn [orb]. f_equal. lia. }
  repeat f_equal.
  - by apply W.
  - rewrite S by done. by apply W.
  - change 16 with (8 + 8). rewrite <- Z.shiftr_shiftr, S, S by lia. by apply W.
  - change 24 with (8 + 8 + 8). rewrite <- !Z.shiftr_shiftr, !S by lia. by apply wrap_small.
Qed.

Lemma advert_trust pkt ev ev' :
  bytes_ok (pk_payload pkt) ->
  meshcore_decode_advert verify pkt ev = Some ev' ->
  ev_mc_payload_type ev' = ev_mc_payload_type ev /\
  (ev_mc_sig_valid ev' = true -> advert_signed verify (pk_payload pkt)).
Proof.
  intros Hb. unfold meshcore_decode_advert, MC_PUB_KEY_SIZE, MC_SIGNATURE_SIZE.
  destruct (Nat.ltb_spec (length (pk_payload pkt)) (32 + 4 + 64)) as [|Hl]; [done|]. intros H.
  apply (inj Some) in H as <-. rcbn. 
  match goal with |- context [advert_app_data ?a ?e] => destruct (advert_app_type a e) as (E1 & _ & E2) end.
  split; [exact E1|]. intros Hs. rewrite E2 in Hs. revert Hs. rcbn. intros Hs.
  unfold meshcore_advert_verify_signature in Hs. destruct (_ <? _)%nat in Hs; [done|]. unfold advert_signed.
  rewrite le32_bytes_of in Hs by (auto with mesh; rewrite length_drop; lia).
  change (32 + 4)%nat with 36%nat in Hs. change (36 + 64)%nat with 100%nat in Hs.
  rewrite app_assoc in Hs. rewrite (take_take_drop (pk_payload pkt) 32 4) in Hs. exact Hs.
Qed.

(** The decoders of the remaining types. *)
Lemma envelope_type pkt ev n b ev' :
  decode_envelope_only pkt ev n b = Some ev' -> ev_mc_payload_type ev' = ev_mc_payload_type ev.
Proof. unfold decode_envelope_only. case_if; [done|]. intros H. apply (inj Some) in H as <-. by destruct b. Qed.

Lemma control_type pkt ev ev' : decode_control pkt ev = Some ev' -> ev_mc_payload_type ev' = ev_mc_payload_type ev.
Proof.
  unfold decode_control. case_if; [done|]. cbn zeta. destruct (_ && (6 <=? _)%nat).
  - intros H. apply (inj Some) in H as <-. by destruct (10 <=? _)%nat.
  - destruct (_ && _); intros H; by apply (inj Some) in H as <-.
Qed.

Lemma multipart_type pkt ev ev' : decode_multipart pkt ev = Some ev' -> ev_mc_payload_type ev' = ev_mc_payload_type ev.
Proof.
  unfold decode_multipart. case_if; [done|]. cbn zeta.
  destruct (_ && _); intros H; by apply (inj Some) in H as <-.
Qed.

Lemma dispatch_trust pkt channels ev ev' :
  bytes_ok (pk_payload pkt) -> ev_mc_payload_type ev = pk_payload_type pkt ->
  mc_dispatch verify hmac aes_dec pkt channels ev = Some ev' ->
  ev_mc_payload_type ev' = pk_payload_type pkt /\
  (mesh_event_crc2bit_trusted ev' = true ->
   ((pk_payload_type pkt = MC_PAYLOAD_GRP_TXT \/ pk_payload_type pkt = MC_PAYLOAD_GRP_DATA) /\
    exists cs, channels = Some cs /\ mac_valid hmac cs (pk_payload pkt)) \/
   (pk_payload_type pkt = MC_PAYLOAD_ADVERT /\ advert_signed verify (pk_payload pkt))).
Proof.
  intros Hb Ht. unfold mc_dispatch. rewrite <- Ht.
  assert (Hno : forall e, ev_mc_payload_type e = ev_mc_payload_type ev ->
    ev_mc_payload_type ev <> MC_PAYLOAD_GRP_TXT -> ev_mc_payload_type ev <> MC_PAYLOAD_GRP_DATA ->
    ev_mc_payload_type ev <> MC_PAYLOAD_ADVERT -> mesh_event_crc2bit_trusted e = false).
  { intros e He N1 N2 N3. unfold mesh_event_crc2bit_trusted. rewrite He.
    rewrite (proj2 (Z.eqb_neq _ _) N1), (proj2 (Z.eqb_neq _ _) N2), (proj2 (Z.eqb_neq _ _) N3).
    cbn [orb andb]. by destruct (negb _). }
  destruct (Z.eqb_spec (ev_mc_payload_type ev) MC_PAYLOAD_ADVERT) as [Ea|Na].
  { intros H. destruct (advert_trust _ _ _ Hb H) as [E1 E2]. split; [done|]. intros Htr. right. split; [done|].
    apply E2. unfold mesh_event_crc2bit_trusted in Htr. rewrite E1, Ea in Htr. cbn in Htr.
    by destruct (negb (ev_is_meshcore ev')), (ev_mc_sig_valid ev'). }
  destruct (Z.eqb_spec (ev_mc_payload_type ev) MC_PAYLOAD_TRACE) as [Er|Nr].
  { intros H. unfold meshcore_decode_trace in H. destruct (_ <? 9)%nat; [done|]. apply (inj Some) in H as <-.
    split; [done|]. rewrite Hno by (try done; rewrite Er; discriminate). done. }
  destruct (Z.eqb_spec (ev_mc_payload_type ev) MC_PAYLOAD_GRP_TXT) as [Eg|Ng].
  { intros H. destruct (grp_txt_trust _ _ _ _ H) as [E1 E2]. split; [done|]. intros Htr. left. split; [by left|].
    apply E2. unfold mesh_event_crc2bit_trusted in Htr. rewrite E1, Eg in Htr. cbn in Htr.
    by destruct (negb (ev_is_meshcore ev')), (ev_decrypted ev'). }
  destruct (Z.eqb_spec (ev_mc_payload_type ev) MC_PAYLOAD_GRP_DATA) as [Ed|Nd].
  { intros H. destruct (grp_data_trust _ _ _ _ H) as [E1 E2]. split; [done|]. intros Htr. left. split; [by right|].
    apply E2. unfold mesh_event_crc2bit_trusted in Htr. rewrite E1, Ed in Htr. cbn in Htr.
    by destruct (negb (ev_is_meshcore ev')), (ev_decrypted ev'). }
  assert (Hrest : forall e, ev_mc_payload_type e = ev_mc_payload_type ev -> Some e = Some ev' ->
    ev_mc_payload_type ev' = ev_mc_payload_type ev /\ (mesh_event_crc2bit_trusted ev' = true ->
     ((ev_mc_payload_type ev = MC_PAYLOAD_GRP_TXT \/ ev_mc_payload_type ev = MC_PAYLOAD_GRP_DATA) /\
      exists cs, channels = Some cs /\ mac_valid hmac cs (pk_payload pkt)) \/
     (ev_mc_payload_type ev = MC_PAYLOAD_ADVERT /\ advert_signed verify (pk_payload pkt)))).
  { intros e He Hs. apply (inj Some) in Hs as <-. split; [done|]. by rewrite Hno. }
  case_if; [unfold decode_ack; case_if; [done|]; by apply Hrest|].
  case_if; [destruct (decode_envelope_only _ _ _ _) as [e|] eqn:Ee; [|done]; apply Hrest; by eapply envelope_type|].
  case_if; [destruct (decode_envelope_only _ _ _ _) as [e|] eqn:Ee; [|done]; apply Hrest; by eapply envelope_type|].
  case_if; [destruct (decode_multipart _ _) as [e|] eqn:Ee; [|done]; apply Hrest; by eapply multipart_type|].
  case_if; [destruct (decode_control _ _) as [e|] eqn:Ee; [|done]; apply Hrest; by eapply control_type|].
  unfold decode_unknown. by apply Hrest.
Qed.
End Crypto.

Lemma parse_payload_bytes raw p : bytes_ok raw -> meshcore_packet_parse raw = Some p -> bytes_ok (pk_payload p).
Proof.
  intros Hb. unfold meshcore_packet_parse. destruct (length raw <? 2)%nat; [done|].
  assert (Hd : bytes_ok (drop 1 raw)) by auto with mesh.
  destruct (parse_transport _ _) as [[[c1 c2] [|b q]]|] eqn:E; [done| |done].
  assert (Hq : bytes_ok q).
  { unfold parse_transport in E. destruct (mc_route_has_transport_codes _).
    - destruct (_ <? 4)%nat; [done|]. injection E as _ _ E. apply (bytes_ok_drop 4) in Hd. rewrite E in Hd.
      by apply Forall_cons in Hd as [_ ?].
    - injection E as _ _ E. rewrite E in Hd. by apply Forall_cons in Hd as [_ ?]. }
  repeat (case_if; [done|]). intros H. apply (inj Some) in H as <-. cbn [pk_payload]. auto with mesh.
Qed.

(** What authenticates a frame independently of its CRC. *)
Definition authenticated verify hmac (channels : option channelset) (frame : list Z) : Prop :=
  exists pkt, meshcore_packet_parse frame = Some pkt /\
   (((pk_payload_type pkt = MC_PAYLOAD_GRP_TXT \/ pk_payload_type pkt = MC_PAYLOAD_GRP_DATA) /\
     exists cs, channels = Some cs /\ mac_valid hmac cs (pk_payload pkt)) \/
    (pk_payload_type pkt = MC_PAYLOAD_ADVERT /\ advert_signed verify (pk_payload pkt))).

Lemma trusted_authenticated verify hmac aes_dec frame rssi snr sf cr bw regions channels cb ev :
  bytes_ok frame ->
  In (McEvent ev) (snd (meshcore_packet_decode_with_radio verify hmac aes_dec frame rssi snr sf cr bw
                          regions channels cb)) ->
  mesh_event_crc2bit_trusted ev = true -> authenticated verify hmac channels frame.
Proof.
  intros Hb Hin Htr. unfold meshcore_packet_decode_with_radio in Hin.
  destruct (meshcore_packet_parse frame) as [pkt|] eqn:Ep; [|destruct Hin].
  exists pkt. split; [done|]. cbn zeta in Hin.
  match type of Hin with context [mc_dispatch _ _ _ _ _ ?e] => set (ev0 := e) in * end.
  assert (Ht : ev_mc_payload_type ev0 = pk_payload_type pkt)
    by (unfold ev0, mc_base_event; by destruct (pk_has_transport_codes pkt)).
  destruct (mc_dispatch verify hmac aes_dec pkt channels ev0) as [ev'|] eqn:Ed.
  - assert (ev' = ev) as ->.
    { cbn [snd] in Hin. apply in_app_or in Hin as [Hin|Hin].
      - destruct (pk_has_transport_codes pkt); [|destruct Hin]. destruct (meshcore_region_resolve_fast _ _ _ _ _ _); [destruct Hin|].
        destruct Hin as [Hin|[]]. discriminate Hin.
      - apply in_app_or in Hin as [Hin|Hin].
        + destruct cb; [|destruct Hin]. destruct Hin as [Hin|[]]. congruence.
        + destruct (_ && _); [|destruct Hin]. destruct Hin as [Hin|[]]. discriminate Hin. }
    by apply (dispatch_trust verify hmac aes_dec pkt channels ev0 ev (parse_payload_bytes _ _ Hb Ep) Ht Ed).
  - cbn [snd] in Hin. destruct (pk_has_transport_codes pkt); [|destruct Hin].
    destruct (meshcore_region_resolve_fast _ _ _ _ _ _); [destruct Hin|]. destruct Hin as [Hin|[]]. discriminate Hin.
Qed.

(** The trust gate is sound.  If the decoder emits, for any frame
    whatsoever, an event that passes mesh_event_crc2bit_trusted, then the
    frame is authenticated independently of the CRC: it is a channel message
    whose two MAC bytes equal the HMAC of its ciphertext under a configured
    channel's zero-padded secret, or an advert whose Ed25519 signature
    verifies over its key, timestamp and application data. *)
Theorem crc2bit_trust_sound verify hmac aes_dec frame rssi snr sf cr bw regions channels cb ev :
  bytes_ok frame ->
  In (McEvent ev) (snd (meshcore_packet_decode_with_radio verify hmac aes_dec frame rssi snr sf cr bw
                          regions channels cb)) ->
  mesh_event_crc2bit_trusted ev = true ->
  exists pkt, meshcore_packet_parse frame = Some pkt /\
   (((pk_payload_type pkt = MC_PAYLOAD_GRP_TXT \/ pk_payload_type pkt = MC_PAYLOAD_GRP_DATA) /\
     exists cs, channels = Some cs /\ mac_valid hmac cs (pk_payload pkt)) \/
    (pk_payload_type pkt = MC_PAYLOAD_ADVERT /\ advert_signed verify (pk_payload pkt))).
Proof. apply trusted_authenticated. Qed.

(** ** A channel text message, end to end *)

Section GrpText.
Context (hmac aes_dec : list Z -> list Z -> option (list Z)) (aes_enc : list Z -> list Z -> list Z).

(** AES-ECB decryption inverts encryption on whole blocks and keeps the
    length; HMAC-SHA256 yields 32 bytes. *)
Definition block_cipher : Prop := forall k m,
  length k = 16%nat -> (length m mod 16 = 0)%nat ->
  length (aes_enc k m) = length m /\ aes_dec k (aes_enc k m) = Some m.
Definition mac_total : Prop := forall k m, exists tag, hmac k m = Some tag /\ length tag = 32%nat.

(** What the transmitter computes: zero-padded plaintext, ciphertext, tag. *)
Definition pad16 (l : list Z) : list Z := l ++ replicate ((16 - length l mod 16) mod 16) 0.
Definition text_plain (ts txt_type : Z) (text : list Z) : list Z :=
  pad16 (enc_fixed 4 ts ++ txt_type :: text).
Definition channel_tag (ch : meshcore_channel) (cipher : list Z) : list Z :=
  match hmac (ch_secret ch ++ replicate (MC_PUB_KEY_SIZE - length (ch_secret ch)) 0) cipher with
  | Some tag => take 2 tag
  | None => []
  end.
Definition text_payload (ch : meshcore_channel) (ts txt_type : Z) (text : list Z) : list Z :=
  let cipher := aes_enc (take 16 (ch_secret ch)) (text_plain ts txt_type text) in
  ch_hash ch :: channel_tag ch cipher ++ cipher.

Lemma pad16_length l : exists n, length (pad16 l) = (16 * n)%nat /\ (length l <= 16 * n < length l + 16)%nat.
Proof.
  unfold pad16. rewrite length_app, length_replicate.
  pose proof (Nat.div_mod_eq (length l) 16). pose proof (Nat.mod_upper_bound (length l) 16 ltac:(lia)).
  destruct (Nat.eq_dec (length l mod 16)%nat 0%nat) as [E|E].
  - exists (length l / 16)%nat. rewrite E in *. change ((16 - 0) mod 16)%nat with 0%nat. lia.
  - exists (length l / 16 + 1)%nat. rewrite (Nat.mod_small (16 - _)) by lia. lia.
Qed.

Lemma until_nul_app text n : Forall (fun c => c <> 0) text -> until_nul (text ++ replicate n 0) = text.
Proof.
  induction 1 as [|c t Hc _ IH]; [by destruct n|]. cbn [app until_nul].
  by rewrite (proj2 (Z.eqb_neq c 0) Hc), IH.
Qed.

(** Verification under a secret, given its tag of the ciphertext. *)
Lemma verify_and_decrypt_ok ch pt n :
  block_cipher -> mac_total -> secret_len_ok (length (ch_secret ch)) = true ->
  length pt = (16 * S n)%nat -> (16 * S n <= 200)%nat ->
  let cipher := aes_enc (take 16 (ch_secret ch)) pt in
  meshcore_verify_and_decrypt hmac aes_dec (ch_secret ch) (channel_tag ch cipher ++ cipher) = Some pt /\
  length (channel_tag ch cipher) = 2%nat /\ length cipher = length pt.
Proof.
  intros Hc Hm Hs Hl Hn cipher.
  assert (Hk : length (take 16 (ch_secret ch)) = 16%nat).
  { unfold secret_len_ok in Hs. rewrite length_take. apply orb_true_iff in Hs as [Hs|Hs]; zb; lia. }
  destruct (Hc (take 16 (ch_secret ch)) pt Hk) as [H1 H2].
  { rewrite Hl, Nat.mul_comm. apply Nat.Div0.mod_mul. }
  fold cipher in H1, H2.
  unfold meshcore_verify_and_decrypt, channel_tag, MC_CIPHER_MAC_SIZE. rewrite Hs. cbn [negb].
  destruct (Hm (ch_secret ch ++ replicate (MC_PUB_KEY_SIZE - length (ch_secret ch)) 0) cipher) as (tag & Ht & Hlt).
  rewrite Ht. assert (H2t : length (take 2 tag) = 2%nat) by (rewrite length_take; lia).
  split; [|done]. rewrite length_app, H2t.
  rewrite drop_app_ge, take_app_le by lia. rewrite H2t, (take_ge (take 2 tag)), Nat.sub_diag, drop_0 by lia.
  change (2 + length cipher <? 2)%nat with false.
  rewrite Ht, Hlt, list_eqb_refl. change (32 <? 2)%nat with false. cbn [negb].
  destruct (Nat.eqb_spec (length cipher) 0); [lia|].
  unfold MC_CIPHER_BLOCK_SIZE, MC_MAX_PACKET_PAYLOAD.
  replace ((length cipher + 16 - 1) / 16)%nat with (S n).
  2: { apply (Nat.div_unique _ 16 (S n) 15); lia. }
  destruct (Nat.ltb_spec (184 + 16) (S n * 16)); [lia|].
  replace (S n * 16 - length cipher)%nat with 0%nat by lia. cbn [replicate]. rewrite app_nil_r, H2.
  by rewrite take_ge by lia.
Qed.

(** No other configured channel verifies the same two tag bytes. *)
Definition tag_unique (cs : channelset) (i : nat) (ch : meshcore_channel) (cipher : list Z) : Prop :=
  forall j e, cs !! j = Some e -> j <> i -> channel_tag e cipher <> channel_tag ch cipher.

Lemma foreign_channel_rejects e tag cipher :
  length tag = 2%nat -> channel_tag e cipher <> tag ->
  meshcore_verify_and_decrypt hmac aes_dec (ch_secret e) (tag ++ cipher) = None.
Proof.
  intros Ht Hne. unfold meshcore_verify_and_decrypt, channel_tag, MC_CIPHER_MAC_SIZE in *.
  case_if; [done|]. case_if; [done|]. rewrite drop_app_ge, take_app_le by lia.
  rewrite Ht, (take_ge tag), Nat.sub_diag, drop_0 by lia.
  destruct (hmac _ cipher) as [full|]; [|done]. destruct (length full <? 2)%nat; [done|].
  destruct (list_eqb (take 2 full) tag) eqn:Eq; [|done]. by apply list_eqb_eq in Eq.
Qed.

Lemma grp_decrypt_finds cs i ch pkt pt n :
  block_cipher -> mac_total -> (length cs <= MC_CHANNEL_MAX_ENTRIES)%nat -> cs !! i = Some ch ->
  secret_len_ok (length (ch_secret ch)) = true ->
  length pt = (16 * S n)%nat -> (16 * S n <= 200)%nat ->
  let cipher := aes_enc (take 16 (ch_secret ch)) pt in
  tag_unique cs i ch cipher -> pk_payload pkt = ch_hash ch :: channel_tag ch cipher ++ cipher ->
  grp_decrypt hmac aes_dec pkt (Some cs) = Some (i, pt).
Proof.
  intros Hc Hm Hl Hi Hs Hlp Hn cipher Hu Hp.
  destruct (verify_and_decrypt_ok ch pt n Hc Hm Hs Hlp Hn) as (Hv & Ht & _). fold cipher in Hv, Ht.
  unfold grp_decrypt, MC_CIPHER_MAC_SIZE. rewrite Hp. cbn [length at_ nth drop].
  destruct (Nat.ltb_spec (S (length (channel_tag ch cipher ++ cipher))) (1 + 2)) as [Hlt|_].
  { rewrite length_app in Hlt. lia. }
  pose proof (lookup_permutation cs (ch_hash ch) Hl) as Hperm.
  assert (Hin : In i (meshcore_channelset_lookup cs (ch_hash ch) MC_CHANNEL_MAX_ENTRIES)).
  { apply (Permutation_in _ (Permutation_sym Hperm)), in_seq. apply lookup_lt_Some in Hi. lia. }
  assert (Hnd : List.NoDup (meshcore_channelset_lookup cs (ch_hash ch) MC_CHANNEL_MAX_ENTRIES)).
  { apply (Permutation_NoDup (Permutation_sym Hperm)), seq_NoDup. }
  apply in_split in Hin as (pre & post & E). rewrite E in *.
  apply first_some_app; [|cbv beta; by rewrite Hi, drop_0, Hv].
  apply List.Forall_forall. intros j Hj. destruct (cs !! j) as [e|] eqn:Ee; [|done].
  rewrite drop_0, foreign_channel_rejects; [done|done|]. apply (Hu j e Ee). intros ->.
  apply NoDup_remove_2 in Hnd. apply Hnd, in_or_app. by left.
Qed.

Lemma text_plain_fields ts tt text :
  0 <= ts < 2 ^ 32 -> Forall (fun c => c <> 0) text -> (length text <= 160)%nat ->
  let pt := text_plain ts tt text in
  rd_le32 pt = ts /\ at_ pt 4 = tt /\ copy_printable (drop 5 pt) 256 = text /\
  exists n, length pt = (16 * S n)%nat /\ (16 * S n <= 176)%nat.
Proof.
  intros Hts Hz Hl pt. subst pt. unfold text_plain. 
  destruct (pad16_length (enc_fixed 4 ts ++ tt :: text)) as (n & H1 & H2).
  rewrite length_app in H2. cbn [length] in H2. rewrite enc_fixed_length in H2.
  split; [|split; [|split]].
  - unfold pad16. rewrite <- app_assoc. by apply rd_le32_enc.
  - reflexivity.
  - unfold pad16. rewrite <- app_assoc. change (drop 5 (enc_fixed 4 ts ++ ?l)) with (drop 1 l).
    cbn [app drop]. rewrite drop_0. unfold copy_printable. rewrite take_ge.
    + by apply until_nul_app.
    + rewrite length_app, length_replicate. pose proof (Nat.mod_upper_bound (16 - length (enc_fixed 4 ts ++ tt :: text) mod 16) 16). lia.
  - destruct n as [|n]; [lia|]. exists n. split; [done|lia].
Qed.

(** C9: a channel text message survives the radio path.  Take any table of at
    most 32 channels, any of its channels with a valid secret, any timestamp,
    text type below 4 and NUL-free text of up to 160 bytes.  If the
    transmitter pads, encrypts and tags the message under that channel, and no
    other channel of the table yields the same two tag bytes, then decoding
    the frame delivers exactly one event, decrypted, trusted, with that
    timestamp, type, text and channel, whatever route and path the frame has. *)
Theorem grp_txt_round_trip verify cs i ch ts tt text p rssi snr sf cr bw regions :
  block_cipher -> mac_total -> (length cs <= MC_CHANNEL_MAX_ENTRIES)%nat -> cs !! i = Some ch ->
  secret_len_ok (length (ch_secret ch)) = true ->
  0 <= ts < 2 ^ 32 -> 0 <= tt < 4 -> Forall (fun c => c <> 0) text -> (length text <= 160)%nat ->
  tag_unique cs i ch (aes_enc (take 16 (ch_secret ch)) (text_plain ts tt text)) ->
  packet_ok p -> pk_payload_type p = MC_PAYLOAD_GRP_TXT -> pk_payload p = text_payload ch ts tt text ->
  exists enq ev,
    meshcore_packet_decode_with_radio verify hmac aes_dec (enc_packet p) rssi snr sf cr bw regions (Some cs) true =
      (0, enq ++ [McEvent ev]) /\
    (forall e, ~ In (McEvent e) enq) /\
    ev_decrypted ev = true /\ mesh_event_crc2bit_trusted ev = true /\
    ev_mc_timestamp ev = ts /\ ev_mc_txt_type ev = tt /\ ev_mc_text ev = text /\
    ev_channel_name ev = copy_to 32 (ch_name ch) /\ ev_mc_channel_hash ev = ch_hash ch.
Proof.
  intros Hc Hm Hl Hi Hs Hts Htt Hz Hlt Hu Hp Hty Hpay.
  destruct (text_plain_fields ts tt text Hts Hz Hlt) as (F1 & F2 & F3 & n & F4 & F5).
  pose proof (grp_decrypt_finds cs i ch p _ n Hc Hm Hl Hi Hs F4 ltac:(lia) Hu Hpay) as Hg.
  unfold meshcore_packet_decode_with_radio. rewrite parse_enc_packet by done. cbn zeta.
  match goal with |- context [mc_dispatch _ _ _ _ _ ?e] => set (ev0 := e) end.
  assert (E0 : ev_is_meshcore ev0 = true /\ ev_mc_payload_type ev0 = MC_PAYLOAD_GRP_TXT)
    by (unfold ev0, mc_base_event; rewrite <- Hty; by destruct (pk_has_transport_codes p)).
  clearbody ev0. unfold mc_dispatch. rewrite Hty. cbn [Z.eqb MC_PAYLOAD_GRP_TXT MC_PAYLOAD_ADVERT MC_PAYLOAD_TRACE Pos.eqb].
  unfold meshcore_decode_grp_txt. rewrite Hg. destruct (Nat.ltb_spec (length (text_plain ts tt text)) 5); [lia|].
  rewrite F1, F2, F3. replace (nz (Z.shiftr tt 2)) with false.
  2: { rewrite Z.shiftr_div_pow2, Z.div_small by (cbn; lia). done. }
  cbn [channel_at]. rewrite (nth_lookup_Some _ _ _ _ Hi).
  eexists _, _. split; [reflexivity|]. split.
  { intros e He. destruct (pk_has_transport_codes p); [|done].
    destruct (meshcore_region_resolve_fast _ _ _ _ _ _); [done|]. destruct He as [He|[]]. discriminate He. }
  destruct E0 as [E0 E1]. unfold mesh_event_crc2bit_trusted. rcbn. rewrite E0, E1. done.
Qed.
End GrpText.

(** ** Witnesses *)

(** A keyed cipher and a keyed tag, enough to satisfy the laws. *)
Definition toy_cipher (k m : list Z) : list Z := map (Z.lxor (at_ k 0)) m.
Definition toy_tag (k m : list Z) : option (list Z) := Some (take 32 (k ++ replicate 32 0)).

Lemma toy_block_cipher : block_cipher (fun k m => Some (toy_cipher k m)) toy_cipher.
Proof.
  intros k m _ _. unfold toy_cipher. rewrite length_map, map_map. split; [done|]. f_equal.
  rewrite <- (map_id m) at 2. apply map_ext. intros x. apply lxor_cancel_l.
Qed.

Lemma toy_mac_total : mac_total toy_tag.
Proof. intros k m. eexists. split; [reflexivity|]. rewrite length_take, length_app, length_replicate. lia. Qed.

Definition toy_channels : channelset :=
  [mk_channel (str "Public") (replicate 16 9) 0x11; mk_channel (str "#test") (replicate 32 7) 0x42].

Definition toy_packet : meshcore_packet :=
  mk_packet 1 MC_PAYLOAD_GRP_TXT 0 false 0 0 [0xaa; 0xbb] 2 1
    (text_payload toy_tag toy_cipher (mk_channel (str "#test") (replicate 32 7) 0x42) 1700000000 0 (str "hi: there")).

Lemma grp_txt_round_trip_witness :
  exists enq ev,
    meshcore_packet_decode_with_radio (fun _ _ _ => false) toy_tag (fun k m => Some (toy_cipher k m))
      (enc_packet toy_packet) 0 0 8 1 62500 [] (Some toy_channels) true = (0, enq ++ [McEvent ev]) /\
    ev_mc_text ev = str "hi: there".
Proof.
  destruct (grp_txt_round_trip toy_tag (fun k m => Some (toy_cipher k m)) toy_cipher (fun _ _ _ => false)
    toy_channels 1 (mk_channel (str "#test") (replicate 32 7) 0x42) 1700000000 0 (str "hi: there") toy_packet
    0 0 8 1 62500 []) as (enq & ev & H & _ & _ & _ & _ & _ & Ht & _).
  - exact toy_block_cipher.
  - exact toy_mac_total.
  - vm_compute. lia.
  - reflexivity.
  - reflexivity.
  - lia.
  - lia.
  - by_decide.
  - vm_compute. lia.
  - intros [|[|j]] e; cbn [lookup list_lookup toy_channels]; intros He Hj; [|done|done].
    injection He as <-. vm_compute. discriminate.
  - repeat split; try (vm_compute; lia). all: vm_compute; try done; lia.
  - reflexivity.
  - reflexivity.
  - exists enq, ev. split; [exact H|exact Ht].
Defined.

Lemma crc2bit_trust_sound_witness :
  exists pkt, meshcore_packet_parse (enc_packet toy_packet) = Some pkt /\
   (((pk_payload_type pkt = MC_PAYLOAD_GRP_TXT \/ pk_payload_type pkt = MC_PAYLOAD_GRP_DATA) /\
     exists cs, Some toy_channels = Some cs /\ mac_valid toy_tag cs (pk_payload pkt)) \/
    (pk_payload_type pkt = MC_PAYLOAD_ADVERT /\ advert_signed (fun _ _ _ => false) (pk_payload pkt))).
Proof.
  apply (crc2bit_trust_sound (fun _ _ _ => false) toy_tag (fun k m => Some (toy_cipher k m)) (enc_packet toy_packet)
    0 0 8 1 62500 [] (Some toy_channels) true
    (match snd (meshcore_packet_decode_with_radio (fun _ _ _ => false) toy_tag (fun k m => Some (toy_cipher k m))
       (enc_packet toy_packet) 0 0 8 1 62500 [] (Some toy_channels) true) with
     | [McEvent ev] => ev
     | _ => event_zero
     end)).
  - by_decide.
  - vm_compute. by left.
  - vm_compute. reflexivity.
Defined.
