(* ===== verification/Dedup.v ===== *)
(** The replica deduplication ring (src/dedup.c, src/dedup.h): payload
    fingerprint, the three matching tiers, the tournament inside a cluster and
    the reverse suppression, and the sweep of the drainer (src/main.c).

    The mutex makes each call atomic; a history is a sequence of calls.  The
    clocks are arguments.  A float that is only copied or compared is its bit
    pattern. *)

From S2P Require Import Prelude CFloat LoraFrame LoraCodec LoraCrcFacts.

Local Open Scope Z_scope.

Definition DEDUP_RING_SIZE : nat := 512.
Definition DEDUP_WINDOW_US : Z := 30000.
Definition DEDUP_FP_HAMMING_THRESH : Z := 14.
Definition DEDUP_FP_HAMMING_THRESH_CRCFAIL : Z := 22.
Definition DEDUP_MAX_PAYLOAD : nat := 256.
Definition DEDUP_SLOT_ADJACENCY_US : Z := 500.
Definition DEDUP_SLOT_PROXIMITY : Z := 3.
Definition DEDUP_TIER3_WINDOW_US : Z := DEDUP_WINDOW_US.
Definition INT16_MIN : Z := -32768.
Definition INT16_MAX : Z := 32767.

(** ** Data *)

(** lora_frame_meta_t: the fields the decoder's state machine fills and the
    estimates of the numeric front end. *)
Record lora_frame_meta := mk_meta {
  lm_frame : frame_meta;
  lm_rssi_db : Z;
  lm_snr_db : Z;
  lm_cfo_hz : Z;
  lm_lock_sample_frac : Z;
  lm_lock_t_ns : Z;
}.

Record dedup_entry := mk_dedup_entry {
  de_in_use : bool;
  de_fp : Z;
  de_sf : Z;
  de_bw_hz : Z;
  de_emit_at_us : Z;
  de_first_seen_t_ns : Z;
  de_best_snr_db : Z;
  de_best_payload : list Z;       (* best_payload[0 .. best_payload_len) *)
  de_best_meta : lora_frame_meta;
  de_best_user : Z;
  de_replica_count : Z;
  de_min_slot_id : Z;
  de_max_slot_id : Z;
}.

(** The ring and the two tier-3 counters. *)
Record dedup := mk_dedup {
  dd_ring : list dedup_entry;
  dd_suppressed_near_pass : Z;
  dd_admitted_no_pass : Z;
}.

Definition meta_zero : lora_frame_meta :=
  mk_meta (mk_frame_meta 0 0 0 0 false false false false 0 0) 0 0 0 0 0.
Definition entry_zero : dedup_entry := mk_dedup_entry false 0 0 0 0 0 0 [] meta_zero 0 0 0 0.
Definition dedup_init : dedup := mk_dedup (replicate DEDUP_RING_SIZE entry_zero) 0 0.

(** The replica handed to [dedup_buffer]. *)
Record replica := mk_replica {
  rp_payload : list Z;
  rp_meta : option lora_frame_meta;
  rp_user : Z;
}.

Definition rp_sf (r : replica) : Z := match rp_meta r with Some m => fm_sf (lm_frame m) | None => 0 end.
Definition rp_bw (r : replica) : Z := match rp_meta r with Some m => fm_bw_hz (lm_frame m) | None => 0 end.
Definition rp_snr (r : replica) : Z := match rp_meta r with Some m => lm_snr_db m | None => 0 end.
Definition rp_good (r : replica) : bool :=
  match rp_meta r with Some m => fm_payload_crc_ok (lm_frame m) | None => false end.
Definition rp_crc_bad (r : replica) : bool :=
  match rp_meta r with Some m => fm_has_crc (lm_frame m) && negb (fm_payload_crc_ok (lm_frame m)) | None => false end.
Definition rp_slot_valid (r : replica) : bool := (0 <=? rp_user r) && (rp_user r <? INT16_MAX).
Definition rp_slot (r : replica) : Z := if rp_slot_valid r then i16 (rp_user r) else INT16_MIN.

Definition de_good (e : dedup_entry) : bool := fm_payload_crc_ok (lm_frame (de_best_meta e)).

(** ** Fingerprint *)

(** [(h << 1) | (h >> 63)] on 64 bits. *)
Definition rotl1 (h : Z) : Z := Z.lor (u64 (Z.shiftl h 1)) (Z.shiftr h 63).

(** The loop over whole 8-byte words and the tail word. *)
Fixpoint fp_loop (fuel : nat) (h : Z) (p : list Z) : Z :=
  match fuel with
  | O => h
  | S k =>
      if (8 <=? length p)%nat
      then fp_loop k (rotl1 (Z.lxor h (le_combine (take 8 p)))) (drop 8 p)
      else Z.lxor h (le_combine p)
  end.

(** One round per word and one for the tail. *)
Definition dedup_payload_fingerprint (p : list Z) : Z := fp_loop (S (length p)) 0 p.

(** [__builtin_popcountll] *)
Definition popcountll (z : Z) : Z :=
  Z.of_nat (length (List.filter (fun i => Z.testbit z (Z.of_nat i)) (seq 0 64))).

(** ** Matching *)

Definition same_radio (r : replica) (e : dedup_entry) : bool :=
  (de_sf e =? rp_sf r) && (de_bw_hz e =? rp_bw r).

(** The age test of tiers 2 and 3: the cluster opened at most [window] ago,
    and not in the future. *)
Definition opened_within (now_us window : Z) (e : dedup_entry) : bool :=
  let cluster_open_us := u64 (de_emit_at_us e - DEDUP_WINDOW_US) in
  negb (now_us <? cluster_open_us) && (u64 (now_us - cluster_open_us) <=? window).

Definition tier1 (r : replica) (fp : Z) (e : dedup_entry) : bool :=
  let thresh := if rp_crc_bad r then DEDUP_FP_HAMMING_THRESH_CRCFAIL else DEDUP_FP_HAMMING_THRESH in
  de_in_use e && same_radio r e && (popcountll (Z.lxor (de_fp e) fp) <=? thresh).

Definition tier2 (r : replica) (now_us : Z) (e : dedup_entry) : bool :=
  de_in_use e && same_radio r e && negb (de_min_slot_id e =? INT16_MIN) &&
  opened_within now_us DEDUP_SLOT_ADJACENCY_US e &&
  (de_min_slot_id e - rp_slot r <=? DEDUP_SLOT_PROXIMITY) &&
  (rp_slot r - de_max_slot_id e <=? DEDUP_SLOT_PROXIMITY).

Definition tier3 (r : replica) (now_us : Z) (e : dedup_entry) : bool :=
  de_in_use e && same_radio r e && de_good e && opened_within now_us DEDUP_TIER3_WINDOW_US e.

(** The clusters a good newcomer suppresses. *)
Definition tier3_reverse (r : replica) (now_us : Z) (e : dedup_entry) : bool :=
  de_in_use e && same_radio r e && negb (de_good e) && opened_within now_us DEDUP_TIER3_WINDOW_US e.

Fixpoint first_index (p : dedup_entry -> bool) (i : nat) (l : list dedup_entry) : option nat :=
  match l with
  | [] => None
  | e :: t => if p e then Some i else first_index p (S i) t
  end.

(** The cluster a replica folds into, and whether tier 3 chose it. *)
Definition find_match (ring : list dedup_entry) (r : replica) (fp now_us : Z) : option (nat * bool) :=
  match first_index (tier1 r fp) 0 ring with
  | Some i => Some (i, false)
  | None =>
      match (if rp_slot_valid r then first_index (tier2 r now_us) 0 ring else None) with
      | Some i => Some (i, false)
      | None =>
          match (if rp_crc_bad r then first_index (tier3 r now_us) 0 ring else None) with
          | Some i => Some (i, true)
          | None => None
          end
      end
  end.

(** ** Folding a replica into its cluster *)

(** [a > b] on floats: the patterns compare as sign and magnitude. *)
Definition f32_nan (p : Z) : bool := 0x7f800000 <? Z.land p 0x7fffffff.
Definition f32_key (p : Z) : Z :=
  let m := Z.land p 0x7fffffff in if Z.testbit p 31 then - m else m.
Definition f32_gtb (a b : Z) : bool :=
  negb (f32_nan a) && negb (f32_nan b) && (f32_key b <? f32_key a).

(** The tournament: does the newcomer replace the current best? *)
Definition replaces (r : replica) (e : dedup_entry) : bool :=
  if rp_good r && negb (de_good e) then true
  else if negb (rp_good r) && de_good e then false
  else f32_gtb (rp_snr r) (de_best_snr_db e).

Definition set_best (r : replica) (fp : Z) (e : dedup_entry) : dedup_entry :=
  e {{ de_best_snr_db := rp_snr r;
       de_best_payload := rp_payload r;
       de_best_meta := match rp_meta r with Some m => m | None => de_best_meta e end;
       de_best_user := rp_user r;
       de_fp := fp }}.

Definition widen_slots (r : replica) (e : dedup_entry) : dedup_entry :=
  if rp_slot_valid r then
    let e := if (de_min_slot_id e =? INT16_MIN) || (rp_slot r <? de_min_slot_id e)
             then e {{ de_min_slot_id := rp_slot r }} else e in
    if (de_max_slot_id e =? INT16_MIN) || (rp_slot r >? de_max_slot_id e)
    then e {{ de_max_slot_id := rp_slot r }} else e
  else e.

Definition fold_replica (r : replica) (fp : Z) (e : dedup_entry) : dedup_entry :=
  let e := e {{ de_replica_count := de_replica_count e + 1 }} in
  widen_slots r (if replaces r e then set_best r fp e else e).

(** ** Opening a cluster *)

Definition suppress (r : replica) (now_us : Z) (e : dedup_entry) : dedup_entry :=
  if tier3_reverse r now_us e then e {{ de_in_use := false }} else e.

Definition count_suppressed (r : replica) (now_us : Z) (ring : list dedup_entry) : Z :=
  Z.of_nat (length (List.filter (tier3_reverse r now_us) ring)).

(** The fields of a freshly opened entry; [old] is what the slot held. *)
Definition open_entry (r : replica) (fp now_us now_ns : Z) (old : dedup_entry) : dedup_entry :=
  {| de_in_use := true;
     de_fp := fp;
     de_sf := rp_sf r;
     de_bw_hz := rp_bw r;
     de_emit_at_us := u64 (now_us + DEDUP_WINDOW_US);
     de_first_seen_t_ns := now_ns;
     de_best_snr_db := rp_snr r;
     de_best_payload := rp_payload r;
     de_best_meta := match rp_meta r with Some m => m | None => de_best_meta old end;
     de_best_user := rp_user r;
     de_replica_count := 1;
     de_min_slot_id := rp_slot r;
     de_max_slot_id := rp_slot r |}.

(** ** dedup_buffer *)

Definition rp_accepted (r : replica) : bool :=
  (14 <=? length (rp_payload r))%nat && (length (rp_payload r) <=? DEDUP_MAX_PAYLOAD)%nat.

Definition dedup_buffer (d : dedup) (r : replica) (now_us now_ns : Z) : dedup :=
  if negb (rp_accepted r) then d
  else
    let fp := dedup_payload_fingerprint (rp_payload r) in
    match find_match (dd_ring d) r fp now_us with
    | Some (i, by_tier3) =>
        d {{ dd_ring := alter (fold_replica r fp) i (dd_ring d);
             dd_suppressed_near_pass := dd_suppressed_near_pass d + (if by_tier3 then 1 else 0) }}
    | None =>
        match first_index (fun e => negb (de_in_use e)) 0 (dd_ring d) with
        | None => d
        | Some free_slot =>
            let '(ring, n) :=
              if rp_crc_bad r then (dd_ring d, 0)
              else (map (suppress r now_us) (dd_ring d), count_suppressed r now_us (dd_ring d)) in
            d {{ dd_ring := alter (open_entry r fp now_us now_ns) free_slot ring;
                 dd_suppressed_near_pass := dd_suppressed_near_pass d + n;
                 dd_admitted_no_pass := dd_admitted_no_pass d + (if rp_crc_bad r then 1 else 0) }}
        end
    end.

Definition dedup_reset_for_test (d : dedup) : dedup :=
  d {{ dd_ring := replicate DEDUP_RING_SIZE entry_zero }}.

(** ** The drainer's sweep *)

Definition DEDUP_DRAIN_BATCH : nat := 64.

(** The locked loop of one tick: up to [room] entries that pass [ready] are
    copied out, in slot order, and freed. *)
Fixpoint sweep (ready : dedup_entry -> bool) (room : nat) (ring : list dedup_entry)
  : list dedup_entry * list dedup_entry :=
  match ring with
  | [] => ([], [])
  | e :: t =>
      match room with
      | O => ([], ring)
      | S k =>
          if de_in_use e && ready e then
            let '(batch, t) := sweep ready k t in (e :: batch, e {{ de_in_use := false }} :: t)
          else let '(batch, t) := sweep ready room t in (batch, e :: t)
      end
  end.

Definition drain_ready (now_us : Z) (e : dedup_entry) : bool := de_emit_at_us e <=? now_us.

Definition dedup_drain_tick (d : dedup) (now_us : Z) : list dedup_entry * dedup :=
  let '(batch, ring) := sweep (drain_ready now_us) DEDUP_DRAIN_BATCH (dd_ring d) in
  (batch, d {{ dd_ring := ring }}).

(** Entries emitted more than two windows late. *)
Definition is_straggler (now_us : Z) (e : dedup_entry) : bool :=
  u64 (de_emit_at_us e + 2 * DEDUP_WINDOW_US) <? now_us.

(** The final sweep of dedup_drainer_stop. *)
Definition dedup_drain_all (d : dedup) : list dedup_entry * dedup :=
  let '(batch, ring) := sweep (fun _ => true) DEDUP_RING_SIZE (dd_ring d) in
  (batch, d {{ dd_ring := ring }}).

(** Correctness of the deduplication ring: the fingerprint moves no further
    than the payload does, each cluster keeps the best of its replicas, no
    good frame is lost, and the drainer empties the ring. *)

(** ** Fingerprint distance *)

(** Number of set bits below position [n]. *)
Definition weight (n : nat) (z : Z) : nat :=
  length (List.filter (fun i => Z.testbit z (Z.of_nat i)) (seq 0 n)).

Lemma popcount_weight z : popcountll z = Z.of_nat (weight 64 z).
Proof. unfold popcountll, weight. reflexivity. Qed.

Lemma filter_length_or {A} (p q r : A -> bool) l :
  (forall x, In x l -> p x = true -> q x = true \/ r x = true) ->
  (length (List.filter p l) <= length (List.filter q l) + length (List.filter r l))%nat.
Proof.
  induction l as [|x l IH]; intros H; [done|]. cbn [List.filter].
  assert (IH' := IH (fun y Hy => H y (or_intror Hy))).
  destruct (p x) eqn:Ep; [|destruct (q x), (r x); cbn [length]; lia].
  destruct (H x (or_introl eq_refl) Ep) as [-> | ->]; [destruct (r x)|destruct (q x)]; cbn [length]; lia.
Qed.

Lemma weight_sub n z a b :
  (forall i, (i < n)%nat -> Z.testbit z (Z.of_nat i) = true ->
     Z.testbit a (Z.of_nat i) = true \/ Z.testbit b (Z.of_nat i) = true) ->
  (weight n z <= weight n a + weight n b)%nat.
Proof. intros H. apply filter_length_or. intros i Hi. apply in_seq in Hi. apply H. lia. Qed.

Lemma weight_lxor n a b : (weight n (Z.lxor a b) <= weight n a + weight n b)%nat.
Proof.
  apply weight_sub. intros i _. rewrite Z.lxor_spec. destruct (Z.testbit a _), (Z.testbit b _); auto.
Qed.

Lemma weight_S n z :
  weight (S n) z = ((if Z.testbit z (Z.of_nat n) then 1 else 0) + weight n z)%nat.
Proof.
  unfold weight. rewrite seq_S, List.filter_app, length_app. cbn [List.filter Nat.add].
  destruct (Z.testbit z (Z.of_nat n)); cbn [length]; lia.
Qed.

Lemma weight_step n z :
  weight (S n) z = ((if Z.testbit z 0 then 1 else 0) + weight n (Z.shiftr z 1))%nat.
Proof.
  induction n as [|n IH]; [rewrite weight_S; done|]. rewrite weight_S, IH, (weight_S n).
  rewrite Z.shiftr_spec by lia. replace (Z.of_nat n + 1) with (Z.of_nat (S n)) by lia.
  destruct (Z.testbit z (Z.of_nat (S n))), (Z.testbit z 0); lia.
Qed.

Lemma weight_ext n a b :
  (forall i, (i < n)%nat -> Z.testbit a (Z.of_nat i) = Z.testbit b (Z.of_nat i)) -> weight n a = weight n b.
Proof.
  intros H. induction n as [|n IH]; [done|]. rewrite !weight_S, H, IH by (auto with lia). done.
Qed.

Lemma weight_rotl1 h : 0 <= h < 2 ^ 64 -> weight 64 (rotl1 h) = weight 64 h.
Proof.
  intros Hh. rewrite (weight_step 63), (weight_S 63).
  assert (B : forall i, 0 <= i -> Z.testbit (rotl1 h) i =
    (if i =? 0 then Z.testbit h 63 else (i <? 64) && Z.testbit h (i - 1))).
  { intros i Hi. unfold rotl1, u64. rewrite Z.lor_spec, wrap_bits, Z.shiftl_spec, Z.shiftr_spec by lia.
    destruct (Z.eqb_spec i 0) as [->|].
    - rewrite (Z.testbit_neg_r h (0 - 1)) by lia. done.
    - rewrite (bits_above 64 h (i + 63)) by lia. by rewrite orb_false_r. }
  rewrite B by lia. cbn [Z.eqb]. change (Z.of_nat 63) with 63. f_equal.
  apply weight_ext. intros i Hi. rewrite Z.shiftr_spec, B by lia.
  destruct (Z.eqb_spec (Z.of_nat i + 1) 0); [lia|]. destruct (Z.ltb_spec (Z.of_nat i + 1) 64); [|lia].
  cbn [andb]. f_equal. lia.
Qed.

Lemma rotl1_range h : 0 <= h < 2 ^ 64 -> 0 <= rotl1 h < 2 ^ 64.
Proof.
  intros Hh. unfold rotl1. apply lor_range; [lia|apply wrap_range; lia|].
  rewrite Z.shiftr_div_pow2 by lia. split; [apply Z.div_pos; lia|]. apply Z.div_lt_upper_bound; lia.
Qed.

Lemma rotl1_lxor a b :
  0 <= a < 2 ^ 64 -> 0 <= b < 2 ^ 64 -> rotl1 (Z.lxor a b) = Z.lxor (rotl1 a) (rotl1 b).
Proof.
  intros Ha Hb. apply Z.bits_inj'. intros i Hi. unfold rotl1, u64.
  rewrite !Z.lxor_spec, !Z.lor_spec, !wrap_bits, !Z.shiftl_spec, !Z.shiftr_spec, !Z.lxor_spec by lia.
  destruct (Z.eq_dec i 0) as [->|].
  - rewrite (Z.testbit_neg_r a (0 - 1)), (Z.testbit_neg_r b (0 - 1)) by lia. done.
  - rewrite (bits_above 64 a (i + 63)), (bits_above 64 b (i + 63)) by lia.
    destruct (i <? 64), (Z.testbit a (i - 1)), (Z.testbit b (i - 1)); done.
Qed.

Lemma le_combine_range p n :
  bytes_ok p -> (length p <= n)%nat -> 0 <= le_combine p < 2 ^ (8 * Z.of_nat n).
Proof.
  revert n. induction p as [|b p IH]; intros n Hb Hl; cbn [le_combine].
  - split; [lia|]. apply Z.pow_pos_nonneg; lia.
  - destruct n as [|n]; cbn [length] in Hl; [lia|]. apply Forall_cons in Hb as [Hb Hp].
    specialize (IH n Hp ltac:(lia)). unfold is_byte in Hb.
    apply lor_range; [lia| |apply shiftl_range; [lia|]].
    + split; [lia|]. apply (Z.lt_le_trans _ (2 ^ 8)); [lia|]. apply Z.pow_le_mono_r; lia.
    + replace (8 * Z.of_nat (S n) - 8) with (8 * Z.of_nat n) by lia. done.
Qed.

Lemma shiftl_lxor a b k : 0 <= k -> Z.shiftl (Z.lxor a b) k = Z.lxor (Z.shiftl a k) (Z.shiftl b k).
Proof. intros. by rewrite Z.shiftl_lxor. Qed.

Lemma lor_shift8 b x : is_byte b -> Z.lor b (Z.shiftl x 8) = Z.lxor b (Z.shiftl x 8).
Proof.
  intros Hb. apply Z.bits_inj'. intros i Hi. rewrite Z.lor_spec, Z.lxor_spec, Z.shiftl_spec by lia.
  destruct (Z.lt_ge_cases i 8).
  - rewrite (Z.testbit_neg_r x) by lia. by destruct (Z.testbit b i).
  - rewrite (bits_above 8 b i) by (unfold is_byte in Hb; lia). by destruct (Z.testbit x _).
Qed.

Lemma le_combine_lxor a b :
  bytes_ok a -> bytes_ok b -> length a = length b ->
  le_combine (xor_list a b) = Z.lxor (le_combine a) (le_combine b).
Proof.
  revert b. induction a as [|x a IH]; intros [|y b] Ha Hb Hl; try done.
  apply Forall_cons in Ha as [Hx Ha]. apply Forall_cons in Hb as [Hy Hb]. cbn [length] in Hl.
  cbn [xor_list zip_with le_combine]. rewrite !lor_shift8 by auto using byte_lxor.
  change (zip_with Z.lxor a b) with (xor_list a b). rewrite IH, shiftl_lxor by (done || lia).
  apply lxor_swap_middle.
Qed.

(** The differing bits of two payloads, byte by byte. *)
Definition byte_weight (p : list Z) : nat := list_sum (map (weight 8) p).

Lemma weight_byte b : is_byte b -> weight 64 b = weight 8 b.
Proof.
  intros Hb. assert (H : forall k, weight (8 + k) b = weight 8 b).
  { induction k as [|k IH]; [done|]. rewrite Nat.add_succ_r, (weight_S (8 + k)), IH.
    by rewrite (bits_above 8 b) by (unfold is_byte in Hb; lia). }
  exact (H 56%nat).
Qed.

Lemma weight_shiftl8 x : (weight 64 (Z.shiftl x 8) <= weight 64 x)%nat.
Proof.
  assert (H : forall n k, weight (k + n) (Z.shiftl x (Z.of_nat k)) = weight n x).
  { intros n k. revert n. induction k as [|k IH]; intros n; [by rewrite Z.shiftl_0_r|].
    cbn [Nat.add]. rewrite weight_step. rewrite Z.shiftl_spec by lia.
    rewrite Z.testbit_neg_r by lia. rewrite Nat.add_0_l, <- (IH n). apply weight_ext. intros i _.
    rewrite Z.shiftr_spec, !Z.shiftl_spec by lia. f_equal. lia. }
  specialize (H 56%nat 8%nat). cbn [Nat.add] in H. change (Z.of_nat 8) with 8 in H. rewrite H.
  assert (M : forall k, (weight 56 x <= weight (56 + k) x)%nat).
  { induction k as [|k IH]; [done|]. rewrite Nat.add_succ_r, (weight_S (56 + k)). lia. }
  exact (M 8%nat).
Qed.

Lemma weight_le_combine p : bytes_ok p -> (weight 64 (le_combine p) <= byte_weight p)%nat.
Proof.
  induction 1 as [|b p Hb _ IH]; [done|]. cbn [le_combine byte_weight map list_sum foldr].
  rewrite lor_shift8 by done. etrans; [apply weight_lxor|]. rewrite (weight_byte b) by done.
  pose proof (weight_shiftl8 (le_combine p)). unfold byte_weight in IH. unfold list_sum in *. lia.
Qed.

Lemma byte_weight_split p : byte_weight p = (byte_weight (take 8 p) + byte_weight (drop 8 p))%nat.
Proof. rewrite <- (take_drop 8 p) at 1. unfold byte_weight. rewrite map_app. apply list_sum_app. Qed.

Lemma xor_list_drop n a b : xor_list (drop n a) (drop n b) = drop n (xor_list a b).
Proof. unfold xor_list. by rewrite zip_with_drop. Qed.

Lemma xor_list_bytes a b : bytes_ok a -> bytes_ok b -> bytes_ok (xor_list a b).
Proof.
  intros Ha. revert b. induction Ha as [|x a Hx Ha IH]; intros [|y b] Hb; try apply Forall_nil_2.
  apply Forall_cons in Hb as [Hy Hb]. apply Forall_cons_2; [by apply byte_lxor|by apply IH].
Qed.

Lemma word_range p : bytes_ok p -> 0 <= le_combine (take 8 p) < 2 ^ 64.
Proof. intros H. apply (le_combine_range _ 8); [auto with mesh|]. rewrite length_take. lia. Qed.

(** The loop is linear and expands no weight. *)
Lemma fp_loop_lin fuel : forall a b h g,
  bytes_ok a -> bytes_ok b -> length a = length b -> 0 <= h < 2 ^ 64 -> 0 <= g < 2 ^ 64 ->
  fp_loop fuel (Z.lxor h g) (xor_list a b) = Z.lxor (fp_loop fuel h a) (fp_loop fuel g b).
Proof.
  induction fuel as [|k IH]; intros a b h g Ha Hb Hl Hh Hg; [done|]. cbn [fp_loop].
  rewrite xor_list_length, <- Hl by done. destruct (Nat.leb_spec 8 (length a)).
  - rewrite <- xor_list_drop, xor_list_take, le_combine_lxor, lxor_swap_middle
      by (rewrite ?length_take; auto with mesh; lia).
    rewrite rotl1_lxor by (apply lxor_range; (done || lia || by apply word_range)).
    apply IH; auto with mesh; [rewrite !length_drop; lia| |];
      apply rotl1_range, lxor_range; (done || lia || by apply word_range).
  - rewrite le_combine_lxor by done. apply lxor_swap_middle.
Qed.

Lemma fp_loop_weight fuel : forall p h,
  bytes_ok p -> 0 <= h < 2 ^ 64 -> (weight 64 (fp_loop fuel h p) <= weight 64 h + byte_weight p)%nat.
Proof.
  induction fuel as [|k IH]; intros p h Hp Hh; cbn [fp_loop]; [lia|].
  destruct (Nat.leb_spec 8 (length p)).
  - assert (Hw : 0 <= Z.lxor h (le_combine (take 8 p)) < 2 ^ 64)
      by (apply lxor_range; (done || lia || by apply word_range)).
    etrans; [apply IH; [auto with mesh|by apply rotl1_range]|]. rewrite weight_rotl1 by done.
    rewrite (byte_weight_split p). pose proof (weight_lxor 64 h (le_combine (take 8 p))).
    pose proof (weight_le_combine (take 8 p) ltac:(auto with mesh)). lia.
  - etrans; [apply weight_lxor|]. pose proof (weight_le_combine p Hp). lia.
Qed.

(** The fingerprint never exaggerates damage.  For two payloads of the
    same length, the number of bits in which their 64-bit fingerprints differ
    is at most the number of bits in which the payloads differ; so a replica
    with at most 14 flipped bits is always within the matching threshold of a
    clean cluster. *)
Theorem fingerprint_distance a b :
  bytes_ok a -> bytes_ok b -> length a = length b ->
  popcountll (Z.lxor (dedup_payload_fingerprint a) (dedup_payload_fingerprint b)) <=
  Z.of_nat (byte_weight (xor_list a b)).
Proof.
  intros Ha Hb Hl. unfold dedup_payload_fingerprint. rewrite <- Hl.
  rewrite <- (fp_loop_lin (S (length a)) a b 0 0) by (done || lia). rewrite Z.lxor_0_l, popcount_weight.
  pose proof (fp_loop_weight (S (length a)) (xor_list a b) 0 (xor_list_bytes _ _ Ha Hb) ltac:(lia)) as H.
  change (weight 64 0) with 0%nat in H. lia.
Qed.

Lemma fingerprint_distance_witness :
  popcountll (Z.lxor (dedup_payload_fingerprint (map Z.of_nat (seq 0 20)))
                     (dedup_payload_fingerprint (flip_bit (map Z.of_nat (seq 0 20)) 77))) <= 1.
Proof.
  etrans; [apply (fingerprint_distance (map Z.of_nat (seq 0 20)) (flip_bit (map Z.of_nat (seq 0 20)) 77))|].
  - by_decide.
  - by_decide.
  - reflexivity.
  - vm_compute. discriminate.
Defined.

(** ** Clusters *)

(** The order of the tournament on replicas: a good one beats a CRC failure,
    otherwise the stronger one wins. *)
Definition beats (r w : replica) : bool :=
  if rp_good r && negb (rp_good w) then true
  else if negb (rp_good r) && rp_good w then false
  else f32_gtb (rp_snr r) (rp_snr w).

(** An entry summarises the replicas [g] folded into it: it holds one that no
    other beats, with its fingerprint, and all were received on its radio
    settings. *)
Definition summary (e : dedup_entry) (g : list replica) : Prop :=
  exists w, In w g /\ Forall (fun r => beats r w = false) g /\
    rp_meta w = Some (de_best_meta e) /\ de_best_payload e = rp_payload w /\
    de_best_snr_db e = rp_snr w /\ de_best_user e = rp_user w /\
    de_fp e = dedup_payload_fingerprint (rp_payload w) /\
    Forall (fun r => same_radio r e = true) g /\ de_replica_count e = Z.of_nat (length g).

Definition entry_rep (e : dedup_entry) (g : list replica) : Prop :=
  if de_in_use e then g <> [] /\ summary e g else g = [].

Abbreviation ring_rep := (Forall2 entry_rep).

Lemma f32_gtb_trans a b c : f32_gtb a b = true -> f32_gtb c b = false -> f32_gtb c a = false.
Proof.
  unfold f32_gtb. destruct (f32_nan a), (f32_nan b), (f32_nan c); cbn [negb andb]; try done.
  intros H1 H2. zb. apply Z.ltb_ge. lia.
Qed.

Lemma beats_trans r w x : beats r w = true -> beats x w = false -> beats x r = false.
Proof.
  unfold beats. destruct (rp_good r), (rp_good w), (rp_good x); cbn [negb andb]; try done; apply f32_gtb_trans.
Qed.

Lemma beats_irrefl r : beats r r = false.
Proof.
  unfold beats. destruct (rp_good r); cbn [negb andb]; unfold f32_gtb; rewrite Z.ltb_irrefl; apply andb_false_r.
Qed.

(** A cluster holding a good replica has a good winner. *)
Lemma summary_good e g r : summary e g -> In r g -> rp_good r = true -> de_good e = true.
Proof.
  intros (w & _ & Hb & Hm & _) Hr Hg. rewrite List.Forall_forall in Hb. specialize (Hb r Hr).
  unfold beats in Hb. rewrite Hg in Hb. unfold rp_good in Hb. rewrite Hm in Hb. cbn [andb] in Hb.
  unfold de_good. by destruct (fm_payload_crc_ok (lm_frame (de_best_meta e))).
Qed.

Lemma widen_keeps r e :
  let e' := widen_slots r e in
  de_in_use e' = de_in_use e /\ de_best_meta e' = de_best_meta e /\ de_best_payload e' = de_best_payload e /\
  de_best_snr_db e' = de_best_snr_db e /\ de_best_user e' = de_best_user e /\ de_fp e' = de_fp e /\
  de_sf e' = de_sf e /\ de_bw_hz e' = de_bw_hz e /\ de_replica_count e' = de_replica_count e.
Proof. cbn zeta. unfold widen_slots. repeat case_if; done. Qed.

Lemma same_radio_of r e e' : de_sf e' = de_sf e -> de_bw_hz e' = de_bw_hz e -> same_radio r e' = same_radio r e.
Proof. unfold same_radio. by intros -> ->. Qed.

Lemma fold_summary r m e g :
  rp_meta r = Some m -> same_radio r e = true -> summary e g ->
  summary (fold_replica r (dedup_payload_fingerprint (rp_payload r)) e) (g ++ [r]).
Proof.
  intros Hm Hr (w & Hw & Hb & Hwm & Hp & Hs & Hu & Hf & Hrad & Hc). unfold fold_replica.
  set (fp := dedup_payload_fingerprint (rp_payload r)).
  set (e1 := e {{ de_replica_count := de_replica_count e + 1 }}).
  assert (Erep : replaces r e1 = beats r w).
  { assert (Hwg : rp_good w = de_good e) by (unfold rp_good; by rewrite Hwm).
    unfold replaces, beats. change (de_good e1) with (de_good e). rewrite Hwg, <- Hs. done. }
  rewrite Erep. destruct (widen_keeps r (if beats r w then set_best r fp e1 else e1)) as (_ & E1 & E2 & E3 & E4 & E5 & E6 & E7 & E8).
  assert (R : forall x, same_radio x (widen_slots r (if beats r w then set_best r fp e1 else e1)) = same_radio x e).
  { intros x. apply same_radio_of; rewrite ?E6, ?E7; by destruct (beats r w). }
  unfold summary. rewrite E1, E2, E3, E4, E5, E8.
  exists (if beats r w then r else w). split_and!.
  - destruct (beats r w); apply in_or_app; [right; by left|by left].
  - apply Forall_app_2; [|apply Forall_cons_2; [|apply Forall_nil_2]].
    + destruct (beats r w) eqn:Eb; [|done]. eapply Forall_impl; [exact Hb|]. intros x Hx. by eapply beats_trans.
    + destruct (beats r w) eqn:Eb; [apply beats_irrefl|done].
  - destruct (beats r w); [|done]. unfold set_best. rcbn. by rewrite Hm.
  - by destruct (beats r w).
  - by destruct (beats r w).
  - by destruct (beats r w).
  - by destruct (beats r w).
  - apply Forall_app_2; [|apply Forall_cons_2; [by rewrite R|apply Forall_nil_2]].
    eapply Forall_impl; [exact Hrad|]. intros x Hx. by rewrite R.
  - rewrite length_app. cbn [length]. replace (de_replica_count (if beats r w then set_best r fp e1 else e1))
      with (de_replica_count e + 1) by (by destruct (beats r w)). lia.
Qed.

Lemma open_summary r m now ns old :
  rp_meta r = Some m ->
  entry_rep (open_entry r (dedup_payload_fingerprint (rp_payload r)) now ns old) [r].
Proof.
  intros Hm. unfold entry_rep, open_entry. cbn [de_in_use]. split; [done|]. exists r.
  cbn [de_best_meta de_best_payload de_best_snr_db de_best_user de_fp de_replica_count length]. rewrite Hm.
  split_and!; try done; [by left|apply Forall_cons_2; [apply beats_irrefl|apply Forall_nil_2]|].
  apply Forall_cons_2; [|apply Forall_nil_2]. unfold same_radio. cbn [de_sf de_bw_hz]. by rewrite !Z.eqb_refl.
Qed.

(** ** Histories *)

(** The calls on the ring, each atomic under the mutex. *)
Inductive dedup_op :=
| OpBuffer (r : replica) (now_us now_ns : Z)
| OpTick (now_us : Z)
| OpStop.

(** A run of the ring together with its ghost: the replicas of each slot's
    cluster, the entries handed to the decoder with theirs, and the replicas
    refused because the ring was full. *)
Record history := mk_history {
  hs_dedup : dedup;
  hs_ghost : list (list replica);
  hs_emitted : list (dedup_entry * list replica);
  hs_refused : list replica;
}.

Definition history_init : history :=
  mk_history dedup_init (replicate DEDUP_RING_SIZE []) [] [].

Definition ghost_suppress (r : replica) (now_us : Z) (e : dedup_entry) (g : list replica) : list replica :=
  if tier3_reverse r now_us e then [] else g.

Definition ghost_buffer (d : dedup) (gs : list (list replica)) (r : replica) (now_us : Z)
  : list (list replica) * list replica :=
  if negb (rp_accepted r) then (gs, [])
  else
    match find_match (dd_ring d) r (dedup_payload_fingerprint (rp_payload r)) now_us with
    | Some (i, _) => (alter (fun g => g ++ [r]) i gs, [])
    | None =>
        match first_index (fun e => negb (de_in_use e)) 0 (dd_ring d) with
        | None => (gs, [r])
        | Some i =>
            (alter (fun _ => [r]) i
               (if rp_crc_bad r then gs else zip_with (ghost_suppress r now_us) (dd_ring d) gs), [])
        end
    end.

Fixpoint ghost_sweep (ready : dedup_entry -> bool) (room : nat) (ring : list dedup_entry)
    (gs : list (list replica)) : list (list replica) * list (list replica) :=
  match ring, gs with
  | e :: t, g :: gt =>
      match room with
      | O => ([], gs)
      | S k =>
          if de_in_use e && ready e
          then let '(b, r) := ghost_sweep ready k t gt in (g :: b, [] :: r)
          else let '(b, r) := ghost_sweep ready room t gt in (b, g :: r)
      end
  | _, _ => ([], gs)
  end.

Definition history_step (h : history) (op : dedup_op) : history :=
  let d := hs_dedup h in
  match op with
  | OpBuffer r now_us now_ns =>
      let '(gs, refused) := ghost_buffer d (hs_ghost h) r now_us in
      mk_history (dedup_buffer d r now_us now_ns) gs (hs_emitted h) (hs_refused h ++ refused)
  | OpTick now_us =>
      let '(batch, d') := dedup_drain_tick d now_us in
      let '(gb, gs) := ghost_sweep (drain_ready now_us) DEDUP_DRAIN_BATCH (dd_ring d) (hs_ghost h) in
      mk_history d' gs (hs_emitted h ++ zip batch gb) (hs_refused h)
  | OpStop =>
      let '(batch, d') := dedup_drain_all d in
      let '(gb, gs) := ghost_sweep (fun _ => true) DEDUP_RING_SIZE (dd_ring d) (hs_ghost h) in
      mk_history d' gs (hs_emitted h ++ zip batch gb) (hs_refused h)
  end.

Definition run_history (ops : list dedup_op) : history := fold_left history_step ops history_init.

(** The replicas offered by a list of calls, past the length check. *)
Definition offered (ops : list dedup_op) : list replica :=
  flat_map (fun op => match op with
                      | OpBuffer r _ _ => if rp_accepted r then [r] else []
                      | _ => []
                      end) ops.

Definition op_has_meta (op : dedup_op) : Prop :=
  match op with OpBuffer r _ _ => rp_meta r <> None | _ => True end.

Lemma first_index_Some p l : forall i j,
  first_index p i l = Some j -> exists e, (i <= j)%nat /\ l !! (j - i)%nat = Some e /\ p e = true.
Proof.
  induction l as [|e l IH]; intros i j; [done|]. cbn [first_index]. destruct (p e) eqn:E.
  - intros [= <-]. exists e. rewrite Nat.sub_diag. split; [lia|done].
  - intros H. destruct (IH _ _ H) as (x & Hj & Hx & Hp). exists x. split; [lia|]. split; [|done].
    replace (j - i)%nat with (S (j - S i)) by lia. done.
Qed.

Lemma first_index_0 p l j : first_index p 0 l = Some j -> exists e, l !! j = Some e /\ p e = true.
Proof. intros H. destruct (first_index_Some _ _ _ _ H) as (e & _ & He & Hp). rewrite Nat.sub_0_r in He. by exists e. Qed.

Lemma find_match_spec ring r fp now i t3 :
  find_match ring r fp now = Some (i, t3) ->
  exists e, ring !! i = Some e /\ de_in_use e = true /\ same_radio r e = true.
Proof.
  assert (H1 : forall e, tier1 r fp e = true -> de_in_use e = true /\ same_radio r e = true).
  { intros e H. unfold tier1 in H. zb. done. }
  assert (H2 : forall e, tier2 r now e = true -> de_in_use e = true /\ same_radio r e = true).
  { intros e H. unfold tier2 in H. zb. done. }
  assert (H3 : forall e, tier3 r now e = true -> de_in_use e = true /\ same_radio r e = true).
  { intros e H. unfold tier3 in H. zb. done. }
  unfold find_match. destruct (first_index (tier1 r fp) 0 ring) as [j|] eqn:E1.
  { intros [= <- _]. apply first_index_0 in E1 as (e & He & Hp). exists e. split; [done|by apply H1]. }
  destruct (if rp_slot_valid r then _ else None) as [j|] eqn:E2.
  { intros [= <- _]. destruct (rp_slot_valid r); [|done]. apply first_index_0 in E2 as (e & He & Hp).
    exists e. split; [done|by apply H2]. }
  destruct (if rp_crc_bad r then _ else None) as [j|] eqn:E3; [|done].
  intros [= <- _]. destruct (rp_crc_bad r); [|done]. apply first_index_0 in E3 as (e & He & Hp).
  exists e. split; [done|by apply H3].
Qed.

Lemma suppress_rep r now ring gs :
  ring_rep ring gs -> ring_rep (map (suppress r now) ring) (zip_with (ghost_suppress r now) ring gs).
Proof.
  induction 1 as [|e g ring gs He _ IH]; [constructor|]. cbn [map zip_with]. constructor; [|done].
  unfold suppress, ghost_suppress. by destruct (tier3_reverse r now e).
Qed.

Lemma fold_in_use r fp e : de_in_use (fold_replica r fp e) = de_in_use e.
Proof.
  unfold fold_replica. destruct (widen_keeps r (if replaces r (e {{ de_replica_count := de_replica_count e + 1 }})
    then set_best r fp (e {{ de_replica_count := de_replica_count e + 1 }})
    else e {{ de_replica_count := de_replica_count e + 1 }})) as [-> _]. by case_if.
Qed.

Lemma buffer_rep d gs r now ns m :
  rp_meta r = Some m -> ring_rep (dd_ring d) gs ->
  ring_rep (dd_ring (dedup_buffer d r now ns)) (fst (ghost_buffer d gs r now)).
Proof.
  intros Hm H. unfold dedup_buffer, ghost_buffer. destruct (rp_accepted r); cbn [negb]; [|done].
  destruct (find_match _ _ _ _) as [[i t3]|] eqn:Ef.
  - apply find_match_spec in Ef as (e & He & Hu & Hr). rcbn. apply Forall2_alter; [done|].
    intros e' g He' Hg Hrep. assert (e' = e) as -> by congruence.
    unfold entry_rep in *. rewrite fold_in_use. rewrite Hu in *. split; [by destruct g|].
    eapply fold_summary; [done|done|apply Hrep].
  - destruct (first_index _ _ _) as [i|] eqn:Ei; [|done].
    destruct (rp_crc_bad r); rcbn; (apply Forall2_alter; [|intros e g _ _ _; exact (open_summary r m now ns e Hm)]);
      [done|by apply suppress_rep].
Qed.

(** ** Accounting *)

Definition kept (gs : list (list replica)) (x : replica) : Prop := exists i g, gs !! i = Some g /\ In x g.

Lemma kept_alter f i gs x :
  kept gs x -> (forall g, gs !! i = Some g -> In x g -> In x (f g)) -> kept (alter f i gs) x.
Proof.
  intros (j & g & Hj & Hx) Hf. destruct (decide (i = j)) as [->|Hne].
  - exists j, (f g). rewrite list_lookup_alter_eq, Hj. split; [done|]. by apply Hf.
  - exists j, g. by rewrite list_lookup_alter_ne.
Qed.

Lemma kept_altered f i g gs x : gs !! i = Some g -> In x (f g) -> kept (alter f i gs) x.
Proof. intros Hi Hx. exists i, (f g). by rewrite list_lookup_alter_eq, Hi. Qed.

Lemma rep_lookup ring gs i e : ring_rep ring gs -> ring !! i = Some e -> exists g, gs !! i = Some g /\ entry_rep e g.
Proof. intros H He. destruct (Forall2_lookup_l _ _ _ _ _ H He) as (g & Hg & Hr). by exists g. Qed.

Lemma rep_empty ring gs i e : ring_rep ring gs -> ring !! i = Some e -> de_in_use e = false -> gs !! i = Some [].
Proof.
  intros H He Hu. destruct (rep_lookup _ _ _ _ H He) as (g & Hg & Hr). unfold entry_rep in Hr. rewrite Hu in Hr.
  by subst g.
Qed.

(** Suppression frees no cluster that holds a good replica. *)
Lemma kept_suppress r now ring gs x :
  ring_rep ring gs -> rp_good x = true -> kept gs x -> kept (zip_with (ghost_suppress r now) ring gs) x.
Proof.
  intros H Hg (i & g & Hi & Hx). destruct (Forall2_lookup_r _ _ _ _ _ H Hi) as (e & He & Hrep).
  exists i, g. rewrite lookup_zip_with, He, Hi. split; [|done]. cbn [mbind option_bind].
  unfold ghost_suppress. destruct (tier3_reverse r now e) eqn:Et; [|done]. exfalso.
  unfold tier3_reverse in Et. zb. unfold entry_rep in Hrep. case_match; [|done].
  destruct Hrep as [_ Hs]. rewrite (summary_good e g x Hs Hx Hg) in *. done.
Qed.

Lemma buffer_kept d gs r now x :
  ring_rep (dd_ring d) gs -> rp_good x = true -> kept gs x -> kept (fst (ghost_buffer d gs r now)) x.
Proof.
  intros H Hg Hk. unfold ghost_buffer. destruct (rp_accepted r); cbn [negb]; [|done].
  destruct (find_match _ _ _ _) as [[i t3]|]; cbn [fst].
  { apply kept_alter; [done|]. intros g _ Hx. apply in_or_app. by left. }
  destruct (first_index _ _ _) as [i|] eqn:Ei; cbn [fst]; [|done].
  apply first_index_0 in Ei as (e & He & Hu). apply negb_true_iff in Hu.
  apply kept_alter; [destruct (rp_crc_bad r); [done|by apply kept_suppress]|].
  intros g Hi Hx. exfalso. pose proof (rep_empty _ _ _ _ H He Hu) as Hn.
  destruct (rp_crc_bad r); [rewrite Hn in Hi; by injection Hi as <-|].
  rewrite lookup_zip_with, He, Hn in Hi. cbn [mbind option_bind] in Hi. injection Hi as <-.
  unfold ghost_suppress in Hx. by destruct (tier3_reverse r now e).
Qed.

Lemma buffer_admits d gs r now :
  ring_rep (dd_ring d) gs -> rp_accepted r = true ->
  kept (fst (ghost_buffer d gs r now)) r \/ In r (snd (ghost_buffer d gs r now)).
Proof.
  intros H Ha. unfold ghost_buffer. rewrite Ha. cbn [negb].
  destruct (find_match _ _ _ _) as [[i t3]|] eqn:Ef; cbn [fst snd].
  { left. apply find_match_spec in Ef as (e & He & _). destruct (rep_lookup _ _ _ _ H He) as (g & Hg & _).
    apply (kept_altered _ _ g); [done|]. apply in_or_app. right. by left. }
  destruct (first_index _ _ _) as [i|] eqn:Ei; cbn [fst snd]; [left|right; by left].
  apply first_index_0 in Ei as (e & He & Hu). destruct (rep_lookup _ _ _ _ H He) as (g & Hg & _).
  destruct (rp_crc_bad r); [apply (kept_altered _ _ g); [done|by left]|].
  apply (kept_altered _ _ (ghost_suppress r now e g)); [|by left]. by rewrite lookup_zip_with, He, Hg.
Qed.

Definition emitted_ok (p : dedup_entry * list replica) : Prop := snd p <> [] /\ summary (fst p) (snd p).

Lemma sweep_rep ready : forall ring gs room,
  ring_rep ring gs ->
  let '(batch, ring') := sweep ready room ring in
  let '(gb, gs') := ghost_sweep ready room ring gs in
  ring_rep ring' gs' /\ Forall emitted_ok (zip batch gb) /\
  forall x, kept gs x -> kept gs' x \/ exists p, In p (zip batch gb) /\ In x (snd p).
Proof.
  induction ring as [|e ring IH]; intros gs room H.
  { apply Forall2_nil_inv_l in H as ->. cbn [sweep ghost_sweep]. destruct room; (split; [constructor|]);
      (split; [constructor|]); intros x (i & g & Hi & _); done. }
  apply Forall2_cons_inv_l in H as (g & gs' & He & H & ->). cbn [sweep ghost_sweep]. destruct room as [|k].
  { split; [by constructor|]. split; [constructor|]. by left. }
  destruct (de_in_use e && ready e) eqn:Er.
  - apply andb_prop in Er as [Hu _]. specialize (IH gs' k H). destruct (sweep ready k ring) as [b rg].
    destruct (ghost_sweep ready k ring gs') as [gb gs2]. destruct IH as (H1 & H2 & H3).
    unfold entry_rep in He. rewrite Hu in He. split_and!.
    + constructor; [done|done].
    + cbn [zip zip_with]. constructor; done.
    + intros x ([|i] & g' & Hi & Hx).
      * injection Hi as <-. right. exists (e, g). split; [by left|done].
      * destruct (H3 x) as [(j & g2 & Hj & Hx2)|(p & Hp & Hx2)]; [by exists i, g'| |].
        -- left. by exists (S j), g2.
        -- right. exists p. split; [by right|done].
  - specialize (IH gs' (S k) H). destruct (sweep ready (S k) ring) as [b rg].
    destruct (ghost_sweep ready (S k) ring gs') as [gb gs2]. destruct IH as (H1 & H2 & H3).
    split_and!; [by constructor|done|].
    intros x ([|i] & g' & Hi & Hx).
    + left. injection Hi as <-. by exists O, g.
    + destruct (H3 x) as [(j & g2 & Hj & Hx2)|Hp]; [by exists i, g'| |by right]. left. by exists (S j), g2.
Qed.

Lemma buffer_from d gs r now x :
  length gs = length (dd_ring d) ->
  kept (fst (ghost_buffer d gs r now)) x -> kept gs x \/ (x = r /\ rp_accepted r = true).
Proof.
  intros Hlen. unfold ghost_buffer. destruct (rp_accepted r); cbn [negb]; [|by left].
  assert (A : forall f i gs', (forall g, In x (f g) -> In x g \/ x = r) -> kept (alter f i gs') x -> kept gs' x \/ x = r).
  { intros f i gs' Hf (j & g & Hj & Hx). rewrite list_lookup_alter in Hj. destruct (decide (i = j)) as [->|].
    - destruct (gs' !! j) as [g0|] eqn:E; [|done]. injection Hj as <-. destruct (Hf g0 Hx) as [H| ->]; [|by right].
      left. by exists j, g0.
    - left. by exists j, g. }
  destruct (find_match _ _ _ _) as [[i t3]|]; cbn [fst].
  { intros H. apply A in H; [tauto|]. intros g Hx. apply in_app_or in Hx as [Hx|[Hx|[]]]; auto. }
  destruct (first_index _ _ _) as [i|]; cbn [fst]; [|by left].
  intros H. apply A in H; [|intros g [<-|[]]; by right]. destruct H as [H|H]; [|tauto]. left.
  destruct (rp_crc_bad r); [done|]. destruct H as (j & g & Hj & Hx). rewrite lookup_zip_with in Hj.
  destruct (dd_ring d !! j) as [e|]; [|done]. destruct (gs !! j) as [g0|] eqn:E; [|done].
  cbn [mbind option_bind] in Hj. injection Hj as <-. unfold ghost_suppress in Hx.
  destruct (tier3_reverse r now e); [done|]. by exists j, g0.
Qed.

Lemma sweep_from ready : forall ring gs room,
  let '(batch, ring') := sweep ready room ring in
  let '(gb, gs') := ghost_sweep ready room ring gs in
  (forall x, kept gs' x -> kept gs x) /\ (forall p x, In p (zip batch gb) -> In x (snd p) -> kept gs x).
Proof.
  induction ring as [|e ring IH]; intros gs room; [by destruct room, gs|]. destruct gs as [|g gs].
  { destruct (sweep ready room (e :: ring)) as [b rg]. cbn [ghost_sweep]. split; [done|].
    intros p x Hp. by destruct b. }
  cbn [sweep ghost_sweep]. destruct room as [|k]; [by split|].
  assert (K : forall x, kept gs x -> kept (g :: gs) x) by (intros x (j & g' & Hj & Hx); by exists (S j), g').
  destruct (de_in_use e && ready e).
  - specialize (IH gs k). destruct (sweep ready k ring) as [b rg]. destruct (ghost_sweep ready k ring gs) as [gb gs2].
    destruct IH as [H1 H2]. split.
    + intros x ([|j] & g' & Hj & Hx); [by injection Hj as <-|]. apply K, H1. by exists j, g'.
    + intros p x [<-|Hp] Hx; [by exists O, g|]. by apply K, (H2 p).
  - specialize (IH gs (S k)). destruct (sweep ready (S k) ring) as [b rg].
    destruct (ghost_sweep ready (S k) ring gs) as [gb gs2]. destruct IH as [H1 H2]. split.
    + intros x ([|j] & g' & Hj & Hx); [injection Hj as <-; by exists O, g|]. apply K, H1. by exists j, g'.
    + intros p x Hp Hx. by apply K, (H2 p).
Qed.

(** What holds after the calls [ops]. *)
Record history_ok (h : history) (ops : list dedup_op) : Prop := {
  ho_rep : ring_rep (dd_ring (hs_dedup h)) (hs_ghost h);
  ho_emitted : Forall emitted_ok (hs_emitted h);
  ho_good : forall x, In x (offered ops) -> rp_good x = true ->
    In x (hs_refused h) \/ kept (hs_ghost h) x \/ exists p, In p (hs_emitted h) /\ In x (snd p);
  ho_from : forall x, kept (hs_ghost h) x \/ (exists p, In p (hs_emitted h) /\ In x (snd p)) -> In x (offered ops);
}.

Lemma offered_app a b : offered (a ++ b) = offered a ++ offered b.
Proof. apply flat_map_app. Qed.

Lemma step_buffer_ok h ops r now ns :
  rp_meta r <> None -> history_ok h ops -> history_ok (history_step h (OpBuffer r now ns)) (ops ++ [OpBuffer r now ns]).
Proof.
  intros Hm [H1 H2 H3 H4]. destruct (rp_meta r) as [m|] eqn:Em; [|done].
  pose proof (buffer_rep _ _ r now ns m Em H1) as B1.
  pose proof (fun x Hx => buffer_kept _ _ r now x H1 Hx) as B2.
  pose proof (buffer_admits _ _ r now H1) as B3.
  pose proof (fun x => buffer_from _ _ r now x (eq_sym (Forall2_length _ _ _ H1))) as B4.
  cbn [history_step]. destruct (ghost_buffer (hs_dedup h) (hs_ghost h) r now) as [gs ref]. cbn [fst snd] in *.
  split; cbn [hs_dedup hs_ghost hs_emitted hs_refused].
  - done.
  - done.
  - intros x Hx Hg. rewrite offered_app in Hx. apply in_app_or in Hx as [Hx|Hx].
    + destruct (H3 x Hx Hg) as [H|[H|H]]; [left; apply in_or_app; by left|right; left; by apply B2|auto].
    + cbn [offered flat_map app] in Hx. destruct (rp_accepted r) eqn:Ea; [|done]. rewrite app_nil_r in Hx.
      destruct Hx as [<-|[]]. destruct (B3 eq_refl) as [H|H]; [auto|left; apply in_or_app; by right].
  - intros x Hx. rewrite offered_app. apply in_or_app. destruct Hx as [Hx|Hx]; [|left; apply H4; by right].
    destruct (B4 x Hx) as [H|[-> Ha]]; [left; apply H4; by left|right].
    cbn [offered flat_map app]. rewrite Ha. by left.
Qed.

(** One sweep of either kind. *)
Lemma step_sweep_ok h ops ready room op ring gs batch gb d' :
  offered [op] = [] -> history_ok h ops ->
  sweep ready room (dd_ring (hs_dedup h)) = (batch, ring) ->
  ghost_sweep ready room (dd_ring (hs_dedup h)) (hs_ghost h) = (gb, gs) -> dd_ring d' = ring ->
  history_ok (mk_history d' gs (hs_emitted h ++ zip batch gb) (hs_refused h)) (ops ++ [op]).
Proof.
  intros Ho [H1 H2 H3 H4] Es Eg Hd. pose proof (sweep_rep ready _ _ room H1) as S1.
  pose proof (sweep_from ready (dd_ring (hs_dedup h)) (hs_ghost h) room) as S2. rewrite Es, Eg in S1, S2.
  destruct S1 as (S1 & S3 & S4). destruct S2 as [S5 S6].
  split; cbn [hs_dedup hs_ghost hs_emitted hs_refused]; rewrite ?Hd.
  - done.
  - by apply Forall_app_2.
  - intros x Hx Hg. rewrite offered_app, Ho, app_nil_r in Hx. destruct (H3 x Hx Hg) as [H|[H|(p & Hp & Hxp)]]; [auto| |].
    + destruct (S4 x H) as [Hk|(p & Hp & Hxp)]; [auto|]. right; right. exists p. split; [|done]. apply in_or_app. by right.
    + right; right. exists p. split; [|done]. apply in_or_app. by left.
  - intros x Hx. rewrite offered_app, Ho, app_nil_r. apply H4. destruct Hx as [Hx|(p & Hp & Hxp)]; [left; auto|].
    apply in_app_or in Hp as [Hp|Hp]; [right; by exists p|left; by apply (S6 p)].
Qed.

Lemma history_step_ok h ops op :
  op_has_meta op -> history_ok h ops -> history_ok (history_step h op) (ops ++ [op]).
Proof.
  intros Hm H. destruct op as [r now ns|now|].
  - by apply step_buffer_ok.
  - cbn [history_step]. unfold dedup_drain_tick. destruct (sweep _ _ _) as [batch ring] eqn:Es.
    destruct (ghost_sweep _ _ _ _) as [gb gs] eqn:Eg. by eapply step_sweep_ok.
  - cbn [history_step]. unfold dedup_drain_all. destruct (sweep _ _ _) as [batch ring] eqn:Es.
    destruct (ghost_sweep _ _ _ _) as [gb gs] eqn:Eg. by eapply step_sweep_ok.
Qed.

Lemma init_ok : history_ok history_init [].
Proof.
  split; try done.
  - cbn [hs_dedup hs_ghost history_init dedup_init dd_ring]. apply Forall2_replicate. done.
  - intros x [(i & g & Hi & Hx)|(p & [] & _)]. apply lookup_replicate in Hi as [-> _]. done.
Qed.

Lemma run_history_ok ops : Forall op_has_meta ops -> history_ok (run_history ops) ops.
Proof.
  unfold run_history. intros H.
  assert (G : forall done_ h, history_ok h done_ -> history_ok (fold_left history_step ops h) (done_ ++ ops)).
  { induction H as [|op ops Ho _ IH]; intros pre h Hh; [by rewrite app_nil_r|]. cbn [fold_left].
    replace (pre ++ op :: ops) with ((pre ++ [op]) ++ ops) by (by rewrite <- app_assoc). by apply IH, history_step_ok. }
  exact (G [] _ init_ok).
Qed.

(** C10: deduplication publishes the best replica and loses no good frame.
    After any sequence of replicas, drainer ticks and final sweeps: every
    entry handed to the decoder stands for a non-empty set of offered
    replicas of the same SF and bandwidth and is the one no other beats (CRC
    pass first, then SNR); and every replica offered with a good CRC was
    refused because all 512 slots were taken, or is in a cluster still
    waiting whose best is good, or in one already emitted whose best is
    good.  No suppression rule drops it. *)
Theorem dedup_keeps_good_frames ops :
  Forall op_has_meta ops ->
  let h := run_history ops in
  (forall e g, In (e, g) (hs_emitted h) -> g <> [] /\ incl g (offered ops) /\ summary e g) /\
  (forall x, In x (offered ops) -> rp_good x = true ->
     In x (hs_refused h) \/
     (exists i e g, dd_ring (hs_dedup h) !! i = Some e /\ hs_ghost h !! i = Some g /\
        de_in_use e = true /\ In x g /\ de_good e = true) \/
     (exists e g, In (e, g) (hs_emitted h) /\ In x g /\ de_good e = true)).
Proof.
  intros Hm. destruct (run_history_ok ops Hm) as [H1 H2 H3 H4]. cbn zeta. rewrite List.Forall_forall in H2. split.
  - intros e g He. destruct (H2 _ He) as [Hn Hs]. split; [done|]. split; [|done].
    intros x Hx. apply H4. right. by exists (e, g).
  - intros x Hx Hg. destruct (H3 x Hx Hg) as [H|[(i & g & Hi & Hxg)|([e g] & Hp & Hxg)]]; [auto| |].
    + right; left. destruct (Forall2_lookup_r _ _ _ _ _ H1 Hi) as (e & He & Hr). exists i, e, g.
      unfold entry_rep in Hr. destruct (de_in_use e); [|by subst g]. split_and!; try done.
      by eapply summary_good; [apply Hr| |].
    + right; right. exists e, g. split_and!; try done. by eapply summary_good; [apply (H2 _ Hp)| |].
Qed.

(** A weak good replica and a strong corrupted one of the same frame. *)
Definition witness_meta (crc_ok : bool) (snr : Z) : lora_frame_meta :=
  mk_meta (mk_frame_meta 9 5 250000 20 true true crc_ok false 0 0) 0 snr 0 0 0.
Definition witness_good : replica := mk_replica (map Z.of_nat (seq 0 20)) (Some (witness_meta true 0x40000000)) 3.
Definition witness_bad : replica :=
  mk_replica (flip_bit (map Z.of_nat (seq 0 20)) 77) (Some (witness_meta false 0x41200000)) 5.
Definition witness_ops : list dedup_op :=
  [OpBuffer witness_bad 1000 0; OpBuffer witness_good 1200 0; OpTick 5000; OpTick 31000].

Lemma dedup_keeps_good_frames_witness :
  (exists e g, In (e, g) (hs_emitted (run_history witness_ops)) /\ In witness_good g /\ de_good e = true) /\
  dd_ring (hs_dedup (run_history witness_ops)) !! 0%nat <> None.
Proof.
  destruct (dedup_keeps_good_frames witness_ops) as [_ H].
  { repeat (constructor; [done|]). constructor. }
  assert (E : dd_ring (hs_dedup (run_history witness_ops)) !! 0%nat <> None) by (vm_compute; discriminate).
  split; [|exact E].
  destruct (H witness_good) as [Hr|[(i & e & g & _ & Hg & _ & Hx & _)|Hx]]; [vm_compute; tauto|done| | |done].
  - vm_compute in Hr. destruct Hr.
  - exfalso. assert (Hall : Forall (eq []) (hs_ghost (run_history witness_ops))).
    { vm_compute. repeat (constructor; [done|]). constructor. }
    rewrite Forall_lookup in Hall. rewrite <- (Hall _ _ Hg) in Hx. destruct Hx.
Defined.

(** ** Liveness of the drainer *)

Definition due (ready : dedup_entry -> bool) (e : dedup_entry) : bool := de_in_use e && ready e.

Lemma sweep_spec ready : forall ring room,
  fst (sweep ready room ring) = take room (List.filter (due ready) ring) /\
  List.filter (due ready) (snd (sweep ready room ring)) = drop room (List.filter (due ready) ring).
Proof.
  induction ring as [|e ring IH]; intros room; [by destruct room|]. destruct room as [|k].
  { cbn [sweep fst snd]. by rewrite drop_0. }
  cbn [sweep]. unfold due in *. cbn [List.filter]. destruct (de_in_use e && ready e) eqn:E.
  - specialize (IH k). destruct (sweep ready k ring) as [b rg]. cbn [fst snd] in *. destruct IH as [-> IH].
    split; [done|]. cbn [List.filter]. rcbn. cbn [andb]. by rewrite IH.
  - specialize (IH (S k)). destruct (sweep ready (S k) ring) as [b rg]. cbn [fst snd] in *. destruct IH as [-> IH].
    split; [done|]. cbn [List.filter]. by rewrite E.
Qed.

(** [n] ticks in which no replica arrives. *)
Fixpoint drain_ticks (n : nat) (d : dedup) (now_us : Z) : list dedup_entry * dedup :=
  match n with
  | O => ([], d)
  | S k =>
      let '(batch, d) := dedup_drain_tick d now_us in
      let '(rest, d) := drain_ticks k d now_us in (batch ++ rest, d)
  end.

Lemma drain_ticks_spec n : forall d now,
  let due_now := List.filter (due (drain_ready now)) (dd_ring d) in
  fst (drain_ticks n d now) = take (DEDUP_DRAIN_BATCH * n) due_now /\
  List.filter (due (drain_ready now)) (dd_ring (snd (drain_ticks n d now))) = drop (DEDUP_DRAIN_BATCH * n) due_now.
Proof.
  induction n as [|n IH]; intros d now; cbn zeta; cbn [drain_ticks].
  { rewrite Nat.mul_0_r. cbn [fst snd]. by rewrite drop_0. }
  unfold dedup_drain_tick. destruct (sweep_spec (drain_ready now) (dd_ring d) DEDUP_DRAIN_BATCH) as [S1 S2].
  destruct (sweep (drain_ready now) DEDUP_DRAIN_BATCH (dd_ring d)) as [b rg]. cbn [fst snd] in S1, S2.
  specialize (IH (d {{ dd_ring := rg }}) now). cbn zeta in IH.
  destruct (drain_ticks n (d {{ dd_ring := rg }}) now) as [rest d2]. cbn [fst snd] in *. revert IH. rcbn.
  rewrite S2. intros [-> ->]. rewrite Nat.mul_succ_r, drop_drop. rewrite S1. split.
  - rewrite (Nat.add_comm (DEDUP_DRAIN_BATCH * n)). apply take_take_drop.
  - f_equal. lia.
Qed.

(** The drainer keeps up.  Eight ticks, 40 ms, hand every cluster whose
    window has expired to the decoder, each exactly once and in slot order,
    and leave none of them behind, however full the 512-slot ring is. *)
Theorem drainer_empties_ring d now_us :
  (length (dd_ring d) <= DEDUP_RING_SIZE)%nat ->
  fst (drain_ticks 8 d now_us) = List.filter (due (drain_ready now_us)) (dd_ring d) /\
  List.filter (due (drain_ready now_us)) (dd_ring (snd (drain_ticks 8 d now_us))) = [].
Proof.
  intros Hl. destruct (drain_ticks_spec 8 d now_us) as [-> ->].
  assert (H : (length (List.filter (due (drain_ready now_us)) (dd_ring d)) <= DEDUP_DRAIN_BATCH * 8)%nat).
  { etrans; [apply filter_length_le|]. exact Hl. }
  split; [by rewrite take_ge|by rewrite drop_ge].
Qed.

Lemma drainer_empties_ring_witness :
  map de_replica_count (fst (drain_ticks 8 (hs_dedup (run_history
    [OpBuffer witness_bad 1000 0; OpBuffer witness_good 1200 0])) 31000)) = [2].
Proof.
  rewrite (proj1 (drainer_empties_ring (hs_dedup (run_history
    [OpBuffer witness_bad 1000 0; OpBuffer witness_good 1200 0])) 31000 ltac:(by_decide))).
  vm_compute. reflexivity.
Defined.
