(* ===== verification/Pipeline.v ===== *)
(** The back half of the receive pipeline (src/main.c): from the cluster the
    drainer takes out of the deduplication ring to the published event.
    replay_check, on_mesh_event, the per-channel SNR history,
    dedup_emit_locked and one pass of dedup_drainer_thread.

    The clocks, the sample rate and the station's clock class are arguments;
    publishing, alerts and the PCAP file are values of [output]. *)

From S2P Require Import Prelude CFloat LoraFrame MeshEvent Keyset MeshPacket MeshCore MeshCoreRegion.
From S2P Require Import MeshCoreDecoders Dedup.

Local Open Scope Z_scope.

Definition CHANNELIZER_MAX_CHANNELS : nat := 1024.

(** ** Replay flagging *)

Definition REPLAY_RING_SIZE : nat := 2048.
Definition REPLAY_FRESH_WINDOW_S : Z := 10.

Record replay_entry := mk_replay_entry {
  re_from : Z;
  re_packet_id : Z;
  re_first_seen_us : Z;
  re_alerted : bool;
  re_in_use : bool;
}.

Record replay_ring := mk_replay_ring { rr_slots : list replay_entry; rr_next_slot : nat }.

Definition replay_init : replay_ring :=
  mk_replay_ring (replicate REPLAY_RING_SIZE (mk_replay_entry 0 0 0 false false)) 0.

Fixpoint replay_find (from pid : Z) (i : nat) (l : list replay_entry) : option (nat * replay_entry) :=
  match l with
  | [] => None
  | e :: t => if re_in_use e && (re_from e =? from) && (re_packet_id e =? pid) then Some (i, e)
              else replay_find from pid (S i) t
  end.

(** The alert is the sender, the packet id and the age in microseconds. *)
Definition replay_check (st : replay_ring) (from pid now : Z) : replay_ring * option (Z * Z * Z) :=
  match replay_find from pid 0 (rr_slots st) with
  | Some (i, e) =>
      let delta_us := u64 (now - re_first_seen_us e) in
      if negb (re_alerted e) && (delta_us >? REPLAY_FRESH_WINDOW_S * 1000000)
      then (st {{ rr_slots := <[i := e {{ re_alerted := true }}]> (rr_slots st) }}, Some (from, pid, delta_us))
      else (st, None)
  | None =>
      (mk_replay_ring (<[rr_next_slot st := mk_replay_entry from pid now false true]> (rr_slots st))
         ((rr_next_slot st + 1) mod REPLAY_RING_SIZE), None)
  end.

(** ** SNR history *)

Definition CHAN_SNR_HISTORY_BUCKETS : nat := 288.
Definition CHAN_SNR_BUCKET_SECS : Z := 300.

(** The two arrays snr_history_sum and snr_history_count, updated in step. *)
Definition snr_cell : Type := spec_float * Z.
Definition cell_zero : snr_cell := (f_zero, 0).

Record snr_history := mk_snr_history {
  sh_cells : list snr_cell;
  sh_head : nat;
  sh_last_bucket : Z;
}.

Definition snr_history_init : snr_history := mk_snr_history (replicate CHAN_SNR_HISTORY_BUCKETS cell_zero) 0 0.

(** Advance the head by [n] buckets, clearing each. *)
Fixpoint snr_advance (n : nat) (h : snr_history) : snr_history :=
  match n with
  | O => h
  | S k =>
      let head := ((sh_head h + 1) mod CHAN_SNR_HISTORY_BUCKETS)%nat in
      snr_advance k (h {{ sh_head := head; sh_cells := <[head := cell_zero]> (sh_cells h) }})
  end.

Definition snr_roll (h : snr_history) (now_bucket : Z) : snr_history :=
  if sh_last_bucket h =? 0 then h {{ sh_last_bucket := now_bucket }}
  else if now_bucket >? sh_last_bucket h then
    let skipped := now_bucket - sh_last_bucket h in
    let h := if skipped >=? Z.of_nat CHAN_SNR_HISTORY_BUCKETS
             then h {{ sh_cells := replicate CHAN_SNR_HISTORY_BUCKETS cell_zero; sh_head := O }}
             else snr_advance (Z.to_nat skipped) h in
    h {{ sh_last_bucket := now_bucket }}
  else h.

Definition cell_add (snr : spec_float) (c : snr_cell) : snr_cell := (f64_add (fst c) snr, u16 (snd c + 1)).

Definition snr_history_add (h : snr_history) (now_bucket : Z) (snr : spec_float) : snr_history :=
  let h := snr_roll h now_bucket in
  h {{ sh_cells := alter (cell_add snr) (sh_head h) (sh_cells h) }}.

(** The cells in the order the heartbeat reports them, oldest first. *)
Definition snr_report (h : snr_history) : list snr_cell :=
  map (fun k => nth ((sh_head h + 1 + k) mod CHAN_SNR_HISTORY_BUCKETS)%nat (sh_cells h) cell_zero)
      (seq 0 CHAN_SNR_HISTORY_BUCKETS).

(** ** Pipeline state *)

Record chan_stat := mk_chan_stat {
  cs_frames : Z;
  cs_decrypted : Z;
  cs_snr_db_sum : spec_float;
  cs_snr_db_count : Z;
  cs_bytes : Z;
  cs_freq_hz : Z;
  cs_history : snr_history;
}.

Record pipeline := mk_pipeline {
  pl_frames_total : Z;
  pl_decrypts_total : Z;
  pl_crc_pass_total : Z;
  pl_crc_fail_total : Z;
  pl_chan_stats : list chan_stat;
  pl_replay : replay_ring;
}.

Inductive output :=
| OutPcap (frame : list Z)
| OutReplay (from packet_id delta_us : Z)
| OutPublish (ev : mesh_event)
| OutMesh (e : mesh_effect)
| OutMeshCore (e : mc_effect).

(** frame_emit_ctx_t *)
Record emit_ctx := mk_emit_ctx {
  cx_channel_id : Z;
  cx_has_crc : bool;
  cx_payload_crc_ok : bool;
  cx_crc_corrected : bool;
  cx_crc_corrected_bits : Z;
  cx_cfo_hz : Z;
  cx_station_t_ns : Z;
  cx_station_t_acc_ns : Z;
  cx_lock_sample_idx : Z;
  cx_lock_sample_frac : Z;
  cx_lock_t_ns : Z;
}.

Definition channel_ok (id : Z) : bool := (0 <=? id) && (id <? Z.of_nat CHANNELIZER_MAX_CHANNELS).

(** ** on_mesh_event *)

(** The event as stamped, before the recovery gate. *)
Definition stamp_event (pl : pipeline) (sample_rate_sps : Z) (ctx : emit_ctx) (ev : mesh_event) : mesh_event :=
  let id := cx_channel_id ctx in
  let ev := ev {{ ev_slot_id := if channel_ok id then id else -1 }} in
  let ev := if channel_ok id
            then match pl_chan_stats pl !! Z.to_nat id with
                 | Some cs => ev {{ ev_freq_hz := cs_freq_hz cs }}
                 | None => ev
                 end
            else ev in
  let ev := ev {{ ev_has_crc := cx_has_crc ctx; ev_payload_crc_ok := cx_payload_crc_ok ctx;
                  ev_crc_corrected := cx_crc_corrected ctx;
                  ev_crc_corrected_bits := cx_crc_corrected_bits ctx; ev_cfo_hz := cx_cfo_hz ctx;
                  ev_station_t_ns := cx_station_t_ns ctx; ev_station_t_acc_ns := cx_station_t_acc_ns ctx;
                  ev_preamble_lock_sample_idx := cx_lock_sample_idx ctx;
                  ev_sample_rate_sps := sample_rate_sps;
                  ev_preamble_lock_sample_frac := cx_lock_sample_frac ctx;
                  ev_preamble_lock_t_ns := cx_lock_t_ns ctx }} in
  if ev_has_crc ev && negb (ev_payload_crc_ok ev) then ev {{ ev_decrypted := false }} else ev.

Definition crc_recovery_authable (ev : mesh_event) : bool :=
  ev_is_meshcore ev &&
  ((ev_mc_payload_type ev =? MC_PAYLOAD_GRP_TXT) || (ev_mc_payload_type ev =? MC_PAYLOAD_GRP_DATA) ||
   (ev_mc_payload_type ev =? MC_PAYLOAD_ADVERT)).

Definition crc_recovery_gate (ev : mesh_event) : mesh_event :=
  let needs_gate := (2 <=? ev_crc_corrected_bits ev) ||
                    ((ev_crc_corrected_bits ev =? 1) && crc_recovery_authable ev) in
  if needs_gate && negb (mesh_event_crc2bit_trusted ev)
  then ev {{ ev_payload_crc_ok := false; ev_crc_corrected := false; ev_crc_corrected_bits := 0;
             ev_decrypted := false }}
  else ev.

Definition count_decrypt (pl : pipeline) (id : Z) : pipeline :=
  let pl := pl {{ pl_decrypts_total := u64 (pl_decrypts_total pl + 1) }} in
  if channel_ok id
  then pl {{ pl_chan_stats := alter (fun cs => cs {{ cs_decrypted := u64 (cs_decrypted cs + 1) }})
                                    (Z.to_nat id) (pl_chan_stats pl) }}
  else pl.

Definition on_mesh_event (pl : pipeline) (sample_rate_sps : Z) (ctx : emit_ctx) (now_us : Z) (ev : mesh_event)
  : pipeline * list output :=
  let stamped := crc_recovery_gate (stamp_event pl sample_rate_sps ctx ev) in
  let pl := if ev_decrypted stamped then count_decrypt pl (cx_channel_id ctx) else pl in
  let '(pl, alert) :=
    if negb (ev_is_meshcore stamped) then
      let '(ring, a) := replay_check (pl_replay pl) (hd_from (ev_header stamped)) (hd_packet_id (ev_header stamped))
                          now_us in
      (pl {{ pl_replay := ring }}, match a with Some (f, p, d) => [OutReplay f p d] | None => [] end)
    else (pl, []) in
  (pl, alert ++ [OutPublish stamped]).

(** ** dedup_emit_locked *)

Definition count_frame (pl : pipeline) (e : dedup_entry) (now_s : Z) : pipeline :=
  let m := lm_frame (de_best_meta e) in
  let pl := pl {{ pl_frames_total := u64 (pl_frames_total pl + 1) }} in
  let pl := if fm_has_crc m
            then if fm_payload_crc_ok m then pl {{ pl_crc_pass_total := u64 (pl_crc_pass_total pl + 1) }}
                 else pl {{ pl_crc_fail_total := u64 (pl_crc_fail_total pl + 1) }}
            else pl in
  if channel_ok (de_best_user e) then
    let snr := f32_of_bits (lm_snr_db (de_best_meta e)) in
    let trusted := negb (fm_has_crc m) || fm_payload_crc_ok m in
    let upd cs :=
      cs {{ cs_frames := u64 (cs_frames cs + 1);
            cs_bytes := u64 (cs_bytes cs + Z.of_nat (length (de_best_payload e)));
            cs_snr_db_sum := f64_add (cs_snr_db_sum cs) snr;
            cs_snr_db_count := cs_snr_db_count cs + 1;
            cs_history := if trusted then snr_history_add (cs_history cs) (now_s / CHAN_SNR_BUCKET_SECS) snr
                          else cs_history cs }} in
    pl {{ pl_chan_stats := alter upd (Z.to_nat (de_best_user e)) (pl_chan_stats pl) }}
  else pl.

Definition ctx_of_entry (station_t_acc_ns : Z) (e : dedup_entry) : emit_ctx :=
  let m := de_best_meta e in
  {| cx_channel_id := i32 (de_best_user e);
     cx_has_crc := fm_has_crc (lm_frame m);
     cx_payload_crc_ok := fm_payload_crc_ok (lm_frame m);
     cx_crc_corrected := fm_crc_corrected (lm_frame m);
     cx_crc_corrected_bits := fm_crc_corrected_bits (lm_frame m);
     cx_cfo_hz := lm_cfo_hz m;
     cx_station_t_ns := de_first_seen_t_ns e;
     cx_station_t_acc_ns := station_t_acc_ns;
     cx_lock_sample_idx := fm_lock_sample_idx (lm_frame m);
     cx_lock_sample_frac := lm_lock_sample_frac m;
     cx_lock_t_ns := lm_lock_t_ns m |}.

Inductive mesh_protocol := MESH_PROTOCOL_MESHTASTIC | MESH_PROTOCOL_MESHCORE.

(** What the process configured and what the environment answers. *)
Record env := mk_env {
  en_protocol : mesh_protocol;
  en_keys : option keyset;
  en_channels : option channelset;
  en_regions : list confirmed_region;
  en_sample_rate_sps : Z;
  en_station_t_acc_ns : Z;
}.

Section Emit.
Variable evp_aes_ctr : list Z -> list Z -> list Z -> option (list Z).
Variable ed25519_verify : list Z -> list Z -> list Z -> bool.
Variable hmac_sha256 : list Z -> list Z -> option (list Z).
Variable aes128_ecb_decrypt : list Z -> list Z -> option (list Z).

(** The effects of a decode, its events routed to [on_mesh_event]. *)
Definition route_mesh (en : env) (ctx : emit_ctx) (now_us : Z) (st : pipeline * list output) (e : mesh_effect)
  : pipeline * list output :=
  match e with
  | EmitEvent ev =>
      let '(pl, out) := on_mesh_event (fst st) (en_sample_rate_sps en) ctx now_us ev in (pl, snd st ++ out)
  | _ => (fst st, snd st ++ [OutMesh e])
  end.

Definition route_meshcore (en : env) (ctx : emit_ctx) (now_us : Z) (st : pipeline * list output) (e : mc_effect)
  : pipeline * list output :=
  match e with
  | McEvent ev =>
      let '(pl, out) := on_mesh_event (fst st) (en_sample_rate_sps en) ctx now_us ev in (pl, snd st ++ out)
  | _ => (fst st, snd st ++ [OutMeshCore e])
  end.

Definition dedup_emit_locked (en : env) (pl : pipeline) (e : dedup_entry) (now_us now_s : Z)
  : pipeline * list output :=
  let pl := count_frame pl e now_s in
  let ctx := ctx_of_entry (en_station_t_acc_ns en) e in
  let m := de_best_meta e in
  let f := lm_frame m in
  let st := (pl, [OutPcap (de_best_payload e)]) in
  match en_protocol en with
  | MESH_PROTOCOL_MESHCORE =>
      fold_left (route_meshcore en ctx now_us)
        (snd (meshcore_packet_decode_with_radio ed25519_verify hmac_sha256 aes128_ecb_decrypt
                (de_best_payload e) (lm_rssi_db m) (lm_snr_db m) (fm_sf f) (fm_cr f) (fm_bw_hz f)
                (en_regions en) (en_channels en) true)) st
  | MESH_PROTOCOL_MESHTASTIC =>
      fold_left (route_mesh en ctx now_us)
        (snd (mesh_packet_decode_with_radio evp_aes_ctr (de_best_payload e) (lm_rssi_db m) (lm_snr_db m)
                (fm_sf f) (fm_cr f) (fm_bw_hz f) (en_keys en) true)) st
  end.

(** One pass of the drainer thread: the sweep, then the batch. *)
Definition dedup_drainer_pass (en : env) (d : dedup) (pl : pipeline) (now_us now_s : Z)
  : dedup * pipeline * list output :=
  let '(batch, d) := dedup_drain_tick d now_us in
  let '(pl, out) := fold_left (fun st e => let '(pl, o) := dedup_emit_locked en (fst st) e now_us now_s in
                                           (pl, snd st ++ o)) batch (pl, []) in
  (d, pl, out).
End Emit.

(** The hot-path callback. *)
Definition on_lora_frame (d : dedup) (payload : list Z) (meta : lora_frame_meta) (user now_us now_ns : Z) : dedup :=
  dedup_buffer d (mk_replica payload (Some meta) user) now_us now_ns.
