(* ===== verification/PipelineFacts.v ===== *)
(** Properties of the back half of the pipeline: what a published event
    guarantees, the replay ring as a bounded FIFO of packet identities, and
    the SNR history as a sliding window. *)

From Stdlib Require Import String.
From S2P Require Import Prelude Protobuf PbMessage CString CFloat LoraFrame MeshEvent Meshtastic Keyset.
From S2P Require Import MeshPacket MeshCore MeshCoreRegion MeshCoreDecoders MeshCoreTrust.
From S2P Require Import MeshCoreFacts Dedup Pipeline.

Local Open Scope Z_scope.

(** ** What reaches the publisher *)

Lemma stamp_keeps pl sr ctx ev :
  let s := stamp_event pl sr ctx ev in
  ev_is_meshcore s = ev_is_meshcore ev /\ ev_mc_payload_type s = ev_mc_payload_type ev /\
  ev_mc_sig_valid s = ev_mc_sig_valid ev /\ ev_crc_corrected_bits s = cx_crc_corrected_bits ctx /\
  ev_decrypted s = (if cx_has_crc ctx && negb (cx_payload_crc_ok ctx) then false else ev_decrypted ev).
Proof.
  cbn zeta. unfold stamp_event.
  set (e1 := ev {{ ev_slot_id := _ }}).
  set (e2 := if channel_ok (cx_channel_id ctx) then _ else e1).
  assert (H : ev_is_meshcore e2 = ev_is_meshcore ev /\ ev_mc_payload_type e2 = ev_mc_payload_type ev /\
              ev_mc_sig_valid e2 = ev_mc_sig_valid ev /\ ev_decrypted e2 = ev_decrypted ev).
  { unfold e2, e1. destruct (channel_ok _); [|done]. by destruct (pl_chan_stats pl !! _). }
  clearbody e2. clear e1. destruct H as (H1 & H2 & H3 & H4). cbn zeta.
  set (e3 := e2 {{ ev_has_crc := _; ev_payload_crc_ok := _; ev_crc_corrected := _; ev_crc_corrected_bits := _;
                   ev_cfo_hz := _; ev_station_t_ns := _; ev_station_t_acc_ns := _; ev_preamble_lock_sample_idx := _;
                   ev_sample_rate_sps := _; ev_preamble_lock_sample_frac := _; ev_preamble_lock_t_ns := _ }}).
  assert (G : ev_is_meshcore e3 = ev_is_meshcore e2 /\ ev_mc_payload_type e3 = ev_mc_payload_type e2 /\
              ev_mc_sig_valid e3 = ev_mc_sig_valid e2 /\ ev_decrypted e3 = ev_decrypted e2 /\
              ev_has_crc e3 = cx_has_crc ctx /\ ev_payload_crc_ok e3 = cx_payload_crc_ok ctx /\
              ev_crc_corrected_bits e3 = cx_crc_corrected_bits ctx) by (split_and!; reflexivity).
  clearbody e3. destruct G as (G1 & G2 & G3 & G4 & G5 & G6 & G7). rewrite G5, G6.
  rewrite <- H1, <- H2, <- H3, <- H4, <- G1, <- G2, <- G3, <- G4, <- G7.
  destruct (cx_has_crc ctx && negb (cx_payload_crc_ok ctx)); split_and!; reflexivity.
Qed.

(** An event published as decrypted: its CRC was not known to be bad, and if
    the CRC had to be repaired at two bits, or at one bit on an authenticated
    payload type, the decoder's own event passes the trust gate. *)
Lemma gate_authable pl sr ctx ev0 :
  crc_recovery_authable (crc_recovery_gate (stamp_event pl sr ctx ev0)) = crc_recovery_authable ev0.
Proof.
  destruct (stamp_keeps pl sr ctx ev0) as (S1 & S2 & _). set (s := stamp_event pl sr ctx ev0) in *. clearbody s.
  transitivity (crc_recovery_authable s); [|unfold crc_recovery_authable; by rewrite S1, S2].
  unfold crc_recovery_gate. by destruct (_ && _).
Qed.

Lemma gate_spec pl sr ctx ev0 :
  let ev := crc_recovery_gate (stamp_event pl sr ctx ev0) in
  ev_decrypted ev = true ->
  (cx_has_crc ctx = true -> cx_payload_crc_ok ctx = true) /\ ev_decrypted ev0 = true /\
  (2 <= cx_crc_corrected_bits ctx \/ (cx_crc_corrected_bits ctx = 1 /\ crc_recovery_authable ev0 = true) ->
   mesh_event_crc2bit_trusted ev0 = true).
Proof.
  cbn zeta. destruct (stamp_keeps pl sr ctx ev0) as (S1 & S2 & S3 & S4 & S5).
  set (s := stamp_event pl sr ctx ev0) in *. unfold crc_recovery_gate. intros H.
  assert (Ha : crc_recovery_authable s = crc_recovery_authable ev0)
    by (unfold crc_recovery_authable; by rewrite S1, S2).
  assert (Hd : ev_decrypted s = true /\
    (negb (((2 <=? ev_crc_corrected_bits s) || (ev_crc_corrected_bits s =? 1) && crc_recovery_authable s)) = true \/
     mesh_event_crc2bit_trusted s = true)).
  { revert H. destruct (_ || _); cbn [negb andb]; [|auto].
    destruct (mesh_event_crc2bit_trusted s); cbn [negb andb]; [auto|]. intros H. discriminate H. }
  destruct Hd as [Hd Hg]. rewrite S5 in Hd.
  destruct (cx_has_crc ctx) eqn:E1, (cx_payload_crc_ok ctx) eqn:E2; try discriminate Hd;
    (split; [done|split; [done|]]);
    intros Hb; rewrite S4, Ha in Hg;
    (destruct Hg as [Hg|Hg];
      [exfalso; apply negb_true_iff, orb_false_iff in Hg as [G1 G2];
       destruct Hb as [Hb|[Hb Hb']]; [zb; lia|rewrite Hb, Hb' in G2; discriminate G2]
      |unfold mesh_event_crc2bit_trusted in *; rewrite S1, S2, S3, S5 in Hg; exact Hg]).
Qed.

Section Emit.
Context (evp_aes_ctr : list Z -> list Z -> list Z -> option (list Z)).
Context (verify : list Z -> list Z -> list Z -> bool).
Context (hmac aes_dec : list Z -> list Z -> option (list Z)).

Lemma on_mesh_event_published pl sr ctx now ev0 ev :
  In (OutPublish ev) (snd (on_mesh_event pl sr ctx now ev0)) ->
  ev = crc_recovery_gate (stamp_event pl sr ctx ev0).
Proof.
  unfold on_mesh_event. cbn zeta. set (s := crc_recovery_gate _).
  destruct (negb (ev_is_meshcore s)).
  - destruct (replay_check _ _ _ _) as [ring [[[f p] d]|]]; cbn [snd]; intros Hin;
      repeat (destruct Hin as [Hin|Hin]; [try discriminate Hin; by injection Hin as ->|]); done.
  - cbn [snd]. intros [Hin|[]]. by injection Hin as ->.
Qed.

Lemma route_meshcore_published en ctx now effs : forall st ev,
  In (OutPublish ev) (snd (fold_left (route_meshcore en ctx now) effs st)) ->
  In (OutPublish ev) (snd st) \/
  exists pl ev0, In (McEvent ev0) effs /\ ev = crc_recovery_gate (stamp_event pl (en_sample_rate_sps en) ctx ev0).
Proof.
  induction effs as [|e effs IH]; intros st ev H; [by left|]. cbn [fold_left] in H.
  destruct (IH _ _ H) as [Hs|(pl & ev0 & Hi & He)]; [|right; exists pl, ev0; split; [by right|done]].
  destruct e as [ev1| |]; cbn [route_meshcore] in Hs.
  - destruct (on_mesh_event (fst st) (en_sample_rate_sps en) ctx now ev1) as [pl out] eqn:E. cbn [snd] in Hs.
    apply in_app_or in Hs as [Hs|Hs]; [by left|]. right. exists (fst st), ev1. split; [by left|].
    apply (on_mesh_event_published (fst st) _ _ now). by rewrite E.
  - cbn [snd] in Hs. apply in_app_or in Hs as [Hs|[Hs|[]]]; [by left|discriminate Hs].
  - cbn [snd] in Hs. apply in_app_or in Hs as [Hs|[Hs|[]]]; [by left|discriminate Hs].
Qed.

Lemma route_mesh_published en ctx now effs : forall st ev,
  In (OutPublish ev) (snd (fold_left (route_mesh en ctx now) effs st)) ->
  In (OutPublish ev) (snd st) \/
  exists pl ev0, In (EmitEvent ev0) effs /\ ev = crc_recovery_gate (stamp_event pl (en_sample_rate_sps en) ctx ev0).
Proof.
  induction effs as [|e effs IH]; intros st ev H; [by left|]. cbn [fold_left] in H.
  destruct (IH _ _ H) as [Hs|(pl & ev0 & Hi & He)]; [|right; exists pl, ev0; split; [by right|done]].
  destruct e as [| |ev1|]; cbn [route_mesh] in Hs;
    try (cbn [snd] in Hs; apply in_app_or in Hs as [Hs|[Hs|[]]]; [by left|discriminate Hs]).
  destruct (on_mesh_event (fst st) (en_sample_rate_sps en) ctx now ev1) as [pl out] eqn:E. cbn [snd] in Hs.
  apply in_app_or in Hs as [Hs|Hs]; [by left|]. right. exists (fst st), ev1. split; [by left|].
  apply (on_mesh_event_published (fst st) _ _ now). by rewrite E.
Qed.

(** The Meshtastic decoder never claims to be MeshCore. *)
Lemma base_event_not_mc frame rssi snr sf cr bw : ev_is_meshcore (base_event frame rssi snr sf cr bw) = false.
Proof. unfold base_event. case_if; [destruct (preset_of_radio sf cr bw)|]; reflexivity. Qed.

Lemma envelope_not_mc buf ev : ev_is_meshcore ev = false -> ev_is_meshcore (snd (parse_data_envelope buf ev)) = false.
Proof.
  intros Hev. unfold parse_data_envelope.
  pose proof (table_keeps data_fields (fun e => ev_is_meshcore e = false) buf (clear_envelope ev)) as H.
  destruct (pb_message _ _ _) as [o e]. cbn [snd] in H.
  replace (snd (match o with AtEnd => (negb (ev_portnum e >? 1024), e) | _ => (false, e) end)) with e
    by (by destruct o).
  apply H; [|exact Hev].
  repeat apply Forall_cons_2; try apply Forall_nil_2; cbn [snd action_keeps]; intros v st; (intros _ Hs || intros Hs); exact Hs.
Qed.

Lemma try_bucket_not_mc k ev nonce cipher bucket cand :
  ev_is_meshcore ev = false -> try_bucket evp_aes_ctr k ev nonce cipher bucket = Some cand -> ev_is_meshcore cand = false.
Proof.
  intros Hev. induction bucket as [|i t IH]; [done|]. cbn [try_bucket]. destruct (i <? 0); [done|].
  destruct (keyset_get k i) as [e|]; [|done].
  destruct (try_key evp_aes_ctr ev nonce cipher e) as [c|] eqn:E; [|done].
  intros H. apply (inj Some) in H as <-. unfold try_key in E.
  destruct (match ke_psk e with [] => Some cipher | _ => _ end) as [p|]; [|done].
  pose proof (envelope_not_mc p ev Hev) as Hp. destruct (parse_data_envelope p ev) as [[|] c0]; [|done].
  apply (inj Some) in E as <-. exact Hp.
Qed.

Lemma mesh_events_not_mc frame rssi snr sf cr bw keys cb ev :
  In (EmitEvent ev) (snd (mesh_packet_decode_with_radio evp_aes_ctr frame rssi snr sf cr bw keys cb)) ->
  ev_is_meshcore ev = false.
Proof.
  pose proof (base_event_not_mc frame rssi snr sf cr bw) as Hb. unfold mesh_packet_decode_with_radio.
  destruct (_ <? _)%nat; [done|]. cbn zeta. set (b := base_event frame rssi snr sf cr bw) in *. clearbody b.
  destruct (_ =? 0)%nat; cbn [snd].
  { destruct cb; [|done]. intros [H|[]]. injection H as <-. exact Hb. }
  destruct keys as [k|].
  - destruct (try_bucket _ _ _ _ _ _) as [cand|] eqn:E; cbn [snd app].
    + apply try_bucket_not_mc in E; [|done]. destruct cb; cbn [app];
        intros H; repeat (destruct H as [H|H]; [try discriminate H; by injection H as <-|]); done.
    + destruct cb; cbn [app]; intros H;
        repeat (destruct H as [H|H]; [try discriminate H; injection H as <-; exact Hb|]); done.
  - cbn [snd app]. destruct cb; [|done]. intros [H|[H|[]]]; [injection H as <-; exact Hb|discriminate H].
Qed.

(** The bytes behind an event were vouched for. *)
Definition vouched (en : env) (e : dedup_entry) (ev : mesh_event) : Prop :=
  let m := lm_frame (de_best_meta e) in
  (fm_has_crc m = true -> fm_payload_crc_ok m = true) /\
  (2 <= fm_crc_corrected_bits m \/ (fm_crc_corrected_bits m = 1 /\ crc_recovery_authable ev = true) ->
   en_protocol en = MESH_PROTOCOL_MESHCORE /\ authenticated verify hmac (en_channels en) (de_best_payload e)).

Lemma published_decrypted_vouched en pl e now_us now_s ev :
  bytes_ok (de_best_payload e) ->
  In (OutPublish ev) (snd (dedup_emit_locked evp_aes_ctr verify hmac aes_dec en pl e now_us now_s)) ->
  ev_decrypted ev = true -> vouched en e ev.
Proof.
  intros Hb Hin Hd. unfold vouched. cbn zeta. unfold dedup_emit_locked in Hin. destruct (en_protocol en) eqn:Ep.
  - apply route_mesh_published in Hin as [[Hin|[]]|(pl' & ev0 & Hi & ->)]; [discriminate Hin|].
    destruct (gate_spec _ _ _ _ Hd) as (G1 & _ & G2). split; [exact G1|]. rewrite gate_authable. intros Hbits. exfalso.
    specialize (G2 Hbits). unfold mesh_event_crc2bit_trusted in G2.
    by rewrite (mesh_events_not_mc _ _ _ _ _ _ _ _ _ Hi) in G2.
  - apply route_meshcore_published in Hin as [[Hin|[]]|(pl' & ev0 & Hi & ->)]; [discriminate Hin|].
    destruct (gate_spec _ _ _ _ Hd) as (G1 & _ & G2). split; [exact G1|]. rewrite gate_authable. intros Hbits. split; [done|].
    by eapply trusted_authenticated; [exact Hb|exact Hi|apply G2].
Qed.

(** C11: nothing is published as decoded content unless its bytes were
    vouched for.  For any cluster the drainer hands over, an event published
    with decrypted set had no failing CRC; and if its CRC only matched after
    a two-bit repair, or after a one-bit repair of a payload type that
    carries its own authentication, the protocol is MeshCore and the frame is
    authenticated by a configured channel's MAC or by the advert's
    signature. *)
Theorem published_content_vouched en pl e now_us now_s ev :
  bytes_ok (de_best_payload e) ->
  In (OutPublish ev) (snd (dedup_emit_locked evp_aes_ctr verify hmac aes_dec en pl e now_us now_s)) ->
  ev_decrypted ev = true ->
  let m := lm_frame (de_best_meta e) in
  (fm_has_crc m = true -> fm_payload_crc_ok m = true) /\
  (2 <= fm_crc_corrected_bits m \/ (fm_crc_corrected_bits m = 1 /\ crc_recovery_authable ev = true) ->
   en_protocol en = MESH_PROTOCOL_MESHCORE /\ authenticated verify hmac (en_channels en) (de_best_payload e)).
Proof. apply published_decrypted_vouched. Qed.

(** The correction flags of a frame without CRC are those of the previous
    frame of its decoder ([LoraLink.crc_flags_stale_without_crc]); after a
    two-bit repair every such Meshtastic frame, decrypted or not, is
    published with its content withheld. *)
Theorem stale_correction_hides_frame en pl e now_us now_s ev :
  en_protocol en = MESH_PROTOCOL_MESHTASTIC -> 2 <= fm_crc_corrected_bits (lm_frame (de_best_meta e)) ->
  In (OutPublish ev) (snd (dedup_emit_locked evp_aes_ctr verify hmac aes_dec en pl e now_us now_s)) ->
  ev_decrypted ev = false.
Proof.
  intros Ep Hbits Hin. unfold dedup_emit_locked in Hin. rewrite Ep in Hin.
  apply route_mesh_published in Hin as [[Hin|[]]|(pl' & ev0 & Hi & ->)]; [discriminate Hin|].
  apply not_true_is_false. intros Hd. destruct (gate_spec _ _ _ _ Hd) as (_ & _ & G).
  specialize (G (or_introl Hbits)). unfold mesh_event_crc2bit_trusted in G.
  by rewrite (mesh_events_not_mc _ _ _ _ _ _ _ _ _ Hi) in G.
Qed.
End Emit.

Definition witness_env : env :=
  mk_env MESH_PROTOCOL_MESHCORE None (Some toy_channels) [] 1000000 0.
Definition witness_pipeline : pipeline := mk_pipeline 0 0 0 0 [] replay_init.
Definition witness_entry : dedup_entry :=
  mk_dedup_entry true 0 8 62500 30000 0 0 (MeshCoreFacts.enc_packet toy_packet)
    (mk_meta (mk_frame_meta 8 5 62500 64 true true true true 2 0) 0 0 0 0 0) 3 1 3 3.

Lemma published_content_vouched_witness :
  authenticated (fun _ _ _ => false) toy_tag (Some toy_channels) (MeshCoreFacts.enc_packet toy_packet).
Proof.
  refine (proj2 (proj2 (published_content_vouched (fun _ _ _ => None) (fun _ _ _ => false) toy_tag
    (fun k m => Some (toy_cipher k m)) witness_env witness_pipeline witness_entry 31000 0
    (match snd (dedup_emit_locked (fun _ _ _ => None) (fun _ _ _ => false) toy_tag (fun k m => Some (toy_cipher k m))
       witness_env witness_pipeline witness_entry 31000 0) with
     | [_; OutPublish ev] => ev
     | _ => event_zero
     end) _ _ _) _)).
  - by_decide.
  - vm_compute. auto.
  - vm_compute. reflexivity.
  - left. vm_compute. discriminate.
Defined.
