(* ===== verification/PipelineRings.v ===== *)
(** The two rings the pipeline keeps across frames, against what they stand
    for: the replay ring is a FIFO of the last 2048 packet identities, and the
    SNR history is the last 288 five-minute windows. *)

From S2P Require Import Prelude CFloat FrameQueue Pipeline.

(** ** Replay ring *)

Abbreviation N := REPLAY_RING_SIZE.

Lemma ring_size_pos : 0 < N.
Proof. unfold REPLAY_RING_SIZE. lia. Qed.

Definition matches (from pid : Z) (e : replay_entry) : bool :=
  re_in_use e && (re_from e =? from)%Z && (re_packet_id e =? pid)%Z.

(** The specification: the identities seen, newest first, at most [N] of
    them.  A known one alerts once, more than ten seconds after it was first
    seen; an unknown one is remembered, and the oldest forgotten. *)
Definition spec_check (q : list replay_entry) (from pid now : Z) : list replay_entry * option (Z * Z * Z) :=
  match find (matches from pid) q with
  | Some e =>
      let delta := u64 (now - re_first_seen_us e) in
      if negb (re_alerted e) && (delta >? REPLAY_FRESH_WINDOW_S * 1000000)%Z
      then (map (fun x => if matches from pid x then x {{ re_alerted := true }} else x) q, Some (from, pid, delta))
      else (q, None)
  | None => (take N (mk_replay_entry from pid now false true :: q), None)
  end.

(** The slot of the [k]-th newest entry. *)
Definition slot_of (next k : nat) : nat := if k <? next then next - 1 - k else next + N - 1 - k.

Record replay_rep (st : replay_ring) (q : list replay_entry) : Prop := {
  rp_len : length (rr_slots st) = N;
  rp_next : rr_next_slot st < N;
  rp_size : length q <= N;
  rp_slots : forall k, k < N -> exists e, rr_slots st !! slot_of (rr_next_slot st) k = Some e /\
    match q !! k with Some x => e = x /\ re_in_use e = true | None => re_in_use e = false end;
  rp_keys : NoDup (map (fun e => (re_from e, re_packet_id e)) q);
}.

Lemma slot_of_lt next k : next < N -> k < N -> slot_of next k < N.
Proof. intros. unfold slot_of. destruct (Nat.ltb_spec k next); lia. Qed.

Lemma slot_of_inj next j k : next < N -> j < N -> k < N -> slot_of next j = slot_of next k -> j = k.
Proof. intros. unfold slot_of in *. destruct (Nat.ltb_spec j next), (Nat.ltb_spec k next); lia. Qed.

Lemma slot_of_surj next i : next < N -> i < N -> exists k, k < N /\ slot_of next k = i.
Proof.
  intros. exists (if i <? next then next - 1 - i else next + N - 1 - i). unfold slot_of.
  destruct (Nat.ltb_spec i next).
  - destruct (Nat.ltb_spec (next - 1 - i) next); lia.
  - destruct (Nat.ltb_spec (next + N - 1 - i) next); lia.
Qed.

Lemma replay_find_Some from pid l : forall i j e,
  replay_find from pid i l = Some (j, e) -> i <= j /\ l !! (j - i) = Some e /\ matches from pid e = true.
Proof.
  induction l as [|x l IH]; intros i j e; [done|]. cbn [replay_find]. fold (matches from pid x).
  destruct (matches from pid x) eqn:E.
  - intros [= <- <-]. by rewrite Nat.sub_diag.
  - intros H. destruct (IH _ _ _ H) as (H1 & H2 & H3). split; [lia|]. split; [|done].
    replace (j - i) with (S (j - S i)) by lia. done.
Qed.

Lemma replay_find_None from pid l i e : replay_find from pid i l = None -> e ∈ l -> matches from pid e = false.
Proof.
  revert i. induction l as [|x l IH]; intros i; [by rewrite elem_of_nil|]. cbn [replay_find].
  fold (matches from pid x). destruct (matches from pid x) eqn:E; [done|].
  intros H Hin. apply elem_of_cons in Hin as [->|Hin]; [done|]. by eapply IH.
Qed.

Lemma matches_unique from pid q j k x y :
  NoDup (map (fun e => (re_from e, re_packet_id e)) q) -> q !! j = Some x -> q !! k = Some y ->
  matches from pid x = true -> matches from pid y = true -> j = k.
Proof.
  intros Hn Hx Hy Mx My. unfold matches in *. zb.
  apply (NoDup_lookup _ j k (from, pid) Hn); rewrite list_lookup_fmap, ?Hx, ?Hy; cbn; congruence.
Qed.

Lemma find_lookup {A} (p : A -> bool) q e : find p q = Some e -> exists k, q !! k = Some e /\ p e = true.
Proof.
  intros H. apply find_some in H as [Hin Hp]. apply list_elem_of_In, list_elem_of_lookup in Hin as [k Hk]. by exists k.
Qed.

Lemma find_unique_key from pid q k e :
  NoDup (map (fun e => (re_from e, re_packet_id e)) q) -> q !! k = Some e -> matches from pid e = true ->
  find (matches from pid) q = Some e.
Proof.
  intros Hn Hk Hm. destruct (find (matches from pid) q) as [y|] eqn:E.
  - apply find_lookup in E as (j & Hj & Hy). assert (j = k) as -> by (by eapply matches_unique). congruence.
  - exfalso. rewrite (find_none _ _ E e) in Hm; [done|]. by apply list_elem_of_In, (list_elem_of_lookup_2 _ k).
Qed.

(** The ring finds what the specification finds. *)
Lemma find_agrees st q from pid :
  replay_rep st q ->
  match replay_find from pid 0 (rr_slots st) with
  | Some (i, e) => exists k, k < N /\ i = slot_of (rr_next_slot st) k /\ q !! k = Some e /\
                     matches from pid e = true /\ find (matches from pid) q = Some e
  | None => find (matches from pid) q = None
  end.
Proof.
  intros [H1 H2 H3 H4 H5]. destruct (replay_find from pid 0 (rr_slots st)) as [[i e]|] eqn:E.
  - apply replay_find_Some in E as (_ & Hi & Hm). rewrite Nat.sub_0_r in Hi.
    destruct (slot_of_surj (rr_next_slot st) i H2) as (k & Hk & <-); [rewrite <- H1; by eapply lookup_lt_Some|].
    destruct (H4 k Hk) as (e' & He' & Hq). assert (e' = e) as -> by congruence.
    destruct (q !! k) as [x|] eqn:Eq; [destruct Hq as [-> _]|unfold matches in Hm; by rewrite Hq in Hm].
    exists k. split_and!; try done. by eapply find_unique_key.
  - destruct (find (matches from pid) q) as [x|] eqn:Ef; [|done]. exfalso.
    apply find_lookup in Ef as (k & Hk & Hx). assert (k < N) by (apply lookup_lt_Some in Hk; lia).
    destruct (H4 k) as (e & He & Hq); [done|]. rewrite Hk in Hq. destruct Hq as [-> _].
    rewrite (replay_find_None _ _ _ _ x E) in Hx; [done|]. by eapply list_elem_of_lookup_2.
Qed.

Lemma alerted_keys from pid q :
  map (fun e => (re_from e, re_packet_id e)) (map (fun x => if matches from pid x then x {{ re_alerted := true }} else x) q) =
  map (fun e => (re_from e, re_packet_id e)) q.
Proof. rewrite map_map. apply map_ext. intros e. by destruct (matches from pid e). Qed.

Lemma alert_rep st q k e from pid :
  replay_rep st q -> k < N -> q !! k = Some e -> matches from pid e = true ->
  replay_rep (st {{ rr_slots := <[slot_of (rr_next_slot st) k := e {{ re_alerted := true }}]> (rr_slots st) }})
    (map (fun x => if matches from pid x then x {{ re_alerted := true }} else x) q).
Proof.
  intros [H1 H2 H3 H4 H5] Hk Hq Hm. split; rcbn.
  - by rewrite length_insert.
  - done.
  - by rewrite length_map.
  - intros j Hj. destruct (H4 j Hj) as (x & Hx & Hqx). rewrite list_lookup_fmap.
    destruct (decide (j = k)) as [->|Hne].
    + exists (e {{ re_alerted := true }}).
      rewrite list_lookup_insert_eq by (rewrite H1; by apply slot_of_lt). rewrite Hq. cbn [fmap option_fmap option_map].
      rewrite Hm. split; [done|]. split; [done|]. rewrite Hq in Hqx. destruct Hqx as [-> Hu]. exact Hu.
    + exists x. rewrite list_lookup_insert_ne by (intros E; by apply slot_of_inj in E). split; [done|].
      destruct (q !! j) as [y|] eqn:Ey; cbn [fmap option_fmap option_map]; [|done]. destruct Hqx as [-> Hu].
      destruct (matches from pid y) eqn:My; [|done]. exfalso. apply Hne. by eapply matches_unique.
  - by rewrite alerted_keys.
Qed.

Lemma take_cons_lookup (x : replay_entry) q k : k < N -> take N (x :: q) !! k = (x :: q) !! k.
Proof. intros. by apply lookup_take_lt. Qed.

Lemma record_rep st q from pid now :
  replay_rep st q -> find (matches from pid) q = None ->
  replay_rep (mk_replay_ring (<[rr_next_slot st := mk_replay_entry from pid now false true]> (rr_slots st))
                ((rr_next_slot st + 1) mod N))
    (take N (mk_replay_entry from pid now false true :: q)).
Proof.
  intros [H1 H2 H3 H4 H5] Hf. rewrite mod_step by done. pose proof ring_size_pos as HN.
  split; cbn [rr_slots rr_next_slot].
  - by rewrite length_insert.
  - destruct (Nat.eqb_spec (S (rr_next_slot st)) N); lia.
  - rewrite length_take. lia.
  - intros k Hk. rewrite take_cons_lookup by done. destruct k as [|k].
    + exists (mk_replay_entry from pid now false true). split; [|done].
      assert (slot_of (if S (rr_next_slot st) =? N then 0 else S (rr_next_slot st)) 0 = rr_next_slot st) as ->.
      { unfold slot_of. destruct (Nat.eqb_spec (S (rr_next_slot st)) N) as [E|E].
        - change (0 <? 0) with false. cbn iota. lia.
        - change (0 <? S (rr_next_slot st)) with true. cbn iota. lia. }
      by rewrite list_lookup_insert_eq by lia.
    + assert (slot_of (if S (rr_next_slot st) =? N then 0 else S (rr_next_slot st)) (S k) = slot_of (rr_next_slot st) k) as ->.
      { unfold slot_of. destruct (Nat.eqb_spec (S (rr_next_slot st)) N) as [E|E].
        - change (S k <? 0) with false. destruct (Nat.ltb_spec k (rr_next_slot st)); lia.
        - destruct (Nat.ltb_spec (S k) (S (rr_next_slot st))), (Nat.ltb_spec k (rr_next_slot st)); lia. }
      destruct (H4 k ltac:(lia)) as (e & He & Hq). exists e. rewrite list_lookup_insert_ne; [done|].
      unfold slot_of. destruct (Nat.ltb_spec k (rr_next_slot st)); lia.
  - rewrite <- firstn_map. apply (sublist_NoDup _ (map (fun e => (re_from e, re_packet_id e))
      (mk_replay_entry from pid now false true :: q))); [|apply sublist_take].
    cbn [map re_from re_packet_id]. constructor; [|done]. intros Hin. apply list_elem_of_In, in_map_iff in Hin as (e & He & Hin).
    pose proof Hin as Hin'. apply list_elem_of_In, list_elem_of_lookup in Hin' as [k Hk].
    destruct (H4 k) as (e' & _ & Hq); [apply lookup_lt_Some in Hk; lia|]. rewrite Hk in Hq. destruct Hq as [-> Hu].
    pose proof (find_none _ _ Hf e Hin) as Hm. unfold matches in Hm. injection He as E1 E2.
    by rewrite Hu, E1, E2, !Z.eqb_refl in Hm.
Qed.

Lemma replay_check_refines st q from pid now :
  replay_rep st q ->
  snd (replay_check st from pid now) = snd (spec_check q from pid now) /\
  replay_rep (fst (replay_check st from pid now)) (fst (spec_check q from pid now)).
Proof.
  intros H. pose proof (find_agrees st q from pid H) as F. unfold replay_check, spec_check.
  destruct (replay_find from pid 0 (rr_slots st)) as [[i e]|].
  - destruct F as (k & Hk & -> & Hq & Hm & ->). cbn zeta. destruct (_ && _); [|done]. split; [done|]. cbn [fst].
    by apply alert_rep.
  - rewrite F. split; [done|]. by apply record_rep.
Qed.

Lemma replay_init_rep : replay_rep replay_init [].
Proof.
  pose proof ring_size_pos as HN. split.
  - apply length_replicate.
  - done.
  - cbn [length]. lia.
  - intros k Hk. exists (mk_replay_entry 0 0 0 false false). split; [|done]. unfold replay_init. cbn [rr_slots rr_next_slot].
    apply lookup_replicate_2. by apply slot_of_lt.
  - constructor.
Qed.

(** A stream of packets (sender, packet id, time) through ring and
    specification. *)
Fixpoint run_replay (st : replay_ring) (evs : list (Z * Z * Z)) : list (option (Z * Z * Z)) :=
  match evs with
  | [] => []
  | (f, p, t) :: evs => let '(st, a) := replay_check st f p t in a :: run_replay st evs
  end.

Fixpoint run_spec (q : list replay_entry) (evs : list (Z * Z * Z)) : list (option (Z * Z * Z)) :=
  match evs with
  | [] => []
  | (f, p, t) :: evs => let '(q, a) := spec_check q f p t in a :: run_spec q evs
  end.

(** The replay ring refines a bounded memory of packet identities.  For
    every stream of packets the alerts raised are those of a list of the last
    2048 distinct (sender, packet id) pairs: a pair in it alerts exactly once,
    the first time it is seen again more than ten seconds after it entered
    the list, and the oldest pair is forgotten when a new one needs its
    place. *)
Theorem replay_ring_refines_memory evs : run_replay replay_init evs = run_spec [] evs.
Proof.
  pose proof replay_init_rep as H. revert H. generalize replay_init ([] : list replay_entry).
  induction evs as [|[[f p] t] evs IH]; intros st q H; [done|]. cbn [run_replay run_spec].
  destruct (replay_check_refines st q f p t H) as [E R].
  destruct (replay_check st f p t) as [st' a], (spec_check q f p t) as [q' b]. cbn [fst snd] in *. subst b.
  f_equal. by apply IH.
Qed.

(** ** SNR history *)

Abbreviation M := CHAN_SNR_HISTORY_BUCKETS.

Lemma buckets_pos : 0 < M.
Proof. unfold CHAN_SNR_HISTORY_BUCKETS. lia. Qed.

(** The cell [k] buckets before the newest. *)
Definition cell_of (head k : nat) : nat := if k <=? head then head - k else head + M - k.

(** The cells hold the windows [L - M + 1 .. L] of [H]. *)
Definition window_rep (h : snr_history) (L : Z) (H : Z -> snr_cell) : Prop :=
  length (sh_cells h) = M /\ sh_head h < M /\
  forall k, k < M -> sh_cells h !! cell_of (sh_head h) k = Some (H (L - Z.of_nat k)%Z).

Lemma cell_of_lt head k : head < M -> k < M -> cell_of head k < M.
Proof. intros. unfold cell_of. destruct (Nat.leb_spec k head); lia. Qed.

Lemma advance_step h L H :
  window_rep h L H -> H (L + 1)%Z = cell_zero ->
  window_rep (h {{ sh_head := (sh_head h + 1) mod M;
                   sh_cells := <[(sh_head h + 1) mod M := cell_zero]> (sh_cells h) }}) (L + 1) H.
Proof.
  intros (H1 & H2 & H3) Hz. rewrite mod_step by done. pose proof buckets_pos as HM.
  set (hd := if S (sh_head h) =? M then 0 else S (sh_head h)).
  assert (Hhd : hd < M) by (unfold hd; destruct (Nat.eqb_spec (S (sh_head h)) M); lia).
  split_and!; rcbn; [by rewrite length_insert|done|]. intros [|k] Hk.
  - replace (cell_of hd 0) with hd by (unfold cell_of; cbn [Nat.leb]; lia).
    rewrite list_lookup_insert_eq by lia. f_equal. rewrite <- Hz. f_equal. lia.
  - assert (E : cell_of hd (S k) = cell_of (sh_head h) k).
    { unfold cell_of, hd. destruct (Nat.eqb_spec (S (sh_head h)) M).
      - change (S k <=? 0) with false. destruct (Nat.leb_spec k (sh_head h)); lia.
      - cbn [Nat.leb]. destruct (Nat.leb_spec k (sh_head h)); lia. }
    rewrite E, list_lookup_insert_ne, H3 by (try lia; rewrite <- E; unfold cell_of; destruct (Nat.leb_spec (S k) hd); lia).
    do 2 f_equal. lia.
Qed.

Lemma snr_advance_rep n : forall h L H,
  window_rep h L H -> (forall x, (L < x)%Z -> H x = cell_zero) ->
  window_rep (snr_advance n h) (L + Z.of_nat n) H.
Proof.
  induction n as [|n IH]; intros h L H Hr Hz; [by rewrite Z.add_0_r|]. cbn [snr_advance].
  replace (L + Z.of_nat (S n))%Z with ((L + 1) + Z.of_nat n)%Z by lia.
  apply IH; [apply advance_step; [done|apply Hz; lia]|]. intros x Hx. apply Hz. lia.
Qed.

Lemma window_zero h L H :
  length (sh_cells h) = M -> sh_head h < M -> sh_cells h = replicate M cell_zero ->
  (forall k, k < M -> H (L - Z.of_nat k)%Z = cell_zero) -> window_rep h L H.
Proof.
  intros H1 H2 H3 Hz. split_and!; try done. intros k Hk. rewrite H3, Hz by done.
  apply lookup_replicate_2. by apply cell_of_lt.
Qed.

(** The samples of window [b], accumulated. *)
Definition bucket_cell (samples : list (Z * spec_float)) (b : Z) : snr_cell :=
  fold_left (fun c s => cell_add (snd s) c) (List.filter (fun s => (fst s =? b)%Z) samples) cell_zero.

Definition run_snr (samples : list (Z * spec_float)) : snr_history :=
  fold_left (fun h s => snr_history_add h (fst s) (snd s)) samples snr_history_init.

(** Wall-clock windows in order of arrival. *)
Definition in_order (samples : list (Z * spec_float)) : Prop :=
  Forall (fun s => (0 < fst s)%Z) samples /\
  forall i j a b, i < j -> samples !! i = Some a -> samples !! j = Some b -> (fst a <= fst b)%Z.

Lemma bucket_cell_snoc samples b snr x :
  bucket_cell (samples ++ [(b, snr)]) x =
  if (x =? b)%Z then cell_add snr (bucket_cell samples x) else bucket_cell samples x.
Proof.
  unfold bucket_cell. rewrite List.filter_app, fold_left_app. cbn [List.filter fst].
  rewrite (Z.eqb_sym x b). by destruct (b =? x)%Z.
Qed.

Lemma bucket_cell_future samples x :
  Forall (fun s => (fst s < x)%Z) samples -> bucket_cell samples x = cell_zero.
Proof.
  unfold bucket_cell. induction 1 as [|s t Hs _ IH]; [done|]. cbn [List.filter].
  destruct (Z.eqb_spec (fst s) x); [lia|done].
Qed.

Lemma add_rep h b snr H :
  window_rep h b H ->
  window_rep (h {{ sh_cells := alter (cell_add snr) (sh_head h) (sh_cells h) }}) b
    (fun x => if (x =? b)%Z then cell_add snr (H x) else H x).
Proof.
  intros (H1 & H2 & H3). split_and!; rcbn; [by rewrite length_alter|done|]. intros k Hk.
  destruct k as [|k].
  - assert (E : cell_of (sh_head h) 0 = sh_head h) by (unfold cell_of; cbn [Nat.leb]; lia).
    pose proof (H3 0 Hk) as H0. rewrite E in H0 |- *. rewrite list_lookup_alter_eq, H0. cbn [fmap option_fmap option_map].
    replace (b - Z.of_nat 0)%Z with b by lia. by rewrite Z.eqb_refl.
  - rewrite list_lookup_alter_ne, H3 by (done || unfold cell_of; destruct (Nat.leb_spec (S k) (sh_head h)); lia).
    by rewrite (proj2 (Z.eqb_neq _ _)) by lia.
Qed.

Lemma in_order_snoc samples b snr :
  in_order (samples ++ [(b, snr)]) ->
  in_order samples /\ (0 < b)%Z /\ Forall (fun s => (fst s <= b)%Z) samples.
Proof.
  intros [Hp Ho]. apply Forall_app in Hp as [Hp Hb]. apply Forall_cons in Hb as [Hb _]. split_and!; try done.
  - split; [done|]. intros i j x y Hij Hi Hj. apply (Ho i j); [done| |]; by apply lookup_app_l_Some.
  - apply Forall_lookup. intros i s Hi. apply (Ho i (length samples) s (b, snr)).
    + by eapply lookup_lt_Some.
    + by apply lookup_app_l_Some.
    + by apply list_lookup_middle.
Qed.

Lemma run_snr_rep samples :
  in_order samples ->
  let h := run_snr samples in
  (samples = [] /\ h = snr_history_init) \/
  (exists s, last samples = Some s /\ sh_last_bucket h = fst s /\ window_rep h (fst s) (bucket_cell samples)).
Proof.
  induction samples as [|[b snr] samples IH] using rev_ind; intros Ho; [by left|]. right.
  destruct (in_order_snoc _ _ _ Ho) as (Ho' & Hb & Hle). exists (b, snr). rewrite last_snoc. split; [done|].
  unfold run_snr. rewrite fold_left_app. fold (run_snr samples). cbn [fold_left fst snd]. unfold snr_history_add.
  assert (R : sh_last_bucket (snr_roll (run_snr samples) b) = b /\
              window_rep (snr_roll (run_snr samples) b) b (bucket_cell samples)).
  { destruct (IH Ho') as [[-> ->]|(s & Hs & HL & Hw)].
    - split; [done|]. apply window_zero; try done. apply buckets_pos.
    - assert (Hsb : (fst s <= b)%Z).
      { rewrite Forall_forall in Hle. apply Hle. apply last_Some in Hs as (l' & ->). apply elem_of_app. right. by left. }
      assert (Hf : forall x, (fst s < x)%Z -> bucket_cell samples x = cell_zero).
      { intros x Hx. apply bucket_cell_future. eapply Forall_impl; [|intros y Hy; apply (Z.le_lt_trans _ _ _ Hy Hx)].
        apply last_Some in Hs as (l' & ->). destruct s as [bs snrs]. destruct (in_order_snoc _ _ _ Ho') as (_ & _ & Hl').
        apply Forall_app_2; [done|]. apply Forall_cons_2; [done|apply Forall_nil_2]. }
      assert (Hpos : (0 < fst s)%Z).
      { apply last_Some in Hs as (l' & ->). destruct s as [bs snrs]. by destruct (in_order_snoc _ _ _ Ho') as (_ & ? & _). }
      unfold snr_roll. rewrite HL. rewrite (proj2 (Z.eqb_neq (fst s) 0)) by lia.
      destruct (Z.gtb_spec b (fst s)) as [Hgt|Hng].
      + cbn zeta. split; [done|].
        destruct (Z.geb_spec (b - fst s) (Z.of_nat M)).
        * apply window_zero; rcbn; try done; [apply buckets_pos|].
          intros k Hk. apply Hf. lia.
        * pose proof (snr_advance_rep (Z.to_nat (b - fst s)) _ _ _ Hw Hf) as Ha.
          replace (fst s + Z.of_nat (Z.to_nat (b - fst s)))%Z with b in Ha by lia. exact Ha.
      + assert (fst s = b) as <- by lia. by split. }
  destruct R as [R1 R2]. split; [done|]. destruct (add_rep _ _ snr _ R2) as (A1 & A2 & A3). split_and!; try done.
  intros k Hk. rewrite A3 by done. f_equal. symmetry. apply bucket_cell_snoc.
Qed.

(** The SNR history is a sliding window.  For samples arriving in
    wall-clock order, the 288 cells the heartbeat reports, oldest first, are
    the accumulated samples of the 288 five-minute windows ending with the
    current one: skipped windows read as empty, older ones are gone, and no
    sample is counted in another window. *)
Theorem snr_history_is_window samples s :
  in_order samples -> last samples = Some s ->
  snr_report (run_snr samples) =
  map (fun k => bucket_cell samples (fst s - Z.of_nat (M - 1) + Z.of_nat k)%Z) (seq 0 M).
Proof.
  intros Ho Hs. destruct (run_snr_rep samples Ho) as [[-> _]|(s' & Hs' & _ & H1 & H2 & H3)]; [done|].
  assert (s' = s) as -> by congruence. unfold snr_report. apply map_ext_in. intros k Hk. apply in_seq in Hk.
  pose proof buckets_pos as HM.
  assert (E : (sh_head (run_snr samples) + 1 + k) mod M = cell_of (sh_head (run_snr samples)) (M - 1 - k)).
  { rewrite mod_wrap by lia. unfold cell_of.
    destruct (Nat.ltb_spec (sh_head (run_snr samples) + 1 + k) M), (Nat.leb_spec (M - 1 - k) (sh_head (run_snr samples))); lia. }
  rewrite E. erewrite nth_lookup_Some; [|apply H3; lia]. f_equal. lia.
Qed.

Lemma snr_history_is_window_witness :
  snr_report (run_snr [(5%Z, f_zero); (5%Z, f_zero); (7%Z, f_zero)]) =
  map (fun k => bucket_cell [(5%Z, f_zero); (5%Z, f_zero); (7%Z, f_zero)] (7 - Z.of_nat (M - 1) + Z.of_nat k)%Z) (seq 0 M).
Proof.
  apply (snr_history_is_window [(5%Z, f_zero); (5%Z, f_zero); (7%Z, f_zero)] (7%Z, f_zero)); [|reflexivity].
  split; [repeat (apply Forall_cons_2; [cbn; lia|]); apply Forall_nil_2|].
  intros [|[|[|i]]] [|[|[|j]]] x y Hij Hx Hy; try lia; cbn in Hx, Hy; try done;
    injection Hx as <-; injection Hy as <-; cbn; lia.
Defined.
