(* ===== verification/IqRing.v ===== *)
(** The raw IQ ring (src/iq_ring.c): a circular buffer of samples addressed by
    their absolute index in the stream, and its refinement to the stream.

    A sample is one IQ pair, opaque here; its size in bytes only scales the
    copies.  The mutex makes each call atomic. *)

From S2P Require Import Prelude.

Definition SAMPLE_FMT_INT8 : Z := 0.
Definition SAMPLE_FMT_FLOAT : Z := 1.

Definition iq_ring_bytes_per_sample (format : Z) : nat :=
  if (format =? SAMPLE_FMT_FLOAT)%Z then 8 else 2.

Section Ring.
Context {A : Type}.

(** [iq_data] holds [capacity] samples; what malloc returned is the initial
    content. *)
Record iq_ring := mk_iq_ring {
  iq_format : Z;
  iq_capacity : nat;
  iq_data : list A;
  iq_total_written : Z;
}.

(** [fresh] is the uninitialised memory. *)
Definition iq_ring_create (capacity : nat) (format : Z) (fresh : list A) : option iq_ring :=
  if capacity =? 0 then None
  else if negb (format =? SAMPLE_FMT_INT8)%Z && negb (format =? SAMPLE_FMT_FLOAT)%Z then None
  else Some (mk_iq_ring format capacity (take capacity fresh) 0).

(** [memcpy(dst + pos, src, n)] in samples. *)
Definition copy_at (dst : list A) (pos : nat) (src : list A) : list A :=
  take pos dst ++ src ++ drop (pos + length src) dst.

Definition iq_ring_append (r : iq_ring) (samples : list A) : iq_ring * Z :=
  let nsamp := length samples in
  if nsamp =? 0 then (r, iq_total_written r)
  else
    let start_idx := iq_total_written r in
    let src_skip := if iq_capacity r <? nsamp then nsamp - iq_capacity r else 0 in
    let to_store := if iq_capacity r <? nsamp then iq_capacity r else nsamp in
    let src := drop src_skip samples in
    let store_first := u64 (start_idx + Z.of_nat src_skip) in
    let pos := Z.to_nat (store_first mod Z.of_nat (iq_capacity r)) in
    let first_chunk := if to_store <? iq_capacity r - pos then to_store else iq_capacity r - pos in
    let data := copy_at (iq_data r) pos (take first_chunk src) in
    let data := if first_chunk <? to_store
                then copy_at data 0 (take (to_store - first_chunk) (drop first_chunk src)) else data in
    (r {{ iq_data := data; iq_total_written := u64 (iq_total_written r + Z.of_nat nsamp) }}, start_idx).

Definition iq_oldest (r : iq_ring) : Z :=
  if (iq_total_written r >? Z.of_nat (iq_capacity r))%Z then iq_total_written r - Z.of_nat (iq_capacity r) else 0.

(** The samples copied out; their number is the return value. *)
Definition iq_ring_get_window (r : iq_ring) (start_sample : Z) (nsamp : nat) : list A :=
  if nsamp =? 0 then []
  else
    let total := iq_total_written r in
    let oldest := iq_oldest r in
    let end_ := u64 (start_sample + Z.of_nat nsamp) in
    let end_ := if (end_ >? total)%Z then total else end_ in
    let start_sample := if (start_sample <? oldest)%Z then oldest else start_sample in
    if (end_ <=? start_sample)%Z then []
    else
      let copy_n := Z.to_nat (end_ - start_sample) in
      let pos := Z.to_nat (start_sample mod Z.of_nat (iq_capacity r)) in
      let first_chunk := if copy_n <? iq_capacity r - pos then copy_n else iq_capacity r - pos in
      take first_chunk (drop pos (iq_data r)) ++
      (if first_chunk <? copy_n then take (copy_n - first_chunk) (iq_data r) else []).

Definition iq_ring_live_range (r : iq_ring) : Z * Z := (iq_oldest r, iq_total_written r).
Definition iq_ring_total_appended (r : iq_ring) : Z := iq_total_written r.

(** ** Refinement to the stream *)

(** The ring holds the last [capacity] samples of the stream [s], sample [i]
    at position [i mod capacity]. *)
Record iq_rep (r : iq_ring) (s : list A) : Prop := {
  iq_cap : 0 < iq_capacity r;
  iq_len : length (iq_data r) = iq_capacity r;
  iq_total : iq_total_written r = Z.of_nat (length s);
  iq_cells : forall i, i < length s -> length s <= i + iq_capacity r ->
    iq_data r !! (i mod iq_capacity r) = s !! i;
}.

Lemma copy_at_length dst pos src : pos + length src <= length dst -> length (copy_at dst pos src) = length dst.
Proof. intros. unfold copy_at. rewrite !length_app, length_take, length_drop. lia. Qed.

Lemma copy_at_lookup dst pos src i :
  pos + length src <= length dst ->
  copy_at dst pos src !! i = if (pos <=? i) && (i <? pos + length src) then src !! (i - pos) else dst !! i.
Proof.
  intros H. unfold copy_at. destruct (Nat.leb_spec pos i) as [Hp|Hp]; cbn [andb].
  - rewrite lookup_app_r by (rewrite length_take; lia). rewrite length_take, Nat.min_l by lia.
    destruct (Nat.ltb_spec i (pos + length src)).
    + by rewrite lookup_app_l by lia.
    + rewrite lookup_app_r, lookup_drop by lia. f_equal. lia.
  - rewrite lookup_app_l, lookup_take_lt by (rewrite ?length_take; lia). done.
Qed.

(** Both copies of an append: the [n] samples of [src] land at positions
    [pos .. pos + n) modulo the capacity. *)
Definition wrap_copy (data : list A) (cap pos : nat) (src : list A) : list A :=
  let n := length src in
  let first_chunk := if n <? cap - pos then n else cap - pos in
  let data := copy_at data pos (take first_chunk src) in
  if first_chunk <? n then copy_at data 0 (take (n - first_chunk) (drop first_chunk src)) else data.

Lemma wrap_copy_spec data cap pos src :
  length data = cap -> pos < cap -> length src <= cap ->
  length (wrap_copy data cap pos src) = cap /\
  forall i, i < cap ->
    wrap_copy data cap pos src !! i =
    (if (pos <=? i) && (i <? pos + length src) then src !! (i - pos)
     else if (i + cap <? pos + length src) then src !! (i + cap - pos) else data !! i).
Proof.
  intros Hd Hp Hs. unfold wrap_copy. cbn zeta. destruct (Nat.ltb_spec (length src) (cap - pos)) as [Hlt|Hge].
  - rewrite Nat.ltb_irrefl, take_ge by done. split; [rewrite copy_at_length; lia|]. intros i Hi.
    rewrite copy_at_lookup by lia. destruct (_ && _); [done|].
    destruct (Nat.ltb_spec (i + cap) (pos + length src)); [lia|done].
  - assert (L1 : length (take (cap - pos) src) = cap - pos) by (rewrite length_take; lia).
    assert (L2 : length (copy_at data pos (take (cap - pos) src)) = cap) by (rewrite copy_at_length; lia).
    assert (L3 : length (take (length src - (cap - pos)) (drop (cap - pos) src)) = length src - (cap - pos))
      by (rewrite length_take, length_drop; lia).
    assert (C : forall i, copy_at data pos (take (cap - pos) src) !! i =
      if (pos <=? i) && (i <? cap) then src !! (i - pos) else data !! i).
    { intros i. rewrite copy_at_lookup by lia. rewrite L1. replace (pos + (cap - pos)) with cap by lia.
      destruct (Nat.leb_spec pos i), (Nat.ltb_spec i cap); cbn [andb]; try done. by rewrite lookup_take_lt by lia. }
    destruct (Nat.ltb_spec (cap - pos) (length src)) as [Hw|Hn].
    + split; [rewrite copy_at_length; lia|]. intros i Hi. rewrite copy_at_lookup, L3, C by lia.
      rewrite Nat.sub_0_r, Nat.add_0_l. change (0 <=? i) with true. cbn [andb].
      destruct (Nat.ltb_spec i (length src - (cap - pos))) as [Ha|Ha].
      * rewrite lookup_take_lt, lookup_drop by lia.
        destruct (Nat.leb_spec pos i); [lia|]. cbn [andb].
        destruct (Nat.ltb_spec (i + cap) (pos + length src)); [|lia]. f_equal. lia.
      * destruct (Nat.ltb_spec (i + cap) (pos + length src)); [lia|].
        destruct (Nat.leb_spec pos i), (Nat.ltb_spec i cap), (Nat.ltb_spec i (pos + length src)); cbn [andb]; (done || lia).
    + split; [done|]. intros i Hi. rewrite C.
      destruct (Nat.ltb_spec (i + cap) (pos + length src)); [lia|].
      destruct (Nat.leb_spec pos i), (Nat.ltb_spec i cap), (Nat.ltb_spec i (pos + length src)); cbn [andb]; (done || lia).
Qed.

Lemma mod_shift cap t j : 0 < cap -> j < cap ->
  (t + j) mod cap = if t mod cap + j <? cap then t mod cap + j else t mod cap + j - cap.
Proof.
  intros Hc Hj. pose proof (Nat.div_mod_eq t cap). pose proof (Nat.mod_upper_bound t cap ltac:(lia)).
  destruct (Nat.ltb_spec (t mod cap + j) cap); symmetry;
    [apply (Nat.mod_unique _ _ (t / cap))|apply (Nat.mod_unique _ _ (t / cap + 1))]; lia.
Qed.

Lemma mod_back cap t d : 0 < cap -> d <= cap -> d <= t -> 0 < d ->
  (t - d) mod cap = if d <=? t mod cap then t mod cap - d else t mod cap + cap - d.
Proof.
  intros Hc Hd Ht H0. pose proof (Nat.div_mod_eq t cap). pose proof (Nat.mod_upper_bound t cap ltac:(lia)).
  destruct (Nat.leb_spec d (t mod cap)); symmetry.
  - apply (Nat.mod_unique _ _ (t / cap)); lia.
  - destruct (t / cap) as [|q]; [lia|]. apply (Nat.mod_unique _ _ q); lia.
Qed.

Lemma to_nat_mod a cap : Z.to_nat (Z.of_nat a mod Z.of_nat cap) = a mod cap.
Proof. by rewrite <- Nat2Z.inj_mod, Nat2Z.id. Qed.

(** The samples an append stores, and where. *)
Lemma append_alt r s samples :
  iq_rep r s -> samples <> [] -> (Z.of_nat (length s + length samples) < 2 ^ 64)%Z ->
  let skip := length samples - iq_capacity r in
  iq_ring_append r samples =
  (r {{ iq_data := wrap_copy (iq_data r) (iq_capacity r) ((length s + skip) mod iq_capacity r) (drop skip samples);
        iq_total_written := Z.of_nat (length s + length samples) }}, Z.of_nat (length s)).
Proof.
  intros [H1 H2 H3 H4] Hn Hb skip. unfold iq_ring_append.
  destruct (Nat.eqb_spec (length samples) 0) as [E|_]; [by destruct samples|]. cbn zeta. rewrite H3.
  replace (if iq_capacity r <? length samples then length samples - iq_capacity r else 0) with skip
    by (unfold skip; destruct (Nat.ltb_spec (iq_capacity r) (length samples)); lia).
  replace (if iq_capacity r <? length samples then iq_capacity r else length samples) with (length (drop skip samples))
    by (rewrite length_drop; unfold skip; destruct (Nat.ltb_spec (iq_capacity r) (length samples)); lia).
  rewrite <- !Nat2Z.inj_add. unfold u64. rewrite !wrap_small by (unfold skip; lia). rewrite to_nat_mod. reflexivity.
Qed.

Lemma append_rep r s samples :
  iq_rep r s -> (Z.of_nat (length s + length samples) < 2 ^ 64)%Z ->
  iq_rep (fst (iq_ring_append r samples)) (s ++ samples) /\
  snd (iq_ring_append r samples) = Z.of_nat (length s).
Proof.
  intros Hr Hb. destruct (decide (samples = [])) as [->|Hn].
  { unfold iq_ring_append. cbn [length Nat.eqb fst snd]. rewrite app_nil_r. split; [done|]. apply (iq_total _ _ Hr). }
  rewrite (append_alt r s samples Hr Hn Hb). cbn zeta. set (skip := length samples - iq_capacity r). split; [|done].
  destruct Hr as [H1 H2 H3 H4]. cbn [fst].
  set (cap := iq_capacity r) in *. set (src := drop skip samples).
  assert (Ls : length src = length samples - skip) by (unfold src; by rewrite length_drop).
  assert (Hsrc : length src <= cap) by (unfold skip in *; lia).
  pose proof (Nat.mod_upper_bound (length s + skip) cap ltac:(lia)) as Hpos.
  destruct (wrap_copy_spec (iq_data r) cap ((length s + skip) mod cap) src H2 Hpos Hsrc) as [W1 W2].
  split; rcbn; try done; [by rewrite length_app|].
  intros i Hi Hw. rewrite length_app in Hi, Hw. fold cap. fold cap in Hw.
  rewrite W2 by (apply Nat.mod_upper_bound; lia).
  destruct (decide (length s + skip <= i)) as [Hge|Hlt].
  - assert (Ei : i = (length s + skip) + (i - (length s + skip))) by lia.
    assert (Hj : i - (length s + skip) < length src) by lia.
    rewrite lookup_app_r by lia.
    replace (samples !! (i - length s)) with (src !! (i - (length s + skip)))
      by (unfold src; rewrite lookup_drop; f_equal; lia).
    set (j := i - (length s + skip)) in *. rewrite Ei, (mod_shift cap (length s + skip) j) by lia. clear Ei.
    destruct (Nat.ltb_spec ((length s + skip) mod cap + j) cap).
    + destruct (Nat.leb_spec ((length s + skip) mod cap) ((length s + skip) mod cap + j)); [|lia].
      destruct (Nat.ltb_spec ((length s + skip) mod cap + j) ((length s + skip) mod cap + length src)); [|lia].
      cbn [andb]. f_equal. lia.
    + destruct (Nat.leb_spec ((length s + skip) mod cap) ((length s + skip) mod cap + j - cap)); [lia|]. cbn [andb].
      destruct (Nat.ltb_spec ((length s + skip) mod cap + j - cap + cap) ((length s + skip) mod cap + length src)); [|lia].
      f_equal. lia.
  - assert (skip = 0) as E0 by (unfold skip in *; lia). assert (Hsm : length src = length samples) by lia.
    rewrite E0, Nat.add_0_r in *. rewrite lookup_app_l by lia. rewrite <- H4 by lia.
    set (d := length s - i). replace i with (length s - d) by lia. rewrite (mod_back cap (length s) d) by lia.
    destruct (Nat.leb_spec d (length s mod cap)).
    + destruct (Nat.leb_spec (length s mod cap) (length s mod cap - d)); [lia|]. cbn [andb].
      destruct (Nat.ltb_spec (length s mod cap - d + cap) (length s mod cap + length src)); [lia|done].
    + destruct (Nat.ltb_spec (length s mod cap + cap - d) (length s mod cap + length src)); [lia|]. rewrite andb_false_r.
      destruct (Nat.ltb_spec (length s mod cap + cap - d + cap) (length s mod cap + length src)); [lia|done].
Qed.

Lemma create_rep cap format fresh r :
  iq_ring_create cap format fresh = Some r -> cap <= length fresh -> iq_rep r [].
Proof.
  unfold iq_ring_create. destruct (Nat.eqb_spec cap 0); [done|]. destruct (_ && _); [done|]. intros H Hl.
  apply (inj Some) in H as <-. split; cbn; try lia. rewrite length_take. lia.
Qed.

Lemma window_lookup r s start n j :
  iq_rep r s -> start + n <= length s -> length s <= start + iq_capacity r -> j < n ->
  let pos := start mod iq_capacity r in
  let fc := if n <? iq_capacity r - pos then n else iq_capacity r - pos in
  (take fc (drop pos (iq_data r)) ++ (if fc <? n then take (n - fc) (iq_data r) else [])) !! j = s !! (start + j).
Proof.
  intros [H1 H2 H3 H4] Hn Hs Hj. cbn zeta. set (cap := iq_capacity r) in *.
  pose proof (Nat.mod_upper_bound start cap ltac:(lia)) as Hp. set (pos := start mod cap) in *.
  rewrite <- H4 by lia. rewrite (mod_shift cap start j) by lia. fold pos.
  destruct (Nat.ltb_spec n (cap - pos)).
  - rewrite Nat.ltb_irrefl, app_nil_r, lookup_take_lt, lookup_drop by done.
    destruct (Nat.ltb_spec (pos + j) cap); [done|lia].
  - assert (L : length (take (cap - pos) (drop pos (iq_data r))) = cap - pos) by (rewrite length_take, length_drop; lia).
    destruct (Nat.ltb_spec (pos + j) cap).
    + rewrite lookup_app_l, lookup_take_lt, lookup_drop by lia. done.
    + rewrite lookup_app_r by lia. rewrite L. destruct (Nat.ltb_spec (cap - pos) n); [|lia].
      rewrite lookup_take_lt by lia. f_equal. lia.
Qed.

Lemma window_length r start n :
  length (iq_data r) = iq_capacity r -> n <= iq_capacity r -> start < iq_capacity r ->
  let fc := if n <? iq_capacity r - start then n else iq_capacity r - start in
  length (take fc (drop start (iq_data r)) ++ (if fc <? n then take (n - fc) (iq_data r) else [])) = n.
Proof.
  intros H1 H2 H3. cbn zeta. rewrite length_app, length_take, length_drop.
  destruct (Nat.ltb_spec n (iq_capacity r - start)).
  - rewrite Nat.ltb_irrefl. cbn [length]. lia.
  - destruct (Nat.ltb_spec (iq_capacity r - start) n); [rewrite length_take|cbn [length]]; lia.
Qed.

Lemma oldest_rep r s : iq_rep r s -> iq_oldest r = Z.of_nat (length s - iq_capacity r).
Proof. intros [H1 H2 H3 H4]. unfold iq_oldest. rewrite H3. destruct (Z.gtb_spec (Z.of_nat (length s)) (Z.of_nat (iq_capacity r))); lia. Qed.

Lemma get_window_spec r s start n :
  iq_rep r s -> (Z.of_nat (length s) < 2 ^ 64)%Z -> (Z.of_nat (start + n) < 2 ^ 64)%Z ->
  let first := Nat.max start (length s - iq_capacity r) in
  let last := Nat.min (start + n) (length s) in
  iq_ring_get_window r (Z.of_nat start) n = take (last - first) (drop first s).
Proof.
  intros Hr Hs Hn first last. unfold iq_ring_get_window. destruct (Nat.eqb_spec n 0) as [->|Hn0].
  { replace (last - first) with 0 by lia. done. }
  cbn zeta. rewrite (oldest_rep r s Hr), (iq_total _ _ Hr), <- Nat2Z.inj_add. unfold u64. rewrite wrap_small by lia.
  replace (if (Z.of_nat (start + n) >? Z.of_nat (length s))%Z then Z.of_nat (length s) else Z.of_nat (start + n))
    with (Z.of_nat last) by (destruct (Z.gtb_spec (Z.of_nat (start + n)) (Z.of_nat (length s))); lia).
  replace (if (Z.of_nat start <? Z.of_nat (length s - iq_capacity r))%Z then Z.of_nat (length s - iq_capacity r) else Z.of_nat start)
    with (Z.of_nat first) by (destruct (Z.ltb_spec (Z.of_nat start) (Z.of_nat (length s - iq_capacity r))); lia).
  destruct (Z.leb_spec (Z.of_nat last) (Z.of_nat first)).
  { replace (last - first) with 0 by lia. done. }
  replace (Z.to_nat (Z.of_nat last - Z.of_nat first)) with (last - first) by lia. rewrite to_nat_mod.
  pose proof (iq_cap _ _ Hr). pose proof (iq_len _ _ Hr).
  pose proof (Nat.mod_upper_bound first (iq_capacity r) ltac:(lia)) as Hm.
  pose proof (window_length r (first mod iq_capacity r) (last - first) ltac:(done) ltac:(lia) Hm) as Hl.
  apply list_eq. intros j. destruct (decide (j < last - first)) as [Hj|Hj].
  - rewrite (window_lookup r s first (last - first) j) by (done || lia).
    by rewrite lookup_take_lt, lookup_drop by done.
  - transitivity (@None A); [|symmetry]; apply lookup_ge_None_2; [|rewrite length_take; lia].
    cbn zeta in Hl. rewrite Hl. lia.
Qed.

(** The samples appended so far. *)
Definition iq_feed (r : iq_ring) (batches : list (list A)) : iq_ring :=
  fold_left (fun r b => fst (iq_ring_append r b)) batches r.

Lemma feed_rep batches : forall r s,
  iq_rep r s -> (Z.of_nat (length (s ++ concat batches)) < 2 ^ 64)%Z -> iq_rep (iq_feed r batches) (s ++ concat batches).
Proof.
  induction batches as [|b bs IH]; intros r s Hr Hl; cbn [concat iq_feed fold_left] in *; [by rewrite app_nil_r|].
  rewrite app_assoc in *. apply IH; [|done]. apply append_rep; [done|]. rewrite !length_app in Hl. lia.
Qed.

(** The ring is the recent past of the sample stream.  Whatever batches
    were appended, of any size, a window read returns exactly the samples of
    the stream with absolute indices [start, start + n), less those that have
    left the last [capacity] samples and those not yet appended; the index a
    further append returns is the absolute index of its first sample.  The
    stream stays below 2^64 samples. *)
Theorem iq_ring_is_stream_window cap format fresh r batches start n :
  iq_ring_create cap format fresh = Some r -> cap <= length fresh ->
  let s := concat batches in
  (Z.of_nat (length s) < 2 ^ 64)%Z -> (Z.of_nat (start + n) < 2 ^ 64)%Z ->
  let first := Nat.max start (length s - cap) in
  let last := Nat.min (start + n) (length s) in
  iq_ring_get_window (iq_feed r batches) (Z.of_nat start) n = take (last - first) (drop first s) /\
  iq_ring_live_range (iq_feed r batches) = (Z.of_nat (length s - cap), Z.of_nat (length s)) /\
  forall batch, snd (iq_ring_append (iq_feed r batches) batch) = Z.of_nat (length s).
Proof.
  intros Hc Hf s Hs Hn. cbn zeta. pose proof (feed_rep batches r [] (create_rep _ _ _ _ Hc Hf) Hs) as Hr.
  rewrite app_nil_l in Hr. fold s in Hr.
  assert (Hcap : iq_capacity (iq_feed r batches) = cap).
  { assert (G : forall bs r0, iq_capacity (iq_feed r0 bs) = iq_capacity r0).
    { induction bs as [|b bs IH]; intros r0; [done|]. cbn [iq_feed fold_left]. unfold iq_feed in IH. rewrite IH.
      unfold iq_ring_append. destruct (length b =? 0); done. }
    rewrite G. unfold iq_ring_create in Hc. destruct (cap =? 0); [done|]. destruct (_ && _); [done|].
    by apply (inj Some) in Hc as <-. }
  rewrite (get_window_spec _ s) by done. unfold iq_ring_live_range.
  rewrite (oldest_rep _ _ Hr), (iq_total _ _ Hr), Hcap. split_and!; [done..|].
  intros b. unfold iq_ring_append. rewrite (iq_total _ _ Hr). by destruct (length b =? 0).
Qed.
End Ring.

Lemma iq_ring_is_stream_window_witness :
  iq_ring_get_window (iq_feed (mk_iq_ring 0 4 [0; 0; 0; 0] 0) [[1; 2; 3]; [4; 5]; [6; 7; 8; 9; 10; 11]]) 8 2 = [9; 10].
Proof.
  apply (iq_ring_is_stream_window 4 0 [0; 0; 0; 0] (mk_iq_ring 0 4 [0; 0; 0; 0] 0)
    [[1; 2; 3]; [4; 5]; [6; 7; 8; 9; 10; 11]] 8 2); [reflexivity|cbn; lia|cbn; lia|cbn; lia].
Defined.
