(* ===== verification/Json.v ===== *)
(** JSON as the outputs of src/jw.c are read: values, the compact text the
    writer produces for them, and a reference parser (RFC 8259 over bytes,
    any whitespace), with the round trip between them.

    This is the abstract side of the serialisers; no line of the program is
    modelled here except the escaping of jw_str_escaped ([esc]). *)

From Stdlib Require Import String.
From S2P Require Import Prelude CString CFloat.

Local Open Scope Z_scope.

(** A number is kept as its text. *)
#[warnings="-register-all"]
Inductive json :=
| JStr (s : list Z)
| JNum (t : list Z)
| JBool (b : bool)
| JNull
| JArr (l : list json)
| JObj (l : list (list Z * json)).

(** ** Text *)

Definition hex_char (n : Z) : Z := if n <? 10 then 48 + n else 97 + (n - 10).

(** One character of a string literal. *)
Definition esc (c : Z) : list Z :=
  if (c =? 34) || (c =? 92) then [92; c]
  else if c =? 10 then [92; 110]
  else if c =? 13 then [92; 114]
  else if c =? 9 then [92; 116]
  else if c <? 32 then [92; 117; 48; 48; hex_char (c / 16); hex_char (c mod 16)]
  else [c].

Definition quote (s : list Z) : list Z := 34 :: flat_map esc s ++ [34].

Fixpoint commas (l : list (list Z)) : list Z :=
  match l with
  | [] => []
  | [x] => x
  | x :: t => x ++ 44 :: commas t
  end.

Fixpoint print (v : json) : list Z :=
  match v with
  | JStr s => quote s
  | JNum t => t
  | JBool b => if b then str "true" else str "false"
  | JNull => str "null"
  | JArr l => 91 :: commas (map print l) ++ [93]
  | JObj l => 123 :: commas (map (fun '(n, v) => quote n ++ 58 :: print v) l) ++ [125]
  end.

(** ** Parser *)

Definition is_ws (c : Z) : bool := (c =? 32) || (c =? 9) || (c =? 10) || (c =? 13).
Abbreviation skip_ws := (skip_while is_ws).

Definition hex_val (c : Z) : option Z :=
  if is_digit c then Some (c - 48)
  else if (97 <=? c) && (c <=? 102) then Some (c - 87)
  else if (65 <=? c) && (c <=? 70) then Some (c - 55)
  else None.

(** The UTF-8 bytes of a code point below 0x10000. *)
Definition utf8 (u : Z) : list Z :=
  if u <? 128 then [u]
  else if u <? 2048 then [192 + u / 64; 128 + u mod 64]
  else [224 + u / 4096; 128 + u / 64 mod 64; 128 + u mod 64].

Definition unescape (e : Z) : option Z :=
  if (e =? 34) || (e =? 92) || (e =? 47) then Some e
  else if e =? 98 then Some 8
  else if e =? 102 then Some 12
  else if e =? 110 then Some 10
  else if e =? 114 then Some 13
  else if e =? 116 then Some 9
  else None.

Definition prepend (p : list Z) (r : option (list Z * list Z)) : option (list Z * list Z) :=
  match r with Some (s, t) => Some (p ++ s, t) | None => None end.

(** After the opening quote. *)
Fixpoint parse_str (s : list Z) : option (list Z * list Z) :=
  match s with
  | [] => None
  | c :: t =>
      if c =? 34 then Some ([], t)
      else if c =? 92 then
        match t with
        | [] => None
        | e :: u =>
            if e =? 117 then
              match u with
              | h1 :: h2 :: h3 :: h4 :: w =>
                  match hex_val h1, hex_val h2, hex_val h3, hex_val h4 with
                  | Some a, Some b, Some c, Some d =>
                      prepend (utf8 (((a * 16 + b) * 16 + c) * 16 + d)) (parse_str w)
                  | _, _, _, _ => None
                  end
              | _ => None
              end
            else match unescape e with
                 | Some b => prepend [b] (parse_str u)
                 | None => None
                 end
        end
      else if c <? 32 then None
      else prepend [c] (parse_str t)
  end.

Abbreviation skip_digits := (skip_while is_digit).

Definition exp_ok (t : list Z) : bool :=
  match t with
  | [] => true
  | c :: u =>
      ((c =? 101) || (c =? 69)) &&
      let u := match u with s :: w => if (s =? 43) || (s =? 45) then w else u | [] => u end in
      match u with
      | [] => false
      | d :: _ => is_digit d && match skip_digits u with [] => true | _ => false end
      end
  end.

Definition frac_ok (t : list Z) : bool :=
  match t with
  | c :: u => if c =? 46 then match u with
                              | d :: _ => is_digit d && exp_ok (skip_digits u)
                              | [] => false
                              end
              else exp_ok t
  | [] => true
  end.

Definition unsigned_ok (t : list Z) : bool :=
  match t with
  | [] => false
  | c :: u => if c =? 48 then frac_ok u else is_digit c && frac_ok (skip_digits u)
  end.

(** The number grammar. *)
Definition num_ok (t : list Z) : bool :=
  match t with
  | c :: u => if c =? 45 then unsigned_ok u else unsigned_ok t
  | [] => false
  end.

Definition is_numch (c : Z) : bool :=
  is_digit c || (c =? 45) || (c =? 43) || (c =? 46) || (c =? 101) || (c =? 69).

Fixpoint span (p : Z -> bool) (s : list Z) : list Z * list Z :=
  match s with
  | [] => ([], [])
  | c :: t => if p c then let '(a, b) := span p t in (c :: a, b) else ([], s)
  end.

Fixpoint strip (p s : list Z) : option (list Z) :=
  match p, s with
  | [], _ => Some s
  | a :: p, b :: s => if a =? b then strip p s else None
  | _, [] => None
  end.

Definition parse_atom (s : list Z) : option (json * list Z) :=
  match strip (str "true") s, strip (str "false") s, strip (str "null") s with
  | Some r, _, _ => Some (JBool true, r)
  | _, Some r, _ => Some (JBool false, r)
  | _, _, Some r => Some (JNull, r)
  | None, None, None =>
      let '(t, r) := span is_numch s in if num_ok t then Some (JNum t, r) else None
  end.

(** The items of an array or object after its bracket, up to [close]; [item]
    parses one.  Each round consumes a character, so [n] is their number. *)
Fixpoint parse_items {A} (item : list Z -> option (A * list Z)) (close : Z) (n : nat) (s : list Z)
  : option (list A * list Z) :=
  match n with
  | O => None
  | S n =>
      match item (skip_ws s) with
      | None => None
      | Some (x, r) =>
          match skip_ws r with
          | [] => None
          | c :: t =>
              if c =? close then Some ([x], t)
              else if c =? 44 then match parse_items item close n t with
                                   | Some (l, r) => Some (x :: l, r)
                                   | None => None
                                   end
              else None
          end
      end
  end.

Definition parse_seq {A} (item : list Z -> option (A * list Z)) (close : Z) (s : list Z)
  : option (list A * list Z) :=
  match skip_ws s with
  | [] => None
  | c :: t => if c =? close then Some ([], t) else parse_items item close (S (length s)) s
  end.

Definition parse_member (value : list Z -> option (json * list Z)) (s : list Z)
  : option ((list Z * json) * list Z) :=
  match s with
  | q :: t =>
      if q =? 34 then
        match parse_str t with
        | Some (n, r) =>
            match skip_ws r with
            | c :: u => if c =? 58 then match value (skip_ws u) with
                                        | Some (v, r) => Some ((n, v), r)
                                        | None => None
                                        end
                        else None
            | [] => None
            end
        | None => None
        end
      else None
  | [] => None
  end.

(** [fuel] bounds the nesting. *)
Fixpoint parse_value (fuel : nat) (s : list Z) : option (json * list Z) :=
  match fuel with
  | O => None
  | S k =>
      match s with
      | [] => None
      | c :: t =>
          if c =? 34 then match parse_str t with Some (s, r) => Some (JStr s, r) | None => None end
          else if c =? 91 then
            match parse_seq (parse_value k) 93 t with Some (l, r) => Some (JArr l, r) | None => None end
          else if c =? 123 then
            match parse_seq (parse_member (parse_value k)) 125 t with
            | Some (l, r) => Some (JObj l, r) | None => None end
          else parse_atom s
      end
  end.

(** A document: one value and nothing but whitespace after it. *)
Definition json_parse (s : list Z) : option json :=
  match parse_value (S (length s)) (skip_ws s) with
  | Some (v, r) => match skip_ws r with [] => Some v | _ => None end
  | None => None
  end.

(** ** Round trip *)

(** Strings and names hold bytes, numbers follow the grammar. *)
Definition bytes_okb (s : list Z) : bool := forallb (fun c => (0 <=? c) && (c <? 256)) s.
Definition num_text (t : list Z) : bool := forallb is_numch t && num_ok t.

Fixpoint json_ok (v : json) : bool :=
  match v with
  | JStr s => bytes_okb s
  | JNum t => num_text t
  | JBool _ | JNull => true
  | JArr l => forallb json_ok l
  | JObj l => forallb (fun '(n, v) => bytes_okb n && json_ok v) l
  end.

Fixpoint depth (v : json) : nat :=
  match v with
  | JArr l => S (list_max (map depth l))
  | JObj l => S (list_max (map (fun '(_, v) => depth v) l))
  | _ => O
  end.

(** What may follow a value without extending it. *)
Definition delim (r : list Z) : Prop := match r with [] => True | c :: _ => is_numch c = false end.

Lemma hex_val_char n : 0 <= n < 16 -> hex_val (hex_char n) = Some n.
Proof.
  intros H. unfold hex_char, hex_val, is_digit. destruct (Z.ltb_spec n 10).
  - destruct (Z.leb_spec 48 (48 + n)), (Z.leb_spec (48 + n) 57); try lia. cbn [andb]. f_equal. lia.
  - destruct (Z.leb_spec 48 (97 + (n - 10))), (Z.leb_spec (97 + (n - 10)) 57); try lia. cbn [andb].
    destruct (Z.leb_spec 97 (97 + (n - 10))), (Z.leb_spec (97 + (n - 10)) 102); try lia. cbn [andb]. f_equal. lia.
Qed.

Lemma parse_esc c t : is_byte c -> parse_str (esc c ++ t) = prepend [c] (parse_str t).
Proof.
  intros Hc. unfold is_byte in Hc. unfold esc.
  destruct (Z.eqb_spec c 34) as [->|H1]; [reflexivity|]. destruct (Z.eqb_spec c 92) as [->|H2]; [reflexivity|].
  cbn [orb]. destruct (Z.eqb_spec c 10) as [->|H3]; [reflexivity|]. destruct (Z.eqb_spec c 13) as [->|H4]; [reflexivity|].
  destruct (Z.eqb_spec c 9) as [->|H5]; [reflexivity|]. destruct (Z.ltb_spec c 32) as [H6|H6].
  - pose proof (Z.div_mod c 16). pose proof (Z.mod_pos_bound c 16).
    assert (E : parse_str ([92; 117; 48; 48; hex_char (c / 16); hex_char (c mod 16)] ++ t) =
      match hex_val (hex_char (c / 16)), hex_val (hex_char (c mod 16)) with
      | Some a, Some b => prepend (utf8 (a * 16 + b)) (parse_str t)
      | _, _ => None
      end).
    { cbn [app parse_str]. change (92 =? 34) with false. change (92 =? 92) with true. change (117 =? 117) with true.
      change (hex_val 48) with (Some 0). cbn iota beta.
      destruct (hex_val (hex_char (c / 16))), (hex_val (hex_char (c mod 16))); try done. }
    rewrite E, !hex_val_char by lia. unfold utf8. destruct (Z.ltb_spec (c / 16 * 16 + c mod 16) 128); [|lia].
    f_equal. f_equal. lia.
  - cbn [app parse_str]. destruct (Z.eqb_spec c 34); [done|]. destruct (Z.eqb_spec c 92); [done|].
    destruct (Z.ltb_spec c 32); [lia|]. done.
Qed.

Lemma parse_quoted s r : bytes_ok s -> parse_str (flat_map esc s ++ 34 :: r) = Some (s, r).
Proof.
  induction 1 as [|c s Hc _ IH]; [reflexivity|]. cbn [flat_map]. rewrite <- app_assoc, parse_esc by done.
  by rewrite IH.
Qed.

Lemma bytes_okb_ok s : bytes_okb s = true -> bytes_ok s.
Proof.
  unfold bytes_okb. rewrite forallb_forall. intros H. apply List.Forall_forall. intros c Hc. specialize (H c Hc).
  zb. unfold is_byte. lia.
Qed.

Lemma span_all p t r :
  forallb p t = true -> match r with [] => True | c :: _ => p c = false end -> span p (t ++ r) = (t, r).
Proof.
  intros Ht Hr. induction t as [|c t IH].
  - destruct r as [|c r]; [done|]. cbn. by rewrite Hr.
  - cbn [forallb] in Ht. apply andb_prop in Ht as [Hc Ht]. cbn [app span]. by rewrite Hc, IH.
Qed.

(** The characters a number can start with. *)
Lemma num_ok_head t : num_ok t = true -> exists c u, t = c :: u /\ (c = 45 \/ is_digit c = true).
Proof.
  destruct t as [|c u]; [done|]. intros H. exists c, u. split; [done|]. unfold num_ok in H.
  destruct (Z.eqb_spec c 45); [by left|right]. cbn [unsigned_ok] in H. destruct (Z.eqb_spec c 48) as [->|]; [done|].
  by apply andb_prop in H as [H _].
Qed.

Lemma numhead_range c : (c = 45 \/ is_digit c = true) -> 45 <= c <= 57 /\ c <> 47.
Proof. unfold is_digit. intros [->|H]; [lia|]. zb. lia. Qed.

Lemma parse_number k t r : num_text t = true -> delim r -> parse_value (S k) (t ++ r) = Some (JNum t, r).
Proof.
  intros H Hr. apply andb_prop in H as [Hc Hn]. destruct (num_ok_head t Hn) as (c & u & -> & Hh).
  apply numhead_range in Hh. cbn [app parse_value].
  destruct (Z.eqb_spec c 34); [lia|]. destruct (Z.eqb_spec c 91); [lia|]. destruct (Z.eqb_spec c 123); [lia|].
  unfold parse_atom. change (str "true") with [116; 114; 117; 101]. change (str "false") with [102; 97; 108; 115; 101].
  change (str "null") with [110; 117; 108; 108]. cbn [strip].
  destruct (Z.eqb_spec 116 c); [lia|]. destruct (Z.eqb_spec 102 c); [lia|]. destruct (Z.eqb_spec 110 c); [lia|].
  change (c :: u ++ r) with ((c :: u) ++ r). rewrite span_all by done. by rewrite Hn.
Qed.

(** The first character of a value. *)
Lemma print_head v : json_ok v = true ->
  exists c t, print v = c :: t /\ is_ws c = false /\ c <> 93 /\ c <> 125.
Proof.
  destruct v as [s|t|[]| |l|l]; cbn [json_ok print]; intros H; try (eexists _, _; split; [reflexivity|]; done).
  apply andb_prop in H as [_ H]. destruct (num_ok_head t H) as (c & u & -> & Hh). apply numhead_range in Hh.
  exists c, u. split; [done|]. unfold is_ws.
  destruct (Z.eqb_spec c 32), (Z.eqb_spec c 9), (Z.eqb_spec c 10), (Z.eqb_spec c 13); (lia || (cbn; split_and!; [done|lia..])).
Qed.

Lemma skip_head c t : is_ws c = false -> skip_ws (c :: t) = c :: t.
Proof. intros H. cbn [skip_while]. by rewrite H. Qed.

Section Items.
Context {A : Type} (item : list Z -> option (A * list Z)) (pr : A -> list Z) (close : Z).
Hypothesis close_ok : is_ws close = false /\ close <> 44 /\ is_numch close = false.

(** What [item] must do on the text of [x]. *)
Definition reads (x : A) : Prop :=
  (exists c t, pr x = c :: t /\ is_ws c = false /\ c <> close) /\
  forall r, delim r -> item (pr x ++ r) = Some (x, r).

Lemma commas_length l : Forall reads l -> (length l <= length (commas (map pr l)))%nat.
Proof using Type.
  induction 1 as [|x l [(c & t & E & _) _] _ IH]; [done|]. destruct l as [|y l].
  - cbn. rewrite E. cbn. lia.
  - cbn [map commas] in *. rewrite length_app. cbn [length] in *. lia.
Qed.

Lemma parse_items_ok l r : Forall reads l -> l <> [] -> forall n, (length l <= n)%nat ->
  parse_items item close n (commas (map pr l) ++ close :: r) = Some (l, r).
Proof using close_ok.
  destruct close_ok as (Hw & Hc & Hn). induction 1 as [|x l [(c & t & E & Hx & _) Hi] Hl IH]; [done|]. intros _ n Hlen.
  destruct n as [|n]; [cbn in Hlen; lia|]. cbn [parse_items].
  assert (S : forall w, skip_ws (pr x ++ w) = pr x ++ w) by (intros w; rewrite E; by apply skip_head).
  destruct l as [|y l].
  - cbn [map commas]. rewrite S, Hi by done. rewrite skip_head by done. by rewrite Z.eqb_refl.
  - cbn [map commas] in *. rewrite <- app_assoc. cbn [app]. rewrite S, Hi by done.
    rewrite skip_head by done. destruct (Z.eqb_spec 44 close); [lia|]. change (44 =? 44) with true. cbn iota.
    by rewrite IH by (done || (cbn in *; lia)).
Qed.

Lemma parse_seq_ok l r : Forall reads l ->
  parse_seq item close (commas (map pr l) ++ close :: r) = Some (l, r).
Proof using close_ok.
  intros H. unfold parse_seq. destruct l as [|x l].
  - cbn [map commas app]. destruct close_ok as (Hw & _). rewrite skip_head by done. by rewrite Z.eqb_refl.
  - pose proof (commas_length _ H) as Hlen.
    rewrite (parse_items_ok (x :: l) r H ltac:(done)) by (rewrite length_app; lia).
    inversion H as [|? ? [(c & t & E & Hx & Hcl) _] _]; subst.
    assert (Hh : exists u, commas (map pr (x :: l)) ++ close :: r = c :: u).
    { destruct l; cbn [map commas]; rewrite E; eexists; reflexivity. }
    destruct Hh as [u ->]. rewrite skip_head by done. destruct (Z.eqb_spec c close); [done|done].
Qed.
End Items.

Lemma max_lt (l : list nat) n k : (list_max l < k)%nat -> In n l -> (n < k)%nat.
Proof.
  intros H Hn. assert (Forall (fun x => x <= list_max l)%nat l) as F by (by apply list_max_le).
  rewrite List.Forall_forall in F. specialize (F _ Hn). lia.
Qed.

Lemma parse_member_ok k n v r :
  bytes_ok n -> json_ok v = true ->
  (forall r, delim r -> parse_value k (print v ++ r) = Some (v, r)) -> delim r ->
  parse_member (parse_value k) ((quote n ++ 58 :: print v) ++ r) = Some ((n, v), r).
Proof.
  intros Hn Hv IH Hr. unfold quote. cbn [app parse_member]. change (34 =? 34) with true. cbn iota.
  rewrite <- !app_assoc. cbn [app]. rewrite parse_quoted by done. rewrite skip_head by done.
  change (58 =? 58) with true. cbn iota. destruct (print_head v Hv) as (c & t & E & Hw & _).
  rewrite E. cbn [app]. rewrite skip_head by done. change (c :: t ++ r) with ((c :: t) ++ r). rewrite <- E.
  by rewrite IH.
Qed.

Lemma parse_print k : forall v r,
  (depth v < k)%nat -> json_ok v = true -> delim r -> parse_value k (print v ++ r) = Some (v, r).
Proof.
  induction k as [|k IH]; intros v r Hk Hv Hr; [lia|]. destruct v as [s|t|[]| |l|l]; cbn [json_ok] in Hv.
  - cbn [print]. unfold quote. cbn [app parse_value]. change (34 =? 34) with true. cbn iota.
    rewrite <- app_assoc. cbn [app]. by rewrite parse_quoted by (by apply bytes_okb_ok).
  - by apply parse_number.
  - reflexivity.
  - reflexivity.
  - reflexivity.
  - cbn [print app parse_value]. change (91 =? 34) with false. change (91 =? 91) with true. cbn iota.
    rewrite <- app_assoc. cbn [app]. rewrite (parse_seq_ok (parse_value k) print 93); [done|done|].
    rewrite List.Forall_forall. intros v Hin. rewrite forallb_forall in Hv. specialize (Hv _ Hin). split.
    + destruct (print_head v Hv) as (c & t & E & H1 & H2 & _). by exists c, t.
    + intros r' Hr'. apply IH; [|done|done]. cbn [depth] in Hk. eapply max_lt; [|by apply in_map]. lia.
  - cbn [print app parse_value]. change (123 =? 34) with false. change (123 =? 91) with false.
    change (123 =? 123) with true. cbn iota.
    rewrite <- app_assoc. cbn [app].
    rewrite (parse_seq_ok (parse_member (parse_value k)) (fun '(n, v) => quote n ++ 58 :: print v) 125); [done|done|].
    rewrite List.Forall_forall. intros [n v] Hin. rewrite forallb_forall in Hv. pose proof (Hv _ Hin) as Hv'. cbn in Hv'.
    apply andb_prop in Hv' as [Hn Hv']. split.
    + eexists _, _. split; [reflexivity|done].
    + intros r' Hr'. apply parse_member_ok; [by apply bytes_okb_ok|done| |done].
      intros w Hw. apply IH; [|done|done]. cbn [depth] in Hk. eapply (max_lt _ (depth v)); [apply Nat.succ_lt_mono, Hk|].
      apply in_map_iff. by exists (n, v).
Qed.


Lemma depth_print : forall v, (depth v <= length (print v))%nat.
Proof.
  fix IH 1. intros [s|t|b| |l|l]; cbn [depth print]; try lia.
  - cbn [length]. rewrite length_app. apply le_n_S, (Nat.le_trans _ (length (commas (map print l)))); [|lia].
    induction l as [|x l IHl]; [cbn; lia|]. pose proof (IH x). destruct l as [|y l]; [cbn in *; lia|].
    change (list_max (map depth (x :: y :: l))) with (Nat.max (depth x) (list_max (map depth (y :: l)))).
    change (commas (map print (x :: y :: l))) with (print x ++ 44 :: commas (map print (y :: l))).
    rewrite length_app. cbn [length]. lia.
  - cbn [length]. rewrite length_app.
    apply le_n_S, (Nat.le_trans _ (length (commas (map (fun '(n, v) => quote n ++ 58 :: print v) l)))); [|lia].
    induction l as [|[n x] l IHl]; [cbn; lia|]. pose proof (IH x) as Hx.
    assert (Hm : (depth x <= length (quote n ++ 58%Z :: print x))%nat) by (rewrite length_app; cbn [length]; lia).
    destruct l as [|y l]; [cbn in *; lia|].
    change (list_max (map (fun '(_, v) => depth v) ((n, x) :: y :: l)))
      with (Nat.max (depth x) (list_max (map (fun '(_, v) => depth v) (y :: l)))).
    change (commas (map (fun '(n, v) => quote n ++ 58 :: print v) ((n, x) :: y :: l)))
      with ((quote n ++ 58 :: print x) ++ 44 :: commas (map (fun '(n, v) => quote n ++ 58 :: print v) (y :: l))).
    rewrite length_app. cbn [length]. lia.
Qed.

(** The reference parser inverts the printer, with whitespace allowed after
    the document. *)
Lemma json_parse_print v r :
  json_ok v = true -> forallb is_ws r = true -> json_parse (print v ++ r) = Some v.
Proof.
  intros Hv Hr. unfold json_parse. destruct (print_head v Hv) as (c & t & E & Hw & _).
  assert (S : skip_ws (print v ++ r) = print v ++ r) by (rewrite E; by apply skip_head). rewrite S.
  rewrite parse_print; [|pose proof (depth_print v); rewrite length_app; lia|done|].
  - replace (skip_ws r) with (@nil Z); [done|]. symmetry. clear -Hr. induction r as [|c r IH]; [done|].
    cbn [forallb] in Hr. apply andb_prop in Hr as [Hc Hr]. cbn [skip_while]. rewrite Hc. by apply IH.
  - destruct r as [|d r]; [done|]. cbn [forallb] in Hr. apply andb_prop in Hr as [Hd _]. cbn.
    unfold is_ws in Hd. unfold is_numch, is_digit. repeat (apply orb_prop in Hd as [Hd|Hd]); zb; by subst d.
Qed.

(** ** Formatted numbers are JSON numbers *)

Lemma dec_loop_digits fuel : forall z acc, (0 < fuel)%nat -> 0 <= z < 2 ^ Z.of_nat fuel ->
  exists c u, dec_loop fuel z acc = (c :: u) ++ acc /\ forallb is_digit (c :: u) = true /\
              (c = 48 -> z = 0 /\ u = []).
Proof.
  induction fuel as [|k IH]; intros z acc Hf Hz; [lia|]. cbn [dec_loop].
  pose proof (Z.mod_pos_bound z 10 ltac:(lia)) as Hm. pose proof (Z.div_mod z 10 ltac:(lia)) as Hd.
  assert (Hdig : is_digit (48 + z mod 10) = true)
    by (unfold is_digit; apply andb_true_intro; split; apply Z.leb_le; lia).
  destruct (Z.ltb_spec z 10) as [Hs|Hs].
  - exists (48 + z mod 10), []. split; [done|]. split; [cbn; by rewrite Hdig|]. rewrite Z.mod_small by lia. intros ?. split; [lia|done].
  - rewrite Nat2Z.inj_succ, Z.pow_succ_r in Hz by lia.
    destruct k as [|k]; [cbn in Hz; lia|].
    set (P := 2 ^ Z.of_nat (S k)) in *.
    destruct (IH (z / 10) ((48 + z mod 10) :: acc) ltac:(lia) ltac:(clearbody P; lia)) as (c & u & -> & Hu & Hc).
    exists c, (u ++ [48 + z mod 10]). split; [cbn [app]; by rewrite <- app_assoc|]. split.
    + cbn [forallb] in *. rewrite forallb_app. cbn [forallb]. rewrite Hdig. cbn [andb].
      rewrite andb_true_r. done.
    + intros ->. destruct (Hc eq_refl). lia.
Qed.

Lemma dec_digits z : 0 <= z ->
  exists c u, dec_of_Z z = c :: u /\ forallb is_digit (c :: u) = true /\ (c = 48 -> u = []).
Proof.
  intros Hz. unfold dec_of_Z.
  destruct (dec_loop_digits (S (Z.to_nat (Z.log2 z))) z []) as (c & u & -> & Hd & Hc).
  - lia.
  - split; [done|]. rewrite Nat2Z.inj_succ, Z2Nat.id by apply Z.log2_nonneg.
    destruct (Z.eq_dec z 0) as [->|]; [done|]. apply Z.log2_spec. lia.
  - exists c, u. rewrite app_nil_r. split_and!; [done|done|]. intros E. by destruct (Hc E).
Qed.

Lemma skip_digits_all ds r : forallb is_digit ds = true ->
  match r with [] => True | c :: _ => is_digit c = false end -> skip_digits (ds ++ r) = r.
Proof.
  intros Hd Hr. induction ds as [|c ds IH].
  - destruct r as [|c r]; [done|]. cbn. by rewrite Hr.
  - cbn [forallb] in Hd. apply andb_prop in Hd as [Hc Hd]. cbn [app skip_while]. rewrite Hc. by apply IH.
Qed.

Lemma digits_numch ds : forallb is_digit ds = true -> forallb is_numch ds = true.
Proof.
  rewrite !forallb_forall. intros H c Hc. unfold is_numch. by rewrite (H c Hc).
Qed.

Lemma num_text_sign b t : num_text t = true -> (forall u, t <> 45 :: u) ->
  num_text ((if b : bool then [45] else []) ++ t) = true.
Proof.
  intros H Hs. destruct b; [|done]. unfold num_text in *. apply andb_prop in H as [H1 H2]. cbn [app forallb num_ok].
  rewrite H1. cbn. destruct t as [|c u]; [done|]. cbn [num_ok] in H2.
  destruct (Z.eqb_spec c 45) as [->|]; [by destruct (Hs u)|done].
Qed.

Lemma unsigned_text z frac :
  0 <= z -> frac_ok frac = true -> forallb is_numch frac = true ->
  match frac with [] => True | c :: _ => is_digit c = false end ->
  num_text (dec_of_Z z ++ frac) = true /\ forall u, dec_of_Z z ++ frac <> 45 :: u.
Proof.
  intros Hz Hf Hn Hh. destruct (dec_digits z Hz) as (c & u & -> & Hd & Hc).
  pose proof Hd as Hd'. cbn [forallb] in Hd'. apply andb_prop in Hd' as [Hdc Hdu].
  assert (Hc45 : c <> 45) by (unfold is_digit in Hdc; zb; lia).
  split; [|intros w [= E]; lia]. unfold num_text. rewrite forallb_app, digits_numch, Hn by done.
  cbn [andb app num_ok unsigned_ok]. destruct (Z.eqb_spec c 45); [done|].
  destruct (Z.eqb_spec c 48) as [E|]; [by rewrite (Hc E)|]. rewrite Hdc. cbn [andb]. by rewrite skip_digits_all.
Qed.

Lemma num_text_u z : 0 <= z -> num_text (dec_of_Z z) = true.
Proof. intros H. destruct (unsigned_text z [] H) as [E _]; try done. by rewrite app_nil_r in E. Qed.

Lemma num_text_d z : num_text (fmt_d z) = true.
Proof.
  unfold fmt_d. destruct (Z.ltb_spec z 0); [|by apply num_text_u].
  destruct (unsigned_text (- z) [] ltac:(lia)) as [E1 E2]; try done. rewrite app_nil_r in E1, E2.
  exact (num_text_sign true _ E1 E2).
Qed.

Lemma fmt_decimal_text prec q : 0 <= q ->
  num_text (fmt_decimal prec q) = true /\ forall u, fmt_decimal prec q <> 45 :: u.
Proof.
  intros Hq. unfold fmt_decimal. assert (Hp : 0 < 10 ^ Z.of_nat prec) by (apply Z.pow_pos_nonneg; lia).
  assert (Hi : 0 <= q / 10 ^ Z.of_nat prec) by (apply Z.div_pos; lia).
  pose proof (Z.mod_pos_bound q _ Hp) as Hm.
  assert (E : prec <> O -> exists d w, pad0 prec (dec_of_Z (q mod 10 ^ Z.of_nat prec)) = d :: w /\
                     forallb is_digit (d :: w) = true).
  { intros _. destruct (dec_digits (q mod 10 ^ Z.of_nat prec) ltac:(lia)) as (c & u & E & Hd & _). rewrite E. unfold pad0.
    assert (F : forall n, forallb is_digit (replicate n 48) = true) by (intros n; induction n; done).
    destruct (prec - length (c :: u))%nat as [|n]; cbn [replicate app]; eexists _, _; (split; [reflexivity|]); [done|].
    change (48 :: replicate n 48 ++ c :: u) with ((48 :: replicate n 48) ++ c :: u). rewrite forallb_app.
    change (48 :: replicate n 48) with (replicate (S n) 48). rewrite F. done. }
  destruct prec as [|k]; [by apply unsigned_text|]. destruct (E ltac:(done)) as (d & w & -> & Hd).
  apply unsigned_text; [done| | |done].
  - cbn [frac_ok]. change (46 =? 46) with true. cbn iota. pose proof Hd as Hd'. cbn [forallb] in Hd'.
    apply andb_prop in Hd' as [-> _]. cbn [andb].
    pose proof (skip_digits_all (d :: w) [] Hd I) as S. rewrite app_nil_r in S. by rewrite S.
  - cbn [forallb]. change (is_numch 46) with true. cbn [andb]. by apply (digits_numch (d :: w)).
Qed.

Definition f_finite (x : spec_float) : bool :=
  match x with S754_zero _ | S754_finite _ _ _ => true | _ => false end.

Lemma round_half_even_nonneg n d : 0 <= n -> 0 < d -> 0 <= round_half_even n d.
Proof.
  intros Hn Hd. unfold round_half_even. assert (0 <= n / d) by (by apply Z.div_pos).
  destruct (_ <? _); [done|]. destruct (_ <? _); [lia|]. destruct (Z.even _); lia.
Qed.

Lemma num_text_f prec x : f_finite x = true -> num_text (fmt_f prec x) = true.
Proof.
  destruct x as [s|s| |s m e]; try done; intros _; cbn [fmt_f].
  - destruct (fmt_decimal_text prec 0 ltac:(lia)). by apply num_text_sign.
  - edestruct (fmt_decimal_text prec) as [A B]; [|by apply num_text_sign].
    destruct (Z.leb_spec 0 e).
    + apply Z.mul_nonneg_nonneg; [apply Z.mul_nonneg_nonneg; [lia|apply Z.pow_nonneg; lia]|apply Z.pow_nonneg; lia].
    + apply round_half_even_nonneg; [apply Z.mul_nonneg_nonneg; [lia|apply Z.pow_nonneg; lia]|apply Z.pow_pos_nonneg; lia].
Qed.

(** ** Framing *)

(** Compact text holds no control character: a document is one line. *)
Definition no_ctl (t : list Z) : Prop := Forall (fun c => 32 <= c) t.

Lemma esc_no_ctl c : is_byte c -> no_ctl (esc c).
Proof.
  unfold is_byte, no_ctl, esc. intros H. pose proof (Z.div_pos c 16 ltac:(lia) ltac:(lia)).
  pose proof (Z.mod_pos_bound c 16 ltac:(lia)).
  assert (F : forall n, 0 <= n -> 32 <= hex_char n) by (intros n Hn; unfold hex_char; destruct (Z.ltb_spec n 10); lia).
  destruct (Z.eqb_spec c 34), (Z.eqb_spec c 92); cbn [orb]; try (repeat constructor; lia).
  destruct (Z.eqb_spec c 10), (Z.eqb_spec c 13), (Z.eqb_spec c 9); try (repeat constructor; lia).
  destruct (Z.ltb_spec c 32); repeat (apply Forall_cons_2; [first [lia|apply F; lia]|]); apply Forall_nil_2.
Qed.

Lemma quote_no_ctl s : bytes_ok s -> no_ctl (quote s).
Proof.
  intros H. unfold quote. apply Forall_cons. split; [lia|]. apply Forall_app. split; [|repeat constructor; lia].
  induction H as [|c s Hc _ IH]; [constructor|]. cbn [flat_map]. apply Forall_app. split; [by apply esc_no_ctl|done].
Qed.

Lemma commas_no_ctl l : Forall no_ctl l -> no_ctl (commas l).
Proof.
  induction 1 as [|x l Hx Hl IH]; [constructor|]. destruct l as [|y l]; [done|].
  change (commas (x :: y :: l)) with (x ++ 44 :: commas (y :: l)). apply Forall_app. split; [done|].
  constructor; [lia|done].
Qed.

Lemma print_no_ctl : forall v, json_ok v = true -> no_ctl (print v).
Proof.
  fix IH 1. intros [s|t|[]| |l|l] H; cbn [json_ok print] in *.
  - by apply quote_no_ctl, bytes_okb_ok.
  - apply andb_prop in H as [H _]. rewrite forallb_forall in H. apply List.Forall_forall. intros c Hc. specialize (H c Hc).
    unfold is_numch, is_digit in H. repeat (apply orb_prop in H as [H|H]); zb; lia.
  - repeat constructor; vm_compute; discriminate.
  - repeat constructor; vm_compute; discriminate.
  - repeat constructor; vm_compute; discriminate.
  - constructor; [lia|]. apply Forall_app. split; [|repeat constructor; lia]. apply commas_no_ctl.
    induction l as [|x l IHl]; [constructor|]. cbn [forallb] in H. apply andb_prop in H as [Hx H]. cbn [map].
    constructor; [by apply IH|by apply IHl].
  - constructor; [lia|]. apply Forall_app. split; [|repeat constructor; lia]. apply commas_no_ctl.
    induction l as [|[n x] l IHl]; [constructor|]. cbn [forallb] in H. apply andb_prop in H as [Hx H]. cbn [map].
    apply andb_prop in Hx as [Hn Hx]. constructor; [|by apply IHl]. apply Forall_app.
    split; [by apply quote_no_ctl, bytes_okb_ok|]. constructor; [lia|by apply IH].
Qed.
