(* ===== verification/Jw.v ===== *)
(** The direct-to-buffer JSON writer (src/jw.c, src/jw.h): every operation,
    the buffer bound they keep, and the JSON their sequences denote.

    [jw_buf] is [buf[0 .. len)]; the bytes past [len] that a rejected
    vsnprintf leaves behind are never read through the writer. *)

From Stdlib Require Import String.
From S2P Require Import Prelude CString CFloat Json.

Local Open Scope Z_scope.

Record jw := mk_jw {
  jw_buf : list Z;
  jw_cap : nat;
  jw_first_field : bool;
}.

Definition jw_len (j : jw) : nat := length (jw_buf j).
Definition jw_init (cap : nat) : jw := mk_jw [] cap true.

Definition jw_push (j : jw) (t : list Z) : jw := mk_jw (jw_buf j ++ t) (jw_cap j) (jw_first_field j).
Definition jw_set_first (b : bool) (j : jw) : jw := mk_jw (jw_buf j) (jw_cap j) b.

Definition jw_putc (c : Z) (j : jw) : jw :=
  if (jw_len j + 1 <? jw_cap j)%nat then jw_push j [c] else j.

Fixpoint jw_puts (s : list Z) (j : jw) : jw :=
  match s with
  | [] => j
  | c :: t => if (jw_len j + 1 <? jw_cap j)%nat then jw_puts t (jw_push j [c]) else j
  end.

(** [t] is the text vsnprintf produces; it is kept whole or not at all. *)
Definition jw_printf (t : list Z) (j : jw) : jw :=
  if (0 <? length t)%nat && (length t <? jw_cap j - jw_len j)%nat then jw_push j t else j.

Definition jw_char_escaped (c : Z) (j : jw) : jw :=
  if (c =? 34) || (c =? 92) then jw_putc c (jw_putc 92 j)
  else if c =? 10 then jw_puts [92; 110] j
  else if c =? 13 then jw_puts [92; 114] j
  else if c =? 9 then jw_puts [92; 116] j
  else if c <? 32 then jw_printf [92; 117; 48; 48; hex_char (c / 16); hex_char (c mod 16)] j
  else jw_putc c j.

(** The characters are read as [unsigned char]. *)
Definition jw_str_escaped (s : list Z) (j : jw) : jw :=
  jw_putc 34 (fold_left (fun j c => jw_char_escaped c j) (map u8 s) (jw_putc 34 j)).

Definition jw_array_sep (j : jw) : jw :=
  jw_set_first false (if jw_first_field j then j else jw_putc 44 j).

Definition jw_field_name (name : list Z) (j : jw) : jw :=
  jw_putc 58 (jw_str_escaped name (jw_set_first false (if jw_first_field j then j else jw_putc 44 j))).

(** [None] is a NULL value.  A numeric argument is converted to the type of
    the parameter. *)
Definition jw_field_str (name : list Z) (value : option (list Z)) (j : jw) : jw :=
  match value with
  | None => j
  | Some v => jw_str_escaped v (jw_field_name name j)
  end.
Definition jw_field_raw (name raw_json : list Z) (j : jw) : jw :=
  match raw_json with
  | [] => j
  | _ => jw_puts raw_json (jw_field_name name j)
  end.
Definition jw_field_u32 (name : list Z) (value : Z) (j : jw) : jw :=
  jw_printf (dec_of_Z (u32 value)) (jw_field_name name j).
Definition jw_field_u64 (name : list Z) (value : Z) (j : jw) : jw :=
  jw_printf (dec_of_Z (u64 value)) (jw_field_name name j).
Definition jw_field_i32 (name : list Z) (value : Z) (j : jw) : jw :=
  jw_printf (fmt_d (i32 value)) (jw_field_name name j).
Definition jw_field_f32 (name : list Z) (value : spec_float) (j : jw) : jw :=
  jw_printf (fmt_f 4 (f64_of_f32 value)) (jw_field_name name j).
Definition jw_field_f64 (name : list Z) (value : spec_float) (j : jw) : jw :=
  jw_printf (fmt_f 7 value) (jw_field_name name j).
Definition jw_field_bool (name : list Z) (value : bool) (j : jw) : jw :=
  jw_puts (if value then str "true" else str "false") (jw_field_name name j).

Definition jw_open (j : jw) : jw := jw_set_first true (jw_putc 123 j).
Definition jw_close (j : jw) : jw := jw_set_first false (jw_putc 125 j).
Definition jw_open_array (name : list Z) (j : jw) : jw := jw_set_first true (jw_putc 91 (jw_field_name name j)).
Definition jw_close_array (j : jw) : jw := jw_set_first false (jw_putc 93 j).

(** ** Sequences of calls

    The serialisers are straight-line sequences of these calls under
    conditions; a sequence is a list of [call]s, an array being the items
    between its jw_open_array and jw_close_array. *)

Inductive field :=
| FStr (name value : list Z)
| FRaw (name raw : list Z)
| FU32 (name : list Z) (value : Z)
| FU64 (name : list Z) (value : Z)
| FI32 (name : list Z) (value : Z)
| FF32 (name : list Z) (value : spec_float)
| FF64 (name : list Z) (value : spec_float)
| FBool (name : list Z) (value : bool).

(** An item: [jw_array_sep(j); jw_putc(j, '{'); j->first_field = true; ...
    jw_putc(j, '}')], or [jw_array_sep(j); jw_str_escaped(j, s)]. *)
Inductive item := IObj (fs : list field) | IStr (s : list Z).

Inductive call := CField (f : field) | CArr (name : list Z) (items : list item).

Definition run_field (f : field) (j : jw) : jw :=
  match f with
  | FStr n v => jw_field_str n (Some v) j
  | FRaw n r => jw_field_raw n r j
  | FU32 n v => jw_field_u32 n v j
  | FU64 n v => jw_field_u64 n v j
  | FI32 n v => jw_field_i32 n v j
  | FF32 n v => jw_field_f32 n v j
  | FF64 n v => jw_field_f64 n v j
  | FBool n v => jw_field_bool n v j
  end.

Definition run_item (i : item) (j : jw) : jw :=
  match i with
  | IObj fs => jw_putc 125 (fold_left (fun j f => run_field f j) fs (jw_set_first true (jw_putc 123 (jw_array_sep j))))
  | IStr s => jw_str_escaped s (jw_array_sep j)
  end.

Definition run_call (c : call) (j : jw) : jw :=
  match c with
  | CField f => run_field f j
  | CArr n items => jw_close_array (fold_left (fun j i => run_item i j) items (jw_open_array n j))
  end.

Definition run_calls (cs : list call) (j : jw) : jw := fold_left (fun j c => run_call c j) cs j.

(** ** The buffer bound *)

(** There is always room for the terminating NUL. *)
Definition jw_ok (j : jw) : Prop := (jw_len j < jw_cap j)%nat.

(** An operation keeps the bound and the capacity and only appends. *)
Definition grows (f : jw -> jw) : Prop := forall j, jw_ok j ->
  jw_ok (f j) /\ jw_cap (f j) = jw_cap j /\ exists t, jw_buf (f j) = jw_buf j ++ t.

Lemma grows_id : grows (fun j => j).
Proof. intros j H. split_and!; [done|done|]. exists []. by rewrite app_nil_r. Qed.

Lemma grows_compose f g : grows f -> grows g -> grows (fun j => g (f j)).
Proof.
  intros Hf Hg j H. destruct (Hf j H) as (H1 & H2 & t & H3). destruct (Hg (f j) H1) as (G1 & G2 & u & G3).
  split_and!; [done|congruence|]. exists (t ++ u). by rewrite G3, H3, app_assoc.
Qed.

Lemma grows_set b : grows (jw_set_first b).
Proof. intros j H. split_and!; [done|done|]. exists []. by rewrite app_nil_r. Qed.

Lemma push_ok j t : (jw_len j + length t < jw_cap j)%nat -> jw_ok (jw_push j t).
Proof. intros H. unfold jw_ok, jw_len, jw_push in *. cbn. rewrite length_app. lia. Qed.

Lemma grows_putc c : grows (jw_putc c).
Proof.
  intros j H. unfold jw_putc. destruct (Nat.ltb_spec (jw_len j + 1) (jw_cap j)); [|by apply grows_id].
  split_and!; [by apply push_ok|done|by exists [c]].
Qed.

Lemma grows_puts s : grows (jw_puts s).
Proof.
  induction s as [|c s IH]; [apply grows_id|]. intros j H. cbn [jw_puts].
  destruct (Nat.ltb_spec (jw_len j + 1) (jw_cap j)) as [Hl|]; [|by apply grows_id].
  destruct (IH (jw_push j [c]) ltac:(by apply push_ok)) as (H1 & H2 & t & H3). split_and!; [done|done|].
  exists (c :: t). rewrite H3. cbn. by rewrite <- app_assoc.
Qed.

Lemma grows_printf t : grows (jw_printf t).
Proof.
  intros j H. unfold jw_printf. destruct (Nat.ltb_spec (length t) (jw_cap j - jw_len j)); rewrite ?andb_false_r; [|by apply grows_id].
  destruct (_ <? _)%nat; [|by apply grows_id]. split_and!; [apply push_ok; lia|done|by exists t].
Qed.

Lemma grows_fold {A} (g : A -> jw -> jw) l : (forall x, grows (g x)) -> grows (fold_left (fun j x => g x j) l).
Proof.
  intros Hg. induction l as [|x l IH]; [apply grows_id|]. cbn [fold_left]. by apply grows_compose.
Qed.

#[export] Hint Resolve grows_id grows_set grows_putc grows_puts grows_printf : mesh.

Lemma grows_escaped s : grows (jw_str_escaped s).
Proof.
  unfold jw_str_escaped. apply grows_compose; [|apply grows_putc].
  apply (grows_compose (jw_putc 34)); [apply grows_putc|]. apply grows_fold. intros c. unfold jw_char_escaped.
  repeat case_if; try apply grows_puts; try apply grows_printf; try apply grows_putc.
  apply (grows_compose (jw_putc 92)); apply grows_putc.
Qed.

Lemma grows_sep : grows jw_array_sep.
Proof.
  intros j H. unfold jw_array_sep. destruct (jw_first_field j); [by apply grows_set|].
  by apply (grows_compose (jw_putc 44) (jw_set_first false)); auto with mesh.
Qed.

Lemma grows_name n : grows (jw_field_name n).
Proof.
  apply (grows_compose jw_array_sep (fun j => jw_putc 58 (jw_str_escaped n j))); [apply grows_sep|].
  apply grows_compose; [apply grows_escaped|apply grows_putc].
Qed.

Lemma grows_field f : grows (run_field f).
Proof.
  destruct f as [n v|n [|c r]|n v|n v|n v|n v|n v|n v]; try apply grows_id;
    apply (grows_compose (jw_field_name n)); auto using grows_name, grows_escaped with mesh.
Qed.

Lemma grows_item i : grows (run_item i).
Proof.
  destruct i as [fs|s].
  - apply (grows_compose (fun j => fold_left (fun j f => run_field f j) fs (jw_open (jw_array_sep j))) (jw_putc 125));
      [|auto with mesh].
    apply (grows_compose (fun j => jw_open (jw_array_sep j)) (fold_left (fun j f => run_field f j) fs));
      [|apply (grows_fold run_field), grows_field].
    apply (grows_compose jw_array_sep jw_open); [apply grows_sep|]. apply (grows_compose (jw_putc 123)); auto with mesh.
  - apply (grows_compose jw_array_sep (jw_str_escaped s)); [apply grows_sep|apply grows_escaped].
Qed.

Lemma grows_call c : grows (run_call c).
Proof.
  destruct c as [f|n items]; [apply grows_field|]. cbn [run_call].
  apply (grows_compose (fun j => fold_left (fun j i => run_item i j) items (jw_open_array n j)) jw_close_array).
  - apply (grows_compose (jw_open_array n)).
    + apply (grows_compose (jw_field_name n)); [apply grows_name|].
      apply (grows_compose (jw_putc 91) (jw_set_first true)); auto with mesh.
    + apply (grows_fold run_item), grows_item.
  - apply (grows_compose (jw_putc 93) (jw_set_first false)); auto with mesh.
Qed.

Lemma grows_calls cs : grows (run_calls cs).
Proof. apply (grows_fold run_call), grows_call. Qed.

(** ** What the calls denote *)

(** With room for it, [f] appends [t] and leaves the flag [b]; both may
    depend on the flag it finds. *)
Definition writes (f : jw -> jw) (t : bool -> list Z) (b : bool -> bool) : Prop := forall j,
  (jw_len j + length (t (jw_first_field j)) < jw_cap j)%nat ->
  f j = mk_jw (jw_buf j ++ t (jw_first_field j)) (jw_cap j) (b (jw_first_field j)).

Lemma writes_compose f g t u b c : writes f t b -> writes g u c ->
  writes (fun j => g (f j)) (fun x => t x ++ u (b x)) (fun x => c (b x)).
Proof.
  intros Hf Hg j H. rewrite length_app in H. rewrite Hf by lia. rewrite Hg.
  - cbn. by rewrite app_assoc.
  - unfold jw_len. cbn. rewrite length_app. unfold jw_len in H. lia.
Qed.

Lemma writes_ext f t u b c : writes f t b -> (forall x, t x = u x) -> (forall x, b x = c x) -> writes f u c.
Proof. intros Hf Ht Hb j H. rewrite <- Ht, <- Hb in *. by apply Hf. Qed.

Lemma writes_set b : writes (jw_set_first b) (fun _ => []) (fun _ => b).
Proof. intros j _. unfold jw_set_first. by rewrite app_nil_r. Qed.

Lemma writes_id : writes (fun j => j) (fun _ => []) (fun x => x).
Proof. intros [b c f] _. cbn. by rewrite app_nil_r. Qed.

Lemma writes_putc c : writes (jw_putc c) (fun _ => [c]) (fun x => x).
Proof. intros j H. cbn in H. unfold jw_putc. destruct (Nat.ltb_spec (jw_len j + 1) (jw_cap j)); [done|lia]. Qed.

Lemma writes_puts s : writes (jw_puts s) (fun _ => s) (fun x => x).
Proof.
  induction s as [|c s IH]; [apply writes_id|]. intros j H. cbn [jw_puts length] in *.
  destruct (Nat.ltb_spec (jw_len j + 1) (jw_cap j)); [|lia]. rewrite IH.
  - cbn. by rewrite <- app_assoc.
  - unfold jw_len, jw_push in *. cbn. rewrite length_app. cbn. lia.
Qed.

Lemma writes_printf t : writes (jw_printf t) (fun _ => t) (fun x => x).
Proof.
  intros j H. unfold jw_printf. destruct t as [|c t]; [by apply writes_id|].
  destruct (Nat.ltb_spec 0 (length (c :: t))); [|cbn in *; lia].
  destruct (Nat.ltb_spec (length (c :: t)) (jw_cap j - jw_len j)); [done|lia].
Qed.

Lemma writes_char c : writes (jw_char_escaped c) (fun _ => esc c) (fun x => x).
Proof.
  unfold jw_char_escaped, esc. repeat case_if; auto using writes_puts, writes_printf, writes_putc.
  apply (writes_compose (jw_putc 92) (jw_putc c) _ _ _ _ (writes_putc _) (writes_putc _)).
Qed.

Lemma writes_fold {A} (g : A -> jw -> jw) (tx : A -> list Z) l :
  (forall x, writes (g x) (fun _ => tx x) (fun b => b)) ->
  writes (fold_left (fun j x => g x j) l) (fun _ => flat_map tx l) (fun b => b).
Proof.
  intros Hg. induction l as [|x l IH]; [apply writes_id|]. cbn [fold_left flat_map].
  exact (writes_compose _ _ _ _ _ _ (Hg x) IH).
Qed.

Lemma writes_escaped s : writes (jw_str_escaped s) (fun _ => quote (map u8 s)) (fun x => x).
Proof.
  pose proof (writes_fold jw_char_escaped esc (map u8 s) writes_char) as H.
  pose proof (writes_compose _ _ _ _ _ _ (writes_compose _ _ _ _ _ _ (writes_putc 34) H) (writes_putc 34)) as W.
  eapply writes_ext; [exact W|done|done].
Qed.

(** The comma before a member or an item that is not the first. *)
Definition sep (first : bool) : list Z := if first then [] else [44].

Lemma writes_sep : writes jw_array_sep sep (fun _ => false).
Proof.
  intros j H. unfold jw_array_sep, sep in *. destruct (jw_first_field j) eqn:E; [by rewrite <- (writes_set false j)|].
  rewrite (writes_putc 44) by (cbn in *; lia). by rewrite E.
Qed.

Lemma writes_name n : writes (jw_field_name n) (fun x => sep x ++ quote (map u8 n) ++ [58]) (fun _ => false).
Proof.
  exact (writes_compose _ _ _ _ _ _ writes_sep (writes_compose _ _ _ _ _ _ (writes_escaped n) (writes_putc 58))).
Qed.

(** Members of an object, with their separators. *)
Fixpoint mem_text (first : bool) (ms : list (list Z * json)) : list Z :=
  match ms with
  | [] => []
  | (n, v) :: t => sep first ++ (quote n ++ 58 :: print v) ++ mem_text false t
  end.
Definition is_nil {A} (l : list A) : bool := match l with [] => true | _ => false end.

(** [f] writes exactly the members [ms]. *)
Definition denotes (f : jw -> jw) (ms : list (list Z * json)) : Prop :=
  writes f (fun x => mem_text x ms) (fun x => x && is_nil ms).

Lemma mem_text_app x a b : mem_text x (a ++ b) = mem_text x a ++ mem_text (x && is_nil a) b.
Proof.
  revert x. induction a as [|[n v] a IH]; intros x; cbn [app mem_text is_nil]; [by rewrite andb_true_r|].
  rewrite IH, andb_false_r, !app_assoc. by destruct (is_nil a).
Qed.

Lemma denotes_app f g ms ns : denotes f ms -> denotes g ns -> denotes (fun j => g (f j)) (ms ++ ns).
Proof.
  intros Hf Hg. eapply writes_ext; [exact (writes_compose _ _ _ _ _ _ Hf Hg)| |].
  - intros x. by rewrite mem_text_app.
  - intros x. destruct ms; cbn; [by rewrite andb_true_r|by rewrite andb_false_r].
Qed.

Lemma denotes_nil : denotes (fun j => j) [].
Proof. eapply writes_ext; [apply writes_id|done|]. intros x. by rewrite andb_true_r. Qed.

Lemma denotes_one n v f t : writes f (fun _ => t) (fun x => x) -> t = print v ->
  denotes (fun j => f (jw_field_name n j)) [(map u8 n, v)].
Proof.
  intros Hf ->. eapply writes_ext; [exact (writes_compose _ _ _ _ _ _ (writes_name n) Hf)| |].
  - intros x. cbn [mem_text]. by rewrite app_nil_r, <- !app_assoc.
  - intros x. by rewrite andb_false_r.
Qed.

Lemma denotes_fold {A} (g : A -> jw -> jw) (ms : A -> list (list Z * json)) l :
  (forall x, In x l -> denotes (g x) (ms x)) -> denotes (fold_left (fun j x => g x j) l) (flat_map ms l).
Proof.
  induction l as [|x l IH]; intros H; [apply denotes_nil|]. cbn [fold_left flat_map].
  exact (denotes_app _ _ _ _ (H x (or_introl eq_refl)) (IH (fun y Hy => H y (or_intror Hy)))).
Qed.

(** ** Fields, items, calls *)

Definition raw_value (r : list Z) : json := default JNull (json_parse r).

Definition field_members (f : field) : list (list Z * json) :=
  match f with
  | FStr n v => [(map u8 n, JStr (map u8 v))]
  | FRaw n [] => []
  | FRaw n r => [(map u8 n, raw_value r)]
  | FU32 n v => [(map u8 n, JNum (dec_of_Z (u32 v)))]
  | FU64 n v => [(map u8 n, JNum (dec_of_Z (u64 v)))]
  | FI32 n v => [(map u8 n, JNum (fmt_d (i32 v)))]
  | FF32 n v => [(map u8 n, JNum (fmt_f 4 v))]
  | FF64 n v => [(map u8 n, JNum (fmt_f 7 v))]
  | FBool n v => [(map u8 n, JBool v)]
  end.

Definition item_json (i : item) : json :=
  match i with IObj fs => JObj (flat_map field_members fs) | IStr s => JStr (map u8 s) end.

Definition call_members (c : call) : list (list Z * json) :=
  match c with CField f => field_members f | CArr n items => [(map u8 n, JArr (map item_json items))] end.

Definition calls_json (cs : list call) : json := JObj (flat_map call_members cs).

(** The conditions under which a call writes JSON: finite floats, an already
    serialised fragment that is a compact document, and no empty object
    before the last item of an array. *)
Definition raw_ok (r : list Z) : bool :=
  match r with
  | [] => true
  | _ => match json_parse r with Some v => json_ok v && list_eqb (print v) r | None => false end
  end.

Definition field_ok (f : field) : bool :=
  match f with
  | FRaw _ r => raw_ok r
  | FF32 _ v | FF64 _ v => f_finite v
  | _ => true
  end.

Definition item_nonempty (i : item) : bool :=
  match i with IObj fs => negb (is_nil (flat_map field_members fs)) | IStr _ => true end.

Definition item_ok (i : item) : bool :=
  match i with IObj fs => forallb field_ok fs | IStr _ => true end.

Definition call_ok (c : call) : bool :=
  match c with
  | CField f => field_ok f
  | CArr _ items => forallb item_ok items && forallb item_nonempty (removelast items)
  end.

Lemma denotes_field f : field_ok f = true -> denotes (run_field f) (field_members f).
Proof.
  destruct f as [n v|n r|n v|n v|n v|n v|n v|n v]; cbn [run_field field_ok field_members]; intros H;
    try exact (denotes_one n (JNum _) _ _ (writes_printf _) eq_refl).
  - exact (denotes_one n (JStr _) _ _ (writes_escaped v) eq_refl).
  - destruct r as [|c r]; [apply denotes_nil|]. unfold raw_value. cbn [raw_ok] in H.
    destruct (json_parse (c :: r)) as [v|]; [|done]. apply andb_prop in H as [_ H]. apply list_eqb_eq in H.
    cbn [default]. eapply (denotes_one n v); [apply (writes_puts (c :: r))|done].
  - exact (denotes_one n (JBool v) _ _ (writes_puts _) eq_refl).
Qed.

Lemma commas_mem ms : commas (map (fun '(n, v) => quote n ++ 58 :: print v) ms) = mem_text true ms.
Proof.
  destruct ms as [|[n v] ms]; [done|]. revert n v. induction ms as [|[n' v'] ms IH]; intros n v.
  - cbn [map commas mem_text sep app]. by rewrite app_nil_r.
  - change (commas (map (fun '(n, v) => quote n ++ 58 :: print v) ((n, v) :: (n', v') :: ms)))
      with ((quote n ++ 58 :: print v) ++ 44 :: commas (map (fun '(n, v) => quote n ++ 58 :: print v) ((n', v') :: ms))).
    rewrite IH. cbn [mem_text sep]. rewrite app_nil_l. done.
Qed.

Lemma print_obj ms : print (JObj ms) = 123 :: mem_text true ms ++ [125].
Proof. cbn [print]. by rewrite commas_mem. Qed.

(** An object around calls that denote [ms]. *)
Lemma writes_object f ms : denotes f ms ->
  writes (fun j => jw_putc 125 (f (jw_open j))) (fun _ => print (JObj ms)) (fun _ => is_nil ms).
Proof.
  intros Hf.
  pose proof (writes_compose _ _ _ _ _ _ (writes_putc 123) (writes_set true)) as W.
  pose proof (writes_compose _ _ _ _ _ _ (writes_compose _ _ _ _ _ _ W Hf) (writes_putc 125)) as V.
  eapply writes_ext; [exact V| |done]. intros x. by rewrite print_obj.
Qed.

Lemma denotes_fields fs : forallb field_ok fs = true ->
  denotes (fold_left (fun j f => run_field f j) fs) (flat_map field_members fs).
Proof. rewrite forallb_forall. intros H. apply denotes_fold. intros f Hf. by apply denotes_field, H. Qed.

Lemma writes_item i : item_ok i = true ->
  writes (run_item i) (fun x => sep x ++ print (item_json i)) (fun _ => negb (item_nonempty i)).
Proof.
  destruct i as [fs|s]; cbn [item_ok item_json item_nonempty]; intros H.
  - pose proof (writes_compose _ _ _ _ _ _ writes_sep (writes_object _ _ (denotes_fields fs H))) as W.
    eapply writes_ext; [exact W|done|]. intros x. by rewrite negb_involutive.
  - exact (writes_compose _ _ _ _ _ _ writes_sep (writes_escaped s)).
Qed.

Fixpoint seq_text (first : bool) (l : list json) : list Z :=
  match l with
  | [] => []
  | v :: t => sep first ++ print v ++ seq_text false t
  end.

Lemma commas_seq l : commas (map print l) = seq_text true l.
Proof.
  destruct l as [|v l]; [done|]. revert v. induction l as [|w l IH]; intros v.
  - cbn. by rewrite app_nil_r.
  - change (commas (map print (v :: w :: l))) with (print v ++ 44 :: commas (map print (w :: l))). by rewrite IH.
Qed.

Lemma items_text items x j :
  forallb item_ok items = true -> forallb item_nonempty (removelast items) = true -> jw_first_field j = x ->
  (jw_len j + length (seq_text x (map item_json items)) < jw_cap j)%nat ->
  exists b, fold_left (fun j i => run_item i j) items j =
            mk_jw (jw_buf j ++ seq_text x (map item_json items)) (jw_cap j) b.
Proof.
  revert x j. induction items as [|i items IH]; intros x j Hok Hne Hx Hl.
  - exists x. destruct j. cbn in *. by rewrite app_nil_r, Hx.
  - cbn [forallb] in Hok. apply andb_prop in Hok as [Hi Hok]. cbn [fold_left map seq_text] in *.
    rewrite !length_app in Hl.
    rewrite (writes_item i Hi) by (rewrite Hx, length_app; lia). rewrite Hx.
    destruct items as [|i2 items].
    + eexists. cbn. by rewrite app_nil_r, !app_assoc.
    + cbn [removelast forallb] in Hne. apply andb_prop in Hne as [Hn Hne]. rewrite Hn. cbn [negb].
      destruct (IH false (mk_jw (jw_buf j ++ sep x ++ print (item_json i)) (jw_cap j) false)) as [b E]; [done..| |].
      { unfold jw_len in *. cbn [jw_buf jw_cap]. rewrite !length_app. lia. }
      exists b. rewrite E. cbn [jw_buf jw_cap]. by rewrite <- !app_assoc.
Qed.

Lemma denotes_call c : call_ok c = true -> denotes (run_call c) (call_members c).
Proof.
  destruct c as [f|n items]; [apply denotes_field|]. cbn [call_ok run_call call_members]. intros H.
  apply andb_prop in H as [Hok Hne].
  pose proof (writes_compose _ _ _ _ _ _ (writes_name n) (writes_compose _ _ _ _ _ _ (writes_putc 91) (writes_set true))) as W.
  intros j Hl. cbn [mem_text print] in Hl. rewrite app_nil_r, commas_seq, !length_app in Hl. cbn [length] in Hl.
  rewrite !length_app in Hl. cbn [length] in Hl.
  cbn [run_call]. unfold jw_open_array. rewrite W by (rewrite !length_app; cbn [length]; lia).
  match goal with |- context [fold_left _ items ?J] => destruct (items_text items true J Hok Hne eq_refl) as [b ->] end.
  { unfold jw_len in *. cbn [jw_buf jw_cap]. rewrite !length_app. cbn [length]. lia. }
  cbn [jw_buf jw_cap jw_first_field].
  unfold jw_close_array. rewrite (writes_putc 93).
  - unfold jw_set_first. cbn [jw_buf jw_cap jw_first_field mem_text is_nil print]. rewrite andb_false_r. f_equal.
    rewrite app_nil_r, commas_seq, <- !app_assoc. cbn [app]. by rewrite <- !app_assoc.
  - unfold jw_len in *. cbn [jw_buf jw_cap]. rewrite !length_app. cbn [length]. lia.
Qed.

Lemma denotes_calls cs : forallb call_ok cs = true -> denotes (run_calls cs) (flat_map call_members cs).
Proof. rewrite forallb_forall. intros H. apply denotes_fold. intros c Hc. by apply denotes_call, H. Qed.

(** The whole object of a serialiser. *)
Lemma serialised cs cap tail :
  forallb call_ok cs = true -> (length (print (calls_json cs)) + length tail < cap)%nat ->
  jw_puts tail (jw_close (run_calls cs (jw_open (jw_init cap)))) =
  mk_jw (print (calls_json cs) ++ tail) cap false.
Proof.
  intros Hok Hl. unfold calls_json in *. unfold jw_close.
  rewrite (writes_object _ _ (denotes_calls cs Hok)) by (unfold jw_len; cbn [jw_buf jw_init jw_cap length]; lia).
  rewrite writes_puts by (unfold jw_len; cbn [jw_buf jw_cap jw_set_first jw_init]; rewrite app_nil_l; lia). done.
Qed.

Lemma bytes_u8 l : bytes_okb (map u8 l) = true.
Proof.
  unfold bytes_okb. rewrite forallb_forall. intros c Hc. apply in_map_iff in Hc as (x & <- & _).
  pose proof (wrap_range 8 x ltac:(lia)). unfold u8. apply andb_true_intro. split; [apply Z.leb_le|apply Z.ltb_lt]; lia.
Qed.

Lemma field_members_ok f : field_ok f = true ->
  forallb (fun '(n, v) => bytes_okb n && json_ok v) (field_members f) = true.
Proof.
  assert (U : forall w v, 0 <= w -> num_text (dec_of_Z (wrap w v)) = true)
    by (intros w v Hw; apply num_text_u; by apply wrap_range).
  destruct f as [n v|n r|n v|n v|n v|n v|n v|n v]; cbn [field_ok field_members]; intros H;
    try (cbn [forallb json_ok]; rewrite ?bytes_u8, ?num_text_d, ?(num_text_f _ v H); done).
  - destruct r as [|c r]; [done|]. cbn [raw_ok] in H. unfold raw_value.
    destruct (json_parse (c :: r)) as [v|]; [|done]. apply andb_prop in H as [H _].
    change (default JNull (Some v)) with v. cbn [forallb]. by rewrite bytes_u8, H.
  - cbn [forallb json_ok]. unfold u32. rewrite bytes_u8, U; [done|lia].
  - cbn [forallb json_ok]. unfold u64. rewrite bytes_u8, U; [done|lia].
Qed.

Lemma forallb_flat_map {A B} (p : B -> bool) (g : A -> list B) l :
  forallb p (flat_map g l) = forallb (fun x => forallb p (g x)) l.
Proof. induction l as [|x l IH]; [done|]. cbn. by rewrite forallb_app, IH. Qed.

Lemma fields_json_ok fs : forallb field_ok fs = true -> json_ok (JObj (flat_map field_members fs)) = true.
Proof.
  cbn [json_ok]. rewrite forallb_flat_map, !forallb_forall. intros H f Hf. by apply field_members_ok, H.
Qed.

Lemma calls_json_ok cs : forallb call_ok cs = true -> json_ok (calls_json cs) = true.
Proof.
  unfold calls_json. cbn [json_ok]. rewrite forallb_flat_map, !forallb_forall. intros H c Hc. specialize (H c Hc).
  destruct c as [f|n items]; [by apply field_members_ok|]. cbn [call_ok call_members] in *.
  apply andb_prop in H as [H _]. cbn [forallb json_ok]. rewrite bytes_u8, andb_true_r. cbn [andb].
  rewrite forallb_forall in *. intros v Hv. apply in_map_iff in Hv as (i & <- & Hi). specialize (H i Hi).
  destruct i as [fs|t]; [by apply fields_json_ok|apply bytes_u8].
Qed.

(** A line that fits is the compact text of the denoted object, and every
    JSON parser reads that object back. *)
Lemma serialised_parses cs cap tail :
  forallb call_ok cs = true -> forallb is_ws tail = true ->
  (length (print (calls_json cs)) + length tail < cap)%nat ->
  json_parse (jw_buf (jw_puts tail (jw_close (run_calls cs (jw_open (jw_init cap)))))) = Some (calls_json cs).
Proof.
  intros Hok Ht Hl. rewrite serialised by done. cbn [jw_buf]. by apply json_parse_print; [apply calls_json_ok|].
Qed.
