(* ===== verification/NodeDb.v ===== *)
(** The node-name cache (src/node_db.c, src/node_db.h): a table of at most
    1024 nodes in order of first sighting, updated field by field.

    The mutex makes each call atomic.  The persistence hook is an output. *)

From S2P Require Import Prelude CString.

Local Open Scope Z_scope.

Definition NODE_DB_LONG_NAME : nat := 64.
Definition NODE_DB_SHORT_NAME : nat := 8.
Definition NODE_DB_CAP : nat := 1024.

Record node_record := mk_node_record {
  nr_id : Z;
  nr_long_name : list Z;
  nr_short_name : list Z;
  nr_hw_model : Z;
  nr_role : Z;
}.

(** [g_nodes[0 .. g_count)] *)
Definition node_db : Type := list node_record.

Fixpoint find_locked (id : Z) (i : nat) (db : node_db) : option nat :=
  match db with
  | [] => None
  | n :: t => if nr_id n =? id then Some i else find_locked id (S i) t
  end.

(** The four conditional assignments; a NULL or empty name changes nothing. *)
Definition node_update (long_name short_name : list Z) (hw_model role : Z) (n : node_record) : node_record :=
  let n := match long_name with [] => n | _ => n {{ nr_long_name := copy_to NODE_DB_LONG_NAME long_name }} end in
  let n := match short_name with [] => n | _ => n {{ nr_short_name := copy_to NODE_DB_SHORT_NAME short_name }} end in
  let n := if nz hw_model then n {{ nr_hw_model := hw_model }} else n in
  if nz role then n {{ nr_role := role }} else n.

Definition node_db_load (db : node_db) (id : Z) (long_name short_name : list Z) (hw_model role : Z) : node_db :=
  match find_locked id 0 db with
  | Some i => alter (node_update long_name short_name hw_model role) i db
  | None =>
      let db := if (NODE_DB_CAP <=? length db)%nat then drop 1 db else db in
      db ++ [node_update long_name short_name hw_model role (mk_node_record id [] [] 0 0)]
  end.

(** The arguments of node_db_persist_hook. *)
Record persist := mk_persist { ps_id : Z; ps_long_name : list Z; ps_short_name : list Z; ps_hw_model : Z; ps_role : Z }.

Definition node_db_remember (db : node_db) (id : Z) (long_name short_name : list Z) (hw_model role : Z)
  : node_db * persist :=
  (node_db_load db id long_name short_name hw_model role, mk_persist id long_name short_name hw_model role).

Definition node_db_lookup (db : node_db) (id : Z) : option node_record :=
  match find_locked id 0 db with Some i => db !! i | None => None end.

(** ** The table as a bounded map *)

Definition node_db_ok (db : node_db) : Prop := NoDup (map nr_id db) /\ (length db <= NODE_DB_CAP)%nat.

Lemma find_locked_Some id db : forall i k, find_locked id i db = Some k ->
  exists n, (i <= k)%nat /\ db !! (k - i)%nat = Some n /\ nr_id n = id.
Proof.
  induction db as [|n db IH]; intros i k H; cbn [find_locked] in H; [done|]. destruct (Z.eqb_spec (nr_id n) id).
  - injection H as <-. exists n. rewrite Nat.sub_diag. done.
  - destruct (IH _ _ H) as (m & Hle & Hm & Hid). exists m. split; [lia|]. split; [|done].
    replace (k - i)%nat with (S (k - S i)) by lia. done.
Qed.

Lemma find_locked_None id db : forall i, find_locked id i db = None <-> ~ In id (map nr_id db).
Proof.
  induction db as [|n db IH]; intros i; cbn [find_locked map In]; [tauto|]. destruct (Z.eqb_spec (nr_id n) id).
  - split; [done|]. intros H. destruct H. by left.
  - rewrite IH. tauto.
Qed.

Lemma lookup_find db id : node_db_lookup db id = List.find (fun n => nr_id n =? id) db.
Proof.
  unfold node_db_lookup. enough (H : forall i, match find_locked id i db with Some k => db !! (k - i)%nat | None => None end =
    List.find (fun n => nr_id n =? id) db).
  { specialize (H O). destruct (find_locked id 0 db); [by rewrite Nat.sub_0_r in H|done]. }
  induction db as [|n db IH]; intros i; [done|]. cbn [find_locked List.find]. destruct (Z.eqb_spec (nr_id n) id).
  - by rewrite Nat.sub_diag.
  - rewrite <- (IH (S i)). destruct (find_locked id (S i) db) as [k|] eqn:E; [|done].
    destruct (find_locked_Some _ _ _ _ E) as (_ & Hle & _). by replace (k - i)%nat with (S (k - S i)) by lia.
Qed.

Lemma update_id l s h r n : nr_id (node_update l s h r n) = nr_id n.
Proof. unfold node_update. destruct l, s; repeat case_if; done. Qed.

Lemma alter_ids f i db : (forall n, nr_id (f n) = nr_id n) -> map nr_id (alter f i db) = map nr_id db.
Proof.
  intros Hf. revert i. induction db as [|n db IH]; intros [|i]; cbn; try done; [by rewrite Hf|].
  f_equal. apply IH.
Qed.

Lemma find_alter (f : node_record -> node_record) id db n i :
  (forall n, nr_id (f n) = nr_id n) -> NoDup (map nr_id db) -> db !! i = Some n ->
  List.find (fun n => nr_id n =? id) (alter f i db) =
  if nr_id n =? id then Some (f n) else List.find (fun n => nr_id n =? id) db.
Proof.
  intros Hf. revert i. induction db as [|m db IH]; intros [|i] Hn Hi; try done; cbn in Hn; inversion Hn; subst.
  - injection Hi as ->. cbn. rewrite Hf. by destruct (nr_id n =? id).
  - cbn in Hi |- *. destruct (Z.eqb_spec (nr_id m) id) as [Hm|]; [|by apply IH].
    destruct (Z.eqb_spec (nr_id n) id) as [Hid|]; [|done]. exfalso. apply H1. rewrite Hm, <- Hid.
    apply list_elem_of_In, in_map_iff. exists n. split; [done|]. apply list_elem_of_In. by eapply list_elem_of_lookup_2.
Qed.

Lemma find_app {A} (p : A -> bool) a b : List.find p (a ++ b) = match List.find p a with Some x => Some x | None => List.find p b end.
Proof. induction a as [|x a IH]; [done|]. cbn. by destruct (p x). Qed.

Lemma node_find_absent id db : ~ In id (map nr_id db) -> List.find (fun n => nr_id n =? id) db = None.
Proof.
  induction db as [|n db IH]; [done|]. cbn. intros H. destruct (Z.eqb_spec (nr_id n) id); [tauto|]. apply IH. tauto.
Qed.

Lemma cap_pos : (0 < NODE_DB_CAP)%nat.
Proof. unfold NODE_DB_CAP. lia. Qed.

(** The node that a sighting of [id] pushes out. *)
Definition evicted (db : node_db) (id : Z) : option Z :=
  if (NODE_DB_CAP <=? length db)%nat && negb (existsb (fun n => nr_id n =? id) db)
  then option_map nr_id (head db) else None.

(** The node cache is a bounded map with partial updates.  Recording a
    sighting leaves the node with the values it had (none, for a new node)
    overwritten by the non-empty and non-zero values of the sighting; no
    other node changes, except that a new node in a full table pushes out
    the node first seen longest ago; identities stay unique and the table
    stays within its 1024 slots. *)
Theorem node_db_bounded_map db id long short hw role :
  node_db_ok db ->
  let db' := fst (node_db_remember db id long short hw role) in
  node_db_ok db' /\
  node_db_lookup db' id =
    Some (node_update long short hw role (default (mk_node_record id [] [] 0 0) (node_db_lookup db id))) /\
  forall other, other <> id ->
    node_db_lookup db' other = if bool_decide (evicted db id = Some other) then None else node_db_lookup db other.
Proof.
  intros [Hn Hl]. pose proof cap_pos as Hc. cbn [fst node_db_remember]. unfold node_db_load. rewrite !lookup_find.
  set (up := node_update long short hw role). assert (Hup : forall n, nr_id (up n) = nr_id n) by apply update_id.
  destruct (find_locked id 0 db) as [i|] eqn:E.
  - destruct (find_locked_Some _ _ _ _ E) as (n & _ & Hi & Hid). rewrite Nat.sub_0_r in Hi.
    assert (Hin : existsb (fun n => nr_id n =? id) db = true).
    { apply existsb_exists. exists n. split; [by apply list_elem_of_In; eapply list_elem_of_lookup_2|by apply Z.eqb_eq]. }
    split; [split; [by rewrite alter_ids|by rewrite <- (length_map nr_id), alter_ids, length_map]|]. split.
    + rewrite (find_alter _ _ _ _ _ Hup Hn Hi), Hid, Z.eqb_refl. rewrite <- lookup_find. unfold node_db_lookup. by rewrite E, Hi.
    + intros other Ho. rewrite lookup_find, (find_alter _ _ _ _ _ Hup Hn Hi), Hid. destruct (Z.eqb_spec id other); [done|].
      unfold evicted. rewrite Hin, andb_false_r. by rewrite lookup_find.
  - apply find_locked_None in E. rewrite (node_find_absent id db E). cbn [default].
    assert (Hex : existsb (fun n => nr_id n =? id) db = false).
    { apply not_true_iff_false. rewrite existsb_exists. intros (n & Hin & He). apply Z.eqb_eq in He. apply E.
      apply in_map_iff. by exists n. }
    set (kept := if (NODE_DB_CAP <=? length db)%nat then drop 1 db else db).
    assert (Hk : ~ In id (map nr_id kept) /\ NoDup (map nr_id kept) /\ (length kept < NODE_DB_CAP)%nat).
    { unfold kept. destruct (Nat.leb_spec NODE_DB_CAP (length db)); [|done]. destruct db as [|m db]; [cbn [length] in *; lia|].
      change (drop 1 (m :: db)) with db. cbn [map In length] in *. inversion Hn. split_and!; [tauto|done|lia]. }
    destruct Hk as (Hk1 & Hk2 & Hk3). split; [split|split].
    + rewrite map_app. cbn [map]. rewrite Hup. apply NoDup_app. split_and!; [done| |apply NoDup_singleton].
      intros x Hx Hx'. apply list_elem_of_singleton in Hx'. subst x. by apply Hk1, list_elem_of_In.
    + rewrite length_app. cbn. lia.
    + rewrite find_app, (node_find_absent _ _ Hk1). cbn. rewrite Hup. cbn. by rewrite Z.eqb_refl.
    + intros other Ho. rewrite lookup_find, find_app. cbn [List.find]. rewrite Hup. cbn [nr_id].
      destruct (Z.eqb_spec id other); [done|]. unfold evicted, kept. rewrite Hex. cbn [negb]. rewrite andb_true_r, lookup_find.
      destruct (Nat.leb_spec NODE_DB_CAP (length db)).
      * destruct db as [|m db]; [done|]. change (drop 1 (m :: db)) with db. cbn [head option_map List.find]. cbn in Hn. inversion Hn; subst.
        case_bool_decide as Hd; [injection Hd as Hd; rewrite <- Hd|].
        -- rewrite node_find_absent; [done|]. by rewrite <- list_elem_of_In.
        -- destruct (Z.eqb_spec (nr_id m) other) as [Hd'|]; [by rewrite Hd' in Hd|]. by destruct (List.find _ _).
      * rewrite bool_decide_false by done. by destruct (List.find _ _).
Qed.

Lemma node_db_bounded_map_witness :
  node_db_lookup (fst (node_db_remember [mk_node_record 7 [65; 66] [65] 3 0] 7 [67] [] 0 2)) 7 =
  Some (mk_node_record 7 [67] [65] 3 2).
Proof.
  refine (proj1 (proj2 (node_db_bounded_map [mk_node_record 7 [65; 66] [65] 3 0] 7 [67] [] 0 2 _))).
  split; [apply NoDup_singleton|apply cap_pos].
Defined.
