(* ===== verification/Geofence.v ===== *)
(** Geofence alerts (src/geofence.c): the ray-casting test, the
    open-addressed table of inside flags, and geofence_check.

    The polygon file loader is not modelled: the polygons are an argument.
    The mutex makes a check atomic; its outputs (stdout, dashboard, webhook)
    are values of [geo_event]. *)

From stdpp Require Import gmap.
From S2P Require Import Prelude CFloat.

Local Open Scope Z_scope.

Definition GEO_STATE_BUCKETS : nat := 2048.

(** The literal 1e-12. *)
Definition f64_1e_12 : spec_float := S754_finite false 4951760157141521 (-92).

Record polygon := mk_polygon {
  pg_name : list Z;
  pg_vertices : list (spec_float * spec_float);  (* (lat, lon) *)
}.

(** ** Point in polygon *)

(** One edge, from [vj] to [vi]: does the ray from the point cross it? *)
Definition edge_crossed (lat lon : spec_float) (vi vj : spec_float * spec_float) : bool :=
  let '(yi, xi) := vi in
  let '(yj, xj) := vj in
  negb (Bool.eqb (f64_ltb lat yi) (f64_ltb lat yj)) &&
  f64_ltb lon (f64_add (f64_div (f64_mul (f64_sub xj xi) (f64_sub lat yi))
                                (f64_add (f64_sub yj yi) f64_1e_12)) xi).

Fixpoint pip_loop (lat lon : spec_float) (vj : spec_float * spec_float) (vs : list (spec_float * spec_float))
    (inside : bool) : bool :=
  match vs with
  | [] => inside
  | vi :: t => pip_loop lat lon vi t (if edge_crossed lat lon vi vj then negb inside else inside)
  end.

Definition point_in_polygon (p : polygon) (lat lon : spec_float) : bool :=
  match last (pg_vertices p) with
  | Some vj => pip_loop lat lon vj (pg_vertices p) false
  | None => false
  end.

(** ** The table of inside flags *)

(** [polygon_idx = -1] marks an empty slot. *)
Record state_entry := mk_state_entry { se_node_id : Z; se_polygon_idx : Z; se_inside : bool }.

Definition state_init : list state_entry := replicate GEO_STATE_BUCKETS (mk_state_entry 0 (-1) false).

Definition state_hash (node_id poly_idx : Z) : Z :=
  Z.lxor (u32 (node_id * 2654435761)) (u32 (poly_idx * 2246822519)).

Definition slot_at (h probe : nat) : nat := ((h + probe) mod GEO_STATE_BUCKETS)%nat.

(** The probe loop: the slot it returns. *)
Fixpoint state_probe (fuel probe h : nat) (t : list state_entry) (node_id poly_idx : Z) : option nat :=
  match fuel with
  | O => None
  | S k =>
      match t !! slot_at h probe with
      | None => None
      | Some e =>
          if se_polygon_idx e =? -1 then Some (slot_at h probe)
          else if (se_node_id e =? node_id) && (se_polygon_idx e =? poly_idx) then Some (slot_at h probe)
          else state_probe k (S probe) h t node_id poly_idx
      end
  end.

(** The slot and the table after an empty one has been claimed. *)
Definition state_find_or_make (t : list state_entry) (node_id poly_idx : Z) : option (nat * list state_entry) :=
  let h := Z.to_nat (state_hash node_id poly_idx mod Z.of_nat GEO_STATE_BUCKETS) in
  match state_probe GEO_STATE_BUCKETS 0 h t node_id poly_idx with
  | None => None
  | Some i =>
      match t !! i with
      | Some e => if se_polygon_idx e =? -1
                  then Some (i, <[i := mk_state_entry node_id poly_idx false]> t)
                  else Some (i, t)
      | None => None
      end
  end.

(** ** geofence_check *)

Record geo_event := mk_geo_event { ge_entry : bool; ge_node : Z; ge_polygon : Z }.

(** The body of the loop for polygon [i]. *)
Definition check_polygon (lat lon : spec_float) (node_id i : Z) (p : polygon) (t : list state_entry)
  : list state_entry * list geo_event :=
  if (length (pg_vertices p) <? 3)%nat then (t, [])
  else
    let now_in := point_in_polygon p lat lon in
    match state_find_or_make t node_id i with
    | None => (t, [])
    | Some (k, t) =>
        match t !! k with
        | Some st => if Bool.eqb (se_inside st) now_in then (t, [])
                     else (<[k := st {{ se_inside := now_in }}]> t, [mk_geo_event now_in node_id i])
        | None => (t, [])
        end
    end.

Fixpoint check_polygons (lat lon : spec_float) (node_id i : Z) (ps : list polygon) (t : list state_entry)
  : list state_entry * list geo_event :=
  match ps with
  | [] => (t, [])
  | p :: ps =>
      let '(t, ev) := check_polygon lat lon node_id i p t in
      let '(t, evs) := check_polygons lat lon node_id (i + 1) ps t in
      (t, ev ++ evs)
  end.

Definition geofence_check (ps : list polygon) (t : list state_entry) (node_id : Z) (lat lon : spec_float)
  : list state_entry * list geo_event :=
  if f64_eqb lat f_zero && f64_eqb lon f_zero then (t, [])
  else check_polygons lat lon node_id 0 ps t.

(** ** The table as a bounded map *)

Abbreviation N := GEO_STATE_BUCKETS.
Abbreviation key := (Z * Z)%type.

Definition occupied (e : state_entry) : bool := negb (se_polygon_idx e =? -1).
Definition key_of (e : state_entry) : key := (se_node_id e, se_polygon_idx e).
Definition home (k : key) : nat := Z.to_nat (state_hash (fst k) (snd k) mod Z.of_nat N).
Definition count_occ (t : list state_entry) : nat := length (List.filter occupied t).

(** The flags [m] are the occupied slots of [t]; a slot is reached from its
    key's home over occupied slots only. *)
Record table_rep (t : list state_entry) (m : gmap key bool) : Prop := {
  tr_len : length t = N;
  tr_stored : forall i e, t !! i = Some e -> occupied e = true -> m !! key_of e = Some (se_inside e);
  tr_found : forall k b, m !! k = Some b ->
    exists d, (d < N)%nat /\ t !! slot_at (home k) d = Some (mk_state_entry (fst k) (snd k) b) /\ snd k <> -1 /\
      forall c e, (c < d)%nat -> t !! slot_at (home k) c = Some e -> occupied e = true;
  tr_unique : forall i j e e', t !! i = Some e -> t !! j = Some e' -> occupied e = true -> occupied e' = true ->
    key_of e = key_of e' -> i = j;
  tr_size : size m = count_occ t;
}.

Lemma geo_buckets_pos : (0 < N)%nat.
Proof. unfold GEO_STATE_BUCKETS. lia. Qed.

Lemma slot_lt h d : (slot_at h d < N)%nat.
Proof. apply Nat.mod_upper_bound. pose proof geo_buckets_pos. lia. Qed.

Lemma slot_inj h c d : (c < N)%nat -> (d < N)%nat -> slot_at h c = slot_at h d -> c = d.
Proof.
  unfold slot_at. intros Hc Hd H. pose proof geo_buckets_pos as HN.
  rewrite (Nat.Div0.add_mod h c), (Nat.Div0.add_mod h d), (Nat.mod_small c), (Nat.mod_small d) in H by done.
  pose proof (Nat.mod_upper_bound h N ltac:(lia)). set (x := (h mod N)%nat) in *.
  destruct (Nat.lt_ge_cases (x + c) N) as [A|A], (Nat.lt_ge_cases (x + d) N) as [B|B].
  - rewrite !Nat.mod_small in H by done. lia.
  - rewrite (Nat.mod_small (x + c)) in H by done. replace (x + d)%nat with (x + d - N + 1 * N)%nat in H by lia.
    rewrite Nat.Div0.mod_add, Nat.mod_small in H by lia. lia.
  - rewrite (Nat.mod_small (x + d)) in H by done. replace (x + c)%nat with (x + c - N + 1 * N)%nat in H by lia.
    rewrite Nat.Div0.mod_add, Nat.mod_small in H by lia. lia.
  - replace (x + d)%nat with (x + d - N + 1 * N)%nat in H by lia. replace (x + c)%nat with (x + c - N + 1 * N)%nat in H by lia.
    rewrite !Nat.Div0.mod_add, !Nat.mod_small in H by lia. lia.
Qed.

Lemma slot_surj h i : (i < N)%nat -> exists d, (d < N)%nat /\ slot_at h d = i.
Proof.
  intros Hi. pose proof geo_buckets_pos as HN. pose proof (Nat.mod_upper_bound h N ltac:(lia)) as Hx.
  unfold slot_at. destruct (Nat.le_gt_cases (h mod N)%nat i) as [A|A].
  - exists (i - h mod N)%nat. split; [lia|]. rewrite Nat.Div0.add_mod, (Nat.mod_small (i - _)) by lia.
    rewrite Nat.mod_small; lia.
  - exists (i + N - h mod N)%nat. split; [lia|]. rewrite Nat.Div0.add_mod, (Nat.mod_small (i + N - _)) by lia.
    replace (h mod N + (i + N - h mod N))%nat with (i + 1 * N)%nat by lia. by rewrite Nat.Div0.mod_add, Nat.mod_small by lia.
Qed.

(** What stops the probe. *)
Definition stops (k : key) (e : state_entry) : bool := negb (occupied e) || bool_decide (key_of e = k).

Lemma stops_spec k e :
  stops k e = (se_polygon_idx e =? -1) || ((se_node_id e =? fst k) && (se_polygon_idx e =? snd k)).
Proof.
  unfold stops, occupied, key_of. rewrite negb_involutive. f_equal. destruct k as [a b]. cbn.
  case_bool_decide as H; [injection H as -> ->; by rewrite !Z.eqb_refl|].
  destruct (Z.eqb_spec (se_node_id e) a), (Z.eqb_spec (se_polygon_idx e) b); try done. by subst.
Qed.

(** The probe returns the first stopping slot. *)
Lemma probe_first t h k fuel : length t = N -> forall probe d,
  (probe <= d < probe + fuel)%nat ->
  (forall e, t !! slot_at h d = Some e -> stops k e = true) ->
  (forall c e, (probe <= c < d)%nat -> t !! slot_at h c = Some e -> stops k e = false) ->
  state_probe fuel probe h t (fst k) (snd k) = Some (slot_at h d).
Proof.
  intros Hl. induction fuel as [|f IH]; intros probe d Hd Hs Hb; [lia|]. cbn [state_probe].
  destruct (lookup_lt_is_Some_2 t (slot_at h probe)) as [e He]; [rewrite Hl; apply slot_lt|]. rewrite He.
  destruct (decide (probe = d)) as [->|Hne].
  - specialize (Hs e He). rewrite stops_spec in Hs. destruct (se_polygon_idx e =? -1); [done|]. cbn [orb] in Hs.
    by rewrite Hs.
  - pose proof (Hb probe e ltac:(lia) He) as Hf. rewrite stops_spec in Hf. apply orb_false_elim in Hf as [-> ->].
    apply IH; [lia|done|]. intros c e' Hc. apply Hb. lia.
Qed.

Lemma probe_none t h k fuel probe :
  length t = N -> (forall i e, t !! i = Some e -> stops k e = false) ->
  state_probe fuel probe h t (fst k) (snd k) = None.
Proof.
  intros Hl Hb. revert probe. induction fuel as [|f IH]; intros probe; [done|]. cbn [state_probe].
  destruct (t !! slot_at h probe) as [e|] eqn:He; [|done]. pose proof (Hb _ _ He) as Hf. rewrite stops_spec in Hf.
  apply orb_false_elim in Hf as [-> ->]. apply IH.
Qed.

(** The least position that satisfies a predicate, if any. *)
Lemma least_nat (p : nat -> bool) n :
  (forall d, (d < n)%nat -> p d = false) \/
  exists d, (d < n)%nat /\ p d = true /\ forall c, (c < d)%nat -> p c = false.
Proof.
  induction n as [|n [IH|(d & Hd & Hp)]]; [left; lia| |right; exists d; split; [lia|done]].
  destruct (p n) eqn:E; [right; exists n; split; [lia|done]|left].
  intros d Hd. destruct (decide (d = n)) as [->|]; [done|]. apply IH. lia.
Qed.

Definition slot_stops (t : list state_entry) (k : key) (d : nat) : bool :=
  match t !! slot_at (home k) d with Some e => stops k e | None => false end.

Lemma occupied_not_stop t m k i e :
  table_rep t m -> m !! k = None -> t !! i = Some e -> occupied e = true -> stops k e = false.
Proof.
  intros R Hk Hi Ho. unfold stops. rewrite Ho. cbn. apply bool_decide_false. intros <-.
  by rewrite (tr_stored _ _ R _ _ Hi Ho) in Hk.
Qed.

Lemma count_occ_lt t i e : t !! i = Some e -> occupied e = false -> (count_occ t < length t)%nat.
Proof.
  unfold count_occ. revert i. induction t as [|x t IH]; intros [|i] H Ho; try done; cbn in *.
  - injection H as ->. rewrite Ho. pose proof (List.filter_length_le occupied t). lia.
  - specialize (IH _ H Ho). destruct (occupied x); cbn; lia.
Qed.

Lemma count_occ_full t : (forall i e, t !! i = Some e -> occupied e = true) -> count_occ t = length t.
Proof.
  unfold count_occ. induction t as [|x t IH]; intros H; [done|]. cbn. rewrite (H O x eq_refl). cbn. f_equal. apply IH.
  intros i e. apply (H (S i)).
Qed.

Lemma count_occ_insert t i e e' : t !! i = Some e -> occupied e' = true ->
  count_occ (<[i := e']> t) = (count_occ t + (if occupied e then 0 else 1))%nat.
Proof.
  unfold count_occ. intros H Ho. revert i H. induction t as [|x t IH]; intros [|i] H; try done.
  - injection H as ->. cbn. rewrite Ho. destruct (occupied e); cbn; lia.
  - specialize (IH _ H). change (<[S i:=e']> (x :: t)) with (x :: <[i:=e']> t). cbn [List.filter].
    destruct (occupied x); cbn [length]; lia.
Qed.

(** Looking a present key up. *)
Lemma find_present t m k b : table_rep t m -> m !! k = Some b ->
  exists i, state_find_or_make t (fst k) (snd k) = Some (i, t) /\
            t !! i = Some (mk_state_entry (fst k) (snd k) b).
Proof.
  intros R Hk. destruct (tr_found _ _ R k b Hk) as (d & Hd & Hs & Hn & Hp). unfold state_find_or_make.
  fold (home k). rewrite (probe_first t (home k) k N (tr_len _ _ R) 0 d).
  - exists (slot_at (home k) d). rewrite Hs. cbn [se_polygon_idx]. destruct (Z.eqb_spec (snd k) (-1)); [done|]. done.
  - lia.
  - rewrite Hs. intros e [= <-]. rewrite stops_spec. cbn. rewrite !Z.eqb_refl. by rewrite orb_true_r.
  - intros c e Hc He. pose proof (Hp c e ltac:(lia) He) as Ho. unfold stops. rewrite Ho. cbn.
    apply bool_decide_false. intros Ek. assert (c = d); [|lia].
    apply (slot_inj (home k)); [lia|done|]. eapply (tr_unique _ _ R); [exact He|exact Hs|done| |].
    + unfold occupied. cbn. apply negb_true_iff, Z.eqb_neq. done.
    + rewrite Ek. by destruct k.
Qed.

(** Claiming a slot for a new key: every slot before it is occupied. *)
Lemma find_absent t m k : table_rep t m -> m !! k = None -> snd k <> -1 ->
  if (size m <? N)%nat
  then exists d e, (d < N)%nat /\ t !! slot_at (home k) d = Some e /\ occupied e = false /\
         (forall c e, (c < d)%nat -> t !! slot_at (home k) c = Some e -> occupied e = true) /\
         state_find_or_make t (fst k) (snd k) =
           Some (slot_at (home k) d, <[slot_at (home k) d := mk_state_entry (fst k) (snd k) false]> t)
  else state_find_or_make t (fst k) (snd k) = None.
Proof.
  intros R Hk Hn. pose proof (tr_len _ _ R) as Hl.
  destruct (least_nat (fun d => match t !! slot_at (home k) d with Some e => negb (occupied e) | None => false end) N)
    as [Hall|(d & Hd & Hp & Hm)].
  - assert (Ha : forall i e, t !! i = Some e -> occupied e = true).
    { intros i e He. destruct (slot_surj (home k) i) as (d & Hd & <-); [rewrite <- Hl; by eapply lookup_lt_Some|].
      specialize (Hall d Hd). cbn beta in Hall. rewrite He in Hall. by apply negb_false_iff. }
    rewrite (tr_size _ _ R), (count_occ_full t Ha), Hl, Nat.ltb_irrefl. unfold state_find_or_make. fold (home k).
    rewrite probe_none; [done|done|]. intros i e He. exact (occupied_not_stop _ _ _ _ _ R Hk He (Ha i e He)).
  - destruct (t !! slot_at (home k) d) as [e|] eqn:He; [|done]. apply negb_true_iff in Hp.
    pose proof (count_occ_lt _ _ _ He Hp) as Hlt. rewrite (tr_size _ _ R), <- Hl.
    destruct (Nat.ltb_spec (count_occ t) (length t)); [|lia].
    assert (Hb : forall c e, (c < d)%nat -> t !! slot_at (home k) c = Some e -> occupied e = true).
    { intros c e' Hc He'. specialize (Hm c Hc). cbn beta in Hm. rewrite He' in Hm. by apply negb_false_iff. }
    exists d, e. split_and!; [by rewrite Hl|done|done|done|]. unfold state_find_or_make. fold (home k).
    rewrite (probe_first t (home k) k N Hl 0 d).
    + rewrite He. unfold occupied in Hp. apply negb_false_iff in Hp. by rewrite Hp.
    + lia.
    + rewrite He. intros ? [= <-]. unfold stops. by rewrite Hp.
    + intros c e' Hc He'. exact (occupied_not_stop _ _ _ _ _ R Hk He' (Hb c e' ltac:(lia) He')).
Qed.

(** Writing the flag of a key whose slot [i] is known. *)
Lemma rep_set t m k i b b' : table_rep t m -> m !! k = Some b ->
  t !! i = Some (mk_state_entry (fst k) (snd k) b) -> snd k <> -1 ->
  table_rep (<[i := mk_state_entry (fst k) (snd k) b']> t) (<[k := b']> m).
Proof.
  intros R Hk Hi Hn. pose proof (lookup_lt_Some _ _ _ Hi) as Hlt.
  assert (Ho : forall x, occupied (mk_state_entry (fst k) (snd k) x) = true)
    by (intros x; unfold occupied; cbn; by apply negb_true_iff, Z.eqb_neq).
  assert (Hkey : forall x, key_of (mk_state_entry (fst k) (snd k) x) = k) by (by destruct k).
  assert (Hsame : forall j e, <[i := mk_state_entry (fst k) (snd k) b']> t !! j = Some e ->
     exists e0, t !! j = Some e0 /\ key_of e0 = key_of e /\ occupied e0 = occupied e /\ (j <> i -> e = e0)).
  { intros j e He. destruct (decide (i = j)) as [<-|Hne].
    - rewrite list_lookup_insert_eq in He by done. injection He as <-. eexists. split; [exact Hi|].
      rewrite !Hkey, !Ho. done.
    - rewrite list_lookup_insert_ne in He by done. exists e. done. }
  split.
  - rewrite length_insert. apply R.
  - intros j e He Hoe. destruct (decide (i = j)) as [<-|Hne].
    + rewrite list_lookup_insert_eq in He by done. injection He as <-. by rewrite Hkey, lookup_insert_eq.
    + rewrite list_lookup_insert_ne in He by done. rewrite lookup_insert_ne; [by eapply (tr_stored _ _ R)|].
      intros E. destruct Hne. eapply (tr_unique _ _ R); [exact Hi|exact He|apply Ho|done|]. by rewrite Hkey.
  - intros k' c Hc. assert (Hex : exists c0, m !! k' = Some c0 /\ (k' <> k -> c0 = c) /\ (k' = k -> c = b')).
    { destruct (decide (k = k')) as [<-|Hne].
      - rewrite lookup_insert_eq in Hc. injection Hc as <-. by exists b.
      - rewrite lookup_insert_ne in Hc by done. exists c. split_and!; [done|done|congruence]. }
    destruct Hex as (c0 & Hm & E1 & E2). destruct (tr_found _ _ R k' c0 Hm) as (d & Hd & Hs & Hn' & Hp).
    exists d. split; [done|]. split; [|split; [done|]].
    + destruct (decide (k' = k)) as [->|Hne].
      * rewrite (E2 eq_refl). assert (slot_at (home k) d = i) as ->.
        { eapply (tr_unique _ _ R); [exact Hs|exact Hi|apply Ho|apply Ho|by rewrite !Hkey]. }
        by rewrite list_lookup_insert_eq.
      * rewrite <- (E1 Hne). rewrite list_lookup_insert_ne; [done|]. intros E. apply Hne.
        rewrite <- E, Hi in Hs. injection Hs as E3 E4 _. destruct k, k'. cbn in *. congruence.
    + intros x e Hx He. destruct (Hsame _ _ He) as (e0 & He0 & _ & <- & _). by apply (Hp x e0).
  - intros x y e e' He He' Ox Oy Ek. destruct (Hsame _ _ He) as (e0 & He0 & K0 & O0 & _).
    destruct (Hsame _ _ He') as (e1 & He1 & K1 & O1 & _). eapply (tr_unique _ _ R); [exact He0|exact He1|..]; congruence.
  - rewrite map_size_insert_Some by (by exists b). rewrite (count_occ_insert _ _ _ _ Hi (Ho b')), (Ho b), (tr_size _ _ R). lia.
Qed.

Lemma rep_claim t m k d e : table_rep t m -> m !! k = None -> snd k <> -1 -> (d < N)%nat ->
  t !! slot_at (home k) d = Some e -> occupied e = false ->
  (forall c e, (c < d)%nat -> t !! slot_at (home k) c = Some e -> occupied e = true) ->
  table_rep (<[slot_at (home k) d := mk_state_entry (fst k) (snd k) false]> t) (<[k := false]> m).
Proof.
  intros R Hk Hn Hd He Hoe Hb. set (i := slot_at (home k) d) in *. pose proof (lookup_lt_Some _ _ _ He) as Hlt.
  set (new := mk_state_entry (fst k) (snd k) false).
  assert (Ho : occupied new = true) by (unfold occupied; cbn; by apply negb_true_iff, Z.eqb_neq).
  assert (Hkey : key_of new = k) by (by destruct k).
  assert (Hold : forall j x, t !! j = Some x -> occupied x = true -> <[i := new]> t !! j = Some x).
  { intros j x Hx Ox. rewrite list_lookup_insert_ne; [done|]. intros E. rewrite <- E in Hx. congruence. }
  assert (Hnew : forall j x, <[i := new]> t !! j = Some x -> (j = i /\ x = new) \/ (j <> i /\ t !! j = Some x)).
  { intros j x Hx. destruct (decide (i = j)) as [<-|Hne].
    - rewrite list_lookup_insert_eq in Hx by done. left. by injection Hx as <-.
    - rewrite list_lookup_insert_ne in Hx by done. right. by split. }
  assert (Hdist : forall j x, t !! j = Some x -> occupied x = true -> key_of x <> k).
  { intros j x Hx Ox E. pose proof (tr_stored _ _ R _ _ Hx Ox) as E'. by rewrite E, Hk in E'. }
  split.
  - rewrite length_insert. apply R.
  - intros j x Hx Ox. apply Hnew in Hx as [[-> ->]|[Hne Hx]]; [by rewrite Hkey, lookup_insert_eq|].
    rewrite lookup_insert_ne; [by eapply (tr_stored _ _ R)|]. intros E. by destruct (Hdist _ _ Hx Ox).
  - intros k' c Hc. destruct (decide (k = k')) as [<-|Hne].
    + rewrite lookup_insert_eq in Hc. injection Hc as <-. exists d. fold i. rewrite list_lookup_insert_eq by done.
      split_and!; try done. intros c x Hc Hx. destruct (Hnew _ _ Hx) as [[_ ->]|[_ Hx']]; [done|by apply (Hb c x)].
    + rewrite lookup_insert_ne in Hc by done. destruct (tr_found _ _ R k' c Hc) as (d' & Hd' & Hs & Hn' & Hp).
      exists d'. split; [done|]. split; [|split; [done|]].
      * apply Hold; [done|]. unfold occupied. cbn. by apply negb_true_iff, Z.eqb_neq.
      * intros x y Hx Hy. destruct (Hnew _ _ Hy) as [[_ ->]|[_ Hy']]; [done|by apply (Hp x y)].
  - intros x y a b Ha Hb' Oa Ob E. destruct (Hnew _ _ Ha) as [[-> ->]|[Hx Ha']], (Hnew _ _ Hb') as [[-> ->]|[Hy Hb'']];
      [done| | |by eapply (tr_unique _ _ R)]; exfalso.
    + apply (Hdist _ _ Hb'' Ob). by rewrite <- E.
    + apply (Hdist _ _ Ha' Oa). by rewrite E.
  - rewrite map_size_insert_None by done. rewrite (count_occ_insert _ _ _ _ He Ho), Hoe, (tr_size _ _ R). lia.
Qed.

(** ** Refinement *)

(** The abstract geofence: one flag per (node, polygon), at most 2048 of
    them; a pair beyond that is not tracked. *)
Definition flag_step (now_in : bool) (k : key) (m : gmap key bool) : gmap key bool * list geo_event :=
  match m !! k with
  | Some was => (<[k := now_in]> m, if Bool.eqb was now_in then [] else [mk_geo_event now_in (fst k) (snd k)])
  | None => if (size m <? N)%nat
            then (<[k := now_in]> m, if now_in then [mk_geo_event true (fst k) (snd k)] else [])
            else (m, [])
  end.

Fixpoint spec_polygons (lat lon : spec_float) (node i : Z) (ps : list polygon) (m : gmap key bool)
  : gmap key bool * list geo_event :=
  match ps with
  | [] => (m, [])
  | p :: ps =>
      let '(m, ev) := if (length (pg_vertices p) <? 3)%nat then (m, [])
                      else flag_step (point_in_polygon p lat lon) (node, i) m in
      let '(m, evs) := spec_polygons lat lon node (i + 1) ps m in
      (m, ev ++ evs)
  end.

Definition spec_check (ps : list polygon) (m : gmap key bool) (node : Z) (lat lon : spec_float)
  : gmap key bool * list geo_event :=
  if f64_eqb lat f_zero && f64_eqb lon f_zero then (m, []) else spec_polygons lat lon node 0 ps m.

(** A history of reported positions, and the events it raises. *)
Definition position : Type := Z * (spec_float * spec_float).

Fixpoint run_geo {S} (check : S -> Z -> spec_float -> spec_float -> S * list geo_event) (s : S)
    (history : list position) : list geo_event :=
  match history with
  | [] => []
  | (node, (lat, lon)) :: t => let '(s, ev) := check s node lat lon in ev ++ run_geo check s t
  end.

Lemma check_polygon_refines lat lon node i p t m : table_rep t m -> i <> -1 ->
  let r := check_polygon lat lon node i p t in
  let q := if (length (pg_vertices p) <? 3)%nat then (m, []) else flag_step (point_in_polygon p lat lon) (node, i) m in
  snd r = snd q /\ table_rep (fst r) (fst q).
Proof.
  intros R Hi. cbn zeta. unfold check_polygon. destruct (_ <? 3)%nat; [done|]. set (now_in := point_in_polygon p lat lon).
  unfold flag_step. destruct (m !! (node, i)) as [was|] eqn:Hm.
  - destruct (find_present t m (node, i) was R Hm) as (k & E & Hk). cbn [fst snd] in E, Hk. rewrite E, Hk. cbn [se_inside].
    destruct (Bool.eqb was now_in) eqn:Eb; cbn [fst snd]; (split; [done|]).
    + apply Bool.eqb_prop in Eb. subst was. by rewrite insert_id.
    + exact (rep_set t m (node, i) k was now_in R Hm Hk Hi).
  - pose proof (find_absent t m (node, i) R Hm Hi) as H. destruct (size m <? N)%nat eqn:Es.
    + destruct H as (d & e & Hd & He & Ho & Hb & E). cbn [fst snd] in E. rewrite E.
      pose proof (rep_claim t m (node, i) d e R Hm Hi Hd He Ho Hb) as R'. cbn [fst snd] in R'.
      assert (Hs : <[slot_at (home (node, i)) d := mk_state_entry node i false]> t !! slot_at (home (node, i)) d =
        Some (mk_state_entry node i false)) by (apply list_lookup_insert_eq; by eapply lookup_lt_Some).
      rewrite Hs. cbn [se_inside]. destruct now_in; cbn [Bool.eqb fst snd]; (split; [done|]); [|done].
      pose proof (rep_set _ _ (node, i) _ false true R' ltac:(apply lookup_insert_eq) Hs Hi) as R2.
      by rewrite insert_insert_eq in R2.
    + cbn [fst snd] in H. by rewrite H.
Qed.

Lemma check_polygons_refines lat lon node ps : forall i t m, table_rep t m -> 0 <= i ->
  let r := check_polygons lat lon node i ps t in let q := spec_polygons lat lon node i ps m in
  snd r = snd q /\ table_rep (fst r) (fst q).
Proof.
  induction ps as [|p ps IH]; intros i t m R Hi; [done|]. cbn zeta. cbn [check_polygons spec_polygons].
  destruct (check_polygon_refines lat lon node i p t m R ltac:(lia)) as [E1 R1].
  destruct (check_polygon _ _ _ _ _ _) as [t1 ev1]. destruct (if (_ <? 3)%nat then _ else _) as [m1 ev1'].
  cbn [fst snd] in E1, R1. destruct (IH (i + 1) t1 m1 R1 ltac:(lia)) as [E2 R2].
  destruct (check_polygons _ _ _ _ _ t1), (spec_polygons _ _ _ _ _ m1). cbn [fst snd] in *. by rewrite E1, E2.
Qed.

Lemma state_init_rep : table_rep state_init ∅.
Proof.
  assert (H : forall i e, state_init !! i = Some e -> occupied e = false).
  { intros i e. unfold state_init. rewrite lookup_replicate. by intros [-> _]. }
  split.
  - apply length_replicate.
  - intros i e Hi Ho. by rewrite (H i e Hi) in Ho.
  - intros k b Hk. by rewrite lookup_empty in Hk.
  - intros i j e e' Hi _ Ho. by rewrite (H i e Hi) in Ho.
  - rewrite map_size_empty. unfold count_occ, state_init. generalize N. intros n. induction n; [done|]. done.
Qed.

(** The entry flags of the events of one pair, and their alternation. *)
Definition flags_of (k : key) (evs : list geo_event) : list bool :=
  map ge_entry (List.filter (fun e => bool_decide ((ge_node e, ge_polygon e) = k)) evs).
Fixpoint alternating (b : bool) (l : list bool) : Prop :=
  match l with [] => True | x :: t => x = b /\ alternating (negb b) t end.

(** The next flag of [k], given the abstract state. *)
Definition next_flag (k : key) (m : gmap key bool) : bool := negb (default false (m !! k)).

(** [evs] moves the flag of [k] from [b] to [b'] by alternations. *)
Definition alt_to (b b' : bool) (l : list bool) : Prop := forall r, alternating b' r -> alternating b (l ++ r).

Lemma flags_app k a b : flags_of k (a ++ b) = flags_of k a ++ flags_of k b.
Proof. unfold flags_of. by rewrite List.filter_app, map_app. Qed.

Lemma flag_step_alt now_in k' k m :
  let q := flag_step now_in k' m in alt_to (next_flag k m) (next_flag k (fst q)) (flags_of k (snd q)).
Proof.
  cbn zeta. intros r Hr. unfold flag_step, next_flag in *. destruct k' as [a b]. destruct (decide ((a, b) = k)) as [<-|Hne].
  - destruct (m !! (a, b)) as [was|] eqn:E; cbn [fst snd] in *.
    + rewrite lookup_insert_eq in Hr. unfold flags_of.
      destruct was, now_in; cbn [Bool.eqb List.filter ge_node ge_polygon fst snd] in *;
        rewrite ?bool_decide_true by done; cbn in *; auto.
    + destruct (size m <? N)%nat; cbn [fst snd] in *; [|by rewrite E in Hr]. rewrite lookup_insert_eq in Hr. unfold flags_of.
      destruct now_in; cbn [List.filter ge_node ge_polygon fst snd] in *; rewrite ?bool_decide_true by done; cbn in *; auto.
  - assert (Hf : forall x, flags_of k [mk_geo_event x a b] = []).
    { intros x. unfold flags_of. cbn [List.filter ge_node ge_polygon]. by rewrite bool_decide_false. }
    destruct (m !! (a, b)) as [was|]; cbn [fst snd] in *.
    + rewrite lookup_insert_ne in Hr by done. destruct (Bool.eqb _ _); [done|]. by rewrite Hf.
    + destruct (size m <? N)%nat; cbn [fst snd] in *; [|done]. rewrite lookup_insert_ne in Hr by done.
      destruct now_in; [by rewrite Hf|done].
Qed.

Lemma spec_polygons_alt lat lon node k ps : forall i m,
  let q := spec_polygons lat lon node i ps m in alt_to (next_flag k m) (next_flag k (fst q)) (flags_of k (snd q)).
Proof.
  induction ps as [|p ps IH]; intros i m; cbn zeta; [intros r Hr; exact Hr|]. cbn [spec_polygons]. intros r Hr.
  assert (H1 : let q := if (length (pg_vertices p) <? 3)%nat then (m, [])
                        else flag_step (point_in_polygon p lat lon) (node, i) m in
               alt_to (next_flag k m) (next_flag k (fst q)) (flags_of k (snd q))).
  { destruct (_ <? 3)%nat; [intros q w Hw; exact Hw|apply flag_step_alt]. }
  destruct (if (_ <? 3)%nat then _ else _) as [m1 ev1]. specialize (IH (i + 1) m1). cbn zeta in *.
  destruct (spec_polygons _ _ _ _ _ m1) as [m2 ev2]. cbn [fst snd] in *. rewrite flags_app, <- app_assoc.
  apply H1, IH, Hr.
Qed.

(** C16: geofence alerts are those of one flag per node and polygon.  For
    every list of polygons and every history of positions, the hash table
    raises exactly the events of a map from (node, polygon) to the last known
    side, of at most 2048 pairs: an event is raised when a position lies on
    the other side of the polygon than the one before (outside, at first).
    For each pair the events therefore alternate, an entry first. *)
Theorem geofence_events_alternate ps history :
  let events := run_geo (geofence_check ps) state_init history in
  events = run_geo (spec_check ps) ∅ history /\ forall k, alternating true (flags_of k events).
Proof.
  cbn zeta. assert (E : run_geo (geofence_check ps) state_init history = run_geo (spec_check ps) ∅ history).
  { generalize state_init_rep. generalize state_init (∅ : gmap key bool).
    induction history as [|[node [lat lon]] h IH]; intros t m R; [done|]. cbn [run_geo]. unfold geofence_check at 1, spec_check at 1.
    destruct (_ && _); [by rewrite (IH t m R)|].
    destruct (check_polygons_refines lat lon node ps 0 t m R ltac:(lia)) as [E1 R1].
    destruct (check_polygons _ _ _ _ _ _), (spec_polygons _ _ _ _ _ _). cbn [fst snd] in *. by rewrite E1, (IH _ _ R1). }
  split; [done|]. intros k. rewrite E. change true with (next_flag k ∅). generalize (∅ : gmap key bool). clear E.
  induction history as [|[node [lat lon]] h IH]; intros m; [done|]. cbn [run_geo]. unfold spec_check at 1.
  destruct (_ && _); [by rewrite app_nil_l|]. pose proof (spec_polygons_alt lat lon node k ps 0 m) as H.
  destruct (spec_polygons _ _ _ _ _ _) as [m' ev]. cbn [fst snd] in H. rewrite flags_app. apply H, IH.
Qed.
