(* ===== verification/Feed.v ===== *)
(** The Meshtastic half of the JSON feed (src/feed.c, serialize_event), and
    what both serialisers share.

    A serialiser is the sequence of writer calls it makes ([call]s of Jw),
    each under the source's condition.  The clock, the station fix and the
    options are arguments ([feed_env]); what a serialiser does besides
    writing is a [feed_effect]. *)

From Stdlib Require Import String.
From S2P Require Import Prelude CString CFloat MeshEvent Meshtastic MeshTelemetry MeshDecoders MeshCore.
From S2P Require Import MeshCoreDecoders Json Jw.

Local Open Scope Z_scope.
Local Open Scope list_scope.

Definition when {A} (b : bool) (l : list A) : list A := if b then l else [].

(** A C string read through a pointer stops at its first NUL. *)
Definition cstr (s : list Z) : list Z := until_nul s.

(** [x != 0.0f] on a float pattern. *)
Definition f32_nz (p : Z) : bool := negb (Z.land p 0x7fffffff =? 0).
Definition f64_nz (x : spec_float) : bool := negb (f64_eqb x f_zero).

(** [(float)x] of a double. *)
Definition f32_of_f64 (x : spec_float) : spec_float :=
  match x with
  | S754_finite s m e => binary_normalize 24 128 (if s then Zneg m else Zpos m) e s
  | _ => x
  end.

(** The recurring statements [if (x) jw_field_...(j, "name", x)]. *)
Definition nz_u32 (n : string) (v : Z) : list field := when (nz v) [FU32 (str n) v].
Definition nz_u64 (n : string) (v : Z) : list field := when (nz v) [FU64 (str n) v].
Definition nz_i32 (n : string) (v : Z) : list field := when (nz v) [FI32 (str n) v].
Definition nz_f32 (n : string) (p : Z) : list field := when (f32_nz p) [FF32 (str n) (f32_of_bits p)].
Definition ne_str (n : string) (s : list Z) : list field := when (nonempty s) [FStr (str n) (cstr s)].

Definition hex_of (l : list Z) : list Z :=
  flat_map (fun b => [hex_digit (Z.land (Z.shiftr b 4) 0xF); hex_digit (Z.land b 0xF)]) l.

(** [snprintf(buf, 16, "!%08x", id)] *)
Definition node_id_text (id : Z) : list Z :=
  33 :: map (fun i => hex_digit (Z.land (Z.shiftr (u32 id) (4 * Z.of_nat i)) 0xF)) (rev (seq 0 8)).

Inductive feed_effect :=
| FxRemember (id : Z) (long_name short_name : list Z) (hw_model role : Z)
| FxCotPosition (p : mesh_position)
| FxCotAtak (a : mesh_atak)
| FxGeofence (node_id : Z) (lat lon : spec_float).

Record feed_env := mk_feed_env {
  fe_station_id : option (list Z);
  fe_station : option (spec_float * spec_float * spec_float);  (* a fix younger than 30 s *)
  fe_tv : Z * Z;                                               (* gettimeofday: seconds, microseconds *)
  fe_tv_observer : Z * Z;                                      (* and its reading in the observer serialiser *)
  fe_trusted_only : bool;
  fe_udp_feeds : nat;
  fe_mqtt_observer : bool;
  fe_observer_id : option (list Z);
}.

(** [(double)tv.tv_sec + (double)tv.tv_usec / 1e6] *)
Definition ts_of (tv : Z * Z) : spec_float :=
  f64_add (f64_of_Z (fst tv)) (f64_div (f64_of_Z (snd tv)) f64_1e6).

(** ** Telemetry blocks *)

Definition telemetry_block (have : bool) (name : string) (fs : list field) : list call :=
  when have [CArr (str name) [IObj fs]].

Definition device_block (t : device_metrics) : list field :=
  [ FU32 (str "battery") (battery_level t); FF32 (str "voltage") (f32_of_bits (voltage t));
    FF32 (str "ch_util") (f32_of_bits (channel_utilization t));
    FF32 (str "air_tx") (f32_of_bits (air_util_tx t)); FU32 (str "uptime") (uptime_seconds t) ].

Definition environment_block (t : env_metrics) : list field :=
  nz_f32 "temp_c" (temperature_c t) ++
  nz_f32 "humidity" (relative_humidity t) ++
  nz_f32 "pressure" (barometric_pressure_hpa t) ++
  nz_f32 "gas_res" (gas_resistance t) ++
  nz_f32 "voltage" (voltage_env t) ++
  nz_f32 "current" (current t) ++
  nz_u32 "iaq" (iaq t) ++
  nz_f32 "distance_mm" (distance_mm t) ++
  nz_f32 "lux" (lux t) ++
  nz_f32 "white_lux" (white_lux t) ++
  nz_f32 "ir_lux" (ir_lux t) ++
  nz_f32 "uv_lux" (uv_lux t) ++
  nz_u32 "wind_dir_deg" (wind_direction t) ++
  nz_f32 "wind_mps" (wind_speed t) ++
  nz_f32 "weight" (weight t) ++
  nz_f32 "wind_gust_mps" (wind_gust t) ++
  nz_f32 "wind_lull_mps" (wind_lull t) ++
  nz_f32 "radiation_uSvh" (radiation_uSvh t) ++
  nz_f32 "rain_1h_mm" (rainfall_1h_mm t) ++
  nz_f32 "rain_24h_mm" (rainfall_24h_mm t) ++
  nz_u32 "soil_moisture" (soil_moisture t) ++
  nz_f32 "soil_temp_c" (soil_temperature_c t).

Definition power_block (t : power_metrics) : list field :=
  nz_f32 "ch1_v" (ch1_voltage t) ++
  nz_f32 "ch1_a" (ch1_current t) ++
  nz_f32 "ch2_v" (ch2_voltage t) ++
  nz_f32 "ch2_a" (ch2_current t) ++
  nz_f32 "ch3_v" (ch3_voltage t) ++
  nz_f32 "ch3_a" (ch3_current t) ++
  nz_f32 "ch4_v" (ch4_voltage t) ++
  nz_f32 "ch4_a" (ch4_current t) ++
  nz_f32 "ch5_v" (ch5_voltage t) ++
  nz_f32 "ch5_a" (ch5_current t) ++
  nz_f32 "ch6_v" (ch6_voltage t) ++
  nz_f32 "ch6_a" (ch6_current t) ++
  nz_f32 "ch7_v" (ch7_voltage t) ++
  nz_f32 "ch7_a" (ch7_current t) ++
  nz_f32 "ch8_v" (ch8_voltage t) ++
  nz_f32 "ch8_a" (ch8_current t).

Definition air_block (t : air_quality) : list field :=
  nz_u32 "pm10_std" (aq_pm10_standard t) ++
  nz_u32 "pm25_std" (aq_pm25_standard t) ++
  nz_u32 "pm100_std" (aq_pm100_standard t) ++
  nz_u32 "pm10_env" (aq_pm10_env t) ++
  nz_u32 "pm25_env" (aq_pm25_env t) ++
  nz_u32 "pm100_env" (aq_pm100_env t) ++
  nz_u32 "p_03um" (aq_particles_03um t) ++
  nz_u32 "p_05um" (aq_particles_05um t) ++
  nz_u32 "p_10um" (aq_particles_10um t) ++
  nz_u32 "p_25um" (aq_particles_25um t) ++
  nz_u32 "p_50um" (aq_particles_50um t) ++
  nz_u32 "p_100um" (aq_particles_100um t) ++
  nz_u32 "co2_ppm" (aq_co2 t) ++
  nz_f32 "co2_temp_c" (aq_co2_temperature_c t) ++
  nz_f32 "co2_hum" (aq_co2_humidity t) ++
  nz_f32 "ch2o_ppb" (aq_formaldehyde_ppb t) ++
  nz_f32 "ch2o_hum" (aq_form_humidity t) ++
  nz_f32 "ch2o_temp_c" (aq_form_temperature_c t) ++
  nz_u32 "pm40_std" (aq_pm40_standard t) ++
  nz_u32 "p_40um" (aq_particles_40um t) ++
  nz_f32 "pm_temp_c" (aq_pm_temperature_c t) ++
  nz_f32 "pm_hum" (aq_pm_humidity t) ++
  nz_f32 "pm_voc" (aq_pm_voc_idx t) ++
  nz_f32 "pm_nox" (aq_pm_nox_idx t) ++
  nz_f32 "p_tps_um" (aq_particles_tps t).

Definition local_block (t : local_stats) : list field :=
  nz_u32 "uptime_s" (local_uptime_s t) ++
  nz_f32 "ch_util" (local_channel_utilization t) ++
  nz_f32 "air_tx" (local_air_util_tx t) ++
  nz_u32 "pkts_tx" (local_num_packets_tx t) ++
  nz_u32 "pkts_rx" (local_num_packets_rx t) ++
  nz_u32 "pkts_rx_bad" (local_num_packets_rx_bad t) ++
  nz_u32 "nodes_online" (local_num_online_nodes t) ++
  nz_u32 "nodes_total" (local_num_total_nodes t) ++
  nz_u32 "rx_dupe" (local_num_rx_dupe t) ++
  nz_u32 "tx_relay" (local_num_tx_relay t) ++
  nz_u32 "tx_relay_cancel" (local_num_tx_relay_canceled t) ++
  nz_u32 "heap_total" (local_heap_total_bytes t) ++
  nz_u32 "heap_free" (local_heap_free_bytes t) ++
  nz_u32 "tx_dropped" (local_num_tx_dropped t) ++
  nz_i32 "noise_floor_dbm" (local_noise_floor_dbm t).

Definition health_block (t : health_metrics) : list field :=
  nz_u32 "heart_bpm" (health_heart_bpm t) ++
  nz_u32 "spo2" (health_spo2 t) ++
  nz_f32 "body_temp_c" (health_temperature_c t).

Definition host_block (t : host_metrics) : list field :=
  nz_u32 "uptime_s" (host_uptime_s t) ++
  nz_u64 "freemem_bytes" (host_freemem_bytes t) ++
  nz_u64 "disk1_bytes" (host_diskfree1_bytes t) ++
  nz_u64 "disk2_bytes" (host_diskfree2_bytes t) ++
  nz_u64 "disk3_bytes" (host_diskfree3_bytes t) ++
  nz_u32 "load1_x100" (host_load1_x100 t) ++
  nz_u32 "load5_x100" (host_load5_x100 t) ++
  nz_u32 "load15_x100" (host_load15_x100 t) ++
  ne_str "user_string" (host_user_string t).

Definition traffic_block (t : traffic_mgmt) : list field :=
  nz_u32 "inspected" (tm_packets_inspected t) ++
  nz_u32 "pos_dedup_drops" (tm_position_dedup_drops t) ++
  nz_u32 "nodeinfo_hits" (tm_nodeinfo_cache_hits t) ++
  nz_u32 "rate_limit_drops" (tm_rate_limit_drops t) ++
  nz_u32 "unknown_drops" (tm_unknown_packet_drops t) ++
  nz_u32 "hop_exhausted" (tm_hop_exhausted_packets t) ++
  nz_u32 "router_hops_kept" (tm_router_hops_preserved t).

Definition telemetry_calls (t : mesh_telemetry) : list call :=
  map CField (nz_u32 "time" (te_time_unix t)) ++
  telemetry_block (have_device (te_device t)) "device" (device_block (te_device t)) ++
  telemetry_block (have_environment (te_env t)) "environment" (environment_block (te_env t)) ++
  telemetry_block (have_power (te_power t)) "power" (power_block (te_power t)) ++
  telemetry_block (have_air_quality (te_air t)) "air_quality" (air_block (te_air t)) ++
  telemetry_block (have_local_stats (te_local t)) "local_stats" (local_block (te_local t)) ++
  telemetry_block (have_health (te_health t)) "health" (health_block (te_health t)) ++
  telemetry_block (have_host (te_host t)) "host" (host_block (te_host t)) ++
  telemetry_block (have_traffic_mgmt (te_traffic t)) "traffic_mgmt" (traffic_block (te_traffic t)).

(** ** The other ports *)

Definition f64_x100 (v : Z) : spec_float := f64_div (f64_of_Z v) (f64_of_Z 100).

Definition position_calls (p : mesh_position) : list field :=
  when (po_have_lat p) [FF64 (str "lat") (po_lat_deg p)] ++
  when (po_have_lon p) [FF64 (str "lon") (po_lon_deg p)] ++
  when (po_have_alt p) [FI32 (str "alt_m") (po_altitude_m p)] ++
  when (po_have_alt_hae p) [FI32 (str "alt_hae_m") (po_altitude_hae_m p)] ++
  when (po_have_alt_geosep p) [FI32 (str "alt_geoidal_sep_m") (po_altitude_geoidal_separation_m p)] ++
  when (po_have_time p) [FU32 (str "time") (po_time p)] ++
  when (po_have_timestamp p) [FU32 (str "timestamp") (po_timestamp p)] ++
  nz_i32 "timestamp_ms_adj" (po_timestamp_millis_adjust p) ++
  nz_u32 "loc_src" (po_location_source p) ++
  nz_u32 "alt_src" (po_altitude_source p) ++
  when (nz (po_pdop_x100 p)) [FF64 (str "pdop") (f64_x100 (po_pdop_x100 p))] ++
  when (nz (po_hdop_x100 p)) [FF64 (str "hdop") (f64_x100 (po_hdop_x100 p))] ++
  when (nz (po_vdop_x100 p)) [FF64 (str "vdop") (f64_x100 (po_vdop_x100 p))] ++
  nz_u32 "gps_accuracy_mm" (po_gps_accuracy_mm p) ++
  when (po_have_ground_speed p) [FU32 (str "speed_mps") (po_ground_speed_mps p)] ++
  when (po_have_ground_track p) [FF64 (str "track_deg") (f64_x100 (po_ground_track_x100 p))] ++
  nz_u32 "fix_quality" (po_fix_quality p) ++
  nz_u32 "fix_type" (po_fix_type p) ++
  nz_u32 "sats" (po_sats_in_view p) ++
  nz_u32 "sensor_id" (po_sensor_id p) ++
  nz_u32 "next_update_s" (po_next_update_s p) ++
  nz_u32 "seq" (po_seq_number p) ++
  nz_u32 "precision_bits" (po_precision_bits p).

Definition user_calls (u : mesh_user) : list field :=
  ne_str "node_id" (us_id u) ++
  ne_str "long_name" (us_long_name u) ++
  ne_str "short_name" (us_short_name u) ++
  nz_u32 "hw_model" (us_hw_model u) ++
  nz_u32 "role" (us_role u) ++
  when (us_is_licensed u) [FBool (str "licensed") true] ++
  when (us_have_is_unmessagable u) [FBool (str "unmessagable") (us_is_unmessagable u)] ++
  when (us_have_public_key u) [FStr (str "public_key") (hex_of (us_public_key u))].

Definition atak_receipt (t : Z) : option (list Z) :=
  if t =? 1 then Some (str "delivered") else if t =? 2 then Some (str "read") else None.

Definition atak_calls (a : mesh_atak) : list field :=
  ne_str "atak_callsign" (ak_callsign a) ++
  ne_str "atak_device" (ak_device_callsign a) ++
  [FStr (str "atak_team") (mesh_atak_team_name (ak_team a));
   FStr (str "atak_role") (mesh_atak_role_name (ak_role a))] ++
  nz_u32 "atak_battery" (ak_battery a) ++
  match ak_kind a with
  | MESH_ATAK_PLI =>
      when (ak_have_lat a) [FF64 (str "lat") (ak_lat_deg a)] ++
      when (ak_have_lon a) [FF64 (str "lon") (ak_lon_deg a)] ++
      nz_i32 "alt_hae_m" (ak_altitude_hae_m a) ++
      nz_u32 "speed_mps" (ak_speed_mps a) ++
      nz_u32 "course_deg" (ak_course_deg a)
  | MESH_ATAK_CHAT =>
      match atak_receipt (ak_chat_receipt_type a) with
      | Some r => [FStr (str "atak_chat_receipt") r]
      | None => []
      end ++
      ne_str "atak_chat" (ak_chat_message a) ++
      ne_str "atak_chat_to" (ak_chat_to a) ++
      ne_str "atak_chat_to_callsign" (ak_chat_to_callsign a) ++
      ne_str "atak_chat_receipt_for" (ak_chat_receipt_for_uid a) ++
      ne_str "atak_chat_lang" (ak_chat_lang a) ++
      ne_str "atak_chat_room" (ak_chat_room_id a) ++
      when (ak_chat_has_voice_profile a) [FStr (str "atak_chat_taktalk") (str "1")]
  | _ => []
  end.

Definition routing_calls (r : mesh_routing) : list call :=
  match ro_kind r with
  | MESH_ROUTING_NONE => []
  | MESH_ROUTING_REQUEST => [CField (FStr (str "routing_kind") (str "request"))]
  | MESH_ROUTING_REPLY => [CField (FStr (str "routing_kind") (str "reply"))]
  | MESH_ROUTING_ERROR => [CField (FStr (str "routing_kind") (str "error"));
                           CField (FU32 (str "error_reason") (ro_error_reason r))]
  end ++
  when (0 <? length (ro_route r))%nat [CArr (str "route") (map (fun n => IStr (node_id_text n)) (ro_route r))].

Definition traceroute_calls (t : mesh_traceroute) : list call :=
  when (0 <? length (tr_route t))%nat [CArr (str "route") (map (fun n => IStr (node_id_text n)) (tr_route t))].

Definition waypoint_calls (w : mesh_waypoint) : list field :=
  nz_u32 "waypoint_id" (wp_id w) ++
  when (wp_have_lat w) [FF64 (str "lat") (wp_lat_deg w)] ++
  when (wp_have_lon w) [FF64 (str "lon") (wp_lon_deg w)] ++
  nz_u32 "expire" (wp_expire w) ++
  nz_u32 "locked_to" (wp_locked_to w) ++
  ne_str "wp_name" (wp_name w) ++
  ne_str "wp_desc" (wp_description w) ++
  nz_u32 "wp_icon" (wp_icon w).

Definition neighbor_item (n : mesh_neighbor) : item :=
  IObj (FStr (str "id") (node_id_text (nb_node_id n)) :: nz_f32 "snr_db" (nb_snr_db n)).

Definition neighborinfo_calls (ni : mesh_neighborinfo) : list call :=
  CField (FU32 (str "neighbor_node_id") (ni_node_id ni)) ::
  map CField (nz_u32 "last_sent_by" (ni_last_sent_by_id ni) ++
              nz_u32 "broadcast_interval_s" (ni_node_broadcast_interval_secs ni)) ++
  when (0 <? length (ni_neighbors ni))%nat [CArr (str "neighbors") (map neighbor_item (ni_neighbors ni))].

Definition keyverif_calls (kv : mesh_keyverif) : list field :=
  nz_u64 "kv_nonce" (kv_nonce kv) ++ nz_u32 "kv_hash1_len" (kv_hash1_len kv) ++
  nz_u32 "kv_hash2_len" (kv_hash2_len kv).

Definition mapreport_calls (mr : mesh_mapreport) : list field :=
  ne_str "long_name" (mr_long_name mr) ++
  ne_str "short_name" (mr_short_name mr) ++
  ne_str "firmware" (mr_firmware_version mr) ++
  nz_u32 "role" (mr_role mr) ++
  nz_u32 "hw_model" (mr_hw_model mr) ++
  nz_u32 "region" (mr_region mr) ++
  nz_u32 "sender_preset" (mr_modem_preset mr) ++
  when (mr_have_lat mr) [FF64 (str "lat") (mr_lat_deg mr)] ++
  when (mr_have_lon mr) [FF64 (str "lon") (mr_lon_deg mr)] ++
  nz_i32 "alt_m" (mr_altitude_m mr) ++
  nz_u32 "online_nodes" (mr_num_online_local_nodes mr).

Definition storeforward_calls (sf : mesh_storeforward) : list field :=
  match mesh_storeforward_rr_name (sw_rr sf) with
  | Some rr => [FStr (str "sf_rr") rr]
  | None => [FU32 (str "sf_rr_id") (sw_rr sf)]
  end ++
  when (sw_have_stats sf)
    [ FU32 (str "sf_total") (sw_stats_total sf); FU32 (str "sf_history") (sw_stats_history sf);
      FU32 (str "sf_max") (sw_stats_max sf); FU32 (str "sf_uptime_s") (sw_stats_up_time_s sf);
      FU32 (str "sf_requests") (sw_stats_requests sf) ] ++
  when (sw_have_history sf)
    [ FU32 (str "sf_hist_count") (sw_hist_count sf); FU32 (str "sf_hist_window_s") (sw_hist_window_s sf) ].

(** [if (mesh_decode_x(...)) { ... }] *)
Definition decoded {A} (r : bool * A) (f : A -> list call * list feed_effect) : list call * list feed_effect :=
  if fst r then f (snd r) else ([], []).

Definition fields_only (fs : list field) : list call * list feed_effect := (map CField fs, []).

(** The switch on the port. *)
Definition port_calls (from port : Z) (payload : list Z) : list call * list feed_effect :=
  if port =? 1 then fields_only [FStr (str "text") (cstr (take 255 payload))]
  else if port =? 3 then
    decoded (mesh_decode_position payload) (fun p =>
      (map CField (position_calls p),
       FxCotPosition p :: when (po_have_lat p && po_have_lon p) [FxGeofence from (po_lat_deg p) (po_lon_deg p)]))
  else if port =? 4 then
    decoded (mesh_decode_user payload) (fun u =>
      (map CField (user_calls u),
       [FxRemember from (cstr (us_long_name u)) (cstr (us_short_name u)) (us_hw_model u) (us_role u)]))
  else if port =? 67 then decoded (mesh_decode_telemetry payload) (fun t => (telemetry_calls t, []))
  else if port =? 72 then
    decoded (mesh_decode_atak payload) (fun a => (map CField (atak_calls a), [FxCotAtak a]))
  else if port =? 66 then fields_only [FStr (str "text") (cstr (take 127 payload))]
  else if port =? 5 then decoded (mesh_decode_routing payload) (fun r => (routing_calls r, []))
  else if port =? 70 then decoded (mesh_decode_traceroute payload) (fun t => (traceroute_calls t, []))
  else if port =? 8 then decoded (mesh_decode_waypoint payload) (fun w => fields_only (waypoint_calls w))
  else if port =? 71 then decoded (mesh_decode_neighborinfo payload) (fun n => (neighborinfo_calls n, []))
  else if port =? 12 then decoded (mesh_decode_keyverif payload) (fun k => fields_only (keyverif_calls k))
  else if port =? 73 then
    decoded (mesh_decode_mapreport payload) (fun mr =>
      (map CField (mapreport_calls mr),
       [FxRemember from (cstr (mr_long_name mr)) (cstr (mr_short_name mr)) (mr_hw_model mr) (mr_role mr)]))
  else if port =? 6 then
    decoded (mesh_decode_admin payload) (fun a =>
      fields_only (nz_u32 "admin_variant" (ad_variant_field a) ++
                   when (ad_has_session_passkey a) [FBool (str "admin_session") true]))
  else if port =? 2 then
    decoded (mesh_decode_remote_hw payload) (fun h =>
      fields_only (nz_u32 "hw_type" (hw_type h) ++ nz_u64 "hw_gpio_mask" (hw_gpio_mask h) ++
                   nz_u64 "hw_gpio_value" (hw_gpio_value h)))
  else if port =? 10 then
    decoded (mesh_decode_detection payload) (fun t => fields_only (ne_str "detection_text" t))
  else if port =? 34 then
    decoded (mesh_decode_paxcounter payload) (fun p =>
      fields_only [FU32 (str "pax_wifi") (px_wifi p); FU32 (str "pax_ble") (px_ble p);
                   FU32 (str "pax_uptime_s") (px_uptime_s p)])
  else if port =? 65 then
    decoded (mesh_decode_storeforward payload) (fun s => fields_only (storeforward_calls s))
  else ([], []).

(** ** serialize_event *)

Definition opt_str (n : string) (s : option (list Z)) : list field :=
  match s with Some v => [FStr (str n) (cstr v)] | None => [] end.

Definition station_fields (en : feed_env) : list field :=
  match fe_station en with
  | Some (lat, lon, alt) =>
      [FF64 (str "station_lat") lat; FF64 (str "station_lon") lon] ++
      when (f64_nz alt) [FF32 (str "station_alt_m") (f32_of_f64 alt)]
  | None => []
  end.

Definition fields_trusted (ev : mesh_event) : bool :=
  (ev_has_crc ev && ev_payload_crc_ok ev) || (negb (ev_has_crc ev) && ev_decrypted ev).

(** [cfo > 100.0f || cfo < -100.0f] *)
Definition cfo_large (p : Z) : bool :=
  f64_ltb (f64_of_Z 100) (f32_of_bits p) || f64_ltb (f32_of_bits p) (f64_of_Z (-100)).

Definition mlat_fields (ev : mesh_event) : list field :=
  [FU64 (str "station_t_ns") (ev_station_t_ns ev); FU32 (str "station_t_acc_ns") (ev_station_t_acc_ns ev)] ++
  when (nz (ev_preamble_lock_sample_idx ev))
    (FU64 (str "preamble_lock_sample_idx") (ev_preamble_lock_sample_idx ev) ::
     nz_f32 "preamble_lock_sample_frac" (ev_preamble_lock_sample_frac ev)) ++
  nz_u64 "sample_rate_sps" (ev_sample_rate_sps ev) ++
  nz_u64 "preamble_lock_t_ns" (ev_preamble_lock_t_ns ev).

(** Everything before the decoded content. *)
Definition envelope_fields (en : feed_env) (ev : mesh_event) : list field :=
  opt_str "station" (fe_station_id en) ++
  [FF64 (str "ts") (ts_of (fe_tv en))] ++
  station_fields en ++
  [ FStr (str "from") (node_id_text (hd_from (ev_header ev)));
    FStr (str "to") (node_id_text (hd_to (ev_header ev)));
    FU32 (str "packet_id") (hd_packet_id (ev_header ev));
    FU32 (str "channel_hash") (hd_channel (ev_header ev)) ] ++
  when (0 <=? ev_slot_id ev) [FU32 (str "slot_id") (ev_slot_id ev)] ++
  [ FU32 (str "hop_limit") (ev_hop_limit ev); FU32 (str "hop_start") (ev_hop_start ev) ] ++
  nz_u32 "relay_node" (hd_relay_node (ev_header ev)) ++
  when (ev_want_ack ev) [FBool (str "want_ack") true] ++
  when (ev_via_mqtt ev) [FBool (str "via_mqtt") true] ++
  nz_f32 "rssi_db" (ev_rssi_db ev) ++
  nz_f32 "snr_db" (ev_snr_db ev) ++
  when (ev_has_crc ev) [FBool (str "payload_crc_ok") (ev_payload_crc_ok ev)] ++
  when (ev_has_crc ev && ev_payload_crc_ok ev && ev_crc_corrected ev)
    [FBool (str "crc_corrected") true; FU32 (str "crc_corrected_bits") (ev_crc_corrected_bits ev)] ++
  [FBool (str "fields_trusted") (fields_trusted ev)] ++
  ne_str "raw_hex" (ev_raw_hex ev) ++
  when (cfo_large (ev_cfo_hz ev)) [FF32 (str "cfo_hz") (f32_of_bits (ev_cfo_hz ev))] ++
  when (nz (ev_station_t_ns ev) && bool_decide (is_Some (fe_station_id en))) (mlat_fields ev) ++
  when (0 <? ev_sf ev)
    ([ FU32 (str "sf") (ev_sf ev); FU32 (str "cr") (ev_cr ev); FU32 (str "bw_hz") (ev_bw_hz ev) ] ++
     nz_u64 "freq_hz" (ev_freq_hz ev) ++ ne_str "preset" (ev_preset_name ev)).

Definition meshtastic_calls (en : feed_env) (ev : mesh_event) : list call * list feed_effect :=
  let content :=
    if ev_decrypted ev then
      let '(cs, fx) := port_calls (hd_from (ev_header ev)) (ev_portnum ev) (ev_payload ev) in
      (map CField (ne_str "channel_name" (ev_channel_name ev) ++
                   [ FU32 (str "portnum") (ev_portnum ev);
                     FStr (str "port_name") (mesh_port_name (ev_portnum ev)) ]) ++ cs, fx)
    else ([CField (FBool (str "decrypted") false)], []) in
  (map CField (envelope_fields en ev) ++ fst content, snd content).
