(* ===== verification/FeedMeshCore.v ===== *)
(** The MeshCore half of the JSON feed: feed_serialize_event_meshcore
    (src/feed_meshcore_json.c) and the observer schema
    (src/feed_meshcore_observer.c), as sequences of writer calls. *)

From Stdlib Require Import String.
From S2P Require Import Prelude CString CFloat MeshEvent MeshDecoders MeshCore Json Jw Feed MeshCoreLpp.

Local Open Scope Z_scope.
Local Open Scope list_scope.

Definition NODE_DISCOVER_RESP : list Z := str "NODE_DISCOVER_RESP".
Definition NODE_DISCOVER_REQ : list Z := str "NODE_DISCOVER_REQ".

Definition mc_derive_from_id (ev : mesh_event) : Z :=
  let t := ev_mc_payload_type ev in
  let pk (k : nat) := nth k (ev_mc_pubkey ev) 0 in
  if (t =? MC_PAYLOAD_ADVERT) || (t =? MC_PAYLOAD_ANON_REQ) ||
     ((t =? MC_PAYLOAD_CONTROL) && ev_decrypted ev && strcmp_eq (ev_mc_ctl_subtype ev) NODE_DISCOVER_RESP)
  then Z.lor (Z.lor (Z.lor (u32 (Z.shiftl (pk 0%nat) 24)) (Z.shiftl (pk 1%nat) 16)) (Z.shiftl (pk 2%nat) 8)) (pk 3%nat)
  else if (t =? MC_PAYLOAD_GRP_TXT) || (t =? MC_PAYLOAD_GRP_DATA)
  then Z.lor 0x80000000 (ev_mc_channel_hash ev)
  else if nz (ev_mc_dest_hash ev) || nz (ev_mc_src_hash ev)
  then Z.lor (Z.lor 0x40000000 (Z.shiftl (ev_mc_dest_hash ev) 8)) (ev_mc_src_hash ev)
  else 0.

(** [table[i]] where [0 <= i < length table], else the default. *)
Definition name_or (d : string) (table : list string) (i : Z) : list Z :=
  str (if (0 <=? i) && (i <? Z.of_nat (length table)) then nth (Z.to_nat i) table d else d).

Definition route_type_name : Z -> list Z :=
  name_or "unknown" ["transport_flood"; "flood"; "direct"; "transport_direct"]%string.
Definition adv_type_name : Z -> list Z :=
  name_or "UNKNOWN" ["NONE"; "CHAT"; "REPEATER"; "ROOM"; "SENSOR"]%string.
Definition txt_type_name : Z -> list Z :=
  name_or "UNKNOWN" ["PLAIN"; "CLI_DATA"; "SIGNED_PLAIN"]%string.

(** The first [n] bytes of a fixed array. *)
Definition array_take (n : nat) (l : list Z) : list Z := map (fun k => nth k l 0) (seq 0 n).

Definition route_path_fields (ev : mesh_event) : list field :=
  if ev_mc_payload_type ev =? MC_PAYLOAD_TRACE then
    when (ev_decrypted ev && (0 <? ev_mc_path_hop_count ev))
      (let n := Z.to_nat (Z.min (ev_mc_path_hop_count ev) (Z.of_nat MC_MAX_PATH_SIZE)) in
       [ FStr (str "trace_route_hashes_hex") (hex_of (array_take n (ev_mc_path_hashes ev)));
         FStr (str "trace_snrs_hex") (hex_of (array_take n (ev_mc_path_snrs ev))) ])
  else
    when (0 <? ev_mc_hdr_path_hash_count ev)
      [ FU32 (str "route_path_hash_count") (ev_mc_hdr_path_hash_count ev);
        FU32 (str "route_path_hash_size") (ev_mc_hdr_path_hash_size ev);
        FStr (str "route_path_hex") (hex_of (ev_mc_hdr_path ev)) ].

Definition region_fields (ev : mesh_event) : list field :=
  when (ev_mc_has_region_scope ev)
    ([ FBool (str "region_scope") true;
       FU32 (str "region_code1") (ev_mc_region_code1 ev);
       FU32 (str "region_code2") (ev_mc_region_code2 ev) ] ++ ne_str "region_name" (ev_mc_region_name ev)).

(** The fields that do not depend on the payload having been decoded. *)
Definition mc_envelope_fields (station_id : option (list Z)) (ts : spec_float)
  (station : option (spec_float * spec_float * spec_float)) (ev : mesh_event) : list field :=
  opt_str "station" station_id ++
  [FF64 (str "ts") ts] ++
  match station with
  | Some (lat, lon, alt) =>
      [FF64 (str "station_lat") lat; FF64 (str "station_lon") lon] ++
      when (f64_nz alt) [FF32 (str "station_alt_m") (f32_of_f64 alt)]
  | None => []
  end ++
  [ FStr (str "protocol") (str "meshcore");
    FStr (str "mc_type") (if nonempty (ev_mc_type_name ev) then cstr (ev_mc_type_name ev) else str "UNKNOWN");
    FU32 (str "route_type") (ev_mc_route_type ev);
    FStr (str "route_type_name") (route_type_name (ev_mc_route_type ev)) ] ++
  region_fields ev ++
  route_path_fields ev ++
  [ FU32 (str "payload_type") (ev_mc_payload_type ev);
    FU32 (str "payload_ver") (ev_mc_payload_ver ev);
    FBool (str "decrypted") (ev_decrypted ev) ] ++
  when (nz (mc_derive_from_id ev)) [FStr (str "from") (node_id_text (mc_derive_from_id ev))] ++
  when (0 <=? ev_slot_id ev) [FU32 (str "slot_id") (ev_slot_id ev)] ++
  nz_f32 "rssi_db" (ev_rssi_db ev) ++
  nz_f32 "snr_db" (ev_snr_db ev) ++
  when (ev_has_crc ev)
    (FBool (str "payload_crc_ok") (ev_payload_crc_ok ev) ::
     when (ev_payload_crc_ok ev && ev_crc_corrected ev)
       [ FBool (str "crc_corrected") true; FU32 (str "crc_corrected_bits") (ev_crc_corrected_bits ev) ]) ++
  when (0 <? ev_sf ev)
    ([ FU32 (str "sf") (ev_sf ev); FU32 (str "cr") (ev_cr ev); FU32 (str "bw_hz") (ev_bw_hz ev) ] ++
     nz_u64 "freq_hz" (ev_freq_hz ev)) ++
  ne_str "channel_name" (ev_channel_name ev) ++
  nz_u32 "channel_hash" (ev_mc_channel_hash ev) ++
  nz_u32 "dest_hash" (ev_mc_dest_hash ev) ++
  nz_u32 "src_hash" (ev_mc_src_hash ev) ++
  nz_u32 "mc_timestamp" (ev_mc_timestamp ev) ++
  ne_str "raw_hex" (ev_raw_hex ev).

(** The fields read from the payload. *)
Definition mc_payload_fields (ev : mesh_event) : list field :=
  let t := ev_mc_payload_type ev in
  let dec := ev_decrypted ev in
  when (dec && (t =? MC_PAYLOAD_ADVERT))
    ([ FU32 (str "adv_type") (ev_mc_adv_type ev);
       FStr (str "adv_type_name") (adv_type_name (ev_mc_adv_type ev)) ] ++
     when (ev_mc_has_latlon ev) [FF64 (str "lat") (ev_mc_lat ev); FF64 (str "lon") (ev_mc_lon ev)] ++
     nz_u32 "extra1" (ev_mc_extra1 ev) ++
     nz_u32 "extra2" (ev_mc_extra2 ev)) ++
  when (dec && nonempty (ev_mc_node_name ev))
    [ FStr (str "node_name") (cstr (ev_mc_node_name ev)); FStr (str "long_name") (cstr (ev_mc_node_name ev)) ] ++
  when (dec && nonempty (ev_mc_text ev)) [FStr (str "text") (cstr (ev_mc_text ev))] ++
  when (dec && (t =? MC_PAYLOAD_GRP_TXT))
    [ FU32 (str "txt_type") (ev_mc_txt_type ev); FStr (str "txt_type_name") (txt_type_name (ev_mc_txt_type ev)) ] ++
  when (dec && (0 <? ev_mc_path_hop_count ev)) [FU32 (str "path_hop_count") (ev_mc_path_hop_count ev)] ++
  when (dec && (t =? MC_PAYLOAD_ADVERT)) [FBool (str "sig_valid") (ev_mc_sig_valid ev)] ++
  when ((t =? MC_PAYLOAD_GRP_DATA) && dec)
    [ FU32 (str "data_type") (ev_mc_data_type ev); FU32 (str "data_len") (ev_mc_data_len ev);
      FRaw (str "telemetry") (cstr (ev_mc_telemetry_json ev)) ] ++
  when (t =? MC_PAYLOAD_MULTIPART)
    ([ FU32 (str "multipart_remaining") (ev_mc_multipart_remaining ev);
       FStr (str "multipart_inner_type") (mc_payload_type_name (ev_mc_multipart_inner_type ev)) ] ++
     when dec [FU32 (str "ack_crc") (ev_mc_timestamp ev)]) ++
  when ((t =? MC_PAYLOAD_CONTROL) && nonempty (ev_mc_ctl_subtype ev))
    ([ FStr (str "ctl_subtype") (cstr (ev_mc_ctl_subtype ev)); FU32 (str "ctl_tag") (ev_mc_ctl_tag ev) ] ++
     (if strcmp_eq (ev_mc_ctl_subtype ev) NODE_DISCOVER_REQ then
        FU32 (str "ctl_filter") (ev_mc_ctl_filter ev) :: nz_u32 "ctl_since" (ev_mc_ctl_since ev)
      else
        when (strcmp_eq (ev_mc_ctl_subtype ev) NODE_DISCOVER_RESP)
          [ FU32 (str "adv_type") (ev_mc_adv_type ev);
            FStr (str "adv_type_name") (adv_type_name (ev_mc_adv_type ev));
            FF32 (str "ctl_snr") (ev_mc_ctl_snr ev) ])).

Definition mc_effects (ev : mesh_event) : list feed_effect :=
  let from_id := mc_derive_from_id ev in
  let is_advert_named := (ev_mc_payload_type ev =? MC_PAYLOAD_ADVERT) && ev_mc_has_name ev in
  let is_ctl_discover_resp :=
    (ev_mc_payload_type ev =? MC_PAYLOAD_CONTROL) && strcmp_eq (ev_mc_ctl_subtype ev) NODE_DISCOVER_RESP in
  when (ev_decrypted ev && nz from_id && (is_advert_named || is_ctl_discover_resp))
    [FxRemember from_id (cstr (ev_mc_node_name ev)) [] 0 (ev_mc_adv_type ev)].

(** [ts_override <= 0] takes the clock. *)
Definition meshcore_calls (station_id : option (list Z)) (ts_override : spec_float) (tv : Z * Z)
  (station : option (spec_float * spec_float * spec_float)) (ev : mesh_event) : list call * list feed_effect :=
  let ts := if f64_ltb ts_override f_zero || f64_eqb ts_override f_zero then ts_of tv else ts_override in
  (map CField (mc_envelope_fields station_id ts station ev ++ mc_payload_fields ev), mc_effects ev).

(** ** The observer schema *)

Definition observer_timestamp (tv : Z * Z) : list Z :=
  let t := gmtime (fst tv) in
  copy_to 48 (fmt_0d 4 (tm_year t + 1900) ++ str "-" ++ fmt_0d 2 (tm_mon t + 1) ++ str "-" ++ fmt_0d 2 (tm_mday t) ++
              str "T" ++ fmt_0d 2 (tm_hour t) ++ str ":" ++ fmt_0d 2 (tm_min t) ++ str ":" ++ fmt_0d 2 (tm_sec t) ++
              str "." ++ fmt_0d 6 (snd tv)).
Definition observer_time (tv : Z * Z) : list Z :=
  let t := gmtime (fst tv) in
  copy_to 16 (fmt_0d 2 (tm_hour t) ++ str ":" ++ fmt_0d 2 (tm_min t) ++ str ":" ++ fmt_0d 2 (tm_sec t)).
Definition observer_date (tv : Z * Z) : list Z :=
  let t := gmtime (fst tv) in
  copy_to 32 (fmt_0d 2 (tm_mday t) ++ str "/" ++ fmt_0d 2 (tm_mon t + 1) ++ str "/" ++ fmt_0d 4 (tm_year t + 1900)).

Definition HEX_UPPER (n : Z) : Z := if n <? 10 then 48 + n else 65 + (n - 10).

(** The hop loop: [off] bytes written so far into [path[6 * 64 + 1]]. *)
Fixpoint observer_hops (hdr : list Z) (size : nat) (n h off : nat) : list Z :=
  match n with
  | O => []
  | S n =>
      if (off + (4 + 2 * size) <? 6 * MC_MAX_PATH_SIZE + 1)%nat then
        let arrow := if (h =? 0)%nat then [] else str " -> " in
        let bytes := flat_map (fun b => let byte := nth (h * size + b) hdr 0 in
                       [HEX_UPPER (Z.land (Z.shiftr byte 4) 0xF); HEX_UPPER (Z.land byte 0xF)]) (seq 0 size) in
        let piece := arrow ++ bytes in
        piece ++ observer_hops hdr size n (S h) (off + length piece)
      else []
  end.

Definition observer_path (ev : mesh_event) : list Z :=
  let size := Z.to_nat (ev_mc_hdr_path_hash_size ev) in
  let avail_hops := (length (ev_mc_hdr_path ev) / size)%nat in
  let hops := Nat.min (Z.to_nat (ev_mc_hdr_path_hash_count ev)) avail_hops in
  observer_hops (ev_mc_hdr_path ev) size hops 0 0.

Definition observer_fields (tv : Z * Z) (origin origin_id : option (list Z)) (ev : mesh_event) : list field :=
  let is_direct := (ev_mc_route_type ev =? 2) || (ev_mc_route_type ev =? 3) in
  [ FStr (str "origin") (match origin with Some o => cstr o | None => str "observer" end);
    FStr (str "origin_id") (match origin_id with Some o => cstr o | None => [] end);
    FStr (str "timestamp") (observer_timestamp tv);
    FStr (str "type") (str "PACKET");
    FStr (str "direction") (str "rx");
    FStr (str "time") (observer_time tv);
    FStr (str "date") (observer_date tv);
    FStr (str "len") (dec_of_Z (Z.of_nat (length (cstr (ev_raw_hex ev)) / 2)));
    FStr (str "packet_type") (fmt_d (ev_mc_payload_type ev));
    FStr (str "route") (if is_direct then str "D" else str "F");
    FStr (str "payload_len") (dec_of_Z (Z.of_nat (length (ev_payload ev))));
    FStr (str "raw") (cstr (ev_raw_hex ev)) ] ++
  when (f32_nz (ev_snr_db ev)) [FStr (str "SNR") (copy_to 32 (fmt_f 1 (f64_of_f32 (f32_of_bits (ev_snr_db ev)))))] ++
  when (f32_nz (ev_rssi_db ev)) [FStr (str "RSSI") (copy_to 32 (fmt_f 0 (f64_of_f32 (f32_of_bits (ev_rssi_db ev)))))] ++
  when (is_direct && (0 <? ev_mc_hdr_path_hash_count ev) && (0 <? ev_mc_hdr_path_hash_size ev))
    (let path := observer_path ev in when (0 <? length path)%nat [FStr (str "path") path]).

(** The LPP telemetry fragment (src/meshcore_lpp.c) as the feed embeds it
    with jw_field_raw (src/feed_meshcore_json.c): a rendering that fits is a
    compact JSON document. *)

(** What a record says. *)
Definition lpp_record_json (r : lpp_record) : json :=
  let f4 k := JNum (fmt_f 4 (value_of r k)) in
  JObj [ (str "ch", JNum (fmt_d (lr_channel r))); (str "type", JNum (fmt_d (lr_type r)));
         (str "name", JStr (lr_type_name r)); (str "unit", JStr (lr_unit r));
         (str "value", if (length (lr_values r) =? 3)%nat then JArr [f4 0%nat; f4 1%nat; f4 2%nat] else f4 0%nat) ].

(** Characters that are printed as they are. *)
Definition plain_char (c : Z) : bool := (32 <=? c) && (c <? 256) && negb ((c =? 34) || (c =? 92)).
Definition plain (s : list Z) : bool := forallb plain_char s.

Definition record_plain (r : lpp_record) : bool := plain (lr_type_name r) && plain (lr_unit r).
Definition record_finite (r : lpp_record) : bool := forallb f_finite (lr_values r).

Lemma plain_char_range c : plain_char c = true -> 32 <= c < 256 /\ c <> 34 /\ c <> 92.
Proof. unfold plain_char. intros H. repeat (apply andb_prop in H as [H ?]). zb. destruct (Z.eqb_spec c 34), (Z.eqb_spec c 92); done || lia. Qed.

Lemma esc_plain s : plain s = true -> flat_map esc s = s.
Proof.
  induction s as [|c s IH]; [done|]. cbn [plain forallb flat_map]. intros H. apply andb_prop in H as [Hc H].
  apply plain_char_range in Hc as (Hr & H1 & H2). rewrite IH by done. unfold esc.
  destruct (Z.eqb_spec c 34), (Z.eqb_spec c 92), (Z.eqb_spec c 10), (Z.eqb_spec c 13), (Z.eqb_spec c 9),
    (Z.ltb_spec c 32); try lia. done.
Qed.

Lemma plain_bytes s : plain s = true -> bytes_okb s = true.
Proof.
  unfold plain, bytes_okb. rewrite !forallb_forall. intros H c Hc. specialize (H c Hc).
  apply plain_char_range in H. apply andb_true_intro. split; [apply Z.leb_le|apply Z.ltb_lt]; lia.
Qed.

(** ** The table's names need no escape *)

Lemma types_plain : forallb (fun ti => plain (lt_name ti) && plain (lt_unit ti)) LPP_TYPES = true.
Proof. vm_compute. reflexivity. Qed.

Lemma record_of_plain c t ti p : lpp_type_lookup t = Some ti -> record_plain (lpp_record_of c t ti p) = true.
Proof.
  intros H. apply find_some in H as [H _]. pose proof types_plain as T. rewrite forallb_forall in T. exact (T ti H).
Qed.

Lemma lpp_loop_plain fuel max : forall p n out n' out',
  lpp_loop fuel max p n out = Some (n', out') -> forallb record_plain out = true -> forallb record_plain out' = true.
Proof.
  induction fuel as [|fuel IH]; intros [|c p] n out n' out' H Ho; cbn [lpp_loop] in H;
    try (injection H as <- <-; done); try done.
  destruct p as [|t p]; [done|]. destruct (c =? 0); [done|]. destruct (lpp_type_lookup t) as [ti|] eqn:Et; [|done].
  destruct (_ <? _)%nat; [done|]. apply IH in H; [done|]. case_if; [|done].
  rewrite forallb_app, Ho. cbn [forallb]. by rewrite record_of_plain.
Qed.

Lemma lpp_decode_plain buf max recs : meshcore_lpp_decode buf max = Some recs -> forallb record_plain recs = true.
Proof.
  unfold meshcore_lpp_decode. destruct buf as [|b buf]; [done|].
  destruct (lpp_loop _ _ _ _ _) as [[n out]|] eqn:E; [|done]. case_if; [done|]. intros [= <-].
  by apply (lpp_loop_plain _ _ _ _ _ _ _ E).
Qed.

(** ** The text *)

Lemma snprintf_all_fits cap pieces : forall off t, snprintf_all cap off pieces = (true, t) -> t = off ++ concat pieces.
Proof.
  induction pieces as [|s l IH]; intros off t H; cbn [snprintf_all concat] in *.
  - injection H as <-. by rewrite app_nil_r.
  - destruct (_ <=? _)%nat; [done|]. apply IH in H. by rewrite H, app_assoc.
Qed.

Lemma piece_print i r : record_plain r = true ->
  lpp_json_piece i r = (if (i =? 0)%nat then [] else [44]) ++ print (lpp_record_json r).
Proof.
  unfold record_plain. intros H. apply andb_prop in H as [Hn Hu]. unfold lpp_json_piece, lpp_record_json, f64_of_f32.
  cbn [print map commas]. unfold quote. rewrite (esc_plain (lr_type_name r)), (esc_plain (lr_unit r)) by done.
  replace (if (i =? 0)%nat then [] else str ",") with (if (i =? 0)%nat then [] else [44]) by by case_if.
  f_equal. destruct (length (lr_values r) =? 3)%nat; cbn [print map commas];
    repeat (rewrite <- app_assoc || rewrite <- app_comm_cons); reflexivity.
Qed.

Lemma pieces_commas recs i : forallb record_plain recs = true -> (0 < i)%nat ->
  concat (imap (fun k => lpp_json_piece (i + k)) recs) = flat_map (fun r => 44 :: print (lpp_record_json r)) recs.
Proof.
  revert i. induction recs as [|r recs IH]; intros i H Hi; [done|]. cbn [forallb] in H. apply andb_prop in H as [Hr H].
  cbn [flat_map]. rewrite imap_cons. cbn [concat]. rewrite piece_print by done. rewrite Nat.add_0_r.
  destruct (Nat.eqb_spec i 0); [lia|]. cbn [app]. f_equal. f_equal.
  rewrite <- (IH (S i)) by (done || lia). f_equal. apply imap_ext. intros k x _. cbn. by rewrite Nat.add_succ_r.
Qed.

Lemma commas_flat {A} (f : A -> list Z) x l : commas (map f (x :: l)) = f x ++ flat_map (fun y => 44 :: f y) l.
Proof.
  revert x. induction l as [|y l IH]; intros x; [cbn; by rewrite app_nil_r|].
  change (commas (map f (x :: y :: l))) with (f x ++ 44 :: commas (map f (y :: l))). by rewrite IH.
Qed.

Lemma lpp_text recs cap text : forallb record_plain recs = true -> meshcore_lpp_to_json recs cap = (true, text) ->
  text = print (JArr (map lpp_record_json recs)).
Proof.
  intros Hp H. apply snprintf_all_fits in H. rewrite H. cbn [app concat print]. rewrite concat_app. cbn [concat app].
  change (str "[" ++ ?t) with (91 :: t). change (str "]") with [93]. f_equal. f_equal. destruct recs as [|r recs]; [done|].
  cbn [forallb] in Hp. apply andb_prop in Hp as [Hr Hp]. rewrite imap_cons. cbn [concat]. rewrite piece_print by done.
  rewrite map_map, (commas_flat (fun r => print (lpp_record_json r))). cbn [Nat.eqb app]. f_equal.
  rewrite <- (pieces_commas recs 1) by (done || lia). done.
Qed.

Lemma record_json_ok r : record_plain r = true -> record_finite r = true -> json_ok (lpp_record_json r) = true.
Proof.
  unfold record_plain, record_finite. intros Hp Hf. apply andb_prop in Hp as [Hn Hu].
  assert (F : forall k, num_text (fmt_f 4 (value_of r k)) = true).
  { intros k. apply num_text_f. unfold value_of. rewrite forallb_forall in Hf.
    destruct (nth_in_or_default k (lr_values r) f_zero) as [Hi| ->]; [by apply Hf|done]. }
  unfold lpp_record_json. cbn [json_ok forallb]. rewrite !num_text_d, !plain_bytes by done.
  case_if; cbn [json_ok forallb]; by rewrite !F.
Qed.

(** The fragment a GRP_DATA event carries is embedded as the JSON it stands
    for, when it fits its buffer. *)
Lemma lpp_fragment_ok blob max recs cap text :
  meshcore_lpp_decode blob max = Some recs -> forallb record_finite recs = true ->
  meshcore_lpp_to_json recs cap = (true, text) ->
  raw_ok text = true /\ raw_value text = JArr (map lpp_record_json recs).
Proof.
  intros Hd Hf Ht. apply lpp_decode_plain in Hd. apply lpp_text in Ht; [|done].
  assert (Hok : json_ok (JArr (map lpp_record_json recs)) = true).
  { cbn [json_ok]. rewrite forallb_forall in *. intros v Hv. apply in_map_iff in Hv as (r & <- & Hr).
    by apply record_json_ok; [apply Hd|apply Hf]. }
  pose proof (json_parse_print _ [] Hok eq_refl) as P. rewrite app_nil_r, <- Ht in P.
  unfold raw_value. rewrite P. split; [|done]. unfold raw_ok. destruct text as [|c text]; [done|].
  by rewrite P, Hok, <- Ht, list_eqb_refl.
Qed.
