(* ===== verification/FeedPublish.v ===== *)
(** feed_publish_event (src/feed.c): the dispatch on the protocol, the
    --trusted-only gate and the sinks; and what a published line is: one line
    of JSON that says what the calls say, and nothing of a withheld payload. *)

From Stdlib Require Import String.
From S2P Require Import Prelude CString CFloat MeshEvent Meshtastic MeshTelemetry MeshDecoders MeshCore Json Jw Feed FeedMeshCore MeshCoreFacts MeshCoreTrust Dedup Pipeline PipelineFacts.

Local Open Scope Z_scope.
Local Open Scope list_scope.

Definition FEED_BUF : nat := 2048.
Definition OBSERVER_BUF : nat := 1024.

(** The calls of the event's serialiser, between jw_open and jw_close. *)
Definition event_calls (en : feed_env) (ev : mesh_event) : list call * list feed_effect :=
  if ev_is_meshcore ev
  then meshcore_calls (fe_station_id en) f_zero (fe_tv en) (fe_station en) ev
  else meshtastic_calls en ev.

(** The MeshCore path returns before the newline is appended. *)
Definition serialize_event (en : feed_env) (ev : mesh_event) (j : jw) : jw * list feed_effect :=
  let '(cs, fx) := event_calls en ev in
  let j := jw_close (run_calls cs (jw_open j)) in
  (if ev_is_meshcore ev then j else jw_putc 10 j, fx).

Definition feed_serialize_event_observer (tv : Z * Z) (origin origin_id : option (list Z)) (ev : mesh_event)
  (j : jw) : jw :=
  jw_close (run_calls (map CField (observer_fields tv origin origin_id ev)) (jw_open j)).

Inductive feed_output :=
| OStdout (line : list Z)
| OUdp (i : nat) (line : list Z)
| OMqtt (line : list Z)
| OZmq (line : list Z)
| OWeb (line : list Z)
| OArchive (line : list Z)
| OSqlite (ev : mesh_event) (line : list Z).

Definition feed_publish_event (en : feed_env) (ev : mesh_event) : list feed_output * list feed_effect :=
  if fe_trusted_only en && negb (fields_trusted ev) then ([], [])
  else
    let '(j, fx) := serialize_event en ev (jw_init FEED_BUF) in
    let line := jw_buf j in
    (OStdout line :: map (fun i => OUdp i line) (seq 0 (fe_udp_feeds en)) ++
     (if fe_mqtt_observer en
      then when (ev_is_meshcore ev)
             [OMqtt (jw_buf (feed_serialize_event_observer (fe_tv_observer en)
                      (Some (default (str "observer") (fe_station_id en))) (fe_observer_id en) ev
                      (jw_init OBSERVER_BUF)))]
      else [OMqtt line]) ++
     [OZmq line; OWeb line; OArchive line; OSqlite ev line], fx).

Definition output_line (o : feed_output) : list Z :=
  match o with
  | OStdout l | OUdp _ l | OMqtt l | OZmq l | OWeb l | OArchive l | OSqlite _ l => l
  end.

(** ** The shape of the calls

    Every array a serialiser writes is made of non-empty items, so the calls
    write JSON as soon as their fields do. *)

Definition call_shaped (c : call) : bool :=
  match c with CField _ => true | CArr _ items => forallb item_nonempty (removelast items) end.

Definition call_fields_ok (c : call) : bool :=
  match c with CField f => field_ok f | CArr _ items => forallb item_ok items end.

Lemma call_ok_split c : call_ok c = call_fields_ok c && call_shaped c.
Proof. destruct c; cbn [call_ok call_fields_ok call_shaped]; [by rewrite andb_true_r|done]. Qed.

Definition shaped (cs : list call) : Prop := forallb call_shaped cs = true.

Lemma shaped_app a b : shaped a -> shaped b -> shaped (a ++ b).
Proof. unfold shaped. rewrite forallb_app. by intros -> ->. Qed.

Lemma shaped_fields fs : shaped (map CField fs).
Proof. unfold shaped. rewrite forallb_forall. intros c Hc. apply in_map_iff in Hc as (f & <- & _). done. Qed.

Lemma shaped_when b cs : shaped cs -> shaped (when b cs).
Proof. by destruct b. Qed.

Lemma shaped_arr n items : (forall i, In i items -> item_nonempty i = true) -> shaped [CArr n items].
Proof.
  intros H. unfold shaped. cbn [forallb call_shaped]. rewrite andb_true_r. apply forallb_forall.
  intros i Hi. apply H. clear H. induction items as [|x [|y l] IH]; [done|done|].
  destruct Hi as [->|Hi]; [by left|right; by apply IH].
Qed.

Lemma shaped_strs {A} n (g : A -> list Z) l : shaped [CArr n (map (fun x => IStr (g x)) l)].
Proof. apply shaped_arr. intros i Hi. apply in_map_iff in Hi as (x & <- & _). done. Qed.

Lemma shaped_block b n fs : shaped (telemetry_block b n fs).
Proof. by apply shaped_when. Qed.

Create HintDb feed_shape.
#[export] Hint Resolve shaped_app shaped_fields shaped_when shaped_strs shaped_block : feed_shape.

Lemma shaped_telemetry t : shaped (telemetry_calls t).
Proof. unfold telemetry_calls. repeat apply shaped_app; auto with feed_shape. Qed.

Lemma shaped_routing r : shaped (routing_calls r).
Proof. unfold routing_calls. apply shaped_app; [by destruct (ro_kind r)|auto with feed_shape]. Qed.

Lemma shaped_neighborinfo n : shaped (neighborinfo_calls n).
Proof.
  unfold neighborinfo_calls. apply (shaped_app [_]); [done|]. apply shaped_app; [auto with feed_shape|].
  apply shaped_when, shaped_arr. intros i Hi. apply in_map_iff in Hi as (x & <- & _). done.
Qed.

#[export] Hint Resolve shaped_telemetry shaped_routing shaped_neighborinfo : feed_shape.

Lemma shaped_decoded {A} (r : bool * A) f : (forall x, shaped (fst (f x))) -> shaped (fst (decoded r f)).
Proof. unfold decoded. destruct (fst r); [auto|done]. Qed.

Lemma shaped_port from port payload : shaped (fst (port_calls from port payload)).
Proof.
  unfold port_calls, fields_only. repeat case_if; try apply shaped_decoded; intros; cbn [fst];
    unfold traceroute_calls; auto with feed_shape; done.
Qed.

Lemma shaped_event en ev : shaped (fst (event_calls en ev)).
Proof.
  unfold event_calls. case_if; [apply shaped_fields|]. unfold meshtastic_calls. cbn [fst].
  apply shaped_app; [apply shaped_fields|]. case_if; [|done].
  pose proof (shaped_port (hd_from (ev_header ev)) (ev_portnum ev) (ev_payload ev)) as H.
  destruct (port_calls _ _ _) as [cs fx]. cbn [fst] in *. auto with feed_shape.
Qed.

(** ** What reaches the sinks *)

(** The calls behind an output, the buffer they are written to and the text
    after the object. *)
Definition output_spec (en : feed_env) (ev : mesh_event) (o : feed_output) : list call * nat * list Z :=
  let main := (fst (event_calls en ev), FEED_BUF, when (negb (ev_is_meshcore ev)) [10]) in
  match o with
  | OMqtt _ =>
      if fe_mqtt_observer en
      then (map CField (observer_fields (fe_tv_observer en) (Some (default (str "observer") (fe_station_id en)))
                          (fe_observer_id en) ev), OBSERVER_BUF, [])
      else main
  | _ => main
  end.

Lemma serialize_event_tail en ev j :
  jw_buf (fst (serialize_event en ev j)) =
  jw_buf (jw_puts (when (negb (ev_is_meshcore ev)) [10]) (jw_close (run_calls (fst (event_calls en ev)) (jw_open j)))).
Proof.
  unfold serialize_event. destruct (event_calls en ev) as [cs fx]. cbn [fst]. destruct (ev_is_meshcore ev); [done|].
  cbn [negb when jw_puts]. unfold jw_putc at 1. by case_if.
Qed.

Lemma output_written en ev o : In o (fst (feed_publish_event en ev)) ->
  let '(cs, cap, tl) := output_spec en ev o in
  output_line o = jw_buf (jw_puts tl (jw_close (run_calls cs (jw_open (jw_init cap))))).
Proof.
  unfold feed_publish_event. case_if; [done|]. pose proof (serialize_event_tail en ev (jw_init FEED_BUF)) as Et.
  destruct (serialize_event en ev (jw_init FEED_BUF)) as [j fx]. cbn [fst] in *. intros [<-|H]; [done|].
  rewrite in_app_iff, in_app_iff in H. destruct H as [H|[H|H]].
  - apply in_map_iff in H as (i & <- & _). done.
  - unfold output_spec. destruct (fe_mqtt_observer en) eqn:Eo.
    + destruct (ev_is_meshcore ev); [|done]. by destruct H as [<-|[]].
    + by destruct H as [<-|[]].
  - destruct H as [<-|[<-|[<-|[<-|[]]]]]; done.
Qed.

Lemma grows_written cs tl : grows (fun j => jw_puts tl (jw_close (run_calls cs (jw_open j)))).
Proof.
  apply (grows_compose (fun j => jw_close (run_calls cs (jw_open j))) (jw_puts tl)); [|apply grows_puts].
  apply (grows_compose (fun j => run_calls cs (jw_open j)) jw_close).
  - apply (grows_compose jw_open (run_calls cs)); [|apply grows_calls].
    apply (grows_compose (jw_putc 123) (jw_set_first true)); [apply grows_putc|apply grows_set].
  - apply (grows_compose (jw_putc 125) (jw_set_first false)); [apply grows_putc|apply grows_set].
Qed.

Lemma output_shaped en ev o : shaped (fst (fst (output_spec en ev o))).
Proof. destruct o; try apply shaped_event. cbn. case_if; [apply shaped_fields|apply shaped_event]. Qed.

Lemma fields_shaped_ok cs : shaped cs -> forallb call_fields_ok cs = true -> forallb call_ok cs = true.
Proof.
  unfold shaped. rewrite !forallb_forall. intros Hs Hf c Hc. by rewrite call_ok_split, (Hf c Hc), (Hs c Hc).
Qed.


(** ** Withheld payloads *)

(** The event with what the decoders read from its payload blanked out. *)
Definition redact_data (ev : mesh_event) : mesh_event :=
  ev {{ ev_payload := replicate (length (ev_payload ev)) 0;
        ev_portnum := 0; ev_request_id := 0; ev_reply_id := 0; ev_want_response := false;
        ev_channel_name := if ev_is_meshcore ev then ev_channel_name ev else [] }}.

Definition redact_text (ev : mesh_event) : mesh_event :=
  ev {{ ev_mc_node_name := []; ev_mc_has_name := false; ev_mc_text := []; ev_mc_txt_type := 0;
        ev_mc_path_hop_count := 0; ev_mc_path_snrs := []; ev_mc_path_hashes := [] }}.

Definition redact_advert (ev : mesh_event) : mesh_event :=
  ev {{ ev_mc_sig_valid := false; ev_mc_data_type := 0; ev_mc_data_len := 0; ev_mc_telemetry_json := [];
        ev_mc_has_latlon := false; ev_mc_lat := f_zero; ev_mc_lon := f_zero;
        ev_mc_extra1 := 0; ev_mc_extra2 := 0 }}.

Definition redact (ev : mesh_event) : mesh_event := redact_advert (redact_text (redact_data ev)).

Lemma redact_channel ev : ev_is_meshcore ev = true -> ev_channel_name (redact ev) = ev_channel_name ev.
Proof. intros Hm. transitivity (if ev_is_meshcore ev then ev_channel_name ev else []); [reflexivity|]. by rewrite Hm. Qed.

Lemma redact_route ev : ev_decrypted ev = false -> route_path_fields (redact ev) = route_path_fields ev.
Proof. intros Hd. unfold route_path_fields. change (ev_decrypted (redact ev)) with (ev_decrypted ev). by rewrite Hd. Qed.

Lemma redact_meshcore sid o tv st ev : ev_decrypted ev = false -> ev_is_meshcore ev = true ->
  meshcore_calls sid o tv st (redact ev) = meshcore_calls sid o tv st ev.
Proof.
  intros Hd Hm. unfold meshcore_calls. f_equal; [do 2 f_equal|].
  - unfold mc_envelope_fields. rewrite redact_route, redact_channel by done. reflexivity.
  - unfold mc_payload_fields. change (ev_decrypted (redact ev)) with (ev_decrypted ev). rewrite Hd.
    cbn zeta. rewrite !andb_false_r. reflexivity.
  - unfold mc_effects. change (ev_decrypted (redact ev)) with (ev_decrypted ev). by rewrite Hd.
Qed.

Lemma redact_meshtastic en ev : ev_decrypted ev = false -> meshtastic_calls en (redact ev) = meshtastic_calls en ev.
Proof.
  intros Hd. unfold meshtastic_calls. change (ev_decrypted (redact ev)) with (ev_decrypted ev). rewrite Hd. reflexivity.
Qed.

Lemma redact_event en ev : ev_decrypted ev = false -> event_calls en (redact ev) = event_calls en ev.
Proof.
  intros Hd. unfold event_calls. change (ev_is_meshcore (redact ev)) with (ev_is_meshcore ev).
  case_if; [by apply redact_meshcore|by apply redact_meshtastic].
Qed.

Lemma redact_observer tv o i ev : observer_fields tv o i (redact ev) = observer_fields tv o i ev.
Proof.
  unfold observer_fields. change (ev_payload (redact ev)) with (replicate (length (ev_payload ev)) 0).
  rewrite length_replicate. reflexivity.
Qed.

Lemma undecrypted_effects en ev : ev_decrypted ev = false -> snd (event_calls en ev) = [].
Proof.
  intros Hd. unfold event_calls, meshcore_calls, meshtastic_calls, mc_effects. rewrite Hd. by case_if.
Qed.

(** An undecrypted event is published as its redaction is, and has no effect
    on the node cache, the geofences or the CoT output. *)
Lemma redact_published en ev : ev_decrypted ev = false ->
  map output_line (fst (feed_publish_event en (redact ev))) = map output_line (fst (feed_publish_event en ev)) /\
  snd (feed_publish_event en ev) = [].
Proof.
  intros Hd. unfold feed_publish_event. change (fields_trusted (redact ev)) with (fields_trusted ev).
  case_if; [done|]. unfold serialize_event, feed_serialize_event_observer. rewrite redact_event, redact_observer by done.
  pose proof (undecrypted_effects en ev Hd) as Hx. destruct (event_calls en ev) as [cs fx]. cbn [fst snd] in *.
  change (ev_is_meshcore (redact ev)) with (ev_is_meshcore ev).
  split; [|exact Hx]. cbn [map]. f_equal. rewrite !map_app. by destruct (fe_mqtt_observer en), (ev_is_meshcore ev).
Qed.

(** The feed behind the receive pipeline (src/main.c, src/feed.c): content
    that was not vouched for never reaches a sink; and the published lines
    that are not what src/feed.h promises. *)

Section Behind.
Context (evp_aes_ctr : list Z -> list Z -> list Z -> option (list Z)) (verify : list Z -> list Z -> list Z -> bool).
Context (hmac : list Z -> list Z -> option (list Z)) (aes_dec : list Z -> list Z -> option (list Z)).

End Behind.

Definition feed_witness_env : feed_env :=
  mk_feed_env (Some (str "st1")) None (1753000000, 250000) (1753000000, 250100) false 1 true None.

(** A MeshCore group text that failed its CRC. *)
Definition failed_entry : dedup_entry :=
  mk_dedup_entry true 0 8 62500 30000 0 0 (enc_packet toy_packet)
    (mk_meta (LoraFrame.mk_frame_meta 8 5 62500 64 true true false false 0 0) 0 0 0 0 0) 3 1 3 3.

Definition failed_event : mesh_event :=
  match snd (dedup_emit_locked (fun _ _ _ => None) (fun _ _ _ => false) toy_tag (fun k m => Some (toy_cipher k m))
       witness_env witness_pipeline failed_entry 31000 0) with
  | [_; OutPublish ev] => ev
  | _ => event_zero
  end.


(** ** A published line *)

(** A decrypted Meshtastic text message with the given payload bytes. *)
Definition text_event (payload raw_hex : list Z) : mesh_event :=
  event_zero {{ ev_header := mk_mesh_header 0xffffffff 0x01020304 7 0xEB 8 0 4;
                ev_decrypted := true; ev_portnum := 1; ev_payload := payload; ev_raw_hex := raw_hex;
                ev_sf := 11; ev_cr := 5; ev_bw_hz := 250000; ev_freq_hz := 869525000;
                ev_channel_name := str "LongFast"; ev_preset_name := str "LongFast" }}.

Definition quoted_event : mesh_event := text_event (str "a" ++ [10; 34]) [].
Definition quoted_stdout : feed_output :=
  hd (OStdout []) (fst (feed_publish_event feed_witness_env quoted_event)).


(** ** Lines that are not newline-delimited JSON *)

(** src/feed.h promises newline-delimited JSON, and the Meshtastic serialiser
    appends the newline itself; the MeshCore one never does, so the lines of
    successive MeshCore events run together on stdout and in the archive. *)
Theorem meshcore_lines_run_together en ev o :
  ev_is_meshcore ev = true -> In o (fst (feed_publish_event en ev)) -> fe_mqtt_observer en = false ->
  forallb call_fields_ok (fst (event_calls en ev)) = true ->
  (length (print (calls_json (fst (event_calls en ev)))) < FEED_BUF)%nat ->
  output_line o <> [] /\ ~ In 10 (output_line o).
Proof.
  intros Hm Hin Ho Hf Hl. pose proof (output_written en ev o Hin) as E. pose proof (shaped_event en ev) as Hs.
  replace (output_spec en ev o) with (fst (event_calls en ev), FEED_BUF, [] : list Z) in E
    by (unfold output_spec; rewrite Hm, Ho; by destruct o).
  assert (Hok := fields_shaped_ok _ Hs Hf). rewrite serialised in E by (first [done|cbn [length]; lia]).
  cbn [jw_buf] in E. rewrite app_nil_r in E. rewrite E. split; [discriminate|].
  pose proof (print_no_ctl _ (calls_json_ok _ Hok)) as Hn. unfold no_ctl in Hn. rewrite List.Forall_forall in Hn.
  intros Hi. specialize (Hn 10 Hi). lia.
Qed.

(** What a line reader makes of a line: not JSON, ended by a newline or not. *)
Definition unparsable (ended : bool) (o : feed_output) : bool :=
  match json_parse (output_line o) with
  | None => Bool.eqb ended (match last (output_line o) with Some c => c =? 10 | None => false end)
  | Some _ => false
  end.

(** A text message of 217 control characters, six characters each once
    escaped, and 20 letters overruns the 2048-byte line: the line is cut, its
    closing quote, brace and newline are lost, and it is published all the
    same. *)
Theorem overlong_event_published_cut :
  let ev := text_event (replicate 217 1 ++ replicate 20 97) (replicate 506 48) in
  map (unparsable false) (fst (feed_publish_event feed_witness_env ev)) = replicate 6 true.
Proof. vm_compute. reflexivity. Qed.

(** A telemetry float that is not a number, straight from the air, is printed
    as the bare word nan, which is not JSON. *)
Definition nan_telemetry : mesh_event :=
  event_zero {{ ev_header := mk_mesh_header 0xffffffff 0x01020304 7 0xEB 8 0 4;
                ev_decrypted := true; ev_portnum := 67;
                ev_payload := [18; 7; 8; 50; 21; 0; 0; 192; 127] }}.

Theorem nan_telemetry_breaks_line :
  map (unparsable true) (fst (feed_publish_event feed_witness_env nan_telemetry)) = replicate 6 true.
Proof. vm_compute. reflexivity. Qed.
