(* ===== verification/Ddc.v ===== *)
(** The digital down-converter of a focused worker (src/focused.c,
    focused_process_chunk): mixer, duplicated delay line, FIR and decimator,
    and its equivalence with the textbook filter.

    The arithmetic of [float complex] and [float] is a parameter: the
    rounding and contraction of an expression are the compiler's.  Every
    index, counter and the order of the operations is the source's. *)

From S2P Require Import Prelude.

Definition FOCUSED_PHASOR_RENORM : nat := 4096.

(** The arithmetic of raw samples [A], [float complex] values [C] and filter
    coefficients [F]. *)
Class DdcOps (A C F : Type) := {
  of_iq : A -> C;            (* ii + I * qq *)
  czero : C;                 (* 0.0f + 0.0f * I *)
  cone : C;                  (* 1.0f + 0.0f * I *)
  cmul : C -> C -> C;        (* x * y *)
  cscale : C -> F -> C;      (* win[t] * taps[t] *)
  cadd : C -> C -> C;        (* acc + y *)
  renorm : C -> C;           (* phasor / sqrtf(mag2) *)
}.

Section Ddc.
Context {A C F : Type} `{ops : DdcOps A C F}.

Record ddc := mk_ddc {
  mix_step : C;
  mix_phasor : C;
  phasor_renorm_count : nat;
  taps : list F;
  n_taps : nat;
  delay : list C;
  delay_head : nat;
  decim : nat;
  decim_phase : nat;
}.

(** [acc += win[t] * taps[t]] for [t] from 0 to [n_taps - 1], where [win] is
    [&delay[delay_head]]. *)
Definition fir_step (acc : C) (wt : C * F) : C := cadd acc (cscale (fst wt) (snd wt)).

Definition fir_window (d : ddc) : C :=
  fold_left fir_step (combine (take (n_taps d) (drop (delay_head d) (delay d))) (taps d)) czero.

(** One round of the loop over the batch: the new state, and the decimated
    sample when one is due. *)
Definition process_sample (d : ddc) (a : A) : ddc * list C :=
  let mixed := cmul (of_iq a) (mix_phasor d) in
  let phasor := cmul (mix_phasor d) (mix_step d) in
  let count := S (phasor_renorm_count d) in
  let renew := FOCUSED_PHASOR_RENORM <=? count in
  let head := if S (delay_head d) =? n_taps d then 0 else S (delay_head d) in
  let due := decim d <=? S (decim_phase d) in
  let d' := d {{ mix_phasor := if renew then renorm phasor else phasor;
                 phasor_renorm_count := if renew then 0 else count;
                 delay := <[delay_head d + n_taps d := mixed]> (<[delay_head d := mixed]> (delay d));
                 delay_head := head;
                 decim_phase := if due then 0 else S (decim_phase d) }} in
  (d', if due then [fir_window d'] else []).

Fixpoint process_samples (d : ddc) (l : list A) : ddc * list C :=
  match l with
  | [] => (d, [])
  | a :: t =>
      let '(d, o) := process_sample d a in
      let '(d, os) := process_samples d t in (d, o ++ os)
  end.

(** ** The reference: mix, filter, keep one output in [decim] *)

(** The mixed samples from phasor [p] and renormalisation count [c]. *)
Fixpoint mix (step p : C) (c : nat) (l : list A) : list C :=
  match l with
  | [] => []
  | a :: t =>
      let p' := cmul p step in
      let renew := FOCUSED_PHASOR_RENORM <=? S c in
      cmul (of_iq a) p :: mix step (if renew then renorm p' else p') (if renew then 0 else S c) t
  end.

(** The dot product of the filter with a window of samples, oldest first. *)
Definition fir (h : list F) (w : list C) : C := fold_left fir_step (combine w h) czero.

(** The last [n] samples of a stream. *)
Definition last_n (n : nat) (l : list C) : list C := drop (length l - n) l.

(** The filter output after [k] of the samples [ms], over silence. *)
Definition filtered (h : list F) (n : nat) (ms : list C) (k : nat) : C :=
  fir h (last_n n (replicate n czero ++ take k ms)).

(** The decimated stream: the output after every [m]-th sample. *)
Definition decimated (h : list F) (n m : nat) (ms : list C) : list C :=
  map (fun j => filtered h n ms (S j * m)) (seq 0 (length ms / m)).

(** ** The delay line *)

(** [w] is the filter window: the delay line holds it twice. *)
Record line_rep (d : ddc) (w : list C) : Prop := {
  lr_n : 0 < n_taps d;
  lr_head : delay_head d < n_taps d;
  lr_len : 2 * n_taps d <= length (delay d);
  lr_wlen : length w = n_taps d;
  lr_win : forall t, t < n_taps d -> delay d !! (delay_head d + t) = w !! t;
  lr_dup : forall i, i < n_taps d -> delay d !! i = delay d !! (i + n_taps d);
}.

(** A window slides by one sample. *)
Definition slide (w : list C) (x : C) : list C := drop 1 w ++ [x].

Lemma slide_length w x : 0 < length w -> length (slide w x) = length w.
Proof. intros. unfold slide. rewrite length_app, length_drop. cbn. lia. Qed.

Lemma slide_lookup w x t : 0 < length w -> t < length w ->
  slide w x !! t = if S t =? length w then Some x else w !! S t.
Proof.
  intros Hw Ht. unfold slide. destruct (Nat.eqb_spec (S t) (length w)).
  - rewrite lookup_app_r, length_drop by (rewrite length_drop; lia). by replace (t - (length w - 1)) with 0 by lia.
  - rewrite lookup_app_l, lookup_drop by (rewrite length_drop; lia). done.
Qed.

Lemma line_step d w a : line_rep d w ->
  line_rep (fst (process_sample d a)) (slide w (cmul (of_iq a) (mix_phasor d))).
Proof.
  intros [Hn Hh Hl Hw Hwin Hdup]. set (x := cmul (of_iq a) (mix_phasor d)).
  assert (Hlk : forall i, i < 2 * n_taps d -> delay (fst (process_sample d a)) !! i =
    if (i =? delay_head d) || (i =? delay_head d + n_taps d) then Some x else delay d !! i).
  { intros i Hi. unfold process_sample. rcbn. fold x.
    destruct (Nat.eqb_spec i (delay_head d + n_taps d)) as [->|H1].
    - rewrite orb_true_r. apply list_lookup_insert_eq. rewrite length_insert. lia.
    - rewrite list_lookup_insert_ne by done. destruct (Nat.eqb_spec i (delay_head d)) as [->|H2].
      + apply list_lookup_insert_eq. lia.
      + by rewrite list_lookup_insert_ne. }
  split; try (unfold process_sample; rcbn; done).
  - unfold process_sample. rcbn. destruct (Nat.eqb_spec (S (delay_head d)) (n_taps d)); lia.
  - unfold process_sample. rcbn. rewrite !length_insert. done.
  - rewrite slide_length by lia. done.
  - intros t Ht. change (n_taps (fst (process_sample d a))) with (n_taps d) in Ht.
    rewrite slide_lookup by lia. rewrite Hw.
    assert (Hhd : delay_head (fst (process_sample d a)) = if S (delay_head d) =? n_taps d then 0 else S (delay_head d)) by done.
    rewrite Hhd. destruct (Nat.eqb_spec (S (delay_head d)) (n_taps d)) as [E|E].
    + rewrite Hlk by lia. cbn [Nat.add]. destruct (Nat.eqb_spec t (delay_head d)), (Nat.eqb_spec t (delay_head d + n_taps d)),
        (Nat.eqb_spec (S t) (n_taps d)); try lia; cbn [orb]; try done.
      rewrite Hdup by lia. rewrite <- Hwin by lia. f_equal. lia.
    + rewrite Hlk by lia. destruct (Nat.eqb_spec (S (delay_head d) + t) (delay_head d)),
        (Nat.eqb_spec (S (delay_head d) + t) (delay_head d + n_taps d)), (Nat.eqb_spec (S t) (n_taps d));
        try lia; cbn [orb]; try done. rewrite <- Hwin by lia. f_equal. lia.
  - intros i Hi. change (n_taps (fst (process_sample d a))) with (n_taps d) in *. rewrite !Hlk by lia.
    destruct (Nat.eqb_spec i (delay_head d)), (Nat.eqb_spec i (delay_head d + n_taps d)),
      (Nat.eqb_spec (i + n_taps d) (delay_head d)), (Nat.eqb_spec (i + n_taps d) (delay_head d + n_taps d));
      try lia; cbn [orb]; auto.
Qed.

Lemma line_window d w : line_rep d w -> take (n_taps d) (drop (delay_head d) (delay d)) = w.
Proof.
  intros H. apply list_eq. intros t. destruct (decide (t < n_taps d)).
  - rewrite lookup_take_lt, lookup_drop by done. by apply (lr_win d w).
  - rewrite lookup_take_ge by lia. symmetry. apply lookup_ge_None. rewrite (lr_wlen d w H). lia.
Qed.

(** ** Equivalence *)

Lemma last_n_snoc n l x : n <= length l -> 0 < n -> last_n n (l ++ [x]) = slide (last_n n l) x.
Proof.
  intros Hl Hn. unfold last_n, slide. rewrite length_app, drop_drop. cbn [length].
  replace (length l + 1 - n) with (length l - n + 1) by lia. rewrite drop_app_le by lia. done.
Qed.

(** The outputs due from phase [ph] on, [pre] being the samples mixed
    before. *)
Fixpoint due_outputs (h : list F) (n m ph : nat) (pre ms : list C) : list C :=
  match ms with
  | [] => []
  | x :: t =>
      let pre := pre ++ [x] in
      (if m <=? S ph then [fir h (last_n n pre)] else []) ++
      due_outputs h n m (if m <=? S ph then 0 else S ph) pre t
  end.

Lemma process_samples_due l : forall d w pre, line_rep d w -> w = last_n (n_taps d) pre -> n_taps d <= length pre ->
  snd (process_samples d l) =
    due_outputs (taps d) (n_taps d) (decim d) (decim_phase d) pre
      (mix (mix_step d) (mix_phasor d) (phasor_renorm_count d) l) /\
  line_rep (fst (process_samples d l))
    (last_n (n_taps d) (pre ++ mix (mix_step d) (mix_phasor d) (phasor_renorm_count d) l)).
Proof.
  induction l as [|a l IH]; intros d w pre Hr Hw Hp.
  { cbn. rewrite app_nil_r. split; [done|]. by rewrite <- Hw. }
  pose proof (line_step d w a Hr) as Hr'. set (x := cmul (of_iq a) (mix_phasor d)) in *.
  assert (Hx : slide w x = last_n (n_taps d) (pre ++ [x])).
  { rewrite Hw, last_n_snoc; [done|done|apply (lr_n d w Hr)]. }
  assert (Ho : snd (process_sample d a) =
    if decim d <=? S (decim_phase d) then [fir (taps d) (last_n (n_taps d) (pre ++ [x]))] else []).
  { rewrite <- Hx, <- (line_window _ _ Hr'). unfold process_sample. cbn [fst snd]. by case_if. }
  cbn [process_samples mix due_outputs]. fold x.
  destruct (process_sample d a) as [d' o] eqn:Ep. cbn [fst snd] in *.
  assert (Hd : taps d' = taps d /\ n_taps d' = n_taps d /\ decim d' = decim d /\ mix_step d' = mix_step d /\
    decim_phase d' = (if decim d <=? S (decim_phase d) then 0 else S (decim_phase d)) /\
    mix_phasor d' = (if FOCUSED_PHASOR_RENORM <=? S (phasor_renorm_count d)
                     then renorm (cmul (mix_phasor d) (mix_step d)) else cmul (mix_phasor d) (mix_step d)) /\
    phasor_renorm_count d' = (if FOCUSED_PHASOR_RENORM <=? S (phasor_renorm_count d) then 0 else S (phasor_renorm_count d))).
  { apply (f_equal fst) in Ep. cbn [fst] in Ep. rewrite <- Ep. done. }
  destruct Hd as (E1 & E2 & E3 & E4 & E5 & E6 & E7). rewrite <- E2 in *.
  destruct (IH d' _ (pre ++ [x]) Hr' Hx) as [I1 I2]; [rewrite length_app; lia|].
  destruct (process_samples d' l) as [d'' os]. cbn [fst snd] in *. rewrite E1, E3, E4, E5, E6, E7 in I1.
  rewrite E4, E6, E7, <- app_assoc in I2. cbn [app] in I2. split; [by rewrite Ho, I1|exact I2].
Qed.

Lemma due_outputs_skip h n m : forall ms ph pre, 0 < m -> ph < m -> length ms + ph < m -> due_outputs h n m ph pre ms = [].
Proof.
  induction ms as [|x ms IH]; intros ph pre Hm Hp Hl; [done|]. cbn [due_outputs length] in *.
  destruct (Nat.leb_spec m (S ph)); [lia|]. cbn [app]. apply IH; lia.
Qed.

Lemma due_outputs_first h n m : forall ms ph pre, ph < m -> m <= length ms + ph ->
  due_outputs h n m ph pre ms =
  fir h (last_n n (pre ++ take (m - ph) ms)) :: due_outputs h n m 0 (pre ++ take (m - ph) ms) (drop (m - ph) ms).
Proof.
  induction ms as [|x ms IH]; intros ph pre Hp Hl; [cbn in Hl; lia|]. cbn [due_outputs length] in *.
  destruct (Nat.leb_spec m (S ph)) as [H|H].
  - replace (m - ph) with 1 by lia. done.
  - cbn [app]. rewrite IH by lia. replace (m - ph) with (S (m - S ph)) by lia. cbn [take drop].
    by rewrite <- app_assoc.
Qed.

Lemma due_outputs_decimated h n m : 0 < m -> forall k ms pre, length ms / m = k ->
  due_outputs h n m 0 pre ms = map (fun j => fir h (last_n n (pre ++ take (S j * m) ms))) (seq 0 k).
Proof.
  intros Hm. induction k as [|k IH]; intros ms pre Hk.
  { apply Nat.div_small_iff in Hk; [|lia]. apply due_outputs_skip; lia. }
  assert (Hl : m <= length ms).
  { destruct (Nat.le_gt_cases m (length ms)); [done|]. rewrite Nat.div_small in Hk by lia. done. }
  rewrite due_outputs_first by lia. rewrite Nat.sub_0_r. cbn [seq map]. f_equal.
  - by rewrite Nat.mul_1_l.
  - rewrite IH.
    + rewrite <- seq_shift, map_map. apply map_ext_in. intros j _. do 2 f_equal. rewrite <- app_assoc. f_equal.
      replace (S (S j) * m) with (m + S j * m) by lia. by rewrite <- take_take_drop.
    + rewrite length_drop. replace (length ms) with ((length ms - m) + 1 * m) in Hk by lia.
      rewrite Nat.div_add in Hk by lia. lia.
Qed.

(** The state focused_apply_slot_locked leaves: a silent delay line. *)
Record ddc_fresh (d : ddc) : Prop := {
  df_n : 0 < n_taps d;
  df_m : 0 < decim d;
  df_head : delay_head d = 0;
  df_phase : decim_phase d = 0;
  df_len : 2 * n_taps d <= length (delay d);
  df_zero : take (2 * n_taps d) (delay d) = replicate (2 * n_taps d) czero;
}.

Lemma fresh_line d : ddc_fresh d -> line_rep d (replicate (n_taps d) czero).
Proof.
  intros [Hn Hm Hh Hp Hl Hz].
  assert (Hc : forall i, i < 2 * n_taps d -> delay d !! i = Some czero).
  { intros i Hi. rewrite <- (lookup_take_lt _ (2 * n_taps d)), Hz by done. by apply lookup_replicate_2. }
  split; [done|lia|done|by rewrite length_replicate| |].
  - intros t Ht. rewrite Hc by lia. symmetry. by apply lookup_replicate_2.
  - intros i Hi. by rewrite !Hc by lia.
Qed.

(** Processing in batches is processing the concatenation. *)
Lemma process_samples_app a : forall d b,
  process_samples d (a ++ b) =
  let '(d1, o1) := process_samples d a in let '(d2, o2) := process_samples d1 b in (d2, o1 ++ o2).
Proof.
  induction a as [|x a IH]; intros d b; cbn [process_samples app].
  - by destruct (process_samples d b).
  - destruct (process_sample d x) as [d1 o]. rewrite IH. destruct (process_samples d1 a) as [d2 o2].
    destruct (process_samples d2 b) as [d3 o3]. by rewrite app_assoc.
Qed.

(** The decimated samples produced by a run of batches. *)
Fixpoint process_batches (d : ddc) (l : list (list A)) : ddc * list C :=
  match l with
  | [] => (d, [])
  | b :: t => let '(d, o) := process_samples d b in let '(d, os) := process_batches d t in (d, o ++ os)
  end.

Lemma process_batches_concat l : forall d, process_batches d l = process_samples d (concat l).
Proof.
  induction l as [|b l IH]; intros d; [done|]. cbn [process_batches concat]. rewrite process_samples_app.
  destruct (process_samples d b) as [d1 o]. by rewrite IH.
Qed.

(** C35: the optimised down-converter is the textbook one.  However the
    samples of a run are cut into batches, the in-place mixer, the delay line
    written twice so that the filter can walk it without wrapping, and the
    decimation counter produce exactly the mixed samples filtered over
    silence and kept once in [decim], the same sums in the same order; and
    the counter of samples handed to the decoder is their number divided by
    [decim]. *)
Theorem ddc_is_decimated_fir d batches : ddc_fresh d ->
  snd (process_batches d batches) =
    decimated (taps d) (n_taps d) (decim d) (mix (mix_step d) (mix_phasor d) (phasor_renorm_count d) (concat batches)) /\
  length (snd (process_batches d batches)) = length (concat batches) / decim d.
Proof.
  intros Hf. rewrite process_batches_concat.
  pose proof (process_samples_due (concat batches) d _ (replicate (n_taps d) czero) (fresh_line d Hf)) as H.
  destruct H as [H _]; [unfold last_n; by rewrite length_replicate, Nat.sub_diag|by rewrite length_replicate|].
  rewrite (df_phase d Hf) in H. rewrite H. rewrite (due_outputs_decimated _ _ _ (df_m d Hf) _ _ _ eq_refl).
  split; [done|]. rewrite length_map, length_seq. f_equal. clear. generalize (mix_phasor d), (phasor_renorm_count d).
  induction (concat batches) as [|a l IH]; intros p c; [done|]. cbn [mix length]. by rewrite IH.
Qed.
End Ddc.

#[export] Instance z_ops : DdcOps Z Z Z :=
  {| of_iq a := a; czero := 0%Z; cone := 1%Z; cmul := Z.mul; cscale := Z.mul; cadd := Z.add; renorm p := p |}.

(** A filter of three taps over integers, decimating by two. *)
Lemma ddc_is_decimated_fir_witness :
  snd (process_batches (mk_ddc 1%Z 1%Z 0 [1; 10; 100]%Z 3 (replicate 6 0%Z) 0 2 0) [[1; 2; 3]; [4; 5]]%Z) = [210; 432]%Z.
Proof.
  refine (eq_trans (proj1 (ddc_is_decimated_fir (mk_ddc 1%Z 1%Z 0 [1; 10; 100]%Z 3 (replicate 6 0%Z) 0 2 0) [[1; 2; 3]; [4; 5]]%Z _)) _).
  - split; cbn; try lia; reflexivity.
  - vm_compute. reflexivity.
Defined.
