(* ===== verification/Focused.v ===== *)
(** A focused worker (src/focused.c, src/focused.h): slot configuration,
    arming, and the worker thread as a program of atomic phases over the raw
    IQ ring (IqRing), the down-converter (Ddc) and the LoRa decoder
    (LoraDecoder).

    The thread shares its state with the threads that arm and stop it and
    with the ring's writer.  A phase ([pc]) spans the code between two points
    where the thread looks at what others write: the ring, the state word,
    the arm flag, the clock.  The clock readings, what the decoder's front end
    reports and whether an allocation succeeds are arguments. *)

From S2P Require Import Prelude CFloat LoraFrame LoraDecoder IqRing Ddc.

Local Open Scope Z_scope.

Definition FOCUSED_BATCH_SAMPLES : Z := 16384.
Definition FOCUSED_LPF_TAPS : Z := 257.
Definition FOCUSED_LPF_TAPS_MAX : Z := 2049.

Inductive focused_state := FOCUSED_STATE_IDLE | FOCUSED_STATE_DECODING | FOCUSED_STATE_HOLD_DOWN.

#[export] Instance focused_state_eq_dec : EqDecision focused_state.
Proof. solve_decision. Defined.

(** ** Numbers *)

Definition f64_6_6 : spec_float := S754_finite false 7430939385161318 (-50).
Definition f64_1e_6 : spec_float := S754_finite false 4722366482869645 (-72).
Definition f64_half : spec_float := S754_finite false 4503599627370496 (-53).
Definition M_PI : spec_float := S754_finite false 7074237752028440 (-51).
Definition f64_gtb (a b : spec_float) : bool := f64_ltb b a.
Definition f64_leb (a b : spec_float) : bool := f64_ltb a b || f64_eqb a b.

(** [(int)x] and [(int)ceil(x)] of a finite double in range. *)
Definition f64_trunc (x : spec_float) : Z :=
  match x with
  | S754_finite s m e =>
      let q := if 0 <=? e then Zpos m * 2 ^ e else Zpos m / 2 ^ (- e) in if s then - q else q
  | _ => 0
  end.
Definition f64_ceil (x : spec_float) : Z :=
  match x with
  | S754_finite s m e =>
      let z := if s then Zneg m else Zpos m in if 0 <=? e then z * 2 ^ e else - ((- z) / 2 ^ (- e))
  | _ => 0
  end.

Definition focused_required_lpf_taps (sr : spec_float) (bw_hz : Z) : Z :=
  if (bw_hz <=? 0) || f64_leb sr f_zero then FOCUSED_LPF_TAPS
  else
    let ratio := f64_div sr (f64_of_Z bw_hz) in
    let n := f64_ceil (f64_mul f64_6_6 ratio) in
    let n := if n <? FOCUSED_LPF_TAPS then FOCUSED_LPF_TAPS else n in
    let n := if FOCUSED_LPF_TAPS_MAX <? n then FOCUSED_LPF_TAPS_MAX else n in
    if Z.even n then n + 1 else n.

(** The length build_lpf gives the filter. *)
Definition lpf_length (n : Z) : Z :=
  let n := if n <? 21 then 21 else n in if Z.even n then n + 1 else n.

(** ** State *)

Record slot := mk_slot { sl_channel_hz : spec_float; sl_bw_hz : Z; sl_sf : Z; sl_cr : Z; sl_os_factor : Z }.

Record focused_cfg := mk_focused_cfg {
  fc_slot : slot;
  fc_sdr_center_hz : spec_float;
  fc_sdr_samp_rate : spec_float;
}.

Record focused_stats := mk_focused_stats {
  samples_consumed : Z;
  samples_to_decoder : Z;
  frames_delivered : Z;
  samples_skipped : Z;
  fell_behind_total : Z;
  fell_behind_edge_start : Z;
  fell_behind_throughput : Z;
  fell_behind_skipped_max : Z;
  samples_consumed_since_arm : Z;
}.

Record arm_info := mk_arm_info {
  arm_start_sample : Z;
  arm_oldest : Z;
  arm_newest : Z;
  arm_cursor : Z;
  arm_mono_us : Z;
  arm_clamped_to_oldest : bool;
}.

(** What the worker takes from libm and from the options. *)
Class FocusedEnv (C F : Type) := {
  cexp : spec_float -> C;                               (* cos(x) + I * sin(x) *)
  lpf_taps : Z -> spec_float -> spec_float -> list F;   (* the Hamming-windowed sinc of a length, rate and cutoff *)
  opt_crc_bruteforce : bool;
  opt_crc_bruteforce_2bit : bool;
}.

Section Worker.
Context {A C F : Type} `{ops : DdcOps A C F} `{env : FocusedEnv C F}.

Record focused_worker := mk_worker {
  fw_cfg : focused_cfg;
  fw_cur : slot;
  fw_cur_set : bool;
  fw_pending : slot;
  fw_pending_slot_change : bool;
  fw_ddc : ddc (C := C) (F := F);
  fw_taps_capacity : Z;
  fw_dec : option (lora_decoder C);
  fw_started : bool;
  fw_run : bool;
  fw_state : focused_state;
  fw_sticky : bool;
  fw_hold_down_s : spec_float;
  fw_last_frame_mono_us : Z;
  fw_hold_down_start_us : Z;
  fw_start_sample : Z;
  fw_cursor : Z;
  fw_arm_pending : bool;
  fw_stats : focused_stats;
  fw_arm : arm_info;
}.

Abbreviation worker := focused_worker.

(** ** Configuration *)

Definition mix_inc (w : worker) (channel_hz : spec_float) : spec_float :=
  f64_div (f64_mul (f64_mul (f64_of_Z (-2)) M_PI) (f64_sub channel_hz (fc_sdr_center_hz (fw_cfg w))))
          (fc_sdr_samp_rate (fw_cfg w)).

Definition os_of (w : worker) : Z :=
  let os := if 0 <? sl_os_factor (fw_pending w) then sl_os_factor (fw_pending w) else sl_os_factor (fc_slot (fw_cfg w)) in
  if (os =? 1) || (os =? 2) || (os =? 4) || (os =? 8) then os else 1.

Definition decim_of (w : worker) (os : Z) : Z :=
  f64_trunc (f64_add (f64_div (fc_sdr_samp_rate (fw_cfg w)) (f64_of_Z (os * sl_bw_hz (fw_pending w)))) f64_half).

(** The delay buffer at [n] pairs; what realloc adds is never read before it
    is written. *)
Definition grown {X} (x : X) (n : nat) (l : list X) : list X := l ++ replicate (n - length l) x.

(** [grow_ok]: both reallocs succeed; [dec_ok]: the decoder's allocations do.
    The boolean is [true] for the return value 0. *)
Definition focused_apply_slot_locked (grow_ok dec_ok : bool) (w : worker) : bool * worker :=
  let os := os_of w in
  let sr := fc_sdr_samp_rate (fw_cfg w) in
  let d := decim_of w os in
  if d <=? 0 then (false, w)
  else
    let p := fw_pending w in
    let want := focused_required_lpf_taps sr (sl_bw_hz p) in
    let cap := if (fw_taps_capacity w <? want) && grow_ok then want else fw_taps_capacity w in
    let use := if cap <? want then cap else want in
    let n := lpf_length use in
    let line := replicate (Z.to_nat (2 * n)) czero ++
                drop (Z.to_nat (2 * n)) (grown czero (Z.to_nat (2 * cap)) (delay (fw_ddc w))) in
    let new_ddc := mk_ddc (cexp (mix_inc w (sl_channel_hz p))) cone 0
                     (lpf_taps n sr (f64_mul (f64_of_Z (sl_bw_hz p)) f64_half)) (Z.to_nat n) line 0 (Z.to_nat d) 0 in
    let dec := if dec_ok then lora_decoder_create_os (sl_sf p) (sl_cr p) (sl_bw_hz p) os else None in
    let w := w {{ fw_cur := mk_slot (sl_channel_hz p) (sl_bw_hz p) (sl_sf p) (sl_cr p) os; fw_cur_set := true;
                  fw_taps_capacity := cap; fw_ddc := new_ddc;
                  fw_dec := option_map (fun d => lora_decoder_set_crc_bruteforce_2bit
                              (lora_decoder_set_crc_bruteforce d opt_crc_bruteforce) opt_crc_bruteforce_2bit) dec }} in
    (match dec with Some _ => true | None => false end, w).

(** [None] is a NULL worker; [grow_ok] and [dec_ok] as above. *)
Definition focused_worker_create (grow_ok dec_ok : bool) (cfg : focused_cfg) (fresh : list F) : option worker :=
  let s := fc_slot cfg in
  if (sl_os_factor s <? 1) || (4 <? sl_os_factor s) then None
  else
    let zero_slot := mk_slot f_zero 0 0 0 0 in
    let d0 := mk_ddc czero czero 0 (take (Z.to_nat FOCUSED_LPF_TAPS) fresh) (Z.to_nat FOCUSED_LPF_TAPS)
                (replicate (Z.to_nat (2 * FOCUSED_LPF_TAPS)) czero) 0 0 0 in
    let w := mk_worker cfg zero_slot false zero_slot false d0 FOCUSED_LPF_TAPS None false false FOCUSED_STATE_IDLE
               false f_zero 0 0 0 0 false (mk_focused_stats 0 0 0 0 0 0 0 0 0) (mk_arm_info 0 0 0 0 0 false) in
    if (0 <? sl_bw_hz s) && (7 <=? sl_sf s) && (sl_sf s <=? 12) && (5 <=? sl_cr s) && (sl_cr s <=? 8) &&
       f64_gtb (sl_channel_hz s) f_zero
    then match focused_apply_slot_locked grow_ok dec_ok (w {{ fw_pending := s }}) with
         | (true, w) => Some w
         | (false, _) => None
         end
    else Some w.

(** ** Arming, from any thread *)

Definition focused_worker_arm (start_sample : Z) (hold_down_s : spec_float) (now : Z) (w : worker) : worker :=
  w {{ fw_start_sample := start_sample;
       fw_hold_down_s := if f64_gtb hold_down_s f_zero then hold_down_s else f64_of_Z 5;
       fw_last_frame_mono_us := now;
       fw_state := FOCUSED_STATE_DECODING;
       fw_arm_pending := true }}.

(** A field given as 0 keeps the current slot's. *)
Definition next_slot (req : slot) (w : worker) : slot :=
  let cur := fw_cur w in
  mk_slot (if f64_gtb (sl_channel_hz req) f_zero then sl_channel_hz req else sl_channel_hz cur)
          (if 0 <? sl_bw_hz req then sl_bw_hz req else sl_bw_hz cur)
          (if 0 <? sl_sf req then sl_sf req else sl_sf cur)
          (if 0 <? sl_cr req then sl_cr req else sl_cr cur)
          (if 0 <? sl_os_factor req then sl_os_factor req
           else if fw_cur_set w then sl_os_factor cur else sl_os_factor (fc_slot (fw_cfg w))).

Definition slot_eqb (a b : slot) : bool :=
  f64_eqb (sl_channel_hz a) (sl_channel_hz b) && (sl_bw_hz a =? sl_bw_hz b) && (sl_sf a =? sl_sf b) &&
  (sl_cr a =? sl_cr b) && (sl_os_factor a =? sl_os_factor b).

Definition focused_worker_arm_slot_os (req : slot) (start_sample : Z) (hold_down_s : spec_float) (now : Z) (w : worker)
  : worker :=
  let next := next_slot req w in
  let slot_changed := negb (fw_cur_set w) || negb (slot_eqb next (fw_cur w)) in
  let w := if slot_changed then w {{ fw_pending := next; fw_pending_slot_change := true }} else w in
  focused_worker_arm start_sample hold_down_s now w.

(** [None]: no slot is set. *)
Definition focused_worker_current_slot (w : worker) : option slot := if fw_cur_set w then Some (fw_cur w) else None.

(** ** Start and stop *)

Definition focused_worker_start (start_sample : Z) (sticky_arm spawn_ok : bool) (now : Z) (w : worker) : bool * worker :=
  if fw_started w then (false, w)
  else
    let w := w {{ fw_start_sample := start_sample; fw_sticky := sticky_arm }} in
    let w := if sticky_arm then w {{ fw_state := FOCUSED_STATE_DECODING; fw_last_frame_mono_us := now }}
             else w {{ fw_state := FOCUSED_STATE_IDLE }} in
    if spawn_ok then (true, w {{ fw_run := true; fw_started := true }}) else (false, w {{ fw_run := false }}).

(** The store that focused_worker_stop_and_join makes before it waits. *)
Definition focused_worker_stop (w : worker) : worker := if fw_started w then w {{ fw_run := false }} else w.

(** ** Processing a batch *)

(** The frame callback: [now] is its clock reading. *)
Definition focused_frame_trampoline (now : Z) (w : worker) : worker :=
  let s := fw_stats w in
  w {{ fw_stats := s {{ frames_delivered := u64 (frames_delivered s + 1) }};
       fw_last_frame_mono_us := now;
       fw_state := match fw_state w with FOCUSED_STATE_HOLD_DOWN => FOCUSED_STATE_DECODING | st => st end }}.

Definition is_frame (e : lora_event) : bool := match e with EvFrame _ _ => true | _ => false end.

(** [obs k] is what the front end reports at the [k]-th decimated sample. *)
Definition focused_process_chunk (samples : list A) (chunk_start : Z) (obs : nat -> tick_obs) (now : Z) (w : worker)
  : worker * list lora_event :=
  let dec := option_map (fun d => lora_decoder_set_stream_cursor d chunk_start (u32 (Z.of_nat (decim (fw_ddc w))))) (fw_dec w) in
  let '(dd, outs) := process_samples (fw_ddc w) samples in
  let '(dec, evs) :=
    match dec with
    | Some d => let '(d, evs) := lora_decoder_feed d (combine outs (map obs (seq 0 (length outs)))) in (Some d, evs)
    | None => (None, [])
    end in
  let s := fw_stats w in
  let w := w {{ fw_ddc := dd; fw_dec := dec;
                fw_stats := s {{ samples_to_decoder := u64 (samples_to_decoder s + Z.of_nat (length outs)) }} }} in
  (fold_left (fun w _ => focused_frame_trampoline now w) (List.filter is_frame evs) w, evs).

(** ** The thread *)

Inductive pc :=
| Entry                                     (* the snap to the live range *)
| Top                                       (* the loop test and the arm request *)
| LoadState                                 (* st = state *)
| Range (st : focused_state)                (* the live range, the overrun test *)
| Window (st : focused_state) (want : nat)  (* reading and processing a batch *)
| Hysteresis (st : focused_state)
| DrainCheck                                (* after the loop *)
| DrainRange
| DrainWindow (want : nat)
| Done.

#[export] Instance pc_eq_dec : EqDecision pc.
Proof. solve_decision. Defined.

(** What the rest of the machine answers during a phase. *)
Record answers := mk_answers {
  an_now : Z;
  an_obs : nat -> tick_obs;
  an_grow_ok : bool;
  an_dec_ok : bool;
}.

(** Where an accepted arm request puts the cursor, and whether that is a
    clamp to the oldest live sample. *)
Definition arm_target (start oldest newest : Z) : Z * bool :=
  if (start =? 0) || (start <? oldest) then (oldest, true)
  else if newest <? start then (newest, false)
  else (start, false).

Definition accept_arm (r : iq_ring (A := A)) (now : Z) (w : worker) : worker :=
  let '(o2, n2) := iq_ring_live_range r in
  let '(cursor, clamped) := arm_target (fw_start_sample w) o2 n2 in
  let s := fw_stats w in
  w {{ fw_cursor := cursor; fw_last_frame_mono_us := now; fw_state := FOCUSED_STATE_DECODING;
       fw_arm := mk_arm_info (fw_start_sample w) o2 n2 cursor now clamped;
       fw_stats := s {{ samples_consumed_since_arm := 0 }} }}.

(** [atomic_exchange(&arm_pending, 0)] and what follows an exchanged 1; the
    boolean is [false] when the slot could not be applied. *)
Definition take_arm (r : iq_ring (A := A)) (an : answers) (w : worker) : bool * worker :=
  if fw_arm_pending w then
    let w := w {{ fw_arm_pending := false }} in
    let '(ok, w) := if fw_pending_slot_change w
                    then let '(ok, w) := focused_apply_slot_locked (an_grow_ok an) (an_dec_ok an) w in
                         (ok, w {{ fw_pending_slot_change := false }})
                    else (true, w) in
    if ok then (true, accept_arm r (an_now an) w) else (false, w {{ fw_state := FOCUSED_STATE_IDLE }})
  else (true, w).

(** The ring's writer has overrun the cursor. *)
Definition fall_behind (oldest newest : Z) (w : worker) : worker :=
  let skipped := oldest - fw_cursor w in
  let s := fw_stats w in
  let edge := arm_clamped_to_oldest (fw_arm w) && (samples_consumed_since_arm s <? FOCUSED_BATCH_SAMPLES) in
  w {{ fw_stats := s {{ samples_skipped := u64 (samples_skipped s + skipped);
                        fell_behind_edge_start := u64 (fell_behind_edge_start s + (if edge then 1 else 0));
                        fell_behind_throughput := u64 (fell_behind_throughput s + (if edge then 0 else 1));
                        fell_behind_total := u64 (fell_behind_total s + 1);
                        fell_behind_skipped_max := if fell_behind_skipped_max s <? skipped then skipped
                                                   else fell_behind_skipped_max s }};
       fw_cursor := newest; fw_state := FOCUSED_STATE_IDLE }}.

(** [newest - cursor], at most one batch. *)
Definition want_of (newest cursor : Z) : nat := Z.to_nat (Z.min (newest - cursor) FOCUSED_BATCH_SAMPLES).

(** [iq_ring_get_window], the batch if any, and the cursor past it. *)
Definition consume (since_arm : bool) (r : iq_ring (A := A)) (want : nat) (an : answers) (w : worker)
  : worker * list (Z * list A) :=
  let chunk_start := fw_cursor w in
  let batch := iq_ring_get_window r chunk_start want in
  match batch with
  | [] => (w, [])
  | _ =>
      let got := Z.of_nat (length batch) in
      let '(w, _) := focused_process_chunk batch chunk_start (an_obs an) (an_now an) w in
      let s := fw_stats w in
      (w {{ fw_stats := s {{ samples_consumed := u64 (samples_consumed s + got);
                             samples_consumed_since_arm :=
                               if since_arm then u64 (samples_consumed_since_arm s + got) else samples_consumed_since_arm s }};
            fw_cursor := u64 (fw_cursor w + got) }}, [(chunk_start, batch)])
  end.

Definition seconds (us : Z) : spec_float := f64_mul (f64_of_Z (u64 us)) f64_1e_6.

Definition hysteresis (st : focused_state) (now : Z) (w : worker) : worker :=
  let hd_s := fw_hold_down_s w in
  if negb (fw_sticky w) && f64_gtb hd_s f_zero then
    let idle_s := seconds (now - fw_last_frame_mono_us w) in
    match st with
    | FOCUSED_STATE_DECODING =>
        if f64_gtb idle_s hd_s
        then w {{ fw_state := FOCUSED_STATE_HOLD_DOWN; fw_hold_down_start_us := now }} else w
    | FOCUSED_STATE_HOLD_DOWN =>
        if f64_gtb (seconds (now - fw_hold_down_start_us w)) hd_s then w {{ fw_state := FOCUSED_STATE_IDLE }} else w
    | FOCUSED_STATE_IDLE => w
    end
  else w.

(** One phase: the worker, the next phase and the batches processed, each
    with the absolute index announced to the decoder. *)
Definition focused_thread (p : pc) (r : iq_ring (A := A)) (an : answers) (w : worker)
  : worker * pc * list (Z * list A) :=
  match p with
  | Entry =>
      let oldest := fst (iq_ring_live_range r) in
      (w {{ fw_cursor := if fw_start_sample w <? oldest then oldest else fw_start_sample w }}, Top, [])
  | Top =>
      if fw_run w then
        let '(ok, w) := take_arm r an w in (w, if ok then LoadState else Top, [])
      else (w, DrainCheck, [])
  | LoadState =>
      match fw_state w with
      | FOCUSED_STATE_IDLE => (w {{ fw_cursor := snd (iq_ring_live_range r) }}, Top, [])
      | st => (w, Range st, [])
      end
  | Range st =>
      let '(oldest, newest) := iq_ring_live_range r in
      if fw_cursor w <? oldest then (fall_behind oldest newest w, Top, [])
      else if fw_cursor w <? newest then (w, Window st (want_of newest (fw_cursor w)), [])
      else (w, Hysteresis st, [])
  | Window st want => let '(w, log) := consume true r want an w in (w, Hysteresis st, log)
  | Hysteresis st => (hysteresis st (an_now an) w, Top, [])
  | DrainCheck => (w, match fw_state w with FOCUSED_STATE_IDLE => Done | _ => DrainRange end, [])
  | DrainRange =>
      let '(oldest, newest) := iq_ring_live_range r in
      let w := if fw_cursor w <? oldest then w {{ fw_cursor := oldest }} else w in
      if newest <=? fw_cursor w then (w, Done, []) else (w, DrainWindow (want_of newest (fw_cursor w)), [])
  | DrainWindow want =>
      let '(w, log) := consume false r want an w in (w, match log with [] => Done | _ => DrainRange end, log)
  | Done => (w, Done, [])
  end.
End Worker.
