(* ===== verification/FocusedFacts.v ===== *)
(** A focused worker under every interleaving (src/focused.c): what one run of
    the worker feeds its decoder is a contiguous piece of the sample stream,
    correctly indexed, as long as the writer does not overtake the worker
    inside one read; the drain after a stop terminates. *)

From S2P Require Import Prelude CFloat LoraFrame LoraDecoder IqRing Ddc Focused.

Local Open Scope Z_scope.

Section Facts.
Context {A C F : Type} `{ops : DdcOps A C F} `{env : FocusedEnv C F}.
Abbreviation worker := (focused_worker (C := C) (F := F)).
Abbreviation ring := (iq_ring (A := A)).

(** ** The machine *)

(** The worker and its ring; and, for the statements, the stream appended so
    far, the batches processed since the cursor was last re-anchored, where
    that was, and whether a read of this run found its first sample already
    overwritten. *)
Record fsys := mk_fsys {
  sy_w : worker;
  sy_ring : ring;
  sy_pc : pc;
  sy_stream : list A;
  sy_base : Z;
  sy_run : list (Z * list A);
  sy_overrun : bool;
}.

Inductive fevent :=
| EAppend (batch : list A)
| EArm (start : Z) (hold_down_s : spec_float) (now : Z)
| EArmSlot (req : slot) (start : Z) (hold_down_s : spec_float) (now : Z)
| EStop
| EThread (an : answers).

Definition is_read (p : pc) : bool := match p with Window _ _ | DrainWindow _ => true | _ => false end.

Definition thread_event (an : answers) (s : fsys) : fsys :=
  let '(w, p, log) := focused_thread (sy_pc s) (sy_ring s) an (sy_w s) in
  if is_read (sy_pc s)
  then mk_fsys w (sy_ring s) p (sy_stream s) (sy_base s) (sy_run s ++ log)
         (sy_overrun s || (fw_cursor (sy_w s) <? iq_oldest (sy_ring s)))
  else if fw_cursor w =? fw_cursor (sy_w s)
  then mk_fsys w (sy_ring s) p (sy_stream s) (sy_base s) (sy_run s) (sy_overrun s)
  else mk_fsys w (sy_ring s) p (sy_stream s) (fw_cursor w) [] false.

Definition fstep (s : fsys) (e : fevent) : fsys :=
  let on_w w := mk_fsys w (sy_ring s) (sy_pc s) (sy_stream s) (sy_base s) (sy_run s) (sy_overrun s) in
  match e with
  | EAppend b => mk_fsys (sy_w s) (fst (iq_ring_append (sy_ring s) b)) (sy_pc s) (sy_stream s ++ b)
                   (sy_base s) (sy_run s) (sy_overrun s)
  | EArm start hd now => on_w (focused_worker_arm start hd now (sy_w s))
  | EArmSlot req start hd now => on_w (focused_worker_arm_slot_os req start hd now (sy_w s))
  | EStop => on_w (focused_worker_stop (sy_w s))
  | EThread an => thread_event an s
  end.

Definition frun (es : list fevent) (s : fsys) : fsys := fold_left fstep es s.

(** A started worker on a new ring. *)
Definition fsys_init (w : worker) (r : ring) : fsys := mk_fsys w r Entry [] (fw_cursor w) [] false.

Definition appended (es : list fevent) : list A :=
  flat_map (fun e => match e with EAppend b => b | _ => [] end) es.

(** Sample indices stay below 2^63. *)
Definition event_ok (e : fevent) : Prop :=
  match e with EArm start _ _ | EArmSlot _ start _ _ => 0 <= start < 2 ^ 63 | _ => True end.

(** ** Runs *)

(** The batches of [run] are consecutive pieces of [s] from index [pos] to
    index [cur], each carrying its own index. *)
Fixpoint pieces (s : list A) (pos : Z) (run : list (Z * list A)) (cur : Z) : Prop :=
  match run with
  | [] => pos = cur
  | (start, batch) :: t =>
      start = pos /\ pos + Z.of_nat (length batch) <= Z.of_nat (length s) /\
      batch = take (length batch) (drop (Z.to_nat pos) s) /\
      pieces s (pos + Z.of_nat (length batch)) t cur
  end.

Lemma pieces_grow s t run : forall pos cur, 0 <= pos -> pieces s pos run cur -> pieces (s ++ t) pos run cur.
Proof.
  induction run as [|[st b] run IH]; intros pos cur Hp H; [done|]. destruct H as (H1 & H2 & H3 & H4).
  split; [done|]. split; [rewrite length_app; lia|]. split; [|apply IH; [lia|done]].
  rewrite drop_app_le by lia. rewrite take_app_le by (rewrite length_drop; lia). done.
Qed.

Lemma pieces_snoc s run b : forall pos cur,
  pieces s pos run cur -> cur + Z.of_nat (length b) <= Z.of_nat (length s) ->
  b = take (length b) (drop (Z.to_nat cur) s) ->
  pieces s pos (run ++ [(cur, b)]) (cur + Z.of_nat (length b)).
Proof.
  induction run as [|[st x] run IH]; intros pos cur H Hl Hb; cbn [pieces app] in *.
  - subst. done.
  - destruct H as (H1 & H2 & H3 & H4). split; [done|]. split; [done|]. split; [done|]. by apply IH.
Qed.

Lemma pieces_le s run : forall pos cur, pieces s pos run cur -> pos <= cur.
Proof.
  induction run as [|[st b] run IH]; intros pos cur H; cbn [pieces] in H; [lia|].
  destruct H as (_ & _ & _ & H). apply IH in H. lia.
Qed.

Lemma pieces_concat s run : forall pos cur, 0 <= pos -> pieces s pos run cur ->
  concat (map snd run) = take (Z.to_nat (cur - pos)) (drop (Z.to_nat pos) s).
Proof.
  induction run as [|[st b] run IH]; intros pos cur Hp H; cbn [pieces map concat snd] in *.
  - subst. by rewrite Z.sub_diag.
  - destruct H as (_ & H2 & H3 & H4). pose proof (pieces_le _ _ _ _ H4). rewrite (IH (pos + Z.of_nat (length b)) cur) by (done || lia).
    assert (E : drop (Z.to_nat (pos + Z.of_nat (length b))) s = drop (length b) (drop (Z.to_nat pos) s))
      by (rewrite drop_drop; f_equal; lia).
    rewrite E. rewrite H3 at 1.
    replace (Z.to_nat (cur - pos)) with (length b + Z.to_nat (cur - (pos + Z.of_nat (length b))))%nat by lia.
    apply take_take_drop.
Qed.

(** ** The invariant *)

Definition pc_ok (s : list A) (cursor : Z) (p : pc) : Prop :=
  match p with
  | Window _ want | DrainWindow want => (0 < want)%nat /\ cursor + Z.of_nat want <= Z.of_nat (length s)
  | _ => True
  end.

Record finv (s : fsys) : Prop := {
  fi_rep : iq_rep (sy_ring s) (sy_stream s);
  fi_len : Z.of_nat (length (sy_stream s)) < 2 ^ 63;
  fi_cursor : 0 <= fw_cursor (sy_w s) < 2 ^ 63;
  fi_start : 0 <= fw_start_sample (sy_w s) < 2 ^ 63;
  fi_base : 0 <= sy_base s;
  fi_run : sy_overrun s = false -> pieces (sy_stream s) (sy_base s) (sy_run s) (fw_cursor (sy_w s));
  fi_pc : pc_ok (sy_stream s) (fw_cursor (sy_w s)) (sy_pc s);
}.

Lemma live_range_rep (r : ring) (s : list A) : iq_rep r s ->
  iq_ring_live_range r = (Z.of_nat (length s - iq_capacity r), Z.of_nat (length s)).
Proof. intros H. unfold iq_ring_live_range. by rewrite (oldest_rep r s H), (iq_total r s H). Qed.

Lemma trampolines_keep now l : forall w : worker,
  let w' := fold_left (fun w (_ : lora_event) => focused_frame_trampoline now w) l w in
  fw_cursor w' = fw_cursor w /\ fw_start_sample w' = fw_start_sample w.
Proof. induction l as [|e l IH]; intros w; [done|]. cbn [fold_left]. apply (IH (focused_frame_trampoline now w)). Qed.

Lemma process_chunk_keeps samples start obs now (w : worker) :
  fw_cursor (fst (focused_process_chunk samples start obs now w)) = fw_cursor w /\
  fw_start_sample (fst (focused_process_chunk samples start obs now w)) = fw_start_sample w.
Proof.
  unfold focused_process_chunk. destruct (process_samples (fw_ddc w) samples) as [dd outs].
  destruct (match option_map _ (fw_dec w) with Some _ => _ | None => _ end) as [dec evs]. cbn [fst].
  match goal with |- context [fold_left _ _ ?w0] => exact (trampolines_keep now (List.filter is_frame evs) w0) end.
Qed.

Lemma consume_spec b (r : ring) want an (w : worker) :
  let batch := iq_ring_get_window r (fw_cursor w) want in
  let '(w', log) := consume b r want an w in
  fw_cursor w' = (if bool_decide (batch = []) then fw_cursor w else u64 (fw_cursor w + Z.of_nat (length batch))) /\
  fw_start_sample w' = fw_start_sample w /\
  log = if bool_decide (batch = []) then [] else [(fw_cursor w, batch)].
Proof.
  cbn zeta. unfold consume. destruct (iq_ring_get_window r (fw_cursor w) want) as [|x l] eqn:E; [done|].
  rewrite bool_decide_eq_false_2 by done. rewrite <- E.
  destruct (process_chunk_keeps (iq_ring_get_window r (fw_cursor w) want) (fw_cursor w) (an_obs an) (an_now an) w) as [H1 H2].
  destruct (focused_process_chunk _ _ _ _ _) as [w' evs]. cbn [fst] in *. rcbn. by rewrite H1, H2.
Qed.

Lemma want_ok newest cursor : cursor < newest ->
  (0 < want_of newest cursor)%nat /\ cursor + Z.of_nat (want_of newest cursor) <= newest.
Proof. intros H. unfold want_of, FOCUSED_BATCH_SAMPLES. lia. Qed.

Lemma apply_slot_keeps g d (w : worker) :
  fw_cursor (snd (focused_apply_slot_locked g d w)) = fw_cursor w /\
  fw_start_sample (snd (focused_apply_slot_locked g d w)) = fw_start_sample w.
Proof. unfold focused_apply_slot_locked. cbn zeta. by case_if. Qed.

Ltac fin := split_and!; try done; try lia.

(** The phases that read no batch. *)
Lemma thread_other p (r : ring) (s : list A) an (w : worker) : iq_rep r s -> is_read p = false ->
  Z.of_nat (length s) < 2 ^ 63 -> 0 <= fw_cursor w < 2 ^ 63 -> 0 <= fw_start_sample w < 2 ^ 63 ->
  let '(w', p', log) := focused_thread p r an w in
  log = [] /\ 0 <= fw_cursor w' < 2 ^ 63 /\ fw_start_sample w' = fw_start_sample w /\ pc_ok s (fw_cursor w') p'.
Proof.
  intros Hr Hp Hs Hc Hst. destruct p; try discriminate Hp; cbn [focused_thread];
    rewrite ?(live_range_rep r s Hr); cbn [fst snd].
  - rcbn. destruct (Z.ltb_spec (fw_start_sample w) (Z.of_nat (length s - iq_capacity r))); fin.
  - case_if; [|fin]. unfold take_arm. case_if; [|fin]. cbn zeta.
    assert (Hacc : forall w0 : worker, fw_start_sample w0 = fw_start_sample w ->
      0 <= fw_cursor (accept_arm r (an_now an) w0) < 2 ^ 63 /\
      fw_start_sample (accept_arm r (an_now an) w0) = fw_start_sample w).
    { intros w0 Hw0. unfold accept_arm, arm_target. rewrite (live_range_rep r s Hr), Hw0. repeat case_if; rcbn; zb; split; (done || lia). }
    set (w0 := w {{ fw_arm_pending := false }}). change (fw_pending_slot_change w0) with (fw_pending_slot_change w).
    case_if.
    + destruct (apply_slot_keeps (an_grow_ok an) (an_dec_ok an) w0) as [K1 K2].
      change (fw_cursor w0) with (fw_cursor w) in K1. change (fw_start_sample w0) with (fw_start_sample w) in K2.
      destruct (focused_apply_slot_locked _ _ w0) as [[] w1]; cbn [fst snd] in *.
      * edestruct Hacc as [H1 H2]; [|fin]. rcbn. by rewrite K2.
      * rcbn. rewrite K1, K2. fin.
    + destruct (Hacc w0) as [H1 H2]; [done|]. fin.
  - destruct (fw_state w); rcbn; fin.
  - destruct (Z.ltb_spec (fw_cursor w) (Z.of_nat (length s - iq_capacity r))); [unfold fall_behind; rcbn; fin|].
    destruct (Z.ltb_spec (fw_cursor w) (Z.of_nat (length s))); fin; by apply want_ok.
  - assert (H : fw_cursor (hysteresis st (an_now an) w) = fw_cursor w /\
                fw_start_sample (hysteresis st (an_now an) w) = fw_start_sample w).
    { unfold hysteresis. case_if; [|done]. destruct st; [done| |]; case_if; done. }
    destruct H as [-> ->]. fin.
  - fin. by destruct (fw_state w).
  - destruct (Z.ltb_spec (fw_cursor w) (Z.of_nat (length s - iq_capacity r))).
    + change (fw_cursor (w {{ fw_cursor := Z.of_nat (length s - iq_capacity r) }})) with (Z.of_nat (length s - iq_capacity r)).
      destruct (Z.leb_spec (Z.of_nat (length s)) (Z.of_nat (length s - iq_capacity r))); rcbn; fin;
      by apply want_ok.
    + destruct (Z.leb_spec (Z.of_nat (length s)) (fw_cursor w)); fin; by apply want_ok.
  - fin.
Qed.

(** A read that the writer has not overtaken returns the samples asked for. *)
Lemma window_exact (r : ring) (s : list A) cursor want : iq_rep r s -> Z.of_nat (length s) < 2 ^ 63 -> 0 <= cursor ->
  cursor + Z.of_nat want <= Z.of_nat (length s) ->
  let batch := iq_ring_get_window r cursor want in
  (length batch <= want)%nat /\
  (iq_oldest r <= cursor -> batch = take want (drop (Z.to_nat cursor) s) /\ length batch = want).
Proof.
  intros Hr Hs Hc Hw. cbn zeta. pose proof (get_window_spec r s (Z.to_nat cursor) want Hr) as G. cbn zeta in G.
  rewrite Z2Nat.id in G by lia. rewrite G by lia. split; [rewrite length_take; lia|].
  rewrite (oldest_rep r s Hr). intros Ho.
  replace (Nat.max (Z.to_nat cursor) (length s - iq_capacity r)) with (Z.to_nat cursor) by lia.
  replace (Nat.min (Z.to_nat cursor + want) (length s) - Z.to_nat cursor)%nat with want by lia.
  split; [done|]. rewrite length_take, length_drop. lia.
Qed.

Lemma read_inv b want an s p' : finv s -> (0 < want)%nat ->
  fw_cursor (sy_w s) + Z.of_nat want <= Z.of_nat (length (sy_stream s)) ->
  (forall log, pc_ok (sy_stream s) (fw_cursor (fst (consume b (sy_ring s) want an (sy_w s)))) (p' log)) ->
  let '(w, log) := consume b (sy_ring s) want an (sy_w s) in
  finv (mk_fsys w (sy_ring s) (p' log) (sy_stream s) (sy_base s) (sy_run s ++ log)
         (sy_overrun s || (fw_cursor (sy_w s) <? iq_oldest (sy_ring s)))).
Proof.
  intros [Hr Hl Hc Hst Hb Hrun Hpc] Hw0 Hw Hp. pose proof (consume_spec b (sy_ring s) want an (sy_w s)) as E.
  destruct (window_exact (sy_ring s) _ _ _ Hr Hl (proj1 Hc) Hw) as [Hle Hex]. cbn zeta in *.
  destruct (consume b (sy_ring s) want an (sy_w s)) as [w log]. cbn [fst] in Hp. destruct E as (E1 & E2 & E3).
  set (batch := iq_ring_get_window (sy_ring s) (fw_cursor (sy_w s)) want) in *.
  assert (E1' : fw_cursor w = fw_cursor (sy_w s) + Z.of_nat (length batch)).
  { rewrite E1. case_bool_decide as Hn; [rewrite Hn; cbn; lia|]. unfold u64. apply wrap_small. lia. }
  split; cbn [sy_w sy_ring sy_pc sy_stream sy_base sy_run sy_overrun]; try done; try lia.
  - intros Ho. apply orb_false_elim in Ho as [Ho1 Ho2]. apply Z.ltb_ge in Ho2. destruct (Hex Ho2) as [Hb1 Hb2].
    rewrite E3, E1'. case_bool_decide as Hn; [rewrite Hn in Hb2; cbn in Hb2; lia|].
    apply pieces_snoc; [by apply Hrun|lia|]. by rewrite Hb2.
Qed.

Lemma step_inv e s : finv s -> event_ok e -> Z.of_nat (length (sy_stream s ++ appended [e])) < 2 ^ 63 ->
  finv (fstep s e) /\ sy_stream (fstep s e) = sy_stream s ++ appended [e].
Proof.
  intros Hi He Hb. pose proof Hi as [Hr Hl Hc Hst Hba Hrun Hpc]. unfold appended in *. cbn [flat_map] in *.
  destruct e as [b|start hd now|req start hd now| |an]; cbn [fstep]; rewrite ?app_nil_r in *.
  - rewrite length_app in Hb. destruct (append_rep _ _ b Hr ltac:(lia)) as [Hr' _].
    split; [|done]. split; cbn [sy_w sy_ring sy_pc sy_stream sy_base sy_run sy_overrun]; try done.
    + rewrite length_app. lia.
    + intros Ho. apply pieces_grow; [done|]. by apply Hrun.
    + destruct (sy_pc s); cbn [pc_ok] in *; try done; rewrite length_app; lia.
  - split; [|done]. split; done.
  - split; [|done]. unfold focused_worker_arm_slot_os. case_if; split; done.
  - split; [|done]. unfold focused_worker_stop. case_if; split; done.
  - unfold thread_event. destruct (is_read (sy_pc s)) eqn:Er.
    + destruct (sy_pc s) as [| | | |st want| | | |want|] eqn:Ep; try discriminate Er; cbn [focused_thread pc_ok] in *;
        destruct Hpc as [Hp1 Hp2].
      * pose proof (read_inv true want an s (fun _ => Hysteresis st) Hi Hp1 Hp2 (fun _ => I)) as H.
        destruct (consume true _ _ _ _) as [w log]. done.
      * pose proof (read_inv false want an s (fun log => match log with [] => Done | _ => DrainRange end) Hi Hp1 Hp2) as H.
        destruct (consume false _ _ _ _) as [w log]. split; [|done]. apply H. by intros [].
    + pose proof (thread_other (sy_pc s) (sy_ring s) (sy_stream s) an (sy_w s) Hr Er Hl Hc Hst) as H.
      destruct (focused_thread _ _ _ _) as [[w p] log]. destruct H as (-> & H1 & H2 & H3).
      destruct (Z.eqb_spec (fw_cursor w) (fw_cursor (sy_w s))) as [E|E]; (split; [|done]);
        split; cbn [sy_w sy_ring sy_pc sy_stream sy_base sy_run sy_overrun]; try done; try lia.
      by rewrite E.
Qed.

Lemma run_inv es : forall s, finv s -> Forall event_ok es -> Z.of_nat (length (sy_stream s ++ appended es)) < 2 ^ 63 ->
  finv (frun es s) /\ sy_stream (frun es s) = sy_stream s ++ appended es.
Proof.
  induction es as [|e es IH]; intros s Hs He Hl; [by rewrite app_nil_r|].
  apply Forall_cons in He as [He Hes]. change (appended (e :: es)) with
    ((match e with EAppend b => b | _ => [] end) ++ appended es) in *.
  assert (Ha : appended [e] = match e with EAppend b => b | _ => [] end) by (cbn; by rewrite app_nil_r).
  rewrite <- Ha in *. rewrite app_assoc in *. destruct (step_inv e s Hs He) as [H1 H2]; [rewrite length_app in Hl; lia|].
  rewrite <- H2 in *. by apply (IH (fstep s e)).
Qed.

Lemma init_inv (w : worker) (r : ring) : iq_rep r [] -> 0 <= fw_cursor w < 2 ^ 63 -> 0 <= fw_start_sample w < 2 ^ 63 ->
  finv (fsys_init w r).
Proof. intros Hr Hc Hst. split; cbn [fsys_init sy_w sy_ring sy_pc sy_stream sy_base sy_run sy_overrun length]; try done; lia. Qed.

(** C6: a focus run is an unbroken piece of the sample stream.  Under every
    interleaving of the worker's phases with appends to the ring, with arming
    and with a stop, as long as no read of the run found its first sample
    overwritten, the batches fed to the decoder since the cursor was last
    re-anchored are consecutive pieces of the stream: put together they are
    the samples from the run's first index to the cursor, none missing and
    none twice, and the index announced with each batch is the index of its
    first sample. *)
Theorem focus_run_contiguous cap format fresh (r : ring) (w : worker) es :
  iq_ring_create cap format fresh = Some r -> (cap <= length fresh)%nat ->
  0 <= fw_cursor w < 2 ^ 63 -> 0 <= fw_start_sample w < 2 ^ 63 ->
  Forall event_ok es -> Z.of_nat (length (appended es)) < 2 ^ 63 ->
  let s := frun es (fsys_init w r) in
  sy_overrun s = false ->
  concat (map snd (sy_run s)) =
    take (Z.to_nat (fw_cursor (sy_w s) - sy_base s)) (drop (Z.to_nat (sy_base s)) (appended es)) /\
  pieces (appended es) (sy_base s) (sy_run s) (fw_cursor (sy_w s)).
Proof.
  intros Hc Hf Hcu Hst He Hl s Ho.
  destruct (run_inv es (fsys_init w r)) as [[Hr Hln Hcur Hs Hb Hrun Hpc] Hs'];
    [by apply init_inv; [apply (create_rep _ _ _ _ Hc Hf)|..]|done|done|].
  cbn [fsys_init sy_stream app] in Hs'. specialize (Hrun Ho). fold s in Hrun, Hb, Hs'. rewrite Hs' in Hrun.
  split; [|done]. by apply pieces_concat.
Qed.

(** ** The drain *)

Lemma trampolines_run now l : forall w : worker,
  fw_run (fold_left (fun w (_ : lora_event) => focused_frame_trampoline now w) l w) = fw_run w.
Proof. induction l as [|e l IH]; intros w; [done|]. cbn [fold_left]. by rewrite IH. Qed.

Lemma consume_run b (r : ring) want an (w : worker) : fw_run (fst (consume b r want an w)) = fw_run w.
Proof.
  unfold consume. destruct (iq_ring_get_window r (fw_cursor w) want) as [|x l]; [done|]. unfold focused_process_chunk.
  destruct (process_samples (fw_ddc w) (x :: l)) as [dd outs].
  destruct (match option_map _ (fw_dec w) with Some _ => _ | None => _ end) as [dec evs]. rcbn.
  rewrite trampolines_run. done.
Qed.

Lemma thread_run p (r : ring) an (w : worker) : fw_run w = false -> fw_run (fst (fst (focused_thread p r an w))) = false.
Proof.
  intros H. destruct p; cbn [focused_thread]; rewrite ?H; try done.
  - destruct (fw_state w); done.
  - destruct (iq_ring_live_range r) as [o n]. case_if; [done|]. by case_if.
  - pose proof (consume_run true r want an w) as E. destruct (consume true r want an w). cbn [fst] in *. congruence.
  - unfold hysteresis. cbn [fst]. case_if; [|done]. destruct st; [done| |]; by case_if.
  - destruct (iq_ring_live_range r) as [o n]. case_if; case_if; done.
  - pose proof (consume_run false r want an w) as E. destruct (consume false r want an w). cbn [fst] in *. congruence.
Qed.

(** What is left to read, and the phases left before the thread ends once it
    has been stopped. *)
Definition remaining (s : fsys) : nat := Z.to_nat (Z.of_nat (length (sy_stream s)) - fw_cursor (sy_w s)).

Definition phases_left (s : fsys) : nat :=
  let m := (2 * remaining s)%nat in
  match sy_pc s with
  | Entry => 2 * length (sy_stream s) + 10
  | LoadState => m + 8 | Range _ => m + 7 | Window _ _ => m + 6 | Hysteresis _ => m + 5 | Top => m + 4
  | DrainCheck => m + 3 | DrainRange => m + 2 | DrainWindow _ => m + 1
  | Done => 0
  end%nat.

Lemma thread_event_fields an s :
  sy_w (thread_event an s) = fst (fst (focused_thread (sy_pc s) (sy_ring s) an (sy_w s))) /\
  sy_pc (thread_event an s) = snd (fst (focused_thread (sy_pc s) (sy_ring s) an (sy_w s))) /\
  sy_stream (thread_event an s) = sy_stream s /\ sy_ring (thread_event an s) = sy_ring s.
Proof. unfold thread_event. destruct (focused_thread _ _ _ _) as [[w p] log]. case_if; [done|]. by case_if. Qed.

Lemma consume_cursor b (r : ring) (s : list A) want an (w : worker) :
  iq_rep r s -> Z.of_nat (length s) < 2 ^ 63 -> 0 <= fw_cursor w -> fw_cursor w + Z.of_nat want <= Z.of_nat (length s) ->
  let '(w', log) := consume b r want an w in
  fw_cursor w <= fw_cursor w' <= Z.of_nat (length s) /\ (log <> [] -> fw_cursor w < fw_cursor w').
Proof.
  intros Hr Hl Hc Hw. pose proof (consume_spec b r want an w) as E. cbn zeta in E.
  destruct (window_exact r s _ _ Hr Hl Hc Hw) as [Hle _]. destruct (consume b r want an w) as [w' log].
  destruct E as (E1 & _ & E3). revert E1 E3. case_bool_decide as Hn; intros -> ->; [split; [lia|done]|].
  unfold u64. rewrite wrap_small by lia. split; [lia|]. intros _.
  destruct (iq_ring_get_window r (fw_cursor w) want); [done|]. cbn. lia.
Qed.

Lemma phases_decrease an s : finv s -> fw_run (sy_w s) = false -> sy_pc s <> Done ->
  (phases_left (thread_event an s) < phases_left s)%nat.
Proof.
  intros [Hr Hl Hc Hst _ _ Hpc] Hrun Hd. destruct (thread_event_fields an s) as (Ew & Ep & Es & _).
  unfold phases_left, remaining. rewrite Ew, Ep, Es. clear Ew Ep Es.
  destruct (sy_pc s) as [| | |st|st want|st| | |want|] eqn:E; cbn [focused_thread pc_ok] in *; try done;
    rewrite ?(live_range_rep _ _ Hr), ?Hrun; cbn [fst snd].
  - rcbn. destruct (Z.ltb_spec (fw_start_sample (sy_w s)) (Z.of_nat (length (sy_stream s) - iq_capacity (sy_ring s)))); lia.
  - lia.
  - destruct (fw_state (sy_w s)); cbn [fst snd]; rcbn; lia.
  - destruct (Z.ltb_spec (fw_cursor (sy_w s)) (Z.of_nat (length (sy_stream s) - iq_capacity (sy_ring s)))).
    + unfold fall_behind. rcbn. lia.
    + destruct (Z.ltb_spec (fw_cursor (sy_w s)) (Z.of_nat (length (sy_stream s)))); cbn [fst snd]; lia.
  - destruct Hpc as [_ Hw]. pose proof (consume_cursor true _ _ want an _ Hr Hl (proj1 Hc) Hw) as K.
    destruct (consume true _ _ _ _) as [w' log]. cbn [fst snd] in *. lia.
  - assert (H : fw_cursor (hysteresis st (an_now an) (sy_w s)) = fw_cursor (sy_w s)).
    { unfold hysteresis. case_if; [|done]. destruct st; [done| |]; case_if; done. }
    rewrite H. lia.
  - destruct (fw_state (sy_w s)); cbn; lia.
  - destruct (Z.ltb_spec (fw_cursor (sy_w s)) (Z.of_nat (length (sy_stream s) - iq_capacity (sy_ring s)))); case_if; rcbn; lia.
  - destruct Hpc as [Hw0 Hw]. pose proof (consume_cursor false _ _ want an _ Hr Hl (proj1 Hc) Hw) as K.
    destruct (consume false _ _ _ _) as [w' [|x log]]; cbn [fst snd] in *; [lia|]. destruct K as [K1 K2].
    specialize (K2 ltac:(done)). lia.
Qed.

(** The drain never re-reads and never loses a sample the ring still holds. *)
Definition draining (s : fsys) : Prop :=
  match sy_pc s with
  | DrainCheck => fw_state (sy_w s) <> FOCUSED_STATE_IDLE
  | DrainRange => True
  | DrainWindow _ => iq_oldest (sy_ring s) <= fw_cursor (sy_w s)
  | Done => Z.of_nat (length (sy_stream s)) <= fw_cursor (sy_w s)
  | _ => False
  end.

Lemma drain_step an s : finv s -> draining s -> sy_overrun s = false ->
  draining (thread_event an s) /\ sy_overrun (thread_event an s) = false.
Proof.
  intros [Hr Hl Hc Hst _ _ Hpc] Hd Ho. unfold draining in Hd.
  pose proof (live_range_rep _ _ Hr) as Hlr. pose proof (oldest_rep _ _ Hr) as Hol. unfold thread_event, draining.
  destruct (sy_pc s) as [| | |st|st want|st| | |want|] eqn:E; try done; cbn [focused_thread is_read pc_ok] in *.
  - rewrite Z.eqb_refl. cbn. destruct (fw_state (sy_w s)); done.
  - rewrite Hlr. destruct (Z.ltb_spec (fw_cursor (sy_w s)) (Z.of_nat (length (sy_stream s) - iq_capacity (sy_ring s)))).
    + change (fw_cursor ((sy_w s) {{ fw_cursor := Z.of_nat (length (sy_stream s) - iq_capacity (sy_ring s)) }}))
        with (Z.of_nat (length (sy_stream s) - iq_capacity (sy_ring s))).
      destruct (Z.leb_spec (Z.of_nat (length (sy_stream s))) (Z.of_nat (length (sy_stream s) - iq_capacity (sy_ring s))));
        case_if; zb; try lia; cbn [sy_pc sy_w sy_ring sy_stream sy_overrun]; rcbn; split; (done || lia).
    + destruct (Z.leb_spec (Z.of_nat (length (sy_stream s))) (fw_cursor (sy_w s))); rewrite Z.eqb_refl; cbn; split; try done; lia.
  - destruct Hpc as [Hw0 Hw]. pose proof (consume_spec false (sy_ring s) want an (sy_w s)) as K. cbn zeta in K.
    destruct (window_exact (sy_ring s) _ _ _ Hr Hl (proj1 Hc) Hw) as [_ Hex]. cbn zeta in Hex.
    destruct (Hex Hd) as [_ Hlen]. destruct (consume false _ _ _ _) as [w' log]. destruct K as (K1 & _ & K3).
    rewrite bool_decide_eq_false_2 in K3 by (intros E0; rewrite E0 in Hlen; cbn in Hlen; lia). subst log.
    cbn. split; [done|]. rewrite Ho. apply Z.ltb_ge. lia.
  - rewrite Z.eqb_refl. done.
Qed.

Lemma thread_events_inv ans : forall s, finv s -> finv (frun (map EThread ans) s) /\
  sy_stream (frun (map EThread ans) s) = sy_stream s.
Proof.
  intros s Hs. assert (Ha : appended (map EThread ans) = []) by (induction ans; done).
  destruct (run_inv (map EThread ans) s Hs) as [H1 H2].
  - apply List.Forall_forall. intros e He. apply in_map_iff in He as (an & <- & _). done.
  - rewrite Ha, app_nil_r. apply (fi_len s Hs).
  - by rewrite Ha, app_nil_r in H2.
Qed.

Lemma done_stays ans : forall s, sy_pc s = Done -> sy_pc (frun (map EThread ans) s) = Done.
Proof.
  induction ans as [|an ans IH]; intros s H; [done|]. apply IH. cbn [fstep].
  destruct (thread_event_fields an s) as (_ & -> & _). by rewrite H.
Qed.

(** C36: a stopped worker ends, having drained the ring.  Once run is cleared
    and the writer has stopped, from any phase the thread reaches its end
    within [phases_left] phases, whatever the clock, the front end and the
    allocator answer; and if the worker was active when it left its loop, it
    has then read the ring up to the last sample, the batches being one
    unbroken piece of the stream. *)
Theorem drain_terminates s ans : finv s -> fw_run (sy_w s) = false -> (phases_left s <= length ans)%nat ->
  let s' := frun (map EThread ans) s in
  sy_pc s' = Done /\
  (draining s -> sy_overrun s = false ->
   Z.of_nat (length (sy_stream s)) <= fw_cursor (sy_w s') /\
   pieces (sy_stream s) (sy_base s') (sy_run s') (fw_cursor (sy_w s'))).
Proof.
  intros Hi Hrun Hl. cbn zeta. assert (Hd : sy_pc (frun (map EThread ans) s) = Done).
  { revert s Hi Hrun Hl. induction ans as [|an ans IH]; intros s Hi Hrun Hl.
    - unfold phases_left in Hl. cbn. destruct (sy_pc s); cbn in Hl; lia || done.
    - destruct (decide (sy_pc s = Done)) as [E|E]; [by apply (done_stays (an :: ans))|].
      pose proof (phases_decrease an s Hi Hrun E) as Hm. cbn [map frun fold_left fstep length] in *. apply IH.
      + apply (proj1 (thread_events_inv [an] s Hi)).
      + destruct (thread_event_fields an s) as (-> & _). by apply thread_run.
      + lia. }
  split; [done|]. intros Hdr Ho. destruct (thread_events_inv ans s Hi) as [Hi' Hs'].
  assert (G : forall ans s, finv s -> draining s -> sy_overrun s = false ->
    draining (frun (map EThread ans) s) /\ sy_overrun (frun (map EThread ans) s) = false).
  { clear. induction ans as [|an ans IH]; intros s Hi Hd Ho; [done|]. destruct (drain_step an s Hi Hd Ho) as [H1 H2].
    apply IH; [apply (proj1 (thread_events_inv [an] s Hi))|done|done]. }
  destruct (G ans s Hi Hdr Ho) as [G1 G2]. unfold draining in G1. rewrite Hd, Hs' in G1.
  split; [done|]. rewrite <- Hs'. by apply fi_run.
Qed.

(** ** Runs that end early *)

(** A frame delivered in HOLD_DOWN "snaps the worker back to DECODING"
    (src/focused.h); but the hysteresis test of the same round still uses the
    state loaded before the batch, and when the hold-down has just expired it
    parks the worker although the frame has arrived. *)
Theorem frame_at_expiry_is_not_activity batch start obs now now' (w : worker) :
  fw_state w = FOCUSED_STATE_HOLD_DOWN -> fw_sticky w = false -> f64_gtb (fw_hold_down_s w) f_zero = true ->
  existsb is_frame (snd (focused_process_chunk batch start obs now w)) = true ->
  f64_gtb (seconds (now' - fw_hold_down_start_us w)) (fw_hold_down_s w) = true ->
  let w' := fst (focused_process_chunk batch start obs now w) in
  fw_state w' = FOCUSED_STATE_DECODING /\ fw_last_frame_mono_us w' = now /\
  fw_state (hysteresis FOCUSED_STATE_HOLD_DOWN now' w') = FOCUSED_STATE_IDLE.
Proof.
  intros Hs Hk Hh Hf Ht. unfold focused_process_chunk in *. destruct (process_samples (fw_ddc w) batch) as [dd outs].
  destruct (match option_map _ (fw_dec w) with Some _ => _ | None => _ end) as [dec evs]. cbn [fst snd] in *.
  match goal with |- context [fold_left _ _ ?w0] => set (w1 := w0) end.
  assert (G : forall l (v : worker), let v' := fold_left (fun w (_ : lora_event) => focused_frame_trampoline now w) l v in
    fw_sticky v' = fw_sticky v /\ fw_hold_down_s v' = fw_hold_down_s v /\ fw_hold_down_start_us v' = fw_hold_down_start_us v /\
    (fw_state v <> FOCUSED_STATE_IDLE -> l <> [] -> fw_state v' = FOCUSED_STATE_DECODING /\ fw_last_frame_mono_us v' = now)).
  { clear. induction l as [|e l IH]; intros v; [done|]. cbn [fold_left]. cbn zeta in IH.
    destruct (IH (focused_frame_trampoline now v)) as (I1 & I2 & I3 & I4). split_and!; [done|done|done|]. intros Hv _.
    destruct l as [|e' l]; [split; [|done]|apply I4; [|done]].
    - unfold focused_frame_trampoline. cbn [fold_left]. rcbn. by destruct (fw_state v).
    - unfold focused_frame_trampoline. rcbn. by destruct (fw_state v). }
  destruct (G (List.filter is_frame evs) w1) as (G1 & G2 & G3 & G4).
  destruct G4 as [G4 G5].
  { change (fw_state w1) with (fw_state w). by rewrite Hs. }
  { intros E. apply existsb_exists in Hf as (e & He & Hfr). assert (H : In e (List.filter is_frame evs)) by (by apply filter_In).
    by rewrite E in H. }
  split; [done|]. split; [done|]. unfold hysteresis. rewrite G1, G2, G3.
  change (fw_sticky w1) with (fw_sticky w). change (fw_hold_down_s w1) with (fw_hold_down_s w).
  change (fw_hold_down_start_us w1) with (fw_hold_down_start_us w). rewrite Hk, Hh, Ht. done.
Qed.

Definition no_arm (e : fevent) : Prop := match e with EArm _ _ _ | EArmSlot _ _ _ _ => False | _ => True end.

Definition parked (s : fsys) : Prop :=
  fw_state (sy_w s) = FOCUSED_STATE_IDLE /\ fw_arm_pending (sy_w s) = false /\ sy_run s = [] /\
  match sy_pc s with Top | LoadState | DrainCheck | Done => True | _ => False end.

Lemma parked_step e s : parked s -> no_arm e -> parked (fstep s e).
Proof.
  intros (H1 & H2 & H3 & H4) He. destruct e as [b|start hd now|req start hd now| |an]; try done; cbn [fstep].
  - unfold parked, focused_worker_stop. by case_if.
  - unfold thread_event. destruct (sy_pc s) eqn:E; try done; cbn [focused_thread is_read]; unfold take_arm; rewrite ?H1, ?H2.
    + destruct (fw_run (sy_w s)); rewrite Z.eqb_refl; done.
    + case_if; done.
    + rewrite Z.eqb_refl. done.
    + rewrite Z.eqb_refl. done.
Qed.

(** A manually focused worker is documented to enter DECODING and never
    leave; when the writer overruns it once, it goes IDLE like any other, and
    nothing ever processes a sample again until someone arms it. *)
Theorem sticky_worker_abandons_focus an s es st :
  sy_pc s = Range st -> fw_sticky (sy_w s) = true -> fw_arm_pending (sy_w s) = false ->
  fw_cursor (sy_w s) < iq_oldest (sy_ring s) <= iq_total_written (sy_ring s) -> Forall no_arm es ->
  fw_state (sy_w (frun es (thread_event an s))) = FOCUSED_STATE_IDLE /\ sy_run (frun es (thread_event an s)) = [].
Proof.
  intros Hp _ Ha Hc Hn. assert (P : parked (thread_event an s)).
  { unfold thread_event. rewrite Hp. cbn [focused_thread is_read iq_ring_live_range].
    unfold iq_ring_live_range. destruct (Z.ltb_spec (fw_cursor (sy_w s)) (iq_oldest (sy_ring s))); [|lia].
    change (fw_cursor (fall_behind (iq_oldest (sy_ring s)) (iq_total_written (sy_ring s)) (sy_w s)))
      with (iq_total_written (sy_ring s)).
    destruct (Z.eqb_spec (iq_total_written (sy_ring s)) (fw_cursor (sy_w s))); [lia|]. done. }
  revert P. generalize (thread_event an s). induction Hn as [|e es He Hn IH]; intros s' P.
  - by destruct P as (P1 & P2 & P3 & _).
  - apply IH. by apply parked_step.
Qed.
End Facts.

(** ** Concrete runs, over integers *)

#[export] Instance z_env : FocusedEnv Z Z :=
  {| cexp _ := 1; lpf_taps n _ _ := replicate (Z.to_nat n) 1; opt_crc_bruteforce := true; opt_crc_bruteforce_2bit := false |}.

Definition demo_slot : slot := mk_slot (f64_of_Z 869525000) 250000 11 5 1.
Definition demo_cfg : focused_cfg := mk_focused_cfg demo_slot (f64_of_Z 869500000) (f64_of_Z 1000000).

(** A worker created and started by the code, idle. *)
Definition demo_worker : option (focused_worker (C := Z) (F := Z)) :=
  option_map (fun w => snd (focused_worker_start 0 false true 0 w))
    (focused_worker_create true true demo_cfg (replicate 257 0)).
Definition demo_w : focused_worker :=
  Eval vm_compute in match demo_worker with
                     | Some w => w
                     | None => mk_worker demo_cfg demo_slot false demo_slot false (mk_ddc 0 0 0 [] 0 [] 0 0 0) 0 None false
                                 false FOCUSED_STATE_IDLE false f_zero 0 0 0 0 false (mk_focused_stats 0 0 0 0 0 0 0 0 0)
                                 (mk_arm_info 0 0 0 0 0 false)
                     end.
Definition demo_ring : iq_ring (A := Z) := mk_iq_ring SAMPLE_FMT_INT8 8 (replicate 8 0) 0.
Definition demo_an (now : Z) : answers := mk_answers now (fun _ => mk_obs 0 false false 0 0 0) true true.
Definition demo_thread (n : nat) : list (fevent (A := Z)) := replicate n (EThread (demo_an 1000)).

(** Five samples, armed at index 1, four read; two more arrive and are read. *)
Definition demo_events : list fevent :=
  demo_thread 1 ++ [EAppend [10; 11; 12; 13; 14]; EArm 1 (f64_of_Z 5) 500] ++ demo_thread 4 ++
  [EAppend [15; 16]] ++ demo_thread 5.

Lemma demo_worker_built : demo_worker = Some demo_w.
Proof. vm_compute. reflexivity. Qed.

Lemma focus_run_contiguous_witness :
  let s := frun demo_events (fsys_init demo_w demo_ring) in
  sy_run s = [(1, [11; 12; 13; 14]); (5, [15; 16])] /\ concat (map snd (sy_run s)) = [11; 12; 13; 14; 15; 16].
Proof.
  cbn zeta. split; [vm_compute; reflexivity|].
  refine (eq_trans (proj1 (focus_run_contiguous 8 SAMPLE_FMT_INT8 (replicate 8 0) demo_ring demo_w demo_events _ _ _ _ _ _ _)) _).
  - reflexivity.
  - cbn. lia.
  - vm_compute. split; [discriminate|reflexivity].
  - vm_compute. split; [discriminate|reflexivity].
  - unfold demo_events, demo_thread. repeat constructor; vm_compute; discriminate.
  - vm_compute. reflexivity.
  - vm_compute. reflexivity.
  - vm_compute. reflexivity.
Defined.

Lemma drain_terminates_witness :
  let s := frun demo_events (fsys_init demo_w demo_ring) in
  let s' := frun (demo_thread 40) (frun [EAppend [17; 18]; EStop] s) in
  sy_pc s' = Done.
Proof.
  cbn zeta. change (demo_thread 40) with (map (EThread (A := Z)) (replicate 40 (demo_an 1000))).
  refine (proj1 (drain_terminates _ (replicate 40 (demo_an 1000)) _ _ _)).
  - unfold frun. rewrite <- fold_left_app. apply (run_inv (demo_events ++ [EAppend [17; 18]; EStop])).
    + apply init_inv; [apply (create_rep 8 SAMPLE_FMT_INT8 (replicate 8 0)); [reflexivity|cbn; lia]| |];
        vm_compute; (split; [discriminate|reflexivity]).
    + unfold demo_events, demo_thread. repeat constructor; vm_compute; discriminate.
    + vm_compute. reflexivity.
  - vm_compute. reflexivity.
  - vm_compute. lia.
Defined.

(** The writer may overtake the worker between the overrun test and the read:
    the read then returns later samples, which are announced under the
    earlier index, the worker advances by their number only, and reads some
    of them a second time; no overrun is counted.  Here eight samples are
    wanted from index 0 when three more arrive: samples 3 to 7 are fed as
    samples 0 to 4, and then 5 to 10 as themselves. *)
Definition overtaken_events : list fevent :=
  demo_thread 1 ++ [EAppend [0; 1; 2; 3; 4; 5; 6; 7]; EArm 0 (f64_of_Z 5) 500] ++ demo_thread 3 ++
  [EAppend [8; 9; 10]] ++ demo_thread 6.

Theorem overtaken_read_is_misindexed :
  let s := frun overtaken_events (fsys_init demo_w demo_ring) in
  sy_run s = [(0, [3; 4; 5; 6; 7]); (5, [5; 6; 7; 8; 9; 10])] /\ fell_behind_total (fw_stats (sy_w s)) = 0 /\
  sy_overrun s = true.
Proof. vm_compute. split_and!; reflexivity. Qed.

(** The loop drops a focus run after a gap; the drain that follows it jumps
    over the lost samples and goes on feeding the same decoder. *)
Definition drain_gap_events : list fevent :=
  demo_thread 1 ++ [EAppend [0; 1; 2; 3]; EArm 0 (f64_of_Z 5) 500] ++ demo_thread 5 ++
  [EAppend [4; 5; 6; 7; 8; 9; 10; 11; 12; 13]; EStop] ++ demo_thread 6.

Theorem drain_feeds_across_gap :
  let s := frun drain_gap_events (fsys_init demo_w demo_ring) in
  sy_pc s = Done /\ samples_consumed (fw_stats (sy_w s)) = 12 /\ sy_base s = 6 /\
  sy_run s = [(6, [6; 7; 8; 9; 10; 11; 12; 13])] /\ fell_behind_total (fw_stats (sy_w s)) = 0 /\
  samples_skipped (fw_stats (sy_w s)) = 0.
Proof. vm_compute. split_and!; reflexivity. Qed.
