(* ===== verification/FocusPool.v ===== *)
(** The focused-worker pool dispatcher of src/main.c (promote_to_pool,
    focus_os_for_slot, the pool part of on_wideband_preamble_lock): a preamble
    lock on a wideband channel refreshes the worker already on its slot, takes
    an idle one, or is dropped.

    The dispatcher holds the pool mutex; it sees each worker between two
    phases of its thread. *)

From S2P Require Import Prelude CFloat LoraDecoder IqRing Ddc Focused FocusedFacts.

Local Open Scope Z_scope.

Definition FOCUS_POOL_MAX : nat := 4.

Section Pool.
Context {A C F : Type} `{ops : DdcOps A C F} `{env : FocusedEnv C F}.
Abbreviation worker := (focused_worker (C := C) (F := F)).

(** The configuration read from the environment variables. *)
Record pool_cfg := mk_pool_cfg {
  pg_hold_down_s : spec_float;
  pg_rewind_ms : Z;
  pg_os_factor : Z;
  pg_freqs : list Z;
  pg_min_snr_db : spec_float;
  pg_samp_rate : spec_float;
}.

Record pool := mk_pool {
  fp_workers : list (option worker);      (* g_focus_pool[0 .. g_focus_pool_size) *)
  fp_promote_total : Z;
  fp_promote_below_snr : Z;
  fp_promote_matched : Z;
  fp_promote_assigned : Z;
  fp_promote_dropped : Z;
}.

Definition focus_os_for_slot (g_focus_os_factor bw_hz sf : Z) : Z :=
  if (g_focus_os_factor =? 1) || (g_focus_os_factor =? 2) || (g_focus_os_factor =? 4) || (g_focus_os_factor =? 8)
  then g_focus_os_factor
  else if bw_hz =? 500000 then 2
  else if bw_hz =? 250000 then
    if 10 <=? sf then 8 else if (sf =? 7) || (sf =? 9) then 4 else 1
  else if (bw_hz =? 125000) && (11 <=? sf) then 8
  else if bw_hz <=? 125000 then 2
  else 1.

(** [(uint64_t)((double)rewind_ms * samp_rate / 1000.0)] *)
Definition rewind_samples (g : pool_cfg) : Z :=
  f64_trunc (f64_div (f64_mul (f64_of_Z (pg_rewind_ms g)) (pg_samp_rate g)) (f64_of_Z 1000)).

Definition on_slot (freq_hz : spec_float) (bw_hz sf cr : Z) (w : worker) : bool :=
  match focused_worker_current_slot w with
  | Some s => f64_eqb (sl_channel_hz s) freq_hz && (sl_bw_hz s =? bw_hz) && (sl_sf s =? sf) && (sl_cr s =? cr)
  | None => false
  end.

Definition is_idle (w : worker) : bool := bool_decide (fw_state w = FOCUSED_STATE_IDLE).

(** The first worker of the pool that satisfies [p]. *)
Fixpoint first_worker (p : worker -> bool) (i : nat) (ws : list (option worker)) : option nat :=
  match ws with
  | [] => None
  | Some w :: t => if p w then Some i else first_worker p (S i) t
  | None :: t => first_worker p (S i) t
  end.

Inductive promotion := Matched (i : nat) | Assigned (i : nat) | Dropped.

Definition choose (freq_hz : spec_float) (bw_hz sf cr : Z) (ws : list (option worker)) : promotion :=
  match first_worker (fun w => on_slot freq_hz bw_hz sf cr w && negb (is_idle w)) 0 ws with
  | Some i => Matched i
  | None => match first_worker is_idle 0 ws with Some i => Assigned i | None => Dropped end
  end.

(** [now] is the clock reading of focused_worker_arm. *)
Definition promote_to_pool (g : pool_cfg) (freq_hz : spec_float) (bw_hz sf cr now_samples now : Z) (p : pool)
  : pool * option promotion :=
  match fp_workers p with
  | [] => (p, None)
  | ws =>
      let rewind := rewind_samples g in
      let start := if rewind <? now_samples then now_samples - rewind else 0 in
      let os := focus_os_for_slot (pg_os_factor g) bw_hz sf in
      let arm := focused_worker_arm_slot_os (mk_slot freq_hz bw_hz sf cr os) start (pg_hold_down_s g) now in
      let p := p {{ fp_promote_total := u64 (fp_promote_total p + 1) }} in
      let c := choose freq_hz bw_hz sf cr ws in
      (match c with
       | Matched i => p {{ fp_workers := alter (option_map arm) i ws;
                           fp_promote_matched := u64 (fp_promote_matched p + 1) }}
       | Assigned i => p {{ fp_workers := alter (option_map arm) i ws;
                            fp_promote_assigned := u64 (fp_promote_assigned p + 1) }}
       | Dropped => p {{ fp_promote_dropped := u64 (fp_promote_dropped p + 1) }}
       end, Some c)
  end.

(** The pool part of the preamble-lock callback; [chan_freq] is the channel's
    frequency in Hz, 0 when unset. *)
Definition on_wideband_preamble_lock (g : pool_cfg) (chan_freq bw_hz sf cr : Z) (snr_db : spec_float)
  (now_samples now : Z) (p : pool) : pool * option promotion :=
  if chan_freq =? 0 then (p, None)
  else if (0 <? length (pg_freqs g))%nat && negb (existsb (Z.eqb chan_freq) (pg_freqs g)) then (p, None)
  else if f64_gtb (pg_min_snr_db g) f_zero && f64_ltb snr_db (pg_min_snr_db g)
  then (p {{ fp_promote_below_snr := u64 (fp_promote_below_snr p + 1) }}, None)
  else promote_to_pool g (f64_of_Z chan_freq) bw_hz sf cr now_samples now p.

(** ** What a promotion does *)

Lemma first_worker_spec (p : worker -> bool) ws : forall i,
  match first_worker p i ws with
  | Some k => (i <= k)%nat /\ (exists w, ws !! (k - i)%nat = Some (Some w) /\ p w = true) /\
              forall j w, (j < k - i)%nat -> ws !! j = Some (Some w) -> p w = false
  | None => forall j w, ws !! j = Some (Some w) -> p w = false
  end.
Proof.
  induction ws as [|[w|] ws IH]; intros i; cbn [first_worker]; [done| |].
  - destruct (p w) eqn:E.
    + split; [lia|]. rewrite Nat.sub_diag. split; [by exists w|]. intros. lia.
    + specialize (IH (S i)). destruct (first_worker p (S i) ws) as [k|].
      * destruct IH as (H1 & (v & H2 & H3) & H4). split; [lia|].
        replace (k - i)%nat with (S (k - S i)) by lia. split; [by exists v|].
        intros [|j] v' Hj Hl; [cbn in Hl; congruence|]. apply (H4 j); [lia|done].
      * intros [|j] v Hl; [cbn in Hl; congruence|]. by apply (IH j).
  - specialize (IH (S i)). destruct (first_worker p (S i) ws) as [k|].
    + destruct IH as (H1 & (v & H2 & H3) & H4). split; [lia|].
      replace (k - i)%nat with (S (k - S i)) by lia. split; [by exists v|].
      intros [|j] v' Hj Hl; [done|]. apply (H4 j); [lia|done].
    + intros [|j] v Hl; [done|]. by apply (IH j).
Qed.

Lemma arm_busy req start hd now (w : worker) :
  fw_state (focused_worker_arm_slot_os req start hd now w) = FOCUSED_STATE_DECODING /\
  fw_arm_pending (focused_worker_arm_slot_os req start hd now w) = true /\
  fw_start_sample (focused_worker_arm_slot_os req start hd now w) = start /\
  fw_cur (focused_worker_arm_slot_os req start hd now w) = fw_cur w.
Proof. unfold focused_worker_arm_slot_os. by case_if. Qed.

Definition promotions (p : pool) : Z := u64 (fp_promote_matched p + fp_promote_assigned p + fp_promote_dropped p).

Lemma u64_add_l a b : u64 (u64 a + b) = u64 (a + b).
Proof. unfold u64, wrap. apply Z.add_mod_idemp_l. done. Qed.

(** One more of one kind is one more in all. *)
Lemma count_one x r t : u64 (x + r) = u64 t -> u64 (u64 (x + 1) + r) = u64 (u64 (t + 1)).
Proof.
  intros H. rewrite u64_add_l. replace (x + 1 + r) with (x + r + 1) by lia.
  rewrite <- (u64_add_l (x + r)), H, u64_add_l. unfold u64 at 3. unfold u64, wrap. by rewrite Zmod_mod.
Qed.

(** The dispatcher loses nothing and disturbs nobody.  A promotion
    touches at most one worker, and every promotion is counted once, as
    matched, assigned or dropped.  It refreshes the first busy worker that is
    on the slot; only when there is none does it take the first idle worker;
    only when there is none of those either is it dropped.  The worker armed
    is left busy with the request pending at the rewound sample, so the next
    promotion of another slot cannot take it. *)
Theorem promotion_routes g freq_hz bw_hz sf cr now_samples now p : fp_workers p <> [] ->
  promotions p = u64 (fp_promote_total p) ->
  let '(p', c) := promote_to_pool g freq_hz bw_hz sf cr now_samples now p in
  let start := if rewind_samples g <? now_samples then now_samples - rewind_samples g else 0 in
  promotions p' = u64 (fp_promote_total p') /\
  match c with
  | Some (Matched i | Assigned i) =>
      (forall j, j <> i -> fp_workers p' !! j = fp_workers p !! j) /\
      exists w w', fp_workers p !! i = Some (Some w) /\ fp_workers p' !! i = Some (Some w') /\
        fw_state w' = FOCUSED_STATE_DECODING /\ fw_arm_pending w' = true /\ fw_start_sample w' = start /\
        match c with
        | Some (Matched _) => on_slot freq_hz bw_hz sf cr w = true /\ fw_state w <> FOCUSED_STATE_IDLE
        | _ => fw_state w = FOCUSED_STATE_IDLE /\
               (forall j v, fp_workers p !! j = Some (Some v) -> on_slot freq_hz bw_hz sf cr v = true ->
                            fw_state v = FOCUSED_STATE_IDLE)
        end
  | Some Dropped =>
      fp_workers p' = fp_workers p /\
      forall j v, fp_workers p !! j = Some (Some v) ->
        fw_state v <> FOCUSED_STATE_IDLE /\ on_slot freq_hz bw_hz sf cr v = false
  | None => False
  end.
Proof.
  intros Hne Hc. unfold promote_to_pool. destruct (fp_workers p) as [|x ws0] eqn:Ew; [done|].
  rewrite <- Ew in *. clear Ew x ws0. unfold choose.
  pose proof (first_worker_spec (fun w => on_slot freq_hz bw_hz sf cr w && negb (is_idle w)) (fp_workers p) 0) as M.
  pose proof (first_worker_spec is_idle (fp_workers p) 0) as I. unfold promotions in *.
  assert (B : forall w : worker, negb (is_idle w) = true <-> fw_state w <> FOCUSED_STATE_IDLE).
  { intros w. unfold is_idle. case_bool_decide; cbn; intuition congruence. }
  assert (B' : forall w : worker, is_idle w = true <-> fw_state w = FOCUSED_STATE_IDLE).
  { intros w. unfold is_idle. by rewrite bool_decide_eq_true. }
  set (arm := focused_worker_arm_slot_os (mk_slot freq_hz bw_hz sf cr (focus_os_for_slot (pg_os_factor g) bw_hz sf))
      (if rewind_samples g <? now_samples then now_samples - rewind_samples g else 0) (pg_hold_down_s g) now).
  assert (K : forall i w, fp_workers p !! i = Some (Some w) ->
    (forall j, j <> i -> alter (option_map arm) i (fp_workers p) !! j = fp_workers p !! j) /\
    alter (option_map arm) i (fp_workers p) !! i = Some (Some (arm w))).
  { intros i w Hw. split; [intros j Hj; by apply list_lookup_alter_ne|]. by rewrite list_lookup_alter_eq, Hw. }
  assert (Ha : forall w, fw_state (arm w) = FOCUSED_STATE_DECODING /\ fw_arm_pending (arm w) = true /\
    fw_start_sample (arm w) = (if rewind_samples g <? now_samples then now_samples - rewind_samples g else 0)).
  { intros w. destruct (arm_busy (mk_slot freq_hz bw_hz sf cr (focus_os_for_slot (pg_os_factor g) bw_hz sf))
      (if rewind_samples g <? now_samples then now_samples - rewind_samples g else 0) (pg_hold_down_s g) now w) as (A1 & A2 & A3 & _).
    done. }
  destruct (first_worker _ 0 (fp_workers p)) as [i|] eqn:E1.
  - destruct M as (_ & (w & Hw & Hp) & _). rewrite Nat.sub_0_r in Hw. apply andb_prop in Hp as [Hp1 Hp2]. rcbn.
    destruct (K i w Hw) as [K1 K2]. destruct (Ha w) as (A1 & A2 & A3). split; [|split; [exact K1|]].
    + rewrite <- !Z.add_assoc in *. by apply count_one.
    + exists w, (arm w). split_and!; try done. by apply B.
  - destruct (first_worker is_idle 0 (fp_workers p)) as [i|] eqn:E2; rcbn.
    + destruct I as (_ & (w & Hw & Hp) & _). rewrite Nat.sub_0_r in Hw.
      destruct (K i w Hw) as [K1 K2]. destruct (Ha w) as (A1 & A2 & A3). split; [|split; [exact K1|]].
      * replace (fp_promote_matched p + u64 (fp_promote_assigned p + 1) + fp_promote_dropped p) with
          (u64 (fp_promote_assigned p + 1) + (fp_promote_matched p + fp_promote_dropped p)) by lia.
        apply count_one. rewrite <- Hc. f_equal. lia.
      * exists w, (arm w). split_and!; try done; [by apply B'|]. intros j v Hv Hs. specialize (M j v Hv). rewrite Hs in M.
        cbn [andb] in M. apply B'. by destruct (is_idle v).
    + split; [|split; [done|]].
      * rewrite (Z.add_comm (_ + _)). apply count_one. rewrite <- Hc. f_equal. lia.
      * intros j v Hv. specialize (M j v Hv). specialize (I j v Hv). split.
        -- intros E. apply B' in E. congruence.
        -- rewrite I in M. by rewrite andb_true_r in M.
Qed.
End Pool.

(** ** A stale slot *)

(** The coalescing test reads the slot a worker is configured for, which its
    thread only updates at its next poll.  A worker last on slot 869.525 MHz
    is taken for 868.3 MHz; a lock on 869.525 MHz that arrives before the
    thread has run is then "matched" to it, the request changes no pending
    field since the slot looks current, and the thread tunes to 868.3 MHz with
    the second lock's start sample: the second lock is decoded by nobody,
    although it was counted as matched and other workers may be idle. *)
Definition pool_demo_cfg : pool_cfg := mk_pool_cfg (f64_of_Z 5) 20 1 [] f_zero (f64_of_Z 1000000).
Definition demo_pool : pool (C := Z) (F := Z) := mk_pool [Some demo_w; Some demo_w] 0 0 0 0 0.

Definition second_lock : pool (C := Z) (F := Z) * option promotion :=
  let '(p, _) := promote_to_pool pool_demo_cfg (f64_of_Z 868300000) 250000 11 5 500000 100 demo_pool in
  promote_to_pool pool_demo_cfg (f64_of_Z 869525000) 250000 11 5 600000 101 p.

Theorem stale_slot_swallows_lock :
  snd second_lock = Some (Matched 0) /\ fp_promote_dropped (fst second_lock) = 0 /\
  match fp_workers (fst second_lock) with
  | [Some w; Some idle] =>
      let '(w', _, _) := focused_thread Top demo_ring (demo_an 102) w in
      fw_start_sample w' = 580000 /\ sl_channel_hz (fw_cur w') = f64_of_Z 868300000 /\
      fw_state idle = FOCUSED_STATE_IDLE
  | _ => False
  end.
Proof. vm_compute. split_and!; reflexivity. Qed.

Lemma promotion_routes_witness :
  snd (promote_to_pool pool_demo_cfg (f64_of_Z 868300000) 250000 11 5 500000 100 demo_pool) = Some (Assigned 0) /\
  exists w w' : focused_worker (C := Z) (F := Z),
    fp_workers demo_pool !! 0%nat = Some (Some w) /\ fw_state w' = FOCUSED_STATE_DECODING.
Proof.
  split; [vm_compute; reflexivity|].
  pose proof (promotion_routes pool_demo_cfg (f64_of_Z 868300000) 250000 11 5 500000 100 demo_pool
    ltac:(discriminate) eq_refl) as H.
  assert (E : snd (promote_to_pool pool_demo_cfg (f64_of_Z 868300000) 250000 11 5 500000 100 demo_pool) = Some (Assigned 0))
    by (vm_compute; reflexivity).
  destruct (promote_to_pool pool_demo_cfg (f64_of_Z 868300000) 250000 11 5 500000 100 demo_pool) as [p' c].
  cbn [snd] in E. subst c. destruct H as (_ & _ & w & w' & H1 & _ & H2 & _). by exists w, w'.
Defined.
