(* ===== verification/IqSnapshot.v ===== *)
(** The raw-IQ snapshot store (src/iq_snapshot.c, src/iq_snapshot.h): the
    bounded queue of lock events, the writer that cuts a window of samples out
    of the ring, and the janitor that prunes old files.

    The file system answers are arguments ([io]); what is written is a value
    ([snapshot]). *)

From Stdlib Require Import String Sorted.
From S2P Require Import Prelude CString CFloat IqRing Focused.

Local Open Scope Z_scope.
Local Open Scope list_scope.

Definition WRITER_POLL_SLEEP_MS : Z := 3.
Definition WRITER_WAIT_TIMEOUT_MS : Z := 2000.
Definition JANITOR_EVERY_N_SNAPSHOTS : Z := 16.
Definition QUEUE_CAP_DEFAULT : Z := 64.
Definition IQ_PATH_MAX : nat := 512.

Record iq_snapshot_cfg := mk_snapshot_cfg {
  sc_dir : list Z;
  sc_window_pre_ms : Z;
  sc_window_post_ms : Z;
  sc_disk_cap_mb : Z;
  sc_age_cap_seconds : Z;
  sc_min_snr_db : spec_float;
  sc_sample_rate : spec_float;
  sc_station_id : option (list Z);
  sc_station_t_acc_ns : Z;
  sc_queue_capacity : Z;
}.

Record iq_snapshot_event := mk_snapshot_event {
  sv_lock_sample_idx : Z;
  sv_lock_t_ns : Z;
  sv_snr_db_at_lock : spec_float;
  sv_sf : Z;
  sv_cr : Z;
  sv_bw_hz : Z;
  sv_freq_hz : Z;
  sv_preset_name : list Z;
}.

Record counters := mk_counters {
  ct_kept : Z;
  ct_pruned : Z;
  ct_dropped_queue_full : Z;
  ct_dropped_below_snr : Z;
  ct_wait_timeout : Z;
  ct_missed_ring_window : Z;
  ct_enqueued_total : Z;
}.

(** [q] holds [q_cap] slots; [q_count] of them are waiting from [q_head]. *)
Record snapshots := mk_snapshots {
  sn_cfg : iq_snapshot_cfg;
  sn_q : list iq_snapshot_event;
  sn_q_head : nat;
  sn_q_tail : nat;
  sn_q_count : nat;
  sn_counters : counters;
  sn_file_seq : Z;
}.

(** The defaults iq_snapshot_init fills in; [None] is the return value -1. *)
Definition cfg_defaults (c : iq_snapshot_cfg) : iq_snapshot_cfg :=
  c {{ sc_window_pre_ms := if sc_window_pre_ms c <=? 0 then 50 else sc_window_pre_ms c;
       sc_window_post_ms := if sc_window_post_ms c <=? 0 then 100 else sc_window_post_ms c;
       sc_disk_cap_mb := if sc_disk_cap_mb c <? 0 then 0 else sc_disk_cap_mb c;
       sc_age_cap_seconds := if sc_age_cap_seconds c <? 0 then 0 else sc_age_cap_seconds c;
       sc_queue_capacity := if sc_queue_capacity c <=? 0 then QUEUE_CAP_DEFAULT else sc_queue_capacity c }}.

Definition zero_event : iq_snapshot_event := mk_snapshot_event 0 0 f_zero 0 0 0 0 [].

Definition iq_snapshot_init (c : iq_snapshot_cfg) : option snapshots :=
  if f64_leb (sc_sample_rate c) f_zero then None
  else
    let c := cfg_defaults c in
    Some (mk_snapshots c (replicate (Z.to_nat (sc_queue_capacity c)) zero_event) 0 0 0 (mk_counters 0 0 0 0 0 0 0) 0).

Definition bump (f : counters -> counters) (s : snapshots) : snapshots := s {{ sn_counters := f (sn_counters s) }}.

Definition iq_snapshot_enqueue (ev : iq_snapshot_event) (s : snapshots) : snapshots :=
  let s := bump (fun c => c {{ ct_enqueued_total := u64 (ct_enqueued_total c + 1) }}) s in
  if f64_ltb (sv_snr_db_at_lock ev) (sc_min_snr_db (sn_cfg s)) then
    bump (fun c => c {{ ct_dropped_below_snr := u64 (ct_dropped_below_snr c + 1) }}) s
  else if (length (sn_q s) <=? sn_q_count s)%nat then
    bump (fun c => c {{ ct_dropped_queue_full := u64 (ct_dropped_queue_full c + 1) }}) s
  else
    s {{ sn_q := <[sn_q_tail s := ev]> (sn_q s); sn_q_tail := ((sn_q_tail s + 1) mod length (sn_q s))%nat;
         sn_q_count := S (sn_q_count s) }}.

(** The writer's dequeue; [None]: it waits. *)
Definition dequeue (s : snapshots) : option (iq_snapshot_event * snapshots) :=
  if (sn_q_count s =? 0)%nat then None
  else match sn_q s !! sn_q_head s with
       | Some ev => Some (ev, s {{ sn_q_head := ((sn_q_head s + 1) mod length (sn_q s))%nat;
                                   sn_q_count := (sn_q_count s - 1)%nat }})
       | None => None
       end.

(** ** Cutting a snapshot *)

(** [(uint64_t)((double)ms * sample_rate / 1000.0 + 0.5)] *)
Definition ms_samples (c : iq_snapshot_cfg) (ms : Z) : Z :=
  f64_trunc (f64_add (f64_div (f64_mul (f64_of_Z ms) (sc_sample_rate c)) (f64_of_Z 1000)) f64_half).

Definition window_total (c : iq_snapshot_cfg) : Z :=
  u64 (ms_samples c (sc_window_pre_ms c) + ms_samples c (sc_window_post_ms c)).
Definition window_start (c : iq_snapshot_cfg) (ev : iq_snapshot_event) : Z :=
  let pre := ms_samples c (sc_window_pre_ms c) in
  if pre <? sv_lock_sample_idx ev then sv_lock_sample_idx ev - pre else 0.

Section Writer.
Context {A : Type}.

(** The poll loop: [obs k] is the ring at its [k]-th look.  The result is the
    number of looks and whether the window has been written; [polls_max]
    looks are enough to run into the timeout. *)
Definition polls_max : nat := Z.to_nat (WRITER_WAIT_TIMEOUT_MS / WRITER_POLL_SLEEP_MS + 2).

Fixpoint wait_loop (fuel : nat) (obs : nat -> iq_ring (A := A)) (end_ : Z) (k : nat) (waited_ms : Z) : option (nat * bool) :=
  match fuel with
  | O => None
  | S fuel =>
      if end_ <=? snd (iq_ring_live_range (obs k)) then Some (k, true)
      else if WRITER_WAIT_TIMEOUT_MS <=? waited_ms then Some (k, false)
      else wait_loop fuel obs end_ (S k) (waited_ms + WRITER_POLL_SLEEP_MS)
  end.

(** What the disk answers for one event. *)
Record io := mk_io {
  io_malloc : bool;
  io_mkdir : bool;
  io_open : bool;
  io_wrote_all : bool;
  io_rename : bool;
  io_sidecar : bool;
}.

(** A snapshot on disk: the samples, and the indices its sidecar gives. *)
Record snapshot := mk_snapshot {
  sp_base : list Z;
  sp_samples : list A;
  sp_start_idx : Z;
  sp_sample_count : Z;
  sp_lock_idx : Z;
}.

Definition utc_yyyymmdd (t_ns : Z) : list Z :=
  let t := gmtime (t_ns / 1000000000) in fmt_d (tm_year t + 1900) ++ fmt_0d 2 (tm_mon t + 1) ++ fmt_0d 2 (tm_mday t).
Definition utc_hhmmss (t_ns : Z) : list Z :=
  let t := gmtime (t_ns / 1000000000) in fmt_0d 2 (tm_hour t) ++ fmt_0d 2 (tm_min t) ++ fmt_0d 2 (tm_sec t).

Definition base_path (c : iq_snapshot_cfg) (ev : iq_snapshot_event) (seq : Z) : list Z :=
  let dir := copy_to IQ_PATH_MAX (sc_dir c ++ str "/" ++ utc_yyyymmdd (sv_lock_t_ns ev)) in
  copy_to IQ_PATH_MAX
    (dir ++ str "/" ++ utc_hhmmss (sv_lock_t_ns ev) ++ str "_" ++ default (str "anon") (sc_station_id c) ++ str "_" ++
     dec_of_Z (sv_lock_sample_idx ev) ++ str "_" ++
     fmt_f 3 (f64_div (f64_of_Z (sv_freq_hz ev)) f64_1e6) ++ str "MHz_SF" ++ fmt_d (sv_sf ev) ++
     str "_BW" ++ fmt_d (sv_bw_hz ev) ++ str "_seq" ++ dec_of_Z seq).

(** [obs k] the ring at the [k]-th poll, [r1] at the range check and [r2] at
    the read. *)
Definition writer_handle_event (obs : nat -> iq_ring (A := A)) (r1 r2 : iq_ring (A := A)) (d : io)
  (ev : iq_snapshot_event) (s : snapshots) : option (snapshots * option snapshot) :=
  let c := sn_cfg s in
  let total := window_total c in
  let start := window_start c ev in
  match wait_loop polls_max obs (u64 (start + total)) 0 0 with
  | None => None
  | Some (_, false) => Some (bump (fun c => c {{ ct_wait_timeout := u64 (ct_wait_timeout c + 1) }}) s, None)
  | Some (_, true) =>
      let missed := bump (fun c => c {{ ct_missed_ring_window := u64 (ct_missed_ring_window c + 1) }}) in
      if start <? fst (iq_ring_live_range r1) then Some (missed s, None)
      else if negb (io_malloc d) then Some (s, None)
      else
        let buf := iq_ring_get_window r2 start (Z.to_nat total) in
        if Z.of_nat (length buf) <? total then Some (missed s, None)
        else if negb (io_mkdir d) then Some (s, None)
        else
          let seq := sn_file_seq s in
          let s := s {{ sn_file_seq := u64 (seq + 1) }} in
          if io_open d && io_wrote_all d && io_rename d && io_sidecar d
          then Some (bump (fun c => c {{ ct_kept := u64 (ct_kept c + 1) }}) s,
                     Some (mk_snapshot (base_path c ev seq) buf start total (sv_lock_sample_idx ev)))
          else Some (s, None)
  end.
End Writer.

(** ** Retention *)

Record prune_entry := mk_prune_entry { pe_path : list Z; pe_mtime : Z; pe_size : Z }.

Definition disk_cap_bytes (c : iq_snapshot_cfg) : Z := if 0 <? sc_disk_cap_mb c then sc_disk_cap_mb c * 1024 * 1024 else 0.

(** The loop over the files, oldest first; [unlink p] is whether the file
    could be removed.  The files removed, in order. *)
Fixpoint prune_loop (c : iq_snapshot_cfg) (now : Z) (unlink : list Z -> bool) (l : list prune_entry) (total_bytes : Z)
  : list prune_entry :=
  match l with
  | [] => []
  | e :: t =>
      let too_big := (0 <? disk_cap_bytes c) && (disk_cap_bytes c <? total_bytes) in
      let too_old := (0 <? sc_age_cap_seconds c) && (sc_age_cap_seconds c <? now - pe_mtime e) in
      if negb too_big && negb too_old then []
      else if unlink (pe_path e) then e :: prune_loop c now unlink t (total_bytes - pe_size e)
      else prune_loop c now unlink t total_bytes
  end.

(** [sorted] is the listing after qsort. *)
Definition janitor_run (c : iq_snapshot_cfg) (now : Z) (unlink : list Z -> bool) (sorted : list prune_entry)
  : list prune_entry := prune_loop c now unlink sorted (foldr Z.add 0 (map pe_size sorted)).

(** ** The wait is bounded *)

Lemma wait_loop_some {A} (obs : nat -> iq_ring (A := A)) end_ : forall fuel k waited,
  WRITER_WAIT_TIMEOUT_MS + WRITER_POLL_SLEEP_MS <= waited + WRITER_POLL_SLEEP_MS * Z.of_nat fuel -> 0 <= waited ->
  (0 < fuel)%nat ->
  exists n ok, wait_loop fuel obs end_ k waited = Some (n, ok) /\ (k <= n < k + fuel)%nat /\
    (ok = true -> end_ <= snd (iq_ring_live_range (obs n))).
Proof.
  induction fuel as [|fuel IH]; intros k waited Hw H0 Hf; [lia|]. cbn [wait_loop].
  destruct (Z.leb_spec end_ (snd (iq_ring_live_range (obs k)))).
  { exists k, true. split; [done|]. split; [lia|done]. }
  destruct (Z.leb_spec WRITER_WAIT_TIMEOUT_MS waited).
  { exists k, false. split; [done|]. split; [lia|done]. }
  unfold WRITER_WAIT_TIMEOUT_MS, WRITER_POLL_SLEEP_MS in *. destruct fuel as [|fuel]; [lia|].
  destruct (IH (S k) (waited + 3)) as (n & ok & E & Hn & Ho); [lia|lia|lia|]. exists n, ok. split; [done|]. split; [lia|done].
Qed.

Lemma polls_enough {A} (obs : nat -> iq_ring (A := A)) end_ : exists n ok,
  wait_loop polls_max obs end_ 0 0 = Some (n, ok) /\ (n < polls_max)%nat /\ (ok = true -> end_ <= snd (iq_ring_live_range (obs n))).
Proof.
  destruct (wait_loop_some obs end_ polls_max 0 0) as (n & ok & E & Hn & Ho); [vm_compute; discriminate|lia|vm_compute; lia|].
  exists n, ok. split; [done|]. split; [lia|done].
Qed.

(** ** A snapshot is a window of the stream *)


Definition snapshot_demo_cfg : iq_snapshot_cfg :=
  mk_snapshot_cfg (str "snap") 2 3 0 0 f_zero (f64_of_Z 1000) None 0 4.
Definition snapshot_demo_ring : iq_ring (A := Z) := fst (iq_ring_append (mk_iq_ring 0 8 (replicate 8 0) 0) [0; 1; 2; 3; 4; 5; 6; 7; 8; 9]).
Definition snapshot_demo_event : iq_snapshot_event := mk_snapshot_event 5 1700000000000000000 f_zero 11 5 250000 869525000 [].


(** ** The queue *)

(** The events waiting, oldest first. *)
Definition waiting (s : snapshots) : list iq_snapshot_event :=
  omap (fun i => sn_q s !! ((sn_q_head s + i) mod length (sn_q s))%nat) (seq 0 (sn_q_count s)).

Record queue_ok (s : snapshots) : Prop := {
  qo_cap : (0 < length (sn_q s))%nat;
  qo_head : (sn_q_head s < length (sn_q s))%nat;
  qo_count : (sn_q_count s <= length (sn_q s))%nat;
  qo_tail : sn_q_tail s = ((sn_q_head s + sn_q_count s) mod length (sn_q s))%nat;
}.

Lemma omap_map_l {X Y W} (f : Y -> option W) (g : X -> Y) l : omap f (map g l) = omap (fun x => f (g x)) l.
Proof. induction l as [|x l IH]; [done|]. cbn [map omap list_omap]. by rewrite IH. Qed.

Lemma mod_inj n h i j : (0 < n)%nat -> (i < n)%nat -> (j < n)%nat -> ((h + i) mod n = (h + j) mod n)%nat -> i = j.
Proof.
  intros Hn Hi Hj E. pose proof (Nat.div_mod_eq (h + i) n) as D1. pose proof (Nat.div_mod_eq (h + j) n) as D2.
  rewrite E in D1. destruct (Nat.lt_trichotomy ((h + i) / n) ((h + j) / n)) as [H|[H|H]]; nia.
Qed.

Lemma enqueue_waiting ev s : queue_ok s ->
  queue_ok (iq_snapshot_enqueue ev s) /\
  waiting (iq_snapshot_enqueue ev s) =
    if f64_ltb (sv_snr_db_at_lock ev) (sc_min_snr_db (sn_cfg s)) || (length (sn_q s) <=? sn_q_count s)%nat
    then waiting s else waiting s ++ [ev].
Proof.
  intros [H1 H2 H3 H4]. unfold iq_snapshot_enqueue, bump. rcbn. case_if; [split; [by split|done]|]. cbn [orb].
  destruct (Nat.leb_spec (length (sn_q s)) (sn_q_count s)) as [|Hc]; [split; [by split|done]|]. split.
  - split; rcbn; rewrite ?length_insert; try done; try lia. rewrite H4.
    rewrite Nat.Div0.add_mod_idemp_l. f_equal. lia.
  - unfold waiting. rcbn. rewrite length_insert, seq_S, omap_app. f_equal.
    + apply omap_ext_in. intros i Hi. apply in_seq in Hi. rewrite list_lookup_insert_ne; [done|].
      rewrite H4. intros Ei. apply mod_inj in Ei; lia.
    + cbn [omap list_omap Nat.add]. rewrite H4, list_lookup_insert_eq; [done|]. apply Nat.mod_upper_bound. lia.
Qed.

Lemma dequeue_waiting s : queue_ok s ->
  match dequeue s with
  | Some (ev, s') => queue_ok s' /\ waiting s = ev :: waiting s'
  | None => waiting s = []
  end.
Proof.
  intros [H1 H2 H3 H4]. unfold dequeue. destruct (Nat.eqb_spec (sn_q_count s) 0) as [E|E].
  { unfold waiting. by rewrite E. }
  destruct (lookup_lt_is_Some_2 (sn_q s) (sn_q_head s) H2) as [ev Hev]. rewrite Hev. split.
  - split; rcbn; try done; try lia; [apply Nat.mod_upper_bound; lia|]. rewrite H4, Nat.Div0.add_mod_idemp_l. f_equal. lia.
  - unfold waiting. rcbn. destruct (sn_q_count s) as [|n] eqn:Ec; [done|]. cbn [seq omap list_omap].
    rewrite Nat.add_0_r, (Nat.mod_small (sn_q_head s)), Hev by done. f_equal.
    rewrite Nat.sub_succ, Nat.sub_0_r, <- seq_shift, omap_map_l. apply omap_ext_in. intros i _.
    rewrite Nat.Div0.add_mod_idemp_l. do 2 f_equal. lia.
Qed.

(** ** Retention *)

Definition total_size (l : list prune_entry) : Z := foldr Z.add 0 (map pe_size l).
Definition too_old (c : iq_snapshot_cfg) (now : Z) (e : prune_entry) : bool :=
  (0 <? sc_age_cap_seconds c) && (sc_age_cap_seconds c <? now - pe_mtime e).
Definition too_big (c : iq_snapshot_cfg) (l : list prune_entry) : bool :=
  (0 <? disk_cap_bytes c) && (disk_cap_bytes c <? total_size l).

(** The janitor enforces both retention caps and removes no more than it
    must.  When the files can be removed, those removed are the oldest ones,
    a prefix of the listing by age; the rest fits the disk cap and holds no
    file past the age cap; and each file removed was past the age cap or had
    the store above the disk cap when its turn came. *)
Theorem janitor_meets_caps c now sorted : 0 <= disk_cap_bytes c ->
  StronglySorted (fun a b => pe_mtime a <= pe_mtime b) sorted ->
  let removed := janitor_run c now (fun _ => true) sorted in
  let rest := drop (length removed) sorted in
  removed = take (length removed) sorted /\
  too_big c rest = false /\ Forall (fun e => too_old c now e = false) rest /\
  (forall i e, removed !! i = Some e -> too_old c now e = true \/ too_big c (drop i sorted) = true).
Proof.
  intros Hcap Hs. unfold janitor_run. induction Hs as [|e l Hs IH He].
  { cbn. split; [done|]. split; [|split; [done|by intros]]. unfold too_big, total_size. cbn.
    destruct (Z.ltb_spec 0 (disk_cap_bytes c)), (Z.ltb_spec (disk_cap_bytes c) 0); (done || lia). }
  cbn zeta in *. cbn [prune_loop map foldr].
  change (pe_size e + foldr Z.add 0 (map pe_size l)) with (total_size (e :: l)).
  change ((0 <? disk_cap_bytes c) && (disk_cap_bytes c <? total_size (e :: l))) with (too_big c (e :: l)).
  change ((0 <? sc_age_cap_seconds c) && (sc_age_cap_seconds c <? now - pe_mtime e)) with (too_old c now e).
  destruct (negb (too_big c (e :: l)) && negb (too_old c now e)) eqn:Ek.
  - apply andb_prop in Ek as [E1 E2]. apply negb_true_iff in E1, E2. cbn [length take drop]. split; [done|]. split; [done|].
    split; [|by intros]. constructor; [done|]. rewrite List.Forall_forall in *. intros x Hx. specialize (He x Hx). unfold too_old in *.
    destruct (Z.ltb_spec 0 (sc_age_cap_seconds c)); [|done]. cbn [andb] in *. zb. apply Z.ltb_ge. lia.
  - replace (total_size (e :: l) - pe_size e) with (foldr Z.add 0 (map pe_size l)) by (unfold total_size; cbn; lia).
    destruct IH as (I1 & I2 & I3 & I4). cbn [length take drop]. split; [by rewrite <- I1|]. split; [done|]. split; [done|].
    intros [|i] x Hx; [|by apply (I4 i x)]. cbn in Hx. injection Hx as <-. cbn [drop].
    apply andb_false_elim in Ek as [Ek|Ek]; apply negb_false_iff in Ek; auto.
Qed.

Lemma janitor_meets_caps_witness :
  let l := [mk_prune_entry [1] 10 600000; mk_prune_entry [2] 50 700000; mk_prune_entry [3] 90 400000] in
  let c := mk_snapshot_cfg [] 0 0 1 60 f_zero f_zero None 0 0 in
  janitor_run c 100 (fun _ => true) l = take 2 l /\
  too_big c (drop (length (janitor_run c 100 (fun _ => true) l)) l) = false.
Proof.
  cbn zeta. split; [vm_compute; reflexivity|].
  refine (proj1 (proj2 (janitor_meets_caps (mk_snapshot_cfg [] 0 0 1 60 f_zero f_zero None 0 0) 100 _ _ _))).
  - vm_compute. discriminate.
  - repeat constructor; cbn; lia.
Defined.
