(* ===== verification/Vita49.v ===== *)
(** VITA 49 (VRT) input (src/vita49.c): the VRL wrapper, the header and
    context parsers, the payload conversions and the receive loop, one UDP
    packet at a time.

    A packet is the list of the bytes received.  A read of a word that is not
    wholly inside them gives [None]: in the program it would return what an
    earlier packet left in the buffer.  Allocations succeed. *)

From S2P Require Import Prelude CFloat.

Local Open Scope Z_scope.

Definition VRT_TYPE_SIGNAL_DATA_NO_SID : Z := 0.
Definition VRT_TYPE_SIGNAL_DATA : Z := 1.
Definition VRT_TYPE_IF_CONTEXT : Z := 4.
Definition VRT_TYPE_EXT_CONTEXT : Z := 5.
Definition VRL_MAGIC : Z := 0x56524C50.

Definition be32 (a b c d : Z) : Z := a * 2 ^ 24 + b * 2 ^ 16 + c * 2 ^ 8 + d.

(** [ntohl( *(const uint32_t * )(p + o))] *)
Definition word (p : list Z) (o : nat) : option Z :=
  match drop o p with a :: b :: c :: d :: _ => Some (be32 a b c d) | _ => None end.

Inductive iq_format := FMT_CI8 | FMT_CI16 | FMT_CF32.

#[export] Instance iq_format_eq_dec : EqDecision iq_format.
Proof. solve_decision. Defined.

(** The offset of the VRT packet and the length without the trailer. *)
Definition vrl_strip (p : list Z) (len : nat) : option (nat * nat) :=
  if (12 <=? len)%nat then
    w0 ← word p 0;
    Some (if w0 =? VRL_MAGIC then (8, len - 4)%nat else (0, len)%nat)
  else Some (0, len)%nat.

(** ** Header fields of the first word *)

Definition vrt_type (w0 : Z) : Z := Z.land (Z.shiftr w0 28) 0xF.
Definition vrt_class_id (w0 : Z) : Z := Z.land (Z.shiftr w0 27) 1.
Definition vrt_trailer (w0 : Z) : Z := Z.land (Z.shiftr w0 26) 1.
Definition vrt_tsi (w0 : Z) : Z := Z.land (Z.shiftr w0 22) 3.
Definition vrt_tsf (w0 : Z) : Z := Z.land (Z.shiftr w0 20) 3.
Definition vrt_count (w0 : Z) : Z := Z.land (Z.shiftr w0 16) 0xF.
Definition vrt_size (w0 : Z) : Z := Z.land w0 0xFFFF.

(** The words of class identifier and timestamps. *)
Definition opt_words (w0 : Z) : Z :=
  (if nz (vrt_class_id w0) then 2 else 0) + (if nz (vrt_tsi w0) then 1 else 0) + (if nz (vrt_tsf w0) then 2 else 0).

(** ** Context packets *)

Definition CIF_RF_REF_FREQ : Z := Z.shiftl 1 27.
Definition CIF_SAMPLE_RATE : Z := Z.shiftl 1 21.
Definition CIF_DATA_FORMAT : Z := Z.shiftl 1 15.

Definition cif_fields : list (Z * nat) :=
  [ (Z.shiftl 1 31, 1); (Z.shiftl 1 30, 1); (Z.shiftl 1 29, 2); (Z.shiftl 1 28, 2); (CIF_RF_REF_FREQ, 2);
    (Z.shiftl 1 26, 2); (Z.shiftl 1 25, 2); (Z.shiftl 1 24, 1); (Z.shiftl 1 23, 1); (Z.shiftl 1 22, 1);
    (CIF_SAMPLE_RATE, 2); (Z.shiftl 1 20, 2); (Z.shiftl 1 19, 1); (Z.shiftl 1 18, 1); (Z.shiftl 1 17, 2);
    (Z.shiftl 1 16, 1); (CIF_DATA_FORMAT, 2) ]%nat.

Definition payload_format_to_iq (fw : Z) : option iq_format :=
  let data_item_format := Z.land (Z.shiftr fw 24) 0x1F in
  let packing_size := Z.land (Z.shiftr fw 6) 0x3F + 1 in
  if data_item_format =? 0x1E then (if packing_size =? 32 then Some FMT_CF32 else None)
  else if data_item_format =? 0 then
    if packing_size =? 8 then Some FMT_CI8 else if packing_size =? 16 then Some FMT_CI16 else None
  else None.

(** [(double)(int64_t)val / (1LL << 20)] *)
Definition i64 (z : Z) : Z := if u64 z <? 2 ^ 63 then u64 z else u64 z - 2 ^ 64.
Definition fixed44_20 (val : Z) : spec_float := f64_div (f64_of_Z (i64 val)) (f64_of_Z (2 ^ 20)).

(** What a context packet reports; the format is [Some None] when it is
    none of the three supported ones. *)
Record context := mk_context {
  cx_rf : option spec_float;
  cx_sr : option spec_float;
  cx_fmt : option (option iq_format);
}.

Definition cx_none : context := mk_context None None None.

Definition cif_note (p : list Z) (bit : Z) (off_w : nat) (c : context) : option context :=
  if (bit =? CIF_RF_REF_FREQ) || (bit =? CIF_SAMPLE_RATE) then
    hi ← word p (4 * off_w);
    lo ← word p (4 * (off_w + 1));
    let v := fixed44_20 (Z.lor (Z.shiftl hi 32) lo) in
    Some (if bit =? CIF_RF_REF_FREQ then c {{ cx_rf := Some v }} else c {{ cx_sr := Some v }})
  else if bit =? CIF_DATA_FORMAT then
    fw ← word p (4 * off_w);
    Some (c {{ cx_fmt := Some (payload_format_to_iq fw) }})
  else Some c.

(** The walk over the fields of [cif0]: the outer [option] is a read out of
    bounds, the inner one the early return on a packet that is too short. *)
Fixpoint cif_walk (p : list Z) (cif0 : Z) (fields : list (Z * nat)) (off_w size_w : nat) (c : context)
  : option (option context) :=
  match fields with
  | [] => Some (Some c)
  | (bit, words) :: t =>
      if nz (Z.land cif0 bit) then
        if (size_w <? off_w + words)%nat then Some None
        else c ← cif_note p bit off_w c; cif_walk p cif0 t (off_w + words) size_w c
      else cif_walk p cif0 t off_w size_w c
  end.

(** The packet from its VRT start, [p], of [vrt_len] bytes. *)
Definition vrt_read_context (p : list Z) (vrt_len : nat) : option (option context) :=
  if (vrt_len <? 8)%nat then Some None
  else
    w0 ← word p 0;
    let size_w := Z.to_nat (vrt_size w0) in
    if (vrt_len <? size_w * 4)%nat || (size_w <? 2)%nat then Some None
    else
      let off_w := Z.to_nat (2 + opt_words w0) in
      if (size_w <=? off_w)%nat then Some None
      else cif0 ← word p (4 * off_w); cif_walk p cif0 cif_fields (S off_w) size_w cx_none.

(** The command line, and the globals a context may set. *)
Record vita_opts := mk_vita_opts {
  opt_sample_rate : Z;
  opt_center_freq_hz : Z;
  opt_iq_format_set : bool;
}.

Record vita := mk_vita {
  vi_samp_rate : spec_float;
  vi_center_freq : spec_float;
  vi_format : iq_format;
  vi_ctx_logged : bool;
  vi_last_count : Z;
  vi_have_count : bool;
  vi_total_pkts : Z;
  vi_skipped_pkts : Z;
  vi_gap_pkts : Z;
}.

(** The part of vrt_handle_context after the walk. *)
Definition vrt_adopt (o : vita_opts) (c : context) (st : vita) : vita :=
  match c with
  | mk_context None None None => st
  | _ =>
      if vi_ctx_logged st then st
      else
        let st := st {{ vi_ctx_logged := true }} in
        let st := match cx_sr c with
                  | Some sr => if opt_sample_rate o =? 0 then st {{ vi_samp_rate := sr }} else st
                  | None => st end in
        let st := match cx_rf c with
                  | Some rf => if opt_center_freq_hz o =? 0 then st {{ vi_center_freq := rf }} else st
                  | None => st end in
        match cx_fmt c with
        | Some (Some f) => if opt_iq_format_set o then st else st {{ vi_format := f }}
        | _ => st
        end
  end.

Definition vrt_handle_context (o : vita_opts) (p : list Z) (vrt_len : nat) (st : vita) : option vita :=
  c ← vrt_read_context p vrt_len;
  Some (match c with Some c => vrt_adopt o c st | None => st end).

(** ** Data packets *)

(** [Some None] is the return value -1, [Some (Some (off, bytes))] success. *)
Definition vrt_parse_header (p : list Z) : option (option (nat * nat)) :=
  if (length p <? 4)%nat then Some None
  else
    '(vrl_off, pkt_len) ← vrl_strip p (length p);
    w0 ← word p vrl_off;
    let pkt_type := vrt_type w0 in
    if negb (pkt_type =? VRT_TYPE_SIGNAL_DATA_NO_SID) && negb (pkt_type =? VRT_TYPE_SIGNAL_DATA) then Some None
    else
      let vrt_len := Z.of_nat pkt_len - Z.of_nat vrl_off in
      let size_bytes := vrt_size w0 * 4 in
      if (vrt_len <? size_bytes) || (size_bytes <? 4) then Some None
      else
        let hdr_words := 1 + (if pkt_type =? VRT_TYPE_SIGNAL_DATA then 1 else 0) + opt_words w0 in
        let trailer_words := if nz (vrt_trailer w0) then 1 else 0 in
        if vrt_size w0 <=? hdr_words + trailer_words then Some None
        else
          let payload_words := vrt_size w0 - hdr_words - trailer_words in
          Some (Some ((vrl_off + Z.to_nat (hdr_words * 4))%nat, Z.to_nat (payload_words * 4))).

(** The samples pushed: IQ pairs of int8, or the bit patterns of floats. *)
Inductive sample_buf :=
| SBInt8 (num : nat) (samples : list Z)
| SBFloat (num : nat) (samples : list Z).

Definition i8 (b : Z) : Z := if b <? 128 then b else b - 256.

(** Every [k] bytes as one value. *)
Fixpoint groups (n k : nat) (l : list Z) : list (list Z) :=
  match n with O => [] | S n => take k l :: groups n k (drop k l) end.

(** [(int8_t)(ntohs(src[i]) >> 8)] and [ntohl(src32[i])] *)
Definition ci16_high (g : list Z) : Z := i8 (nth 0 g 0).
Definition cf32_bits (g : list Z) : Z := be32 (nth 0 g 0) (nth 1 g 0) (nth 2 g 0) (nth 3 g 0).

(** [None]: no sample in the payload, the packet is passed over. *)
Definition payload_samples (f : iq_format) (payload : list Z) : option sample_buf :=
  let bytes := length payload in
  match f with
  | FMT_CF32 =>
      let n := (bytes / 8)%nat in
      if (n =? 0)%nat then None else Some (SBFloat n (map cf32_bits (groups (n * 2) 4 payload)))
  | FMT_CI16 =>
      let n := (bytes / 4)%nat in
      if (n =? 0)%nat then None else Some (SBInt8 n (map ci16_high (groups (n * 2) 2 payload)))
  | FMT_CI8 =>
      let n := (bytes / 2)%nat in
      if (n =? 0)%nat then None else Some (SBInt8 n (map i8 (take (n * 2) payload)))
  end.

(** ** The receive loop *)

(** The context test, before the data parser: [Some None] when the packet is
    not a context packet. *)
Definition context_packet (o : vita_opts) (p : list Z) (st : vita) : option (option vita) :=
  '(off, len) ← vrl_strip p (length p);
  if (off + 4 <? len)%nat then
    w0 ← word p off;
    if (vrt_type w0 =? VRT_TYPE_IF_CONTEXT) || (vrt_type w0 =? VRT_TYPE_EXT_CONTEXT)
    then st ← vrt_handle_context o (drop off p) (len - off) st; Some (Some st)
    else Some None
  else Some None.

Definition vita49_packet (o : vita_opts) (p : list Z) (st : vita) : option (vita * option sample_buf) :=
  ctx ← context_packet o p st;
  match ctx with
  | Some st => Some (st, None)
  | None =>
      h ← vrt_parse_header p;
      match h with
      | None => Some (st {{ vi_skipped_pkts := u64 (vi_skipped_pkts st + 1) }}, None)
      | Some (off, bytes) =>
          magic ← word p 0;
          w0 ← word p (if magic =? VRL_MAGIC then 8%nat else 0%nat);
          let count := vrt_count w0 in
          let gap := vi_have_count st && negb (count =? Z.land (vi_last_count st + 1) 0xF) in
          let st := st {{ vi_gap_pkts := if gap then u64 (vi_gap_pkts st + 1) else vi_gap_pkts st;
                          vi_last_count := count; vi_have_count := true;
                          vi_total_pkts := u64 (vi_total_pkts st + 1) }} in
          Some (st, payload_samples (vi_format st) (take bytes (drop off p)))
      end
  end.

(** ** Reads stay inside the packet *)

Lemma word_in p o : (o + 4 <= length p)%nat -> exists w, word p o = Some w.
Proof.
  intros H. unfold word. pose proof (length_drop p o) as L. destruct (drop o p) as [|a [|b [|c [|d r]]]]; cbn in L; try lia.
  by eexists.
Qed.

Lemma word_drop p a o : word (drop a p) o = word p (a + o)%nat.
Proof. unfold word. by rewrite drop_drop. Qed.

Lemma vrl_strip_in p : exists off len, vrl_strip p (length p) = Some (off, len) /\ (off <= len)%nat /\ (len <= length p)%nat /\
  ((off = 0%nat /\ len = length p) \/ (off = 8%nat /\ (12 <= length p)%nat /\ len = (length p - 4)%nat /\ word p 0 = Some VRL_MAGIC)).
Proof.
  unfold vrl_strip. destruct (Nat.leb_spec 12 (length p)) as [H|H].
  - destruct (word_in p 0 ltac:(lia)) as [w Hw]. rewrite Hw. cbn [mbind option_bind]. destruct (Z.eqb_spec w VRL_MAGIC) as [->|].
    + exists 8%nat, (length p - 4)%nat. split; [done|]. split; [lia|]. split; [lia|]. right. done.
    + exists 0%nat, (length p). split; [done|]. split; [lia|]. split; [lia|]. by left.
  - exists 0%nat, (length p). split; [done|]. split; [lia|]. split; [lia|]. by left.
Qed.

Lemma cif_walk_in p cif0 fields size_w : (4 * size_w <= length p)%nat ->
  Forall (fun f => snd f = 2%nat \/ (fst f <> CIF_RF_REF_FREQ /\ fst f <> CIF_SAMPLE_RATE /\ fst f <> CIF_DATA_FORMAT)) fields ->
  forall off_w c, exists r, cif_walk p cif0 fields off_w size_w c = Some r.
Proof.
  intros Hs Hf. induction Hf as [|[bit words] t Hb Ht IH]; intros off_w c; [by eexists|]. cbn [cif_walk fst snd] in *.
  case_if; [|apply IH]. destruct (Nat.ltb_spec size_w (off_w + words)) as [|Hl]; [by eexists|].
  assert (N : exists c', cif_note p bit off_w c = Some c').
  { unfold cif_note. destruct (Z.eqb_spec bit CIF_RF_REF_FREQ), (Z.eqb_spec bit CIF_SAMPLE_RATE), (Z.eqb_spec bit CIF_DATA_FORMAT);
      cbn [orb]; try (by eexists); (destruct Hb as [->|Hb]; [|tauto]);
      destruct (word_in p (4 * off_w) ltac:(lia)) as [w1 E1]; destruct (word_in p (4 * (off_w + 1)) ltac:(lia)) as [w2 E2];
      rewrite E1, ?E2; by eexists. }
  destruct N as [c' ->]. apply IH.
Qed.

Lemma read_context_in p len : (len <= length p)%nat -> exists r, vrt_read_context p len = Some r.
Proof.
  intros Hl. unfold vrt_read_context. destruct (Nat.ltb_spec len 8); [by eexists|].
  destruct (word_in p 0 ltac:(lia)) as [w0 ->]. cbn [mbind option_bind]. destruct (Nat.ltb_spec len (Z.to_nat (vrt_size w0) * 4)); [by eexists|].
  cbn [orb]. case_if; [by eexists|]. destruct (Nat.leb_spec (Z.to_nat (vrt_size w0)) (Z.to_nat (2 + opt_words w0))); [by eexists|].
  destruct (word_in p (4 * Z.to_nat (2 + opt_words w0)) ltac:(lia)) as [cif0 ->]. cbn [mbind option_bind].
  apply cif_walk_in; [lia|]. repeat (apply Forall_cons_2; [first [by left|right; by vm_compute]|]). apply Forall_nil_2.
Qed.

Lemma field_bits w k n m : 0 <= k -> 0 <= n -> m = Z.ones n -> Z.land (Z.shiftr w k) m = w / 2 ^ k mod 2 ^ n.
Proof. intros Hk Hn ->. rewrite Z.land_ones, Z.shiftr_div_pow2 by done. done. Qed.

Lemma opt_words_nonneg w0 : 0 <= opt_words w0 <= 5.
Proof. unfold opt_words. repeat case_if; lia. Qed.

Lemma parse_header_in p : exists h, vrt_parse_header p = Some h /\
  match h with
  | Some (off, bytes) =>
      (off + bytes <= length p)%nat /\ (4 <= bytes)%nat /\ Nat.modulo bytes 4 = 0%nat /\
      exists v magic w0, word p 0 = Some magic /\ v = (if magic =? VRL_MAGIC then 8%nat else 0%nat) /\
        word p v = Some w0 /\ (vrt_type w0 = VRT_TYPE_SIGNAL_DATA_NO_SID \/ vrt_type w0 = VRT_TYPE_SIGNAL_DATA)
  | None => True
  end.
Proof.
  unfold vrt_parse_header. destruct (Nat.ltb_spec (length p) 4); [by eexists|].
  destruct (vrl_strip_in p) as (v & len & -> & Hv & Hl & Hc). cbn [mbind option_bind].
  assert (Hin : exists w0, word p v = Some w0) by (apply word_in; destruct Hc as [[-> ->]|(-> & H1 & -> & _)]; lia).
  destruct Hin as [w0 Hw0]. rewrite Hw0. cbn [mbind option_bind].
  destruct (negb _ && negb _) eqn:Et; [by eexists|].
  assert (Ht : vrt_type w0 = VRT_TYPE_SIGNAL_DATA_NO_SID \/ vrt_type w0 = VRT_TYPE_SIGNAL_DATA).
  { apply andb_false_elim in Et as [Et|Et]; apply negb_false_iff, Z.eqb_eq in Et; auto. }
  destruct (Z.ltb_spec (Z.of_nat len - Z.of_nat v) (vrt_size w0 * 4)) as [|Hs]; [by eexists|]. cbn [orb].
  destruct (Z.ltb_spec (vrt_size w0 * 4) 4) as [|Hs4]; [by eexists|].
  pose proof (opt_words_nonneg w0) as Ho.
  set (hdr := 1 + (if vrt_type w0 =? VRT_TYPE_SIGNAL_DATA then 1 else 0) + opt_words w0).
  set (tr := if nz (vrt_trailer w0) then 1 else 0).
  assert (Hh : 1 <= hdr <= 7) by (unfold hdr; case_if; lia). assert (Htr : 0 <= tr <= 1) by (unfold tr; case_if; lia).
  destruct (Z.leb_spec (vrt_size w0) (hdr + tr)) as [|Hsz]; [by eexists|].
  eexists. split; [done|]. cbv beta iota. split; [lia|]. split; [lia|]. split.
  - replace (Z.to_nat ((vrt_size w0 - hdr - tr) * 4)) with (Z.to_nat (vrt_size w0 - hdr - tr) * 4)%nat by lia.
    by apply Nat.Div0.mod_mul.
  - destruct (word_in p 0 ltac:(lia)) as [magic Hm]. exists (if magic =? VRL_MAGIC then 8%nat else 0%nat), magic, w0.
    split; [done|]. split; [done|]. split; [|done]. destruct Hc as [[-> ->]|(-> & H1 & -> & H2)].
    + rewrite Hm in Hw0. injection Hw0 as <-. destruct (Z.eqb_spec magic VRL_MAGIC) as [->|]; [|done].
      exfalso. destruct Ht as [Ht|Ht]; vm_compute in Ht; discriminate.
    + rewrite H2 in Hm. injection Hm as <-. done.
Qed.


(** ** Data packets, from a sender's side *)

Definition enc32 (w : Z) : list Z := [w / 2 ^ 24; w / 2 ^ 16 mod 256; w / 2 ^ 8 mod 256; w mod 256].

Definition is_u32 (w : Z) : Prop := 0 <= w < 2 ^ 32.

Record vrt_data := mk_vrt_data {
  vd_sid : option Z;                  (* stream identifier *)
  vd_class : option (Z * Z);          (* class identifier *)
  vd_tsi : option (Z * Z);            (* kind (1 to 3) and integer timestamp *)
  vd_tsf : option (Z * (Z * Z));      (* kind and fractional timestamp *)
  vd_trailer : option Z;
  vd_count : Z;
  vd_payload : list Z;
}.

Definition opt_b {X} (o : option X) : Z := match o with Some _ => 1 | None => 0 end.
Definition kind {X} (o : option (Z * X)) : Z := match o with Some (k, _) => k | None => 0 end.

Definition vd_words (v : vrt_data) : list Z :=
  match vd_sid v with Some s => [s] | None => [] end ++
  match vd_class v with Some (a, b) => [a; b] | None => [] end ++
  match vd_tsi v with Some (_, t) => [t] | None => [] end ++
  match vd_tsf v with Some (_, (a, b)) => [a; b] | None => [] end.

Definition vd_size (v : vrt_data) : Z :=
  1 + Z.of_nat (length (vd_words v)) + Z.of_nat (length (vd_payload v)) / 4 + opt_b (vd_trailer v).

Definition vd_header (v : vrt_data) : Z :=
  opt_b (vd_sid v) * 2 ^ 28 + opt_b (vd_class v) * 2 ^ 27 + opt_b (vd_trailer v) * 2 ^ 26 +
  kind (vd_tsi v) * 2 ^ 22 + kind (vd_tsf v) * 2 ^ 20 + vd_count v * 2 ^ 16 + vd_size v.

Definition enc_data (v : vrt_data) : list Z :=
  enc32 (vd_header v) ++ flat_map enc32 (vd_words v) ++ vd_payload v ++
  match vd_trailer v with Some t => enc32 t | None => [] end.

(** The optional VRL frame around it. *)
Definition enc_frame (vrl : option (Z * Z)) (p : list Z) : list Z :=
  match vrl with Some (frame, crc) => enc32 VRL_MAGIC ++ enc32 frame ++ p ++ enc32 crc | None => p end.

Record vd_ok (v : vrt_data) : Prop := {
  vo_tsi : match vd_tsi v with Some (k, _) => 1 <= k <= 3 | None => True end;
  vo_tsf : match vd_tsf v with Some (k, _) => 1 <= k <= 3 | None => True end;
  vo_count : 0 <= vd_count v < 16;
  vo_size : vd_size v < 2 ^ 16;
  vo_words : Nat.modulo (length (vd_payload v)) 4 = 0%nat;
  vo_some : vd_payload v <> [];
}.

Lemma word_enc w r : is_u32 w -> word (enc32 w ++ r) 0 = Some w.
Proof.
  unfold is_u32, word, enc32, be32. intros H. cbn [drop app]. f_equal. Z.div_mod_to_equations. lia.
Qed.

Lemma enc_words_length l : length (flat_map enc32 l) = (4 * length l)%nat.
Proof. induction l as [|w l IH]; [done|]. cbn [flat_map]. rewrite length_app, IH. cbn [length enc32]. lia. Qed.

Lemma payload_quarter v : vd_ok v -> exists q, length (vd_payload v) = (4 * q)%nat /\ (0 < q)%nat.
Proof.
  intros H. pose proof (vo_words v H) as Hm. apply Nat.Lcm0.mod_divide in Hm as [q Hq]. exists q.
  pose proof (vo_some v H). destruct (vd_payload v); [done|]. cbn [length] in *. lia.
Qed.

Lemma vd_words_length v : Z.of_nat (length (vd_words v)) =
  opt_b (vd_sid v) + 2 * opt_b (vd_class v) + opt_b (vd_tsi v) + 2 * opt_b (vd_tsf v).
Proof.
  unfold vd_words. rewrite !length_app. destruct (vd_sid v), (vd_class v) as [[]|], (vd_tsi v) as [[]|], (vd_tsf v) as [[? []]|]; done.
Qed.

Lemma header_fields v : vd_ok v ->
  let w0 := vd_header v in
  0 <= w0 < 2 ^ 29 /\ vrt_type w0 = opt_b (vd_sid v) /\ vrt_class_id w0 = opt_b (vd_class v) /\
  vrt_trailer w0 = opt_b (vd_trailer v) /\ vrt_tsi w0 = kind (vd_tsi v) /\ vrt_tsf w0 = kind (vd_tsf v) /\
  vrt_count w0 = vd_count v /\ vrt_size w0 = vd_size v.
Proof.
  intros H. destruct (payload_quarter v H) as (q & Hq & Hq0). destruct H as [H1 H2 H3 H4 _ _]. cbn zeta.
  assert (Hs : 0 <= vd_size v) by (unfold vd_size; pose proof (Z.div_pos (Z.of_nat (length (vd_payload v))) 4 ltac:(lia) ltac:(lia));
    destruct (vd_trailer v); cbn [opt_b]; lia).
  assert (B : forall X (x : option X), 0 <= opt_b x <= 1) by (intros X []; cbn; lia).
  pose proof (B _ (vd_sid v)). pose proof (B _ (vd_class v)). pose proof (B _ (vd_trailer v)).
  assert (K1 : 0 <= kind (vd_tsi v) <= 3) by (destruct (vd_tsi v) as [[]|]; cbn; lia).
  assert (K2 : 0 <= kind (vd_tsf v) <= 3) by (destruct (vd_tsf v) as [[]|]; cbn; lia).
  unfold vrt_type, vrt_class_id, vrt_trailer, vrt_tsi, vrt_tsf, vrt_count, vrt_size.
  rewrite !(field_bits _ _ 4 0xF), !(field_bits _ _ 1 1), !(field_bits _ _ 2 3) by (done || lia).
  change 0xFFFF with (Z.ones 16). rewrite Z.land_ones by lia. unfold vd_header.
  split_and!; Z.div_mod_to_equations; lia.
Qed.

Lemma kind_nz {X} (o : option (Z * X)) : match o with Some (k, _) => 1 <= k <= 3 | None => True end ->
  (if nz (kind o) then 1 else 0) = opt_b o.
Proof. destruct o as [[k x]|]; [|done]. cbn. intros H. unfold nz. destruct (Z.eqb_spec k 0); [lia|done]. Qed.

Lemma opt_nz {X} (o : option X) (k : Z) : (if nz (opt_b o) then k else 0) = k * opt_b o.
Proof. destruct o; cbn; lia. Qed.

Lemma header_opt_words v : vd_ok v -> opt_words (vd_header v) + opt_b (vd_sid v) = Z.of_nat (length (vd_words v)).
Proof.
  intros H. destruct (header_fields v H) as (_ & _ & Hc & _ & Ht & Hf & _). rewrite vd_words_length.
  unfold opt_words. rewrite Hc, Ht, Hf, opt_nz. pose proof (kind_nz _ (vo_tsi v H)) as K1. pose proof (kind_nz _ (vo_tsf v H)) as K2.
  destruct (nz (kind (vd_tsi v))), (nz (kind (vd_tsf v))); lia.
Qed.

Lemma enc_data_length v : vd_ok v -> Z.of_nat (length (enc_data v)) = 4 * vd_size v.
Proof.
  intros H. destruct (payload_quarter v H) as (q & Hq & _). unfold enc_data, vd_size.
  rewrite !length_app, enc_words_length, Hq. replace (Z.of_nat (4 * q)) with (Z.of_nat q * 4) by lia.
  rewrite Z.div_mul by lia. destruct (vd_trailer v); cbn [length enc32 opt_b]; lia.
Qed.

(** What the wrapper code finds in a sender's packet. *)
Lemma frame_strip vrl v : vd_ok v ->
  let p := enc_frame vrl (enc_data v) in
  let off := match vrl with Some _ => 8%nat | None => 0%nat end in
  vrl_strip p (length p) = Some (off, (off + length (enc_data v))%nat) /\
  word p off = Some (vd_header v) /\
  (exists magic, word p 0 = Some magic /\ (if magic =? VRL_MAGIC then 8%nat else 0%nat) = off) /\
  drop off p = enc_data v ++ match vrl with Some (_, crc) => enc32 crc | None => [] end /\
  length p = match vrl with Some _ => (12 + length (enc_data v))%nat | None => length (enc_data v) end.
Proof.
  intros H. destruct (header_fields v H) as (Hr & _). pose proof (enc_data_length v H) as Hl. cbn zeta.
  assert (Hw : forall r, word (enc_data v ++ r) 0 = Some (vd_header v)).
  { intros r. unfold enc_data. rewrite <- app_assoc. apply word_enc. unfold is_u32. lia. }
  destruct vrl as [[frame crc]|]; cbn [enc_frame].
  - assert (Hm : word (enc32 VRL_MAGIC ++ enc32 frame ++ enc_data v ++ enc32 crc) 0 = Some VRL_MAGIC)
      by (apply word_enc; vm_compute; split; [discriminate|done]).
    assert (Hd : drop 8 (enc32 VRL_MAGIC ++ enc32 frame ++ enc_data v ++ enc32 crc) = enc_data v ++ enc32 crc) by done.
    assert (Hlen : length (enc32 VRL_MAGIC ++ enc32 frame ++ enc_data v ++ enc32 crc) = (12 + length (enc_data v))%nat)
      by (rewrite !length_app; cbn [length enc32]; lia).
    split_and!; [|by rewrite <- (Nat.add_0_r 8), <- word_drop, Hd|by exists VRL_MAGIC|done|done].
    unfold vrl_strip. rewrite Hm, Hlen. destruct (Nat.leb_spec 12 (12 + length (enc_data v))); [|lia].
    cbn [mbind option_bind]. rewrite Z.eqb_refl. do 2 f_equal.
  - specialize (Hw []). rewrite app_nil_r in Hw.
    assert (Hn : (vd_header v =? VRL_MAGIC) = false) by (apply Z.eqb_neq; unfold VRL_MAGIC; lia).
    split_and!; [|done|exists (vd_header v); by rewrite Hn|by rewrite app_nil_r|done].
    unfold vrl_strip. case_if; [|done]. rewrite Hw. cbn [mbind option_bind]. by rewrite Hn.
Qed.

Lemma frame_payload vrl v : vd_ok v ->
  vrt_parse_header (enc_frame vrl (enc_data v)) =
    Some (Some ((match vrl with Some _ => 8 | None => 0 end + 4 * (1 + length (vd_words v)))%nat, length (vd_payload v))) /\
  take (length (vd_payload v)) (drop (match vrl with Some _ => 8 | None => 0 end + 4 * (1 + length (vd_words v)))
    (enc_frame vrl (enc_data v))) = vd_payload v.
Proof.
  intros H. destruct (frame_strip vrl v H) as (Hs & Hw & _ & Hd & Hlen). cbn zeta in *.
  set (off := match vrl with Some _ => 8%nat | None => 0%nat end) in *. set (p := enc_frame vrl (enc_data v)) in *.
  destruct (header_fields v H) as (_ & Ht & Hc & Htr & _ & _ & _ & Hsz). pose proof (header_opt_words v H) as Ho.
  destruct (payload_quarter v H) as (q & Hq & Hq0). pose proof (enc_data_length v H) as Hl.
  assert (Hsize : vd_size v = 1 + Z.of_nat (length (vd_words v)) + Z.of_nat q + opt_b (vd_trailer v)).
  { unfold vd_size. rewrite Hq. replace (Z.of_nat (4 * q)) with (Z.of_nat q * 4) by lia. by rewrite Z.div_mul by lia. }
  assert (Hb : 0 <= opt_b (vd_trailer v) <= 1) by (destruct (vd_trailer v); cbn; lia).
  split.
  - unfold vrt_parse_header. assert (4 <= length p)%nat by (rewrite Hlen; destruct vrl; lia).
    destruct (Nat.ltb_spec (length p) 4); [lia|]. rewrite Hs. cbn [mbind option_bind]. rewrite Hw. cbn [mbind option_bind].
    rewrite Ht, Hsz, Htr. unfold VRT_TYPE_SIGNAL_DATA_NO_SID, VRT_TYPE_SIGNAL_DATA.
    replace (negb (opt_b (vd_sid v) =? 0) && negb (opt_b (vd_sid v) =? 1)) with false by (by destruct (vd_sid v)).
    destruct (Z.ltb_spec (Z.of_nat (off + length (enc_data v)) - Z.of_nat off) (vd_size v * 4)); [lia|]. cbn [orb].
    destruct (Z.ltb_spec (vd_size v * 4) 4); [lia|].
    replace (if opt_b (vd_sid v) =? 1 then 1 else 0) with (opt_b (vd_sid v)) by (by destruct (vd_sid v)).
    rewrite opt_nz. destruct (Z.leb_spec (vd_size v) (1 + opt_b (vd_sid v) + opt_words (vd_header v) + 1 * opt_b (vd_trailer v)));
      [lia|]. do 3 f_equal; lia.
  - rewrite <- drop_drop, Hd. unfold enc_data. rewrite <- !app_assoc.
    replace (4 * (1 + length (vd_words v)))%nat with (4 + length (flat_map enc32 (vd_words v)))%nat by (rewrite enc_words_length; lia).
    rewrite <- drop_drop. change (drop 4 (enc32 (vd_header v) ++ ?r)) with r.
    rewrite drop_app_length. by rewrite take_app_length.
Qed.

(** The samples of a data packet are the payload its sender put in.
    Whatever the optional header words, trailer and VRL wrapper, the receiver
    pushes the payload's samples in the configured format, records the
    packet's sequence number and counts a gap exactly when it does not follow
    the last one modulo 16. *)
Theorem data_packet_round_trip o vrl v st : vd_ok v ->
  vita49_packet o (enc_frame vrl (enc_data v)) st =
  Some (st {{ vi_gap_pkts := if vi_have_count st && negb (vd_count v =? (vi_last_count st + 1) mod 16)
                             then u64 (vi_gap_pkts st + 1) else vi_gap_pkts st;
              vi_last_count := vd_count v; vi_have_count := true;
              vi_total_pkts := u64 (vi_total_pkts st + 1) }},
        payload_samples (vi_format st) (vd_payload v)).
Proof.
  intros H. destruct (frame_strip vrl v H) as (Hs & Hw & (magic & Hm & Hmo) & _ & _). cbn zeta in *.
  destruct (frame_payload vrl v H) as [Hp1 Hp2]. destruct (header_fields v H) as (_ & Ht & _ & _ & _ & _ & Hc & _).
  unfold vita49_packet, context_packet. rewrite Hs. cbn [mbind option_bind]. rewrite Hw. cbn [mbind option_bind].
  rewrite Ht. replace ((opt_b (vd_sid v) =? VRT_TYPE_IF_CONTEXT) || (opt_b (vd_sid v) =? VRT_TYPE_EXT_CONTEXT)) with false
    by (by destruct (vd_sid v)).
  match goal with |- context [if ?b then Some None else Some None] => replace (if b then Some None else Some None) with
    (@Some (option vita) None) by (by destruct b) end. cbn [mbind option_bind].
  rewrite Hp1. cbn [mbind option_bind]. rewrite Hm. cbn [mbind option_bind]. rewrite Hmo, Hw. cbn [mbind option_bind].
  rewrite Hp2, Hc. change 0xF with (Z.ones 4). rewrite Z.land_ones by lia. reflexivity.
Qed.

Definition witness_data : vrt_data :=
  mk_vrt_data (Some 7) None (Some (1, 1700000000)) (Some (2, (0, 5))) (Some 0) 9 [1; 0; 255; 17; 128; 2; 127; 3].
Definition witness_vita : vita := mk_vita f_zero f_zero FMT_CI16 false 7 true 0 0 0.

Lemma data_packet_round_trip_witness :
  option_map snd (vita49_packet (mk_vita_opts 0 0 false) (enc_frame (Some (1, 2)) (enc_data witness_data)) witness_vita) =
  Some (Some (SBInt8 2 [1; -1; -128; 127])).
Proof.
  rewrite (data_packet_round_trip (mk_vita_opts 0 0 false) (Some (1, 2)) witness_data witness_vita).
  - reflexivity.
  - split; cbn; try lia; try done.
Defined.

(** ** Context packets *)

(** A source whose first informative context packet carries only its
    frequency, and whose later ones carry the sample rate, is never believed
    on the rate: only one context packet is ever honoured. *)
Definition enc_context (cif0 : Z) (fields : list Z) : list Z :=
  flat_map enc32 (4 * 2 ^ 28 + (3 + Z.of_nat (length fields)) :: 1 :: cif0 :: fields).

Theorem later_context_ignored :
  let o := mk_vita_opts 0 0 false in
  let rf := enc_context CIF_RF_REF_FREQ [869525000 / 4096; 869525000 mod 4096 * 2 ^ 20] in
  let sr := enc_context CIF_SAMPLE_RATE [0x1E8; 0x48000000] in
  let st0 := mk_vita f_zero f_zero FMT_CI8 false 0 false 0 0 0 in
  match vita49_packet o rf st0 with
  | Some (st1, _) =>
      vi_center_freq st1 = f64_of_Z 869525000 /\
      match vita49_packet o sr st1, vita49_packet o sr st0 with
      | Some (st2, _), Some (st3, _) => vi_samp_rate st2 = f_zero /\ vi_samp_rate st3 <> f_zero
      | _, _ => False
      end
  | None => False
  end.
Proof. vm_compute. split; [reflexivity|]. split; [reflexivity|discriminate]. Qed.
