(* ===== verification/HashtagDict.v ===== *)
(** The MeshCore hashtag-channel dictionary thread
    (src/meshcore_hashtag_dict.c): the wordlist, the queue of undecrypted
    frames, the trial decodes and the promotion of a discovered channel.

    SHA-256, HMAC-SHA256, AES and base64 (OpenSSL) are parameters.  The queue
    mutex makes each queue operation atomic; the worker's trials run on a
    frame it has dequeued, against the live channel set as it is then.  A
    shutdown that arrives in the middle of a frame cuts its trials short; the
    model takes a round's trials as one step. *)

From Stdlib Require Import String.
From S2P Require Import Prelude CString MeshEvent MeshCore MeshCoreDecoders MeshCoreFacts MeshCoreTrust.
From S2P Require Import FrameQueue.

Local Open Scope Z_scope.
Local Open Scope list_scope.

Definition MC_DICT_QUEUE_SIZE : nat := 128.
Definition MC_DICT_FRAME_MAX_BYTES : nat := 256.
Definition MC_DICT_MAX_CANDIDATES : Z := 500000.

Record mc_dict_frame := mk_dict_frame {
  df_bytes : list Z;
  df_rssi_db : Z;
  df_snr_db : Z;
  df_sf : Z;
  df_cr : Z;
  df_bw_hz : Z;
}.

Record mc_dict := mk_mc_dict {
  md_queue : ring mc_dict_frame;
  md_candidates : list (list Z);
  md_run : bool;
  md_started : bool;
}.

(** ** The wordlist *)

Definition is_eol (c : Z) : bool := (c =? 10) || (c =? 13).

(** One line as fgets returns it (at most 255 characters, its newline kept). *)
Definition wordlist_line (cands : list (list Z)) (line : list Z) : list (list Z) :=
  if Z.of_nat (length cands) <? MC_DICT_MAX_CANDIDATES then
    match skip_while is_blank (trim_end is_eol line) with
    | [] => cands
    | c :: t => if c =? 35 then cands else cands ++ [copy_to MC_CHANNEL_MAX_NAME (c :: t)]
    end
  else cands.

(** [None]: the file cannot be opened. *)
Definition append_wordlist (file : option (list (list Z))) (cands : list (list Z)) : list (list Z) :=
  match file with Some lines => fold_left wordlist_line lines cands | None => cands end.

Definition append_builtin (cands : list (list Z)) : list (list Z) :=
  cands ++ take (Z.to_nat (MC_DICT_MAX_CANDIDATES - Z.of_nat (length cands)))
             (map (copy_to MC_CHANNEL_MAX_NAME) (meshcore_builtin_hashtag_candidates 256)).

(** ** The queue *)

Definition zero_frame : mc_dict_frame := mk_dict_frame [] 0 0 0 0 0.

Definition meshcore_hashtag_dict_enqueue (frame : list Z) (rssi_db snr_db sf cr bw_hz : Z) (d : mc_dict) : mc_dict :=
  if negb (md_started d) || (length frame =? 0)%nat then d
  else d {{ md_queue := ring_push (md_queue d)
              (mk_dict_frame (take MC_DICT_FRAME_MAX_BYTES frame) rssi_db snr_db sf cr bw_hz) }}.

(** [path] and [extras] are the files (the built-in names alone make the count
    positive); [spawn_ok] whether the thread starts.  The array is allocated
    anew and zeroed, the count is not reset: after an init that failed to spawn
    the thread, the names counted then are empty. *)
Definition meshcore_hashtag_dict_init (path : option (option (list (list Z)))) (extras : option (list (list Z)))
  (spawn_ok : bool) (d : mc_dict) : bool * mc_dict :=
  if md_started d then (true, d)
  else match path with
       | None => (false, d)
       | Some wordlist =>
           let cands := append_wordlist extras (append_builtin (append_wordlist wordlist (map (fun _ => []) (md_candidates d)))) in
           if spawn_ok then (true, d {{ md_candidates := cands; md_run := true; md_started := true }})
           else (false, d {{ md_candidates := cands; md_run := false }})
       end.

Definition meshcore_hashtag_dict_shutdown (d : mc_dict) : mc_dict :=
  if md_started d then d {{ md_run := false; md_candidates := []; md_started := false }} else d.

Section Crypto.
Context (sha256 : list Z -> option (list Z)) (evp_decode_block : list Z -> option (list Z)).
Context (hmac aes_dec : list Z -> list Z -> option (list Z)).

(** ** Trials *)

Definition add_hashtag := meshcore_channelset_add_hashtag sha256 evp_decode_block.

Definition decode_group (pkt : meshcore_packet) (cs : channelset) : option mesh_event :=
  if pk_payload_type pkt =? MC_PAYLOAD_GRP_TXT
  then meshcore_decode_grp_txt hmac aes_dec pkt (Some cs) event_zero
  else meshcore_decode_grp_data hmac aes_dec pkt (Some cs) event_zero.

(** One variant: the event of the trial decode, when it decrypts. *)
Definition try_variant (pkt : meshcore_packet) (variant : list Z) : option mesh_event :=
  match add_hashtag [] variant with
  | None => None
  | Some (trial, _) =>
      match trial with
      | [] => None
      | e :: _ =>
          if negb (ch_hash e =? at_ (pk_payload pkt) 0) then None
          else match decode_group pkt trial with
               | Some ev => if ev_decrypted ev then Some ev else None
               | None => None
               end
      end
  end.

Record discovery := mk_discovery { dc_channel_hash : Z; dc_name : list Z }.

(** The candidates with their case variants, in the order they are tried. *)
Definition trial_names (cands : list (list Z)) : list (list Z) := flat_map meshcore_name_case_variants cands.

(** The frame is of a type the thread attacks. *)
Definition attackable (f : mc_dict_frame) : option meshcore_packet :=
  match meshcore_packet_parse (df_bytes f) with
  | None => None
  | Some pkt =>
      if negb (pk_payload_type pkt =? MC_PAYLOAD_GRP_TXT) && negb (pk_payload_type pkt =? MC_PAYLOAD_GRP_DATA) then None
      else if (length (pk_payload pkt) <? 1)%nat then None
      else Some pkt
  end.

(** [live] is the runtime channel set; a failed addition leaves it as it is. *)
Definition try_candidates (cands : list (list Z)) (f : mc_dict_frame) (live : channelset)
  : channelset * option discovery :=
  match attackable f with
  | None => (live, None)
  | Some pkt =>
      match first_some (fun v => option_map (pair v) (try_variant pkt v)) (trial_names cands) with
      | None => (live, None)
      | Some (v, ev) =>
          (match add_hashtag live v with Some (cs, _) => cs | None => live end,
           Some (mk_discovery (at_ (pk_payload pkt) 0)
                   (match ev_channel_name ev with [] => v | _ => ev_channel_name ev end)))
      end
  end.

(** One round of the thread; [None]: it waits, or it has been told to end. *)
Definition mc_dict_thread_step (d : mc_dict) (live : channelset) : option (mc_dict * channelset * option discovery) :=
  if negb (md_run d) then None
  else match ring_pop (md_queue d) with
       | None => None
       | Some (f, q) =>
           let '(live, dis) := try_candidates (md_candidates d) f live in Some (d {{ md_queue := q }}, live, dis)
       end.
End Crypto.

(** ** What a discovery means *)

Section Discovery.
Context (sha256 : list Z -> option (list Z)) (evp_decode_block : list Z -> option (list Z)).
Context (hmac aes_dec : list Z -> list Z -> option (list Z)).

Lemma add_locked_entry cs cs' e name secret :
  add_channel_locked sha256 cs name secret = Some (cs', e) ->
  In e cs' /\ ((length cs <= MC_CHANNEL_MAX_ENTRIES)%nat -> (length cs' <= MC_CHANNEL_MAX_ENTRIES)%nat) /\
  add_channel_locked sha256 [] name secret = Some ([e], e).
Proof.
  unfold add_channel_locked. destruct (channel_index cs name) as [i|] eqn:Ei.
  - intros [= <- <-]. destruct (channel_index_Some _ _ _ Ei) as (x & Hx & _). split; [|split; [|done]].
    + apply list_elem_of_In, (list_elem_of_lookup_2 _ i), list_lookup_insert_eq. by eapply lookup_lt_Some.
    + by rewrite length_insert.
  - destruct (Nat.leb_spec MC_CHANNEL_MAX_ENTRIES (length cs)); [done|]. intros [= <- <-]. split; [|split; [|done]].
    + apply in_or_app. right. by left.
    + rewrite length_app. cbn [length]. lia.
Qed.

(** The entry a name stands for does not depend on the set it is added to, and
    a set with room takes every name the empty one takes. *)
Lemma add_hashtag_entry cs cs' e v :
  add_hashtag sha256 evp_decode_block cs v = Some (cs', e) ->
  In e cs' /\ ((length cs <= MC_CHANNEL_MAX_ENTRIES)%nat -> (length cs' <= MC_CHANNEL_MAX_ENTRIES)%nat) /\
  add_hashtag sha256 evp_decode_block [] v = Some ([e], e).
Proof.
  unfold add_hashtag, meshcore_channelset_add_hashtag. destruct v as [|c t]; [done|]. cbn zeta.
  destruct (if c =? 35 then t else c :: t) as [|c' t']; [done|]. case_if; [|apply add_locked_entry].
  unfold meshcore_channelset_add_default_public, meshcore_channelset_add_spec.
  destruct (strchr 58 PUBLIC_SPEC) as [[pre post]|]; [|done].
  destruct (meshcore_decode_psk evp_decode_block post); [apply add_locked_entry|done].
Qed.

Lemma add_hashtag_room cs trial e v :
  add_hashtag sha256 evp_decode_block [] v = Some (trial, e) -> (length cs < MC_CHANNEL_MAX_ENTRIES)%nat ->
  exists cs', add_hashtag sha256 evp_decode_block cs v = Some (cs', e).
Proof.
  intros H Hr.
  assert (Hl : forall name secret, add_channel_locked sha256 [] name secret = Some (trial, e) ->
    exists cs', add_channel_locked sha256 cs name secret = Some (cs', e)).
  { intros name secret. unfold add_channel_locked. cbn [channel_index]. intros [= _ <-].
    destruct (channel_index cs name); [eauto|]. destruct (Nat.leb_spec MC_CHANNEL_MAX_ENTRIES (length cs)); [lia|eauto]. }
  revert H. unfold add_hashtag, meshcore_channelset_add_hashtag. destruct v as [|c t]; [done|]. cbn zeta.
  destruct (if c =? 35 then t else c :: t) as [|c' t']; [done|]. case_if; [|apply Hl].
  unfold meshcore_channelset_add_default_public, meshcore_channelset_add_spec.
  destruct (strchr 58 PUBLIC_SPEC) as [[pre post]|]; [|done].
  destruct (meshcore_decode_psk evp_decode_block post); [apply Hl|done].
Qed.

(** A payload one channel decrypts is decrypted by every set that has it. *)
Lemma grp_decrypt_superset pkt e cs r :
  grp_decrypt hmac aes_dec pkt (Some [e]) = Some r -> In e cs -> (length cs <= MC_CHANNEL_MAX_ENTRIES)%nat ->
  is_Some (grp_decrypt hmac aes_dec pkt (Some cs)).
Proof.
  unfold grp_decrypt. case_if; [done|]. intros H Hin Hl.
  destruct (first_some_Some _ _ _ H) as (_ & i & _ & _ & _ & Hi).
  destruct i as [|i]; [|by rewrite lookup_nil in Hi || (cbn [lookup list_lookup] in Hi; destruct i)].
  cbn [lookup list_lookup] in Hi.
  destruct (meshcore_verify_and_decrypt _ _ (ch_secret e) _) as [plain|] eqn:Ev; [|done].
  match goal with |- is_Some (first_some ?f ?l) => destruct (first_some f l) eqn:En; [eauto|] end.
  exfalso. apply first_some_None in En. apply list_elem_of_In, list_elem_of_lookup in Hin as [j Hj].
  assert (Hj' : In j (meshcore_channelset_lookup cs (at_ (pk_payload pkt) 0) MC_CHANNEL_MAX_ENTRIES)).
  { apply (Permutation_in _ (Permutation_sym (lookup_permutation _ _ Hl))), in_seq. apply lookup_lt_Some in Hj. lia. }
  rewrite List.Forall_forall in En. specialize (En j Hj'). cbv beta in En. by rewrite Hj, Ev in En.
Qed.

(** A trial decode that decrypts names the channel it was tried with. *)
Lemma decode_group_decrypted pkt e ev :
  decode_group hmac aes_dec pkt [e] = Some ev -> ev_decrypted ev = true ->
  is_Some (grp_decrypt hmac aes_dec pkt (Some [e])) /\ mac_valid hmac [e] (pk_payload pkt).
Proof.
  intros H Hd. assert (G : is_Some (grp_decrypt hmac aes_dec pkt (Some [e]))).
  { unfold decode_group, meshcore_decode_grp_txt, meshcore_decode_grp_data in H.
    destruct (grp_decrypt hmac aes_dec pkt (Some [e])) as [r|]; [eauto|].
    by destruct (pk_payload_type pkt =? MC_PAYLOAD_GRP_TXT); apply (inj Some) in H as <-. }
  split; [done|]. destruct G as [r G]. destruct (grp_decrypt_mac _ _ _ _ _ G) as (cs & [= <-] & Hm). exact Hm.
Qed.

Lemma try_variant_Some pkt v ev :
  try_variant sha256 evp_decode_block hmac aes_dec pkt v = Some ev ->
  exists e, add_hashtag sha256 evp_decode_block [] v = Some ([e], e) /\ ch_hash e = at_ (pk_payload pkt) 0 /\
    is_Some (grp_decrypt hmac aes_dec pkt (Some [e])) /\ mac_valid hmac [e] (pk_payload pkt).
Proof.
  unfold try_variant. destruct (add_hashtag _ _ [] v) as [[trial e]|] eqn:E; [|done].
  destruct (add_hashtag_entry _ _ _ _ E) as (_ & _ & E'). rewrite E in E'. injection E' as ->.
  destruct (Z.eqb_spec (ch_hash e) (at_ (pk_payload pkt) 0)); [|done]. cbn [negb].
  destruct (decode_group hmac aes_dec pkt [e]) as [ev'|] eqn:Ed; [|done].
  destruct (ev_decrypted ev') eqn:Hd; [|done]. intros _. exists e. split; [done|]. split; [done|].
  by eapply decode_group_decrypted.
Qed.

(** The hashtag dictionary discovers soundly and completely.  A channel it
    announces for a frame is the one of a candidate name, in one of the case
    variants tried: the name's channel has the frame's hash byte and its
    secret verifies the frame's MAC, no earlier variant decrypted the frame,
    and when the live set has room the channel is in it afterwards and the
    decoder decrypts the frame with that set.  When it announces nothing the
    live set is as it was, and no variant of any candidate decrypts the
    frame. *)
Theorem hashtag_discovery cands f live pkt :
  attackable f = Some pkt ->
  let '(live', d) := try_candidates sha256 evp_decode_block hmac aes_dec cands f live in
  match d with
  | Some dc =>
      exists pre v post e, trial_names cands = pre ++ v :: post /\
        Forall (fun w => try_variant sha256 evp_decode_block hmac aes_dec pkt w = None) pre /\
        add_hashtag sha256 evp_decode_block [] v = Some ([e], e) /\
        ch_hash e = at_ (pk_payload pkt) 0 /\ dc_channel_hash dc = ch_hash e /\ mac_valid hmac [e] (pk_payload pkt) /\
        ((length live < MC_CHANNEL_MAX_ENTRIES)%nat ->
         In e live' /\ is_Some (grp_decrypt hmac aes_dec pkt (Some live')))
  | None =>
      live' = live /\ Forall (fun w => try_variant sha256 evp_decode_block hmac aes_dec pkt w = None) (trial_names cands)
  end.
Proof.
  intros Ha. unfold try_candidates. rewrite Ha.
  set (g := fun v => option_map (pair v) (try_variant sha256 evp_decode_block hmac aes_dec pkt v)).
  assert (Hg : forall l, Forall (fun v => g v = None) l ->
    Forall (fun w => try_variant sha256 evp_decode_block hmac aes_dec pkt w = None) l).
  { intros l Hf. apply (Forall_impl _ _ _ Hf). intros w. unfold g. by destruct (try_variant _ _ _ _ _ w). }
  destruct (first_some g (trial_names cands)) as [[v ev]|] eqn:E; [|split; [done|by apply Hg, first_some_None]].
  destruct (first_some_Some _ _ _ E) as (pre & v' & post & Hl & Hpre & Hv).
  unfold g in Hv. destruct (try_variant _ _ _ _ _ v') as [ev'|] eqn:Ev; [|done]. injection Hv as -> _.
  destruct (try_variant_Some _ _ _ Ev) as (e & He & Hh & [r Hr] & Hm).
  exists pre, v, post, e. split; [done|]. split; [by apply Hg|]. split; [done|]. split; [done|]. split; [done|].
  split; [done|]. intros Hroom. destruct (add_hashtag_room _ _ _ _ He Hroom) as [cs' Hcs]. rewrite Hcs.
  destruct (add_hashtag_entry _ _ _ _ Hcs) as (Hin & Hle & _). split; [done|].
  apply (grp_decrypt_superset pkt e cs' r Hr Hin), Hle. lia.
Qed.
End Discovery.

(** ** Concrete runs *)

Definition toy_sha (m : list Z) : option (list Z) := Some (replicate 32 (Z.of_nat (length m))).
Definition toy_channel : meshcore_channel := mk_channel (str "#bot") (replicate 16 4) 16.
Definition toy_frame : mc_dict_frame :=
  mk_dict_frame (enc_packet (mk_packet 1 MC_PAYLOAD_GRP_TXT 0 false 0 0 [] 0 1
    (text_payload toy_tag toy_cipher toy_channel 1700000000 0 (str "hi")))) 0 0 8 1 62500.
Definition toy_try := try_candidates toy_sha (fun _ => None) toy_tag (fun k m => Some (toy_cipher k m)).

Lemma hashtag_discovery_witness :
  exists live dc, toy_try [str "meteo"; str "bot"] toy_frame [] = (live, Some dc) /\
    dc_channel_hash dc = 16 /\ length live = 1%nat.
Proof.
  destruct (attackable toy_frame) as [pkt|] eqn:E; [|vm_compute in E; discriminate E].
  pose proof (hashtag_discovery toy_sha (fun _ => None) toy_tag (fun k m => Some (toy_cipher k m))
    [str "meteo"; str "bot"] toy_frame [] pkt E) as H. fold toy_try in H.
  assert (R : exists live dc, toy_try [str "meteo"; str "bot"] toy_frame [] = (live, Some dc) /\ length live = 1%nat)
    by (do 2 eexists; split; vm_compute; reflexivity).
  destruct R as (live & dc & R & Hl). rewrite R in H. destruct H as (pre & v & post & e & _ & _ & _ & Hh & Hd & _ & _).
  exists live, dc. split; [exact R|]. split; [|exact Hl]. rewrite Hd, Hh.
  vm_compute in E. injection E as <-. reflexivity.
Defined.

(** Thirty-two channels, none of them the one the frame uses. *)
Definition full_set : channelset :=
  map (fun i => mk_channel (str "ch" ++ dec_of_Z (Z.of_nat i)) (replicate 16 99) 99) (seq 0 32).

(** With the live set full the addition fails and its result is not looked at:
    the discovery is announced, the set stays as it was, the frame stays
    undecrypted, and the next frame of the channel is announced again. *)
Lemma full_set_rediscovers :
  exists dc, toy_try [str "bot"] toy_frame full_set = (full_set, Some dc).
Proof. eexists. vm_compute. reflexivity. Qed.
