(* ===== verification/Pfb.v ===== *)
(** The polyphase filter bank (src/pfb.c): the pre-shift oscillator, the
    critically sampled path with its duplicated reverse rings, the
    oversampled path with its history ring, and what each output bin is.

    The arithmetic of [float complex], FFTW's transform, the cosine and sine
    of a twiddle and the window design of the prototype are parameters.
    Indices, counters and the order of the operations are the source's. *)

From Stdlib Require Import Ring.
From S2P Require Import Prelude.

Definition PFB_NCO_RENORM : nat := 1024.

Class PfbOps (C F : Type) := {
  pzero : C;
  pone : C;
  fzero : F;
  nmul : C -> C -> C;              (* x * y *)
  padd : C -> C -> C;              (* acc + y, componentwise *)
  pscale : C -> F -> C;            (* x * h, componentwise *)
  nco_norm : C -> C;               (* divided by its magnitude, unless that is 0 *)
  fft : nat -> list C -> list C;   (* fftwf_execute of the forward plan of a size *)
  twiddle : nat -> nat -> nat -> C;(* exp(-2 pi j b shift / M) of b, shift, M *)
  prototype : nat -> nat -> list F;(* design_prototype of M and L *)
}.

Section Pfb.
Context {C F : Type} `{ops : PfbOps C F}.

Record pfb := mk_pfb {
  pf_M : nat;
  pf_L : nat;
  pf_os : nat;
  pf_hist : list C;
  pf_hist_w : nat;
  pf_total_in : Z;
  pf_h_p : list F;
  pf_dly : list C;
  pf_dly_w : nat;
  pf_cycle : Z;
  pf_sample_count : nat;
  pf_warmup_remaining : nat;
  nco_phasor : C;
  nco_current : C;
  nco_renorm : nat;
}.

Definition hist_cap (p : pfb) : nat := pf_M p * pf_L p.
Definition dly_stride (p : pfb) : nat := 2 * pf_L p.
Definition bump_cycle (p : pfb) : pfb := p {{ pf_cycle := i32 (pf_cycle p + 1) }}.

(** [h_p[i * L + k] = h[k * M + i]] *)
Definition polyphase (M L : nat) (h : list F) : list F :=
  flat_map (fun i => map (fun k => nth (k * M + i) h fzero) (seq 0 L)) (seq 0 M).

(** [phasor] is the rotation of one sample by the pre-shift; the allocations
    and the worker pool succeed. *)
Definition pfb_create (M L : Z) (phasor : C) (rate_ok : bool) : option pfb :=
  if (M <? 1)%Z || (L <? 2)%Z || negb rate_ok then None
  else
    let m := Z.to_nat M in
    let l := Z.to_nat L in
    Some (mk_pfb m l 1 [] 0 0 (polyphase m l (prototype m l)) (replicate (m * (2 * l)) pzero) 0 0 0
            ((l - 1) / 2 + 1) phasor pone 0).

Definition pfb_create_os (M L : Z) (phasor : C) (rate_ok : bool) (os : Z) : option pfb :=
  let os := if (os <? 1)%Z then 1%Z else os in
  if (1 <? os)%Z && negb (Z.rem M os =? 0)%Z then None
  else match pfb_create M L phasor rate_ok with
       | None => None
       | Some p =>
           if (os =? 1)%Z then Some p
           else Some (p {{ pf_os := Z.to_nat os; pf_hist := replicate (hist_cap p) pzero; pf_hist_w := 0;
                           pf_total_in := 0%Z; pf_warmup_remaining := ((pf_L p - 1) / 2 + 1) * Z.to_nat os }})
       end.

(** The shifted sample, and the oscillator advanced. *)
Definition nco (p : pfb) (s : C) : C * pfb :=
  let x := nmul s (nco_current p) in
  let cur := nmul (nco_current p) (nco_phasor p) in
  let renew := PFB_NCO_RENORM <=? S (nco_renorm p) in
  (x, p {{ nco_current := if renew then nco_norm cur else cur;
           nco_renorm := if renew then 0 else S (nco_renorm p) }}).

(** ** The critically sampled path *)

Definition branch_fir (p : pfb) (i : nat) : C :=
  let base := (pf_L p - pf_dly_w p) mod pf_L p in
  fold_left (fun acc k => padd acc (pscale (nth (i * dly_stride p + base + k) (pf_dly p) pzero)
                                           (nth (i * pf_L p + k) (pf_h_p p) fzero)))
    (seq 0 (pf_L p)) pzero.

(** The row of bins of a cycle, unless it is still warming up. *)
Definition pfb_one_cycle (p : pfb) : pfb * option (list C) :=
  let fft_out := fft (pf_M p) (map (branch_fir p) (seq 0 (pf_M p))) in
  match pf_warmup_remaining p with
  | S n => (bump_cycle (p {{ pf_warmup_remaining := n }}), None)
  | 0 => (bump_cycle p, Some fft_out)
  end.

Definition opt_list {X} (o : option X) : list X := match o with Some x => [x] | None => [] end.

(** The sample goes into the duplicated reverse ring of its branch. *)
Definition stored (p : pfb) (x : C) : pfb :=
  let rev := pf_L p - 1 - pf_dly_w p in
  let d := pf_sample_count p * dly_stride p in
  p {{ pf_dly := <[d + rev + pf_L p := x]> (<[d + rev := x]> (pf_dly p));
       pf_sample_count := S (pf_sample_count p) }}.

(** A cycle is complete: the write index moves on. *)
Definition wrapped (p : pfb) : pfb := p {{ pf_dly_w := (pf_dly_w p + 1) mod pf_L p; pf_sample_count := 0 }}.

Definition push_sample (p : pfb) (s : C) : pfb * list (list C) :=
  let '(x, p) := nco p s in
  let p := stored p x in
  if pf_sample_count p =? pf_M p then let '(p, row) := pfb_one_cycle (wrapped p) in (p, opt_list row) else (p, []).

(** ** The oversampled path *)

(** The loop over [k] of branch [i], [n] rounds left. *)
Fixpoint os_fir (p : pfb) (i k n : nat) (acc : C) : C :=
  match n with
  | 0 => acc
  | S n =>
      let back := pf_M p - 1 - i + k * pf_M p in
      if hist_cap p <=? back then acc
      else
        let hpos := Z.rem (Z.of_nat (pf_hist_w p) - 1 - Z.of_nat back) (Z.of_nat (hist_cap p)) in
        let hpos := if (hpos <? 0)%Z then (hpos + Z.of_nat (hist_cap p))%Z else hpos in
        os_fir p i (S k) n (padd acc (pscale (nth (Z.to_nat hpos) (pf_hist p) pzero)
                                             (nth (i * pf_L p + k) (pf_h_p p) fzero)))
  end.

Definition os_shift (p : pfb) : nat :=
  let m := Z.of_nat (pf_M p) in
  let block_start := (pf_total_in p - 1 - (m - 1))%Z in
  Z.to_nat (Z.rem (Z.rem block_start m + m) m).

Definition rotate (m shift b : nat) (y : C) : C := if shift =? 0 then y else nmul y (twiddle b shift m).

Definition pfb_cycle_os (p : pfb) : pfb * option (list C) :=
  let fft_out := fft (pf_M p) (map (fun i => os_fir p i 0 (pf_L p) pzero) (seq 0 (pf_M p))) in
  match pf_warmup_remaining p with
  | S n => (bump_cycle (p {{ pf_warmup_remaining := n }}), None)
  | 0 => (bump_cycle p, Some (imap (rotate (pf_M p) (os_shift p)) fft_out))
  end.

(** The history with one sample more. *)
Definition recorded (p : pfb) (x : C) : pfb :=
  p {{ pf_hist := <[pf_hist_w p := x]> (pf_hist p); pf_hist_w := (pf_hist_w p + 1) mod hist_cap p;
       pf_total_in := (pf_total_in p + 1)%Z }}.

Definition push_sample_os (p : pfb) (s : C) : pfb * list (list C) :=
  let '(x, p) := nco p s in
  let p := recorded p x in
  if (Z.rem (pf_total_in p) (Z.of_nat (pf_M p / pf_os p)) =? 0)%Z
  then let '(p, row) := pfb_cycle_os p in (p, opt_list row)
  else (p, []).

(** ** pfb_process: the rows to emit, one value per bin *)

Definition pfb_step (p : pfb) (s : C) : pfb * list (list C) :=
  if 1 <? pf_os p then push_sample_os p s
  else if pf_M p =? 1 then let '(x, p) := nco p s in (bump_cycle p, [[x]])
  else push_sample p s.

Fixpoint pfb_process (p : pfb) (l : list C) : pfb * list (list C) :=
  match l with
  | [] => (p, [])
  | s :: t => let '(p, r) := pfb_step p s in let '(p, rs) := pfb_process p t in (p, r ++ rs)
  end.

(** ** The reference: every bin of every cycle from the shifted stream *)

(** The shifted stream. *)
Fixpoint nco_mix (step cur : C) (c : nat) (l : list C) : list C :=
  match l with
  | [] => []
  | s :: t =>
      let cur' := nmul cur step in
      let renew := PFB_NCO_RENORM <=? S c in
      nmul s cur :: nco_mix step (if renew then nco_norm cur' else cur') (if renew then 0 else S c) t
  end.

(** Branch [i] over the history [hs], newest sample first, silence before it. *)
Definition branch_ref (M L : nat) (h : list F) (hs : list C) (i : nat) : C :=
  fold_left (fun acc k => padd acc (pscale (nth (M - 1 - i + k * M) hs pzero) (nth (k * M + i) h fzero)))
    (seq 0 L) pzero.

Definition row_ref (M L : nat) (h : list F) (hs : list C) : list C :=
  imap (rotate M (length hs mod M)) (fft M (map (branch_ref M L h hs) (seq 0 M))).

(** A row after every [D]-th sample of the stream. *)
Definition rows_ref (M L D : nat) (h : list F) (xs : list C) : list (list C) :=
  map (fun j => row_ref M L h (rev (take (S j * D) xs))) (seq 0 (length xs / D)).

Fixpoint rows_due (M L D : nat) (h : list F) (hs : list C) (warm : nat) (xs : list C) : list (list C) :=
  match xs with
  | [] => []
  | x :: t =>
      let hs := x :: hs in
      if length hs mod D =? 0 then
        match warm with
        | S w => rows_due M L D h hs w t
        | 0 => row_ref M L h hs :: rows_due M L D h hs 0 t
        end
      else rows_due M L D h hs warm t
  end.

Lemma rows_due_warm M L D h xs : forall hs w, rows_due M L D h hs w xs = drop w (rows_due M L D h hs 0 xs).
Proof.
  induction xs as [|x xs IH]; intros hs w; [by destruct w|]. cbn [rows_due].
  destruct (length (x :: hs) mod D =? 0); [|apply IH]. destruct w as [|w]; [done|]. apply IH.
Qed.

Lemma rows_due_skip M L D h xs : forall hs, 0 < D -> length hs mod D + length xs < D -> rows_due M L D h hs 0 xs = [].
Proof.
  induction xs as [|x xs IH]; intros hs HD Hl; [done|]. cbn [rows_due length] in *.
  assert (E : S (length hs) mod D = S (length hs mod D)).
  { rewrite <- Nat.add_1_r, <- (Nat.Div0.add_mod_idemp_l (length hs)), Nat.add_1_r. apply Nat.mod_small. lia. }
  rewrite E. cbn [Nat.eqb]. apply IH; [done|]. cbn [length]. rewrite E. lia.
Qed.

Lemma rows_due_first M L D h xs : forall hs, 0 < D -> D <= length hs mod D + length xs ->
  let n := D - length hs mod D in
  rows_due M L D h hs 0 xs =
  row_ref M L h (rev (take n xs) ++ hs) :: rows_due M L D h (rev (take n xs) ++ hs) 0 (drop n xs).
Proof.
  induction xs as [|x xs IH]; intros hs HD Hl; cbn [length] in *.
  { pose proof (Nat.mod_upper_bound (length hs) D). lia. }
  pose proof (Nat.mod_upper_bound (length hs) D ltac:(lia)) as Hm. cbn [rows_due length].
  destruct (Nat.eq_dec (S (length hs mod D)) D) as [E|E].
  - assert (Z0 : S (length hs) mod D = 0).
    { rewrite <- Nat.add_1_r, <- (Nat.Div0.add_mod_idemp_l (length hs)), Nat.add_1_r, E. apply Nat.Div0.mod_same. }
    rewrite Z0. replace (D - length hs mod D) with 1 by lia. done.
  - assert (E' : S (length hs) mod D = S (length hs mod D)).
    { rewrite <- Nat.add_1_r, <- (Nat.Div0.add_mod_idemp_l (length hs)), Nat.add_1_r. apply Nat.mod_small. lia. }
    rewrite E'. cbn [Nat.eqb]. rewrite IH; cbn [length]; [|done|rewrite E'; lia]. rewrite E'.
    replace (D - length hs mod D) with (S (D - S (length hs mod D))) by lia. cbn [take drop rev].
    by rewrite <- app_assoc.
Qed.

Lemma rows_due_ref M L D h : 0 < D -> forall k xs hs, length hs mod D = 0 -> length xs / D = k ->
  rows_due M L D h hs 0 xs = map (fun j => row_ref M L h (rev (take (S j * D) xs) ++ hs)) (seq 0 k).
Proof.
  intros HD. induction k as [|k IH]; intros xs hs Hh Hk.
  { apply Nat.div_small_iff in Hk; [|lia]. apply rows_due_skip; lia. }
  assert (Hl : D <= length xs).
  { destruct (Nat.le_gt_cases D (length xs)); [done|]. rewrite Nat.div_small in Hk by lia. done. }
  rewrite rows_due_first by lia. cbn zeta. rewrite Hh, Nat.sub_0_r. cbn [seq map]. rewrite Nat.mul_1_l. f_equal.
  rewrite (IH (drop D xs) (rev (take D xs) ++ hs)).
  - rewrite <- seq_shift, map_map. apply map_ext_in. intros j _. f_equal. rewrite app_assoc. f_equal.
    rewrite <- rev_app_distr. f_equal. replace (S (S j) * D) with (D + S j * D) by lia. by rewrite <- take_take_drop.
  - rewrite length_app, length_rev, length_take, Nat.min_l, <- Nat.Div0.add_mod_idemp_r, Hh by lia.
    rewrite Nat.add_0_r. apply Nat.Div0.mod_same.
  - rewrite length_drop. replace (length xs) with ((length xs - D) + 1 * D) in Hk by lia.
    rewrite Nat.div_add in Hk by lia. lia.
Qed.

(** ** The critically sampled path computes the reference *)

Lemma polyphase_nth M L (h : list F) i k : i < M -> k < L -> nth (i * L + k) (polyphase M L h) fzero = nth (k * M + i) h fzero.
Proof.
  intros Hi Hk. unfold polyphase.
  assert (G : forall a m, i < m -> nth (i * L + k) (flat_map (fun i => map (fun k => nth (k * M + i) h fzero) (seq 0 L)) (seq a m)) fzero =
    nth (k * M + (a + i)) h fzero).
  { clear Hi. induction i as [|i IH]; intros a m Hm; (destruct m as [|m]; [lia|]); cbn [seq flat_map].
    - rewrite app_nth1 by (rewrite length_map, length_seq; lia).
      rewrite (nth_indep _ fzero (nth (0 * M + a) h fzero)) by (rewrite length_map, length_seq; lia).
      rewrite (map_nth (fun k => nth (k * M + a) h fzero) (seq 0 L) 0), seq_nth by lia. f_equal. lia.
    - rewrite app_nth2; rewrite length_map, length_seq; [|lia]. replace (S i * L + k - L) with (i * L + k) by lia.
      rewrite IH by lia. f_equal. lia. }
  rewrite (G 0 M Hi). done.
Qed.

Lemma flat_index_inj S i j i' j' : j < S -> j' < S -> i * S + j = i' * S + j' -> i = i' /\ j = j'.
Proof.
  intros Hj Hj' E. assert (i = i') as ->; [|lia].
  assert (Ei : (i * S + j) / S = i) by (rewrite Nat.div_add_l, Nat.div_small by lia; lia).
  assert (Ei' : (i' * S + j') / S = i') by (rewrite Nat.div_add_l, Nat.div_small by lia; lia). congruence.
Qed.

(** Where branch [i] has its newest sample, and how old that sample is. *)
Definition branch_w (p : pfb) (i : nat) : nat :=
  if i <? pf_sample_count p then (pf_dly_w p + 1) mod pf_L p else pf_dly_w p.
Definition branch_age (p : pfb) (i : nat) : nat :=
  if i <? pf_sample_count p then pf_sample_count p - 1 - i else pf_sample_count p + pf_M p - 1 - i.

(** [hs] is the history of shifted samples, newest first. *)
Record crit_rep (h : list F) (p : pfb) (hs : list C) : Prop := {
  cr_M : 1 < pf_M p;
  cr_L : 2 <= pf_L p;
  cr_os : pf_os p <= 1;
  cr_h : pf_h_p p = polyphase (pf_M p) (pf_L p) h;
  cr_len : length (pf_dly p) = pf_M p * dly_stride p;
  cr_w : pf_dly_w p < pf_L p;
  cr_count : pf_sample_count p = length hs mod pf_M p;
  cr_win : forall i k, i < pf_M p -> k < pf_L p ->
    nth (i * dly_stride p + (pf_L p - branch_w p i) mod pf_L p + k) (pf_dly p) pzero =
    nth (branch_age p i + k * pf_M p) hs pzero;
  cr_dup : forall i j, i < pf_M p -> j < pf_L p ->
    nth (i * dly_stride p + j) (pf_dly p) pzero = nth (i * dly_stride p + j + pf_L p) (pf_dly p) pzero;
}.

Lemma nth_insert (l : list C) i j x : i < length l -> nth j (<[i := x]> l) pzero = if j =? i then x else nth j l pzero.
Proof.
  intros Hi. destruct (Nat.eqb_spec j i) as [->|Hj]; rewrite !nth_lookup.
  - by rewrite list_lookup_insert_eq.
  - by rewrite list_lookup_insert_ne.
Qed.

Lemma base_cases L w : w < L -> (L - w) mod L = if w =? 0 then 0 else L - w.
Proof.
  intros Hw. destruct (Nat.eqb_spec w 0) as [->|]; [rewrite Nat.sub_0_r; apply Nat.Div0.mod_same|].
  apply Nat.mod_small. lia.
Qed.

Lemma next_w L w : w < L -> (w + 1) mod L = if S w =? L then 0 else S w.
Proof.
  intros Hw. destruct (Nat.eqb_spec (S w) L) as [E|E]; [rewrite Nat.add_1_r, E; apply Nat.Div0.mod_same|].
  rewrite Nat.mod_small; lia.
Qed.

Lemma stored_nth h p hs x i j : crit_rep h p hs -> i < pf_M p -> j < dly_stride p ->
  nth (i * dly_stride p + j) (pf_dly (stored p x)) pzero =
  if (i =? pf_sample_count p) && ((j =? pf_L p - 1 - pf_dly_w p) || (j =? pf_L p - 1 - pf_dly_w p + pf_L p)) then x
  else nth (i * dly_stride p + j) (pf_dly p) pzero.
Proof.
  intros R Hi Hj. destruct R as [HM HL _ _ Hlen Hw Hc _ _].
  assert (Hcm : pf_sample_count p < pf_M p) by (rewrite Hc; apply Nat.mod_upper_bound; lia).
  set (c := pf_sample_count p) in *. set (r := pf_L p - 1 - pf_dly_w p) in *.
  assert (HS : r + pf_L p < dly_stride p) by (unfold dly_stride, r; lia).
  assert (Hfit : c * dly_stride p + r + pf_L p < length (pf_dly p)) by (rewrite Hlen; nia).
  change (pf_dly (stored p x)) with (<[c * dly_stride p + r + pf_L p := x]> (<[c * dly_stride p + r := x]> (pf_dly p))).
  rewrite nth_insert by (rewrite length_insert; lia). rewrite nth_insert by lia.
  destruct (Nat.eqb_spec i c) as [->|Hne]; cbn [andb].
  - destruct (Nat.eqb_spec (c * dly_stride p + j) (c * dly_stride p + r + pf_L p)),
      (Nat.eqb_spec (c * dly_stride p + j) (c * dly_stride p + r)),
      (Nat.eqb_spec j r), (Nat.eqb_spec j (r + pf_L p)); try lia; done.
  - destruct (Nat.eqb_spec (i * dly_stride p + j) (c * dly_stride p + r + pf_L p)) as [E|_].
    { rewrite <- Nat.add_assoc in E. destruct (flat_index_inj _ _ _ _ _ Hj HS E). done. }
    destruct (Nat.eqb_spec (i * dly_stride p + j) (c * dly_stride p + r)) as [E|_]; [|done].
    destruct (flat_index_inj (dly_stride p) i j c r Hj ltac:(lia) E). done.
Qed.

Lemma stored_win h p hs x i k : crit_rep h p hs -> i < pf_M p -> k < pf_L p ->
  let c := pf_sample_count p in
  nth (i * dly_stride p + (pf_L p - (if i <=? c then (pf_dly_w p + 1) mod pf_L p else pf_dly_w p)) mod pf_L p + k)
    (pf_dly (stored p x)) pzero =
  nth ((if i <=? c then c - i else c + pf_M p - i) + k * pf_M p) (x :: hs) pzero.
Proof.
  intros R Hi Hk c. pose proof R as [HM HL _ _ Hlen Hw Hc Hwin Hdup].
  specialize (Hwin i k Hi Hk) as Hik. unfold branch_w, branch_age in Hik. fold c in Hik.
  assert (Hb : forall w, w < pf_L p -> (pf_L p - w) mod pf_L p + k < dly_stride p).
  { intros w Hw'. pose proof (Nat.mod_upper_bound (pf_L p - w) (pf_L p) ltac:(lia)). unfold dly_stride. lia. }
  destruct (Nat.eq_dec i c) as [->|Hne].
  - rewrite Nat.leb_refl, Nat.sub_diag. rewrite Nat.ltb_irrefl in Hik.
    rewrite next_w by done.
    assert (Hnb : (pf_L p - (if S (pf_dly_w p) =? pf_L p then 0 else S (pf_dly_w p))) mod pf_L p = pf_L p - 1 - pf_dly_w p).
    { destruct (Nat.eqb_spec (S (pf_dly_w p)) (pf_L p)); rewrite base_cases by lia; [cbn [Nat.eqb]; lia|].
      cbn [Nat.eqb]. lia. }
    rewrite Hnb, <- Nat.add_assoc, (stored_nth h p hs) by (auto; unfold dly_stride; lia). fold c. rewrite Nat.eqb_refl. cbn [andb].
    destruct k as [|k]; [by rewrite Nat.add_0_r, Nat.eqb_refl|].
    destruct (Nat.eqb_spec (pf_L p - 1 - pf_dly_w p + S k) (pf_L p - 1 - pf_dly_w p)); [lia|].
    destruct (Nat.eqb_spec (pf_L p - 1 - pf_dly_w p + S k) (pf_L p - 1 - pf_dly_w p + pf_L p)); [lia|]. cbn [orb].
    specialize (Hwin c k Hi ltac:(lia)). unfold branch_w, branch_age in Hwin. fold c in Hwin. rewrite Nat.ltb_irrefl in Hwin.
    rewrite base_cases in Hwin by done.
    replace (0 + S k * pf_M p) with (S (c + pf_M p - 1 - c + k * pf_M p)) by lia. cbn [nth]. rewrite <- Hwin.
    destruct (Nat.eqb_spec (pf_dly_w p) 0) as [E|E].
    + rewrite E. replace (c * dly_stride p + (pf_L p - 1 - 0 + S k)) with (c * dly_stride p + k + pf_L p) by lia.
      rewrite <- Hdup by lia. f_equal. lia.
    + f_equal. lia.
  - assert (Hs : forall w, w < pf_L p ->
      nth (i * dly_stride p + (pf_L p - w) mod pf_L p + k) (pf_dly (stored p x)) pzero =
      nth (i * dly_stride p + (pf_L p - w) mod pf_L p + k) (pf_dly p) pzero).
    { intros w Hw'. rewrite <- Nat.add_assoc, (stored_nth h p hs) by auto.
      destruct (Nat.eqb_spec i (pf_sample_count p)); [done|]. done. }
    destruct (Nat.leb_spec i c), (Nat.ltb_spec i c); try lia.
    + rewrite Hs, Hik by (apply Nat.mod_upper_bound; lia). replace (c - i + k * pf_M p) with (S (c - 1 - i + k * pf_M p)) by lia. done.
    + rewrite Hs, Hik by done.
      replace (c + pf_M p - i + k * pf_M p) with (S (c + pf_M p - 1 - i + k * pf_M p)) by lia. done.
Qed.

Lemma stored_dup h p hs x i j : crit_rep h p hs -> i < pf_M p -> j < pf_L p ->
  nth (i * dly_stride p + j) (pf_dly (stored p x)) pzero = nth (i * dly_stride p + j + pf_L p) (pf_dly (stored p x)) pzero.
Proof.
  intros R Hi Hj. pose proof (cr_dup h p hs R i j Hi Hj) as Hd.
  rewrite <- Nat.add_assoc, !(stored_nth h p hs) by (auto; unfold dly_stride; lia). rewrite <- Nat.add_assoc in Hd.
  pose proof (cr_w h p hs R). pose proof (cr_L h p hs R).
  destruct (Nat.eqb_spec j (pf_L p - 1 - pf_dly_w p)), (Nat.eqb_spec (j + pf_L p) (pf_L p - 1 - pf_dly_w p)),
    (Nat.eqb_spec j (pf_L p - 1 - pf_dly_w p + pf_L p)), (Nat.eqb_spec (j + pf_L p) (pf_L p - 1 - pf_dly_w p + pf_L p));
    try lia; cbn [orb]; rewrite ?andb_false_r; try done; by case_if.
Qed.

Lemma mod_S n m : 0 < m -> S n mod m = if S (n mod m) =? m then 0 else S (n mod m).
Proof.
  intros Hm. rewrite <- Nat.add_1_r, <- Nat.Div0.add_mod_idemp_l, next_w; [done|]. apply Nat.mod_upper_bound. lia.
Qed.

(** The sample is stored in the middle of a cycle. *)
Lemma stored_rep h p hs x : crit_rep h p hs -> S (pf_sample_count p) <> pf_M p -> crit_rep h (stored p x) (x :: hs).
Proof.
  intros R Hc. pose proof R as [HM HL Hos Hh Hlen Hw Hcount _ _]. split; try done.
  - unfold stored. rcbn. rewrite !length_insert. exact Hlen.
  - change (S (pf_sample_count p) = S (length hs) mod pf_M p). rewrite mod_S, <- Hcount by lia.
    destruct (Nat.eqb_spec (S (pf_sample_count p)) (pf_M p)); lia.
  - intros i k Hi Hk. pose proof (stored_win h p hs x i k R Hi Hk) as W. cbn zeta in W.
    unfold branch_w, branch_age. change (pf_sample_count (stored p x)) with (S (pf_sample_count p)).
    change (i <? S (pf_sample_count p)) with (i <=? pf_sample_count p).
    change (pf_dly_w (stored p x)) with (pf_dly_w p). change (pf_L (stored p x)) with (pf_L p).
    change (pf_M (stored p x)) with (pf_M p). change (dly_stride (stored p x)) with (dly_stride p). rewrite W.
    f_equal. destruct (Nat.leb_spec i (pf_sample_count p)); lia.
  - intros i j Hi Hj. by apply (stored_dup h p hs).
Qed.

Lemma wrapped_rep h p hs x : crit_rep h p hs -> S (pf_sample_count p) = pf_M p ->
  crit_rep h (wrapped (stored p x)) (x :: hs) /\ length (x :: hs) mod pf_M p = 0.
Proof.
  intros R Hc. pose proof R as [HM HL Hos Hh Hlen Hw Hcount _ _].
  assert (Z0 : length (x :: hs) mod pf_M p = 0).
  { cbn [length]. rewrite mod_S, <- Hcount, Hc, Nat.eqb_refl by lia. done. }
  split; [|done]. split; try done.
  - unfold wrapped, stored. rcbn. rewrite !length_insert. exact Hlen.
  - unfold wrapped, stored. rcbn. apply Nat.mod_upper_bound. lia.
  - intros i k Hi Hk. change (i < pf_M p) in Hi. pose proof (stored_win h p hs x i k R Hi Hk) as W. cbn zeta in W.
    unfold branch_w, branch_age. change (pf_sample_count (wrapped (stored p x))) with 0. cbn [Nat.ltb Nat.leb].
    change (pf_dly_w (wrapped (stored p x))) with ((pf_dly_w p + 1) mod pf_L p).
    change (pf_L (wrapped (stored p x))) with (pf_L p). change (pf_dly (wrapped (stored p x))) with (pf_dly (stored p x)).
    change (pf_M (wrapped (stored p x))) with (pf_M p). change (dly_stride (wrapped (stored p x))) with (dly_stride p).
    destruct (Nat.leb_spec i (pf_sample_count p)); [|lia]. rewrite W. f_equal. lia.
  - intros i j Hi Hj. by apply (stored_dup h p hs).
Qed.

Lemma fold_left_ext_in {A B} (f g : A -> B -> A) l : forall a, (forall a b, In b l -> f a b = g a b) ->
  fold_left f l a = fold_left g l a.
Proof.
  induction l as [|b l IH]; intros a H; [done|]. cbn. rewrite (H a b) by (by left). apply IH. intros. apply H. by right.
Qed.

Lemma branch_fir_ref h p hs i : crit_rep h p hs -> pf_sample_count p = 0 -> i < pf_M p ->
  branch_fir p i = branch_ref (pf_M p) (pf_L p) h hs i.
Proof.
  intros R Hc Hi. unfold branch_fir, branch_ref. apply fold_left_ext_in. intros acc k Hk. apply in_seq in Hk.
  pose proof (cr_win h p hs R i k Hi ltac:(lia)) as W. unfold branch_w, branch_age in W. rewrite Hc in W.
  cbn [Nat.ltb Nat.leb] in W. rewrite W, (cr_h h p hs R), polyphase_nth by lia. do 3 f_equal.
Qed.

Lemma imap_rotate_0 m l : imap (rotate m 0) l = l.
Proof. apply list_eq. intros i. rewrite list_lookup_imap. by destruct (l !! i). Qed.

(** Changing the oscillator and the counters keeps the history. *)
Lemma crit_rep_same h p q hs : crit_rep h p hs ->
  pf_M q = pf_M p -> pf_L q = pf_L p -> pf_os q = pf_os p -> pf_h_p q = pf_h_p p -> pf_dly q = pf_dly p ->
  pf_dly_w q = pf_dly_w p -> pf_sample_count q = pf_sample_count p -> crit_rep h q hs.
Proof.
  intros [H1 H2 H3 H4 H5 H6 H7 H8 H9] E1 E2 E3 E4 E5 E6 E7.
  split; unfold branch_w, branch_age, dly_stride in *; rewrite ?E1, ?E2, ?E3, ?E4, ?E5, ?E6, ?E7; assumption.
Qed.

Definition warm_after (w : nat) (fired : bool) : nat := if fired then pred w else w.

(** One sample, on either path: the oscillator, the warm-up count and the row. *)
Definition step_ok (M L D : nat) (h : list F) (p q : pfb) (s : C) (hs : list C) (rows : list (list C)) : Prop :=
  let x := nmul s (nco_current p) in
  let fired := length (x :: hs) mod D =? 0 in
  let renew := PFB_NCO_RENORM <=? S (nco_renorm p) in
  let cur := nmul (nco_current p) (nco_phasor p) in
  rows = (if fired && (pf_warmup_remaining p =? 0) then [row_ref M L h (x :: hs)] else []) /\
  pf_warmup_remaining q = warm_after (pf_warmup_remaining p) fired /\
  pf_M q = pf_M p /\ pf_L q = pf_L p /\ pf_os q = pf_os p /\ nco_phasor q = nco_phasor p /\
  nco_current q = (if renew then nco_norm cur else cur) /\ nco_renorm q = (if renew then 0 else S (nco_renorm p)).

Lemma crit_step h p hs s : crit_rep h p hs ->
  crit_rep h (fst (pfb_step p s)) (nmul s (nco_current p) :: hs) /\
  step_ok (pf_M p) (pf_L p) (pf_M p) h p (fst (pfb_step p s)) s hs (snd (pfb_step p s)).
Proof.
  intros R. pose proof R as [HM HL Hos _ _ _ Hc _ _]. unfold pfb_step.
  destruct (Nat.ltb_spec 1 (pf_os p)); [lia|]. destruct (Nat.eqb_spec (pf_M p) 1); [lia|].
  unfold push_sample. set (x := nmul s (nco_current p)). destruct (nco p s) as [x' p1] eqn:En.
  assert (x' = x) as -> by (unfold nco in En; by injection En as <- _).
  assert (R1 : crit_rep h p1 hs) by (unfold nco in En; injection En as <-; by apply (crit_rep_same h p)).
  assert (Fs : pf_M p1 = pf_M p /\ pf_L p1 = pf_L p /\ pf_os p1 = pf_os p /\ pf_sample_count p1 = pf_sample_count p /\
    pf_warmup_remaining p1 = pf_warmup_remaining p /\ nco_phasor p1 = nco_phasor p /\
    nco_current p1 = (if PFB_NCO_RENORM <=? S (nco_renorm p) then nco_norm (nmul (nco_current p) (nco_phasor p))
                      else nmul (nco_current p) (nco_phasor p)) /\
    nco_renorm p1 = (if PFB_NCO_RENORM <=? S (nco_renorm p) then 0 else S (nco_renorm p)))
    by (unfold nco in En; injection En as <-; done).
  destruct Fs as (F1 & F2 & F3 & F4 & F5 & F6 & F7 & F8). clear En. unfold step_ok. fold x.
  change (length (x :: hs)) with (S (length hs)). rewrite mod_S, <- Hc by lia.
  cbn zeta.
  change (pf_sample_count (stored p1 x)) with (S (pf_sample_count p1)). change (pf_M (stored p1 x)) with (pf_M p1).
  rewrite F1, F4. destruct (Nat.eqb_spec (S (pf_sample_count p)) (pf_M p)) as [E|E].
  - destruct (wrapped_rep h p1 hs x R1) as [R2 Z0]; [by rewrite F1, F4|].
    assert (Er : fft (pf_M p) (map (branch_fir (wrapped (stored p1 x))) (seq 0 (pf_M p))) = row_ref (pf_M p) (pf_L p) h (x :: hs)).
    { unfold row_ref. rewrite <- F1, Z0, imap_rotate_0. f_equal. apply map_ext_in. intros i Hi. apply in_seq in Hi.
      rewrite (branch_fir_ref h _ (x :: hs) i R2); [by rewrite <- F2|done|]. change (pf_M (wrapped (stored p1 x))) with (pf_M p1). lia. }
    unfold pfb_one_cycle. change (pf_M (wrapped (stored p1 x))) with (pf_M p1). rewrite F1, Er.
    change (pf_warmup_remaining (wrapped (stored p1 x))) with (pf_warmup_remaining p1). rewrite F5.
    destruct (pf_warmup_remaining p) as [|wr]; cbn [fst snd opt_list Nat.eqb andb warm_after pred].
    + split; [by apply (crit_rep_same h (wrapped (stored p1 x)))|]. split; [done|]. split; [exact F5|].
      split; [exact F1|]. split; [exact F2|]. split; [exact F3|]. split; [exact F6|]. split; [exact F7|exact F8].
    + split; [by apply (crit_rep_same h (wrapped (stored p1 x)))|]. split; [done|]. split; [done|].
      split; [exact F1|]. split; [exact F2|]. split; [exact F3|]. split; [exact F6|]. split; [exact F7|exact F8].
  - cbn [Nat.eqb fst snd andb warm_after]. split; [apply stored_rep; [done|by rewrite F1, F4]|]. split; [done|]. split; [exact F5|].
    split; [exact F1|]. split; [exact F2|]. split; [exact F3|]. split; [exact F6|]. split; [exact F7|exact F8].
Qed.

(** A path that steps this way produces the reference. *)
Lemma process_due (rep : pfb -> list C -> Prop) M L D h :
  (forall p hs s, rep p hs -> rep (fst (pfb_step p s)) (nmul s (nco_current p) :: hs) /\
     step_ok M L D h p (fst (pfb_step p s)) s hs (snd (pfb_step p s))) ->
  forall l p hs, rep p hs ->
  snd (pfb_process p l) = rows_due M L D h hs (pf_warmup_remaining p) (nco_mix (nco_phasor p) (nco_current p) (nco_renorm p) l).
Proof.
  intros Hstep. induction l as [|s l IH]; intros p hs R; [done|]. cbn [pfb_process nco_mix rows_due].
  destruct (Hstep p hs s R) as [R' (E1 & E2 & _ & _ & _ & E3 & E4 & E5)].
  destruct (pfb_step p s) as [q rows]. cbn [fst snd] in *. specialize (IH q _ R').
  destruct (pfb_process q l) as [q' rows']. cbn [snd] in *. rewrite IH, E1, E2, E3, E4, E5.
  destruct (length (nmul s (nco_current p) :: hs) mod D =? 0); cbn [andb warm_after app]; [|done].
  by destruct (pf_warmup_remaining p).
Qed.

(** ** The oversampled path computes the reference *)

Record os_rep (h : list F) (p : pfb) (hs : list C) : Prop := {
  or_os : 1 < pf_os p;
  or_M : 0 < pf_M p;
  or_div : pf_M p mod pf_os p = 0;
  or_L : 2 <= pf_L p;
  or_h : pf_h_p p = polyphase (pf_M p) (pf_L p) h;
  or_len : length (pf_hist p) = hist_cap p;
  or_w : pf_hist_w p < hist_cap p;
  or_total : pf_total_in p = Z.of_nat (length hs);
  or_win : forall back, back < hist_cap p ->
    nth ((pf_hist_w p + hist_cap p - 1 - back) mod hist_cap p) (pf_hist p) pzero = nth back hs pzero;
}.

Lemma wrap_sub n w back : w < n -> back < n -> (w + n - 1 - back) mod n = if back <? w then w - 1 - back else w + n - 1 - back.
Proof.
  intros Hw Hb. destruct (Nat.ltb_spec back w).
  - replace (w + n - 1 - back) with (w - 1 - back + 1 * n) by lia. rewrite Nat.Div0.mod_add. apply Nat.mod_small. lia.
  - apply Nat.mod_small. lia.
Qed.

Lemma hist_index w back cap : w < cap -> back < cap ->
  let hpos := Z.rem (Z.of_nat w - 1 - Z.of_nat back) (Z.of_nat cap) in
  Z.to_nat (if (hpos <? 0)%Z then hpos + Z.of_nat cap else hpos)%Z = (w + cap - 1 - back) mod cap.
Proof.
  intros Hw Hb. cbn zeta. rewrite wrap_sub by done. destruct (Nat.ltb_spec back w) as [H|H].
  - rewrite Z.rem_small by lia. destruct (Z.ltb_spec (Z.of_nat w - 1 - Z.of_nat back) 0); lia.
  - destruct (Nat.eq_dec (back + 1) (w + cap)) as [E|E].
    + replace (Z.of_nat w - 1 - Z.of_nat back)%Z with (- Z.of_nat cap)%Z by lia.
      rewrite Z.rem_opp_l, Z.rem_same by lia. change (0 = w + cap - 1 - back). lia.
    + replace (Z.of_nat w - 1 - Z.of_nat back)%Z with (- (Z.of_nat back + 1 - Z.of_nat w))%Z by lia.
      rewrite Z.rem_opp_l, Z.rem_small by lia.
      destruct (Z.ltb_spec (- (Z.of_nat back + 1 - Z.of_nat w)) 0); lia.
Qed.

Lemma os_fir_ref h p hs i : os_rep h p hs -> i < pf_M p -> forall n k acc, k + n = pf_L p ->
  os_fir p i k n acc =
  fold_left (fun acc k => padd acc (pscale (nth (pf_M p - 1 - i + k * pf_M p) hs pzero) (nth (k * pf_M p + i) h fzero)))
    (seq k n) acc.
Proof.
  intros R Hi. pose proof R as [_ HM _ HL Hh _ Hw _ Hwin].
  induction n as [|n IH]; intros k acc Hk; [done|]. cbn [os_fir seq fold_left].
  assert (Hb : pf_M p - 1 - i + k * pf_M p < hist_cap p) by (unfold hist_cap; nia).
  destruct (Nat.leb_spec (hist_cap p) (pf_M p - 1 - i + k * pf_M p)); [lia|].
  rewrite (hist_index (pf_hist_w p) (pf_M p - 1 - i + k * pf_M p) (hist_cap p)) by done.
  rewrite Hwin, Hh, polyphase_nth by lia. apply IH. lia.
Qed.

Lemma os_shift_ref h p hs : os_rep h p hs -> os_shift p = length hs mod pf_M p.
Proof.
  intros R. pose proof R as [_ HM _ _ _ _ _ Ht _]. unfold os_shift. rewrite Ht.
  replace (Z.of_nat (length hs) - 1 - (Z.of_nat (pf_M p) - 1))%Z with (Z.of_nat (length hs) - Z.of_nat (pf_M p))%Z by lia.
  rewrite Z.rem_mod_nonneg.
  - rewrite <- (Nat2Z.id (length hs mod pf_M p)), Nat2Z.inj_mod. f_equal.
    replace (Z.of_nat (length hs)) with (Z.of_nat (length hs) - Z.of_nat (pf_M p) + 1 * Z.of_nat (pf_M p))%Z at 2 by lia.
    rewrite Z_mod_plus_full.
    pose proof (Z.quot_rem' (Z.of_nat (length hs) - Z.of_nat (pf_M p)) (Z.of_nat (pf_M p))) as E.
    set (q := Z.quot _ _) in E. set (r := Z.rem _ _) in *. rewrite E.
    replace (Z.of_nat (pf_M p) * q + r)%Z with (r + q * Z.of_nat (pf_M p))%Z by lia. rewrite Z_mod_plus_full.
    replace (r + Z.of_nat (pf_M p))%Z with (r + 1 * Z.of_nat (pf_M p))%Z by lia. apply Z_mod_plus_full.
  - pose proof (Z.rem_bound_abs (Z.of_nat (length hs) - Z.of_nat (pf_M p)) (Z.of_nat (pf_M p)) ltac:(lia)). lia.
  - lia.
Qed.

Lemma recorded_rep h p hs x : os_rep h p hs -> os_rep h (recorded p x) (x :: hs).
Proof.
  intros R. pose proof R as [Ho HM Hd HL Hh Hlen Hw Ht Hwin]. split; try done.
  - change (length (<[pf_hist_w p := x]> (pf_hist p)) = hist_cap p). by rewrite length_insert.
  - change ((pf_hist_w p + 1) mod hist_cap p < hist_cap p). apply Nat.mod_upper_bound. lia.
  - change (pf_total_in p + 1 = Z.of_nat (S (length hs)))%Z. lia.
  - intros back Hb. change (back < hist_cap p) in Hb. change (hist_cap (recorded p x)) with (hist_cap p).
    change (pf_hist_w (recorded p x)) with ((pf_hist_w p + 1) mod hist_cap p).
    change (pf_hist (recorded p x)) with (<[pf_hist_w p := x]> (pf_hist p)).
    rewrite nth_insert by lia. rewrite wrap_sub by (try apply Nat.mod_upper_bound; lia). rewrite next_w by done.
    destruct back as [|back].
    + destruct (Nat.eqb_spec (S (pf_hist_w p)) (hist_cap p)) as [E|E].
      * cbn [Nat.ltb Nat.leb]. destruct (Nat.eqb_spec (0 + hist_cap p - 1 - 0) (pf_hist_w p)); [done|lia].
      * cbn [Nat.ltb Nat.leb]. destruct (Nat.eqb_spec (S (pf_hist_w p) - 1 - 0) (pf_hist_w p)); [done|lia].
    + cbn [nth]. rewrite <- (Hwin back) by lia. rewrite wrap_sub by lia.
      destruct (Nat.eqb_spec (S (pf_hist_w p)) (hist_cap p)) as [E|E].
      * destruct (Nat.ltb_spec (S back) 0); [lia|]. destruct (Nat.ltb_spec back (pf_hist_w p)); [|lia].
        destruct (Nat.eqb_spec (0 + hist_cap p - 1 - S back) (pf_hist_w p)); [lia|]. f_equal. lia.
      * destruct (Nat.ltb_spec (S back) (S (pf_hist_w p))), (Nat.ltb_spec back (pf_hist_w p)); try lia.
        -- destruct (Nat.eqb_spec (S (pf_hist_w p) - 1 - S back) (pf_hist_w p)); [lia|]. f_equal. lia.
        -- destruct (Nat.eqb_spec (S (pf_hist_w p) + hist_cap p - 1 - S back) (pf_hist_w p)); [lia|]. f_equal. lia.
Qed.

Lemma os_rep_same h p q hs : os_rep h p hs ->
  pf_M q = pf_M p -> pf_L q = pf_L p -> pf_os q = pf_os p -> pf_h_p q = pf_h_p p -> pf_hist q = pf_hist p ->
  pf_hist_w q = pf_hist_w p -> pf_total_in q = pf_total_in p -> os_rep h q hs.
Proof.
  intros [H1 H2 H3 H4 H5 H6 H7 H8 H9] E1 E2 E3 E4 E5 E6 E7.
  split; unfold hist_cap in *; rewrite ?E1, ?E2, ?E3, ?E4, ?E5, ?E6, ?E7; assumption.
Qed.

Lemma os_step h p hs s : os_rep h p hs ->
  os_rep h (fst (pfb_step p s)) (nmul s (nco_current p) :: hs) /\
  step_ok (pf_M p) (pf_L p) (pf_M p / pf_os p) h p (fst (pfb_step p s)) s hs (snd (pfb_step p s)).
Proof.
  intros R. unfold pfb_step. pose proof (or_os h p hs R). destruct (Nat.ltb_spec 1 (pf_os p)); [|lia].
  unfold push_sample_os. set (x := nmul s (nco_current p)). destruct (nco p s) as [x' p1] eqn:En.
  assert (x' = x) as -> by (unfold nco in En; by injection En as <- _).
  assert (R1 : os_rep h (recorded p1 x) (x :: hs)).
  { apply recorded_rep. unfold nco in En. injection En as <-. by apply (os_rep_same h p). }
  assert (Fs : pf_M p1 = pf_M p /\ pf_L p1 = pf_L p /\ pf_os p1 = pf_os p /\
    pf_warmup_remaining p1 = pf_warmup_remaining p /\ nco_phasor p1 = nco_phasor p /\
    nco_current p1 = (if PFB_NCO_RENORM <=? S (nco_renorm p) then nco_norm (nmul (nco_current p) (nco_phasor p))
                      else nmul (nco_current p) (nco_phasor p)) /\
    nco_renorm p1 = (if PFB_NCO_RENORM <=? S (nco_renorm p) then 0 else S (nco_renorm p)))
    by (unfold nco in En; injection En as <-; done).
  destruct Fs as (F1 & F2 & F3 & F5 & F6 & F7 & F8). clear En. cbn zeta. unfold step_ok. fold x.
  change (pf_M (recorded p1 x)) with (pf_M p1). change (pf_os (recorded p1 x)) with (pf_os p1). rewrite F1, F3.
  rewrite (or_total h _ _ R1).
  assert (Ef : (Z.rem (Z.of_nat (length (x :: hs))) (Z.of_nat (pf_M p / pf_os p)) =? 0)%Z =
               (length (x :: hs) mod (pf_M p / pf_os p) =? 0)).
  { rewrite Z.rem_mod_nonneg, <- Nat2Z.inj_mod.
    - destruct (Nat.eqb_spec (length (x :: hs) mod (pf_M p / pf_os p)) 0) as [->|E]; [done|].
      apply Z.eqb_neq. lia.
    - lia.
    - pose proof (or_M h p hs R). pose proof (or_div h p hs R) as Hd.
      enough (1 <= pf_M p / pf_os p) by lia. apply Nat.div_le_lower_bound; [lia|].
      destruct (Nat.le_gt_cases (pf_os p) (pf_M p)); [lia|]. rewrite Nat.mod_small in Hd by lia. lia. }
  rewrite Ef. destruct (length (x :: hs) mod (pf_M p / pf_os p) =? 0).
  - assert (Er : imap (rotate (pf_M p) (os_shift (recorded p1 x)))
        (fft (pf_M p) (map (fun i => os_fir (recorded p1 x) i 0 (pf_L p) pzero) (seq 0 (pf_M p)))) =
      row_ref (pf_M p) (pf_L p) h (x :: hs)).
    { unfold row_ref. rewrite (os_shift_ref h _ _ R1). change (pf_M (recorded p1 x)) with (pf_M p1). rewrite F1. do 2 f_equal.
      apply map_ext_in. intros i Hi. apply in_seq in Hi. unfold branch_ref.
      assert (EM : pf_M (recorded p1 x) = pf_M p) by exact F1. assert (EL : pf_L (recorded p1 x) = pf_L p) by exact F2.
      rewrite (os_fir_ref h _ (x :: hs) i R1); rewrite ?EM, ?EL; [done|lia|lia]. }
    unfold pfb_cycle_os. change (pf_M (recorded p1 x)) with (pf_M p1). change (pf_L (recorded p1 x)) with (pf_L p1).
    rewrite F1, F2, Er. change (pf_warmup_remaining (recorded p1 x)) with (pf_warmup_remaining p1). rewrite F5.
    destruct (pf_warmup_remaining p) as [|wr]; cbn [fst snd opt_list Nat.eqb andb warm_after pred].
    + split; [by apply (os_rep_same h (recorded p1 x))|]. split; [done|]. split; [exact F5|].
      split; [exact F1|]. split; [exact F2|]. split; [exact F3|]. split; [exact F6|]. split; [exact F7|exact F8].
    + split; [by apply (os_rep_same h (recorded p1 x))|]. split; [done|]. split; [done|].
      split; [exact F1|]. split; [exact F2|]. split; [exact F3|]. split; [exact F6|]. split; [exact F7|exact F8].
  - cbn [fst snd andb warm_after]. split; [exact R1|]. split; [done|]. split; [exact F5|].
    split; [exact F1|]. split; [exact F2|]. split; [exact F3|]. split; [exact F6|]. split; [exact F7|exact F8].
Qed.

(** ** From creation on *)

Lemma nth_replicate_zero n i : nth i (replicate n pzero) pzero = pzero.
Proof. rewrite nth_lookup. destruct (replicate n pzero !! i) eqn:E; [|done]. by apply lookup_replicate in E as [-> _]. Qed.

Lemma created M L phasor rate_ok os p : pfb_create_os M L phasor rate_ok os = Some p ->
  (1 <= M)%Z /\ (2 <= L)%Z /\ pf_M p = Z.to_nat M /\ pf_L p = Z.to_nat L /\ pf_os p = Z.to_nat (Z.max 1 os) /\
  pf_M p mod pf_os p = 0 /\
  pf_warmup_remaining p = ((pf_L p - 1) / 2 + 1) * pf_os p /\
  nco_phasor p = phasor /\ nco_current p = pone /\ nco_renorm p = 0 /\
  (if 1 <? pf_os p then os_rep (prototype (pf_M p) (pf_L p)) p []
   else 1 < pf_M p -> crit_rep (prototype (pf_M p) (pf_L p)) p []).
Proof.
  unfold pfb_create_os. set (o := if (os <? 1)%Z then 1%Z else os).
  assert (Eo : o = Z.max 1 os) by (unfold o; destruct (Z.ltb_spec os 1); lia).
  destruct ((1 <? o)%Z && negb (Z.rem M o =? 0)%Z) eqn:Ed; [done|]. unfold pfb_create.
  destruct (Z.ltb_spec M 1); [done|]. destruct (Z.ltb_spec L 2); [done|]. destruct rate_ok; [|done]. cbn [orb negb].
  destruct (Z.eqb_spec o 1) as [E1|E1].
  - intros Hp. apply (inj Some) in Hp as <-. rewrite <- Eo, E1. cbn [pf_M pf_L pf_os pf_warmup_remaining nco_phasor nco_current nco_renorm].
    do 5 (split; [done|]). split; [apply Nat.mod_1_r|]. split; [cbn; lia|]. do 3 (split; [done|]).
    intros HM. split; cbn [pf_M pf_L pf_os pf_h_p pf_dly pf_dly_w pf_sample_count]; try done; try lia.
    + rewrite length_replicate. unfold dly_stride. cbn [pf_L]. lia.
    + by rewrite Nat.Div0.mod_0_l.
    + intros i k Hi Hk. rewrite nth_replicate_zero. by destruct (_ + _ * _).
    + intros i j Hi Hj. by rewrite !nth_replicate_zero.
  - intros Hp. apply (inj Some) in Hp as <-. rcbn. rewrite <- Eo.
    assert (Hrem : Z.rem M o = 0%Z).
    { destruct (Z.ltb_spec 1 o); [|lia]. destruct (Z.eqb_spec (Z.rem M o) 0); [done|discriminate Ed]. }
    assert (Hmod : Z.to_nat M mod Z.to_nat o = 0).
    { rewrite Z.rem_mod_nonneg in Hrem by lia. rewrite <- Z2Nat.inj_mod, Hrem by lia. done. }
    do 5 (split; [done|]). split; [exact Hmod|]. do 4 (split; [done|]).
    destruct (Nat.ltb_spec 1 (Z.to_nat o)); [|lia]. split; rcbn; try done; try lia.
    + by rewrite length_replicate.
    + unfold hist_cap. rcbn. nia.
    + intros back Hb. rewrite nth_replicate_zero. by destruct back.
Qed.

(** Batches: cutting the input anywhere changes nothing. *)
Lemma pfb_process_app a : forall p b,
  pfb_process p (a ++ b) =
  let '(p1, r1) := pfb_process p a in let '(p2, r2) := pfb_process p1 b in (p2, r1 ++ r2).
Proof.
  induction a as [|s a IH]; intros p b; cbn [pfb_process app]; [by destruct (pfb_process p b)|].
  destruct (pfb_step p s) as [p1 r]. rewrite IH. destruct (pfb_process p1 a) as [p2 r2].
  destruct (pfb_process p2 b) as [p3 r3]. by rewrite app_assoc.
Qed.

(** Both paths emit, operation for operation, the rows of the reference past
    the warm-up. *)
Lemma pfb_rows M L phasor rate_ok os p l : pfb_create_os M L phasor rate_ok os = Some p ->
  1 < pf_os p \/ 1 < pf_M p ->
  snd (pfb_process p l) =
  drop (((pf_L p - 1) / 2 + 1) * pf_os p)
    (rows_ref (pf_M p) (pf_L p) (pf_M p / pf_os p) (prototype (pf_M p) (pf_L p)) (nco_mix phasor pone 0 l)).
Proof.
  intros Hc Hpath. destruct (created _ _ _ _ _ _ Hc) as (HM1 & _ & EM & EL & Eo & Hd & Hw & E1 & E2 & E3 & Hrep).
  set (h := prototype (pf_M p) (pf_L p)) in *. rewrite <- Hw, <- E1, <- E2, <- E3.
  set (m := pf_M p) in *. set (n := pf_L p) in *.
  assert (HD : 0 < m / pf_os p).
  { apply Nat.div_str_pos. rewrite Eo in *. split; [lia|].
    destruct (Nat.le_gt_cases (Z.to_nat (Z.max 1 os)) m); [done|]. rewrite Nat.mod_small in Hd; lia. }
  assert (Hdue : snd (pfb_process p l) =
    rows_due m n (m / pf_os p) h [] (pf_warmup_remaining p) (nco_mix (nco_phasor p) (nco_current p) (nco_renorm p) l)).
  { destruct (Nat.ltb_spec 1 (pf_os p)) as [Ho|Ho].
    - apply (process_due (fun q hs => os_rep h q hs /\ pf_M q = m /\ pf_L q = n /\ pf_os q = pf_os p)); [|done].
      intros q hs s (R & <- & <- & <-). destruct (os_step h q hs s R) as [R' S']. split; [|exact S'].
      destruct S' as (_ & _ & F1 & F2 & F3 & _). done.
    - assert (Hm1 : 1 < m) by lia. specialize (Hrep Hm1).
      assert (EO : pf_os p = 1) by lia. rewrite EO, Nat.div_1_r.
      apply (process_due (fun q hs => crit_rep h q hs /\ pf_M q = m /\ pf_L q = n)); [|done].
      intros q hs s (R & <- & <-). destruct (crit_step h q hs s R) as [R' S']. split; [|exact S'].
      destruct S' as (_ & _ & F1 & F2 & _). done. }
  rewrite Hdue, rows_due_warm. f_equal. unfold rows_ref.
  rewrite (rows_due_ref m n _ h HD _ _ [] (Nat.Div0.mod_0_l _) eq_refl). apply map_ext. intros j. by rewrite app_nil_r.
Qed.
End Pfb.

(** ** What a bin is, in exact arithmetic *)

Section Exact.
Context {R F : Type} `{ops : PfbOps R F} (rsub : R -> R -> R) (ropp : R -> R).
Hypothesis Rth : ring_theory pzero pone padd nmul rsub ropp eq.
Add Ring Rring : Rth.

Fixpoint rpow (x : R) (n : nat) : R := match n with 0 => pone | S n => nmul x (rpow x n) end.
Fixpoint sumn (n : nat) (f : nat -> R) : R := match n with 0 => pzero | S n => padd (sumn n f) (f n) end.

Lemma rpow_add x a b : rpow x (a + b) = nmul (rpow x a) (rpow x b).
Proof. induction a as [|a IH]; cbn [rpow Nat.add]; [ring|]. rewrite IH. ring. Qed.

Lemma rpow_mul_one x a b : rpow x a = pone -> rpow x (b * a) = pone.
Proof. intros H. induction b as [|b IH]; [done|]. cbn [Nat.mul]. rewrite rpow_add, IH, H. ring. Qed.

Lemma sumn_ext n f g : (forall i, i < n -> f i = g i) -> sumn n f = sumn n g.
Proof. induction n as [|n IH]; intros H; [done|]. cbn [sumn]. rewrite IH by (intros; apply H; lia). by rewrite H by lia. Qed.

Lemma sumn_scale n f c : nmul (sumn n f) c = sumn n (fun i => nmul (f i) c).
Proof. induction n as [|n IH]; cbn [sumn]; [ring|]. rewrite <- IH. ring. Qed.

Lemma sumn_add n f g : padd (sumn n f) (sumn n g) = sumn n (fun i => padd (f i) (g i)).
Proof. induction n as [|n IH]; cbn [sumn]; [ring|]. rewrite <- IH. ring. Qed.

Lemma sumn_zero n : sumn n (fun _ => pzero) = pzero.
Proof. induction n as [|n IH]; cbn [sumn]; [done|]. rewrite IH. ring. Qed.

Lemma sumn_first n f : sumn (S n) f = padd (f 0) (sumn n (fun i => f (S i))).
Proof. induction n as [|n IH]; [cbn [sumn]; ring|]. cbn [sumn] in *. rewrite IH. ring. Qed.

Lemma sumn_rev n f : sumn n f = sumn n (fun i => f (n - 1 - i)).
Proof.
  revert f. induction n as [|n IH]; intros f; [done|]. rewrite sumn_first, (IH (fun i => f (S i))). cbn [sumn].
  rewrite (sumn_ext n (fun i => f (S (n - 1 - i))) (fun i => f (S n - 1 - i))) by (intros; f_equal; lia).
  replace (S n - 1 - n) with 0 by lia. ring.
Qed.

Lemma sumn_swap m n f : sumn m (fun i => sumn n (f i)) = sumn n (fun j => sumn m (fun i => f i j)).
Proof.
  induction m as [|m IH]; cbn [sumn]; [by rewrite sumn_zero|]. rewrite IH. apply sumn_add.
Qed.

Lemma sumn_split a b f : sumn (a + b) f = padd (sumn a f) (sumn b (fun i => f (a + i))).
Proof.
  induction b as [|b IH]; [rewrite Nat.add_0_r; cbn [sumn]; ring|]. rewrite Nat.add_succ_r. cbn [sumn]. rewrite IH. ring.
Qed.

Lemma sumn_blocks l m f : sumn (l * m) f = sumn l (fun k => sumn m (fun j => f (k * m + j))).
Proof.
  induction l as [|l IH]; [done|]. replace (S l * m) with (l * m + m) by lia. rewrite sumn_split, IH. done.
Qed.

Lemma fold_sumn (f : nat -> R) n : fold_left (fun acc k => padd acc (f k)) (seq 0 n) pzero = sumn n f.
Proof.
  induction n as [|n IH]; [done|]. rewrite seq_S, fold_left_app, IH. cbn [fold_left sumn]. done.
Qed.

(** The coefficients as ring elements, a primitive rotation [w] (that of
    [exp(-2 pi j / M)]), and what FFTW and libm compute for it. *)
Context (emb : F -> R) (w : R) (M L : nat).
Hypothesis scale_emb : forall x f, pscale x f = nmul x (emb f).
Hypothesis root : rpow w M = pone.
Hypothesis fft_dft : forall y, length y = M ->
  fft M y = map (fun b => sumn M (fun i => nmul (nth i y pzero) (rpow w (b * i)))) (seq 0 M).
Hypothesis twiddle_pow : forall b s, b < M -> s < M -> twiddle b s M = rpow w (b * s).

(** The stream tuned to bin [b]: sample [s] rotated by [w ^ (b * s)]. *)
Definition tuned (b : nat) (xs : list R) : list R := imap (fun s x => nmul x (rpow w (b * s))) xs.

(** A filter with coefficients [g], newest sample first. *)
Definition fir_sum (g : nat -> R) (n : nat) (hs : list R) : R := sumn n (fun i => nmul (nth i hs pzero) (g i)).

(** The filter the bank applies: the prototype with each block of [M]
    coefficients in reverse order. *)
Definition applied (h : list F) (n : nat) : R := emb (nth (n / M * M + (M - 1 - n mod M)) h fzero).

(** The down-converter of bin [b]: tune, filter, keep one output in [D]. *)
Definition down_converted (b D : nat) (h : list F) (xs : list R) : list R :=
  map (fun j => fir_sum (applied h) (L * M) (rev (take (S j * D) (tuned b xs)))) (seq 0 (length xs / D)).

Lemma rpow_cong b x y : 0 < M -> x mod M = y mod M -> rpow w (b * x) = rpow w (b * y).
Proof.
  intros HM E.
  assert (G : forall z, rpow w (b * z) = rpow w (b * (z mod M))).
  { intros z. rewrite (Nat.div_mod_eq z M) at 1. replace (b * (M * (z / M) + z mod M)) with (b * (z / M) * M + b * (z mod M)) by lia.
    rewrite rpow_add, rpow_mul_one by done. ring. }
  by rewrite (G x), (G y), E.
Qed.

Lemma nth_tuned b xs t n : t <= length xs ->
  nth n (rev (take t (tuned b xs))) pzero =
  if n <? t then nmul (nth n (rev (take t xs)) pzero) (rpow w (b * (t - 1 - n))) else pzero.
Proof.
  intros Ht. assert (Hl : length (take t (tuned b xs)) = t) by (unfold tuned; rewrite length_take, length_imap; lia).
  assert (Hl' : length (take t xs) = t) by (rewrite length_take; lia).
  destruct (Nat.ltb_spec n t).
  - rewrite !rev_nth by lia. rewrite Hl, Hl'. replace (t - S n) with (t - 1 - n) by lia. rewrite !nth_lookup, !lookup_take_lt by lia.
    unfold tuned. rewrite list_lookup_imap. destruct (xs !! (t - 1 - n)) eqn:E; [done|].
    apply lookup_ge_None in E. lia.
  - apply nth_overflow. rewrite length_rev. lia.
Qed.

(** One output of a bin, before the rotation is folded in. *)
Lemma row_bin h hs b : 0 < M -> b < M ->
  nth b (row_ref M L h hs) pzero =
  sumn L (fun k => sumn M (fun i =>
    nmul (nmul (nth (M - 1 - i + k * M) hs pzero) (emb (nth (k * M + i) h fzero))) (rpow w (b * (length hs mod M + i))))).
Proof.
  intros HM Hb. unfold row_ref. rewrite fft_dft by (rewrite length_map, length_seq; done).
  rewrite nth_lookup, list_lookup_imap, list_lookup_fmap, lookup_seq_lt by done. cbn [fmap option_fmap option_map default from_option].
  assert (Er : forall y, rotate M (length hs mod M) b y = nmul y (rpow w (b * (length hs mod M)))).
  { intros y. unfold rotate. destruct (Nat.eqb_spec (length hs mod M) 0) as [->|E].
    - rewrite Nat.mul_0_r. cbn [rpow]. ring.
    - rewrite twiddle_pow; [done|done|]. apply Nat.mod_upper_bound. lia. }
  cbn. rewrite Er, sumn_scale, sumn_swap. apply sumn_ext. intros i Hi.
  rewrite nth_lookup, list_lookup_fmap, lookup_seq_lt by done. cbn. unfold branch_ref.
  rewrite (fold_left_ext_in _ (fun acc k => padd acc (nmul (nth (M - 1 - i + k * M) hs pzero) (emb (nth (k * M + i) h fzero)))))
    by (intros; by rewrite scale_emb).
  rewrite fold_sumn, !sumn_scale. apply sumn_ext. intros k Hk. rewrite Nat.mul_add_distr_l, rpow_add. ring.
Qed.

Lemma row_is_down_converted h xs b t : 0 < M -> b < M -> t <= length xs ->
  nth b (row_ref M L h (rev (take t xs))) pzero = fir_sum (applied h) (L * M) (rev (take t (tuned b xs))).
Proof.
  intros HM Hb Ht. rewrite row_bin by done. unfold fir_sum. rewrite sumn_blocks. apply sumn_ext. intros k Hk.
  rewrite sumn_rev. apply sumn_ext. intros j Hj.
  rewrite nth_tuned by done. rewrite length_rev, length_take, Nat.min_l by done.
  unfold applied. rewrite Nat.div_add_l, (Nat.div_small j M), Nat.add_0_r by lia.
  rewrite (Nat.add_comm (k * M) j), Nat.Div0.mod_add, (Nat.mod_small j M) by lia.
  replace (M - 1 - (M - 1 - j) + k * M) with (j + k * M) by lia. destruct (Nat.ltb_spec (j + k * M) t) as [H|H].
  - rewrite (rpow_cong b (t mod M + (M - 1 - j)) (t - 1 - (j + k * M))); [ring|done|].
    rewrite Nat.Div0.add_mod_idemp_l. replace (t + (M - 1 - j)) with (t - 1 - (j + k * M) + (S k) * M) by lia.
    by rewrite Nat.Div0.mod_add.
  - rewrite (nth_overflow (rev (take t xs))) by (rewrite length_rev, length_take; lia). ring.
Qed.

(** C31: the filter bank is a bank of down-converters.  In exact arithmetic,
    with FFTW computing the discrete Fourier transform, every output bin of
    both paths, critically sampled and oversampled, is the pre-shifted input
    tuned to the bin's frequency, filtered over silence and kept once in
    M / os samples, less the outputs of the warm-up; the duplicated reverse
    rings, the history ring, the commutator, the transform and the twiddle
    are invisible.  The filter applied is the prototype with every block of
    M coefficients reversed. *)
Theorem pfb_bin_is_down_converter phasor rate_ok os p l b :
  pfb_create_os (Z.of_nat M) (Z.of_nat L) phasor rate_ok os = Some p -> 1 < M -> b < M ->
  map (fun row => nth b row pzero) (snd (pfb_process p l)) =
  drop (((L - 1) / 2 + 1) * pf_os p)
    (down_converted b (M / pf_os p) (prototype M L) (nco_mix phasor pone 0 l)).
Proof.
  intros Hc HM Hb. destruct (created _ _ _ _ _ _ Hc) as (_ & _ & EM & EL & Eo & Hd & _).
  rewrite Nat2Z.id in EM, EL. rewrite (pfb_rows _ _ _ _ _ p l Hc) by (right; lia). rewrite EM, EL in *.
  change (map ?f (drop ?n ?x)) with (f <$> drop n x). rewrite fmap_drop. f_equal.
  unfold rows_ref, down_converted. change (?f <$> map ?g ?x) with (map f (map g x)). rewrite map_map. apply map_ext_in.
  intros j Hj. apply in_seq in Hj. apply row_is_down_converted; [lia|done|].
  set (D := M / pf_os p) in *. assert (0 < D).
  { apply Nat.div_str_pos. split; [lia|]. destruct (Nat.le_gt_cases (pf_os p) M); [done|].
    rewrite Nat.mod_small in Hd; lia. }
  pose proof (Nat.Div0.mul_div_le (length (nco_mix phasor pone 0 l)) D). nia.
Qed.
End Exact.

(** ** Concrete banks over the integers: two channels, rotation by -1 *)

Fixpoint z_sum (n : nat) (f : nat -> Z) : Z := match n with 0 => 0%Z | S n => (z_sum n f + f n)%Z end.
Definition z_sign (n : nat) : Z := if Nat.even n then 1%Z else (-1)%Z.

#[export] Instance z_pfb : PfbOps Z Z :=
  {| pzero := 0%Z; pone := 1%Z; fzero := 0%Z; nmul := Z.mul; padd := Z.add; pscale := Z.mul; nco_norm x := x;
     fft m y := map (fun b => z_sum m (fun i => nth i y 0 * z_sign (b * i))%Z) (seq 0 m);
     twiddle b s _ := z_sign (b * s); prototype _ _ := [1; 3; 3; 1]%Z |}.

Lemma z_sign_pow n : z_sign n = rpow (-1)%Z n.
Proof.
  induction n as [|n IH]; [done|]. cbn [rpow nmul z_pfb]. rewrite <- IH. unfold z_sign. rewrite Nat.even_succ, <- Nat.negb_even.
  by destruct (Nat.even n).
Qed.

Lemma z_sum_sumn n f : z_sum n f = sumn n f.
Proof. induction n as [|n IH]; [done|]. cbn [z_sum sumn padd z_pfb]. by rewrite IH. Qed.

(** Bin 1 of an oversampled bank of two channels with four coefficients. *)
Lemma pfb_bin_is_down_converter_witness :
  exists p, pfb_create_os 2 2 1%Z true 2 = Some p /\
  map (fun row => nth 1 row 0%Z) (snd (pfb_process p [0; 0; 1; 5; 0; 0]%Z)) = [3; -14; -4; -2]%Z.
Proof.
  eexists. split; [reflexivity|].
  refine (eq_trans (pfb_bin_is_down_converter Z.sub Z.opp InitialRing.Zth (fun f => f) (-1)%Z 2 2 _ _ _ _ 1%Z true 2%Z _
    [0; 0; 1; 5; 0; 0]%Z 1 eq_refl _ _) _).
  - reflexivity.
  - reflexivity.
  - intros y _. cbn [fft z_pfb]. apply map_ext. intros b. rewrite z_sum_sumn. apply sumn_ext. intros i _.
    cbn [nmul z_pfb]. by rewrite z_sign_pow.
  - intros b s _ _. apply z_sign_pow.
  - lia.
  - lia.
  - vm_compute. reflexivity.
Defined.

(** The response of the bank to an impulse is not the prototype it was
    designed with but the prototype in reversed blocks, even for a symmetric
    prototype: branch [i] holds the sample that is [M - 1 - i] places back and
    weighs it with coefficient [i]. *)
Theorem prototype_blocks_reversed :
  prototype 2 2 = [1; 3; 3; 1]%Z /\
  exists p, pfb_create_os 2 2 1%Z true 2 = Some p /\
    map (fun row => nth 0 row 0%Z) (snd (pfb_process p [0; 0; 1; 0; 0; 0]%Z)) = [3; 1; 1; 3]%Z.
Proof. split; [reflexivity|]. eexists. split; [reflexivity|]. vm_compute. reflexivity. Qed.
