(* ===== verification/CountedQueue.v ===== *)
(** A bounded queue in an array with a head, a tail and a count, as the sink
    workers of src/pfb.c use it: a full queue makes the producer wait. *)

From S2P Require Import Prelude.

Section Queue.
Context {A : Type}.

Record cqueue := mk_cqueue { cq_slots : list A; cq_head : nat; cq_tail : nat; cq_size : nat }.

Definition cq_cap (q : cqueue) : nat := length (cq_slots q).
Definition cq_create (zero : A) (cap : nat) : cqueue := mk_cqueue (replicate cap zero) 0 0 0.

(** [None]: the queue is full. *)
Definition cq_push (q : cqueue) (x : A) : option cqueue :=
  if cq_size q =? cq_cap q then None
  else Some (mk_cqueue (<[cq_tail q := x]> (cq_slots q)) (cq_head q) ((cq_tail q + 1) mod cq_cap q) (S (cq_size q))).

(** [None]: the queue is empty. *)
Definition cq_pop (q : cqueue) : option (A * cqueue) :=
  if cq_size q =? 0 then None
  else match cq_slots q !! cq_head q with
       | Some x => Some (x, mk_cqueue (cq_slots q) ((cq_head q + 1) mod cq_cap q) (cq_tail q) (cq_size q - 1))
       | None => None
       end.

(** The elements waiting, oldest first. *)
Definition cq_list (q : cqueue) : list A :=
  omap (fun i => cq_slots q !! ((cq_head q + i) mod cq_cap q)) (seq 0 (cq_size q)).

Record cq_ok (q : cqueue) : Prop := {
  cq_cap_pos : 0 < cq_cap q;
  cq_head_lt : cq_head q < cq_cap q;
  cq_size_le : cq_size q <= cq_cap q;
  cq_tail_eq : cq_tail q = (cq_head q + cq_size q) mod cq_cap q;
}.

Lemma cq_create_ok zero cap : 0 < cap -> cq_ok (cq_create zero cap) /\ cq_list (cq_create zero cap) = [].
Proof.
  intros H. split; [|done]. split; unfold cq_cap; cbn; rewrite ?length_replicate; try lia. by rewrite Nat.Div0.mod_0_l.
Qed.

Lemma ring_slots_inj n h i j : i < n -> j < n -> (h + i) mod n = (h + j) mod n -> i = j.
Proof.
  intros Hi Hj E. pose proof (Nat.div_mod_eq (h + i) n) as D1. pose proof (Nat.div_mod_eq (h + j) n) as D2.
  rewrite E in D1. destruct (Nat.lt_trichotomy ((h + i) / n) ((h + j) / n)) as [H|[H|H]]; nia.
Qed.

Lemma cq_push_spec q x : cq_ok q ->
  match cq_push q x with
  | Some q' => cq_ok q' /\ cq_list q' = cq_list q ++ [x] /\ cq_cap q' = cq_cap q
  | None => cq_size q = cq_cap q
  end.
Proof.
  intros [H1 H2 H3 H4]. unfold cq_push. destruct (Nat.eqb_spec (cq_size q) (cq_cap q)) as [|Hn]; [done|].
  assert (Hc : length (<[cq_tail q := x]> (cq_slots q)) = cq_cap q) by apply length_insert. split; [|split; [|exact Hc]].
  - split; unfold cq_cap; cbn [cq_slots cq_head cq_size cq_tail]; rewrite ?Hc; try lia.
    rewrite H4, Nat.Div0.add_mod_idemp_l. f_equal. lia.
  - unfold cq_list, cq_cap. cbn [cq_slots cq_head cq_size]. rewrite length_insert, seq_S, omap_app. fold (cq_cap q). f_equal.
    + apply omap_ext_in. intros i Hi. apply in_seq in Hi. rewrite list_lookup_insert_ne; [done|]. rewrite H4.
      intros Ei. apply ring_slots_inj in Ei; lia.
    + cbn [omap list_omap Nat.add]. rewrite H4, list_lookup_insert_eq; [done|]. apply Nat.mod_upper_bound. unfold cq_cap in H1. lia.
Qed.

Lemma cq_pop_spec q : cq_ok q ->
  match cq_pop q with
  | Some (x, q') => cq_ok q' /\ cq_list q = x :: cq_list q'
  | None => cq_list q = []
  end.
Proof.
  intros [H1 H2 H3 H4]. unfold cq_pop. destruct (Nat.eqb_spec (cq_size q) 0) as [E|E]; [unfold cq_list; by rewrite E|].
  destruct (lookup_lt_is_Some_2 (cq_slots q) (cq_head q) H2) as [x Hx]. rewrite Hx. split.
  - split; unfold cq_cap; cbn [cq_slots cq_head cq_size cq_tail]; fold (cq_cap q); try lia.
    + apply Nat.mod_upper_bound. lia.
    + rewrite H4, Nat.Div0.add_mod_idemp_l. f_equal. lia.
  - unfold cq_list, cq_cap. cbn [cq_slots cq_head cq_size]. fold (cq_cap q).
    destruct (cq_size q) as [|n]; [done|]. cbn [seq omap list_omap]. rewrite Nat.add_0_r, (Nat.mod_small (cq_head q)), Hx by done.
    f_equal. replace (S n - 1) with n by lia. rewrite <- seq_shift.
    assert (G : forall l, omap (fun i => cq_slots q !! ((cq_head q + i) mod cq_cap q)) (map S l) =
      omap (fun i => cq_slots q !! (((cq_head q + 1) mod cq_cap q + i) mod cq_cap q)) l).
    { induction l as [|i l IH]; [done|]. cbn [map omap list_omap]. rewrite IH, Nat.Div0.add_mod_idemp_l.
      by replace (cq_head q + S i) with (cq_head q + 1 + i) by lia. }
    apply G.
Qed.

Lemma cq_list_length q : cq_ok q -> length (cq_list q) = cq_size q.
Proof.
  intros [H1 H2 H3 H4]. unfold cq_list. generalize (cq_head q) as h. intros h.
  generalize 0 as a. revert H3. generalize (cq_size q) as n. intros n _. induction n as [|n IH]; intros a; [done|].
  cbn [seq omap list_omap]. destruct (lookup_lt_is_Some_2 (cq_slots q) ((h + a) mod cq_cap q)) as [x ->].
  { apply Nat.mod_upper_bound. unfold cq_cap in H1. lia. }
  cbn [length]. by rewrite IH.
Qed.
End Queue.
Arguments cqueue : clear implicits.
