(* ===== verification/PfbSinks.v ===== *)
(** The asynchronous sinks of the filter bank (src/pfb.c): batching of a bin's
    outputs, the buffers a sink rotates through, the worker pool that runs the
    per-channel callbacks, and the flush.

    The producer is the thread that runs the filter bank; every worker takes
    work from its own queue.  Between two accesses to shared state a thread
    runs alone: an event is one such step of one thread, and [None] means the
    thread would wait.  Buffers are memory: a work item names its buffer, and
    the callback reads what the buffer holds when it runs. *)

From S2P Require Import Prelude CountedQueue.

Definition PFB_OUTBUF_SAMPLES : nat := 1024.
Definition SINK_RING_N : nat := 4.
Definition SINK_QUEUE_CAP : nat := 256.

Record sink_work := mk_work { sw_sink : nat; sw_buf : nat; sw_n : nat }.

(** What a worker is about to do. *)
Inductive worker_pc :=
| WTake                        (* wait for work *)
| WRun (w : sink_work)         (* run the callback *)
| WReturn (w : sink_work)      (* give the buffer back *)
| WDone.                       (* decrement in_flight *)

Record sink_worker := mk_sink_worker { sw_queue : cqueue sink_work; sw_pc : worker_pc }.

(** What the producer is about to do. *)
Inductive producer_pc :=
| PReady
| PSwap (i : nat)                       (* flush_sink: take a free buffer *)
| PCount (i buf n : nat)                (* sink_submit: increment in_flight *)
| PPush (i buf n : nat).                (* sink_submit: enqueue *)

Section Sinks.
Context {C : Type}.

Record bin_sink := mk_sink {
  bs_channel_id : nat;
  bs_bufs : list (list C);
  bs_active : nat;
  bs_outbuf_count : nat;
  bs_free_stack : list nat;    (* the top first *)
}.

(** pfb_register_bin: [fresh] is the uninitialised content of the buffers. *)
Definition pfb_register_bin (channel_id : nat) (fresh : list (list C)) : bin_sink :=
  mk_sink channel_id fresh 0 0 (rev (seq 1 (SINK_RING_N - 1))).

Record sinks := mk_sinks {
  sk_sinks : list bin_sink;
  sk_workers : list sink_worker;
  sk_in_flight : Z;
  sk_producer : producer_pc;
  sk_calls : list (nat * list C);   (* the callbacks run: sink and samples *)
  sk_emitted : list (nat * C);      (* history: the outputs emitted to each sink *)
}.

Definition route (st : sinks) (s : bin_sink) : nat := bs_channel_id s mod length (sk_workers st).

Definition set_sink (i : nat) (s : bin_sink) (st : sinks) : sinks := st {{ sk_sinks := <[i := s]> (sk_sinks st) }}.
Definition set_worker (j : nat) (w : sink_worker) (st : sinks) : sinks := st {{ sk_workers := <[j := w]> (sk_workers st) }}.

Inductive sink_event :=
| Emit (i : nat) (y : C)       (* emit_to_bin, one sink of the bin's list *)
| Flush (i : nat)              (* flush_sink called by pfb_flush *)
| Produce                      (* the producer goes on *)
| Work (j : nat).              (* worker [j] goes on *)

Definition emit (i : nat) (y : C) (st : sinks) : option sinks :=
  match sk_producer st, sk_sinks st !! i with
  | PReady, Some s =>
      let buf := <[bs_outbuf_count s := y]> (default [] (bs_bufs s !! bs_active s)) in
      let s := s {{ bs_bufs := <[bs_active s := buf]> (bs_bufs s); bs_outbuf_count := S (bs_outbuf_count s) }} in
      Some (set_sink i s st {{ sk_emitted := sk_emitted st ++ [(i, y)];
              sk_producer := if bs_outbuf_count s =? PFB_OUTBUF_SAMPLES then PSwap i else PReady }})
  | _, _ => None
  end.

Definition flush (i : nat) (st : sinks) : option sinks :=
  match sk_producer st, sk_sinks st !! i with
  | PReady, Some s => Some (if bs_outbuf_count s =? 0 then st else st {{ sk_producer := PSwap i }})
  | _, _ => None
  end.

Definition produce (st : sinks) : option sinks :=
  match sk_producer st with
  | PReady => None
  | PSwap i =>
      match sk_sinks st !! i with
      | None => None
      | Some s =>
          match bs_free_stack s with
          | [] => None
          | b :: rest =>
              Some (set_sink i (s {{ bs_active := b; bs_free_stack := rest; bs_outbuf_count := 0 }}) st
                      {{ sk_producer := PCount i (bs_active s) (bs_outbuf_count s) }})
          end
      end
  | PCount i buf n => Some (st {{ sk_in_flight := (sk_in_flight st + 1)%Z; sk_producer := PPush i buf n }})
  | PPush i buf n =>
      s ← sk_sinks st !! i;
      w ← sk_workers st !! route st s;
      q ← cq_push (sw_queue w) (mk_work i buf n);
      Some (set_worker (route st s) (w {{ sw_queue := q }}) st {{ sk_producer := PReady }})
  end.

(** The samples a work item stands for, as its buffer holds them. *)
Definition content (s : bin_sink) (x : sink_work) : list C := take (sw_n x) (default [] (bs_bufs s !! sw_buf x)).

(** sink_worker_main, one step of worker [j]. *)
Definition work (j : nat) (st : sinks) : option sinks :=
  w ← sk_workers st !! j;
  match sw_pc w with
  | WTake =>
      '(item, q) ← cq_pop (sw_queue w);
      Some (set_worker j (mk_sink_worker q (WRun item)) st)
  | WRun item =>
      s ← sk_sinks st !! sw_sink item;
      Some (set_worker j (w {{ sw_pc := WReturn item }}) st {{ sk_calls := sk_calls st ++ [(sw_sink item, content s item)] }})
  | WReturn item =>
      s ← sk_sinks st !! sw_sink item;
      Some (set_worker j (w {{ sw_pc := WDone }})
              (set_sink (sw_sink item) (s {{ bs_free_stack := sw_buf item :: bs_free_stack s }}) st))
  | WDone => Some (set_worker j (w {{ sw_pc := WTake }}) st {{ sk_in_flight := (sk_in_flight st - 1)%Z }})
  end.

Definition sink_step (e : sink_event) (st : sinks) : option sinks :=
  match e with
  | Emit i y => emit i y st
  | Flush i => flush i st
  | Produce => produce st
  | Work j => work j st
  end.

Fixpoint sink_run (es : list sink_event) (st : sinks) : option sinks :=
  match es with
  | [] => Some st
  | e :: t => st ← sink_step e st; sink_run t st
  end.

(** The pool and the sinks as they start. *)
Definition sinks_init (n_workers : nat) (channels : list nat) (fresh : list (list C)) : sinks :=
  mk_sinks (map (fun c => pfb_register_bin c fresh) channels)
    (replicate n_workers (mk_sink_worker (cq_create (mk_work 0 0 0) SINK_QUEUE_CAP) WTake)) 0 PReady [] [].

(** ** The invariant *)

Definition partial (s : bin_sink) : list C := take (bs_outbuf_count s) (default [] (bs_bufs s !! bs_active s)).

(** One sink: [items] are its batches on their way to the callback, oldest
    first, [ret] the buffers being given back.  Every buffer is in one place,
    and the samples delivered, under way and collected are those emitted. *)
Record sink_inv (items : list sink_work) (ret : list nat) (swapping : bool) (called emitted : list C) (s : bin_sink) : Prop := {
  si_bufs : length (bs_bufs s) = SINK_RING_N;
  si_len : Forall (fun b => length b = PFB_OUTBUF_SAMPLES) (bs_bufs s);
  si_owned : bs_active s :: bs_free_stack s ++ map sw_buf items ++ ret ≡ₚ seq 0 SINK_RING_N;
  si_count : bs_outbuf_count s <= PFB_OUTBUF_SAMPLES;
  si_room : swapping = false -> bs_outbuf_count s < PFB_OUTBUF_SAMPLES;
  si_data : called ++ concat (map (content s) items) ++ partial s = emitted;
}.

Lemma si_active_lt items ret b called emitted s : sink_inv items ret b called emitted s -> bs_active s < SINK_RING_N.
Proof.
  intros H. assert (E : bs_active s ∈ seq 0 SINK_RING_N) by (rewrite <- (si_owned _ _ _ _ _ _ H); left).
  apply elem_of_seq in E. lia.
Qed.

Lemma si_nodup items ret b called emitted s : sink_inv items ret b called emitted s ->
  NoDup (bs_active s :: bs_free_stack s ++ map sw_buf items ++ ret).
Proof. intros H. rewrite (si_owned _ _ _ _ _ _ H). apply NoDup_seq. Qed.

(** The active buffer takes one more output. *)
Lemma inv_emit items ret called emitted s y : sink_inv items ret false called emitted s ->
  let buf := <[bs_outbuf_count s := y]> (default [] (bs_bufs s !! bs_active s)) in
  let s' := s {{ bs_bufs := <[bs_active s := buf]> (bs_bufs s); bs_outbuf_count := S (bs_outbuf_count s) }} in
  sink_inv items ret (bs_outbuf_count s' =? PFB_OUTBUF_SAMPLES) called (emitted ++ [y]) s'.
Proof.
  intros H buf s'. pose proof (si_active_lt _ _ _ _ _ _ H) as Ha. pose proof (si_nodup _ _ _ _ _ _ H) as Hnd.
  destruct H as [H1 H2 H3 H4 H5 H6]. specialize (H5 eq_refl).
  destruct (lookup_lt_is_Some_2 (bs_bufs s) (bs_active s)) as [old Ho]; [lia|].
  assert (Hl : length old = PFB_OUTBUF_SAMPLES) by (rewrite Forall_forall in H2; apply H2; by eapply list_elem_of_lookup_2).
  assert (Hb : buf = <[bs_outbuf_count s := y]> old) by (unfold buf; by rewrite Ho).
  split.
  - unfold s'. rcbn. by rewrite length_insert.
  - unfold s'. rcbn. apply Forall_insert; [done|]. rewrite Hb, length_insert. done.
  - exact H3.
  - unfold s'. rcbn. lia.
  - unfold s'. rcbn. intros E. apply Nat.eqb_neq in E. lia.
  - assert (Ep : partial s' = partial s ++ [y]).
    { unfold partial, s'. rcbn. rewrite list_lookup_insert_eq by lia. rewrite Ho. cbn [default from_option id]. rewrite Hb.
      rewrite take_S_r with (x := y) by (apply list_lookup_insert_eq; lia). by rewrite take_insert_ge by lia. }
    rewrite Ep, <- H6, <- !app_assoc. do 3 f_equal. apply map_ext_in. intros x Hx. unfold content, s'. rcbn.
    rewrite list_lookup_insert_ne; [done|]. intros E. apply NoDup_cons in Hnd as [Hnd _]. apply Hnd.
    apply elem_of_app. right. apply elem_of_app. left. rewrite E. apply list_elem_of_In, in_map, Hx.
Qed.

(** A full or partial buffer is swapped for a free one. *)
Lemma inv_swap i items ret called emitted s b rest : sink_inv items ret true called emitted s -> bs_free_stack s = b :: rest ->
  let s' := s {{ bs_active := b; bs_free_stack := rest; bs_outbuf_count := 0 }} in
  sink_inv (items ++ [mk_work i (bs_active s) (bs_outbuf_count s)]) ret false called emitted s'.
Proof.
  intros [H1 H2 H3 H4 H5 H6] Hf s'. split; unfold s'; rcbn; try done.
  - rewrite <- H3, Hf, map_app. cbn [map sw_buf]. solve_Permutation.
  - unfold PFB_OUTBUF_SAMPLES. lia.
  - unfold PFB_OUTBUF_SAMPLES. lia.
  - rewrite <- H6, map_app, concat_app. cbn [map concat]. unfold partial. rcbn. rewrite take_0, !app_nil_r. done.
Qed.

(** The callback runs on the oldest batch. *)
Lemma inv_call items ret b called emitted s x : sink_inv (x :: items) ret b called emitted s ->
  sink_inv items (sw_buf x :: ret) b (called ++ content s x) emitted s.
Proof.
  intros [H1 H2 H3 H4 H5 H6]. split; try done.
  - rewrite <- H3. cbn [map]. solve_Permutation.
  - rewrite <- H6. cbn [map concat]. by rewrite !app_assoc.
Qed.

(** A buffer is given back. *)
Lemma inv_return items ret b called emitted s x : sink_inv items (x :: ret) b called emitted s ->
  sink_inv items ret b called emitted (s {{ bs_free_stack := x :: bs_free_stack s }}).
Proof.
  intros [H1 H2 H3 H4 H5 H6]. split; try done. rcbn. rewrite <- H3. solve_Permutation.
Qed.

(** *** The whole pool *)

Definition idle_worker : sink_worker := mk_sink_worker (mk_cqueue [] 0 0 0) WTake.
Definition in_hand (w : sink_worker) : list sink_work := match sw_pc w with WRun x => [x] | _ => [] end.
Definition giving_back (w : sink_worker) : list sink_work := match sw_pc w with WReturn x => [x] | _ => [] end.
Definition to_run (w : sink_worker) : list sink_work := in_hand w ++ cq_list (sw_queue w).
Definition of_sink (i : nat) (l : list sink_work) : list sink_work := List.filter (fun x => sw_sink x =? i) l.

Definition handed (pc : producer_pc) : list sink_work :=
  match pc with PCount i b n | PPush i b n => [mk_work i b n] | _ => [] end.
Definition swapping (pc : producer_pc) (i : nat) : bool := match pc with PSwap k => k =? i | _ => false end.
Definition target (pc : producer_pc) : option nat :=
  match pc with PReady => None | PSwap i | PCount i _ _ | PPush i _ _ => Some i end.

(** The busy work of a worker and of the producer, as in_flight counts it. *)
Definition load (w : sink_worker) : Z := Z.of_nat (cq_size (sw_queue w)) + match sw_pc w with WTake => 0 | _ => 1 end.
Definition total_load (l : list sink_worker) : Z := foldr (fun w a => load w + a)%Z 0%Z l.
Definition counted (pc : producer_pc) : Z := match pc with PPush _ _ _ => 1 | _ => 0 end.

Definition called_of (st : sinks) (i : nat) : list C :=
  concat (map snd (List.filter (fun c => fst c =? i) (sk_calls st))).
Definition emitted_of (st : sinks) (i : nat) : list C :=
  map snd (List.filter (fun c => fst c =? i) (sk_emitted st)).

Definition worker_of (st : sinks) (s : bin_sink) : sink_worker := default idle_worker (sk_workers st !! route st s).

Definition sink_ok (st : sinks) (i : nat) (s : bin_sink) : Prop :=
  sink_inv (of_sink i (to_run (worker_of st s)) ++ of_sink i (handed (sk_producer st)))
    (map sw_buf (of_sink i (giving_back (worker_of st s)))) (swapping (sk_producer st) i) (called_of st i) (emitted_of st i) s.

Record pool_inv (st : sinks) : Prop := {
  pi_workers : 0 < length (sk_workers st);
  pi_queues : Forall (fun w => cq_ok (sw_queue w)) (sk_workers st);
  pi_routed : forall j w x, sk_workers st !! j = Some w -> In x (to_run w ++ giving_back w) ->
    exists s, sk_sinks st !! sw_sink x = Some s /\ route st s = j;
  pi_target : forall i, target (sk_producer st) = Some i -> is_Some (sk_sinks st !! i);
  pi_sinks : forall i s, sk_sinks st !! i = Some s -> sink_ok st i s;
  pi_in_flight : sk_in_flight st = (total_load (sk_workers st) + counted (sk_producer st))%Z;
}.

Lemma of_sink_app i a b : of_sink i (a ++ b) = of_sink i a ++ of_sink i b.
Proof. apply List.filter_app. Qed.

Lemma total_load_set l j w w' : l !! j = Some w -> total_load (<[j := w']> l) = (total_load l - load w + load w')%Z.
Proof.
  revert j. induction l as [|x l IH]; intros [|j] H; [done|done|injection H as ->; cbn; lia|].
  change (load x + total_load (<[j := w']> l) = load x + total_load l - load w + load w')%Z. rewrite (IH j H). lia.
Qed.

Lemma route_lt st s : pool_inv st -> route st s < length (sk_workers st).
Proof. intros H. apply Nat.mod_upper_bound. pose proof (pi_workers st H). lia. Qed.

Lemma worker_of_some st s : pool_inv st -> sk_workers st !! route st s = Some (worker_of st s).
Proof.
  intros H. unfold worker_of. destruct (lookup_lt_is_Some_2 (sk_workers st) (route st s)) as [w ->]; [by apply route_lt|done].
Qed.

(** The producer emits or flushes: the workers do not notice. *)
Lemma emit_inv i y st st' : pool_inv st -> emit i y st = Some st' -> pool_inv st'.
Proof.
  intros I. unfold emit. destruct (sk_producer st) eqn:Ep; try done. destruct (sk_sinks st !! i) as [s|] eqn:Es; [|done].
  set (buf := <[bs_outbuf_count s := y]> _). set (s' := s {{ bs_bufs := _; bs_outbuf_count := _ }}).
  intros H. apply (inj Some) in H as <-. pose proof I as [I1 I2 I3 I4 I5 I6]. unfold set_sink. split; rcbn; try done.
  - intros j w x Hw Hx. destruct (I3 j w x Hw Hx) as (t & Ht & Hr).
    destruct (Nat.eq_dec (sw_sink x) i) as [E|E].
    + exists s'. rewrite E in *. rewrite Es in Ht. injection Ht as <-. split; [|exact Hr].
      apply list_lookup_insert_eq. by eapply lookup_lt_Some.
    + exists t. by rewrite list_lookup_insert_ne.
  - intros k. destruct (_ =? _); [|done]. intros [= <-]. rewrite list_lookup_insert_eq by (by eapply lookup_lt_Some). eauto.
  - intros k t. destruct (Nat.eq_dec k i) as [->|Hne].
    + rewrite list_lookup_insert_eq by (by eapply lookup_lt_Some). intros [= <-]. specialize (I5 i s Es).
      unfold sink_ok in *. rewrite Ep in I5. cbn [swapping handed of_sink List.filter] in I5. rewrite app_nil_r in I5.
      apply (inv_emit _ _ _ _ s y) in I5. fold buf s' in I5. rcbn.
      replace (of_sink i (handed _)) with (@nil sink_work) by (by destruct (_ =? _)). rewrite app_nil_r.
      replace (swapping _ i) with (bs_outbuf_count s' =? PFB_OUTBUF_SAMPLES)
        by (destruct (_ =? _); cbn [swapping]; by rewrite ?Nat.eqb_refl).
      replace (emitted_of _ i) with (emitted_of st i ++ [y]); [exact I5|].
      unfold emitted_of. rcbn. rewrite List.filter_app, map_app. cbn [List.filter fst]. by rewrite Nat.eqb_refl.
    + rewrite list_lookup_insert_ne by done. intros Hk. specialize (I5 k t Hk). unfold sink_ok in *. rewrite Ep in I5. rcbn.
      replace (of_sink k (handed _)) with (@nil sink_work) by (by destruct (_ =? _)).
      replace (swapping _ k) with false by (destruct (_ =? _); cbn [swapping]; [symmetry; by apply Nat.eqb_neq|done]).
      replace (emitted_of _ k) with (emitted_of st k); [exact I5|].
      unfold emitted_of. rcbn. rewrite List.filter_app, map_app. cbn [List.filter fst].
      destruct (Nat.eqb_spec i k); [done|]. by rewrite app_nil_r.
  - rewrite I6, Ep. by destruct (_ =? _).
Qed.

Lemma flush_inv i st st' : pool_inv st -> flush i st = Some st' -> pool_inv st'.
Proof.
  intros I. unfold flush. destruct (sk_producer st) eqn:Ep; try done. destruct (sk_sinks st !! i) as [s|] eqn:Es; [|done].
  intros H. apply (inj Some) in H as <-. destruct (_ =? 0); [done|]. pose proof I as [I1 I2 I3 I4 I5 I6]. split; rcbn; try done.
  - intros k [= <-]. eauto.
  - intros k t Hk. specialize (I5 k t Hk). unfold sink_ok in *. rcbn. rewrite Ep in I5. cbn [handed swapping] in *.
    destruct I5 as [J1 J2 J3 J4 J5 J6]. split; try done. intros _. by apply J5.
  - by rewrite I6, Ep.
Qed.

(** A sink's buffers change owner without its channel changing. *)
Lemma routed_set_sink i s s' st : pool_inv st -> sk_sinks st !! i = Some s -> bs_channel_id s' = bs_channel_id s ->
  forall j w x, sk_workers st !! j = Some w -> In x (to_run w ++ giving_back w) ->
  exists t, <[i := s']> (sk_sinks st) !! sw_sink x = Some t /\ bs_channel_id t mod length (sk_workers st) = j.
Proof.
  intros I Es Hc j w x Hw Hx. destruct (pi_routed st I j w x Hw Hx) as (t & Ht & Hr).
  destruct (Nat.eq_dec (sw_sink x) i) as [E|E].
  - exists s'. rewrite E in *. rewrite Es in Ht. injection Ht as <-. split; [|by rewrite Hc].
    apply list_lookup_insert_eq. by eapply lookup_lt_Some.
  - exists t. by rewrite list_lookup_insert_ne.
Qed.

Lemma swap_inv i s b rest st : pool_inv st -> sk_producer st = PSwap i -> sk_sinks st !! i = Some s ->
  bs_free_stack s = b :: rest ->
  pool_inv (set_sink i (s {{ bs_active := b; bs_free_stack := rest; bs_outbuf_count := 0 }}) st
              {{ sk_producer := PCount i (bs_active s) (bs_outbuf_count s) }}).
Proof.
  intros I Ep Es Hf. set (s' := s {{ bs_active := b; bs_free_stack := rest; bs_outbuf_count := 0 }}).
  pose proof I as [I1 I2 I3 I4 I5 I6]. unfold set_sink. split; rcbn; try done.
  - by apply (routed_set_sink i s s' st I Es).
  - intros k [= <-]. rewrite list_lookup_insert_eq by (by eapply lookup_lt_Some). eauto.
  - intros k t. destruct (Nat.eq_dec k i) as [->|Hne].
    + rewrite list_lookup_insert_eq by (by eapply lookup_lt_Some). intros [= <-]. specialize (I5 i s Es).
      unfold sink_ok in *. rewrite Ep in I5. cbn [swapping handed of_sink List.filter] in I5.
      rewrite app_nil_r, Nat.eqb_refl in I5. rcbn. cbn [swapping handed of_sink List.filter sw_sink]. rewrite Nat.eqb_refl.
      apply (inv_swap i _ _ _ _ s b rest I5 Hf).
    + rewrite list_lookup_insert_ne by done. intros Hk. specialize (I5 k t Hk). unfold sink_ok in *. rewrite Ep in I5. rcbn.
      cbn [swapping handed of_sink List.filter sw_sink] in *.
      destruct (Nat.eqb_spec i k) as [E|_]; [by subst|]. exact I5.
  - by rewrite I6, Ep.
Qed.

Lemma count_inv i b n st : pool_inv st -> sk_producer st = PCount i b n ->
  pool_inv (st {{ sk_in_flight := (sk_in_flight st + 1)%Z; sk_producer := PPush i b n }}).
Proof.
  intros I Ep. pose proof I as [I1 I2 I3 I4 I5 I6]. split; rcbn; try done.
  - rewrite Ep in I4. exact I4.
  - intros k t Hk. specialize (I5 k t Hk). unfold sink_ok in *. rewrite Ep in I5. exact I5.
  - rewrite I6, Ep. cbn [counted]. lia.
Qed.

(** One worker changes; what it has to run, and whose buffers it is giving
    back, is what the sinks see of it. *)
Lemma worker_of_set st j w t pc calls fl : pool_inv st -> sk_workers st !! j = Some w ->
  forall w', worker_of (set_worker j w' st {{ sk_producer := pc; sk_calls := calls; sk_in_flight := fl }}) t =
  if route st t =? j then w' else worker_of st t.
Proof.
  intros I Hw w'. unfold worker_of, route, set_worker. rcbn. rewrite length_insert. fold (route st t).
  destruct (Nat.eqb_spec (route st t) j) as [->|E]; [by rewrite list_lookup_insert_eq by (by eapply lookup_lt_Some)|].
  by rewrite list_lookup_insert_ne.
Qed.

Lemma set_worker_inv st j w w' pc calls fl : pool_inv st -> sk_workers st !! j = Some w -> cq_ok (sw_queue w') ->
  (forall x, In x (to_run w' ++ giving_back w') -> In x (to_run w ++ giving_back w) \/
     exists s, sk_sinks st !! sw_sink x = Some s /\ route st s = j) ->
  (forall i, target pc = Some i -> is_Some (sk_sinks st !! i)) ->
  (forall i s, sk_sinks st !! i = Some s ->
     sink_ok (set_worker j w' st {{ sk_producer := pc; sk_calls := calls; sk_in_flight := fl }}) i s) ->
  fl = (total_load (sk_workers st) - load w + load w' + counted pc)%Z ->
  pool_inv (set_worker j w' st {{ sk_producer := pc; sk_calls := calls; sk_in_flight := fl }}).
Proof.
  intros I Hw Hq Hx Ht Hs Hf. pose proof I as [I1 I2 I3 I4 I5 I6].
  split; [..|exact Hs|]; unfold set_worker; rcbn.
  - by rewrite length_insert.
  - by apply Forall_insert.
  - intros k v x. unfold route. rcbn. rewrite length_insert. destruct (Nat.eq_dec k j) as [->|Hne].
    + rewrite list_lookup_insert_eq by (by eapply lookup_lt_Some). intros [= <-] Hin.
      destruct (Hx x Hin) as [H|H]; [by apply (I3 j w)|exact H].
    + rewrite list_lookup_insert_ne by done. apply I3.
  - exact Ht.
  - rewrite (total_load_set _ _ _ _ Hw). lia.
Qed.

Lemma push_inv i b n s w q st : pool_inv st -> sk_producer st = PPush i b n -> sk_sinks st !! i = Some s ->
  sk_workers st !! route st s = Some w -> cq_push (sw_queue w) (mk_work i b n) = Some q ->
  pool_inv (set_worker (route st s) (w {{ sw_queue := q }}) st {{ sk_producer := PReady }}).
Proof.
  intros I Ep Es Hw Hq. pose proof I as [I1 I2 I3 I4 I5 I6].
  assert (Hok : cq_ok (sw_queue w)) by (rewrite Forall_forall in I2; apply I2; by eapply list_elem_of_lookup_2).
  pose proof (cq_push_spec (sw_queue w) (mk_work i b n) Hok) as P. rewrite Hq in P. destruct P as (P1 & P2 & P3).
  assert (Hr : to_run (w {{ sw_queue := q }}) = to_run w ++ [mk_work i b n]) by (unfold to_run; rcbn; by rewrite P2, app_assoc).
  apply (set_worker_inv st _ w (w {{ sw_queue := q }}) PReady (sk_calls st) (sk_in_flight st)); try done.
  - intros x Hin. change (giving_back (w {{ sw_queue := q }})) with (giving_back w) in Hin. rewrite Hr in Hin.
    rewrite !in_app_iff in Hin. rewrite in_app_iff. destruct Hin as [[H|[<-|[]]]|H]; [tauto| |tauto].
    right. exists s. done.
  - intros k t Hk. specialize (I5 k t Hk). unfold sink_ok in *. rewrite (worker_of_set st _ w) by done.
    cbn [handed swapping]. rewrite Ep in I5. cbn [handed swapping of_sink List.filter sw_sink] in I5.
    replace (called_of _ k) with (called_of st k) by done. replace (emitted_of _ k) with (emitted_of st k) by done.
    cbn [of_sink List.filter]. rewrite app_nil_r. destruct (Nat.eqb_spec (route st t) (route st s)) as [E|E].
    + unfold worker_of in I5. rewrite E, Hw in I5. cbn [default from_option id] in I5.
      rewrite Hr, of_sink_app. change (giving_back (w {{ sw_queue := q }})) with (giving_back w). exact I5.
    + destruct (Nat.eqb_spec i k) as [->|_]; [rewrite Es in Hk; by injection Hk as <-|]. by rewrite app_nil_r in I5.
  - assert (L : load (w {{ sw_queue := q }}) = (load w + 1)%Z).
    { unfold load. rcbn. rewrite <- !cq_list_length, P2, length_app by done. cbn [length]. destruct (sw_pc w); lia. }
    rewrite L, I6, Ep. cbn [counted]. lia.
Qed.

Lemma produce_inv st st' : pool_inv st -> produce st = Some st' -> pool_inv st'.
Proof.
  intros I. unfold produce. destruct (sk_producer st) as [|i|i b n|i b n] eqn:Ep; [done| | |].
  - destruct (sk_sinks st !! i) as [s|] eqn:Es; [|done]. destruct (bs_free_stack s) as [|b rest] eqn:Hf; [done|].
    intros H. apply (inj Some) in H as <-. by apply swap_inv.
  - intros H. apply (inj Some) in H as <-. by apply count_inv.
  - destruct (sk_sinks st !! i) as [s|] eqn:Es; [|done]. cbn [mbind option_bind].
    destruct (sk_workers st !! route st s) as [w|] eqn:Hw; [|done]. cbn [mbind option_bind].
    destruct (cq_push (sw_queue w) (mk_work i b n)) as [q|] eqn:Hq; [|done]. cbn [mbind option_bind].
    intros H. apply (inj Some) in H as <-. by apply (push_inv i b n).
Qed.

(** The state of a sink after a step of worker [j] that changes [w] to [w']:
    only the sinks routed to it are concerned. *)
Lemma sink_ok_other st j w w' pc calls fl k t : pool_inv st -> sk_workers st !! j = Some w -> pc = sk_producer st ->
  sk_sinks st !! k = Some t -> concat (map snd (List.filter (fun c => fst c =? k) calls)) = called_of st k ->
  (route st t = j -> of_sink k (to_run w') = of_sink k (to_run w) /\ of_sink k (giving_back w') = of_sink k (giving_back w)) ->
  sink_ok (set_worker j w' st {{ sk_producer := pc; sk_calls := calls; sk_in_flight := fl }}) k t.
Proof.
  intros I Hw -> Hk Hc Hs. pose proof (pi_sinks st I k t Hk) as J. unfold sink_ok in *. rewrite (worker_of_set st j w) by done.
  replace (called_of _ k) with (called_of st k) by (symmetry; exact Hc). destruct (Nat.eqb_spec (route st t) j) as [E|E]; [|exact J].
  destruct (Hs E) as [-> ->]. unfold worker_of in J. rewrite E, Hw in J. exact J.
Qed.

Lemma take_inv j w item q st : pool_inv st -> sk_workers st !! j = Some w -> sw_pc w = WTake ->
  cq_pop (sw_queue w) = Some (item, q) -> pool_inv (set_worker j (mk_sink_worker q (WRun item)) st).
Proof.
  intros I Hw Hpc Hq. pose proof I as [I1 I2 I3 I4 I5 I6].
  assert (Hok : cq_ok (sw_queue w)) by (rewrite Forall_forall in I2; apply I2; by eapply list_elem_of_lookup_2).
  pose proof (cq_pop_spec (sw_queue w) Hok) as P. rewrite Hq in P. destruct P as (P1 & P2).
  assert (Hr : to_run (mk_sink_worker q (WRun item)) = to_run w) by (unfold to_run, in_hand; rewrite Hpc, P2; done).
  assert (Hg : giving_back w = []) by (unfold giving_back; by rewrite Hpc).
  apply (set_worker_inv st j w (mk_sink_worker q (WRun item)) (sk_producer st) (sk_calls st) (sk_in_flight st)); try done.
  - intros x. rewrite Hr, Hg. by left.
  - intros k t Hk. apply (sink_ok_other st j w); try done. intros _. by rewrite Hr, Hg.
  - assert (L : load (mk_sink_worker q (WRun item)) = load w).
    { unfold load. rewrite Hpc. cbn [sw_queue sw_pc]. rewrite <- !cq_list_length, P2 by done. cbn [length]. lia. }
    rewrite L, I6. lia.
Qed.

Lemma call_inv j w item s st : pool_inv st -> sk_workers st !! j = Some w -> sw_pc w = WRun item ->
  sk_sinks st !! sw_sink item = Some s ->
  pool_inv (set_worker j (w {{ sw_pc := WReturn item }}) st
              {{ sk_calls := sk_calls st ++ [(sw_sink item, content s item)] }}).
Proof.
  intros I Hw Hpc Es. pose proof I as [I1 I2 I3 I4 I5 I6]. set (w' := w {{ sw_pc := WReturn item }}).
  assert (Hr : to_run w = item :: to_run w') by (unfold to_run, in_hand, w'; by rewrite Hpc).
  assert (Hg : giving_back w = [] /\ giving_back w' = [item]) by (unfold giving_back, w'; by rewrite Hpc). destruct Hg as [Hg Hg'].
  apply (set_worker_inv st j w w' (sk_producer st) (sk_calls st ++ [(sw_sink item, content s item)]) (sk_in_flight st)); try done.
  - rewrite Forall_forall in I2. apply (I2 w). by eapply list_elem_of_lookup_2.
  - intros x. rewrite Hr, Hg, Hg'. rewrite !in_app_iff. cbn [In]. tauto.
  - intros k t Hk. destruct (Nat.eq_dec k (sw_sink item)) as [->|Hne].
    + rewrite Es in Hk. injection Hk as <-. specialize (I5 _ _ Es). unfold sink_ok in *. rewrite (worker_of_set st j w) by done.
      destruct (I3 j w item Hw) as (t & Ht & Hrt); [rewrite Hr; by left|]. rewrite Es in Ht. injection Ht as <-.
      rewrite Hrt, Nat.eqb_refl. unfold worker_of in I5. rewrite Hrt, Hw in I5. cbn [default from_option id] in I5.
      rewrite Hr, Hg in I5. rewrite Hg'. cbn [of_sink List.filter map app] in *. rewrite Nat.eqb_refl in *. cbn [map app] in *.
      apply inv_call in I5. replace (called_of _ (sw_sink item)) with (called_of st (sw_sink item) ++ content s item); [exact I5|].
      change (called_of st (sw_sink item) ++ content s item = concat (map snd (List.filter (fun c => fst c =? sw_sink item)
        (sk_calls st ++ [(sw_sink item, content s item)])))).
      rewrite List.filter_app, map_app, concat_app. cbn [List.filter fst].
      rewrite Nat.eqb_refl. cbn [map concat snd]. by rewrite app_nil_r.
    + apply (sink_ok_other st j w); try done.
      * rewrite List.filter_app, map_app, concat_app. cbn [List.filter fst].
        destruct (Nat.eqb_spec (sw_sink item) k); [by subst|]. cbn [map concat]. by rewrite app_nil_r.
      * intros _. rewrite Hr, Hg, Hg'. cbn [of_sink List.filter]. destruct (Nat.eqb_spec (sw_sink item) k); [by subst|done].
  - assert (L : load w' = load w) by (unfold load, w'; by rewrite Hpc). rewrite L, I6. lia.
Qed.

Lemma return_inv j w item s st : pool_inv st -> sk_workers st !! j = Some w -> sw_pc w = WReturn item ->
  sk_sinks st !! sw_sink item = Some s ->
  pool_inv (set_worker j (w {{ sw_pc := WDone }})
              (set_sink (sw_sink item) (s {{ bs_free_stack := sw_buf item :: bs_free_stack s }}) st)).
Proof.
  intros I Hw Hpc Es. pose proof I as [I1 I2 I3 I4 I5 I6]. set (w' := w {{ sw_pc := WDone }}).
  set (s' := s {{ bs_free_stack := sw_buf item :: bs_free_stack s }}).
  assert (Hr : to_run w' = to_run w) by (unfold to_run, in_hand, w'; by rewrite Hpc).
  assert (Hg : giving_back w = [item] /\ giving_back w' = []) by (unfold giving_back, w'; by rewrite Hpc). destruct Hg as [Hg Hg'].
  assert (Hj : j < length (sk_workers st)) by (by eapply lookup_lt_Some).
  assert (Hw' : forall t, worker_of (set_worker j w' (set_sink (sw_sink item) s' st)) t =
    if route st t =? j then w' else worker_of st t).
  { intros t. unfold worker_of, route, set_worker, set_sink. rcbn. rewrite length_insert. fold (route st t).
    destruct (Nat.eqb_spec (route st t) j) as [->|E]; [by rewrite list_lookup_insert_eq|by rewrite list_lookup_insert_ne]. }
  destruct (I3 j w item Hw) as (t0 & Ht & Hrt); [rewrite Hg; apply in_or_app; right; by left|].
  rewrite Es in Ht. injection Ht as <-.
  split; unfold set_worker, set_sink; rcbn; try done.
  - by rewrite length_insert.
  - apply Forall_insert; [done|]. rewrite Forall_forall in I2. apply (I2 w). by eapply list_elem_of_lookup_2.
  - intros k v x. unfold route. rcbn. rewrite length_insert. destruct (Nat.eq_dec k j) as [->|Hne].
    + rewrite list_lookup_insert_eq by done. intros [= <-]. rewrite Hr, Hg', app_nil_r. intros Hx.
      apply (routed_set_sink _ s s' st I Es eq_refl j w x Hw), in_or_app. by left.
    + rewrite list_lookup_insert_ne by done. apply (routed_set_sink _ s s' st I Es eq_refl).
  - intros k Hk. destruct (Nat.eq_dec k (sw_sink item)) as [->|Hne].
    + rewrite list_lookup_insert_eq by (by eapply lookup_lt_Some). eauto.
    + rewrite list_lookup_insert_ne by done. by apply I4.
  - intros k t. change (st {{ sk_sinks := _; sk_workers := _ }}) with (set_worker j w' (set_sink (sw_sink item) s' st)).
    unfold sink_ok. rewrite Hw'. destruct (Nat.eq_dec k (sw_sink item)) as [->|Hne].
    + rewrite list_lookup_insert_eq by (by eapply lookup_lt_Some). intros [= <-]. specialize (I5 _ _ Es). unfold sink_ok in I5.
      change (route st s') with (route st s). rewrite Hrt, Nat.eqb_refl. unfold worker_of in I5. rewrite Hrt, Hw in I5.
      cbn [default from_option id] in I5. rewrite Hg in I5. rewrite Hr, Hg'. cbn [of_sink List.filter map] in *.
      rewrite Nat.eqb_refl in I5. cbn [map] in *. by apply inv_return in I5.
    + rewrite list_lookup_insert_ne by done. intros Hk. specialize (I5 k t Hk). unfold sink_ok in I5.
      destruct (Nat.eqb_spec (route st t) j) as [E|E]; [|exact I5]. unfold worker_of in I5. rewrite E, Hw in I5.
      cbn [default from_option id] in I5. rewrite Hg in I5. rewrite Hr, Hg'. cbn [of_sink List.filter map] in *.
      destruct (Nat.eqb_spec (sw_sink item) k); [by subst|]. exact I5.
  - rewrite (total_load_set _ _ _ _ Hw). assert (L : load w' = load w) by (unfold load, w'; by rewrite Hpc). rewrite L, I6. lia.
Qed.

Lemma done_inv j w st : pool_inv st -> sk_workers st !! j = Some w -> sw_pc w = WDone ->
  pool_inv (set_worker j (w {{ sw_pc := WTake }}) st {{ sk_in_flight := (sk_in_flight st - 1)%Z }}).
Proof.
  intros I Hw Hpc. pose proof I as [I1 I2 I3 I4 I5 I6]. set (w' := w {{ sw_pc := WTake }}).
  assert (Hr : to_run w' = to_run w) by (unfold to_run, in_hand, w'; by rewrite Hpc).
  assert (Hg : giving_back w = [] /\ giving_back w' = []) by (unfold giving_back, w'; by rewrite Hpc). destruct Hg as [Hg Hg'].
  apply (set_worker_inv st j w w' (sk_producer st) (sk_calls st) (sk_in_flight st - 1)%Z); try done.
  - rewrite Forall_forall in I2. apply (I2 w). by eapply list_elem_of_lookup_2.
  - intros x. rewrite Hr, Hg, Hg'. by left.
  - intros k t Hk. apply (sink_ok_other st j w); try done. intros _. by rewrite Hr, Hg, Hg'.
  - assert (L : load w' = (load w - 1)%Z) by (unfold load, w'; rcbn; rewrite Hpc; lia). rewrite L, I6. lia.
Qed.

Lemma sink_step_inv e st st' : pool_inv st -> sink_step e st = Some st' -> pool_inv st'.
Proof.
  intros I. destruct e as [i y|i| |j]; cbn [sink_step]; [by apply emit_inv|by apply flush_inv|by apply produce_inv|].
  unfold work. destruct (sk_workers st !! j) as [w|] eqn:Hw; [|done]. cbn [mbind option_bind].
  destruct (sw_pc w) as [|item|item|] eqn:Hpc.
  - destruct (cq_pop (sw_queue w)) as [[item q]|] eqn:Hq; [|done]. cbn [mbind option_bind]. intros H.
    apply (inj Some) in H as <-. by apply (take_inv j w).
  - destruct (sk_sinks st !! sw_sink item) as [s|] eqn:Es; [|done]. cbn [mbind option_bind]. intros H.
    apply (inj Some) in H as <-. by apply call_inv.
  - destruct (sk_sinks st !! sw_sink item) as [s|] eqn:Es; [|done]. cbn [mbind option_bind]. intros H.
    apply (inj Some) in H as <-. by apply return_inv.
  - intros H. apply (inj Some) in H as <-. by apply done_inv.
Qed.

Lemma sink_run_inv es : forall st st', pool_inv st -> sink_run es st = Some st' -> pool_inv st'.
Proof.
  induction es as [|e es IH]; intros st st' I; cbn [sink_run]; [by intros [= <-]|].
  destruct (sink_step e st) as [st1|] eqn:E; [|done]. cbn [mbind option_bind]. apply IH. by apply (sink_step_inv e st).
Qed.

(** ** Consequences *)

Lemma init_pool_inv n channels fresh : 0 < n -> length fresh = SINK_RING_N ->
  Forall (fun b => length b = PFB_OUTBUF_SAMPLES) fresh -> pool_inv (sinks_init n channels fresh).
Proof.
  intros Hn Hf Hb. destruct (cq_create_ok (mk_work 0 0 0) SINK_QUEUE_CAP) as [Q1 Q2]; [unfold SINK_QUEUE_CAP; lia|].
  set (w := mk_sink_worker (cq_create (mk_work 0 0 0) SINK_QUEUE_CAP) WTake).
  assert (Hw : to_run w = [] /\ giving_back w = []) by (unfold to_run, in_hand; cbn [w sw_pc sw_queue]; by rewrite Q2).
  split; cbn [sinks_init sk_workers sk_sinks sk_producer sk_in_flight].
  - by rewrite length_replicate.
  - apply Forall_replicate. exact Q1.
  - intros j v x Hv. apply lookup_replicate in Hv as [-> _]. fold w. destruct Hw as [-> ->]. intros [].
  - done.
  - intros i s Hs. apply list_lookup_fmap_Some in Hs as (c & -> & _). unfold sink_ok.
    assert (Hr : worker_of (sinks_init n channels fresh) (pfb_register_bin c fresh) = w).
    { unfold worker_of, route. cbn [sinks_init sk_workers]. rewrite length_replicate.
      rewrite lookup_replicate_2 by (apply Nat.mod_upper_bound; lia). done. }
    rewrite Hr. destruct Hw as [-> ->]. split; try done.
    + cbn. solve_Permutation.
    + cbn. unfold PFB_OUTBUF_SAMPLES. lia.
    + cbn. unfold PFB_OUTBUF_SAMPLES. lia.
  - fold w. assert (G : forall k, total_load (replicate k w) = 0%Z); [|by rewrite G].
    intros k. induction k as [|k IH]; [done|]. change (load w + total_load (replicate k w) = 0)%Z. by rewrite IH.
Qed.

Lemma load_nonneg w : (0 <= load w)%Z.
Proof. unfold load. destruct (sw_pc w); lia. Qed.

Lemma total_load_zero l : total_load l = 0%Z -> Forall (fun w => load w = 0%Z) l.
Proof.
  assert (N : forall l, (0 <= total_load l)%Z).
  { clear. induction l as [|w l IH]; [done|]. change (0 <= load w + total_load l)%Z. pose proof (load_nonneg w). lia. }
  induction l as [|w l IH]; intros H; [done|]. change (load w + total_load l = 0)%Z in H.
  pose proof (load_nonneg w). pose proof (N l). constructor; [lia|]. apply IH. lia.
Qed.

Lemma load_zero_items w : cq_ok (sw_queue w) -> load w = 0%Z -> to_run w = [] /\ giving_back w = [].
Proof.
  intros Hq. unfold load, to_run, in_hand, giving_back. destruct (sw_pc w); try lia. intros H. split; [|done]. cbn [app].
  apply nil_length_inv. rewrite cq_list_length by done. lia.
Qed.

(** Every sample a worker or the producer holds is accounted for. *)
Lemma quiet_delivered st i s : pool_inv st -> sk_producer st = PReady -> sk_in_flight st = 0%Z ->
  sk_sinks st !! i = Some s -> bs_outbuf_count s = 0 -> called_of st i = emitted_of st i.
Proof.
  intros I Hp Hf Hs Hc. pose proof (pi_sinks st I i s Hs) as J. unfold sink_ok in J.
  pose proof (pi_in_flight st I) as F. rewrite Hf, Hp in F. cbn [counted] in F. rewrite Z.add_0_r in F. symmetry in F.
  pose proof (total_load_zero _ F) as Z0. pose proof (worker_of_some st s I) as Hw.
  rewrite Forall_forall in Z0. specialize (Z0 _ (list_elem_of_lookup_2 _ _ _ Hw)).
  pose proof (pi_queues st I) as Q. rewrite Forall_forall in Q. specialize (Q _ (list_elem_of_lookup_2 _ _ _ Hw)).
  destruct (load_zero_items _ Q Z0) as [E1 E2]. rewrite E1, E2, Hp in J. destruct J as [_ _ _ _ _ J].
  cbn [of_sink List.filter handed app map concat] in J. unfold partial in J. rewrite Hc, take_0, app_nil_r in J. exact J.
Qed.

(** What is left for the workers to do, in steps. *)
Definition steps_left (w : sink_worker) : nat :=
  4 * cq_size (sw_queue w) + match sw_pc w with WTake => 0 | WRun _ => 3 | WReturn _ => 2 | WDone => 1 end.
Definition total_steps (l : list sink_worker) : nat := foldr (fun w a => steps_left w + a) 0 l.
Definition work_left (st : sinks) : nat := total_steps (sk_workers st).

Lemma work_left_set l j w w' : l !! j = Some w -> steps_left w' < steps_left w -> total_steps (<[j := w']> l) < total_steps l.
Proof.
  revert j. induction l as [|x l IH]; intros [|j] H Hlt; [done|done| |].
  - injection H as ->. change (steps_left w' + total_steps l < steps_left w + total_steps l). lia.
  - change (steps_left x + total_steps (<[j := w']> l) < steps_left x + total_steps l). pose proof (IH j H Hlt). lia.
Qed.

Lemma work_decreases j st st' : work j st = Some st' -> work_left st' < work_left st.
Proof.
  unfold work. destruct (sk_workers st !! j) as [w|] eqn:Hw; [|done]. cbn [mbind option_bind]. unfold work_left.
  destruct (sw_pc w) as [|item|item|] eqn:Hpc.
  - unfold cq_pop. destruct (Nat.eqb_spec (cq_size (sw_queue w)) 0) as [|E]; [done|].
    destruct (cq_slots (sw_queue w) !! cq_head (sw_queue w)) as [x|]; [|done]. cbn [mbind option_bind].
    intros H. apply (inj Some) in H as <-. apply (work_left_set _ j w); [done|]. unfold steps_left. rewrite Hpc.
    cbn [sw_queue sw_pc cq_size]. lia.
  - destruct (sk_sinks st !! sw_sink item); [|done]. cbn [mbind option_bind]. intros H. apply (inj Some) in H as <-.
    apply (work_left_set _ j w); [done|]. unfold steps_left. rcbn. rewrite Hpc. cbn [sw_queue sw_pc]. lia.
  - destruct (sk_sinks st !! sw_sink item); [|done]. cbn [mbind option_bind]. intros H. apply (inj Some) in H as <-.
    apply (work_left_set _ j w); [done|]. unfold steps_left. rcbn. rewrite Hpc. cbn [sw_queue sw_pc]. lia.
  - intros H. apply (inj Some) in H as <-. apply (work_left_set _ j w); [done|]. unfold steps_left. rcbn. rewrite Hpc. cbn [sw_queue sw_pc]. lia.
Qed.

(** A worker with something to do can do it. *)
Lemma busy_worker_steps st j w : pool_inv st -> sk_workers st !! j = Some w -> load w <> 0%Z -> is_Some (work j st).
Proof.
  intros I Hw Hl. unfold work. rewrite Hw. cbn [mbind option_bind]. pose proof (pi_queues st I) as Q. rewrite Forall_forall in Q.
  specialize (Q _ (list_elem_of_lookup_2 _ _ _ Hw)). destruct (sw_pc w) as [|item|item|] eqn:Hpc.
  - pose proof (cq_pop_spec _ Q) as P. destruct (cq_pop (sw_queue w)) as [[x q]|]; [eauto|]. exfalso. apply Hl.
    unfold load. rewrite Hpc, <- cq_list_length, P by done. done.
  - destruct (pi_routed st I j w item Hw) as (s & -> & _); [|eauto]. unfold to_run, in_hand. rewrite Hpc. by left.
  - destruct (pi_routed st I j w item Hw) as (s & -> & _); [|eauto]. unfold giving_back. rewrite Hpc. apply in_or_app. right. by left.
  - eauto.
Qed.

Lemma sinks_kept e st st' : sink_step e st = Some st' -> length (sk_sinks st') = length (sk_sinks st).
Proof.
  destruct e as [i y|i| |j]; cbn [sink_step].
  - unfold emit. destruct (sk_producer st), (sk_sinks st !! i); try done. intros H. apply (inj Some) in H as <-. apply length_insert.
  - unfold flush. destruct (sk_producer st), (sk_sinks st !! i); try done. intros H. apply (inj Some) in H as <-.
    by destruct (_ =? 0).
  - unfold produce. destruct (sk_producer st) as [|i|i b n|i b n]; [done| | |].
    + destruct (sk_sinks st !! i) as [s|]; [|done]. destruct (bs_free_stack s); [done|]. intros H. apply (inj Some) in H as <-. apply length_insert.
    + intros H. by apply (inj Some) in H as <-.
    + destruct (sk_sinks st !! i) as [s|]; [|done]. cbn [mbind option_bind]. destruct (sk_workers st !! route st s) as [w|]; [|done].
      cbn [mbind option_bind]. destruct (cq_push _ _); [|done]. intros H. by apply (inj Some) in H as <-.
  - unfold work. destruct (sk_workers st !! j) as [w|]; [|done]. cbn [mbind option_bind]. destruct (sw_pc w) as [|item|item|].
    + destruct (cq_pop _) as [[x q]|]; [|done]. intros H. by apply (inj Some) in H as <-.
    + destruct (sk_sinks st !! sw_sink item); [|done]. intros H. by apply (inj Some) in H as <-.
    + destruct (sk_sinks st !! sw_sink item); [|done]. cbn [mbind option_bind]. intros H. apply (inj Some) in H as <-. apply length_insert.
    + intros H. by apply (inj Some) in H as <-.
Qed.

Lemma sinks_kept_run es : forall st st', sink_run es st = Some st' -> length (sk_sinks st') = length (sk_sinks st).
Proof.
  induction es as [|e es IH]; intros st st'; cbn [sink_run]; [by intros [= <-]|].
  destruct (sink_step e st) as [st1|] eqn:E; [|done]. cbn [mbind option_bind]. intros H. rewrite (IH _ _ H).
  by apply (sinks_kept e).
Qed.

(** C34: no sample is lost, repeated or reordered on its way to a decoder, and
    the pool does not deadlock.  Under every interleaving of the producer with
    the workers, the samples handed to a channel's callback are, in order, a
    prefix of the outputs emitted to it, although a batch is handed over by
    reference to a buffer that is used again; when the producer is done, the
    channel's buffer is flushed and in_flight is 0, all of them have been
    handed over.  Whenever the producer has to wait, for a free buffer or for
    room in a queue, some worker can go on. *)
Theorem sinks_deliver_in_order n channels fresh es st : 0 < n -> length fresh = SINK_RING_N ->
  Forall (fun b => length b = PFB_OUTBUF_SAMPLES) fresh -> sink_run es (sinks_init n channels fresh) = Some st ->
  (forall i, i < length channels -> exists s, sk_sinks st !! i = Some s /\ called_of st i `prefix_of` emitted_of st i /\
     (sk_producer st = PReady -> sk_in_flight st = 0%Z -> bs_outbuf_count s = 0 -> called_of st i = emitted_of st i)) /\
  (sk_producer st <> PReady -> is_Some (produce st) \/ exists j, is_Some (work j st)).
Proof.
  intros Hn Hf Hb Hrun. pose proof (sink_run_inv es _ st (init_pool_inv n channels fresh Hn Hf Hb) Hrun) as I. split.
  - intros i Hi. pose proof (sinks_kept_run _ _ _ Hrun) as Hl. cbn [sinks_init sk_sinks] in Hl. rewrite length_map in Hl.
    destruct (lookup_lt_is_Some_2 (sk_sinks st) i) as [s Hs]; [lia|]. exists s. split; [done|]. split.
    + destruct (pi_sinks st I i s Hs) as [_ _ _ _ _ <-]. apply prefix_app_r. done.
    + intros Hp Hq Hc. by apply (quiet_delivered st i s).
  - intros Hp. destruct (sk_producer st) as [|i|i b k|i b k] eqn:Ep; [done| | |].
    + destruct (pi_target st I i) as [s Hs]; [by rewrite Ep|]. unfold produce. rewrite Ep, Hs.
      destruct (bs_free_stack s) as [|b rest] eqn:Hfree; [|left; eauto]. right. exists (route st s).
      apply (busy_worker_steps st _ (worker_of st s) I); [by apply worker_of_some|].
      intros L. pose proof (pi_queues st I) as Q. rewrite Forall_forall in Q.
      specialize (Q _ (list_elem_of_lookup_2 _ _ _ (worker_of_some st s I))). destruct (load_zero_items _ Q L) as [E1 E2].
      pose proof (pi_sinks st I i s Hs) as J. unfold sink_ok in J. rewrite E1, E2, Ep in J. destruct J as [_ _ J _ _ _].
      rewrite Hfree in J. apply Permutation_length in J. discriminate J.
    + left. unfold produce. rewrite Ep. eauto.
    + destruct (pi_target st I i) as [s Hs]; [by rewrite Ep|]. unfold produce. rewrite Ep, Hs. cbn [mbind option_bind].
      rewrite (worker_of_some st s I). cbn [mbind option_bind].
      pose proof (pi_queues st I) as Q. rewrite Forall_forall in Q.
      specialize (Q _ (list_elem_of_lookup_2 _ _ _ (worker_of_some st s I))).
      pose proof (cq_push_spec (sw_queue (worker_of st s)) (mk_work i b k) Q) as P.
      destruct (cq_push _ _) as [q|]; [left; cbn; eauto|]. right. exists (route st s).
      apply (busy_worker_steps st _ (worker_of st s) I); [by apply worker_of_some|].
      unfold load. rewrite P. pose proof (cq_cap_pos _ Q). destruct (sw_pc (worker_of st s)); lia.
Qed.

(** The wait of pfb_flush ends.  From any state the producer can have
    reached, the workers take at most [work_left] steps before there is
    nothing left for them to do, however they are scheduled; then in_flight
    counts only what the producer is about to enqueue, so with the producer
    waiting in pfb_flush it is 0, and every flushed channel has been handed
    all its samples. *)
Theorem flush_quiesces n channels fresh es st js st' : 0 < n -> length fresh = SINK_RING_N ->
  Forall (fun b => length b = PFB_OUTBUF_SAMPLES) fresh -> sink_run es (sinks_init n channels fresh) = Some st ->
  sk_producer st = PReady -> sink_run (map Work js) st = Some st' ->
  length js <= work_left st /\
  ((forall j, work j st' = None) -> sk_in_flight st' = 0%Z /\
   forall i s, sk_sinks st' !! i = Some s -> bs_outbuf_count s = 0 -> called_of st' i = emitted_of st' i).
Proof.
  intros Hn Hf Hb Hrun Hp Hjs. pose proof (sink_run_inv es _ st (init_pool_inv n channels fresh Hn Hf Hb) Hrun) as I.
  pose proof (sink_run_inv _ _ _ I Hjs) as I'.
  assert (Hp' : sk_producer st' = PReady).
  { clear - Hp Hjs. revert st Hp Hjs. induction js as [|j js IH]; intros st Hp; cbn [map sink_run]; [by intros [= <-]|].
    destruct (sink_step (Work j) st) as [st1|] eqn:E; [|done]. cbn [mbind option_bind]. apply IH.
    cbn [sink_step] in E. unfold work in E. destruct (sk_workers st !! j) as [w|]; [|done]. cbn [mbind option_bind] in E.
    destruct (sw_pc w) as [|item|item|].
    - destruct (cq_pop _) as [[x q]|]; [|done]. by apply (inj Some) in E as <-.
    - destruct (sk_sinks st !! sw_sink item); [|done]. by apply (inj Some) in E as <-.
    - destruct (sk_sinks st !! sw_sink item); [|done]. by apply (inj Some) in E as <-.
    - by apply (inj Some) in E as <-. }
  split.
  - clear - Hjs. revert st Hjs. induction js as [|j js IH]; intros st; cbn [map sink_run length]; [lia|].
    destruct (sink_step (Work j) st) as [st1|] eqn:E; [|done]. cbn [mbind option_bind]. intros H. specialize (IH st1 H).
    apply work_decreases in E. lia.
  - intros Hidle. assert (F : sk_in_flight st' = 0%Z); [|split; [done|]; intros i s Hs Hc; by apply (quiet_delivered st' i s)].
    rewrite (pi_in_flight st' I'), Hp'. cbn [counted]. rewrite Z.add_0_r.
    assert (Z0 : forall w, In w (sk_workers st') -> load w = 0%Z).
    { intros w Hw. apply list_elem_of_In, list_elem_of_lookup in Hw as [j Hj]. destruct (Z.eq_dec (load w) 0%Z) as [|E]; [done|].
      destruct (busy_worker_steps st' j w I' Hj E) as [x Hx]. by rewrite Hidle in Hx. }
    revert Z0. induction (sk_workers st') as [|w l IH]; intros Z0; [done|]. change (load w + total_load l = 0)%Z.
    rewrite (Z0 w), IH; [done| |by left]. intros v Hv. apply Z0. by right.
Qed.
End Sinks.

(** ** A run: one worker, two channels, three outputs, a flush *)

Definition sink_demo_fresh : list (list Z) := replicate 4 (replicate PFB_OUTBUF_SAMPLES 0%Z).
Definition sink_demo : list (sink_event (C := Z)) :=
  [Emit 0 7%Z; Emit 1 9%Z; Emit 0 8%Z; Flush 0; Produce; Produce; Produce; Work 0; Flush 1; Produce; Produce; Work 0; Produce].

Lemma sinks_deliver_in_order_witness :
  exists st, sink_run sink_demo (sinks_init 1 [3; 5] sink_demo_fresh) = Some st /\
    called_of st 0 `prefix_of` emitted_of st 0 /\ called_of st 0 = [7; 8]%Z /\ called_of st 1 = [].
Proof.
  destruct (sink_run sink_demo (sinks_init 1 [3; 5] sink_demo_fresh)) as [st|] eqn:E; [|vm_compute in E; discriminate E].
  exists st. split; [reflexivity|].
  destruct (sinks_deliver_in_order 1 [3; 5] sink_demo_fresh sink_demo st) as [H _]; [lia|reflexivity| |exact E|].
  - apply Forall_replicate. apply length_replicate.
  - destruct (H 0) as (s & _ & Hp & _); [cbn; lia|]. split; [exact Hp|].
    apply (f_equal (option_map (fun st => (called_of st 0, called_of st 1)))) in E. vm_compute in E.
    injection E as E1 E2. split; symmetry; assumption.
Defined.

Lemma flush_quiesces_witness :
  exists st st', sink_run sink_demo (sinks_init 1 [3; 5] sink_demo_fresh) = Some st /\
    sink_run (map Work (replicate 6 0)) st = Some st' /\ sk_in_flight st' = 0%Z /\ 6 <= work_left st.
Proof.
  destruct (sink_run sink_demo (sinks_init 1 [3; 5] sink_demo_fresh)) as [st|] eqn:E; [|vm_compute in E; discriminate E].
  exists st. destruct (sink_run (map Work (replicate 6 0)) st) as [st'|] eqn:E'.
  - exists st'. split; [reflexivity|]. split; [reflexivity|].
    destruct (flush_quiesces 1 [3; 5] sink_demo_fresh sink_demo st (replicate 6 0) st') as [H1 H2].
    + lia.
    + reflexivity.
    + apply Forall_replicate, length_replicate.
    + exact E.
    + apply (f_equal (option_map sk_producer)) in E. vm_compute in E. injection E as E. symmetry. exact E.
    + exact E'.
    + split; [|exact H1]. apply H2. intros j.
      assert (B : match sink_run sink_demo (sinks_init 1 [3; 5] sink_demo_fresh) with
        Some st => sink_run (map Work (replicate 6 0)) st | None => None end = Some st')
        by (rewrite E; exact E').
      vm_compute in B. injection B as <-. destruct j as [|j]; [vm_compute; reflexivity|]. reflexivity.
  - exfalso. assert (B : match sink_run sink_demo (sinks_init 1 [3; 5] sink_demo_fresh) with
        Some st => sink_run (map Work (replicate 6 0)) st | None => None end = None)
        by (rewrite E; exact E').
    vm_compute in B. discriminate B.
Defined.
