(* ===== verification/Channelizer.v ===== *)
(** The channelizer (src/channelizer.c): grouping of channels by bandwidth and
    oversampling, the assignment of frequencies to bins of a filter bank, and
    the fan-out of samples to the banks.

    The rotation of a pre-shift and the conversion of int8 samples are
    parameters.  add_mu serialises additions; an addition and the processing
    of a batch are atomic here because a new group or sink is published whole.
    What a bank emits is handed to the sinks of PfbSinks.v. *)

From S2P Require Import Prelude CFloat Focused Pfb.

Local Open Scope Z_scope.

Definition MAX_PFB_GROUPS : nat := 8.
Definition PFB_TAPS_PER_BR : Z := 12.
Definition CHANNELIZER_MAX_CHANNELS : nat := 1024.

Record channel_cfg := mk_channel_cfg {
  cc_f_hz : Z;
  cc_bw_hz : Z;
  cc_sf : Z;
  cc_cr : Z;
  cc_os_factor : Z;
}.

Record chan_state := mk_chan { cn_cfg : channel_cfg; cn_group_idx : nat; cn_bin : nat }.

(** [(int)round(x)]: half away from zero. *)
Definition f64_round (x : spec_float) : Z :=
  match x with
  | S754_finite s m e =>
      let q := if 0 <=? e then Zpos m * 2 ^ e else (Zpos m + 2 ^ (- e - 1)) / 2 ^ (- e) in if s then - q else q
  | _ => 0
  end.

Section Channelizer.
Context {C F : Type} `{ops : PfbOps C F} (rotation : spec_float -> spec_float -> C) (of_i8 : Z -> Z -> C).

Record pfb_group := mk_group {
  gr_bw_hz : Z;
  gr_os_factor : Z;
  gr_pfb : pfb (C := C) (F := F);
  gr_sinks : list (nat * nat);       (* (bin, channel), the latest registration first *)
  gr_bin_0_freq : spec_float;
}.

Record channelizer := mk_channelizer {
  cz_f_center : Z;
  cz_samp_rate : Z;
  cz_channels : list chan_state;     (* channels[0 .. n_channels), the index is the id *)
  cz_groups : list pfb_group;
}.

Definition channelizer_create (f_center samp_rate : Z) : channelizer := mk_channelizer f_center samp_rate [] [].

Fixpoint group_index (gs : list pfb_group) (bw_hz os_factor : Z) : option nat :=
  match gs with
  | [] => None
  | g :: t => if (gr_bw_hz g =? bw_hz) && (gr_os_factor g =? os_factor) then Some O
              else option_map S (group_index t bw_hz os_factor)
  end.

(** [None]: the return value -1; nothing is published then. *)
Definition find_or_create_group (c : channelizer) (bw_hz os_factor : Z) (first_channel_hz : spec_float)
  : option (nat * channelizer) :=
  match group_index (cz_groups c) bw_hz os_factor with
  | Some g => Some (g, c)
  | None =>
      if (MAX_PFB_GROUPS <=? length (cz_groups c))%nat then None
      else if negb (cz_samp_rate c mod bw_hz =? 0) then None
      else
        let M := cz_samp_rate c / bw_hz in
        if M <? 1 then None
        else
          let rate := f64_of_Z (cz_samp_rate c) in
          let pre_shift := f64_sub first_channel_hz (f64_of_Z (cz_f_center c)) in
          match pfb_create_os M PFB_TAPS_PER_BR (rotation pre_shift rate) (f64_ltb f_zero rate) os_factor with
          | None => None
          | Some p => Some (length (cz_groups c),
                            c {{ cz_groups := cz_groups c ++ [mk_group bw_hz os_factor p [] first_channel_hz] }})
          end
  end.

(** The bin of a frequency in a group of [M] channels. *)
Definition bin_of (g : pfb_group) (f_hz bw_hz : Z) : nat :=
  let M := Z.of_nat (pf_M (gr_pfb g)) in
  let offset := f64_sub (f64_of_Z f_hz) (gr_bin_0_freq g) in
  let b_signed := f64_round (f64_div offset (f64_of_Z bw_hz)) in
  Z.to_nat (Z.rem (Z.rem b_signed M + M) M).

Definition outside (c : channelizer) (f_hz : Z) : bool :=
  let half := f64_mul (f64_of_Z (cz_samp_rate c)) f64_half in
  let rf_lo := f64_sub (f64_of_Z (cz_f_center c)) half in
  let rf_hi := f64_add (f64_of_Z (cz_f_center c)) half in
  f64_ltb (f64_of_Z f_hz) rf_lo || f64_ltb rf_hi (f64_of_Z f_hz).

(** The id, or [None] for -1; the allocations succeed. *)
Definition channelizer_add_channel (c : channelizer) (cfg : channel_cfg) : option nat * channelizer :=
  if (CHANNELIZER_MAX_CHANNELS <=? length (cz_channels c))%nat then (None, c)
  else if (cc_bw_hz cfg <=? 0) || (cz_samp_rate c =? 0) then (None, c)
  else if cz_samp_rate c <? cc_bw_hz cfg then (None, c)
  else
    let os := if 0 <? cc_os_factor cfg then cc_os_factor cfg else 1 in
    match find_or_create_group c (cc_bw_hz cfg) os (f64_of_Z (cc_f_hz cfg)) with
    | None => (None, c)
    | Some (gidx, c) =>
        match cz_groups c !! gidx with
        | None => (None, c)
        | Some g =>
            let bin := bin_of g (cc_f_hz cfg) (cc_bw_hz cfg) in
            if outside c (cc_f_hz cfg) then (None, c)
            else
              let slot := length (cz_channels c) in
              (Some slot,
               c {{ cz_channels := cz_channels c ++ [mk_chan cfg gidx bin];
                    cz_groups := <[gidx := g {{ gr_sinks := (bin, slot) :: gr_sinks g }}]> (cz_groups c) }})
        end
    end.

(** The values of a row, for each bin to each of its sinks. *)
Definition emit_row (g : pfb_group) (row : list C) : list (nat * C) :=
  flat_map (fun b => map (fun s => (snd s, nth b row pzero)) (List.filter (fun s => Nat.eqb (fst s) b) (gr_sinks g)))
    (seq 0 (pf_M (gr_pfb g))).

Definition group_process (g : pfb_group) (iq : list C) : pfb_group * list (nat * C) :=
  let '(p, rows) := pfb_process (gr_pfb g) iq in (g {{ gr_pfb := p }}, flat_map (emit_row g) rows).

(** Each group processes the batch; the result lists what each channel is
    handed. *)
Definition channelizer_process_float (c : channelizer) (iq : list C) : channelizer * list (nat * C) :=
  let rs := map (fun g => group_process g iq) (cz_groups c) in
  (c {{ cz_groups := map fst rs }}, concat (map snd rs)).

Definition channelizer_process_int8 (c : channelizer) (iq : list (Z * Z)) : channelizer * list (nat * C) :=
  channelizer_process_float c (map (fun s => of_i8 (fst s) (snd s)) iq).
End Channelizer.

(** ** What each channel is handed *)

Section Facts.
Context {C F : Type} `{ops : PfbOps C F} (rotation : spec_float -> spec_float -> C).
Local Abbreviation channelizer := (channelizer (C := C) (F := F)).
Local Abbreviation add := (channelizer_add_channel rotation).

(** What channel [k] is handed among the deliveries of a batch. *)
Definition received (k : nat) (out : list (nat * C)) : list C :=
  map snd (List.filter (fun e => Nat.eqb (fst e) k) out).

(** The bins channel [k] is registered at. *)
Definition targets (k : nat) (sinks : list (nat * nat)) : list nat :=
  map fst (List.filter (fun s => Nat.eqb (snd s) k) sinks).

Lemma received_app k a b : received k (a ++ b) = received k a ++ received k b.
Proof. unfold received. by rewrite List.filter_app, map_app. Qed.

Lemma received_flat_map {A} k (f : A -> list (nat * C)) l :
  received k (flat_map f l) = flat_map (fun x => received k (f x)) l.
Proof. induction l as [|x l IH]; [done|]. cbn [flat_map]. by rewrite received_app, IH. Qed.

Lemma received_bin k b v sinks :
  received k (map (fun s => (snd s, v)) (List.filter (fun s => Nat.eqb (fst s) b) sinks)) =
  map (fun _ => v) (List.filter (fun b' => Nat.eqb b' b) (targets k sinks)).
Proof.
  unfold received, targets. induction sinks as [|[b' j] t IH]; [done|]. cbn [List.filter fst snd].
  destruct (Nat.eqb_spec b' b) as [->|Hb]; destruct (Nat.eqb_spec j k) as [->|Hj]; cbn [map List.filter fst snd];
    rewrite ?Nat.eqb_refl; cbn [map snd]; rewrite ?IH; try done.
  - apply Nat.eqb_neq in Hj. by rewrite Hj.
  - apply Nat.eqb_neq in Hb. by rewrite Hb.
Qed.

Lemma flat_map_one {A} (f : nat -> A) b m a : (a <= b < a + m)%nat ->
  flat_map (fun x => map (fun _ => f x) (List.filter (fun b' => Nat.eqb b' x) [b])) (seq a m) = [f b].
Proof.
  revert a. induction m as [|m IH]; intros a H; [lia|]. cbn [seq flat_map List.filter].
  destruct (Nat.eqb_spec b a) as [->|Hne]; cbn [map app].
  - f_equal. clear IH H. enough (G : forall m a', (a < a')%nat -> flat_map (fun x => map (fun _ => f x) (List.filter (fun b' => Nat.eqb b' x) [a])) (seq a' m) = [])
      by (apply G; lia).
    clear m. intros m. induction m as [|m IH]; intros a' H; [done|]. cbn [seq flat_map List.filter].
    destruct (Nat.eqb_spec a a'); [lia|]. cbn [map app]. apply IH. lia.
  - apply IH. lia.
Qed.

Lemma emit_row_received g row k b : targets k (gr_sinks g) = [b] -> (b < pf_M (gr_pfb g))%nat ->
  received k (emit_row g row) = [nth b row pzero].
Proof.
  intros Ht Hb. unfold emit_row. rewrite received_flat_map.
  erewrite flat_map_ext by (intros x; by rewrite received_bin, Ht).
  apply (flat_map_one (fun x => nth x row pzero)). lia.
Qed.

Lemma emit_row_silent g row k : targets k (gr_sinks g) = [] -> received k (emit_row g row) = [].
Proof.
  intros Ht. unfold emit_row. rewrite received_flat_map.
  erewrite flat_map_ext by (intros x; by rewrite received_bin, Ht). by induction (seq _ _).
Qed.

(** ** The bank keeps its size *)

Lemma pfb_step_M p s : pf_M (fst (pfb_step p s)) = pf_M p.
Proof.
  unfold pfb_step, push_sample_os, push_sample, nco, pfb_cycle_os, pfb_one_cycle, wrapped, stored, recorded, bump_cycle.
  repeat (cbn [fst]; rcbn; match goal with |- context [if ?b then _ else _] => destruct b | |- context [match ?n with O => _ | S _ => _ end] => destruct n end);
  cbn [fst]; rcbn; done.
Qed.

Lemma pfb_process_M l : forall p, pf_M (fst (pfb_process p l)) = pf_M p.
Proof.
  induction l as [|s l IH]; intros p; [done|]. cbn [pfb_process]. pose proof (pfb_step_M p s) as H1.
  destruct (pfb_step p s) as [p1 r]. specialize (IH p1). destruct (pfb_process p1 l) as [p2 rs]. cbn [fst] in *. congruence.
Qed.

(** ** The registry *)

Lemma pair_inj {A B} (a a' : A) (b b' : B) : (a, b) = (a', b') -> a = a' /\ b = b'.
Proof. intros H. by simplify_eq. Qed.

Definition registered (c : channelizer) (i k : nat) : list nat :=
  match cz_channels c !! k with
  | Some s => if Nat.eqb (cn_group_idx s) i then [cn_bin s] else []
  | None => []
  end.

(** The channels and the sinks of the banks agree: a channel is registered
    once, in its group, at its bin; the tables are within their bounds. *)
Record cz_ok (c : channelizer) : Prop := {
  ok_groups : (length (cz_groups c) <= MAX_PFB_GROUPS)%nat;
  ok_channels : (length (cz_channels c) <= CHANNELIZER_MAX_CHANNELS)%nat;
  ok_bin : forall k s, cz_channels c !! k = Some s ->
    exists g, cz_groups c !! cn_group_idx s = Some g /\ (cn_bin s < pf_M (gr_pfb g))%nat;
  ok_sinks : forall i g k, cz_groups c !! i = Some g -> targets k (gr_sinks g) = registered c i k;
  ok_M : forall i g, cz_groups c !! i = Some g ->
    Z.of_nat (pf_M (gr_pfb g)) = cz_samp_rate c / gr_bw_hz g /\ (0 < pf_M (gr_pfb g))%nat;
}.

(** The bank of a group, whatever sinks it has. *)
Definition same_bank (g g' : pfb_group (C := C) (F := F)) : Prop :=
  gr_pfb g' = gr_pfb g /\ gr_bw_hz g' = gr_bw_hz g /\ gr_os_factor g' = gr_os_factor g /\ gr_bin_0_freq g' = gr_bin_0_freq g.

Lemma create_ok f r : cz_ok (channelizer_create f r).
Proof. split; cbn; [unfold MAX_PFB_GROUPS; lia|unfold CHANNELIZER_MAX_CHANNELS; lia|done..]. Qed.

Lemma group_index_some gs bw os i : group_index gs bw os = Some i ->
  exists g, gs !! i = Some g /\ gr_bw_hz (C := C) (F := F) g = bw /\ gr_os_factor g = os.
Proof.
  revert i. induction gs as [|g gs IH]; intros i H; [done|]. cbn [group_index] in H.
  destruct ((gr_bw_hz g =? bw) && (gr_os_factor g =? os)) eqn:E.
  - injection H as <-. exists g. zb. done.
  - destruct (group_index gs bw os) as [j|] eqn:Ej; [|done]. injection H as <-. by apply IH.
Qed.

(** A group found or created: the registry is as before and the group is
    there. *)
Lemma find_or_create_group_spec c bw os hz i c' : cz_ok c -> find_or_create_group rotation c bw os hz = Some (i, c') ->
  cz_ok c' /\ cz_channels c' = cz_channels c /\ cz_samp_rate c' = cz_samp_rate c /\ cz_f_center c' = cz_f_center c /\
  (forall j g, cz_groups c !! j = Some g -> cz_groups c' !! j = Some g) /\
  (exists g, cz_groups c' !! i = Some g /\ gr_bw_hz g = bw /\ gr_os_factor g = os) /\
  (forall j g, cz_groups c' !! j = Some g -> cz_groups c !! j = Some g \/ gr_bw_hz g = bw /\ gr_bin_0_freq g = hz).
Proof.
  intros Hok. unfold find_or_create_group. destruct (group_index _ _ _) as [j|] eqn:Ei.
  { intros H. injection H as <- <-. do 5 (split; [done|]). split; [by apply group_index_some|]. auto. }
  destruct (Nat.leb_spec MAX_PFB_GROUPS (length (cz_groups c))) as [|Hn]; [done|].
  destruct (negb _); [done|]. destruct (Z.ltb_spec (cz_samp_rate c / bw) 1) as [|HM]; [done|].
  destruct (pfb_create_os _ _ _ _ _) as [p|] eqn:Ep; [|done]. intros H. apply (inj Some), pair_inj in H as [<- <-].
  destruct (created _ _ _ _ _ _ Ep) as (_ & _ & EM & _).
  destruct Hok as [H1 H2 H3 H4 H5]. split; [|do 3 (split; [done|])].
  - split; rcbn; [rewrite length_app; cbn [length]; lia|done| | |].
    + intros k s Hs. destruct (H3 k s Hs) as (g & Hg & Hb). exists g. split; [|done]. by apply lookup_app_l_Some.
    + intros i g k Hg. unfold registered. rcbn. apply lookup_app_Some in Hg as [Hg|[Hle Hg]]; [by rewrite (H4 i g k Hg)|].
      apply list_lookup_singleton_Some in Hg as [Hi <-]. cbn [gr_sinks]. destruct (cz_channels c !! k) as [s|] eqn:Es; [|done].
      destruct (H3 k s Es) as (g' & Hg' & _). apply lookup_lt_Some in Hg'.
      destruct (Nat.eqb_spec (cn_group_idx s) i); [lia|done].
    + intros i g Hg. apply lookup_app_Some in Hg as [Hg|[Hle Hg]]; [by apply (H5 i)|].
      apply list_lookup_singleton_Some in Hg as [_ <-]. cbn [gr_pfb gr_bw_hz]. rewrite EM. lia.
  - split; [intros j g Hg; by apply lookup_app_l_Some|].
    split; [eexists; split; [by apply list_lookup_middle|done]|].
    intros j g Hg. apply lookup_app_Some in Hg as [Hg|[_ Hg]]; [by left|].
    apply list_lookup_singleton_Some in Hg as [_ <-]. by right.
Qed.

Lemma bin_of_lt g f bw : (0 < pf_M (gr_pfb (C := C) (F := F) g))%nat -> (bin_of g f bw < pf_M (gr_pfb g))%nat.
Proof.
  intros H. unfold bin_of. set (m := Z.of_nat _). set (x := f64_round _).
  pose proof (Z.rem_bound_abs x m ltac:(lia)). rewrite Z.rem_mod_nonneg by lia.
  pose proof (Z.mod_pos_bound (Z.rem x m + m) m). lia.
Qed.

(** The state with a channel appended and registered. *)
Definition with_channel (c : channelizer) (cfg : channel_cfg) (i : nat) (g : pfb_group) (bin : nat) : channelizer :=
  c {{ cz_channels := cz_channels c ++ [mk_chan cfg i bin];
       cz_groups := <[i := g {{ gr_sinks := (bin, length (cz_channels c)) :: gr_sinks g }}]> (cz_groups c) }}.

Lemma with_channel_groups c cfg i g bin j h : cz_groups c !! i = Some g -> cz_groups (with_channel c cfg i g bin) !! j = Some h ->
  exists h0, cz_groups c !! j = Some h0 /\ same_bank h0 h /\
    gr_sinks h = (if Nat.eqb i j then [(bin, length (cz_channels c))] else []) ++ gr_sinks h0.
Proof.
  intros Hg. unfold with_channel. rcbn. destruct (Nat.eqb_spec i j) as [<-|Hij].
  - rewrite list_lookup_insert_eq by (by apply lookup_lt_Some in Hg). intros H. apply (inj Some) in H as <-. rcbn. by exists g.
  - rewrite list_lookup_insert_ne by done. intros H. by exists h.
Qed.

Lemma with_channel_keeps c cfg i g bin j h : cz_groups c !! i = Some g -> cz_groups c !! j = Some h ->
  exists h', cz_groups (with_channel c cfg i g bin) !! j = Some h' /\ same_bank h h'.
Proof.
  intros Hg Hh. unfold with_channel. rcbn. destruct (decide (j = i)) as [->|Hne].
  - rewrite list_lookup_insert_eq by (by apply lookup_lt_Some in Hg). eexists. split; [done|]. rewrite Hg in Hh. injection Hh as <-. done.
  - rewrite list_lookup_insert_ne by done. by exists h.
Qed.

Lemma with_channel_ok c cfg i g bin : cz_ok c -> (length (cz_channels c) < CHANNELIZER_MAX_CHANNELS)%nat ->
  cz_groups c !! i = Some g -> (bin < pf_M (gr_pfb g))%nat -> cz_ok (with_channel c cfg i g bin).
Proof.
  intros [H1 H2 H3 H4 H5] Hn Hg Hbin. split.
  - unfold with_channel. rcbn. by rewrite length_insert.
  - unfold with_channel. rcbn. rewrite length_app. cbn [length]. lia.
  - intros k s Hs. assert (Hs' : (cz_channels c ++ [mk_chan cfg i bin]) !! k = Some s) by exact Hs.
    apply lookup_app_Some in Hs' as [Hs'|[_ Hs']].
    + destruct (H3 k s Hs') as (h & Hh & Hb). destruct (with_channel_keeps c cfg i g bin _ h Hg Hh) as (h' & Hh' & Ep & _).
      exists h'. by rewrite Ep.
    + apply list_lookup_singleton_Some in Hs' as [_ <-]. cbn [cn_group_idx cn_bin].
      destruct (with_channel_keeps c cfg i g bin _ g Hg Hg) as (h' & Hh' & Ep & _). exists h'. by rewrite Ep.
  - intros j h k Hh. destruct (with_channel_groups _ _ _ _ _ _ _ Hg Hh) as (h0 & Hh0 & _ & Es).
    unfold targets. rewrite Es, List.filter_app, map_app. fold (targets k (gr_sinks h0)). rewrite (H4 j h0 k Hh0).
    unfold registered, with_channel. rcbn. destruct (Nat.lt_trichotomy k (length (cz_channels c))) as [Hk|[->|Hk]].
    + rewrite lookup_app_l by done. destruct (Nat.eqb i j); [|done]. cbn [List.filter snd].
      destruct (Nat.eqb_spec (length (cz_channels c)) k); [lia|done].
    + rewrite list_lookup_middle by done. rewrite lookup_ge_None_2 by done. cbn [cn_group_idx cn_bin].
      destruct (Nat.eqb i j); [|done]. cbn [List.filter snd]. by rewrite Nat.eqb_refl.
    + rewrite !lookup_ge_None_2 by (rewrite ?length_app; cbn [length]; lia). destruct (Nat.eqb i j); [|done].
      cbn [List.filter snd]. destruct (Nat.eqb_spec (length (cz_channels c)) k); [lia|done].
  - intros j h Hh. destruct (with_channel_groups _ _ _ _ _ _ _ Hg Hh) as (h0 & Hh0 & (-> & -> & _) & _). apply (H5 j h0 Hh0).
Qed.

(** An addition, on every branch: the registry invariant holds afterwards,
    earlier channels and banks are untouched, and an accepted channel is
    registered at the bin of its frequency in a group of its bandwidth. *)
Lemma add_channel_spec c cfg k c' : cz_ok c -> add c cfg = (k, c') ->
  cz_ok c' /\
  (forall j s, cz_channels c !! j = Some s -> cz_channels c' !! j = Some s) /\
  (forall j g, cz_groups c !! j = Some g -> exists g', cz_groups c' !! j = Some g' /\ same_bank g g') /\
  (forall j g', cz_groups c' !! j = Some g' -> (exists g, cz_groups c !! j = Some g /\ same_bank g g') \/
     gr_bw_hz g' = cc_bw_hz cfg /\ gr_bin_0_freq g' = f64_of_Z (cc_f_hz cfg)) /\
  cz_samp_rate c' = cz_samp_rate c /\
  match k with
  | None => cz_channels c' = cz_channels c
  | Some k => k = length (cz_channels c) /\ length (cz_channels c') = S k /\ exists i g,
      cz_groups c' !! i = Some g /\ cz_channels c' !! k = Some (mk_chan cfg i (bin_of g (cc_f_hz cfg) (cc_bw_hz cfg))) /\
      gr_bw_hz g = cc_bw_hz cfg /\ gr_os_factor g = Z.max 1 (cc_os_factor cfg)
  end.
Proof.
  intros Hok. unfold channelizer_add_channel.
  assert (Hno : cz_ok c /\ (forall j s, cz_channels c !! j = Some s -> cz_channels c !! j = Some s) /\
    (forall j g, cz_groups c !! j = Some g -> exists g', cz_groups c !! j = Some g' /\ same_bank g g') /\
    (forall j g', cz_groups c !! j = Some g' -> (exists g, cz_groups c !! j = Some g /\ same_bank g g') \/
       gr_bw_hz g' = cc_bw_hz cfg /\ gr_bin_0_freq g' = f64_of_Z (cc_f_hz cfg)) /\
    cz_samp_rate c = cz_samp_rate c /\ cz_channels c = cz_channels c).
  { do 2 (split; [done|]). split; [intros j g Hg; by exists g|]. split; [|done]. intros j g Hg. left. by exists g. }
  destruct (Nat.leb_spec CHANNELIZER_MAX_CHANNELS (length (cz_channels c))) as [|Hn]; [by intros [= <- <-]|].
  destruct ((cc_bw_hz cfg <=? 0) || _); [by intros [= <- <-]|].
  destruct (cz_samp_rate c <? cc_bw_hz cfg); [by intros [= <- <-]|].
  destruct (find_or_create_group _ _ _ _ _) as [[i c1]|] eqn:Ef; [|by intros [= <- <-]]. clear Hno.
  destruct (find_or_create_group_spec _ _ _ _ _ _ Hok Ef) as (Hok1 & Ec & Er & _ & Hkeep & (g & Hg & Ebw & Eos) & Hnew).
  rewrite Hg. destruct (outside c1 (cc_f_hz cfg)).
  { intros [= <- <-]. rewrite Ec. split; [done|]. split; [done|]. split; [|split; [|done]].
    - intros j g' Hg'. exists g'. split; [auto|done].
    - intros j g' Hg'. destruct (Hnew j g' Hg') as [?|?]; [left; by exists g'|by right]. }
  intros H. apply pair_inj in H as [<- <-]. destruct (ok_M _ Hok1 i g Hg) as [_ HM].
  pose proof (bin_of_lt g (cc_f_hz cfg) (cc_bw_hz cfg) HM) as Hbin. set (bin := bin_of g _ _) in *.
  fold (with_channel c1 cfg i g bin). rewrite <- Ec in *. split; [by apply with_channel_ok|].
  split; [intros j s Hs; by apply lookup_app_l_Some|].
  split; [intros j h Hh; apply with_channel_keeps; auto|].
  split.
  { intros j h Hh. destruct (with_channel_groups _ _ _ _ _ _ _ Hg Hh) as (h0 & Hh0 & Hs & _).
    destruct (Hnew j h0 Hh0) as [?|[E1 E2]]; [left; by exists h0|]. right. destruct Hs as (_ & -> & _ & ->). done. }
  split; [exact Er|]. split; [done|]. split; [unfold with_channel; rcbn; rewrite length_app; cbn [length]; lia|]. exists i, (g {{ gr_sinks := (bin, length (cz_channels c1)) :: gr_sinks g }}).
  split; [unfold with_channel; rcbn; apply list_lookup_insert_eq; by apply lookup_lt_Some in Hg|].
  split; [by apply list_lookup_middle|]. split; [exact Ebw|].
  change (gr_os_factor g = Z.max 1 (cc_os_factor cfg)). rewrite Eos. destruct (Z.ltb_spec 0 (cc_os_factor cfg)); lia.
Qed.

(** ** Processing *)

Lemma rows_received g k b rows : targets k (gr_sinks g) = [b] -> (b < pf_M (gr_pfb g))%nat ->
  received k (flat_map (emit_row g) rows) = map (fun row => nth b row pzero) rows.
Proof.
  intros Ht Hb. rewrite received_flat_map. induction rows as [|r rows IH]; [done|]. cbn [flat_map map].
  by rewrite IH, (emit_row_received g r k b Ht Hb).
Qed.

Lemma rows_silent g k rows : targets k (gr_sinks g) = [] -> received k (flat_map (emit_row g) rows) = [].
Proof.
  intros Ht. rewrite received_flat_map. induction rows as [|r rows IH]; [done|]. cbn [flat_map].
  by rewrite IH, (emit_row_silent g r k Ht).
Qed.

Lemma group_process_snd g iq : snd (group_process g iq) = flat_map (emit_row g) (snd (pfb_process (gr_pfb g) iq)).
Proof. unfold group_process. by destruct (pfb_process _ _). Qed.

Lemma group_process_pfb g iq : gr_pfb (fst (group_process g iq)) = fst (pfb_process (gr_pfb g) iq).
Proof. unfold group_process. by destruct (pfb_process _ _). Qed.

Lemma group_process_rest g iq : gr_bw_hz (fst (group_process g iq)) = gr_bw_hz g /\ gr_sinks (fst (group_process g iq)) = gr_sinks g.
Proof. unfold group_process. by destruct (pfb_process _ _). Qed.

Lemma process_groups c iq j : cz_groups (fst (channelizer_process_float c iq)) !! j =
  (fun g => fst (group_process g iq)) <$> cz_groups c !! j.
Proof.
  unfold channelizer_process_float. rcbn. rewrite map_map.
  change (map ?f ?l) with (f <$> l). apply list_lookup_fmap.
Qed.

Lemma process_ok c iq : cz_ok c -> cz_ok (fst (channelizer_process_float c iq)).
Proof.
  intros [H1 H2 H3 H4 H5]. split.
  - unfold channelizer_process_float. rcbn. by rewrite !length_map.
  - done.
  - intros k s Hs. destruct (H3 k s Hs) as (g & Hg & Hb). rewrite process_groups, Hg. eexists. split; [done|].
    by rewrite group_process_pfb, pfb_process_M.
  - intros i g k. rewrite process_groups. intros Hg. apply fmap_Some in Hg as (g0 & Hg0 & ->).
    destruct (group_process_rest g0 iq) as [_ ->]. apply (H4 i g0 k Hg0).
  - intros i g. rewrite process_groups. intros Hg. apply fmap_Some in Hg as (g0 & Hg0 & ->).
    rewrite group_process_pfb, pfb_process_M. destruct (group_process_rest g0 iq) as [-> _]. apply (H5 i g0 Hg0).
Qed.

(** A batch hands a channel its bin of the rows of its bank, in order. *)
Lemma process_received c iq k s g : cz_ok c -> cz_channels c !! k = Some s -> cz_groups c !! cn_group_idx s = Some g ->
  received k (snd (channelizer_process_float c iq)) =
  map (fun row => nth (cn_bin s) row pzero) (snd (pfb_process (gr_pfb g) iq)).
Proof.
  intros [_ _ H3 H4 _] Hs Hg. destruct (H3 k s Hs) as (g' & Hg' & Hb). rewrite Hg in Hg'. injection Hg' as <-.
  unfold channelizer_process_float. rcbn. rewrite map_map.
  pose proof (take_drop_middle _ _ _ Hg) as Esplit. set (i := cn_group_idx s) in *. rewrite <- Esplit.
  rewrite map_app, concat_app, received_app. cbn [map concat]. rewrite received_app.
  assert (Hrest : forall gs, (forall h, In h gs -> targets k (gr_sinks h) = []) ->
    received k (concat (map (fun h => snd (group_process h iq)) gs)) = []).
  { induction gs as [|h gs IH]; intros Hh; [done|]. cbn [map concat]. rewrite received_app, IH by (intros; apply Hh; by right).
    rewrite group_process_snd, rows_silent; [done|]. apply Hh. by left. }
  assert (Hother : forall j h, cz_groups c !! j = Some h -> j <> i -> targets k (gr_sinks h) = []).
  { intros j h Hh Hj. rewrite (H4 j h k Hh). unfold registered. rewrite Hs. fold i. by rewrite (proj2 (Nat.eqb_neq i j)) by done. }
  rewrite !Hrest.
  - rewrite app_nil_r, group_process_snd. apply rows_received; [|done]. rewrite (H4 i g k Hg). unfold registered.
    rewrite Hs. fold i. by rewrite Nat.eqb_refl.
  - intros h Hh. apply list_elem_of_In, list_elem_of_lookup in Hh as [j Hj]. rewrite lookup_drop in Hj.
    apply (Hother _ h Hj). lia.
  - intros h Hh. apply list_elem_of_In, list_elem_of_lookup in Hh as [j Hj]. apply lookup_take_Some in Hj as [Hj Hlt].
    apply (Hother _ h Hj). lia.
Qed.

(** ** Runs: channels added, at start or at run time, between batches *)

Inductive cz_op := AddChannel (cfg : channel_cfg) | Feed (iq : list C).

Definition cz_step (c : channelizer) (o : cz_op) : channelizer * list (nat * C) :=
  match o with
  | AddChannel cfg => (snd (add c cfg), [])
  | Feed iq => channelizer_process_float c iq
  end.

Fixpoint cz_run (c : channelizer) (l : list cz_op) : channelizer * list (nat * C) :=
  match l with
  | [] => (c, [])
  | o :: t => let '(c, a) := cz_step c o in let '(c, b) := cz_run c t in (c, a ++ b)
  end.

Definition fed (l : list cz_op) : list C := flat_map (fun o => match o with Feed iq => iq | AddChannel _ => [] end) l.

Lemma cz_run_ok l : forall c, cz_ok c -> cz_ok (fst (cz_run c l)).
Proof.
  induction l as [|o l IH]; intros c Hok; [done|]. cbn [cz_run].
  assert (H1 : cz_ok (fst (cz_step c o))).
  { destruct o as [cfg|iq]; cbn [cz_step fst]; [|by apply process_ok].
    destruct (add c cfg) as [k c'] eqn:E. by destruct (add_channel_spec c cfg k c' Hok E). }
  destruct (cz_step c o) as [c1 a]. specialize (IH c1 H1). by destruct (cz_run c1 l).
Qed.

Lemma cz_run_received l : forall c k s g, cz_ok c -> cz_channels c !! k = Some s -> cz_groups c !! cn_group_idx s = Some g ->
  received k (snd (cz_run c l)) = map (fun row => nth (cn_bin s) row pzero) (snd (pfb_process (gr_pfb g) (fed l))).
Proof.
  induction l as [|o l IH]; intros c k s g Hok Hs Hg; [done|]. cbn [cz_run]. destruct o as [cfg|iq]; cbn [cz_step].
  - destruct (add c cfg) as [k' c'] eqn:E. destruct (add_channel_spec c cfg k' c' Hok E) as (Hok' & Hc & Hgr & _).
    destruct (Hgr _ g Hg) as (g' & Hg' & Ep & _). cbn [snd]. specialize (IH c' k s g' Hok' (Hc _ _ Hs) Hg').
    rewrite Ep in IH. destruct (cz_run c' l). exact IH.
  - pose proof (process_received c iq k s g Hok Hs Hg) as H1. pose proof (process_ok c iq Hok) as Hok'.
    assert (Hg' : cz_groups (fst (channelizer_process_float c iq)) !! cn_group_idx s = Some (fst (group_process g iq)))
      by (by rewrite process_groups, Hg).
    specialize (IH _ k s _ Hok' Hs Hg'). rewrite group_process_pfb in IH.
    destruct (channelizer_process_float c iq) as [c' out]. cbn [fst snd] in *.
    destruct (cz_run c' l) as [c2 out2]. cbn [fst snd] in *. rewrite received_app, H1, IH.
    change (fed (Feed iq :: l)) with (iq ++ fed l). rewrite pfb_process_app. destruct (pfb_process (gr_pfb g) iq) as [p1 r1]. cbn [fst snd].
    destruct (pfb_process p1 _) as [p2 r2]. cbn [snd]. by rewrite map_app.
Qed.

(** C32: a channel is handed its own bin.  On a channelizer reached by any
    sequence of additions and batches, an accepted channel gets the next id
    and sits in a group of its bandwidth and oversampling, at a bin below the
    number of bins (sample rate over bandwidth); whatever is added and
    processed afterwards, and however the input is cut into batches, what it
    is handed is exactly its bin of the rows its filter bank computes from
    the samples fed since, in order, nothing from another bin or bank. *)
Theorem channel_gets_its_bin f_center samp_rate pre cfg k c c' post :
  c = fst (cz_run (channelizer_create f_center samp_rate) pre) -> add c cfg = (Some k, c') ->
  k = length (cz_channels c) /\
  exists s g, cz_channels c' !! k = Some s /\ cz_groups c' !! cn_group_idx s = Some g /\
    gr_bw_hz g = cc_bw_hz cfg /\ gr_os_factor g = Z.max 1 (cc_os_factor cfg) /\
    cn_bin s = bin_of g (cc_f_hz cfg) (cc_bw_hz cfg) /\ Z.of_nat (cn_bin s) < cz_samp_rate c' / cc_bw_hz cfg /\
    received k (snd (cz_run c' post)) =
    map (fun row => nth (cn_bin s) row pzero) (snd (pfb_process (gr_pfb g) (fed post))).
Proof.
  intros -> Ha. pose proof (cz_run_ok pre _ (create_ok f_center samp_rate)) as Hok.
  destruct (add_channel_spec _ _ _ _ Hok Ha) as (Hok' & _ & _ & _ & _ & -> & _ & i & g & Hg & Hs & Ebw & Eos).
  split; [done|]. eexists _, g. split; [exact Hs|]. cbn [cn_group_idx cn_bin]. do 4 (split; [done|]).
  split; [|exact (cz_run_received post _ _ _ g Hok' Hs Hg)].
  destruct (ok_M _ Hok' i g Hg) as [E HM]. rewrite <- Ebw, <- E. apply Nat2Z.inj_lt. by apply bin_of_lt.
Qed.
End Facts.

(** ** Concrete channelizers: a 2 MS/s receiver on 869.5 MHz with integer
    banks *)

(** The bank of z_pfb; the pre-shift does not rotate. *)
Definition z_rotation (_ _ : spec_float) : Z := 1.

Definition lora_cfg (f bw os : Z) : channel_cfg := mk_channel_cfg f bw 7 5 os.

Definition demo_pre : list cz_op := [AddChannel (lora_cfg 869500000 1000000 1); Feed [5; 6]].
Definition demo : channelizer := fst (cz_run z_rotation (channelizer_create 869500000 2000000) demo_pre).
Definition demo_post : list cz_op :=
  [Feed (replicate 11 0); AddChannel (lora_cfg 869500000 500000 2); Feed [1; 5; 1; 0; 2; 0]].

(** A second channel, one bandwidth up: bin 1 of the same bank. *)
Lemma channel_gets_its_bin_witness :
  let '(k, c') := channelizer_add_channel z_rotation demo (lora_cfg 870500000 1000000 1) in
  k = Some 1%nat /\
  exists s, cz_channels c' !! 1%nat = Some s /\ cn_bin s = 1%nat /\
    received 1 (snd (cz_run z_rotation c' demo_post)) = [-3; 1; 8].
Proof.
  destruct (channelizer_add_channel z_rotation demo (lora_cfg 870500000 1000000 1)) as [k c'] eqn:E.
  assert (Ek : k = Some 1%nat) by (transitivity (fst (k, c')); [reflexivity|]; rewrite <- E; vm_compute; reflexivity).
  split; [exact Ek|]. subst k.
  destruct (channel_gets_its_bin z_rotation 869500000 2000000 demo_pre (lora_cfg 870500000 1000000 1) 1 demo c' demo_post
    eq_refl E) as (_ & s & g & Hs & Hg & _ & _ & _ & _ & Hr).
  exists s. split; [exact Hs|].
  replace c' with (snd (Some 1%nat, c')) in Hs, Hg by reflexivity. rewrite <- E in Hs, Hg.
  vm_compute in Hs. injection Hs as <-. split; [reflexivity|]. rewrite Hr. vm_compute in Hg. injection Hg as <-.
  vm_compute. reflexivity.
Defined.

(** A channel off the grid of its group is accepted and silently tuned to the
    nearest bin: with 869.525 MHz anchoring the 250 kHz group, 869.400 MHz is
    handed the bin of 869.275 MHz, half a bandwidth away. *)
Theorem off_grid_channel_mistuned :
  let c := snd (channelizer_add_channel z_rotation (channelizer_create 869500000 2000000) (lora_cfg 869525000 250000 1)) in
  let '(k, c') := channelizer_add_channel z_rotation c (lora_cfg 869400000 250000 1) in
  k = Some 1%nat /\ cn_bin <$> cz_channels c' !! 1%nat = Some 7%nat /\
  869525000 + (7 - 8) * 250000 = 869275000.
Proof. vm_compute. auto. Qed.
