(* ===== verification/ChannelSet.v ===== *)
(** The channel set of the receiver (src/main.c, src/meshtastic.h): the region
    table and its channel grids, the defaults for rate and centre, the
    oversampling policy, and instantiate_channel / build_channel_set, which
    give every slot a channel of the channelizer and a decoder of its own.

    Environment variables are options, a number variable with the value atoi
    gives it.  Diagnostics on stderr are not modelled. *)

From Stdlib Require Import String.
From stdpp Require Import gmap.
From S2P Require Import Prelude CString CFloat Meshtastic LoraDecoder Focused Pfb Channelizer.

Local Open Scope string_scope.
Local Open Scope list_scope.
Local Open Scope Z_scope.

(** ** Regions *)

Record mesh_region := mk_region {
  mr_name : list Z;
  mr_f_lo_mhz : spec_float;
  mr_f_hi_mhz : spec_float;
  mr_wide_lora : bool;
}.

(** A decimal literal in thousandths: the nearest double. *)
Definition f64_milli (n : Z) : spec_float := f64_div (f64_of_Z n) (f64_of_Z 1000).

(** Names, edges in kHz and the wide flag. *)
Definition REGION_EDGES : list (list Z * Z * Z * bool) :=
  [ (str "US", 902000, 928000, false); (str "EU_433", 433000, 434000, false);
    (str "EU_868", 869400, 869650, false); (str "CN", 470000, 510000, false);
    (str "JP", 920500, 923500, false); (str "ANZ", 915000, 928000, false);
    (str "ANZ_433", 433050, 434790, false); (str "RU", 868700, 869200, false);
    (str "KR", 920000, 923000, false); (str "TW", 920000, 925000, false);
    (str "IN", 865000, 867000, false); (str "NZ_865", 864000, 868000, false);
    (str "TH", 920000, 925000, false); (str "UA_433", 433000, 434700, false);
    (str "UA_868", 868000, 868600, false); (str "MY_433", 433000, 435000, false);
    (str "MY_919", 919000, 924000, false); (str "SG_923", 917000, 925000, false);
    (str "PH_433", 433000, 434700, false); (str "PH_868", 868000, 869400, false);
    (str "PH_915", 915000, 918000, false); (str "KZ_433", 433075, 434775, false);
    (str "KZ_863", 863000, 868000, false); (str "NP_865", 865000, 868000, false);
    (str "BR_902", 902000, 907500, false); (str "LORA_24", 2400000, 2483500, true) ].

Definition region_of (e : list Z * Z * Z * bool) : mesh_region :=
  let '(name, lo, hi, wide) := e in mk_region name (f64_milli lo) (f64_milli hi) wide.

Definition MESH_REGIONS : list mesh_region := map region_of REGION_EDGES.

Lemma regions_named : map mr_name MESH_REGIONS = MESH_REGION_NAMES.
Proof. reflexivity. Qed.

Definition lookup_region (name : list Z) : option mesh_region :=
  i ← mesh_lookup_region name; MESH_REGIONS !! i.

Definition mesh_channel_count (r : mesh_region) (bw_hz : Z) : Z :=
  if bw_hz <=? 0 then 0
  else
    let span := f64_mul (f64_sub (mr_f_hi_mhz r) (mr_f_lo_mhz r)) f64_1e6 in
    let n := f64_trunc (f64_div span (f64_of_Z bw_hz)) in
    if 0 <? n then n else 0.

Definition mesh_channel_freq_hz (r : mesh_region) (bw_hz channel_index : Z) : Z :=
  if (bw_hz <=? 0) || (channel_index <? 0) then 0
  else if mesh_channel_count r bw_hz <=? channel_index then 0
  else
    let bw_mhz := f64_div (f64_of_Z bw_hz) f64_1e6 in
    let f_mhz := f64_add (f64_add (mr_f_lo_mhz r) (f64_mul bw_mhz f64_half)) (f64_mul bw_mhz (f64_of_Z channel_index)) in
    f64_trunc (f64_add (f64_mul f_mhz f64_1e6) f64_half).

Definition preset_bw (r : mesh_region) (p : mesh_preset_def) : Z :=
  if mr_wide_lora r then mp_bw_hz_wide p else mp_bw_hz_narrow p.

(** ** Options *)

Record extra_freq := mk_extra { ef_freq_hz : Z; ef_bw_hz : Z; ef_sf : Z; ef_cr : Z }.

Inductive sdr_backend :=
| SDR_BACKEND_NONE | SDR_BACKEND_HACKRF | SDR_BACKEND_BLADERF | SDR_BACKEND_USRP | SDR_BACKEND_AIRSPY
| SDR_BACKEND_SDRPLAY | SDR_BACKEND_RTLSDR | SDR_BACKEND_SOAPYSDR | SDR_BACKEND_VITA49 | SDR_BACKEND_FILE.

Record options := mk_options {
  opt_meshcore : bool;                     (* opt_protocol == MESH_PROTOCOL_MESHCORE *)
  opt_sdr_backend : sdr_backend;
  opt_sample_rate : Z;
  opt_center_freq_hz : Z;
  opt_region : option (list Z);
  opt_preset_csv : option (list Z);
  opt_extra_freqs : list extra_freq;
  opt_meshcore_freq_hz : Z;
  opt_meshcore_bw_hz : Z;
  opt_meshcore_sf : Z;
  opt_meshcore_cr : Z;
  opt_crc_bruteforce : bool;
  opt_crc_bruteforce_2bit : bool;
  env_os_policy_auto : bool;               (* MESHTASTIC_OS_POLICY=auto *)
  env_prototype_os : option Z;             (* MESHTASTIC_PROTOTYPE_OS *)
  env_prototype_os_maxsf : option Z;       (* MESHTASTIC_PROTOTYPE_OS_MAXSF *)
}.

Definition the_region (o : options) : option mesh_region := lookup_region (default (str "US") (opt_region o)).
Definition the_presets (o : options) : list Z := default (str "LongFast") (opt_preset_csv o).

(** ** Defaults for rate and centre *)

Definition backend_default_rate (b : sdr_backend) : Z :=
  match b with
  | SDR_BACKEND_HACKRF | SDR_BACKEND_BLADERF | SDR_BACKEND_USRP => 20000000
  | SDR_BACKEND_AIRSPY | SDR_BACKEND_SDRPLAY => 10000000
  | SDR_BACKEND_RTLSDR | SDR_BACKEND_SOAPYSDR => 2000000
  | SDR_BACKEND_VITA49 | SDR_BACKEND_FILE => 0
  | SDR_BACKEND_NONE => 10000000
  end.

Definition is_comma (c : Z) : bool := c =? 44.

Definition region_midpoint (r : mesh_region) : spec_float :=
  f64_mul (f64_add (mr_f_lo_mhz r) (mr_f_hi_mhz r)) (f64_of_Z 500000).

(** The centre when neither the command line nor a context packet sets it. *)
Definition derived_center (o : options) (samp_rate : spec_float) : spec_float :=
  let fallback := f64_of_Z 910000000 in
  if opt_meshcore o then (if opt_meshcore_freq_hz o =? 0 then fallback else f64_of_Z (opt_meshcore_freq_hz o))
  else match the_region o with
  | None => fallback
  | Some r =>
      if strcasecmp_eq (the_presets o) (str "all") then region_midpoint r
      else match strtok_all is_comma (the_presets o) with
      | [] => region_midpoint r
      | first :: _ =>
          match mesh_lookup_preset first with
          | None => region_midpoint r
          | Some preset =>
              let bw := preset_bw r preset in
              let slots := mesh_channel_count r bw in
              if slots <=? 0 then region_midpoint r
              else
                let f0 := mesh_channel_freq_hz r bw 0 in
                let fN := mesh_channel_freq_hz r bw (slots - 1) in
                let span := f64_of_Z (u64 (fN - f0)) in
                if f64_ltb samp_rate span
                then f64_sub (f64_add (f64_of_Z f0) (f64_mul samp_rate f64_half)) (f64_mul (f64_of_Z bw) f64_half)
                else f64_mul (f64_of_Z (u64 (f0 + fN))) f64_half
          end
      end
  end.

(** The globals samp_rate and center_freq, as given and as resolved. *)
Definition resolve_rf_defaults (o : options) (samp_rate center_freq : spec_float) : spec_float * spec_float :=
  let rate := if negb (opt_sample_rate o =? 0) then f64_of_Z (opt_sample_rate o)
              else if f64_eqb samp_rate f_zero then f64_of_Z (backend_default_rate (opt_sdr_backend o)) else samp_rate in
  (rate, if negb (opt_center_freq_hz o =? 0) then f64_of_Z (opt_center_freq_hz o)
         else if negb (f64_eqb center_freq f_zero) then center_freq else derived_center o rate).

(** ** Oversampling *)

Definition os_policy_auto (sf bw_hz : Z) : Z :=
  if (sf =? 7) && (bw_hz =? 250000) then 2
  else if (sf =? 7) && (bw_hz =? 500000) then 2
  else if (sf =? 9) && (bw_hz =? 250000) then 4
  else if (sf =? 11) && (bw_hz =? 500000) then 2
  else 1.

Definition os_factor_for (o : options) (samp_rate : spec_float) (bw_hz sf : Z) : Z :=
  let os := if env_os_policy_auto o then os_policy_auto sf bw_hz else 1 in
  let os := match env_prototype_os o with
            | Some v => if (1 <=? v) && (v <=? 4) then v else os
            | None => os
            end in
  let os := match env_prototype_os_maxsf o with Some m => if m <? sf then 1 else os | None => os end in
  if 1 <? os then
    let M := f64_round (f64_div samp_rate (f64_of_Z bw_hz)) in
    if (M <=? 0) || negb (Z.rem M os =? 0) then 1 else os
  else os.

(** ** Channels *)

Section ChannelSet.
Context {C F : Type} `{ops : PfbOps C F} (rotation : spec_float -> spec_float -> C).

(** The radio parameters of a slot in g_chan_stats. *)
Record slot_stat := mk_slot_stat { ss_sf : Z; ss_cr : Z; ss_bw_hz : Z; ss_freq_hz : Z; ss_preset_name : list Z }.

Record app := mk_app {
  samp_rate : spec_float;
  center_freq : spec_float;
  g_channelizer : channelizer (C := C) (F := F);
  g_demods : gmap nat (@lora_decoder C);
  g_chan_stats : gmap nat slot_stat;
  g_grid : list (Z * Z);                 (* g_grid_freqs and g_grid_bws *)
}.

Definition app_create (rate center : spec_float) : app :=
  mk_app rate center (channelizer_create (f64_trunc center) (f64_trunc rate)) ∅ ∅ [].

(** The passband of the channel lies inside the capture. *)
Definition fits (a : app) (f_hz bw_hz : Z) : bool :=
  let half_band := f64_sub (f64_div (samp_rate a) (f64_of_Z 2)) (f64_div (f64_of_Z bw_hz) (f64_of_Z 2)) in
  let off := f64_of_Z (Z.abs (i64 f_hz - f64_trunc (center_freq a))) in
  negb (f64_ltb half_band f_zero) && negb (f64_ltb half_band off).

Definition slot_preset_name (sf cr bw_hz : Z) : list Z :=
  match preset_of_radio sf cr bw_hz with Some d => take 23 (mp_channel_name d) | None => [] end.

(** The id, or [None] for -1. *)
Definition instantiate_channel (o : options) (a : app) (f_hz bw_hz sf cr : Z) : option nat * app :=
  if negb (fits a f_hz bw_hz) then (None, a)
  else
    let os := os_factor_for o (samp_rate a) bw_hz sf in
    let '(id, cz) := channelizer_add_channel rotation (g_channelizer a) (mk_channel_cfg f_hz bw_hz sf cr os) in
    let a := a {{ g_channelizer := cz }} in
    match id with
    | None => (None, a)
    | Some id =>
        match lora_decoder_create_os sf cr bw_hz os with
        | None => (None, a)
        | Some d =>
            let d := lora_decoder_set_crc_bruteforce_2bit
                       (lora_decoder_set_crc_bruteforce d (opt_crc_bruteforce o)) (opt_crc_bruteforce_2bit o) in
            (Some id,
             a {{ g_demods := <[id := d]> (g_demods a);
                  g_chan_stats := <[id := mk_slot_stat sf cr bw_hz f_hz (slot_preset_name sf cr bw_hz)]> (g_chan_stats a);
                  g_grid := if (List.length (g_grid a) <? CHANNELIZER_MAX_CHANNELS)%nat
                            then g_grid a ++ [(f_hz, bw_hz)] else g_grid a }})
        end
    end.

(** app_add_runtime_extra_freq, without the scanner. *)
Definition app_add_runtime_extra_freq (o : options) (a : app) (f_hz bw_hz sf cr : Z) : option nat * app :=
  instantiate_channel o a f_hz bw_hz sf cr.

Definition counted_instantiate (o : options) (a : app) (n : Z) (f_hz bw_hz sf cr : Z) : app * Z :=
  match instantiate_channel o a f_hz bw_hz sf cr with
  | (Some _, a) => (a, n + 1)
  | (None, a) => (a, n)
  end.

Definition build_channel_set_meshcore (o : options) (a : app) : option Z * app :=
  if opt_meshcore_freq_hz o =? 0 then (None, a)
  else match instantiate_channel o a (opt_meshcore_freq_hz o) (opt_meshcore_bw_hz o) (opt_meshcore_sf o) (opt_meshcore_cr o) with
       | (None, a) => (Some 0, a)
       | (Some _, a) => (Some 1, a)
       end.

Definition is_space_tab (c : Z) : bool := (c =? 32) || (c =? 9).

(** Whether the comma-separated list names the preset. *)
Definition selected (csv : list Z) (p : mesh_preset_def) : bool :=
  strcasecmp_eq csv (str "all") ||
  existsb (fun tok => match mesh_lookup_preset (skip_while is_space_tab tok) with
                      | Some m => list_eqb (mp_name m) (mp_name p)
                      | None => false
                      end) (strtok_all is_comma csv).

(** The slots from [slot] on, [n] of them. *)
Fixpoint add_slots (o : options) (r : mesh_region) (p : mesh_preset_def) (slot : Z) (n : nat) (a : app) (total : Z) : app * Z :=
  match n with
  | O => (a, total)
  | S n =>
      let f := mesh_channel_freq_hz r (preset_bw r p) slot in
      if f =? 0 then (a, total)
      else
        let '(a, total) := counted_instantiate o a total f (preset_bw r p) (mp_spread_factor p) (mp_coding_rate p) in
        add_slots o r p (slot + 1) n a total
  end.

Definition add_preset (o : options) (r : mesh_region) (st : app * Z) (p : mesh_preset_def) : app * Z :=
  if selected (the_presets o) p
  then add_slots o r p 0 (Z.to_nat (mesh_channel_count r (preset_bw r p))) (fst st) (snd st)
  else st.

Definition add_extra (o : options) (st : app * Z) (e : extra_freq) : app * Z :=
  counted_instantiate o (fst st) (snd st) (ef_freq_hz e) (ef_bw_hz e) (ef_sf e) (ef_cr e).

(** The number of channels added, [None] for -1. *)
Definition build_channel_set (o : options) (a : app) : option Z * app :=
  if opt_meshcore o then build_channel_set_meshcore o a
  else match the_region o with
       | None => (None, a)
       | Some r =>
           let st := fold_left (add_preset o r) MESH_PRESETS (a, 0) in
           let st := fold_left (add_extra o) (opt_extra_freqs o) st in
           (Some (snd st), fst st)
       end.

(** The SDR-rate step on_channel_baseband announces for a slot, and the
    anchor of a batch of [n] samples when [now] samples were received. *)
Definition baseband_step (a : app) (bw : Z) : Z := u32 (f64_trunc (f64_add (f64_div (samp_rate a) (f64_of_Z bw)) f64_half)).
Definition baseband_anchor (now n step : Z) : Z := let span := u64 (n * step) in if span <? now then now - span else 0.
End ChannelSet.
