(* ===== verification/ChannelSetFacts.v ===== *)
(** What the channel set of ChannelSet.v is: the channel grids are exact, and
    every channel is tuned to its frequency and decoded with its parameters. *)

From Stdlib Require Import String.
From stdpp Require Import gmap.
From S2P Require Import Prelude CString CFloat Meshtastic LoraDecoder Focused Pfb Channelizer ChannelSet.

Local Open Scope string_scope.
Local Open Scope list_scope.
Local Open Scope Z_scope.

(** ** The grids, checked slot by slot *)

Definition region_bws (wide : bool) : list Z := if wide then [1625000; 812000; 406000] else [500000; 250000; 125000].

Definition grid_ok (e : list Z * Z * Z * bool) (bw : Z) : bool :=
  let '(name, lo, hi, wide) := e in
  let r := region_of e in
  let n := (hi - lo) * 1000 / bw in
  let f k := lo * 1000 + bw / 2 + k * bw in
  (mesh_channel_count r bw =? n) && (n <=? 320) &&
  forallb (fun k => let k := Z.of_nat k in (mesh_channel_freq_hz r bw k =? f k) && (Z.log2 (f k) =? Z.log2 (f 0)) && (f k <? 2 ^ 53))
    (seq 0 (Z.to_nat n)).

Lemma grids_ok : forallb (fun e => forallb (grid_ok e) (region_bws (snd e))) REGION_EDGES = true.
Proof. vm_compute. reflexivity. Qed.

Definition bin_step_ok (bw : Z) : bool :=
  forallb (fun i => let d := Z.of_nat i - 320 in f64_round (f64_div (f64_of_Z (d * bw)) (f64_of_Z bw)) =? d) (seq 0 641).

Lemma bin_steps_ok : forallb bin_step_ok (region_bws true ++ region_bws false) = true.
Proof. vm_compute. reflexivity. Qed.

Lemma preset_bw_listed : forallb (fun p => existsb (Z.eqb (mp_bw_hz_wide p)) (region_bws true) &&
  existsb (Z.eqb (mp_bw_hz_narrow p)) (region_bws false)) MESH_PRESETS = true.
Proof. vm_compute. reflexivity. Qed.

Lemma bw_in_list r p : In r REGION_EDGES -> In p MESH_PRESETS -> In (preset_bw (region_of r) p) (region_bws (snd r)).
Proof.
  intros Hr Hp. pose proof preset_bw_listed as H. rewrite forallb_forall in H. specialize (H p Hp). apply andb_prop in H as [H1 H2].
  apply existsb_exists in H1 as (b1 & Hb1 & E1). apply existsb_exists in H2 as (b2 & Hb2 & E2). zb. subst.
  destruct r as [[[n lo] hi] w]. unfold preset_bw, region_of. cbn [mr_wide_lora snd]. by destruct w.
Qed.

Lemma grid_at e bw : In e REGION_EDGES -> In bw (region_bws (snd e)) -> grid_ok e bw = true.
Proof.
  intros He Hb. pose proof grids_ok as H. rewrite forallb_forall in H. specialize (H e He). rewrite forallb_forall in H. auto.
Qed.

(** The slots of a grid, in integers: the count and every frequency. *)
Lemma grid_exact name lo hi wide bw : In (name, lo, hi, wide) REGION_EDGES -> In bw (region_bws wide) ->
  let r := region_of (name, lo, hi, wide) in
  mesh_channel_count r bw = (hi - lo) * 1000 / bw /\ mesh_channel_count r bw <= 320 /\
  forall k, 0 <= k < mesh_channel_count r bw ->
    let f := lo * 1000 + bw / 2 + k * bw in
    mesh_channel_freq_hz r bw k = f /\ Z.log2 f = Z.log2 (lo * 1000 + bw / 2) /\ f < 2 ^ 53.
Proof.
  intros He Hb r. pose proof (grid_at _ _ He Hb) as H. unfold grid_ok in H. fold r in H.
  apply andb_prop in H as [H Hs]. apply andb_prop in H as [Hc Hn]. zb. rewrite Hc. split; [done|]. split; [done|].
  intros k Hk. rewrite forallb_forall in Hs. specialize (Hs (Z.to_nat k)). cbn zeta in Hs. rewrite Z2Nat.id in Hs by lia.
  specialize (Hs ltac:(apply in_seq; lia)). apply andb_prop in Hs as [Hs H3]. apply andb_prop in Hs as [H1 H2]. zb.
  rewrite Z.mul_0_l, Z.add_0_r in H2. done.
Qed.

Lemma region_bws_pos w bw : In bw (region_bws w) -> 2 <= bw.
Proof. destruct w; cbn; intros H; decompose [or] H; lia || done. Qed.

Lemma edges_pos e : In e REGION_EDGES -> 0 < snd (fst (fst e)).
Proof.
  assert (H : forallb (fun e => 0 <? snd (fst (fst e))) REGION_EDGES = true) by (vm_compute; reflexivity).
  rewrite forallb_forall in H. intros He. specialize (H e He). by zb.
Qed.

(** The bin distance of two slots of a grid, as the channelizer computes it
    in doubles. *)
Lemma bin_distance e bw k k0 : In e REGION_EDGES -> In bw (region_bws (snd e)) ->
  0 <= k < mesh_channel_count (region_of e) bw -> 0 <= k0 < mesh_channel_count (region_of e) bw ->
  f64_round (f64_div (f64_sub (f64_of_Z (mesh_channel_freq_hz (region_of e) bw k))
                              (f64_of_Z (mesh_channel_freq_hz (region_of e) bw k0))) (f64_of_Z bw)) = k - k0.
Proof.
  destruct e as [[[name lo] hi] wide]. cbn [snd]. intros He Hb Hk Hk0.
  destruct (grid_exact _ _ _ _ _ He Hb) as (_ & Hn & Hf). destruct (Hf k Hk) as (-> & L1 & U1). destruct (Hf k0 Hk0) as (-> & L2 & U2).
  pose proof (region_bws_pos _ _ Hb) as Hb2. pose proof (edges_pos _ He) as Hlo. cbn [fst snd] in Hlo.
  pose proof (Z.div_pos bw 2 ltac:(lia) ltac:(lia)) as Hh. rewrite f64_sub_exact by nia.
  replace (lo * 1000 + bw / 2 + k * bw - (lo * 1000 + bw / 2 + k0 * bw)) with ((k - k0) * bw) by lia.
  pose proof bin_steps_ok as Hs. rewrite forallb_forall in Hs. specialize (Hs bw).
  assert (Hin : In bw (region_bws true ++ region_bws false)) by (apply in_app_iff; destruct wide; auto).
  specialize (Hs Hin). unfold bin_step_ok in Hs. rewrite forallb_forall in Hs. specialize (Hs (Z.to_nat (k - k0 + 320))).
  cbn zeta in Hs. rewrite Z2Nat.id in Hs by lia. replace (k - k0 + 320 - 320) with (k - k0) in Hs by lia.
  specialize (Hs ltac:(apply in_seq; lia)). by zb.
Qed.

Lemma the_region_listed o r : the_region o = Some r -> exists e, In e REGION_EDGES /\ r = region_of e.
Proof.
  unfold the_region, lookup_region, MESH_REGIONS. intros H. apply bind_Some in H as (i & _ & H).
  change (map region_of REGION_EDGES) with (region_of <$> REGION_EDGES) in H. rewrite list_lookup_fmap in H.
  destruct (REGION_EDGES !! i) as [e|] eqn:E; [|done]. injection H as <-. exists e. split; [|done].
  apply list_elem_of_In. by eapply list_elem_of_lookup_2.
Qed.

(** ** Decoders of the presets *)

Lemma os_factor_range o rate bw sf : 1 <= os_factor_for o rate bw sf <= 4.
Proof.
  unfold os_factor_for.
  assert (H0 : 1 <= (if env_os_policy_auto o then os_policy_auto sf bw else 1) <= 4)
    by (unfold os_policy_auto; repeat case_match; lia).
  set (os0 := if env_os_policy_auto o then _ else _) in *. clearbody os0.
  assert (H1 : 1 <= (match env_prototype_os o with Some v => if (1 <=? v) && (v <=? 4) then v else os0 | None => os0 end) <= 4).
  { destruct (env_prototype_os o) as [v|]; [|done]. destruct ((1 <=? v) && (v <=? 4)) eqn:E; zb; lia. }
  set (os1 := match env_prototype_os o with Some v => _ | None => _ end) in *. clearbody os1.
  repeat case_match; lia.
Qed.

Lemma preset_decoder {S} p r o rate : In p MESH_PRESETS -> In r REGION_EDGES ->
  let bw := preset_bw (region_of r) p in
  let os := os_factor_for o rate bw (mp_spread_factor p) in
  exists d : @lora_decoder S, lora_decoder_create_os (mp_spread_factor p) (mp_coding_rate p) bw os = Some d /\
    ld_sf d = mp_spread_factor p /\ ld_cr d = mp_coding_rate p /\ ld_bw_hz d = bw /\ ld_os_factor d = os.
Proof.
  intros Hp Hr bw os. pose proof (bw_in_list r p Hr Hp) as Hb. apply region_bws_pos in Hb. fold bw in Hb.
  pose proof (os_factor_range o rate bw (mp_spread_factor p)) as Ho. fold os in Ho.
  assert (H : forallb (fun p => (7 <=? mp_spread_factor p) && (mp_spread_factor p <=? 12) && (5 <=? mp_coding_rate p) &&
    (mp_coding_rate p <=? 8)) MESH_PRESETS = true) by (vm_compute; reflexivity).
  rewrite forallb_forall in H. specialize (H p Hp). zb. unfold lora_decoder_create_os.
  destruct (Z.ltb_spec (mp_spread_factor p) 7); [lia|]. destruct (Z.ltb_spec 12 (mp_spread_factor p)); [lia|].
  destruct (Z.ltb_spec (mp_coding_rate p) 5); [lia|]. destruct (Z.ltb_spec 8 (mp_coding_rate p)); [lia|].
  destruct (Z.leb_spec bw 0); [lia|]. destruct (Z.ltb_spec os 1); [lia|]. destruct (Z.ltb_spec 16 os); [lia|].
  cbn [orb]. eexists. done.
Qed.

(** ** The channel set *)

Lemma rem_wrap d m : 0 < m -> Z.of_nat (Z.to_nat (Z.rem (Z.rem d m + m) m)) = d mod m.
Proof.
  intros Hm. pose proof (Z.rem_bound_abs d m ltac:(lia)). rewrite Z.rem_mod_nonneg by lia.
  pose proof (Z.mod_pos_bound (Z.rem d m + m) m Hm). rewrite Z2Nat.id by lia.
  replace (Z.rem d m + m) with (Z.rem d m + 1 * m) by lia. rewrite Z.mod_add by lia.
  rewrite (Z.quot_rem' d m) at 2. rewrite Z.mul_comm, Z.add_comm, Z.mod_add by lia. done.
Qed.

Section Set_.
Context {C F : Type} `{ops : PfbOps C F} (rotation : spec_float -> spec_float -> C) (o : options).
Context (e : list Z * Z * Z * bool) (He : In e REGION_EDGES).
Local Abbreviation app := (app (C := C) (F := F)).
Local Abbreviation r := (region_of e).
Local Abbreviation channels a := (cz_channels (g_channelizer a)).
Local Abbreviation groups a := (cz_groups (g_channelizer a)).
Local Abbreviation freq := (mesh_channel_freq_hz r).
Local Abbreviation count := (mesh_channel_count r).

(** Slot [k] of preset [p], as configured. *)
Definition slot_cfg (rate : spec_float) (p : mesh_preset_def) (k : Z) : channel_cfg :=
  let bw := preset_bw r p in
  mk_channel_cfg (freq bw k) bw (mp_spread_factor p) (mp_coding_rate p) (os_factor_for o rate bw (mp_spread_factor p)).

(** A bank whose bin 0 is slot [k0] of the bandwidth's grid. *)
Definition anchored (g : pfb_group (C := C) (F := F)) (k0 : Z) : Prop :=
  0 <= k0 < count (gr_bw_hz g) /\ gr_bin_0_freq g = f64_of_Z (freq (gr_bw_hz g) k0).

Record slot_ok (a : app) (id : nat) (s : chan_state) (p : mesh_preset_def) (k : Z) : Prop := {
  sl_preset : In p MESH_PRESETS /\ selected (the_presets o) p = true;
  sl_slot : 0 <= k < count (preset_bw r p);
  sl_cfg : cn_cfg s = slot_cfg (samp_rate a) p k;
  sl_bin : exists g k0, groups a !! cn_group_idx s = Some g /\ gr_bw_hz g = preset_bw r p /\ anchored g k0 /\
    Z.of_nat (cn_bin s) = (k - k0) mod Z.of_nat (pf_M (gr_pfb g));
  sl_demod : exists d, g_demods a !! id = Some d /\ ld_sf d = mp_spread_factor p /\ ld_cr d = mp_coding_rate p /\
    ld_bw_hz d = preset_bw r p /\ ld_os_factor d = cc_os_factor (cn_cfg s);
}.

Record set_ok (a : app) : Prop := {
  so_cz : cz_ok (g_channelizer a);
  so_groups : forall i g, groups a !! i = Some g ->
    exists p k0, In p MESH_PRESETS /\ gr_bw_hz g = preset_bw r p /\ anchored g k0;
  so_slots : forall id s, channels a !! id = Some s -> exists p k, slot_ok a id s p k;
}.

Lemma anchored_bank g g' k0 : same_bank g g' -> anchored g k0 -> anchored g' k0.
Proof. intros (_ & E1 & _ & E2) [H1 H2]. unfold anchored. by rewrite E1, E2. Qed.

(** A slot stays what it is while banks keep and its decoder stays. *)
Lemma slot_ok_mono a a' id s p k : slot_ok a id s p k -> samp_rate a' = samp_rate a -> g_demods a' !! id = g_demods a !! id ->
  (forall j g, groups a !! j = Some g -> exists g', groups a' !! j = Some g' /\ same_bank g g') -> slot_ok a' id s p k.
Proof.
  intros [H1 H2 H3 (g & k0 & Hg & Hb & Ha & Hbin) H5] Er Ed Hk. destruct (Hk _ _ Hg) as (g' & Hg' & Hs).
  split; [done|done|by rewrite Er| |by rewrite Ed]. exists g', k0. pose proof Hs as (Ep & Ew & _). rewrite Ew, Ep.
  repeat (split; [done|]). split; [by apply (anchored_bank g)|done].
Qed.

Lemma new_bin g p k k0 : In p MESH_PRESETS -> gr_bw_hz g = preset_bw r p -> anchored g k0 -> (0 < pf_M (gr_pfb g))%nat ->
  0 <= k < count (preset_bw r p) ->
  Z.of_nat (bin_of g (freq (preset_bw r p) k) (preset_bw r p)) = (k - k0) mod Z.of_nat (pf_M (gr_pfb g)).
Proof.
  intros Hp Ebw [H0 E0] HM Hk. unfold bin_of. rewrite E0, Ebw, bin_distance by (rewrite <- ?Ebw; try done; rewrite ?Ebw; auto using bw_in_list).
  apply rem_wrap. lia.
Qed.

Lemma instantiate_slot a p k id a' : set_ok a -> In p MESH_PRESETS -> selected (the_presets o) p = true ->
  0 <= k < count (preset_bw r p) ->
  instantiate_channel rotation o a (freq (preset_bw r p) k) (preset_bw r p) (mp_spread_factor p) (mp_coding_rate p) = (id, a') ->
  set_ok a' /\ List.length (channels a') = (List.length (channels a) + match id with Some _ => 1 | None => 0 end)%nat.
Proof.
  intros [H1 H2 H3] Hp Hsel Hk. unfold instantiate_channel.
  destruct (negb _); [intros [= <- <-]; split; [done|lia]|].
  destruct (channelizer_add_channel _ _ _) as [k' cz] eqn:Ea.
  destruct (add_channel_spec _ _ _ _ _ H1 Ea) as (Hok & Hold & Hkeep & Hnew & Er & Hk').
  assert (Hg : forall i g, cz_groups cz !! i = Some g -> exists p k0, In p MESH_PRESETS /\ gr_bw_hz g = preset_bw r p /\ anchored g k0).
  { intros i g Hg. destruct (Hnew i g Hg) as [(g0 & Hg0 & Hs)|[E1 E2]].
    - destruct (H2 i g0 Hg0) as (p0 & k0 & Hp0 & Eb & Ha). exists p0, k0. pose proof Hs as (_ & Ew & _). rewrite Ew.
      split; [done|]. split; [done|]. by apply (anchored_bank g0).
    - exists p, k. cbn [cc_bw_hz cc_f_hz] in E1, E2. unfold anchored. rewrite E1, E2. done. }
  destruct k' as [n|].
  - destruct Hk' as (-> & Elen & i & g & Hgi & Hs & Ew & Eo).
    destruct (preset_decoder (S := C) p e o (samp_rate a) Hp He) as (d & -> & D1 & D2 & D3 & D4).
    intros H. apply pair_inj in H as [<- <-]. split; [|rcbn; lia]. split; rcbn; [done|done|].
    intros id s Hid. destruct (Nat.lt_ge_cases id (List.length (channels a))) as [Hlt|Hge].
    + apply lookup_lt_is_Some_2 in Hlt as [s0 Hs0]. pose proof (Hold id s0 Hs0) as E. rewrite Hid in E. injection E as ->.
      destruct (H3 id s0 Hs0) as (p0 & k0 & Hs1). exists p0, k0. apply (slot_ok_mono a); rcbn; try done.
      apply lookup_insert_ne. apply lookup_lt_Some in Hs0. lia.
    + pose proof (lookup_lt_Some _ _ _ Hid). assert (id = List.length (channels a)) as -> by lia. rewrite Hs in Hid. injection Hid as <-.
      exists p, k. destruct (Hg i g Hgi) as (p0 & k0 & Hp0 & Ew0 & Ha). destruct (ok_M _ Hok i g Hgi) as [_ HM].
      cbn [cc_f_hz cc_bw_hz] in *. split; rcbn; [done|done|done| |].
      * exists g, k0. cbn [cn_group_idx cn_bin]. do 3 (split; [done|]). by apply new_bin.
      * eexists. split; [by rewrite lookup_insert_eq|]. done.
  - intros H. apply pair_inj in H as [<- <-]. split; [|rcbn; rewrite Hk'; lia]. split; rcbn; [done|done|].
    intros id s Hs. rewrite Hk' in Hs. destruct (H3 id s Hs) as (p0 & k0 & Hs0). exists p0, k0. by apply (slot_ok_mono a).
Qed.

(** The set and its count, as additions go on. *)
Definition counted_ok (st : app * Z) : Prop := set_ok (fst st) /\ snd st = Z.of_nat (List.length (channels (fst st))).

Lemma add_slots_ok p n : In p MESH_PRESETS -> selected (the_presets o) p = true -> forall k a total, 0 <= k ->
  k + Z.of_nat n <= count (preset_bw r p) -> counted_ok (a, total) -> counted_ok (add_slots rotation o r p k n a total).
Proof.
  intros Hp Hsel. induction n as [|n IH]; intros k a total Hk Hn [Hok Ht]; [done|]. cbn [add_slots].
  destruct (_ =? 0); [done|]. unfold counted_instantiate.
  destruct (instantiate_channel _ _ _ _ _ _ _) as [id a'] eqn:E.
  destruct (instantiate_slot a p k id a' Hok Hp Hsel ltac:(lia) E) as [Hok' Hl]. cbn [fst snd] in Ht.
  destruct id; (apply IH; [lia|lia|]; split; [done|]; cbn [fst snd]; lia).
Qed.

Lemma add_presets_ok ps : incl ps MESH_PRESETS -> forall st, counted_ok st ->
  counted_ok (fold_left (add_preset rotation o r) ps st).
Proof.
  induction ps as [|p ps IH]; intros Hi st Hst; [done|]. cbn [fold_left]. apply IH; [intros x Hx; apply Hi; by right|].
  unfold add_preset. destruct (selected _ p) eqn:Esel; [|done]. destruct st as [a t]. cbn [fst snd].
  apply add_slots_ok; [apply Hi; by left|done|lia| |done].
  assert (0 <= count (preset_bw r p)) by (unfold mesh_channel_count; repeat case_match; lia || (zb; lia)). lia.
Qed.

Lemma set_ok_start rate center : counted_ok (app_create rate center, 0).
Proof. split; [|done]. split; [apply create_ok|done|done]. Qed.
End Set_.


(** ** A receiver on 869.5 MHz at 2 MS/s *)

Definition eu_options : options :=
  {| opt_meshcore := false; opt_sdr_backend := SDR_BACKEND_RTLSDR; opt_sample_rate := 0; opt_center_freq_hz := 0;
     opt_region := Some (str "eu868"); opt_preset_csv := Some (str "LongFast, short_fast"); opt_extra_freqs := [];
     opt_meshcore_freq_hz := 0; opt_meshcore_bw_hz := 62500; opt_meshcore_sf := 8; opt_meshcore_cr := 5;
     opt_crc_bruteforce := true; opt_crc_bruteforce_2bit := false; env_os_policy_auto := true;
     env_prototype_os := None; env_prototype_os_maxsf := None |}.

Definition booted (o : options) : option Z * ChannelSet.app (C := Z) (F := Z) :=
  let '(rate, center) := resolve_rf_defaults o f_zero f_zero in build_channel_set z_rotation o (app_create rate center).

Definition eu_app : ChannelSet.app (C := Z) (F := Z) := snd (booted eu_options).
Definition eu_slot : chan_state := mk_chan (mk_channel_cfg 869525000 250000 7 5 2) 0 0.


(** An extra frequency off the grid of its group is accepted and decoded at
    the wrong frequency: next to the EU 868 channel, 869.400 MHz is given the
    bin half a bandwidth below it. *)
Theorem extra_frequency_mistuned :
  let o := eu_options {{ opt_preset_csv := Some (str "LongFast"); opt_extra_freqs := [mk_extra 869400000 250000 11 5] }} in
  let '(n, a) := booted o in
  n = Some 2 /\ cn_bin <$> cz_channels (g_channelizer a) !! 1%nat = Some 7%nat /\ 869525000 + (7 - 8) * 250000 = 869275000.
Proof. vm_compute. auto. Qed.

(** No default rate is a multiple of a 2.4 GHz bandwidth: the region gets no
    channel on any back end unless a rate is given. *)
Theorem lora24_empty_by_default :
  Forall (fun b => fst (booted (eu_options {{ opt_region := Some (str "LORA_24"); opt_preset_csv := Some (str "all");
                                              opt_sdr_backend := b }})) = Some 0)
    [SDR_BACKEND_HACKRF; SDR_BACKEND_AIRSPY; SDR_BACKEND_RTLSDR].
Proof. repeat (apply Forall_cons_2; [vm_compute; reflexivity|]). apply Forall_nil_2. Qed.

(** The step announced to the decoder of an oversampled channel is the number
    of bins; its bank puts out a sample every half as many. *)
Theorem oversampled_step_too_large :
  baseband_step eu_app 250000 = 8 /\
  (fun g => (pf_M (gr_pfb g) / pf_os (gr_pfb g))%nat) <$> cz_groups (g_channelizer eu_app) !! 0%nat = Some 4%nat.
Proof. vm_compute. auto. Qed.
