(* ===== verification/HttpText.v ===== *)
(** Text of HTTP requests (src/web.c): the body, the bearer token check, the
    query string and its parameters, and URL decoding.

    A request is the C string the buffer holds: the bytes received up to the
    first NUL. *)

From Stdlib Require Import String.
From S2P Require Import Prelude CString CFloat.

Local Open Scope string_scope.
Local Open Scope list_scope.
Local Open Scope Z_scope.

Definition CRLF : list Z := [13; 10].
Definition CRLF2 : list Z := [13; 10; 13; 10].

Definition starts_with (p s : list Z) : bool := list_eqb (take (List.length p) s) p.

(** [strstr(s, n)]: what precedes the first occurrence, and the rest from it. *)
Fixpoint strstr (n s : list Z) : option (list Z * list Z) :=
  if starts_with n s then Some ([], s)
  else match s with
       | [] => None
       | c :: t => match strstr n t with Some (a, b) => Some (c :: a, b) | None => None end
       end.

(** [None] for NULL. *)
Definition find_body (buf : list Z) : option (list Z) :=
  match strstr CRLF2 buf with Some (_, rest) => Some (drop 4 rest) | None => None end.

(** ** Tokens *)

Definition ct_byte (s : list Z) (i : nat) : Z := if (i <? List.length s)%nat then nth i s 0 else 0.

Definition ct_str_eq (a b : list Z) : bool :=
  let la := List.length a in
  let lb := List.length b in
  let n := if (lb <? la)%nat then la else lb in
  let diff := Z.lxor (u32 (Z.of_nat la)) (u32 (Z.of_nat lb)) in
  fold_left (fun diff i => Z.lor diff (Z.lxor (ct_byte a i) (ct_byte b i))) (seq 0 n) diff =? 0.

Definition AUTHORIZATION : list Z := str "authorization:".
Definition BEARER : list Z := str "Bearer ".

(** The token a header line carries. *)
Definition bearer_token (line : list Z) : option (list Z) :=
  if (15 <? List.length line)%nat && strncasecmp_eq 14 line AUTHORIZATION then
    let v := skip_while is_blank (drop 14 line) in
    if (7 <? List.length v)%nat && strncasecmp_eq 7 v BEARER
    then Some (take 255 (skip_while is_blank (drop 7 v)))
    else None
  else None.

Definition line_ok (token line : list Z) : bool :=
  match bearer_token line with Some tok => ct_str_eq tok token | None => false end.

(** The loop over the lines: [p] is the rest of the buffer, [left] the
    distance to the end of the headers. *)
Fixpoint auth_loop (fuel : nat) (token p : list Z) (left : nat) : bool :=
  match fuel with
  | O => false
  | S fuel =>
      if (left =? 0)%nat then false
      else match strstr CRLF p with
           | None => false
           | Some (line, rest) =>
               if (left <=? List.length line)%nat then false
               else if line_ok token line then true
               else auth_loop fuel token (drop 2 rest) (left - (List.length line + 2))
           end
  end.

(** [None]: no token is configured. *)
Definition api_auth_ok (opt_api_token : option (list Z)) (buf : list Z) : bool :=
  match opt_api_token with
  | None => true
  | Some token =>
      let end_ := match strstr CRLF2 buf with Some (hd, _) => List.length hd | None => List.length buf end in
      auth_loop (S (List.length buf)) token buf end_
  end.

(** ** URL decoding *)

Definition hex_digit (c : Z) : option Z :=
  if (48 <=? c) && (c <=? 57) then Some (c - 48)
  else if (65 <=? c) && (c <=? 70) then Some (c - 55)
  else if (97 <=? c) && (c <=? 102) then Some (c - 87)
  else None.

Fixpoint hex_digits (acc : Z) (s : list Z) : Z :=
  match s with
  | [] => acc
  | c :: t => match hex_digit c with Some d => hex_digits (acc * 16 + d) t | None => acc end
  end.

(** [(char)strtol(h, NULL, 16)] of two characters. *)
Definition strtol16 (h : list Z) : Z :=
  match skip_while is_space h with
  | [] => 0
  | c :: t => if c =? 45 then u8 (- hex_digits 0 t) else if c =? 43 then u8 (hex_digits 0 t) else u8 (hex_digits 0 (c :: t))
  end.

(** The bytes written; a NUL among them ends the string. *)
Fixpoint url_decode (s : list Z) : list Z :=
  match s with
  | [] => []
  | c :: t =>
      match t with
      | a :: b :: u => if c =? 37 then strtol16 [a; b] :: url_decode u
                       else (if c =? 43 then 32 else c) :: url_decode t
      | _ => (if c =? 43 then 32 else c) :: url_decode t
      end
  end.

Fixpoint until_nul (s : list Z) : list Z :=
  match s with [] => [] | c :: t => if c =? 0 then [] else c :: until_nul t end.

Definition url_decode_inplace (s : list Z) : list Z := until_nul (url_decode s).

(** ** Query strings *)

Fixpoint take_until (p : Z -> bool) (s : list Z) : list Z :=
  match s with [] => [] | c :: t => if p c then [] else c :: take_until p t end.

Definition ends_query (c : Z) : bool := (c =? 32) || (c =? 13) || (c =? 10).

(** The query string in a buffer of [outcap] bytes; [[]] also when there is
    none, as the buffers are zeroed. *)
Definition extract_query_string (req : list Z) (outcap : nat) : option (list Z) :=
  match strchr 63 req with
  | None => None
  | Some (_, q) => Some (take (outcap - 1) (take_until ends_query q))
  end.

Definition query_value (key seg : list Z) (outcap : nat) : option (list Z) :=
  if (List.length key <? List.length seg)%nat && (nth (List.length key) seg 0 =? 61) && list_eqb (take (List.length key) seg) key
  then Some (url_decode_inplace (take (outcap - 1) (drop (S (List.length key)) seg)))
  else None.

(** [n] segments at most. *)
Fixpoint query_get_loop (n : nat) (qs key : list Z) (outcap : nat) : option (list Z) :=
  match n, qs with
  | O, _ | _, [] => None
  | S n, _ =>
      let '(seg, rest) := match strchr 38 qs with Some (a, b) => (a, b) | None => (qs, []) end in
      match query_value key seg outcap with
      | Some v => Some v
      | None => query_get_loop n rest key outcap
      end
  end.

Definition query_get (qs key : list Z) (outcap : nat) : option (list Z) :=
  query_get_loop (S (List.length qs)) qs key outcap.

(** ** The token comparison *)

Lemma fold_lor_zero (f : nat -> Z) l : forall d, fold_left (fun d i => Z.lor d (f i)) l d = 0 <-> d = 0 /\ forall i, In i l -> f i = 0.
Proof.
  induction l as [|x l IH]; intros d; cbn [fold_left In]; [firstorder|]. rewrite IH, Z.lor_eq_0_iff. split.
  - intros [[-> Hx] H]. split; [done|]. intros i [<-|Hi]; auto.
  - intros [-> H]. split; [split; [done|]|]; intros; apply H; auto.
Qed.

(** The constant-time comparison decides equality of strings. *)
Lemma ct_str_eq_correct a b : is_cstr a -> is_cstr b -> ct_str_eq a b = true <-> a = b.
Proof.
  intros Ha Hb. unfold ct_str_eq. rewrite Z.eqb_eq, fold_lor_zero, Z.lxor_eq_0_iff. split; [|intros ->; split; [done|]; intros; apply Z.lxor_nilpotent].
  intros [_ H]. assert (Hi : forall i, (i < Nat.max (List.length a) (List.length b))%nat -> ct_byte a i = ct_byte b i).
  { intros i Hi. apply Z.lxor_eq, H, in_seq. destruct (Nat.ltb_spec (List.length b) (List.length a)); lia. }
  unfold is_cstr in *. rewrite Forall_lookup in Ha, Hb.
  assert (Hp : forall s i, (forall j c, s !! j = Some c -> 0 < c < 256) -> (i < List.length s)%nat -> ct_byte s i <> 0 /\ s !! i = Some (ct_byte s i)).
  { intros s i Hs Hl. unfold ct_byte. destruct (Nat.ltb_spec i (List.length s)); [|lia]. apply lookup_lt_is_Some_2 in Hl as [c Hc].
    rewrite nth_lookup, Hc. cbn. split; [|done]. specialize (Hs i c Hc). lia. }
  assert (Hn : forall s i, (List.length s <= i)%nat -> ct_byte s i = 0).
  { intros s i Hl. unfold ct_byte. destruct (Nat.ltb_spec i (List.length s)); [lia|done]. }
  assert (El : List.length a = List.length b).
  { destruct (Nat.lt_trichotomy (List.length a) (List.length b)) as [L|[L|L]]; [|done|]; exfalso.
    - specialize (Hi (List.length a) ltac:(lia)). rewrite (Hn a) in Hi by lia. by destruct (Hp b (List.length a) Hb L) as [E _].
    - specialize (Hi (List.length b) ltac:(lia)). rewrite (Hn b) in Hi by lia. by destruct (Hp a (List.length b) Ha L) as [E _]. }
  apply list_eq. intros i. destruct (Nat.lt_ge_cases i (List.length a)) as [L|L].
  - destruct (Hp a i Ha L) as [_ ->]. destruct (Hp b i Hb ltac:(lia)) as [_ ->]. f_equal. apply Hi. lia.
  - rewrite !lookup_ge_None_2 by lia. done.
Qed.

(** ** Searching *)

Lemma starts_with_app p s : starts_with p s = true <-> exists t, s = p ++ t.
Proof.
  unfold starts_with. rewrite list_eqb_eq. split.
  - intros H. exists (drop (List.length p) s). rewrite <- H at 1. by rewrite take_drop.
  - intros [t ->]. apply take_app_length.
Qed.

Lemma strstr_some n s a b : strstr n s = Some (a, b) -> s = a ++ b /\ starts_with n b = true.
Proof.
  revert a b. induction s as [|c s IH]; intros a b; cbn [strstr].
  - destruct (starts_with n []) eqn:E; [intros [= <- <-]; done|done].
  - destruct (starts_with n (c :: s)) eqn:E; [intros [= <- <-]; done|].
    destruct (strstr n s) as [[a' b']|]; [|done]. intros [= <- <-]. destruct (IH a' b' eq_refl) as [-> ?]. done.
Qed.

(** The first line end of [s ++ r], where [r] does not complete one begun in [s]. *)
Lemma strstr_crlf_app s r : match r with 10 :: _ => False | _ => True end ->
  match strstr CRLF s with
  | Some (l, t) => strstr CRLF (s ++ r) = Some (l, t ++ r)
  | None => forall l t, strstr CRLF (s ++ r) = Some (l, t) -> (List.length s <= List.length l)%nat
  end.
Proof.
  intros Hr. induction s as [|c s IH]; cbn [strstr app].
  - cbn. intros l t _. lia.
  - assert (Es : starts_with CRLF (c :: s ++ r) = starts_with CRLF (c :: s)).
    { unfold starts_with, CRLF. cbn [List.length take list_eqb]. destruct s as [|d s]; cbn [app take list_eqb]; [|done].
      destruct r as [|d r]; cbn [take list_eqb]; [done|]. destruct (Z.eqb_spec d 10) as [->|]; [destruct Hr|]. by destruct (c =? 13). }
    rewrite Es. destruct (starts_with CRLF (c :: s)); [done|]. destruct (strstr CRLF s) as [[l t]|] eqn:E.
    + by rewrite IH.
    + intros l t H. destruct (strstr CRLF (s ++ r)) as [[l' t']|] eqn:E'; [|done]. injection H as <- <-.
      specialize (IH l' t' eq_refl). cbn [List.length]. lia.
Qed.

(** ** The token check, as lines *)

Fixpoint split_lines (fuel : nat) (s : list Z) : list (list Z) :=
  match fuel with
  | O => [s]
  | S fuel => match strstr CRLF s with
              | None => [s]
              | Some (l, t) => l :: split_lines fuel (drop 2 t)
              end
  end.

(** The headers: everything before the empty line. *)
Definition header_block (buf : list Z) : list Z := match strstr CRLF2 buf with Some (hd, _) => hd | None => buf end.

Definition header_lines (buf : list Z) : list (list Z) := split_lines (List.length buf) (header_block buf).

Lemma split_lines_ne fuel s : split_lines fuel s <> [].
Proof. destruct fuel; cbn; [done|]. by destruct (strstr CRLF s) as [[]|]. Qed.

Lemma auth_loop_lines token r : match r with 10 :: _ => False | _ => True end -> forall fuel fuel' ph,
  (List.length ph < fuel)%nat -> (List.length ph <= fuel')%nat ->
  auth_loop fuel token (ph ++ r) (List.length ph) = existsb (line_ok token) (removelast (split_lines fuel' ph)).
Proof.
  intros Hr. induction fuel as [|fuel IH]; intros fuel' ph Hf Hf'; [lia|]. cbn [auth_loop].
  destruct (Nat.eqb_spec (List.length ph) 0) as [E0|E0].
  { destruct ph; [|done]. destruct fuel' as [|fuel']; [done|]. done. }
  destruct fuel' as [|fuel']; [lia|]. cbn [split_lines]. pose proof (strstr_crlf_app ph r Hr) as Hs.
  destruct (strstr CRLF ph) as [[l t]|] eqn:E.
  - rewrite Hs. destruct (strstr_some _ _ _ _ E) as [-> Ht]. apply starts_with_app in Ht as [u ->].
    rewrite !length_app in *. cbn [List.length CRLF] in *. destruct (Nat.leb_spec (List.length l + (2 + List.length u)) (List.length l)); [lia|].
    change (drop 2 ((CRLF ++ u) ++ r)) with (u ++ r). change (drop 2 (CRLF ++ u)) with u.
    replace (List.length l + (2 + List.length u) - (List.length l + 2))%nat with (List.length u) by lia.
    rewrite (IH fuel' u) by lia. destruct (split_lines fuel' u) as [|x xs] eqn:Ex; [by apply split_lines_ne in Ex|].
    change (removelast (l :: x :: xs)) with (l :: removelast (x :: xs)). cbn [existsb]. by destruct (line_ok token l).
  - destruct (strstr CRLF (ph ++ r)) as [[l t]|] eqn:E'; [|done]. specialize (Hs l t eq_refl).
    destruct (Nat.leb_spec (List.length ph) (List.length l)); [done|lia].
Qed.

(** The check accepts exactly the requests in which a header line other than
    the last carries the token. *)
Lemma api_auth_ok_lines token buf :
  api_auth_ok (Some token) buf = existsb (line_ok token) (removelast (header_lines buf)).
Proof.
  unfold api_auth_ok, header_lines, header_block. destruct (strstr CRLF2 buf) as [[hd r]|] eqn:E.
  - destruct (strstr_some _ _ _ _ E) as [-> Hr]. apply starts_with_app in Hr as [u ->].
    apply auth_loop_lines; rewrite ?length_app; [done|lia|lia].
  - rewrite <- (app_nil_r buf) at 2. apply auth_loop_lines; [done|lia|lia].
Qed.

(** ** URL encoding *)

(** The encodings of a string a client may send: a character as itself, as a
    percent escape in either case, or a space as a plus sign. *)
Inductive url_encodes : list Z -> list Z -> Prop :=
| ue_nil : url_encodes [] []
| ue_plain c e s : c <> 37 -> c <> 43 -> url_encodes e s -> url_encodes (c :: e) (c :: s)
| ue_plus e s : url_encodes e s -> url_encodes (43 :: e) (32 :: s)
| ue_hex c a b hi lo e s : hex_digit a = Some hi -> hex_digit b = Some lo -> c = hi * 16 + lo ->
    url_encodes e s -> url_encodes (37 :: a :: b :: e) (c :: s).

Lemma hex_digit_some c d : hex_digit c = Some d -> 0 <= d < 16 /\ is_space c = false /\ c <> 45 /\ c <> 43.
Proof. unfold hex_digit, is_space. repeat case_match; intros [= <-]; zb; repeat split; try lia; apply orb_false_iff; split; zb; lia. Qed.

Lemma strtol16_hex a b hi lo : hex_digit a = Some hi -> hex_digit b = Some lo -> strtol16 [a; b] = hi * 16 + lo.
Proof.
  intros Ha Hb. destruct (hex_digit_some a hi Ha) as (R1 & S1 & N1 & N2). destruct (hex_digit_some b lo Hb) as (R2 & _).
  unfold strtol16. cbn [skip_while]. rewrite S1.
  destruct (Z.eqb_spec a 45); [done|]. destruct (Z.eqb_spec a 43); [done|]. cbn [hex_digits]. rewrite Ha, Hb. unfold u8. rewrite wrap_small; lia.
Qed.

Lemma url_decode_encodes e s : url_encodes e s -> url_decode e = s.
Proof.
  induction 1 as [|c e s H1 H2 _ IH|e s _ IH|c a b hi lo e s Ha Hb -> _ IH].
  - done.
  - cbn [url_decode]. rewrite IH. apply Z.eqb_neq in H1, H2. rewrite H1, H2. by destruct e as [|a [|b u]].
  - cbn [url_decode]. rewrite IH. by destruct e as [|a [|b u]].
  - cbn [url_decode]. change (37 =? 37) with true. cbn iota. by rewrite IH, (strtol16_hex a b hi lo).
Qed.

Lemma until_nul_cstr s : is_cstr s -> until_nul s = s.
Proof. induction 1 as [|c s Hc _ IH]; [done|]. cbn. destruct (Z.eqb_spec c 0); [lia|]. by rewrite IH. Qed.

(** Every encoding of a string decodes to it. *)
Lemma url_round_trip e s : url_encodes e s -> is_cstr s -> url_decode_inplace e = s.
Proof. intros He Hs. unfold url_decode_inplace. rewrite (url_decode_encodes e s He). by apply until_nul_cstr. Qed.

(** ** Parameters *)

(** A query string as a client joins it. *)
Fixpoint join_params (ps : list (list Z * list Z)) : list Z :=
  match ps with
  | [] => []
  | [(k, v)] => k ++ 61 :: v
  | (k, v) :: t => k ++ 61 :: v ++ 38 :: join_params t
  end.

Definition params_ok (ps : list (list Z * list Z)) : Prop :=
  Forall (fun p => ~ In 61 (fst p) /\ ~ In 38 (fst p) /\ ~ In 38 (snd p)) ps.

Fixpoint param (key : list Z) (ps : list (list Z * list Z)) : option (list Z) :=
  match ps with [] => None | (k, v) :: t => if list_eqb k key then Some v else param key t end.

Lemma strchr_split c s t : ~ In c s -> strchr c (s ++ c :: t) = Some (s, t).
Proof.
  induction s as [|x s IH]; intros H; cbn [strchr app]; [by rewrite Z.eqb_refl|]. destruct (Z.eqb_spec x c) as [->|]; [destruct H; by left|].
  rewrite IH; [done|]. intros Hi. apply H. by right.
Qed.

Lemma strchr_absent c s : ~ In c s -> strchr c s = None.
Proof.
  induction s as [|x s IH]; intros H; cbn [strchr]; [done|]. destruct (Z.eqb_spec x c) as [->|]; [destruct H; by left|].
  rewrite IH; [done|]. intros Hi. apply H. by right.
Qed.

Lemma query_value_param key k v cap : ~ In 61 k -> ~ In 61 key ->
  query_value key (k ++ 61 :: v) cap =
  if list_eqb k key then Some (url_decode_inplace (take (cap - 1) v)) else None.
Proof.
  intros Hk Hkey. unfold query_value. rewrite length_app. cbn [List.length]. destruct (list_eqb k key) eqn:E.
  - apply list_eqb_eq in E as ->. rewrite (proj2 (Nat.ltb_lt _ _)) by lia. rewrite app_nth2, Nat.sub_diag by lia. cbn [nth].
    rewrite take_app_length. rewrite (proj2 (list_eqb_eq key key) eq_refl). cbn [andb Z.eqb Pos.eqb].
    replace (S (List.length key)) with (List.length key + 1)%nat by lia. rewrite drop_app_add'; [done|done].
  - destruct (_ && _) eqn:Eb; [|done]. exfalso. apply andb_prop in Eb as [Eb E3]. apply andb_prop in Eb as [_ E2].
    apply list_eqb_eq in E3. apply Z.eqb_eq in E2.
    destruct (Nat.lt_trichotomy (List.length key) (List.length k)) as [L|[L|L]].
    + rewrite app_nth1 in E2 by done. apply Hk. rewrite <- E2. by apply nth_In.
    + rewrite L, take_app_length in E3. subst key. by rewrite (proj2 (list_eqb_eq k k) eq_refl) in E.
    + apply Hkey. rewrite <- E3. rewrite take_app_ge by lia. apply in_app_iff. right.
      destruct (List.length key - List.length k)%nat eqn:En; [lia|]. by left.
Qed.

(** A parameter is looked up by its whole name; the first one of the name
    counts, decoded, cut to the buffer. *)
Lemma query_get_param ps key cap : params_ok ps -> ~ In 61 key ->
  query_get (join_params ps) key cap = option_map (fun v => url_decode_inplace (take (cap - 1) v)) (param key ps).
Proof.
  intros Hps Hkey. unfold query_get.
  enough (G : forall n, (List.length (join_params ps) < n)%nat -> query_get_loop n (join_params ps) key cap =
    option_map (fun v => url_decode_inplace (take (cap - 1) v)) (param key ps)) by (apply G; lia).
  induction Hps as [|[k v] ps (H1 & H2 & H3) Hps IH]; intros n Hn.
  { by destruct n. }
  cbn [fst snd] in *. destruct n as [|n]; [lia|]. cbn [param]. destruct ps as [|q ps].
  - cbn [join_params]. cbn [query_get_loop]. destruct (k ++ 61 :: v) as [|c0 s0] eqn:E0; [by destruct k|]. rewrite <- E0 in *.
    rewrite strchr_absent by (rewrite in_app_iff; intros [?|[?|?]]; [done|discriminate|done]). rewrite query_value_param by done.
    destruct (list_eqb k key); [done|]. by destruct n.
  - change (join_params ((k, v) :: q :: ps)) with (k ++ 61 :: v ++ 38 :: join_params (q :: ps)) in *.
    cbn [query_get_loop]. destruct (k ++ 61 :: v ++ 38 :: join_params (q :: ps)) as [|c0 s0] eqn:E0; [by destruct k|]. rewrite <- E0 in *.
    replace (k ++ 61 :: v ++ 38 :: join_params (q :: ps)) with ((k ++ 61 :: v) ++ 38 :: join_params (q :: ps)) by (by rewrite <- app_assoc).
    rewrite strchr_split by (rewrite in_app_iff; intros [?|[?|?]]; [done|discriminate|done]). rewrite query_value_param by done.
    destruct (list_eqb k key); [done|]. apply IH. rewrite !length_app in Hn. cbn [List.length] in Hn. rewrite length_app in Hn. cbn [List.length] in Hn. lia.
Qed.

(** Numbers in C strings, continued: strtol with a detected base, strtod and atof.

    strtod rounds the number the text denotes once, to nearest even; exponents
    beyond the range of a double are cut off before the power is computed. *)

Definition octal_digit (c : Z) : bool := (48 <=? c) && (c <=? 55).

Fixpoint octal_digits (acc : Z) (s : list Z) : Z :=
  match s with [] => acc | c :: t => if octal_digit c then octal_digits (acc * 8 + (c - 48)) t else acc end.

Definition is_hex (s : list Z) : bool := match s with c :: _ => match hex_digit c with Some _ => true | None => false end | [] => false end.

(** The magnitude after the sign: 0x and hex digits, 0 and octal digits, or
    decimal digits. *)
Definition scan_base0 (s : list Z) : Z :=
  match s with
  | 48 :: x :: t => if (tolower x =? 120) && is_hex t then hex_digits 0 t else octal_digits 0 s
  | _ => atoi_digits 0 s
  end.

Definition signed_text (s : list Z) : bool * list Z :=
  match skip_while is_space s with
  | [] => (false, [])
  | c :: t => if c =? 45 then (true, t) else if c =? 43 then (false, t) else (false, c :: t)
  end.

(** [strtol(s, NULL, 0)]. *)
Definition strtol0 (s : list Z) : Z :=
  let '(neg, t) := signed_text s in
  if neg then Z.max (- scan_base0 t) (- LONG_MAX - 1) else Z.min (scan_base0 t) LONG_MAX.

(** Digits: their value continuing [acc], their number and the rest. *)
Fixpoint digits_of (acc : Z) (n : nat) (s : list Z) : Z * nat * list Z :=
  match s with
  | c :: t => if is_digit c then digits_of (acc * 10 + (c - 48)) (S n) t else (acc, n, s)
  | [] => (acc, n, [])
  end.

(** An exponent after [mark], if digits follow its sign. *)
Definition exponent (mark : Z) (s : list Z) : Z :=
  match s with
  | e :: t =>
      if tolower e =? mark then
        match t with
        | 45 :: u => - atoi_digits 0 u
        | 43 :: u => atoi_digits 0 u
        | _ => atoi_digits 0 t
        end
      else 0
  | [] => 0
  end.

(** [m * 10 ^ e] for a mantissa of [n] digits. *)
Definition scaled10 (m : Z) (n : nat) (e : Z) : spec_float :=
  let e := Z.max (- (Z.of_nat n + 400)) (Z.min 400 e) in
  match m with
  | Zpos p => if 0 <=? e then f64_of_Z (m * 10 ^ e)
              else match 10 ^ (- e) with Zpos d => f64_div (S754_finite false p 0) (S754_finite false d 0) | _ => f_zero end
  | _ => f_zero
  end.

(** [None]: no digit. *)
Definition decimal_value (s : list Z) : option spec_float :=
  let '(m, n, t) := digits_of 0 0 s in
  let '(m, n', t) := match t with 46 :: u => digits_of m n u | _ => (m, n, t) end in
  if (n' =? 0)%nat then None else Some (scaled10 m n' (exponent 101 t - Z.of_nat (n' - n))).

(** Hexadecimal digits likewise. *)
Fixpoint hexes_of (acc : Z) (n : nat) (s : list Z) : Z * nat * list Z :=
  match s with
  | c :: t => match hex_digit c with Some d => hexes_of (acc * 16 + d) (S n) t | None => (acc, n, s) end
  | [] => (acc, n, [])
  end.

(** [m * 2 ^ e]. *)
Definition scaled2 (m : Z) (n : nat) (e : Z) : spec_float :=
  binary_normalize 53 1024 m (Z.max (- (4 * Z.of_nat n + 1200)) (Z.min 1200 e)) false.

Definition hex_value (s : list Z) : spec_float :=
  let '(m, n, t) := hexes_of 0 0 s in
  let '(m, n', t) := match t with 46 :: u => hexes_of m n u | _ => (m, n, t) end in
  if (n' =? 0)%nat then f_zero else scaled2 m n' (exponent 112 t - 4 * Z.of_nat (n' - n)).

Definition f64_opp (x : spec_float) : spec_float := SFopp x.

(** [strtod(s, &end)]; [None]: nothing was converted, [end == s]. *)
Definition strtod (s : list Z) : option spec_float :=
  let '(neg, t) := signed_text s in
  let v := if strncasecmp_eq 3 t (str "inf") then Some (S754_infinity false)
           else if strncasecmp_eq 3 t (str "nan") then Some S754_nan
           else match t with
                | 48 :: x :: u => if tolower x =? 120 then Some (hex_value u) else decimal_value t
                | _ => decimal_value t
                end in
  option_map (fun v => if neg then f64_opp v else v) v.

(** [atof(s)]. *)
Definition atof (s : list Z) : spec_float := default f_zero (strtod s).

Example strtol0_bases : map strtol0 [str "0x2f"; str "017"; str " -12"; str "0x"; str "99999999999999999999"] = [47; 15; -12; 0; LONG_MAX].
Proof. reflexivity. Qed.

Example atof_values : map atof [str "1.5"; str "-0.1"; str "1783000000.25"; str "1e400"; str "0x1.8p1"; str "x"] =
  [S754_finite false 6755399441055744 (-52); S754_finite true 7205759403792794 (-56); f64_div (f64_of_Z 7132000001) (f64_of_Z 4);
   S754_infinity false; f64_of_Z 3; f_zero].
Proof. vm_compute. reflexivity. Qed.
