(* ===== verification/ShareUrl.v ===== *)
(** Channel share links (decode_channel_share of src/web.c): the base64-url
    part of a link is a protobuf ChannelSet whose channels' keys are added to
    the key store. *)

From Stdlib Require Import String.
From S2P Require Import Prelude CString Meshtastic Keyset.

Local Open Scope string_scope.
Local Open Scope list_scope.
Local Open Scope Z_scope.

Definition SHARE_BUF : nat := 256.

(** A varint: bytes up to one without the continuation bit, or to the end.
    Bits shifted past 64 are lost. *)
Fixpoint share_varint (acc shift : Z) (p : list Z) : Z * list Z :=
  match p with
  | [] => (acc, [])
  | b :: t =>
      let acc := u64 (Z.lor acc (Z.shiftl (Z.land b 0x7f) shift)) in
      if Z.testbit b 7 then share_varint acc (shift + 7) t else (acc, t)
  end.

Fixpoint skip_varint (p : list Z) : list Z :=
  match p with
  | [] => []
  | b :: t => if Z.testbit b 7 then skip_varint t else t
  end.

(** [n] bytes of [p], unless it has fewer. *)
Definition share_chunk (p : list Z) (l : Z) : option (list Z * list Z) :=
  if Z.of_nat (List.length p) <? l then None else Some (take (Z.to_nat l) p, drop (Z.to_nat l) p).

(** [None]: the return value -1. *)
Definition share_skip (wt : Z) (p : list Z) : option (list Z) :=
  if wt =? 0 then Some (skip_varint p)
  else if wt =? 1 then (if (List.length p <? 8)%nat then None else Some (drop 8 p))
  else if wt =? 2 then let '(l, p) := share_varint 0 0 p in option_map snd (share_chunk p l)
  else if wt =? 5 then (if (List.length p <? 4)%nat then None else Some (drop 4 p))
  else None.

Definition tag_field (tag : Z) : Z := u32 (Z.shiftr tag 3).
Definition tag_wire (tag : Z) : Z := Z.land tag 7.

(** The psk (empty: none) and the name collected so far. *)
Definition settings := (list Z * list Z)%type.

Fixpoint share_cstr (s : list Z) : list Z := match s with [] => [] | c :: t => if c =? 0 then [] else c :: share_cstr t end.

Definition take_field (f3 : Z) (v : list Z) (st : settings) : settings :=
  if (f3 =? 2) && (List.length v <=? 32)%nat then (v, snd st)
  else if (f3 =? 3) && (List.length v <? 32)%nat then (fst st, share_cstr v)
  else st.

(** ChannelSettings. *)
Fixpoint parse_settings (fuel : nat) (sp : list Z) (st : settings) : settings :=
  match fuel, sp with
  | O, _ | _, [] => st
  | S fuel, _ =>
      let '(t3, sp) := share_varint 0 0 sp in
      if negb (tag_wire t3 =? 2) then
        match share_skip (tag_wire t3) sp with None => st | Some sp => parse_settings fuel sp st end
      else
        let '(l3, sp) := share_varint 0 0 sp in
        match share_chunk sp l3 with
        | None => st
        | Some (v, sp) => parse_settings fuel sp (take_field (tag_field t3) v st)
        end
  end.

(** Channel: the settings are its field 2. *)
Fixpoint parse_share_channel (fuel : nat) (cp : list Z) (st : settings) : settings :=
  match fuel, cp with
  | O, _ | _, [] => st
  | S fuel, _ =>
      let '(t2, cp) := share_varint 0 0 cp in
      if negb (tag_field t2 =? 2) || negb (tag_wire t2 =? 2) then
        match share_skip (tag_wire t2) cp with None => st | Some cp => parse_share_channel fuel cp st end
      else
        let '(l2, cp) := share_varint 0 0 cp in
        match share_chunk cp l2 with
        | None => st
        | Some (sp, cp) => parse_share_channel fuel cp (parse_settings (List.length sp) sp st)
        end
  end.

Definition add_shared (ks : keyset) (st : settings) : Z * keyset :=
  let '(psk, name) := st in
  let added (r : bool * keyset) := (if fst r then 1 else 0, snd r) in
  match List.length psk with
  | 1%nat => added (keyset_add ks name (<[15%nat := nth 0 psk 0]> MESH_DEFAULT_PSK))
  | n => if (n =? 16)%nat || (n =? 32)%nat then added (keyset_add ks name psk) else (0, ks)
  end.

(** ChannelSet: its channels are field 1. *)
Fixpoint parse_channel_set (fuel : nat) (bp : list Z) (ks : keyset) (added : Z) : Z * keyset :=
  match fuel, bp with
  | O, _ | _, [] => (added, ks)
  | S fuel, _ =>
      let '(tag, bp) := share_varint 0 0 bp in
      if tag_wire tag =? 2 then
        let '(l, bp) := share_varint 0 0 bp in
        match share_chunk bp l with
        | None => (added, ks)
        | Some (cp, bp) =>
            if negb (tag_field tag =? 1) then parse_channel_set fuel bp ks added
            else
              let '(n, ks) := add_shared ks (parse_share_channel (List.length cp) cp ([], [])) in
              parse_channel_set fuel bp ks (added + n)
        end
      else
        let bp := if tag_wire tag =? 0 then skip_varint bp
                  else if tag_wire tag =? 1 then drop 8 bp
                  else if tag_wire tag =? 5 then drop 4 bp
                  else bp in
        parse_channel_set fuel bp ks added
  end.

Definition share_stop (c : Z) : bool := (c =? 61) || (c =? 38) || (c =? 32) || (c =? 13) || (c =? 10).

(** The base64 loop; [None]: a character that is no digit. *)
Fixpoint share_b64 (accum bits : Z) (out : list Z) (p : list Z) : option (list Z) :=
  match p with
  | [] => Some out
  | c :: t =>
      if (SHARE_BUF <=? List.length out)%nat then Some out
      else if share_stop c then Some out
      else match b64_value c with
           | None => None
           | Some v =>
               let accum := u32 (Z.lor (u32 (Z.shiftl accum 6)) v) in
               let bits := bits + 6 in
               if 8 <=? bits then share_b64 accum (bits - 8) (out ++ [u8 (Z.land (Z.shiftr accum (bits - 8)) 0xff)]) t
               else share_b64 accum bits out t
           end
  end.

(** The part after '#', and of that the part after '='. *)
Definition share_payload (url : list Z) : list Z :=
  let p := match strchr 35 url with Some (_, t) => t | None => url end in
  match strchr 61 p with Some (_, t) => t | None => p end.

(** The number of channels added, [None] for -1. *)
Definition decode_channel_share (ks : keyset) (url : list Z) : option Z * keyset :=
  match share_b64 0 0 [] (share_payload url) with
  | None | Some [] => (None, ks)
  | Some buf => let '(n, ks) := parse_channel_set (List.length buf) buf ks 0 in (Some n, ks)
  end.

(** ** Links written by the documented schema *)

Definition enc_field (f : Z) (v : list Z) : list Z := (8 * f + 2) :: Z.of_nat (List.length v) :: v.

Definition enc_settings (st : settings) : list Z :=
  enc_field 2 (fst st) ++ match snd st with [] => [] | name => enc_field 3 name end.

(** A Channel with its index and settings. *)
Definition enc_channel (c : Z * settings) : list Z := [8; fst c] ++ enc_field 2 (enc_settings (snd c)).

Definition enc_channel_set (cs : list (Z * settings)) : list Z := flat_map (fun c => enc_field 1 (enc_channel c)) cs.

(** A channel a link can carry. *)
Definition shareable (c : Z * settings) : Prop :=
  0 <= fst c < 128 /\ bytes_ok (fst (snd c)) /\ (List.length (fst (snd c)) <= 32)%nat /\
  is_cstr (snd (snd c)) /\ (List.length (snd (snd c)) < 32)%nat.

Lemma share_varint_byte n t : 0 <= n < 128 -> share_varint 0 0 (n :: t) = (n, t).
Proof.
  intros Hn. cbn [share_varint]. rewrite Z.lor_0_l, Z.shiftl_0_r. change 0x7f with (Z.ones 7). rewrite Z.land_ones, Z.mod_small by lia.
  assert (E : Z.testbit n 7 = false).
  { destruct (Z.eq_dec n 0) as [->|]; [done|]. apply Z.bits_above_log2; [lia|]. apply Z.log2_lt_pow2; lia. }
  rewrite E. unfold u64. by rewrite wrap_small by lia.
Qed.

Lemma share_chunk_app v rest : share_chunk (v ++ rest) (Z.of_nat (List.length v)) = Some (v, rest).
Proof.
  unfold share_chunk. rewrite length_app. destruct (Z.ltb_spec (Z.of_nat (List.length v + List.length rest)) (Z.of_nat (List.length v))); [lia|].
  by rewrite Nat2Z.id, take_app_length, drop_app_length.
Qed.

Lemma field_tag f : 0 <= f < 16 -> tag_wire (8 * f + 2) = 2 /\ tag_field (8 * f + 2) = f.
Proof.
  intros Hf. unfold tag_wire, tag_field, u32. change 7 with (Z.ones 3). rewrite Z.land_ones, Z.shiftr_div_pow2 by lia.
  change (2 ^ 3) with 8. replace (8 * f + 2) with (2 + f * 8) by lia. rewrite Z.mod_add, Z.div_add by lia.
  change (2 mod 8) with 2. change (2 / 8) with 0. rewrite wrap_small by lia. done.
Qed.

Lemma parse_settings_field n f v rest st : 0 <= f < 15 -> (List.length v < 128)%nat ->
  parse_settings (S n) (enc_field f v ++ rest) st = parse_settings n rest (take_field f v st).
Proof.
  intros Hf Hv. unfold enc_field. cbn [app parse_settings]. rewrite share_varint_byte by lia. destruct (field_tag f ltac:(lia)) as [-> ->].
  cbn [Z.eqb Pos.eqb negb]. rewrite share_varint_byte by lia. by rewrite share_chunk_app.
Qed.

Lemma parse_settings_end n st : parse_settings n [] st = st.
Proof. by destruct n. Qed.

Lemma share_cstr_id s : is_cstr s -> share_cstr s = s.
Proof. induction 1 as [|c s Hc _ IH]; [done|]. cbn. destruct (Z.eqb_spec c 0); [lia|]. by rewrite IH. Qed.

Lemma parse_enc_settings n psk name : (List.length psk <= 32)%nat -> is_cstr name -> (List.length name < 32)%nat -> (2 <= n)%nat ->
  parse_settings n (enc_settings (psk, name)) ([], []) = (psk, name).
Proof.
  intros Hp Hc Hn H2. destruct n as [|[|n]]; [lia|lia|]. unfold enc_settings. cbn [fst snd]. rewrite parse_settings_field by lia.
  unfold take_field at 1. change (2 =? 2) with true. rewrite (proj2 (Nat.leb_le _ _) Hp). cbn [andb snd].
  destruct name as [|c name]; [by rewrite parse_settings_end|]. rewrite <- (app_nil_r (enc_field 3 (c :: name))).
  rewrite parse_settings_field by lia. unfold take_field. change (3 =? 2) with false. change (3 =? 3) with true.
  rewrite (proj2 (Nat.ltb_lt _ _) Hn). cbn [andb fst]. by rewrite share_cstr_id, parse_settings_end.
Qed.

Lemma enc_settings_len st : (List.length (enc_settings st) <= 4 + List.length (fst st) + List.length (snd st))%nat /\ (2 <= List.length (enc_settings st))%nat.
Proof.
  unfold enc_settings, enc_field. rewrite length_app. destruct (snd st); cbn [List.length]; lia.
Qed.

Lemma parse_enc_channel n c : shareable c -> (3 <= n)%nat -> parse_share_channel n (enc_channel c) ([], []) = snd c.
Proof.
  intros (Hi & _ & Hp & Hc & Hn) H3. destruct c as [i [psk name]]. cbn [fst snd] in *. destruct n as [|[|n]]; [lia|lia|].
  unfold enc_channel. cbn [fst snd app].
  assert (E : Z.testbit i 7 = false).
  { destruct (Z.eq_dec i 0) as [->|]; [done|]. apply Z.bits_above_log2; [lia|]. apply Z.log2_lt_pow2; lia. }
  assert (Hskip : parse_share_channel (S (S n)) (8 :: i :: enc_field 2 (enc_settings (psk, name))) ([], []) =
    parse_share_channel (S n) (enc_field 2 (enc_settings (psk, name))) ([], [])).
  { cbn [parse_share_channel]. rewrite share_varint_byte by lia. change (tag_field 8) with 1. change (tag_wire 8) with 0.
    unfold share_skip at 1. cbn [Z.eqb Pos.eqb negb orb skip_varint]. by rewrite E. }
  rewrite Hskip. clear Hskip. pose proof (enc_settings_len (psk, name)) as [Hl Hl2]. cbn [fst snd] in Hl.
  set (es := enc_settings (psk, name)) in *. unfold enc_field. cbn [parse_share_channel].
  rewrite share_varint_byte by lia. destruct (field_tag 2 ltac:(lia)) as [-> ->]. cbn [Z.eqb Pos.eqb negb orb].
  rewrite share_varint_byte by lia. pose proof (share_chunk_app es []) as Hch. rewrite app_nil_r in Hch. rewrite Hch. unfold es.
  rewrite parse_enc_settings by (lia || done). by destruct n.
Qed.

Lemma enc_channel_len c : shareable c -> (3 <= List.length (enc_channel c) < 128)%nat.
Proof.
  intros (_ & _ & Hp & _ & Hn). unfold enc_channel, enc_field. rewrite length_app. cbn [List.length].
  pose proof (enc_settings_len (snd c)). lia.
Qed.

Definition add_channels (ks : keyset) (cs : list (Z * settings)) (n : Z) : Z * keyset :=
  fold_left (fun st c => let '(n, ks) := (st : Z * keyset) in let '(m, ks) := add_shared ks (snd c) in (n + m, ks)) cs (n, ks).

Lemma parse_enc_set cs : Forall shareable cs -> forall fuel ks n, (List.length cs <= fuel)%nat ->
  parse_channel_set fuel (enc_channel_set cs) ks n = add_channels ks cs n.
Proof.
  induction 1 as [|c cs Hc _ IH]; intros fuel ks n Hf; [by destruct fuel|]. destruct fuel as [|fuel]; [cbn in Hf; lia|].
  pose proof (enc_channel_len c Hc). unfold enc_channel_set. cbn [flat_map]. unfold enc_field at 1. cbn [app parse_channel_set].
  rewrite share_varint_byte by lia. destruct (field_tag 1 ltac:(lia)) as [-> ->]. cbn [Z.eqb Pos.eqb negb].
  rewrite share_varint_byte by lia. rewrite share_chunk_app. rewrite parse_enc_channel by (done || lia).
  unfold add_channels. cbn [fold_left]. destruct (add_shared ks (snd c)) as [m ks']. apply IH. cbn in Hf. lia.
Qed.

Lemma b64_loop_full max s : forall acc bits out r, (max <= List.length out)%nat -> b64_loop max acc bits out s = Some r -> r = out.
Proof.
  induction s as [|c s IH]; intros acc bits out r Hm; cbn [b64_loop]; [by intros [= <-]|]. destruct (b64_value c); [|done].
  destruct (8 <=? _); [destruct (Nat.leb_spec max (List.length out)); [done|lia]|]. by apply IH.
Qed.

Lemma share_b64_loop s : Forall (fun c => b64_pad c = false /\ c <> 61) s -> forall acc bits out r,
  b64_loop SHARE_BUF acc bits out s = Some r -> share_b64 acc bits out s = Some r.
Proof.
  induction 1 as [|c s [Hp _] _ IH]; intros acc bits out r H; [done|]. cbn [share_b64].
  destruct (Nat.leb_spec SHARE_BUF (List.length out)) as [Hf|Hf]; [by rewrite (b64_loop_full _ _ _ _ _ _ Hf H)|].
  cbn [b64_loop] in H. destruct (b64_value c) as [v|] eqn:Ev; [|done].
  assert (Es : share_stop c = false).
  { unfold b64_pad in Hp. unfold share_stop. destruct (Z.eqb_spec c 38) as [->|]; [done|].
    destruct (c =? 61), (c =? 32), (c =? 13), (c =? 10); done. }
  rewrite Es. destruct (8 <=? bits + 6); [|by apply IH].
  destruct (Nat.leb_spec SHARE_BUF (List.length out)); [lia|]. by apply IH.
Qed.

Lemma enc_field_bytes f v : 0 <= f < 15 -> (List.length v < 128)%nat -> bytes_ok v -> bytes_ok (enc_field f v).
Proof. intros Hf Hl Hv. unfold enc_field. repeat apply Forall_cons_2; [unfold is_byte; lia|unfold is_byte; lia|done]. Qed.

Lemma enc_set_bytes cs : Forall shareable cs -> bytes_ok (enc_channel_set cs).
Proof.
  induction 1 as [|c cs Hc _ IH]; [apply Forall_nil_2|]. cbn [enc_channel_set flat_map]. apply Forall_app. split; [|exact IH].
  apply enc_field_bytes; [lia|apply enc_channel_len; done|]. pose proof (enc_settings_len (snd c)) as [Hl _].
  destruct Hc as (Hi & Hb & Hp & Hn & Hn2). unfold enc_channel. apply Forall_app. split.
  { repeat apply Forall_cons_2; [unfold is_byte; lia|unfold is_byte; lia|apply Forall_nil_2]. }
  apply enc_field_bytes; [lia|lia|]. unfold enc_settings. apply Forall_app. split; [apply enc_field_bytes; [lia|lia|done]|].
  destruct (snd (snd c)) eqn:En; [apply Forall_nil_2|]. rewrite <- En in *. apply enc_field_bytes; [lia|lia|by apply cstr_bytes].
Qed.

Definition share_link (cs : list (Z * settings)) : list Z := str "https://meshtastic.org/e/#" ++ b64_body (enc_channel_set cs).

(** A share link gives back its channels.  A link that carries up to 256
    bytes of channels, written by the schema the decoder documents (a
    ChannelSet of Channels with an index and ChannelSettings), adds exactly
    those channels' keys to the store, in order and under their names, a
    one-byte key being the default key of that number; the count returned is
    the number of keys the store accepted. *)
Theorem share_link_round_trip ks cs : cs <> [] -> Forall shareable cs -> (List.length (enc_channel_set cs) <= SHARE_BUF)%nat ->
  decode_channel_share ks (share_link cs) = let '(n, ks') := add_channels ks cs 0 in (Some n, ks').
Proof.
  intros Hne Hcs Hl. pose proof (enc_set_bytes cs Hcs) as Hb. pose proof (b64_body_chars _ Hb) as Hch.
  unfold decode_channel_share, share_payload, share_link.
  change (str "https://meshtastic.org/e/#") with (str "https://meshtastic.org/e/" ++ [35]). rewrite <- app_assoc. cbn [app].
  rewrite strchr_app by by_decide.
  rewrite strchr_none by (eapply Forall_impl; [exact Hch|]; by intros x [_ ?]).
  rewrite (share_b64_loop _ Hch 0 0 [] (enc_channel_set cs)); [|by apply b64_loop_body].
  destruct (enc_channel_set cs) as [|b0 bs] eqn:E.
  { destruct cs as [|c cs]; [done|]. discriminate E. }
  rewrite <- E. rewrite parse_enc_set; [done|done|]. rewrite <- E in Hl. clear.
  induction cs as [|c cs IH]; [cbn; lia|]. cbn [enc_channel_set flat_map]. rewrite length_app. unfold enc_field at 1.
  cbn [List.length]. unfold enc_channel_set in IH. lia.
Qed.

(** Two channels: the default key, and a sixteen-byte key named Club. *)
Definition share_demo : list (Z * settings) := [(0, ([1], [])); (1, (replicate 16 7, str "Club"))].

Lemma share_link_round_trip_witness :
  decode_channel_share keyset_create (share_link share_demo) =
  let '(n, ks') := add_channels keyset_create share_demo 0 in (Some n, ks').
Proof.
  apply (share_link_round_trip keyset_create share_demo).
  - discriminate.
  - unfold share_demo, shareable. repeat apply Forall_cons_2; try apply Forall_nil_2; cbn [fst snd];
      (split; [lia|]; split; [by_decide|]; split; [cbn; lia|]; split; [unfold is_cstr; by_decide|cbn; lia]).
  - vm_compute. lia.
Defined.

(** The link the comment of the decoder gives as its example adds nothing,
    and neither does one whose channel is three bytes long, as in the link of
    the README: a key needs five. *)
Theorem documented_links_add_nothing :
  decode_channel_share keyset_create (str "meshtastic.org/e/?#CgUYAyIBAQ") = (Some 0, keyset_create) /\
  decode_channel_share keyset_create (str "https://meshtastic.org/e/#CgMSAQE") = (Some 0, keyset_create).
Proof. split; vm_compute; reflexivity. Qed.

(** Padding is taken for the '=' of a parameter: a padded link is refused. *)
Theorem padded_link_refused :
  decode_channel_share keyset_create (share_link [(0, ([1], []))] ++ [61; 61]) = (None, keyset_create) /\
  fst (decode_channel_share keyset_create (share_link [(0, ([1], []))])) = Some 1.
Proof. split; vm_compute; reflexivity. Qed.
