(* ===== verification/SseHub.v ===== *)
(** The event stream of the dashboard (promote_to_sse and web_publish_line of
    src/web.c): the ring of recent lines, the clients, and what each of them
    is sent.

    g_lock makes a connection and a publication atomic.  What the kernel
    accepts of a send is an argument, except for the header, which a fresh
    connection takes whole; the allocations succeed. *)

From Stdlib Require Import String.
From S2P Require Import Prelude CString.

Local Open Scope string_scope.
Local Open Scope list_scope.
Local Open Scope nat_scope.

Definition MAX_SSE_CLIENTS : nat := 8.
Definition HISTORY_RING_SIZE : nat := 1024.

Record hub := mk_hub {
  g_history : list (list Z);        (* an entry not yet written is empty *)
  g_history_head : nat;
  g_history_count : nat;
  g_sse_fds : list Z;
}.

Definition hub_init : hub := mk_hub (replicate HISTORY_RING_SIZE []) 0 0 [].

Inductive sock_event :=
| Sent (fd : Z) (bytes : list Z)
| Closed (fd : Z).

Definition SSE_HEADER : list Z :=
  str "HTTP/1.1 200 OK" ++ [13; 10]%Z ++ str "Content-Type: text/event-stream" ++ [13; 10]%Z ++
  str "Cache-Control: no-cache" ++ [13; 10]%Z ++ str "Connection: keep-alive" ++ [13; 10]%Z ++
  str "Access-Control-Allow-Origin: *" ++ [13; 10; 13; 10]%Z ++ str "retry: 2000" ++ [10; 10]%Z.

Definition is_eol (c : Z) : bool := ((c =? 10) || (c =? 13))%Z.
Definition trimmed (json : list Z) : list Z := trim_end is_eol json.
Definition frame (line : list Z) : list Z := str "data: " ++ line ++ [10; 10]%Z.

(** ** Publication *)

(** The client at index [i] is replaced by the last one. *)
Definition swap_remove (i : nat) (l : list Z) : list Z :=
  let n := pred (List.length l) in take n (<[i := nth n l 0%Z]> l).

(** The loop over the clients; [accepts fd] is the number of bytes the kernel
    takes, below the frame's length also when the send fails. *)
Fixpoint broadcast (fuel i : nat) (accepts : Z -> nat) (buf : list Z) (fds : list Z) : list Z * list sock_event :=
  match fuel with
  | O => (fds, [])
  | S fuel =>
      match fds !! i with
      | None => (fds, [])
      | Some fd =>
          if accepts fd <? List.length buf
          then let '(fds, ev) := broadcast fuel i accepts buf (swap_remove i fds) in
               (fds, Sent fd (take (accepts fd) buf) :: Closed fd :: ev)
          else let '(fds, ev) := broadcast fuel (S i) accepts buf fds in (fds, Sent fd buf :: ev)
      end
  end.

Definition web_publish_line (h : hub) (accepts : Z -> nat) (json : list Z) : hub * list sock_event :=
  match trimmed json with
  | [] => (h, [])
  | line =>
      let '(fds, ev) := broadcast (List.length (g_sse_fds h)) 0 accepts (frame line) (g_sse_fds h) in
      (mk_hub (<[g_history_head h := line]> (g_history h)) ((g_history_head h + 1) mod HISTORY_RING_SIZE)
         (if g_history_count h <? HISTORY_RING_SIZE then S (g_history_count h) else g_history_count h) fds, ev)
  end.

(** ** Connection *)

Definition history_line (h : hub) (k : nat) : list Z :=
  let start := if g_history_count h <? HISTORY_RING_SIZE then 0 else g_history_head h in
  nth ((start + k) mod HISTORY_RING_SIZE) (g_history h) [].

(** The replay of entries [k ..], [n] of them; [ok] is what each of the three
    sends of an entry returns, in order. *)
Fixpoint replay (n k : nat) (ok : nat -> nat -> bool) (fd : Z) (h : hub) : list sock_event :=
  match n with
  | O => []
  | S n =>
      match history_line h k with
      | [] => replay n (S k) ok fd h
      | line =>
          if negb (ok k 0) then []
          else Sent fd (str "data: ") ::
            if negb (ok k 1) then []
            else Sent fd line ::
              if negb (ok k 2) then [] else Sent fd [10; 10]%Z :: replay n (S k) ok fd h
      end
  end.

Definition promote_to_sse (h : hub) (ok : nat -> nat -> bool) (fd : Z) : hub * list sock_event :=
  let ev := Sent fd SSE_HEADER :: replay (g_history_count h) 0 ok fd h in
  if List.length (g_sse_fds h) <? MAX_SSE_CLIENTS
  then (mk_hub (g_history h) (g_history_head h) (g_history_count h) (g_sse_fds h ++ [fd]), ev)
  else (h, ev ++ [Closed fd]).

Definition web_shutdown (h : hub) : hub * list sock_event := (hub_init, map Closed (g_sse_fds h)).

(** ** Sequences *)

Inductive hub_op :=
| Publish (accepts : Z -> nat) (json : list Z)
| Connect (ok : nat -> nat -> bool) (fd : Z).

Definition hub_step (h : hub) (o : hub_op) : hub * list sock_event :=
  match o with
  | Publish accepts json => web_publish_line h accepts json
  | Connect ok fd => promote_to_sse h ok fd
  end.

Fixpoint hub_run (h : hub) (l : list hub_op) : hub * list sock_event :=
  match l with
  | [] => (h, [])
  | o :: t => let '(h, a) := hub_step h o in let '(h, b) := hub_run h t in (h, a ++ b)
  end.

(** accept() returns a descriptor that is not open. *)
Fixpoint fresh_fds (h : hub) (l : list hub_op) : Prop :=
  match l with
  | [] => True
  | o :: t => match o with Connect _ fd => ~ In fd (g_sse_fds h) | Publish _ _ => True end /\ fresh_fds (fst (hub_step h o)) t
  end.

(** The lines published, and the bytes sent to a descriptor. *)
Definition published (l : list hub_op) : list (list Z) :=
  flat_map (fun o => match o with Publish _ json => match trimmed json with [] => [] | line => [line] end | Connect _ _ => [] end) l.

Definition sent_to (fd : Z) (ev : list sock_event) : list Z :=
  flat_map (fun e => match e with Sent f b => if (f =? fd)%Z then b else [] | Closed _ => [] end) ev.

Definition is_connect (fd : Z) (o : hub_op) : bool := match o with Connect _ f => (f =? fd)%Z | Publish _ _ => false end.

(** ** The ring holds the last lines *)

Definition lastn {A} (n : nat) (l : list A) : list A := drop (List.length l - n) l.

Record history_rep (lines : list (list Z)) (h : hub) : Prop := {
  rr_len : List.length (g_history h) = HISTORY_RING_SIZE;
  rr_head : g_history_head h = List.length lines mod HISTORY_RING_SIZE;
  rr_count : g_history_count h = Nat.min (List.length lines) HISTORY_RING_SIZE;
  rr_slots : forall i x, lines !! i = Some x -> List.length lines - HISTORY_RING_SIZE <= i ->
    g_history h !! (i mod HISTORY_RING_SIZE) = Some x;
}.

Lemma history_size_pos : 0 < HISTORY_RING_SIZE.
Proof. unfold HISTORY_RING_SIZE. lia. Qed.

Lemma history_init : history_rep [] hub_init.
Proof. split; [apply length_replicate|done|done|done]. Qed.

Lemma mod_inj_window n i j : 0 < n -> i <= j -> j < i + n -> i mod n = j mod n -> i = j.
Proof.
  intros Hn Hij Hj E. pose proof (Nat.div_mod_eq i n). pose proof (Nat.div_mod_eq j n).
  assert (i / n = j / n); [|nia]. apply Nat.le_antisymm; [apply Nat.Div0.div_le_mono; lia|].
  destruct (Nat.le_gt_cases (j / n) (i / n)); [done|]. nia.
Qed.

Lemma history_push lines h line fds : history_rep lines h ->
  history_rep (lines ++ [line])
    (mk_hub (<[g_history_head h := line]> (g_history h)) ((g_history_head h + 1) mod HISTORY_RING_SIZE)
       (if g_history_count h <? HISTORY_RING_SIZE then S (g_history_count h) else g_history_count h) fds).
Proof.
  pose proof history_size_pos as Hp. intros [H1 H2 H3 H4]. split; cbn [g_history g_history_head g_history_count].
  - by rewrite length_insert.
  - rewrite H2, Nat.Div0.add_mod_idemp_l, length_app. done.
  - rewrite H3, length_app. cbn [List.length]. destruct (Nat.ltb_spec (Nat.min (List.length lines) HISTORY_RING_SIZE) HISTORY_RING_SIZE); lia.
  - rewrite length_app. cbn [List.length]. intros i x Hx Hi. rewrite H2.
    apply lookup_app_Some in Hx as [Hx|[Hle Hx]].
    + pose proof (lookup_lt_Some _ _ _ Hx). rewrite list_lookup_insert_ne; [apply H4; [done|lia]|].
      intros E. assert (i = List.length lines); [|lia]. apply (mod_inj_window HISTORY_RING_SIZE); lia.
    + apply list_lookup_singleton_Some in Hx as [Hx <-]. replace i with (List.length lines) by lia.
      apply list_lookup_insert_eq. rewrite H1. apply Nat.mod_upper_bound. lia.
Qed.

(** Entry [k] of the replay is entry [k] of the last lines. *)
Lemma history_line_rep lines h k : history_rep lines h -> k < g_history_count h ->
  lastn HISTORY_RING_SIZE lines !! k = Some (history_line h k).
Proof.
  pose proof history_size_pos as Hp. intros [H1 H2 H3 H4] Hk. unfold history_line, lastn. rewrite lookup_drop.
  assert (Hl : is_Some (lines !! (List.length lines - HISTORY_RING_SIZE + k))) by (apply lookup_lt_is_Some_2; lia).
  destruct Hl as [x Hx]. rewrite Hx. f_equal. pose proof (H4 _ _ Hx ltac:(lia)) as Hs. rewrite nth_lookup.
  assert (E : ((if g_history_count h <? HISTORY_RING_SIZE then 0 else g_history_head h) + k) mod HISTORY_RING_SIZE =
              (List.length lines - HISTORY_RING_SIZE + k) mod HISTORY_RING_SIZE).
  { destruct (Nat.ltb_spec (g_history_count h) HISTORY_RING_SIZE) as [Hc|Hc].
    - replace (List.length lines - HISTORY_RING_SIZE) with 0 by lia. done.
    - rewrite H2, Nat.Div0.add_mod_idemp_l.
      replace (List.length lines + k) with (List.length lines - HISTORY_RING_SIZE + k + 1 * HISTORY_RING_SIZE) by lia.
      by rewrite Nat.Div0.mod_add. }
  rewrite E, Hs. done.
Qed.

(** ** The replay *)

Lemma sent_to_app fd a b : sent_to fd (a ++ b) = sent_to fd a ++ sent_to fd b.
Proof. unfold sent_to. by rewrite flat_map_app. Qed.

Lemma sent_to_cons_same fd b ev : sent_to fd (Sent fd b :: ev) = b ++ sent_to fd ev.
Proof. unfold sent_to. cbn [flat_map]. by rewrite Z.eqb_refl. Qed.

Lemma sent_to_cons_other fd f b ev : f <> fd -> sent_to fd (Sent f b :: ev) = sent_to fd ev.
Proof. intros H. unfold sent_to. cbn [flat_map]. by rewrite (proj2 (Z.eqb_neq f fd) H). Qed.

Lemma replay_sent lines h ok fd : history_rep lines h -> (forall k j, ok k j = true) -> Forall (fun l => l <> []) lines -> forall n k,
  k + n = g_history_count h ->
  sent_to fd (replay n k ok fd h) = flat_map frame (drop k (lastn HISTORY_RING_SIZE lines)).
Proof.
  intros R Hok Hne. induction n as [|n IH]; intros k Hk.
  - cbn [replay]. rewrite drop_ge; [done|]. unfold lastn. rewrite length_drop. destruct R as [_ _ H3 _]. lia.
  - cbn [replay]. pose proof (history_line_rep lines h k R ltac:(lia)) as Hl. rewrite (drop_S _ _ _ Hl). cbn [flat_map].
    destruct (history_line h k) as [|c line] eqn:E.
    { exfalso. unfold lastn in Hl. rewrite lookup_drop in Hl. rewrite Forall_lookup in Hne. by apply (Hne _ _ Hl). }
    rewrite !Hok. cbn [negb]. rewrite !sent_to_cons_same, IH by lia. unfold frame. by rewrite <- !app_assoc.
Qed.

(** ** The broadcast *)

Lemma swap_remove_split a x b : exists b', swap_remove (List.length a) (a ++ x :: b) = a ++ b' /\ Permutation b' b.
Proof.
  unfold swap_remove. rewrite length_app. cbn [List.length]. rewrite Nat.add_succ_r. cbn [pred].
  rewrite insert_app_r_alt, Nat.sub_diag by lia. cbn [insert list_insert].
  rewrite take_app_ge by lia. replace (List.length a + List.length b - List.length a) with (List.length b) by lia.
  exists (take (List.length b) (nth (List.length a + List.length b) (a ++ x :: b) 0%Z :: b)). split; [done|].
  destruct (rev b) as [|l r] eqn:Er.
  - apply (f_equal (@rev Z)) in Er. rewrite rev_involutive in Er. by rewrite Er.
  - apply (f_equal (@rev Z)) in Er. rewrite rev_involutive in Er. cbn [rev] in Er. subst b.
    rewrite length_app. cbn [List.length]. rewrite Nat.add_1_r. cbn [take]. rewrite take_app_length.
    rewrite app_nth2 by lia. replace (List.length a + S (List.length (rev r)) - List.length a) with (S (List.length (rev r))) by lia.
    cbn [nth]. rewrite app_nth2, Nat.sub_diag by lia. cbn [nth]. apply Permutation_cons_append.
Qed.

Lemma broadcast_spec accepts buf : forall fuel a b, List.length b <= fuel -> NoDup (a ++ b) ->
  let '(fds, ev) := broadcast fuel (List.length a) accepts buf (a ++ b) in
  exists b', fds = a ++ b' /\ NoDup fds /\ (forall fd, In fd b' -> In fd b /\ List.length buf <= accepts fd) /\
    (forall fd, In fd b -> List.length buf <= accepts fd -> In fd b' /\ sent_to fd ev = buf) /\
    (forall fd, ~ In fd b -> sent_to fd ev = []).
Proof.
  induction fuel as [|fuel IH]; intros a b Hf Hnd.
  { destruct b; [|cbn in Hf; lia]. cbn [broadcast]. exists []. repeat split; done. }
  cbn [broadcast]. destruct b as [|x b].
  { rewrite app_nil_r. rewrite lookup_ge_None_2 by lia. exists []. rewrite app_nil_r in *. repeat split; done. }
  rewrite list_lookup_middle by done. cbn [List.length] in Hf. destruct (Nat.ltb_spec (accepts x) (List.length buf)) as [Hx|Hx].
  - destruct (swap_remove_split a x b) as (b0 & -> & Hp).
    assert (Hnd0 : NoDup (a ++ b0)).
    { rewrite Hp. apply NoDup_app in Hnd as (N1 & N2 & N3). apply NoDup_cons in N3 as [N3 N4].
      apply NoDup_app. split; [done|]. split; [|done]. intros y Hy Hyb. apply (N2 y Hy). by right. }
    specialize (IH a b0 ltac:(rewrite Hp; lia) Hnd0). destruct (broadcast fuel (List.length a) accepts buf (a ++ b0)) as [fds ev].
    destruct IH as (b' & -> & Hn & H1 & H2 & H3). exists b'. split; [done|]. split; [done|].
    assert (Hxb : ~ In x b). { apply NoDup_app in Hnd as (_ & _ & N). apply NoDup_cons in N as [N _]. by rewrite <- list_elem_of_In. }
    assert (Hb0 : forall fd, In fd b0 <-> In fd b) by (intros fd; rewrite <- !list_elem_of_In; by rewrite Hp).
    split; [|split].
    + intros fd Hfd. destruct (H1 fd Hfd) as [Hi Ha]. split; [|done]. right. by apply Hb0.
    + intros fd [<-|Hi] Ha; [lia|]. destruct (H2 fd ltac:(by apply Hb0) Ha) as [Hi' Hs]. split; [done|].
      rewrite sent_to_cons_other by (intros ->; done). exact Hs.
    + intros fd Hi. rewrite sent_to_cons_other by (intros ->; apply Hi; by left). apply H3. intros Hb. apply Hi. right. by apply Hb0.
  - assert (Hnd0 : NoDup ((a ++ [x]) ++ b)) by (by rewrite <- app_assoc).
    specialize (IH (a ++ [x]) b ltac:(lia) Hnd0). rewrite length_app in IH. cbn [List.length] in IH. rewrite Nat.add_1_r in IH.
    rewrite <- app_assoc in IH. cbn [app] in IH. destruct (broadcast fuel (S (List.length a)) accepts buf (a ++ x :: b)) as [fds ev].
    destruct IH as (b' & E & Hn & H1 & H2 & H3). exists (x :: b'). split; [by rewrite E, <- app_assoc|]. split; [done|].
    assert (Hxb : ~ In x b). { apply NoDup_app in Hnd as (_ & _ & N). apply NoDup_cons in N as [N _]. by rewrite <- list_elem_of_In. }
    split; [|split].
    + intros fd [<-|Hi]; [split; [by left|done]|]. destruct (H1 fd Hi). split; [by right|done].
    + intros fd [<-|Hi] Ha; [split; [by left|]; rewrite sent_to_cons_same, H3 by done; apply app_nil_r|].
      destruct (H2 fd Hi Ha). split; [by right|]. rewrite sent_to_cons_other by (intros ->; done). done.
    + intros fd Hi. rewrite sent_to_cons_other by (intros ->; apply Hi; by left). apply H3. intros Hb. apply Hi. by right.
Qed.

(** ** Runs *)

Lemma replay_other n ok fd fd' h : fd' <> fd -> forall k, sent_to fd (replay n k ok fd' h) = [].
Proof.
  intros Hne. induction n as [|n IH]; intros k; cbn [replay]; [done|]. destruct (history_line h k); [apply IH|].
  destruct (ok k 0); [|done]. cbn [negb]. rewrite sent_to_cons_other by done. destruct (ok k 1); [|done]. cbn [negb].
  rewrite sent_to_cons_other by done. destruct (ok k 2); [|done]. cbn [negb]. rewrite sent_to_cons_other by done. apply IH.
Qed.

Lemma published_app a b : published (a ++ b) = published a ++ published b.
Proof. unfold published. by rewrite flat_map_app. Qed.

Lemma published_ne l : Forall (fun x => x <> []) (published l).
Proof.
  induction l as [|o l IH]; [apply Forall_nil_2|]. change (o :: l) with ([o] ++ l); rewrite published_app.
  apply Forall_app. split; [|exact IH]. destruct o as [accepts json|]; [|apply Forall_nil_2]. cbn. destruct (trimmed json); [apply Forall_nil_2|].
  apply Forall_cons_2; [done|apply Forall_nil_2].
Qed.

Record hub_ok (lines : list (list Z)) (h : hub) : Prop := {
  ho_ring : history_rep lines h;
  ho_nodup : NoDup (g_sse_fds h);
  ho_bound : List.length (g_sse_fds h) <= MAX_SSE_CLIENTS;
}.

(** A publication: the ring, the clients, and what a client is sent. *)
Lemma publish_spec lines h accepts json : hub_ok lines h ->
  let '(h', ev) := web_publish_line h accepts json in
  hub_ok (lines ++ published [Publish accepts json]) h' /\
  (forall fd, In fd (g_sse_fds h') -> In fd (g_sse_fds h) /\ sent_to fd ev = flat_map frame (published [Publish accepts json])).
Proof.
  intros [R Hnd Hb]. unfold web_publish_line, published. cbn [flat_map app]. destruct (trimmed json) as [|c line].
  { rewrite app_nil_r. split; [done|]. done. }
  pose proof (broadcast_spec accepts (frame (c :: line)) (List.length (g_sse_fds h)) [] (g_sse_fds h) (Nat.le_refl _) Hnd) as Hs.
  cbn [List.length app] in Hs. destruct (broadcast _ 0 accepts _ (g_sse_fds h)) as [fds ev].
  destruct Hs as (b' & -> & Hn & H1 & H2 & _). split.
  - split; [by apply history_push|exact Hn|]. cbn [g_sse_fds]. etransitivity; [|exact Hb]. apply NoDup_incl_length; [by apply NoDup_ListNoDup|].
    intros fd Hfd. by apply H1.
  - cbn [g_sse_fds]. intros fd Hfd. destruct (H1 fd Hfd) as [Hi Ha]. split; [done|]. destruct (H2 fd Hi Ha) as [_ ->].
    cbn [flat_map]. symmetry. apply app_nil_r.
Qed.

Lemma connect_spec lines h ok fd : hub_ok lines h -> ~ In fd (g_sse_fds h) ->
  let '(h', ev) := promote_to_sse h ok fd in
  hub_ok lines h' /\ (forall f, f <> fd -> (In f (g_sse_fds h') <-> In f (g_sse_fds h)) /\ sent_to f ev = []).
Proof.
  intros [R Hnd Hb] Hf. unfold promote_to_sse. destruct (Nat.ltb_spec (List.length (g_sse_fds h)) MAX_SSE_CLIENTS) as [Hl|Hl].
  - split; [split; cbn [g_sse_fds]|].
    + by destruct R.
    + apply NoDup_app. split; [done|]. split; [|apply NoDup_singleton]. intros x Hx Hx'. apply list_elem_of_singleton in Hx' as ->.
      apply Hf. by apply list_elem_of_In.
    + rewrite length_app. cbn [List.length]. lia.
    + intros f Hne. cbn [g_sse_fds]. rewrite in_app_iff. cbn [In]. split; [split; [intros [?|[?|?]]; [done|congruence|done]|by left]|].
      rewrite sent_to_cons_other by done. by apply replay_other.
  - split; [done|]. intros f Hne. split; [done|]. rewrite sent_to_app. rewrite sent_to_cons_other by done. by rewrite replay_other.
Qed.

Lemma hub_run_ok l : forall lines h, hub_ok lines h -> fresh_fds h l -> hub_ok (lines ++ published l) (fst (hub_run h l)).
Proof.
  induction l as [|o l IH]; intros lines h Hok Hf; [by rewrite app_nil_r|]. destruct Hf as [Hf1 Hf2]. cbn [hub_run].
  assert (Epub : published (o :: l) = published [o] ++ published l) by (change (o :: l) with ([o] ++ l); apply published_app).
  rewrite Epub, app_assoc.
  assert (Hs : hub_ok (lines ++ published [o]) (fst (hub_step h o))).
  { destruct o as [accepts json|ok fd]; cbn [hub_step].
    - pose proof (publish_spec lines h accepts json Hok) as H. destruct (web_publish_line h accepts json). apply H.
    - pose proof (connect_spec lines h ok fd Hok Hf1) as H. destruct (promote_to_sse h ok fd). cbn [published flat_map]. rewrite app_nil_r. apply H. }
  destruct (hub_step h o) as [h1 a]. cbn [fst] in *. specialize (IH _ h1 Hs Hf2). by destruct (hub_run h1 l).
Qed.

(** A client that is still there has been sent every line since, whole. *)
Lemma hub_run_live l : forall lines h fd, hub_ok lines h -> fresh_fds h l -> Forall (fun o => is_connect fd o = false) l ->
  In fd (g_sse_fds (fst (hub_run h l))) ->
  In fd (g_sse_fds h) /\ sent_to fd (snd (hub_run h l)) = flat_map frame (published l).
Proof.
  induction l as [|o l IH]; intros lines h fd Hok Hf Hc Hin; [done|]. destruct Hf as [Hf1 Hf2]. apply Forall_cons in Hc as [Hc1 Hc2].
  pose proof (hub_run_ok [o] lines h Hok (conj Hf1 I)) as Hok1. cbn [hub_run] in *. cbn [fst] in Hok1.
  destruct (hub_step h o) as [h1 a] eqn:Es. cbn [fst] in *.
  destruct (hub_run h1 l) as [h2 b] eqn:Er. cbn [fst snd] in *.
  destruct (IH _ h1 fd Hok1 Hf2 Hc2) as [Hin1 Hs1]; [by rewrite Er|]. rewrite Er in Hs1. cbn [snd] in Hs1.
  change (o :: l) with ([o] ++ l). rewrite published_app, sent_to_app, flat_map_app, Hs1.
  destruct o as [accepts json|ok fd']; cbn [hub_step] in Es.
  - pose proof (publish_spec lines h accepts json Hok) as H. rewrite Es in H. destruct H as [_ H]. destruct (H fd Hin1) as [Hi Hs]. by rewrite Hs.
  - cbn [is_connect] in Hc1. apply Z.eqb_neq in Hc1. pose proof (connect_spec lines h ok fd' Hok Hf1) as H. rewrite Es in H.
    destruct H as [_ H]. destruct (H fd ltac:(congruence)) as [Hi Hs]. rewrite Hs. split; [by apply Hi|done].
Qed.

(** C19: a dashboard client sees the recent history and then everything, in
    whole frames.  However many lines were published and clients came and
    went before, a client that connects while a place is free is sent the
    stream header, then the last 1024 lines published, oldest first, and from
    then on every line published, each as one complete event; nothing is
    missing or repeated between the replay and the live lines, for as long as
    it is connected.  There are never more than eight clients, none twice. *)
Theorem sse_stream pre ok fd post :
  let '(h, _) := hub_run hub_init pre in
  let '(h', ev) := hub_run h (Connect ok fd :: post) in
  fresh_fds hub_init pre -> fresh_fds h (Connect ok fd :: post) -> (forall k j, ok k j = true) ->
  List.length (g_sse_fds h) < MAX_SSE_CLIENTS -> Forall (fun o => is_connect fd o = false) post ->
  NoDup (g_sse_fds h') /\ List.length (g_sse_fds h') <= MAX_SSE_CLIENTS /\
  (In fd (g_sse_fds h') ->
   sent_to fd ev = SSE_HEADER ++ flat_map frame (lastn HISTORY_RING_SIZE (published pre) ++ published post)).
Proof.
  destruct (hub_run hub_init pre) as [h e0] eqn:Ep. destruct (hub_run h (Connect ok fd :: post)) as [h' ev] eqn:Eq.
  intros Hf1 Hf2 Hok Hl Hc.
  assert (Hinit : hub_ok [] hub_init) by (split; [apply history_init|apply NoDup_nil_2|cbn; lia]).
  pose proof (hub_run_ok pre [] hub_init Hinit Hf1) as H0. rewrite Ep in H0. cbn [fst app] in H0.
  pose proof (hub_run_ok _ _ h H0 Hf2) as H1. rewrite Eq in H1. cbn [fst] in H1. split; [apply H1|]. split; [apply H1|]. intros Hin.
  destruct Hf2 as [Hnew Hf2]. cbn [hub_run hub_step] in Eq, Hf2. cbn [fst] in Hf2.
  pose proof (connect_spec _ h ok fd H0 Hnew) as Hcs. unfold promote_to_sse in *. destruct (Nat.ltb_spec (List.length (g_sse_fds h)) MAX_SSE_CLIENTS); [|lia].
  cbn [fst] in Hf2. destruct Hcs as [Hok1 _]. set (h1 := mk_hub _ _ _ _) in *.
  pose proof (hub_run_live post _ h1 fd Hok1 Hf2 Hc) as Hlive. destruct (hub_run h1 post) as [h2 b]. injection Eq as <- <-. cbn [fst snd] in Hlive.
  destruct (Hlive Hin) as [_ Hs]. change (?x :: ?y ++ b) with ((x :: y) ++ b). rewrite sent_to_app, sent_to_cons_same, Hs, flat_map_app.
  rewrite (replay_sent (published pre)); [by rewrite drop_0, <- app_assoc|apply H0|done|apply published_ne|done].
Qed.

(** One line before the connection, one after it, and a second client whose
    send comes up short and is dropped. *)
Definition sse_pre : list hub_op := [Publish (fun _ => 999) (str "{1}" ++ [10]%Z); Connect (fun _ _ => true) 4%Z].
Definition sse_post : list hub_op := [Publish (fun fd => if (fd =? 4)%Z then 3 else 999) (str "{2}")].

Lemma sse_stream_witness :
  let h := fst (hub_run hub_init sse_pre) in
  let r := hub_run h (Connect (fun _ _ => true) 5%Z :: sse_post) in
  g_sse_fds (fst r) = [5%Z] /\ sent_to 5%Z (snd r) = SSE_HEADER ++ frame (str "{1}") ++ frame (str "{2}").
Proof.
  cbn zeta. split; [vm_compute; reflexivity|].
  pose proof (sse_stream sse_pre (fun _ _ => true) 5%Z sse_post) as H.
  destruct (hub_run hub_init sse_pre) as [h e0] eqn:E0. destruct (hub_run h (Connect (fun _ _ => true) 5%Z :: sse_post)) as [h' ev] eqn:E1.
  cbn [fst snd] in *. rewrite E1. cbn [snd].
  assert (Eh : h = fst (hub_run hub_init sse_pre)) by (rewrite E0; reflexivity).
  assert (Eh' : h' = fst (hub_run h (Connect (fun _ _ => true) 5%Z :: sse_post))) by (rewrite E1; reflexivity).
  refine (proj2 (proj2 (H _ _ _ _ _)) _).
  - repeat split; (vm_compute; intros Hn; decompose [or] Hn; discriminate || contradiction) || exact I.
  - rewrite Eh. split; [vm_compute; intros Hn; decompose [or] Hn; discriminate || contradiction|]. repeat split.
  - reflexivity.
  - rewrite Eh. vm_compute. lia.
  - repeat apply Forall_cons_2; [reflexivity|apply Forall_nil_2].
  - rewrite Eh', Eh. vm_compute. auto.
Defined.
