(* ===== verification/ExtraFreq.v ===== *)
(** The two parsers of an extra frequency, HZ:bw=BW:sf=SF:cr=CR: that of the
    command line (parse_extra_freq, src/options.c) and that of the remote
    control (c2_extra_freq, src/c2.c), and where they agree. *)

From Stdlib Require Import String.
From S2P Require Import Prelude CString.

Local Open Scope string_scope.
Local Open Scope list_scope.
Local Open Scope Z_scope.

(** freq_hz, bw_hz, sf and cr. *)
Record extra_spec := mk_spec { es_freq_hz : Z; es_bw_hz : Z; es_sf : Z; es_cr : Z }.

Definition spec_default : extra_spec := mk_spec 0 250000 11 5.

Definition is_colon (c : Z) : bool := c =? 58.

(** ** The command line *)

Definition cli_param (e : extra_spec) (tok : list Z) : extra_spec :=
  match strchr 61 tok with
  | None => e
  | Some (key, value) =>
      let v := atoi_c value in
      if strcasecmp_eq key (str "bw") then e {{ es_bw_hz := v }}
      else if strcasecmp_eq key (str "sf") then e {{ es_sf := v }}
      else if strcasecmp_eq key (str "cr") then e {{ es_cr := v }}
      else e
  end.

(** [None]: refused; the caller counts at most EXTRA_FREQ_MAX of them. *)
Definition EXTRA_FREQ_MAX : nat := 32.

Definition parse_extra_freq (count : nat) (spec : list Z) : option extra_spec :=
  if (EXTRA_FREQ_MAX <=? count)%nat then None
  else
    let e := match strtok_all is_colon spec with
             | [] => spec_default
             | first :: rest => fold_left cli_param rest (spec_default {{ es_freq_hz := strtoull10 first }})
             end in
    if es_freq_hz e =? 0 then None else Some e.

(** ** The remote control *)

Definition strncmp_eq (n : nat) (s lit : list Z) : bool := list_eqb (take n s) lit.

Definition c2_param (e : extra_spec) (p : list Z) : extra_spec :=
  if strncmp_eq 3 p (str "bw=") then e {{ es_bw_hz := atoi_c (drop 3 p) }}
  else if strncmp_eq 3 p (str "sf=") then e {{ es_sf := atoi_c (drop 3 p) }}
  else if strncmp_eq 3 p (str "cr=") then e {{ es_cr := atoi_c (drop 3 p) }}
  else e.

(** The loop: [p] runs over what follows each colon. *)
Fixpoint c2_params (p : list Z) (e : extra_spec) : extra_spec :=
  match p with
  | [] => e
  | c :: t => if c =? 58 then c2_params t (c2_param e t) else c2_params t e
  end.

Definition c2_parse_extra (body : list Z) : extra_spec := c2_params body (spec_default {{ es_freq_hz := strtoull10 body }}).

(** ** Where they agree *)

Inductive extra_key := KBw | KSf | KCr.
Definition key_text (k : extra_key) : list Z := match k with KBw => str "bw" | KSf => str "sf" | KCr => str "cr" end.

Definition set_key (e : extra_spec) (p : extra_key * Z) : extra_spec :=
  match fst p with KBw => e {{ es_bw_hz := snd p }} | KSf => e {{ es_sf := snd p }} | KCr => e {{ es_cr := snd p }} end.

Definition param_text (p : extra_key * Z) : list Z := key_text (fst p) ++ 61 :: fmt_d (snd p).
Definition spec_text (f : Z) (ps : list (extra_key * Z)) : list Z := dec_of_Z f ++ flat_map (fun p => 58 :: param_text p) ps.

Lemma digits_not c ds : is_digit c = false -> forallb is_digit ds = true -> ~ In c ds.
Proof. intros Hc Hd Hi. rewrite forallb_forall in Hd. specialize (Hd c Hi). congruence. Qed.

Lemma fmt_d_chars z c : c <> 45 -> is_digit c = false -> ~ In c (fmt_d z).
Proof.
  intros Hne Hc. unfold fmt_d. destruct (Z.ltb_spec z 0) as [Hz|Hz].
  - destruct (dec_value (- z) ltac:(lia)) as (d & ds & -> & Hd & _). intros [E|Hi]; [congruence|]. by apply (digits_not c (d :: ds)).
  - destruct (dec_value z Hz) as (d & ds & -> & Hd & _). by apply digits_not.
Qed.

Lemma param_chars p : ~ In 58 (param_text p).
Proof.
  unfold param_text. rewrite in_app_iff. intros [H|[H|H]]; [|done|by apply (fmt_d_chars (snd p) 58)].
  destruct (fst p); cbn in H; decompose [or] H; done.
Qed.

Lemma rest_no_digit ps : no_digit (flat_map (fun p => 58 :: param_text p) ps).
Proof. by destruct ps. Qed.

Lemma tokens_app s rest cur : ~ In 58 s -> tokens_from is_colon cur (s ++ rest) = tokens_from is_colon (cur ++ s) rest.
Proof.
  revert cur. induction s as [|c s IH]; intros cur Hs; [by rewrite app_nil_r|]. cbn [app tokens_from]. unfold is_colon at 1.
  destruct (Z.eqb_spec c 58) as [->|]; [destruct Hs; by left|]. rewrite IH by (intros H; apply Hs; by right). by rewrite <- app_assoc.
Qed.

Lemma tokens_params ps : forall cur, cur <> [] ->
  tokens_from is_colon cur (flat_map (fun p => 58 :: param_text p) ps) = cur :: map param_text ps.
Proof.
  induction ps as [|p ps IH]; intros cur Hc; cbn [flat_map]; [by destruct cur|]. cbn [app tokens_from]. change (is_colon 58) with true. cbn iota.
  destruct cur as [|x cur]; [done|]. f_equal. rewrite tokens_app by apply param_chars. cbn [app]. rewrite IH; [done|].
  unfold param_text. by destruct (fst p).
Qed.

Lemma cli_param_text e p : - 2 ^ 31 <= snd p < 2 ^ 31 -> cli_param e (param_text p) = set_key e p.
Proof.
  intros Hv. unfold cli_param, param_text. pose proof (atoi_fmt_d (snd p) [] Hv I) as Ha. rewrite app_nil_r in Ha.
  assert (Es : strchr 61 (key_text (fst p) ++ 61 :: fmt_d (snd p)) = Some (key_text (fst p), fmt_d (snd p))) by (by destruct (fst p)).
  rewrite Es, Ha. unfold set_key. by destruct (fst p).
Qed.

Lemma c2_params_skip s rest e : ~ In 58 s -> c2_params (s ++ rest) e = c2_params rest e.
Proof.
  induction s as [|c s IH]; intros Hs; [done|]. cbn [app c2_params]. destruct (Z.eqb_spec c 58) as [->|]; [destruct Hs; by left|].
  apply IH. intros H. apply Hs. by right.
Qed.

Lemma c2_param_text e p rest : - 2 ^ 31 <= snd p < 2 ^ 31 -> no_digit rest -> c2_param e (param_text p ++ rest) = set_key e p.
Proof.
  intros Hv Hr. unfold c2_param, param_text. pose proof (atoi_fmt_d (snd p) rest Hv Hr) as Ha.
  rewrite <- app_assoc. cbn [app]. set (v := fmt_d (snd p) ++ rest) in *. unfold set_key. destruct (fst p).
  - change (drop 3 (key_text KBw ++ 61 :: v)) with v. by rewrite Ha.
  - change (drop 3 (key_text KSf ++ 61 :: v)) with v. by rewrite Ha.
  - change (drop 3 (key_text KCr ++ 61 :: v)) with v. by rewrite Ha.
Qed.

Lemma c2_params_text ps : Forall (fun p => - 2 ^ 31 <= snd p < 2 ^ 31) ps -> forall e,
  c2_params (flat_map (fun p => 58 :: param_text p) ps) e = fold_left set_key ps e.
Proof.
  induction 1 as [|p ps Hp _ IH]; intros e; [done|]. cbn [flat_map fold_left app c2_params]. rewrite Z.eqb_refl.
  rewrite c2_param_text by (done || apply rest_no_digit). rewrite c2_params_skip by apply param_chars. apply IH.
Qed.

(** The command line and the remote control read extra frequencies alike.
    For every frequency and every sequence of bw=, sf= and cr= parameters in
    decimal, both parsers give the frequency and, for each parameter, the
    last value written or the LongFast default. *)
Theorem extra_freq_parsers_agree f ps count : 0 < f < 2 ^ 64 -> Forall (fun p => - 2 ^ 31 <= snd p < 2 ^ 31) ps ->
  (count < EXTRA_FREQ_MAX)%nat ->
  let e := fold_left set_key ps (spec_default {{ es_freq_hz := f }}) in
  parse_extra_freq count (spec_text f ps) = Some e /\ c2_parse_extra (spec_text f ps) = e.
Proof.
  intros Hf Hps Hc e. unfold spec_text. destruct (dec_value f ltac:(lia)) as (d & ds & E & Hd & _).
  assert (Hcol : ~ In 58 (dec_of_Z f)) by (rewrite E; by apply digits_not).
  split.
  - unfold parse_extra_freq, strtok_all. destruct (Nat.leb_spec EXTRA_FREQ_MAX count); [lia|].
    rewrite tokens_app by done. cbn [app]. rewrite tokens_params by (by rewrite E).
    pose proof (strtoull_dec f [] ltac:(lia) I) as Hs. rewrite app_nil_r in Hs. rewrite Hs.
    assert (Eq : fold_left cli_param (map param_text ps) (spec_default {{ es_freq_hz := f }}) = e).
    { unfold e. generalize (spec_default {{ es_freq_hz := f }}). clear - Hps. induction Hps as [|p ps Hp _ IH]; intros e; [done|].
      cbn [map fold_left]. by rewrite cli_param_text, IH. }
    rewrite Eq. assert (Ef : es_freq_hz e = f).
    { unfold e. clear. assert (G : forall e0, es_freq_hz (fold_left set_key ps e0) = es_freq_hz e0); [|by rewrite G].
      induction ps as [|p ps IH]; intros e0; [done|]. cbn [fold_left]. rewrite IH. unfold set_key. by destruct (fst p). }
    rewrite Ef. destruct (Z.eqb_spec f 0); [lia|done].
  - unfold c2_parse_extra. rewrite strtoull_dec by (lia || apply rest_no_digit). rewrite c2_params_skip by done. by apply c2_params_text.
Qed.

Lemma extra_freq_parsers_agree_witness :
  parse_extra_freq 0 (str "869400000:sf=7:bw=125000") = Some (mk_spec 869400000 125000 7 5) /\
  c2_parse_extra (str "869400000:sf=7:bw=125000") = mk_spec 869400000 125000 7 5.
Proof.
  exact (extra_freq_parsers_agree 869400000 [(KSf, 7); (KBw, 125000)] 0 ltac:(lia)
    ltac:(repeat apply Forall_cons_2; try apply Forall_nil_2; cbn [snd]; lia) ltac:(unfold EXTRA_FREQ_MAX; lia)).
Defined.

(** A key in upper case counts on the command line only. *)
Theorem upper_case_key_differs :
  parse_extra_freq 0 (str "869400000:BW=125000") = Some (mk_spec 869400000 125000 11 5) /\
  c2_parse_extra (str "869400000:BW=125000") = mk_spec 869400000 250000 11 5.
Proof. split; vm_compute; reflexivity. Qed.
