(* ===== verification/C2.v ===== *)
(** Command and control (src/c2.c): the handlers of the remote commands on
    the key store, the MeshCore channels, the channel set and the CoT
    endpoint (cot_set_endpoint of src/cot.c), and their JSON replies.

    Name resolution is a parameter; opening the UDP socket succeeds.  The
    sinks a handler writes to are values of an effect type. *)

From Stdlib Require Import String.
From stdpp Require Import gmap.
From S2P Require Import Prelude CString CFloat Json Keyset MeshCore Pfb Channelizer ChannelSet ShareUrl ExtraFreq Meshtastic MeshCoreRegion MeshCoreFacts LoraDecoder ChannelSetFacts.

Local Open Scope string_scope.
Local Open Scope list_scope.
Local Open Scope Z_scope.

Definition RESPONSE_CAP : nat := 256.

Record c2_response := mk_response { rs_status : Z; rs_body : list Z }.

Definition respond (status : Z) (text : list Z) : c2_response := mk_response status (take (RESPONSE_CAP - 1) text).

(** A quoted JSON key and string, as the format strings have them. *)
Definition q (s : list Z) : list Z := 34 :: s ++ [34].
Definition error_body (msg : list Z) : list Z := str "{" ++ q (str "error") ++ str ":" ++ q msg ++ str "}".
Definition count_body (key : list Z) (n : Z) : list Z := str "{" ++ q key ++ str ":" ++ fmt_d n ++ str "}".

Inductive c2_effect :=
| OutLine (line : list Z)                     (* web_publish_line *)
| OutWebhook (event line summary : list Z)    (* webhook_publish *)
| OutRedecrypt (hash : Z).                    (* meshcore_redecrypt_channel *)

Section C2.
Context {C F : Type} `{ops : PfbOps C F} (rotation : spec_float -> spec_float -> C).
Context (sha256 : list Z -> option (list Z)) (evp_decode_block : list Z -> option (list Z)).
Context (resolve_host_ipv4 : list Z -> option Z) (o : options).

Record system := mk_system {
  sy_keys : option keyset;                   (* app_get_keyset() *)
  sy_channels : option channelset;           (* app_get_meshcore_channels() *)
  sy_app : option (app (C := C) (F := F));   (* the channel set, once the channelizer runs *)
  sy_cot : option (Z * Z);                   (* g_dst when g_active *)
}.

Definition result := (c2_response * system * list c2_effect)%type.

Definition c2_keys_add (body : option (list Z)) (s : system) : result :=
  match body, sy_keys s with
  | Some body, Some ks =>
      let '(added, ks) := keyset_parse_csv ks body in
      (respond 200 (count_body (str "added") added), s {{ sy_keys := Some ks }}, [])
  | _, _ => (respond 400 (error_body (str "no body or no keyset")), s, [])
  end.

Definition c2_share_url (body : option (list Z)) (s : system) : result :=
  match body, sy_keys s with
  | Some body, Some ks =>
      match decode_channel_share ks body with
      | (None, ks) => (respond 400 (error_body (str "could not parse share URL")), s {{ sy_keys := Some ks }}, [])
      | (Some added, ks) => (respond 200 (count_body (str "added") added), s {{ sy_keys := Some ks }}, [])
      end
  | _, _ => (respond 400 (error_body (str "no body or no keyset")), s, [])
  end.

Definition c2_extra_freq (body : option (list Z)) (s : system) : result :=
  match body with
  | None => (respond 400 (error_body (str "no body")), s, [])
  | Some body =>
      let e := c2_parse_extra body in
      let '(id, s) :=
        if negb (es_freq_hz e =? 0) && negb (es_bw_hz e =? 0) then
          match sy_app s with
          | None => (None, s)
          | Some a => let '(id, a) := app_add_runtime_extra_freq rotation o a (es_freq_hz e) (es_bw_hz e) (es_sf e) (es_cr e) in
                      (id, s {{ sy_app := Some a }})
          end
        else (None, s) in
      match id with
      | None => (respond 400 (error_body (str "add failed")), s, [])
      | Some id => (respond 200 (count_body (str "channel_id") (Z.of_nat id)), s, [])
      end
  end.

(** [false] for -1; a NULL host is empty. *)
Definition cot_set_endpoint (host : list Z) (port : Z) : bool * option (Z * Z) :=
  match host with
  | [] => (true, None)
  | _ => if port <=? 0 then (true, None)
         else match resolve_host_ipv4 host with
              | None => (false, None)
              | Some addr => (true, Some (addr, u16 port))
              end
  end.

Definition c2_cot_multicast (body : option (list Z)) (s : system) : result :=
  match body with
  | None => (respond 400 (error_body (str "no body")), s, [])
  | Some body =>
      match strchr 58 body with
      | None => (respond 200 (str "{" ++ q (str "enabled") ++ str ":false}"), s {{ sy_cot := snd (cot_set_endpoint [] 0) }}, [])
      | Some (pre, post) =>
          let host := take 63 pre in
          let port := atoi_c post in
          let '(ok, cot) := cot_set_endpoint host port in
          let s := s {{ sy_cot := cot }} in
          if ok : bool
          then (respond 200 (str "{" ++ q (str "enabled") ++ str ":true," ++ q (str "host") ++ str ":" ++ q host ++
                             str "," ++ q (str "port") ++ str ":" ++ fmt_d port ++ str "}"), s, [])
          else (respond 400 (error_body (str "could not bind multicast")), s, [])
      end
  end.

Definition hex2 (n : Z) : list Z := [Json.hex_char (n / 16); Json.hex_char (n mod 16)].

Definition emit_channel_added (hash : Z) (name : list Z) : list c2_effect :=
  let line := str "{" ++ q (str "event") ++ str ":" ++ q (str "MC_CHANNEL_ADDED") ++ str "," ++ q (str "channel_hash") ++ str ":" ++
              fmt_d hash ++ str "," ++ q (str "channel_name") ++ str ":" ++ q name ++ str "}" ++ [10] in
  let sum := take 159 (str "MeshCore channel added via dashboard: " ++ q name ++ str " (channel_hash 0x" ++ hex2 hash ++ str ")") in
  [OutLine line; OutWebhook (str "MC_CHANNEL_ADDED") line sum].

(** One case variant of a hashtag name; the first is announced. *)
Definition add_name_variant (st : channelset * bool * list c2_effect) (v : nat * list Z) : channelset * bool * list c2_effect :=
  let '(cs, any, eff) := st in
  match meshcore_channelset_add_hashtag sha256 evp_decode_block cs (snd v) with
  | None => st
  | Some (cs, e) => (cs, true, eff ++ (if (fst v =? 0)%nat then emit_channel_added (ch_hash e) (ch_name e) else []) ++ [OutRedecrypt (ch_hash e)])
  end.

Definition add_token (st : channelset * Z * list c2_effect) (tok : list Z) : channelset * Z * list c2_effect :=
  let '(cs, added, eff) := st in
  let tok := skip_while is_blank tok in
  match tok with
  | [] => st
  | _ =>
      match strchr 58 tok with
      | Some _ =>
          match meshcore_channelset_add_spec sha256 evp_decode_block cs tok with
          | None => st
          | Some (cs, e) => (cs, added + 1, eff ++ emit_channel_added (ch_hash e) (ch_name e) ++ [OutRedecrypt (ch_hash e)])
          end
      | None =>
          let '(cs, any, eff) := fold_left add_name_variant (imap pair (meshcore_name_case_variants tok)) (cs, false, eff) in
          (cs, if any : bool then added + 1 else added, eff)
      end
  end.

Definition c2_meshcore_channel_add (body : option (list Z)) (s : system) : result :=
  match body, sy_channels s with
  | Some body, Some cs =>
      let '(cs, added, eff) := fold_left add_token (strtok_all is_list_sep (take 1023 body)) (cs, 0, []) in
      (respond 200 (count_body (str "added") added), s {{ sy_channels := Some cs }}, eff)
  | _, _ => (respond 400 (error_body (str "no body or no meshcore channel set")), s, [])
  end.

Definition c2_dispatch (cmd body : option (list Z)) (s : system) : result :=
  match cmd with
  | None => (respond 400 (error_body (str "no cmd")), s, [])
  | Some cmd =>
      if strcmp_eq cmd (str "keys_add") then c2_keys_add body s
      else if strcmp_eq cmd (str "share_url") then c2_share_url body s
      else if strcmp_eq cmd (str "extra_freq") then c2_extra_freq body s
      else if strcmp_eq cmd (str "cot_multicast") then c2_cot_multicast body s
      else if strcmp_eq cmd (str "meshcore_channel_add") then c2_meshcore_channel_add body s
      else (respond 404 (error_body (str "unknown cmd")), s, [])
  end.
End C2.

(** Remote commands keep the receiver's state well formed. *)

(** ** Texts are made of characters *)

Lemma cstr_app a b : is_cstr (a ++ b) <-> is_cstr a /\ is_cstr b.
Proof. apply Forall_app. Qed.

Lemma skip_while_cstr p s : is_cstr s -> is_cstr (skip_while p s).
Proof. intros H. destruct (skip_while_suffix p s) as [t E]. rewrite E in H. by apply cstr_app in H as [_ H]. Qed.

Lemma trim_end_cstr p s : is_cstr s -> is_cstr (trim_end p s).
Proof. intros H. unfold trim_end, is_cstr. by apply Forall_rev_list, skip_while_cstr, Forall_rev_list. Qed.

Lemma strchr_cstr c s a b : is_cstr s -> strchr c s = Some (a, b) -> is_cstr a /\ is_cstr b.
Proof.
  revert a b. induction s as [|x s IH]; intros a b Hs; cbn [strchr]; [done|]. apply Forall_cons in Hs as [Hx Hs].
  destruct (x =? c); [intros [= <- <-]; split; [apply Forall_nil_2|done]|].
  destruct (strchr c s) as [[a' b']|]; [|done]. intros [= <- <-]. destruct (IH a' b' Hs eq_refl). split; [by apply Forall_cons_2|done].
Qed.

Lemma tokens_cstr d s : forall cur, is_cstr cur -> is_cstr s -> Forall is_cstr (tokens_from d cur s).
Proof.
  induction s as [|c s IH]; intros cur Hc Hs; cbn [tokens_from].
  - destruct cur; [apply Forall_nil_2|]. apply Forall_cons_2; [done|apply Forall_nil_2].
  - apply Forall_cons in Hs as [Hx Hs]. destruct (d c).
    + assert (H0 : is_cstr []) by apply Forall_nil_2. destruct cur; [by apply IH|]. apply Forall_cons_2; [done|]. by apply IH.
    + apply IH; [|done]. apply cstr_app. split; [done|]. by apply Forall_cons_2.
Qed.

(** ** The key store *)

Lemma keyset_add_rep k name psk : ks_rep k -> is_cstr name -> bytes_ok psk -> ks_rep (snd (keyset_add k name psk)).
Proof.
  intros Hk Hn Hp. unfold keyset_add. destruct (negb _); [done|]. destruct (_ <? _)%nat; [done|]. fold (stored_name name).
  pose proof (keyset_insert_spec k (mk_entry (stored_name name) psk
    (Z.lxor (xor_hash_bytes (stored_name name)) (xor_hash_bytes psk))) Hk (add_hash_range _ _ (stored_name_cstr _ Hn) Hp)) as H.
  destruct (keyset_insert _ _) as [ok k']. by destruct H as (_ & H & _).
Qed.

Lemma b64_loop_bytes max s : forall acc bits out l, bytes_ok out -> b64_loop max acc bits out s = Some l -> bytes_ok l.
Proof.
  induction s as [|c s IH]; intros acc bits out l Ho; cbn [b64_loop]; [by intros [= <-]|]. destruct (b64_value c); [|done].
  destruct (8 <=? _); [|by apply IH]. destruct (_ <=? _)%nat; [done|]. apply IH. apply Forall_app. split; [done|].
  apply Forall_cons_2; [apply wrap_range; lia|apply Forall_nil_2].
Qed.

Lemma default_psk_bytes b : is_byte b -> bytes_ok (<[15%nat := b]> MESH_DEFAULT_PSK).
Proof. intros Hb. apply Forall_insert; [bytes_tac|done]. Qed.

Lemma spec_psk_bytes value psk : spec_psk value = Some psk -> bytes_ok psk.
Proof.
  assert (Hs : forall n, bytes_ok (make_simple_psk n)) by (intros n; apply default_psk_bytes, wrap_range; lia).
  assert (Hn : forall r l, (forall l, r = Some l -> bytes_ok l) -> match r with Some (b :: t) => Some (b :: t) | _ => None end = Some l -> bytes_ok l).
  { intros [[|b t]|] l Hr E; [done| |done]. injection E as <-. by apply Hr. }
  assert (Hh : forall s l, hex_decode s 32 = Some l -> bytes_ok l).
  { intros s l. unfold hex_decode. destruct (negb _); [done|]. destruct (_ <? _)%nat; [done|]. by apply (hex_pairs_bytes (length s)). }
  assert (Hb : forall s l, b64_decode s 32 = Some l -> bytes_ok l).
  { intros s l. unfold b64_decode. apply b64_loop_bytes, Forall_nil_2. }
  unfold spec_psk. cbn zeta. destruct (strcasecmp_eq value (str "default")); [intros [= <-]; apply Hs|].
  destruct (_ || _); [intros [= <-]; apply Forall_nil_2|].
  destruct (_ && _). { destruct (_ || _); [done|]. destruct (_ =? 0); [intros [= <-]; apply Forall_nil_2|intros [= <-]; apply Hs]. }
  destruct (strncasecmp_eq 4 _ _); [apply Hn, Hh|]. destruct (strncasecmp_eq 7 _ _); [apply Hn, Hb|].
  destruct (match b64_decode value 32 with Some (b :: t) => Some (b :: t) | _ => None end) as [l|] eqn:E.
  - intros [= <-]. exact (Hn _ _ (Hb value) E).
  - apply Hn, Hh.
Qed.

Lemma keyset_add_psk_rep k name psk : ks_rep k -> is_cstr name -> bytes_ok psk -> ks_rep (snd (keyset_add_psk k name psk)).
Proof.
  intros Hk Hn Hp. unfold keyset_add_psk. destruct psk as [|b [|c t]].
  - destruct (psk_len_ok _); [by apply keyset_add_rep|done].
  - apply keyset_add_rep; [done|done|]. apply default_psk_bytes. by apply Forall_cons in Hp as [Hp _].
  - destruct (psk_len_ok _); [by apply keyset_add_rep|done].
Qed.

Lemma presets_cstr : Forall (fun p => is_cstr (mp_channel_name p)) MESH_PRESETS.
Proof. unfold MESH_PRESETS. repeat (apply Forall_cons_2; [cstr_tac|]). apply Forall_nil_2. Qed.

Lemma parse_spec_rep k spec : ks_rep k -> is_cstr spec -> ks_rep (snd (keyset_parse_spec k spec)).
Proof.
  intros Hk Hs. unfold keyset_parse_spec. pose proof (skip_while_cstr is_blank spec Hs) as Hs'.
  destruct (skip_while is_blank spec) as [|c0 s0] eqn:E0; [done|]. rewrite <- E0 in *. clear E0. set (sp := skip_while is_blank spec) in *.
  assert (Hname : is_cstr (match strchr 61 sp with Some (pre, _) => trim_end is_blank (take (KEYSET_MAX_NAME - 1) pre) | None => [] end)).
  { destruct (strchr 61 sp) as [[a b]|] eqn:Ec; [|apply Forall_nil_2]. destruct (strchr_cstr _ _ _ _ Hs' Ec) as [Ha _].
    apply trim_end_cstr. by apply Forall_take. }
  assert (Hd : ks_rep (snd (add_default_presets k))).
  { unfold add_default_presets. set (rc := true). clearbody rc. revert rc k Hk.
    assert (Hps : Forall (fun p => is_cstr (mp_channel_name p)) MESH_PRESETS) by exact presets_cstr.
    induction Hps as [|p ps Hp _ IH]; intros rc k Hk; [done|]. cbn [fold_left].
    destruct (keyset_add k (mp_channel_name p) (make_simple_psk 1)) as [ok k'] eqn:E. apply IH. change k' with (snd (ok, k')). rewrite <- E.
    apply keyset_add_rep; [done|done|]. apply default_psk_bytes, wrap_range. lia. }
  destruct (strchr 61 sp) as [[a b]|]; cbn [negb].
  - rewrite andb_false_r. destruct (spec_psk _) as [psk|] eqn:Ep; [|done]. apply keyset_add_psk_rep; [done|done|by apply spec_psk_bytes in Ep].
  - rewrite andb_true_r. destruct (strcasecmp_eq sp _); [done|]. destruct (spec_psk sp) as [psk|] eqn:Ep; [|done].
    apply keyset_add_psk_rep; [done|done|by apply spec_psk_bytes in Ep].
Qed.

Lemma parse_csv_rep k csv : ks_rep k -> is_cstr csv -> ks_rep (snd (keyset_parse_csv k csv)).
Proof.
  intros Hk Hc. unfold keyset_parse_csv, strtok_all. pose proof (tokens_cstr is_list_sep csv [] (Forall_nil_2 _) Hc) as Ht.
  set (n := 0) at 1. clearbody n. revert n k Hk. induction Ht as [|t ts H _ IH]; intros n k Hk; [done|]. cbn [fold_left].
  destruct (skip_while is_blank t) as [|c0 s0] eqn:E0; [by apply IH|]. rewrite <- E0.
  destruct (keyset_parse_spec k (skip_while is_blank t)) as [r k'] eqn:E. apply IH. change k' with (snd (r, k')). rewrite <- E.
  apply parse_spec_rep; [done|by apply skip_while_cstr].
Qed.


(** ** Share links *)

Lemma share_chunk_parts p l v rest : share_chunk p l = Some (v, rest) -> bytes_ok p -> bytes_ok v /\ bytes_ok rest.
Proof. unfold share_chunk. destruct (_ <? l); [done|]. intros [= <- <-] H. split; [by apply Forall_take|by apply Forall_drop]. Qed.

Lemma share_varint_rest p : forall acc sh, bytes_ok p -> bytes_ok (snd (share_varint acc sh p)).
Proof.
  induction p as [|b t IH]; intros acc sh Hp; [done|]. apply Forall_cons in Hp as [_ Hp]. cbn [share_varint].
  destruct (Z.testbit b 7); [by apply IH|done].
Qed.

Lemma skip_varint_rest p : bytes_ok p -> bytes_ok (skip_varint p).
Proof. induction p as [|b t IH]; intros Hp; [done|]. apply Forall_cons in Hp as [_ Hp]. cbn [skip_varint]. destruct (Z.testbit b 7); auto. Qed.

Lemma share_skip_rest wt p r : bytes_ok p -> share_skip wt p = Some r -> bytes_ok r.
Proof.
  intros Hp. unfold share_skip. destruct (wt =? 0); [intros [= <-]; by apply skip_varint_rest|].
  destruct (wt =? 1). { destruct (_ <? _)%nat; [done|]. intros [= <-]. by apply Forall_drop. }
  destruct (wt =? 2).
  { pose proof (share_varint_rest p 0 0 Hp) as Hr. destruct (share_varint 0 0 p) as [l q']. cbn [snd] in Hr.
    destruct (share_chunk q' l) as [[v w]|] eqn:E; [|done]. intros [= <-]. by apply (share_chunk_parts _ _ _ _ E). }
  destruct (wt =? 5); [|done]. destruct (_ <? _)%nat; [done|]. intros [= <-]. by apply Forall_drop.
Qed.

Definition settings_ok (st : settings) : Prop := bytes_ok (fst st) /\ is_cstr (snd st).

Lemma share_cstr_ok v : bytes_ok v -> is_cstr (share_cstr v).
Proof.
  induction 1 as [|c s Hc _ IH]; [apply Forall_nil_2|]. cbn [share_cstr]. destruct (Z.eqb_spec c 0); [apply Forall_nil_2|].
  apply Forall_cons_2; [unfold is_byte in Hc; lia|done].
Qed.

Lemma take_field_ok f v st : bytes_ok v -> settings_ok st -> settings_ok (take_field f v st).
Proof.
  intros Hv [H1 H2]. unfold take_field. destruct (_ && _); [by split|]. destruct (_ && _); [|by split].
  split; [done|by apply share_cstr_ok].
Qed.

Lemma parse_settings_ok fuel : forall sp st, bytes_ok sp -> settings_ok st -> settings_ok (parse_settings fuel sp st).
Proof.
  induction fuel as [|fuel IH]; intros sp st Hs Ht; [done|]. cbn [parse_settings]. destruct sp as [|b0 t0]; [done|].
  pose proof (share_varint_rest _ 0 0 Hs) as H1. destruct (share_varint 0 0 (b0 :: t0)) as [t3 sp]. cbn [snd] in H1.
  destruct (negb _).
  - destruct (share_skip _ sp) as [r|] eqn:E; [|done]. apply IH; [by apply share_skip_rest in E|done].
  - pose proof (share_varint_rest _ 0 0 H1) as H2. destruct (share_varint 0 0 sp) as [l3 sp2]. cbn [snd] in H2.
    destruct (share_chunk sp2 l3) as [[v r]|] eqn:E; [|done]. destruct (share_chunk_parts _ _ _ _ E H2).
    apply IH; [done|by apply take_field_ok].
Qed.

Lemma parse_share_channel_ok fuel : forall cp st, bytes_ok cp -> settings_ok st -> settings_ok (parse_share_channel fuel cp st).
Proof.
  induction fuel as [|fuel IH]; intros cp st Hs Ht; [done|]. cbn [parse_share_channel]. destruct cp as [|b0 t0]; [done|].
  pose proof (share_varint_rest _ 0 0 Hs) as H1. destruct (share_varint 0 0 (b0 :: t0)) as [t2 cp]. cbn [snd] in H1.
  destruct (_ || _).
  - destruct (share_skip _ cp) as [r|] eqn:E; [|done]. apply IH; [by apply share_skip_rest in E|done].
  - pose proof (share_varint_rest _ 0 0 H1) as H2. destruct (share_varint 0 0 cp) as [l2 cp2]. cbn [snd] in H2.
    destruct (share_chunk cp2 l2) as [[v r]|] eqn:E; [|done]. destruct (share_chunk_parts _ _ _ _ E H2).
    apply IH; [done|by apply parse_settings_ok].
Qed.

Lemma add_shared_rep ks st : ks_rep ks -> settings_ok st -> ks_rep (snd (add_shared ks st)).
Proof.
  intros Hk [H1 H2]. destruct st as [psk name]. cbn [fst snd] in *. unfold add_shared.
  destruct psk as [|b [|c t]]; [done| |].
  - apply keyset_add_rep; [done|done|]. apply default_psk_bytes. by apply Forall_cons in H1 as [H1 _].
  - cbn [List.length]. destruct (_ || _); [by apply keyset_add_rep|done].
Qed.

Lemma parse_channel_set_rep fuel : forall bp ks n, bytes_ok bp -> ks_rep ks -> ks_rep (snd (parse_channel_set fuel bp ks n)).
Proof.
  induction fuel as [|fuel IH]; intros bp ks n Hs Hk; [done|]. cbn [parse_channel_set]. destruct bp as [|b0 t0]; [done|].
  pose proof (share_varint_rest _ 0 0 Hs) as H1. destruct (share_varint 0 0 (b0 :: t0)) as [tag bp]. cbn [snd] in H1.
  destruct (tag_wire tag =? 2).
  - pose proof (share_varint_rest _ 0 0 H1) as H2. destruct (share_varint 0 0 bp) as [l bp2]. cbn [snd] in H2.
    destruct (share_chunk bp2 l) as [[v r]|] eqn:E; [|done]. destruct (share_chunk_parts _ _ _ _ E H2) as [Hv Hr].
    destruct (negb _); [by apply IH|].
    assert (H0 : settings_ok ([], [])) by (split; apply Forall_nil_2).
    pose proof (add_shared_rep ks _ Hk (parse_share_channel_ok (List.length v) v _ Hv H0)) as Ha.
    destruct (add_shared ks _) as [m ks']. by apply IH.
  - apply IH; [|done]. destruct (_ =? 0); [by apply skip_varint_rest|]. destruct (_ =? 1); [by apply Forall_drop|].
    destruct (_ =? 5); [by apply Forall_drop|done].
Qed.

Lemma share_b64_bytes p : forall acc bits out l, bytes_ok out -> share_b64 acc bits out p = Some l -> bytes_ok l.
Proof.
  induction p as [|c p IH]; intros acc bits out l Ho; cbn [share_b64]; [by intros [= <-]|]. destruct (_ <=? _)%nat; [by intros [= <-]|].
  destruct (share_stop c); [by intros [= <-]|]. destruct (b64_value c); [|done]. destruct (8 <=? _); [|by apply IH].
  apply IH. apply Forall_app. split; [done|]. apply Forall_cons_2; [apply wrap_range; lia|apply Forall_nil_2].
Qed.

Lemma share_rep ks url : ks_rep ks -> ks_rep (snd (decode_channel_share ks url)) /\
  (fst (decode_channel_share ks url) = None -> snd (decode_channel_share ks url) = ks).
Proof.
  intros Hk. unfold decode_channel_share. destruct (share_b64 _ _ _ _) as [[|b0 t0]|] eqn:E; [done| |done].
  apply share_b64_bytes in E; [|apply Forall_nil_2]. pose proof (parse_channel_set_rep (List.length (b0 :: t0)) _ ks 0 E Hk) as H.
  destruct (parse_channel_set _ _ _ _) as [n ks']. by split.
Qed.

(** ** MeshCore channels *)

Section Channels.
Context (sha256 : list Z -> option (list Z)) (evp_decode_block : list Z -> option (list Z)).

Lemma add_channel_keeps cs name secret cs' e : cs_ok cs -> (List.length name < MC_CHANNEL_MAX_NAME)%nat ->
  add_channel_locked sha256 cs name secret = Some (cs', e) -> cs_ok cs'.
Proof. intros Hc Hn E. pose proof (channelset_upsert sha256 cs name secret Hc Hn) as H. rewrite E in H. by destruct H. Qed.

Lemma add_spec_keeps cs spec cs' e : cs_ok cs -> meshcore_channelset_add_spec sha256 evp_decode_block cs spec = Some (cs', e) -> cs_ok cs'.
Proof.
  intros Hc. unfold meshcore_channelset_add_spec. destruct (strchr 58 spec) as [[a b]|]; [|done].
  destruct (meshcore_decode_psk _ _) as [s|]; [|done]. apply add_channel_keeps; [done|]. rewrite length_take. unfold MC_CHANNEL_MAX_NAME. lia.
Qed.

Lemma add_hashtag_keeps cs name cs' e : cs_ok cs -> meshcore_channelset_add_hashtag sha256 evp_decode_block cs name = Some (cs', e) -> cs_ok cs'.
Proof.
  intros Hc. unfold meshcore_channelset_add_hashtag. destruct name as [|c t]; [done|].
  destruct (if c =? 35 then t else c :: t) as [|c1 t1]; [done|]. destruct (strcasecmp_eq _ _); [by apply add_spec_keeps|].
  apply add_channel_keeps; [done|]. unfold copy_to. rewrite length_take. unfold MC_CHANNEL_MAX_NAME. lia.
Qed.

Lemma add_name_variant_keeps st v : cs_ok (fst (fst st)) -> cs_ok (fst (fst (add_name_variant sha256 evp_decode_block st v))).
Proof.
  destruct st as [[cs any] eff]. intros Hc. unfold add_name_variant.
  destruct (meshcore_channelset_add_hashtag _ _ _ _) as [[cs' e]|] eqn:E; [|done]. by apply add_hashtag_keeps in E.
Qed.

Lemma add_token_keeps st tok : cs_ok (fst (fst st)) -> cs_ok (fst (fst (add_token sha256 evp_decode_block st tok))).
Proof.
  destruct st as [[cs added] eff]. intros Hc. unfold add_token. destruct (skip_while is_blank tok) as [|c0 t0]; [done|].
  destruct (strchr 58 _) as [[a b]|].
  - destruct (meshcore_channelset_add_spec _ _ _ _) as [[cs' e]|] eqn:E; [|done]. by apply add_spec_keeps in E.
  - set (vs := imap pair _). clearbody vs.
    assert (H : forall vs st, cs_ok (fst (fst st)) -> cs_ok (fst (fst (fold_left (add_name_variant sha256 evp_decode_block) vs st)))).
    { induction vs0 as [|v vs0 IH]; intros st Hst; [done|]. cbn [fold_left]. by apply IH, add_name_variant_keeps. }
    specialize (H vs (cs, false, eff) Hc). destruct (fold_left _ vs _) as [[cs' any] eff']. exact H.
Qed.

Lemma add_tokens_keep toks : forall st, cs_ok (fst (fst st)) -> cs_ok (fst (fst (fold_left (add_token sha256 evp_decode_block) toks st))).
Proof. induction toks as [|t toks IH]; intros st Hst; [done|]. cbn [fold_left]. by apply IH, add_token_keeps. Qed.
End Channels.

(** ** The channel set *)

Section App.
Context {C F : Type} `{ops : PfbOps C F} (rotation : spec_float -> spec_float -> C) (o : options).
Abbreviation app := (ChannelSet.app (C := C) (F := F)).

(** The decoder and the statistics of a slot have the parameters its channel
    was registered with. *)
Record slot_agrees (cfg : channel_cfg) (st : slot_stat) (d : @lora_decoder C) : Prop := {
  sl_freq : cc_f_hz cfg = ss_freq_hz st;
  sl_sf : ld_sf d = cc_sf cfg /\ ss_sf st = cc_sf cfg;
  sl_cr : ld_cr d = cc_cr cfg /\ ss_cr st = cc_cr cfg;
  sl_bw : ld_bw_hz d = cc_bw_hz cfg /\ ss_bw_hz st = cc_bw_hz cfg;
  sl_os : ld_os_factor d = cc_os_factor cfg;
  sl_symbol : ld_samples_per_symbol d = 2 ^ cc_sf cfg * cc_os_factor cfg;
}.

Record app_ok (a : app) : Prop := {
  ao_cz : cz_ok (g_channelizer a);
  ao_slots : forall id d, g_demods a !! id = Some d -> exists s st,
    cz_channels (g_channelizer a) !! id = Some s /\ g_chan_stats a !! id = Some st /\ slot_agrees (cn_cfg s) st d;
  ao_grid : (List.length (g_grid a) <= CHANNELIZER_MAX_CHANNELS)%nat;
}.

Lemma created_agrees f bw sf cr os d : lora_decoder_create_os sf cr bw os = Some d ->
  slot_agrees (mk_channel_cfg f bw sf cr os) (mk_slot_stat sf cr bw f (slot_preset_name sf cr bw))
    (lora_decoder_set_crc_bruteforce_2bit (lora_decoder_set_crc_bruteforce d (opt_crc_bruteforce o)) (opt_crc_bruteforce_2bit o)).
Proof.
  unfold lora_decoder_create_os. destruct (_ || (bw <=? 0)) eqn:Er; [done|]. destruct (_ || (16 <? os)); [done|]. intros E.
  apply (inj Some) in E as <-. split; try done. cbn. by rewrite Z.shiftl_1_l.
Qed.

Lemma instantiate_ok a f bw sf cr id a' : app_ok a -> instantiate_channel rotation o a f bw sf cr = (id, a') ->
  app_ok a' /\ (forall j d, g_demods a !! j = Some d -> g_demods a' !! j = Some d) /\
  match id with
  | None => g_demods a' = g_demods a
  | Some id => exists s st d, g_demods a !! id = None /\ g_demods a' !! id = Some d /\
      cz_channels (g_channelizer a') !! id = Some s /\ g_chan_stats a' !! id = Some st /\ slot_agrees (cn_cfg s) st d /\
      cc_f_hz (cn_cfg s) = f /\ cc_bw_hz (cn_cfg s) = bw /\ cc_sf (cn_cfg s) = sf /\ cc_cr (cn_cfg s) = cr
  end.
Proof.
  intros Ha. unfold instantiate_channel. destruct (negb _); [intros E; by apply pair_inj in E as [<- <-]|].
  set (os := os_factor_for _ _ _ _). set (cfg := mk_channel_cfg f bw sf cr os).
  destruct (channelizer_add_channel _ _ _) as [k cz] eqn:Ek.
  destruct (add_channel_spec _ _ _ _ _ (ao_cz a Ha) Ek) as (Hcz & Hkeep & _ & _ & _ & Hk).
  assert (Ha1 : app_ok (a {{ g_channelizer := cz }})).
  { split; [exact Hcz| |exact (ao_grid a Ha)]. intros j d Hd. destruct (ao_slots a Ha j d Hd) as (s & st & H1 & H2 & H3).
    exists s, st. split; [by apply Hkeep|done]. }
  destruct k as [k|]; [|intros E; by apply pair_inj in E as [<- <-]].
  destruct (lora_decoder_create_os _ _ _ _) as [d|] eqn:Ed; [|intros E; by apply pair_inj in E as [<- <-]].
  destruct Hk as (-> & _ & i & g & _ & Hch & _ & _). set (k := List.length (cz_channels (g_channelizer a))) in *.
  assert (Hnew : g_demods a !! k = None).
  { destruct (g_demods a !! k) as [d0|] eqn:E0; [|done]. destruct (ao_slots a Ha k d0 E0) as (s & _ & Hs & _).
    apply lookup_lt_Some in Hs. lia. }
  pose proof (created_agrees f bw sf cr os d Ed) as Hag. set (d' := lora_decoder_set_crc_bruteforce_2bit _ _) in *.
  clearbody d'. set (st := mk_slot_stat _ _ _ _ _) in *.
  intros E. apply pair_inj in E as [<- <-]. rcbn. split; [|split].
  - split; rcbn; [exact Hcz| |].
    + intros j dj. destruct (decide (j = k)) as [->|Hj].
      * rewrite lookup_insert_eq. intros E. apply (inj Some) in E as <-. eexists _, st. rewrite lookup_insert_eq. split; [exact Hch|]. by split.
      * rewrite !lookup_insert_ne by done. intros Hd. by apply (ao_slots _ Ha1).
    + destruct (Nat.ltb_spec (List.length (g_grid a)) CHANNELIZER_MAX_CHANNELS); [rewrite length_app; cbn [List.length]; lia|].
      apply (ao_grid a Ha).
  - intros j dj Hd. rewrite lookup_insert_ne; [done|]. intros <-. by rewrite Hnew in Hd.
  - eexists _, st, d'. rewrite !lookup_insert_eq. split; [done|]. split; [done|]. split; [exact Hch|]. split; [done|]. by split.
Qed.
End App.

(** ** Commands *)

Section Commands.
Context {C F : Type} `{ops : PfbOps C F} (rotation : spec_float -> spec_float -> C).
Context (sha256 : list Z -> option (list Z)) (evp_decode_block : list Z -> option (list Z)).
Context (resolve_host_ipv4 : list Z -> option Z) (o : options).

Record sys_ok (s : system (C := C) (F := F)) : Prop := {
  so_keys : forall ks, sy_keys s = Some ks -> ks_rep ks;
  so_channels : forall cs, sy_channels s = Some cs -> cs_ok cs;
  so_app : forall a, sy_app s = Some a -> app_ok a;
}.

Definition decoders (s : system (C := C) (F := F)) : gmap nat (@lora_decoder C) :=
  match sy_app s with Some a => g_demods a | None => ∅ end.

(** What every command guarantees of the state before and after. *)
Record command_ok (s : system (C := C) (F := F)) (res : result) : Prop := {
  co_sys : sys_ok (snd (fst res));
  co_status : rs_status (fst (fst res)) ∈ [200; 400; 404];
  co_body : (List.length (rs_body (fst (fst res))) < RESPONSE_CAP)%nat;
  co_decoders : decoders s ⊆ decoders (snd (fst res));
  co_error : rs_status (fst (fst res)) <> 200 ->
    sy_keys (snd (fst res)) = sy_keys s /\ sy_channels (snd (fst res)) = sy_channels s /\
    decoders (snd (fst res)) = decoders s /\ snd res = [];
}.

Lemma respond_body st t : (List.length (rs_body (respond st t)) < RESPONSE_CAP)%nat.
Proof. unfold respond. cbn [rs_body]. rewrite length_take. unfold RESPONSE_CAP. lia. Qed.

Lemma refused_ok s st t : sys_ok s -> st ∈ [400; 404] -> command_ok s (respond st t, s, []).
Proof. intros Hs Ht. split; cbn [fst snd]; [done| |apply respond_body|done|done]. apply list_elem_of_further. done. Qed.

Lemma keys_changed_ok s ks t eff : sys_ok s -> ks_rep ks -> command_ok s (respond 200 t, s {{ sy_keys := Some ks }}, eff).
Proof.
  intros Hs Hk. split; cbn [fst snd]; [|by left|apply respond_body|done|done].
  split; rcbn; [intros k E; by apply (inj Some) in E as <-|apply Hs|apply Hs].
Qed.

Lemma keys_add_ok body s : sys_ok s -> (forall b, body = Some b -> is_cstr b) -> command_ok s (c2_keys_add body s).
Proof.
  intros Hs Hb. unfold c2_keys_add. destruct body as [b|]; [|apply refused_ok; by_decide || done].
  destruct (sy_keys s) as [ks|] eqn:Ek; [|apply refused_ok; by_decide || done].
  pose proof (parse_csv_rep ks b (so_keys s Hs ks Ek) (Hb b eq_refl)) as H. destruct (keyset_parse_csv ks b) as [n ks'].
  by apply keys_changed_ok.
Qed.

Lemma share_url_ok body s : sys_ok s -> command_ok s (c2_share_url body s).
Proof.
  intros Hs. unfold c2_share_url. destruct body as [b|]; [|apply refused_ok; by_decide || done].
  destruct (sy_keys s) as [ks|] eqn:Ek; [|apply refused_ok; by_decide || done].
  destruct (share_rep ks b (so_keys s Hs ks Ek)) as [H1 H2]. destruct (decode_channel_share ks b) as [[n|] ks']; cbn [fst snd] in *.
  - by apply keys_changed_ok.
  - specialize (H2 eq_refl). subst ks'.
    replace (s {{ sy_keys := Some ks }}) with s by (destruct s; cbn in Ek; by subst). by apply refused_ok; [|by_decide].
Qed.

Lemma extra_freq_ok body s : sys_ok s -> command_ok s (c2_extra_freq rotation o body s).
Proof.
  intros Hs. unfold c2_extra_freq. destruct body as [b|]; [|apply refused_ok; by_decide || done]. set (e := c2_parse_extra b). clearbody e.
  destruct (_ && _); [|apply refused_ok; by_decide || done].
  destruct (sy_app s) as [a|] eqn:Ea; [|apply refused_ok; by_decide || done].
  destruct (app_add_runtime_extra_freq _ _ _ _ _ _ _) as [id a'] eqn:E.
  destruct (instantiate_ok rotation o a _ _ _ _ id a' (so_app s Hs a Ea) E) as (Ha & Hkeep & Hid).
  assert (Hs' : sys_ok (s {{ sy_app := Some a' }})).
  { split; rcbn; [apply Hs|apply Hs|]. intros x Ex. by apply (inj Some) in Ex as <-. }
  assert (Hd : decoders s ⊆ decoders (s {{ sy_app := Some a' }})).
  { unfold decoders at 1. rewrite Ea. apply map_subseteq_spec. exact Hkeep. }
  destruct id as [id|].
  - split; cbn [fst snd]; [done|by left|apply respond_body|done|done].
  - split; cbn [fst snd]; [done|by right; left|apply respond_body|done|]. intros _. split; [done|]. split; [done|]. split; [|done].
    unfold decoders at 2. rewrite Ea. exact Hid.
Qed.

Lemma cot_ok body s : sys_ok s -> command_ok s (c2_cot_multicast resolve_host_ipv4 body s).
Proof.
  intros Hs. unfold c2_cot_multicast. destruct body as [b|]; [|apply refused_ok; by_decide || done].
  assert (H : forall st t cot, st ∈ [200; 400] -> command_ok s (respond st t, s {{ sy_cot := cot }}, [])).
  { intros st t cot Hst. split; cbn [fst snd]; [by split; apply Hs| |apply respond_body|done|done].
    apply elem_of_cons in Hst as [->|Hst]; [by left|]. apply list_elem_of_singleton in Hst as ->. by right; left. }
  destruct (strchr 58 b) as [[pre post]|]; [|apply H; by_decide].
  destruct (cot_set_endpoint _ _ _) as [[] cot]; apply H; by_decide.
Qed.

Lemma channel_add_ok body s : sys_ok s -> command_ok s (c2_meshcore_channel_add sha256 evp_decode_block body s).
Proof.
  intros Hs. unfold c2_meshcore_channel_add. destruct body as [b|]; [|apply refused_ok; by_decide || done].
  destruct (sy_channels s) as [cs|] eqn:Ec; [|apply refused_ok; by_decide || done].
  pose proof (add_tokens_keep sha256 evp_decode_block (strtok_all is_list_sep (take 1023 b)) (cs, 0, []) (so_channels s Hs cs Ec)) as H.
  destruct (fold_left _ _ _) as [[cs' n] eff]. split; cbn [fst snd]; [|by left|apply respond_body|done|done].
  split; rcbn; [apply Hs| |apply Hs]. intros x Ex. by apply (inj Some) in Ex as <-.
Qed.
End Commands.

(** C17: remote commands keep the receiver's state well formed.  Whatever a
    client sends, c2_dispatch answers with status 200, 400 or 404 and a body
    shorter than the buffer; afterwards the key store still represents a
    bounded set indexed by hash, the MeshCore channels are at most 32 with
    distinct names, every decoder sits on a registered channel whose
    frequency and radio parameters it and the statistics carry, and the
    decoders that ran before run on unchanged.  A command answered with an
    error changed no key, no MeshCore channel and no decoder and announced
    nothing. *)
Theorem remote_commands_keep_state {C F : Type} `{ops : PfbOps C F} rotation sha256 evp_decode_block resolve_host_ipv4 o cmd body
    (s : system (C := C) (F := F)) :
  sys_ok s -> (forall b, body = Some b -> is_cstr b) ->
  command_ok s (c2_dispatch rotation sha256 evp_decode_block resolve_host_ipv4 o cmd body s).
Proof.
  intros Hs Hb. unfold c2_dispatch. destruct cmd as [cmd|]; [|apply refused_ok; by_decide || done].
  destruct (strcmp_eq cmd (str "keys_add")); [by apply keys_add_ok|].
  destruct (strcmp_eq cmd (str "share_url")); [by apply share_url_ok|].
  destruct (strcmp_eq cmd (str "extra_freq")); [by apply extra_freq_ok|].
  destruct (strcmp_eq cmd (str "cot_multicast")); [by apply cot_ok|].
  destruct (strcmp_eq cmd (str "meshcore_channel_add")); [by apply channel_add_ok|].
  apply refused_ok; by_decide || done.
Qed.

(** A receiver on 869.525 MHz with empty tables. *)
Definition idle_system : system (C := Z) (F := Z) :=
  mk_system (Some keyset_create) (Some []) (Some (app_create (f64_of_Z 2000000) (f64_of_Z 869525000))) None.

Lemma idle_system_ok : sys_ok idle_system.
Proof.
  split; cbn [idle_system sy_keys sy_channels sy_app].
  - intros k E. apply (inj Some) in E as <-. apply keyset_create_rep.
  - intros k E. apply (inj Some) in E as <-. split; [apply Nat.le_0_l|apply NoDup_nil_2].
  - intros a E. apply (inj Some) in E as <-. split; [apply create_ok| |apply Nat.le_0_l].
    intros id d Hd. unfold app_create in Hd. cbn [g_demods] in Hd. rewrite lookup_empty in Hd. discriminate Hd.
Qed.

Definition run_command (cmd body : string) : result (C := Z) (F := Z) :=
  c2_dispatch (ops := z_pfb) z_rotation pad_hash (fun _ => None) (fun _ => None) eu_options (Some (str cmd)) (Some (str body)) idle_system.

Definition demo_add : result := run_command "extra_freq" "869525000:sf=9".

Lemma remote_commands_keep_state_witness :
  rs_status (fst (fst demo_add)) = 200 /\ sys_ok (snd (fst demo_add)) /\ decoders idle_system ⊆ decoders (snd (fst demo_add)).
Proof.
  pose proof (remote_commands_keep_state (ops := z_pfb) z_rotation pad_hash (fun _ => None) (fun _ => None) eu_options
    (Some (str "extra_freq")) (Some (str "869525000:sf=9")) idle_system idle_system_ok) as H.
  destruct H as [H1 _ _ H2 _]; [intros b E; injection E as <-; cstr_tac|].
  split; [vm_compute; reflexivity|]. split; [exact H1|exact H2].
Defined.

(** The reply to a CoT command says the endpoint is enabled when it was
    disabled: an empty host, or a port that is no number. *)
Theorem cot_reply_claims_enabled :
  let '(r, s, _) := run_command "cot_multicast" "239.2.3.1:udp" in
  rs_status r = 200 /\ sy_cot s = None /\
  rs_body r = str "{" ++ q (str "enabled") ++ str ":true," ++ q (str "host") ++ str ":" ++ q (str "239.2.3.1") ++ str "," ++ q (str "port") ++ str ":0}".
Proof. vm_compute. auto. Qed.

(** A spreading factor the decoder refuses is found out after the channel was
    registered: the command fails, and a slot of the channelizer is gone. *)
Theorem refused_add_takes_slot :
  let '(r, s, _) := run_command "extra_freq" "869525000:sf=6" in
  rs_status r = 400 /\ (fun a => List.length (cz_channels (g_channelizer a))) <$> sy_app s = Some 1%nat /\ decoders s = ∅.
Proof. vm_compute. auto. Qed.

(** The line announcing a channel carries its name as it was typed: a quote
    in it ends the JSON string. *)
Theorem channel_line_unescaped :
  emit_channel_added 7 [34; 44] =
  let line := str "{" ++ q (str "event") ++ str ":" ++ q (str "MC_CHANNEL_ADDED") ++ str "," ++ q (str "channel_hash") ++ str ":7," ++
              q (str "channel_name") ++ str ":" ++ [34; 34; 44; 34] ++ str "}" ++ [10] in
  [OutLine line; OutWebhook (str "MC_CHANNEL_ADDED") line
     (str "MeshCore channel added via dashboard: " ++ [34; 34; 44; 34] ++ str " (channel_hash 0x07)")].
Proof. vm_compute. reflexivity. Qed.
