(* ===== verification/WebServer.v ===== *)
(** The dashboard's HTTP server (src/web.c): receiving a request, routing it,
    the API handlers and their responses (recv_full_request, web_thread,
    send_response and the handle_api functions).

    The event store is a parameter: the text each query returns, or nothing
    when no store is configured.  The dashboard page is a parameter.  A
    client takes everything sent to it. *)

From Stdlib Require Import String.
From S2P Require Import Prelude CString CFloat Pfb ChannelSet SseHub HttpText C2 Json Channelizer ChannelSetFacts MeshCoreRegion.

Local Open Scope string_scope.
Local Open Scope list_scope.
Local Open Scope Z_scope.

(** ** Receiving *)

(** recv() into [room] bytes: at most that many of the segment that arrived;
    [None] at the end of the stream. *)
Definition recv (room : nat) (net : list (list Z)) : option (list Z * list (list Z)) :=
  match net with
  | [] | [] :: _ => None
  | seg :: net => Some (take room seg, match drop room seg with [] => net | rest => rest :: net end)
  end.

Definition REQUEST_CAP : nat := 16384.

(** The bytes of the buffer as strstr sees them. *)
Definition text (buf : list Z) : list Z := until_nul buf.

Definition found (needle buf : list Z) : bool := match strstr needle (text buf) with Some _ => true | None => false end.

(** Until the headers are complete or the buffer is full; [None]: recv
    failed. *)
Fixpoint recv_headers (fuel cap : nat) (got : list Z) (net : list (list Z)) : option (list Z * list (list Z)) :=
  match fuel with
  | O => Some (got, net)
  | S fuel =>
      if (List.length got <? cap - 1)%nat then
        match recv (cap - 1 - List.length got) net with
        | None => None
        | Some (c, net) => if found CRLF2 (got ++ c) then Some (got ++ c, net) else recv_headers fuel cap (got ++ c) net
        end
      else Some (got, net)
  end.

Fixpoint recv_body (fuel cap : nat) (have need : Z) (got : list Z) (net : list (list Z)) : list Z :=
  match fuel with
  | O => got
  | S fuel =>
      if (have <? need) && (List.length got <? cap - 1)%nat then
        match recv (cap - 1 - List.length got) net with
        | None => got
        | Some (c, net) => recv_body fuel cap (have + Z.of_nat (List.length c)) need (got ++ c) net
        end
      else got
  end.

Definition content_length (buf : list Z) : option Z :=
  let cl := match strstr (str "Content-Length:") (text buf) with
            | Some (_, p) => Some p
            | None => option_map snd (strstr (str "content-length:") (text buf))
            end in
  match cl with
  | None => None
  | Some p => option_map (fun x => strtoull10 (snd x)) (strchr 58 p)
  end.

(** [None] for 0. *)
Definition recv_full_request (cap : nat) (net : list (list Z)) : option (list Z) :=
  match recv_headers cap cap [] net with
  | None => None
  | Some (got, net) =>
      match content_length got with
      | None => Some got
      | Some need =>
          let header_len := match strstr CRLF2 (text got) with Some (hd, _) => (List.length hd + 4)%nat | None => List.length got end in
          let have := Z.of_nat (List.length got - header_len) in
          Some (recv_body cap cap have need got net)
      end
  end.

(** ** Responses *)

Definition crlf (s : list Z) : list Z := s ++ CRLF.

Definition reason (code : Z) : list Z := if code =? 200 then str "OK" else if code =? 400 then str "Bad Request" else str "Server Error".

Definition response_header (code : Z) (blen : nat) : list Z :=
  crlf (str "HTTP/1.1 " ++ fmt_d code ++ str " " ++ reason code) ++
  crlf (str "Content-Type: application/json") ++
  crlf (str "Content-Length: " ++ dec_of_Z (Z.of_nat blen)) ++
  crlf (str "Access-Control-Allow-Origin: *") ++
  crlf (str "Connection: close") ++ CRLF.

Definition send_response (fd code : Z) (body : list Z) : list sock_event :=
  [Sent fd (response_header code (List.length body)); Sent fd body; Closed fd].

Definition serve_index (page : list Z) (fd : Z) : list sock_event :=
  [Sent fd (crlf (str "HTTP/1.1 200 OK") ++ crlf (str "Content-Type: text/html; charset=utf-8") ++ crlf (str "Cache-Control: no-store") ++
            crlf (str "Content-Length: " ++ dec_of_Z (Z.of_nat (List.length page))) ++ crlf (str "Connection: close") ++ CRLF);
   Sent fd page; Closed fd].

Definition serve_404 (fd : Z) : list sock_event :=
  [Sent fd (crlf (str "HTTP/1.1 404 Not Found") ++ crlf (str "Content-Length: 9") ++ crlf (str "Connection: close") ++ CRLF ++ str "not found");
   Closed fd].

(** ** Queries *)

Inductive db_call :=
| QMessages (channel_hash : Z) (before : spec_float) (limit : Z)
| QNodeEvents (id : list Z) (before : spec_float) (limit : Z)
| QTelemetry (before : spec_float) (limit : Z)
| QTopology (before : spec_float) (limit : Z)
| QNodes | QPositions | QChannelNames
| QStatsByType (since : spec_float) | QStatsByChannel (since : spec_float) | QStatsCrc (since : spec_float).

Definition API_MESSAGES_DEFAULT_LIMIT : Z := 100.
Definition API_MESSAGES_MAX_LIMIT : Z := 500.
Definition API_NODE_HISTORY_DEFAULT_LIMIT : Z := 300.
Definition API_NODE_HISTORY_MAX_LIMIT : Z := 1000.
Definition API_TELEMETRY_DEFAULT_LIMIT : Z := 200.
Definition API_TELEMETRY_MAX_LIMIT : Z := 1000.
Definition API_TOPOLOGY_DEFAULT_LIMIT : Z := 3000.
Definition API_TOPOLOGY_MAX_LIMIT : Z := 20000.

(** The query string in a zeroed buffer. *)
Definition query_string (cap : nat) (req : list Z) : list Z := default [] (extract_query_string req cap).

Definition limit_param (qs : list Z) (dflt max : Z) : Z :=
  let limit := match query_get qs (str "limit") 16 with Some v => strtol10 v | None => dflt end in
  let limit := if limit <=? 0 then dflt else limit in
  if max <? limit then max else limit.

Definition before_param (qs : list Z) : spec_float := match query_get qs (str "before") 32 with Some v => atof v | None => f_zero end.

Section Server.
Context (db : db_call -> option (list Z)) (page : list Z).

Definition answer (fd : Z) (r : option (list Z)) : list sock_event :=
  match r with
  | None => send_response fd 503 (error_body (str "sqlite not configured"))
  | Some body => send_response fd 200 body
  end.

Definition handle_api_messages (fd : Z) (req : list Z) : list sock_event :=
  let qs := query_string 512 req in
  let channel_hash := match query_get qs (str "channel") 32 with Some v => strtol0 v | None => -1 end in
  let limit := limit_param qs API_MESSAGES_DEFAULT_LIMIT API_MESSAGES_MAX_LIMIT in
  if channel_hash <? 0 then send_response fd 400 (error_body (str "missing channel"))
  else answer fd (db (QMessages (u32 channel_hash) (before_param qs) limit)).

Definition handle_api_node_history (fd : Z) (req : list Z) : list sock_event :=
  let qs := query_string 512 req in
  let limit := limit_param qs API_NODE_HISTORY_DEFAULT_LIMIT API_NODE_HISTORY_MAX_LIMIT in
  match default [] (query_get qs (str "id") 32) with
  | [] => send_response fd 400 (error_body (str "missing id"))
  | id => answer fd (db (QNodeEvents id (before_param qs) limit))
  end.

Definition handle_api_telemetry (fd : Z) (req : list Z) : list sock_event :=
  let qs := query_string 512 req in
  answer fd (db (QTelemetry (before_param qs) (limit_param qs API_TELEMETRY_DEFAULT_LIMIT API_TELEMETRY_MAX_LIMIT))).

Definition handle_api_topology (fd : Z) (req : list Z) : list sock_event :=
  let qs := query_string 512 req in
  answer fd (db (QTopology (before_param qs) (limit_param qs API_TOPOLOGY_DEFAULT_LIMIT API_TOPOLOGY_MAX_LIMIT))).

(** An object of raw JSON members. *)
Fixpoint members (ms : list (list Z * list Z)) : list Z :=
  match ms with
  | [] => []
  | [(k, v)] => q k ++ str ":" ++ v
  | (k, v) :: ms => q k ++ str ":" ++ v ++ str "," ++ members ms
  end.

Definition object (ms : list (list Z * option (list Z))) : option (list Z) :=
  option_map (fun vs => str "{" ++ members (zip (map fst ms) vs) ++ str "}") (mapM snd ms).

Definition handle_api_nodes (fd : Z) : list sock_event :=
  answer fd (object [(str "nodes", db QNodes); (str "positions", db QPositions)]).

Definition handle_api_meshcore_channels (fd : Z) : list sock_event :=
  answer fd (object [(str "channels", db QChannelNames)]).

Definition stats_window (qs : list Z) : Z :=
  match query_get qs (str "window") 8 with
  | Some w => if strcmp_eq w (str "1w") then 7 * 24 * 3600 else if strcmp_eq w (str "1m") then 30 * 24 * 3600 else 24 * 3600
  | None => 24 * 3600
  end.

(** [now]: the seconds and nanoseconds of CLOCK_REALTIME. *)
Definition handle_api_stats (now : Z * Z) (fd : Z) (req : list Z) : list sock_event :=
  let since := f64_sub (f64_add (f64_of_Z (fst now)) (f64_div (f64_of_Z (snd now)) (f64_of_Z 1000000000)))
                       (f64_of_Z (stats_window (query_string 128 req))) in
  answer fd (object [(str "by_type", db (QStatsByType since)); (str "by_channel", db (QStatsByChannel since)); (str "crc", db (QStatsCrc since))]).

(** ** Routing *)

Context {C F : Type} `{ops : PfbOps C F} (rotation : spec_float -> spec_float -> C).
Context (sha256 : list Z -> option (list Z)) (evp_decode_block : list Z -> option (list Z)).
Context (resolve_host_ipv4 : list Z -> option Z) (o : options) (opt_api_token : option (list Z)).

Record world := mk_world { wd_sys : system (C := C) (F := F); wd_hub : hub }.

(** What the kernel does while a request is served: the clock, the results
    of sends on event streams. *)
Record kernel := mk_kernel { kn_now : Z * Z; kn_accepts : nat -> Z -> nat; kn_replay : nat -> nat -> bool }.

(** The lines a command publishes go out before its response. *)
Fixpoint publish_effects (k : kernel) (n : nat) (eff : list c2_effect) (h : hub) : hub * list sock_event :=
  match eff with
  | [] => (h, [])
  | OutLine line :: eff =>
      let '(h, a) := web_publish_line h (kn_accepts k n) line in
      let '(h, b) := publish_effects k (S n) eff h in (h, a ++ b)
  | _ :: eff => publish_effects k n eff h
  end.

Definition outcome := (world * list sock_event * list c2_effect)%type.

Definition UNAUTHORIZED : list Z := error_body (str "missing or invalid Authorization: Bearer token").

(** A POST handler: the check, whose failure is answered by it and closed
    again by its caller, then the command. *)
Definition post (k : kernel) (fd : Z) (req : list Z) (w : world) (cmd : system -> c2_response * system * list c2_effect) : outcome :=
  if negb (api_auth_ok opt_api_token req) then (w, send_response fd 401 UNAUTHORIZED ++ [Closed fd], [])
  else
    let '(r, s, eff) := cmd (wd_sys w) in
    let '(h, ev) := publish_effects k 0 eff (wd_hub w) in
    (mk_world s h, ev ++ send_response fd (rs_status r) (rs_body r), eff).

Definition share_body (req : list Z) : option (list Z) :=
  option_map (fun body => url_decode_inplace (take 1023 body)) (find_body req).

Definition get (w : world) (ev : list sock_event) : outcome := (w, ev, []).

Definition route (k : kernel) (fd : Z) (req : list Z) (w : world) : outcome :=
  if starts_with (str "GET / ") req || starts_with (str "GET /" ++ [13]) req || starts_with (str "GET /index") req
  then get w (serve_index page fd)
  else if starts_with (str "GET /events") req then
    let '(h, ev) := promote_to_sse (wd_hub w) (kn_replay k) fd in (mk_world (wd_sys w) h, ev, [])
  else if starts_with (str "GET /api/messages") req then get w (handle_api_messages fd req)
  else if starts_with (str "GET /api/node-history") req then get w (handle_api_node_history fd req)
  else if starts_with (str "GET /api/telemetry") req then get w (handle_api_telemetry fd req)
  else if starts_with (str "GET /api/topology") req then get w (handle_api_topology fd req)
  else if starts_with (str "GET /api/nodes") req then get w (handle_api_nodes fd)
  else if starts_with (str "GET /api/meshcore-channels") req then get w (handle_api_meshcore_channels fd)
  else if starts_with (str "GET /api/stats") req then get w (handle_api_stats (kn_now k) fd req)
  else if starts_with (str "POST /api/keys") req then post k fd req w (c2_keys_add (find_body req))
  else if starts_with (str "POST /api/share-url") req then post k fd req w (c2_share_url (share_body req))
  else if starts_with (str "POST /api/extra-freq") req then post k fd req w (c2_extra_freq rotation o (find_body req))
  else if starts_with (str "POST /api/cot-multicast") req then post k fd req w (c2_cot_multicast resolve_host_ipv4 (find_body req))
  else if starts_with (str "POST /api/meshcore-channel") req
  then post k fd req w (c2_meshcore_channel_add sha256 evp_decode_block (find_body req))
  else get w (serve_404 fd).

(** One turn of web_thread on an accepted connection. *)
Definition serve (k : kernel) (fd : Z) (net : list (list Z)) (w : world) : outcome :=
  match recv_full_request REQUEST_CAP net with
  | None | Some [] => get w [Closed fd]
  | Some buf => route k fd (text buf) w
  end.
End Server.

(** Correctness of the HTTP server: the token guards every command, an
    authorised request is the command of c2_dispatch, and a request is
    received whole however the network cuts it. *)

(** ** Routing *)

(** The commands of the API: the path and the command of c2_dispatch. *)
Definition api_commands : list (list Z * list Z) :=
  [(str "POST /api/keys", str "keys_add"); (str "POST /api/share-url", str "share_url"); (str "POST /api/extra-freq", str "extra_freq");
   (str "POST /api/cot-multicast", str "cot_multicast"); (str "POST /api/meshcore-channel", str "meshcore_channel_add")].

(** A form body for share links, the raw body otherwise. *)
Definition command_body (cmd req : list Z) : option (list Z) :=
  if strcmp_eq cmd (str "share_url") then share_body req else find_body req.

Lemma starts_with_prefix p p' s : starts_with (p ++ p') s = true -> starts_with p s = true.
Proof. rewrite !starts_with_app. intros [t ->]. exists (p' ++ t). by rewrite app_assoc. Qed.

(** Prefixes neither of which extends the other exclude each other. *)
Lemma starts_with_clash p p' s : starts_with p s = true -> list_eqb (take (List.length p') p) (take (List.length p) p') = false ->
  starts_with p' s = false.
Proof.
  intros H Hne. destruct (starts_with p' s) eqn:E; [|done]. apply starts_with_app in H as [t ->]. apply starts_with_app in E as [t' E].
  apply (f_equal (take (Nat.min (List.length p) (List.length p')))) in E. rewrite !take_app_le in E by lia.
  assert (E2 : take (List.length p') p = take (List.length p) p').
  { destruct (Nat.min_spec (List.length p) (List.length p')) as [[? Em]|[? Em]]; rewrite Em in E.
    - rewrite take_ge in E by lia. rewrite take_ge by lia. by rewrite E at 1.
    - rewrite (take_ge p') in E by lia. rewrite (take_ge p') by lia. done. }
  rewrite E2, list_eqb_refl in Hne. done.
Qed.

Section Routes.
Context (db : db_call -> option (list Z)) (page : list Z).
Context {C F : Type} `{ops : PfbOps C F} (rotation : spec_float -> spec_float -> C).
Context (sha256 : list Z -> option (list Z)) (evp_decode_block : list Z -> option (list Z)).
Context (resolve_host_ipv4 : list Z -> option Z) (o : options) (opt_api_token : option (list Z)).
Abbreviation route := (route db page rotation sha256 evp_decode_block resolve_host_ipv4 o opt_api_token).
Abbreviation post := (post opt_api_token).
Abbreviation dispatch := (c2_dispatch rotation sha256 evp_decode_block resolve_host_ipv4 o).

(** A request under a command's path reaches that command. *)
Lemma route_command k fd req w path cmd : In (path, cmd) api_commands -> starts_with path req = true ->
  route k fd req w = post k fd req w (dispatch (Some cmd) (command_body cmd req)).
Proof.
  intros Hin Hreq. unfold WebServer.route.
  repeat (destruct Hin as [E|Hin]; [apply pair_inj in E as [<- <-];
    repeat match goal with |- context [starts_with ?p req] =>
      first [rewrite Hreq | rewrite (starts_with_clash _ p req Hreq) by reflexivity] end; reflexivity|]).
  destruct Hin.
Qed.

Lemma other_post k fd req w : starts_with (str "POST ") req = true ->
  Forall (fun c => starts_with (fst c) req = false) api_commands -> route k fd req w = get w (serve_404 fd).
Proof.
  intros Hp Hno. unfold api_commands in Hno. rewrite !Forall_cons in Hno. cbn [fst] in Hno. destruct Hno as (H1 & H2 & H3 & H4 & H5 & _).
  unfold WebServer.route. rewrite H1, H2, H3, H4, H5.
  repeat match goal with |- context [starts_with ?p req] => rewrite (starts_with_clash _ p req Hp) by reflexivity end. reflexivity.
Qed.

Lemma post_refused k fd req (w : world (C := C) (F := F)) cmd : api_auth_ok opt_api_token req = false ->
  post k fd req w cmd = (w, send_response fd 401 UNAUTHORIZED ++ [Closed fd], []).
Proof. intros H. unfold WebServer.post. by rewrite H. Qed.

(** A request that is no authorised command leaves the receiver alone. *)
Lemma route_keeps_system k fd req w : api_auth_ok opt_api_token req = false ->
  wd_sys (fst (fst (route k fd req w))) = wd_sys w /\ snd (route k fd req w) = [].
Proof.
  intros H. unfold WebServer.route. rewrite !post_refused by done. destruct (promote_to_sse _ _ _) as [h ev].
  repeat match goal with |- context [if ?b then _ else _] => destruct b end; done.
Qed.
End Routes.


(** ** Receiving *)

Lemma starts_with_longer n s r : starts_with n s = true -> starts_with n (s ++ r) = true.
Proof. rewrite !starts_with_app. intros [t ->]. exists (t ++ r). by rewrite app_assoc. Qed.

(** The first occurrence stays the first when text follows. *)
Lemma strstr_more n s a b r : strstr n s = Some (a, b) -> strstr n (s ++ r) = Some (a, b ++ r).
Proof.
  revert a b. induction s as [|c s IH]; intros a b; cbn [strstr Datatypes.app].
  - destruct (starts_with n []) eqn:E; [|done]. intros [= <- <-]. pose proof (starts_with_longer n [] r E) as E'. cbn [Datatypes.app] in *.
    destruct r; cbn [strstr]; by rewrite E'.
  - destruct (starts_with n (c :: s)) eqn:E.
    + intros [= <- <-]. pose proof (starts_with_longer n (c :: s) r E) as E'. cbn [Datatypes.app] in E'. by rewrite E'.
    + destruct (strstr n s) as [[a' b']|] eqn:Es; [|done]. intros [= <- <-]. rewrite (IH a' b' eq_refl).
      destruct (starts_with n (c :: s ++ r)) eqn:E2; [|done]. exfalso. destruct (strstr_some n s a' b' Es) as [Eab Hb].
      assert (Hl : (List.length n <= List.length s)%nat).
      { apply starts_with_app in Hb as [t ->]. rewrite Eab, !length_app. lia. }
      unfold starts_with in E, E2. rewrite app_comm_cons, take_app_le in E2 by (cbn; lia). by rewrite E in E2.
Qed.

Lemma atoi_digits_stop t c r : is_digit c = false -> forall acc, atoi_digits acc (t ++ c :: r) = atoi_digits acc t.
Proof.
  intros Hc. induction t as [|d t IH]; intros acc; cbn [Datatypes.app atoi_digits]; [by rewrite Hc|]. destruct (is_digit d); [apply IH|done].
Qed.

Lemma strtoull_line u r : 0 < strtoull10 (u ++ CRLF2) -> strtoull10 (u ++ CRLF2 ++ r) = strtoull10 (u ++ CRLF2).
Proof.
  unfold strtoull10. assert (H : skip_while is_space (u ++ CRLF2) = [] \/ scan_number (u ++ CRLF2 ++ r) = scan_number (u ++ CRLF2)).
  { unfold scan_number. induction u as [|c u IH]; [by left|]. cbn [Datatypes.app skip_while]. destruct (is_space c); [exact IH|]. right.
    unfold CRLF2. cbn [Datatypes.app]. rewrite (app_comm_cons u (13 :: _) c), (app_comm_cons u [13; 10; 13; 10] c).
    rewrite !atoi_digits_stop by reflexivity. done. }
  destruct H as [H| ->]; [|done]. intros Hp. exfalso. revert Hp. unfold scan_number. rewrite H. done.
Qed.

Lemma until_nul_prefix s t : is_cstr s -> until_nul (s ++ t) = s ++ until_nul t.
Proof. induction 1 as [|c s Hc _ IH]; [done|]. cbn [Datatypes.app until_nul]. destruct (Z.eqb_spec c 0); [lia|]. by rewrite IH. Qed.

(** What follows a colon of the headers still ends with the blank line. *)
Lemma colon_suffix head a t : head ++ CRLF2 = a ++ 58 :: t -> exists u, t = u ++ CRLF2.
Proof.
  intros E. destruct (Nat.le_gt_cases (List.length head) (List.length a)) as [Hl|Hl].
  - assert (H : (head ++ CRLF2) !! List.length a = Some 58) by (rewrite E; by apply list_lookup_middle).
    rewrite lookup_app_r in H by done. apply list_elem_of_lookup_2 in H. exfalso. revert H. by_decide.
  - exists (drop (S (List.length a)) head). apply (f_equal (drop (S (List.length a)))) in E.
    rewrite drop_app_le in E by lia. rewrite E. rewrite cons_middle, app_assoc, drop_app_length'; [done|]. rewrite length_app. cbn. lia.
Qed.

Section Reception.
Context (cap : nat) (head body : list Z).
Let request := head ++ CRLF2 ++ body.
Hypothesis head_text : is_cstr head.
Hypothesis head_ends : strstr CRLF2 (head ++ CRLF2) = Some (head, CRLF2).
Hypothesis length_given : strstr (str "Content-Length:") (head ++ CRLF2) <> None.
Hypothesis length_right : content_length (head ++ CRLF2) = Some (Z.of_nat (List.length body)).
Hypothesis fits_buffer : (List.length request < cap)%nat.

(** The buffer and the segments still under way make up the request. *)
Definition under_way (got : list Z) (net : list (list Z)) : Prop := got ++ concat net = request /\ Forall (fun seg => seg <> []) net.

Lemma under_way_recv got net : under_way got net -> (List.length got < List.length request)%nat ->
  exists seg net', recv (cap - 1 - List.length got) net = Some (seg, net') /\ seg <> [] /\ under_way (got ++ seg) net'.
Proof.
  intros [E Hne] Hl. destruct net as [|seg net]; [rewrite <- E, app_nil_r in Hl; lia|]. apply Forall_cons in Hne as [Hs Hne].
  assert (Hseg : (List.length seg <= cap - 1 - List.length got)%nat).
  { apply (f_equal List.length) in E. cbn [concat] in E. rewrite !length_app in E. lia. }
  exists seg, net. destruct seg as [|b seg]; [done|]. unfold recv. rewrite take_ge, drop_ge by done. split; [done|]. split; [done|].
  split; [by rewrite <- app_assoc|done].
Qed.

Lemma head_cstr2 : is_cstr (head ++ CRLF2).
Proof. apply cstr_app. split; [done|]. unfold CRLF2. cstr_tac. Qed.

Lemma under_way_prefix got net : under_way got net -> (List.length head + 4 <= List.length got)%nat -> exists x, got = (head ++ CRLF2) ++ x.
Proof.
  intros [E _] Hl. exists (drop (List.length head + 4) got). rewrite <- (take_drop (List.length head + 4) got) at 1. f_equal.
  assert (El : List.length (head ++ CRLF2) = (List.length head + 4)%nat) by apply length_app. rewrite <- El in *.
  rewrite <- (take_app_le got (concat net)) by done. rewrite E. unfold request. rewrite app_assoc. by rewrite take_app_length.
Qed.

Lemma headers_seen got net : under_way got net -> found CRLF2 got = true <-> (List.length head + 4 <= List.length got)%nat.
Proof.
  intros Hu. unfold found, text. split.
  - destruct (strstr CRLF2 (until_nul got)) as [[a b]|] eqn:Es; [|done]. intros _.
    destruct (Nat.le_gt_cases (List.length head + 4) (List.length got)) as [|Hlt]; [done|]. exfalso. destruct Hu as [E _].
    assert (Ep : head ++ CRLF2 = got ++ drop (List.length got) (head ++ CRLF2)).
    { rewrite <- (take_drop (List.length got) (head ++ CRLF2)) at 1. f_equal.
      transitivity (take (List.length got) (got ++ concat net)); [|apply take_app_length]. rewrite E. unfold request. rewrite (app_assoc head).
      rewrite (take_app_le (head ++ CRLF2) body); [done|]. rewrite length_app. cbn. lia. }
    assert (Hc : is_cstr got) by (pose proof head_cstr2 as H; rewrite Ep in H; by apply cstr_app in H as [H _]).
    rewrite until_nul_cstr in Es by done. pose proof (strstr_more _ _ _ _ (drop (List.length got) (head ++ CRLF2)) Es) as Em.
    rewrite <- Ep, head_ends in Em. destruct (strstr_some _ _ _ _ Es) as [Eg Hb]. apply starts_with_app in Hb as [t ->].
    injection Em as Eh _. rewrite Eg, Eh, !length_app in Hlt. cbn in Hlt. lia.
  - intros Hl. destruct (under_way_prefix got net Hu Hl) as [x ->]. rewrite until_nul_prefix by apply head_cstr2.
    by rewrite (strstr_more _ _ _ _ (until_nul x) head_ends).
Qed.

Lemma recv_headers_ok fuel : forall got net, under_way got net -> (List.length got < List.length head + 4)%nat ->
  (List.length request - List.length got <= fuel)%nat ->
  exists got' net', recv_headers fuel cap got net = Some (got', net') /\ under_way got' net' /\ (List.length head + 4 <= List.length got')%nat.
Proof.
  assert (Hr : (List.length head + 4 <= List.length request)%nat) by (unfold request; rewrite !length_app; cbn; lia).
  induction fuel as [|fuel IH]; intros got net Hu Hl Hf; [lia|]. cbn [recv_headers].
  destruct (Nat.ltb_spec (List.length got) (cap - 1)); [|lia].
  destruct (under_way_recv got net Hu ltac:(lia)) as (seg & net' & -> & Hs & Hu').
  destruct (found CRLF2 (got ++ seg)) eqn:Ef.
  - eexists _, _. split; [done|]. split; [done|]. by apply (headers_seen _ _ Hu').
  - apply IH; [done| |].
    + destruct (Nat.lt_ge_cases (List.length (got ++ seg)) (List.length head + 4)) as [|Hge]; [done|].
      apply (headers_seen _ _ Hu') in Hge. by rewrite Hge in Ef.
    + rewrite length_app. destruct seg; [done|]. cbn [List.length]. lia.
Qed.

Lemma recv_body_ok fuel : forall got net, under_way got net -> (List.length head + 4 <= List.length got)%nat ->
  (List.length request - List.length got <= fuel)%nat ->
  recv_body fuel cap (Z.of_nat (List.length got - (List.length head + 4))) (Z.of_nat (List.length body)) got net = request.
Proof.
  assert (Hlen : List.length request = (List.length head + 4 + List.length body)%nat) by (unfold request; rewrite !length_app; cbn; lia).
  assert (Hfull : forall got net, under_way got net -> (List.length request <= List.length got)%nat -> got = request).
  { intros got net [E _] Hge. rewrite <- E in Hge. rewrite length_app in Hge. rewrite <- E.
    destruct (concat net) eqn:Ec; [by rewrite app_nil_r|]. cbn in Hge. lia. }
  induction fuel as [|fuel IH]; intros got net Hu Hl Hf; cbn [recv_body]; [apply (Hfull got net Hu); lia|].
  destruct (Z.ltb_spec (Z.of_nat (List.length got - (List.length head + 4))) (Z.of_nat (List.length body))); [|apply (Hfull got net Hu); lia].
  destruct (Nat.ltb_spec (List.length got) (cap - 1)); [cbn [andb]|lia].
  destruct (under_way_recv got net Hu ltac:(lia)) as (seg & net' & -> & Hs & Hu').
  specialize (IH (got ++ seg) net' Hu'). rewrite length_app in IH.
  replace (Z.of_nat (List.length got - (List.length head + 4)) + Z.of_nat (List.length seg))
    with (Z.of_nat (List.length got + List.length seg - (List.length head + 4))) by lia.
  apply IH; [lia|]. destruct seg; [done|]. cbn [List.length]. lia.
Qed.

Lemma content_length_more x : (body = [] -> x = []) -> content_length ((head ++ CRLF2) ++ x) = Some (Z.of_nat (List.length body)).
Proof.
  intros Hx. destruct (decide (body = [])) as [E0|Hb]; [rewrite (Hx E0), app_nil_r; exact length_right|].
  assert (0 < List.length body)%nat by (destruct body; [done|cbn; lia]). revert length_right.
  unfold content_length, text. rewrite (until_nul_cstr _ head_cstr2), until_nul_prefix by apply head_cstr2.
  destruct (strstr (str "Content-Length:") (head ++ CRLF2)) as [[a p]|] eqn:Es; [|done]. rewrite (strstr_more _ _ _ _ (until_nul x) Es).
  destruct (strstr_some _ _ _ _ Es) as [Eap Hp]. apply starts_with_app in Hp as [t ->].
  change (str "Content-Length:") with (str "Content-Length" ++ [58]) in *. rewrite <- !app_assoc. cbn [Datatypes.app].
  assert (Hn : ~ In 58 (str "Content-Length")) by (cbn; lia).
  rewrite !(strchr_split 58 _ _ Hn). cbn [option_map snd].
  assert (exists u, t = u ++ CRLF2) as [u ->].
  { apply (colon_suffix head (a ++ str "Content-Length") t). by rewrite Eap, <- !app_assoc. }
  intros [= E]. rewrite <- app_assoc. rewrite strtoull_line; [by rewrite E|]. rewrite E. lia.
Qed.
End Reception.

(** A request is received whole.  A request whose headers hold a correct
    Content-Length and which fits the buffer is returned byte for byte,
    however the network cuts it into segments: within the headers, within
    the blank line that ends them, or within the body, which may be any
    bytes. *)
Theorem request_received_whole cap head body segs :
  is_cstr head -> strstr CRLF2 (head ++ CRLF2) = Some (head, CRLF2) ->
  strstr (str "Content-Length:") (head ++ CRLF2) <> None -> content_length (head ++ CRLF2) = Some (Z.of_nat (List.length body)) ->
  (List.length (head ++ CRLF2 ++ body) < cap)%nat ->
  concat segs = head ++ CRLF2 ++ body -> Forall (fun seg => seg <> []) segs ->
  recv_full_request cap segs = Some (head ++ CRLF2 ++ body).
Proof.
  intros Hh He Hg Hr Hf Hs Hne. unfold recv_full_request.
  destruct (recv_headers_ok cap head body Hh He Hf cap [] segs) as (got & net & -> & Hu & Hl);
    [by split|cbn; lia|cbn [List.length]; lia|].
  destruct (under_way_prefix head body got net Hu Hl) as [x ->].
  rewrite (content_length_more cap head body Hh Hg Hr Hf x).
  2:{ intros ->. destruct Hu as [E _]. apply (f_equal List.length) in E. rewrite !length_app in E. cbn [List.length] in E.
      destruct x; [done|cbn in E; lia]. }
  unfold text. rewrite until_nul_prefix by (by apply head_cstr2). rewrite (strstr_more _ _ _ _ (until_nul x) He).
  f_equal. apply (recv_body_ok cap head body Hf); [done|done|]. rewrite !length_app in *. cbn [List.length] in *. lia.
Qed.

Definition demo_head : list Z := crlf (str "POST /api/keys HTTP/1.1") ++ str "Content-Length: 3".

(** Cut inside the blank line and inside the body. *)
Lemma request_received_whole_witness :
  recv_full_request REQUEST_CAP [demo_head ++ [13; 10]; [13; 10; 97]; [0; 98]] = Some (demo_head ++ CRLF2 ++ [97; 0; 98]).
Proof.
  apply (request_received_whole REQUEST_CAP demo_head [97; 0; 98]).
  - unfold demo_head. cstr_tac.
  - vm_compute. reflexivity.
  - vm_compute. discriminate.
  - vm_compute. reflexivity.
  - apply Nat.ltb_lt. vm_compute. reflexivity.
  - vm_compute. reflexivity.
  - repeat apply Forall_cons_2; try apply Forall_nil_2; discriminate.
Defined.

(** Header names are case-insensitive, but only two spellings of this one are
    known: with another, the body of a request in two segments is lost. *)
Theorem length_spelling_loses_body :
  let head := crlf (str "POST /api/keys HTTP/1.1") ++ str "Content-length: 3" in
  recv_full_request REQUEST_CAP [head ++ CRLF2; [97; 98; 99]] = Some (head ++ CRLF2).
Proof. vm_compute. reflexivity. Qed.

(** ** Limits of queries *)

Definition call_bounded (c : db_call) : Prop :=
  match c with
  | QMessages h _ n => 0 <= h < 2 ^ 32 /\ 1 <= n <= API_MESSAGES_MAX_LIMIT
  | QNodeEvents id _ n => id <> [] /\ (List.length id < 32)%nat /\ 1 <= n <= API_NODE_HISTORY_MAX_LIMIT
  | QTelemetry _ n => 1 <= n <= API_TELEMETRY_MAX_LIMIT
  | QTopology _ n => 1 <= n <= API_TOPOLOGY_MAX_LIMIT
  | _ => True
  end.

Lemma limit_bounded qs dflt max : 1 <= dflt <= max -> 1 <= limit_param qs dflt max <= max.
Proof.
  intros H. unfold limit_param. set (l := match query_get _ _ _ with Some _ => _ | None => _ end). clearbody l. cbn zeta.
  destruct (Z.leb_spec l 0); [destruct (Z.ltb_spec max dflt); lia|]. destruct (Z.ltb_spec max l); lia.
Qed.

Lemma url_decode_len n : forall s, (List.length s <= n)%nat -> (List.length (url_decode s) <= List.length s)%nat.
Proof.
  induction n as [|n IH]; intros s Hs; [destruct s; [done|cbn in Hs; lia]|]. destruct s as [|c t]; [done|]. cbn in Hs.
  assert (H1 : (List.length (url_decode t) <= List.length t)%nat) by (apply IH; lia).
  destruct t as [|a [|b u]]; cbn [url_decode] in *; cbn [List.length] in *; [lia|lia|].
  destruct (c =? 37); cbn [List.length]; [|lia]. assert (List.length (url_decode u) <= List.length u)%nat by (apply IH; cbn in Hs; lia). lia.
Qed.

Lemma until_nul_len s : (List.length (until_nul s) <= List.length s)%nat.
Proof. induction s as [|c s IH]; cbn [until_nul]; [done|]. destruct (c =? 0); cbn [List.length]; lia. Qed.

Lemma query_get_len qs key cap v : (0 < cap)%nat -> query_get qs key cap = Some v -> (List.length v < cap)%nat.
Proof.
  intros Hc. unfold query_get. generalize (S (List.length qs)) as n. intros n. revert qs.
  induction n as [|n IH]; intros qs; [done|]. cbn [query_get_loop]. destruct qs as [|c0 q0]; [done|].
  destruct (match strchr 38 (c0 :: q0) with Some (a, b) => (a, b) | None => (c0 :: q0, []) end) as [seg rest].
  destruct (query_value key seg cap) as [v'|] eqn:E; [|apply IH]. intros [= <-]. revert E. unfold query_value. destruct (_ && _); [|done].
  intros [= <-]. unfold url_decode_inplace. set (d := take (cap - 1) _).
  pose proof (until_nul_len (url_decode d)). pose proof (url_decode_len (List.length d) d ltac:(lia)).
  assert (List.length d <= cap - 1)%nat by (unfold d; rewrite length_take; lia). lia.
Qed.

(** The store is only ever asked for a bounded number of rows: what a request
    is answered depends on no other query. *)
Lemma queries_bounded db db' page {C F : Type} `{ops : PfbOps C F} rotation sha256 evp_decode_block resolve_host_ipv4 o token k fd req
    (w : world (C := C) (F := F)) :
  (forall c, call_bounded c -> db c = db' c) ->
  route db page rotation sha256 evp_decode_block resolve_host_ipv4 o token k fd req w =
  route db' page rotation sha256 evp_decode_block resolve_host_ipv4 o token k fd req w.
Proof.
  intros H. unfold route.
  assert (H1 : handle_api_messages db fd req = handle_api_messages db' fd req).
  { unfold handle_api_messages. cbn zeta. destruct (Z.ltb_spec (match query_get (query_string 512 req) (str "channel") 32 with Some v => strtol0 v | None => -1 end) 0); [done|].
    rewrite H; [done|]. split; [apply wrap_range; lia|apply limit_bounded; done]. }
  assert (H2 : handle_api_node_history db fd req = handle_api_node_history db' fd req).
  { unfold handle_api_node_history. cbn zeta. destruct (query_get _ (str "id") 32) as [id|] eqn:E; [|done]. change (default [] (Some id)) with id.
    apply query_get_len in E; [|lia]. destruct id as [|c t]; [done|]. rewrite H; [done|]. split; [done|]. split; [done|]. apply limit_bounded. done. }
  assert (H3 : handle_api_telemetry db fd req = handle_api_telemetry db' fd req).
  { unfold handle_api_telemetry. rewrite H; [done|]. apply limit_bounded. done. }
  assert (H4 : handle_api_topology db fd req = handle_api_topology db' fd req).
  { unfold handle_api_topology. rewrite H; [done|]. apply limit_bounded. done. }
  assert (H5 : handle_api_nodes db fd = handle_api_nodes db' fd) by (unfold handle_api_nodes; by rewrite (H QNodes I), (H QPositions I)).
  assert (H6 : handle_api_meshcore_channels db fd = handle_api_meshcore_channels db' fd) by (unfold handle_api_meshcore_channels; by rewrite (H QChannelNames I)).
  assert (H7 : handle_api_stats db (kn_now k) fd req = handle_api_stats db' (kn_now k) fd req).
  { unfold handle_api_stats. cbn zeta. set (t := f64_sub _ _). by rewrite (H (QStatsByType t) I), (H (QStatsByChannel t) I), (H (QStatsCrc t) I). }
  rewrite H1, H2, H3, H4, H5, H6, H7. reflexivity.
Qed.

(** ** Examples *)

Definition secret : list Z := str "s3cret".
Definition serve_demo (req : list Z) : outcome (C := Z) (F := Z) :=
  route (ops := z_pfb) (fun _ => None) [] z_rotation pad_hash (fun _ => None) (fun _ => None) eu_options (Some secret)
    (mk_kernel (0, 0) (fun _ _ => 0%nat) (fun _ _ => true)) 5 req (mk_world idle_system hub_init).

Definition auth_line : list Z := crlf (str "Authorization: Bearer s3cret").
Definition keys_request (headers : list Z) : list Z := crlf (str "POST /api/keys HTTP/1.1") ++ headers ++ CRLF ++ str "Club=simple2".

Definition key_count (x : outcome (C := Z) (F := Z)) : option nat :=
  (fun ks => List.length (Keyset.ks_entries ks)) <$> sy_keys (wd_sys (fst (fst x))).


(** The token is not seen when its header is the last one. *)
Theorem last_header_token_ignored :
  key_count (serve_demo (keys_request (auth_line ++ crlf (str "Host: x")))) = Some 1%nat /\
  serve_demo (keys_request (crlf (str "Host: x") ++ auth_line)) =
    (mk_world idle_system hub_init, send_response 5 401 UNAUTHORIZED ++ [Closed 5], []).
Proof. split; vm_compute; reflexivity. Qed.

(** The parameters of a request without any are taken from a '?' of a header:
    here the channel comes from the Referer. *)
Theorem referer_is_query :
  query_get (query_string 512 (crlf (str "GET /api/messages HTTP/1.1") ++ crlf (str "Referer: http://x/?channel=17") ++ CRLF)) (str "channel") 32
  = Some (str "17").
Proof. vm_compute. reflexivity. Qed.
