(* ===== verification/Scanner.v ===== *)
(** The off-grid scanner (src/scanner.c): framing of the sample stream, the
    rolling power spectrum, the noise floor, the peak detector, the table of
    discoveries and the reports.

    Powers are floats in the source's arithmetic; the transform (FFTW) and
    log10f are parameters.  The times kept with a discovery are never read
    and left out. *)

From stdpp Require Import sorting.
From S2P Require Import Prelude CFloat Feed Focused.

Local Open Scope Z_scope.

Definition KNOWN_GRID_MAX : nat := 256.
Definition DISCOVERY_LIMIT : nat := 64.

(** [a + b] and [a - b] on float, and its literals. *)
Definition f32_add : spec_float -> spec_float -> spec_float := SFadd 24 128.
Definition f32_sub : spec_float -> spec_float -> spec_float := SFsub 24 128.
Definition f32_alpha : spec_float := S754_finite false 13421773 (-28).       (* 0.05f *)
Definition f32_tenth : spec_float := S754_finite false 13421773 (-27).       (* 0.1f *)
Definition f32_floor : spec_float := S754_finite false 9223372 (-63).        (* 1e-12f *)
Definition f32_gt (a b : spec_float) : bool := SFltb b a.

(** ** Shell sort *)

Section Sort.
Context {A : Type} (gt : A -> A -> bool) (d : A).

(** The while loop: the element [t] moves down from [j] in steps of [gap]. *)
Fixpoint sift (fuel gap : nat) (t : A) (j : nat) (l : list A) : list A :=
  match fuel with
  | O => <[j := t]> l
  | S fuel =>
      if (gap <=? j)%nat && gt (nth (j - gap) l d) t
      then sift fuel gap t (j - gap) (<[j := nth (j - gap) l d]> l)
      else <[j := t]> l
  end.

Definition shell_pass (gap : nat) (l : list A) : list A :=
  fold_left (fun l i => sift i gap (nth i l d) i l) (seq gap (List.length l - gap)) l.

Fixpoint gaps (fuel gap : nat) : list nat :=
  match fuel with
  | O => []
  | S fuel => if (gap =? 0)%nat then [] else gap :: gaps fuel (gap / 2)
  end.

Definition shell_sort (l : list A) : list A :=
  fold_left (fun l gap => shell_pass gap l) (gaps (List.length l) (List.length l / 2)) l.
End Sort.

(** ** The scanner *)

Definition sample := (spec_float * spec_float)%type.
Definition no_sample : sample := (f_zero, f_zero).

Record discovery := mk_discovery { ds_f_hz : Z; ds_hits : Z }.

(** A report: carrier, SNR and estimated bandwidth. *)
Record report := mk_report { rp_f_hz : Z; rp_snr_db : spec_float; rp_bw_hz : spec_float }.

Record scanner := mk_scanner {
  sn_center : Z;
  sn_samp_rate : Z;
  sn_fft_size : nat;
  sn_in : list sample;             (* fft_in up to input_count *)
  sn_power : list spec_float;      (* power_avg *)
  sn_until_emit : Z;
  sn_frame_counter : Z;
  sn_grid : list (Z * Z);
  sn_discoveries : list discovery;
}.

Definition scanner_create (f_center samp_rate fft_size : Z) : option scanner :=
  if (fft_size <? 64) || (16384 <? fft_size) then None
  else Some (mk_scanner f_center samp_rate (Z.to_nat fft_size) [] (replicate (Z.to_nat fft_size) f_zero)
               (Z.max 1 (samp_rate / fft_size / 4)) 0 [] []).

(** The arrays hold [n] entries. *)
Definition scanner_set_known_grid (s : scanner) (chans : list (Z * Z)) : scanner :=
  s {{ sn_grid := take KNOWN_GRID_MAX chans }}.

(** The spectrum with DC in the middle. *)
Definition scanner_snapshot (s : scanner) (max : Z) : option (list spec_float) :=
  let N := sn_fft_size s in
  if max <? Z.of_nat N then None
  else Some (map (fun i => nth ((i + N / 2) mod N) (sn_power s) f_zero) (seq 0 N)).

Definition bin_to_freq_offset_hz (s : scanner) (bin : Z) : Z :=
  let N := Z.of_nat (sn_fft_size s) in
  let idx := if N / 2 <=? bin then bin - N else bin in
  f64_trunc (f64_div (f64_mul (f64_of_Z idx) (f64_of_Z (sn_samp_rate s))) (f64_of_Z N)).

Definition in_channel (f_hz : Z) (c : Z * Z) : bool :=
  let half := u64 (Z.quot (snd c) 2) in
  (u64 (fst c - half) <=? f_hz) && (f_hz <=? u64 (fst c + half)).

Definition freq_in_known_grid (s : scanner) (f_hz : Z) : bool := existsb (in_channel f_hz) (sn_grid s).

Definition near (f_hz : Z) (d : discovery) : bool := Z.abs (i64 f_hz - i64 (ds_f_hz d)) <? 50000.

Fixpoint discovery_index (f_hz : Z) (l : list discovery) : option nat :=
  match l with
  | [] => None
  | d :: t => if near f_hz d then Some O else option_map S (discovery_index f_hz t)
  end.

(** The index and the table, or [None] when it is full. *)
Definition discovery_get_or_make (l : list discovery) (f_hz : Z) : option (nat * list discovery) :=
  match discovery_index f_hz l with
  | Some i => Some (i, l)
  | None => if (DISCOVERY_LIMIT <=? List.length l)%nat then None else Some (List.length l, l ++ [mk_discovery f_hz 0])
  end.

(** ** Peaks *)

Definition power_at (p : list spec_float) (k : Z) : spec_float := nth (Z.to_nat k) p f_zero.

Definition noise_samples (s : scanner) : list spec_float :=
  let N := sn_fft_size s in
  let n_samp := Nat.min N 1024 in
  map (fun i => nth (i * (N / n_samp)) (sn_power s) f_zero) (seq 0 n_samp).

Definition noise_floor (s : scanner) : spec_float :=
  let local := shell_sort f32_gt f_zero (noise_samples s) in
  let noise := nth (List.length local / 4) local f_zero in
  if SFltb noise f32_floor then f32_floor else noise.

Definition wrap_bin (N kk : Z) : Z :=
  let kk := if kk <? 0 then kk + N else kk in if N <=? kk then kk - N else kk.

Definition local_maximum (p : list spec_float) (N k : Z) : bool :=
  forallb (fun j => negb (SFleb (power_at p k) (power_at p (wrap_bin N (k + j))))) [-2; -1; 1; 2].

(** The bins on one side, [n] at most, before the power falls under the
    skirt. *)
Fixpoint skirt_width (n : nat) (p : list spec_float) (N k dir j : Z) (skirt : spec_float) : Z :=
  match n with
  | O => j - 1
  | S n => if SFltb (power_at p (wrap_bin N (k + dir * j))) skirt then j - 1 else skirt_width n p N k dir (j + 1) skirt
  end.

Section Scan.
Context (fft : list sample -> list sample) (log10f : spec_float -> spec_float).

Definition bw_estimate (s : scanner) (k : Z) : spec_float :=
  let N := Z.of_nat (sn_fft_size s) in
  let bin_hz := f32_of_f64 (f64_div (f64_of_Z (sn_samp_rate s)) (f64_of_Z N)) in
  let skirt := f32_mul (power_at (sn_power s) k) f32_tenth in
  let n := (sn_fft_size s / 4)%nat in
  f32_mul (f32_of_Z (skirt_width n (sn_power s) N k (-1) 1 skirt + skirt_width n (sn_power s) N k 1 1 skirt + 1)) bin_hz.

Definition peak_f_hz (s : scanner) (k : Z) : Z := u64 (sn_center s + bin_to_freq_offset_hz s k).

(** A peak: strong enough, outside the skipped region, a local maximum. *)
Definition is_peak (s : scanner) (noise : spec_float) (k : Z) : bool :=
  let N := Z.of_nat (sn_fft_size s) in
  negb (SFltb (power_at (sn_power s) k) (f32_mul noise (f32_of_Z 10))) &&
  negb (Z.abs (k - N / 2) <? 8) && local_maximum (sn_power s) N k.

(** One bin of the detector; the callback is set. *)
Definition peak_bin (noise : spec_float) (st : scanner * list report) (k : Z) : scanner * list report :=
  let '(s, out) := st in
  if negb (is_peak s noise k) then st
  else
    let f_hz := peak_f_hz s k in
    if freq_in_known_grid s f_hz then st
    else match discovery_get_or_make (sn_discoveries s) f_hz with
         | None => st
         | Some (i, ds) =>
             let d := nth i ds (mk_discovery 0 0) in
             let d := d {{ ds_hits := u32 (ds_hits d + 1) }} in
             let s := s {{ sn_discoveries := <[i := d]> ds }} in
             if ds_hits d =? 3 then
               let bw := bw_estimate s k in
               if SFltb bw (f32_of_Z 50000) then (s, out)
               else (s, out ++ [mk_report (ds_f_hz d) (f32_mul (f32_of_Z 10) (log10f (f32_div (power_at (sn_power s) k) noise))) bw])
             else (s, out)
         end.

Definition run_peakfind (s : scanner) : scanner * list report :=
  fold_left (peak_bin (noise_floor s)) (map Z.of_nat (seq 0 (sn_fft_size s))) (s, []).

Definition bin_power (c : sample) : spec_float := f32_add (f32_mul (fst c) (fst c)) (f32_mul (snd c) (snd c)).

Definition ewma (avg inst : spec_float) : spec_float :=
  f32_add (f32_mul (f32_sub (f32_of_Z 1) f32_alpha) avg) (f32_mul f32_alpha inst).

Definition process_frame (s : scanner) : scanner * list report :=
  let out := fft (sn_in s) in
  let s := s {{ sn_power := imap (fun k avg => ewma avg (bin_power (nth k out no_sample))) (sn_power s) }} in
  let s := s {{ sn_frame_counter := sn_frame_counter s + 1 }} in
  if sn_until_emit s <=? sn_frame_counter s then run_peakfind (s {{ sn_frame_counter := 0 }}) else (s, []).

Definition feed_one (st : scanner * list report) (x : sample) : scanner * list report :=
  let '(s, out) := st in
  let s := s {{ sn_in := sn_in s ++ [x] }} in
  if (List.length (sn_in s) =? sn_fft_size s)%nat then
    let '(s, new) := process_frame s in (s {{ sn_in := [] }}, out ++ new)
  else (s, out).

Definition scanner_feed_float (s : scanner) (iq : list sample) : scanner * list report := fold_left feed_one iq (s, []).

(** [x * (1.0f / 127.0f)]. *)
Definition int8_sample (p : Z * Z) : sample :=
  let scale := f32_div (f32_of_Z 1) (f32_of_Z 127) in
  (f32_mul (f32_of_Z (fst p)) scale, f32_mul (f32_of_Z (snd p)) scale).

Definition scanner_feed_int8 (s : scanner) (iq : list (Z * Z)) : scanner * list report :=
  scanner_feed_float s (map int8_sample iq).
End Scan.

(** Correctness of the scanner: its shell sort, and what it reports. *)

(** ** The shell sort sorts *)

Section SortFacts.
Context {A : Type} (gt : A -> A -> bool) (d : A) (P : A -> Prop).
Abbreviation le := (fun a b => gt a b = false).
Hypothesis gt_asym : forall a b, P a -> P b -> gt a b = true -> gt b a = false.
Hypothesis le_trans : forall a b c, P a -> P b -> P c -> gt a b = false -> gt b c = false -> gt a c = false.

Lemma sift_perm fuel gap t : (1 <= gap)%nat -> forall j l, (j < length l)%nat -> sift gt d fuel gap t j l ≡ₚ <[j := t]> l.
Proof.
  intros Hg. induction fuel as [|fuel IH]; intros j l Hj; cbn [sift]; [done|].
  destruct (Nat.leb_spec gap j) as [Hgj|]; cbn [andb]; [|done]. destruct (gt _ t); [|done].
  rewrite IH by (rewrite length_insert; lia).
  destruct (nth_lookup_or_length l (j - gap) d) as [Ha|]; [|lia].
  set (a := nth (j - gap) l d) in *. rewrite <- (list_insert_insert_eq l j a t) at 1.
  apply Permutation_insert_swap; [by apply list_lookup_insert_eq|]. rewrite list_lookup_insert_ne by lia. exact Ha.
Qed.

Lemma pass_perm gap m : (1 <= gap)%nat -> forall i l, (i + m <= length l)%nat ->
  fold_left (fun l i => sift gt d i gap (nth i l d) i l) (seq i m) l ≡ₚ l.
Proof.
  intros Hg. induction m as [|m IH]; intros i l Hl; [done|]. cbn [seq fold_left].
  assert (E : sift gt d i gap (nth i l d) i l ≡ₚ l).
  { rewrite sift_perm by lia. destruct (nth_lookup_or_length l i d) as [Ha|]; [|lia]. by rewrite list_insert_id. }
  rewrite IH by (rewrite (Permutation_length E); lia). exact E.
Qed.

Lemma shell_pass_perm gap l : (1 <= gap)%nat -> shell_pass gt d gap l ≡ₚ l.
Proof.
  intros Hg. unfold shell_pass. destruct (Nat.le_gt_cases gap (length l)); [apply pass_perm; lia|].
  replace (length l - gap)%nat with 0%nat by lia. done.
Qed.

(** Insertion from the right end. *)
Definition ins (t : A) (p : list A) : list A :=
  rev ((fix go q := match q with [] => [t] | y :: q' => if gt y t then y :: go q' else t :: y :: q' end) (rev p)).

Lemma ins_snoc t p y : ins t (p ++ [y]) = if gt y t then ins t p ++ [y] else p ++ [y; t].
Proof.
  unfold ins. rewrite rev_app_distr. cbn [rev app]. destruct (gt y t); cbn [rev]; [done|]. rewrite rev_involutive. by rewrite <- app_assoc.
Qed.

Lemma sift_one t p : forall x rest, sift gt d (length p) 1 t (length p) (p ++ x :: rest) = ins t p ++ rest.
Proof.
  induction p as [|y p IH] using rev_ind; intros x rest; [done|]. rewrite length_app, Nat.add_1_r. cbn [sift length].
  replace (S (length p) - 1)%nat with (length p) by lia. rewrite <- app_assoc. cbn [app].
  rewrite (app_nth2 p), Nat.sub_diag by lia. cbn [nth Nat.leb andb]. rewrite ins_snoc.
  assert (E : forall z, <[S (length p) := z]> (p ++ y :: x :: rest) = p ++ y :: z :: rest).
  { intros z. rewrite insert_app_r_alt by lia. by replace (S (length p) - length p)%nat with 1%nat by lia. }
  destruct (gt y t).
  - rewrite E, IH. by rewrite <- app_assoc.
  - rewrite E. by rewrite <- app_assoc.
Qed.

Lemma ins_perm t p : ins t p ≡ₚ t :: p.
Proof.
  induction p as [|y p IH] using rev_ind; [done|]. rewrite ins_snoc. destruct (gt y t).
  - rewrite IH. done.
  - rewrite Permutation_app_comm. cbn [app]. rewrite (Permutation_app_comm p). cbn [app]. apply perm_swap.
Qed.

Lemma ins_sorted t p : P t -> Forall P p -> StronglySorted le p -> StronglySorted le (ins t p).
Proof.
  intros Ht. induction p as [|y p IH] using rev_ind; intros Hp Hs; [repeat constructor|].
  apply Forall_app in Hp as [Hp Hy]. apply Forall_cons in Hy as [Hy _]. apply StronglySorted_app in Hs as (Hxy & Hs & _).
  rewrite ins_snoc. destruct (gt y t) eqn:E.
  - apply StronglySorted_app. split; [|split; [by apply IH|repeat constructor]].
    intros a b Ha Hb. apply list_elem_of_singleton in Hb as ->. rewrite ins_perm in Ha. apply elem_of_cons in Ha as [->|Ha].
    + by apply (gt_asym y t).
    + apply Hxy; [done|]. by apply list_elem_of_singleton.
  - apply StronglySorted_app. split; [|split; [done|repeat constructor; done]].
    intros a b Ha Hb. assert (Hay : gt a y = false) by (apply Hxy; [done|by apply list_elem_of_singleton]).
    apply elem_of_cons in Hb as [->|Hb]; [done|]. apply list_elem_of_singleton in Hb as ->.
    apply (le_trans a y t); [|done|done|done|done]. rewrite Forall_forall in Hp. by apply Hp.
Qed.

Lemma insertion_sorts m : forall p rest, length rest = m -> Forall P (p ++ rest) -> StronglySorted le p ->
  StronglySorted le (fold_left (fun l i => sift gt d i 1 (nth i l d) i l) (seq (length p) m) (p ++ rest)).
Proof.
  induction m as [|m IH]; intros p rest Hl HP Hs.
  - destruct rest; [by rewrite app_nil_r|done].
  - destruct rest as [|x rest]; [done|]. cbn [seq fold_left]. rewrite app_nth2, Nat.sub_diag by lia. cbn [nth]. rewrite sift_one.
    assert (El : length (ins x p) = S (length p)) by (by rewrite ins_perm). rewrite <- El.
    apply Forall_app in HP as [Hp HP]. apply Forall_cons in HP as [Hx HP]. apply IH.
    + injection Hl as ->. done.
    + apply Forall_app. split; [|done]. rewrite ins_perm. by apply Forall_cons_2.
    + by apply ins_sorted.
Qed.

Lemma shell_pass_one l : Forall P l -> StronglySorted le (shell_pass gt d 1 l).
Proof.
  intros HP. destruct l as [|x l]; [constructor|]. unfold shell_pass.
  apply (insertion_sorts (length (x :: l) - 1) [x] l); [cbn; lia|done|repeat constructor].
Qed.

(** The gaps are positive and end with one. *)
Lemma gaps_last fuel : forall g, (1 <= g <= fuel)%nat -> exists pre, gaps fuel g = pre ++ [1%nat] /\ Forall (fun g => 1 <= g)%nat pre.
Proof.
  induction fuel as [|fuel IH]; intros g Hg; [lia|]. cbn [gaps]. destruct (Nat.eqb_spec g 0); [lia|].
  destruct (decide (g = 1%nat)) as [->|Hne].
  - exists []. change (1 / 2)%nat with 0%nat. split; [|apply Forall_nil_2]. by destruct fuel.
  - assert (g / 2 < g)%nat by (apply Nat.div_lt; lia). assert (1 <= g / 2)%nat by (apply Nat.div_le_lower_bound; lia).
    destruct (IH (g / 2)%nat ltac:(lia)) as (pre & -> & Hp). exists (g :: pre). split; [done|]. apply Forall_cons_2; [lia|done].
Qed.

Lemma passes_perm gs : Forall (fun g => 1 <= g)%nat gs -> forall l, fold_left (fun l gap => shell_pass gt d gap l) gs l ≡ₚ l.
Proof. induction 1 as [|g gs Hg _ IH]; intros l; [done|]. cbn [fold_left]. rewrite IH. by apply shell_pass_perm. Qed.

Lemma shell_sort_sorts l : Forall P l -> StronglySorted le (shell_sort gt d l) /\ shell_sort gt d l ≡ₚ l.
Proof.
  intros HP. unfold shell_sort. destruct (Nat.le_gt_cases (length l) 1) as [Hs|Hs].
  - rewrite Nat.div_small by lia. assert (E : gaps (length l) 0 = []) by (by destruct (length l)). rewrite E. cbn [fold_left]. split; [|done].
    destruct l as [|x [|y l]]; [constructor|repeat constructor|cbn in Hs; lia].
  - assert (1 <= length l / 2)%nat by (apply Nat.div_le_lower_bound; lia). assert (length l / 2 < length l)%nat by (apply Nat.div_lt; lia).
    destruct (gaps_last (length l) (length l / 2) ltac:(lia)) as (pre & -> & Hp). rewrite fold_left_app. cbn [fold_left].
    pose proof (passes_perm pre Hp l) as E. set (l' := fold_left _ pre l) in *. split.
    + apply shell_pass_one. by rewrite E.
    + rewrite shell_pass_perm by lia. exact E.
Qed.
End SortFacts.

(** ** Floats are ordered *)

Definition fkey (x : spec_float) : Z * Z * Z :=
  match x with
  | S754_zero _ | S754_nan => (0, 0, 0)
  | S754_infinity s => (if s then -2 else 2, 0, 0)
  | S754_finite s m e => if s then (-1, - e, Zneg m) else (1, e, Zpos m)
  end.

Definition key_lt (a b : Z * Z * Z) : Prop :=
  fst (fst a) < fst (fst b) \/ fst (fst a) = fst (fst b) /\ (snd (fst a) < snd (fst b) \/ snd (fst a) = snd (fst b) /\ snd a < snd b).

Definition is_number (x : spec_float) : Prop := x <> S754_nan.

Lemma ltb_key x y : is_number x -> is_number y -> SFltb x y = true <-> key_lt (fkey x) (fkey y).
Proof.
  unfold SFltb, SFcompare, key_lt. intros Hx Hy.
  destruct x as [sx|sx| |sx mx ex]; [..|done|]; destruct y as [sy|sy| |sy my ey]; try done; destruct sx, sy; cbn [fkey fst snd];
    try (split; [done || lia|lia || done]).
  all: destruct (Z.compare_spec ex ey); [subst ey; try (change (Pos.compare_cont Eq mx my) with (mx ?= my)%positive; destruct (Pos.compare_spec mx my)); cbn [CompOpp]|..];
    (split; [done || lia|lia || done]).
Qed.

Lemma f32_gt_asym a b : is_number a -> is_number b -> f32_gt a b = true -> f32_gt b a = false.
Proof.
  unfold f32_gt. intros Ha Hb H. apply not_true_iff_false. rewrite ltb_key in * by done. unfold key_lt in *. lia.
Qed.

Lemma f32_le_trans a b c : is_number a -> is_number b -> is_number c -> f32_gt a b = false -> f32_gt b c = false -> f32_gt a c = false.
Proof.
  unfold f32_gt. intros Ha Hb Hc. rewrite <- !not_true_iff_false, !ltb_key by done. unfold key_lt. lia.
Qed.

(** ** The noise floor *)

Definition at_most (a b : spec_float) : Prop := f32_gt a b = false.

(** The noise floor is the lower quartile.  While no power is NaN, the
    shell sort of run_peakfind arranges the sampled bins in increasing order,
    so the noise is the element of rank n/4 among them, raised to 1e-12 if it
    is below; the samples are bins of the spectrum, spread over all of it. *)
Theorem noise_floor_is_quartile s :
  (64 <= sn_fft_size s)%nat -> length (sn_power s) = sn_fft_size s -> Forall is_number (sn_power s) ->
  exists sorted, sorted ≡ₚ noise_samples s /\ StronglySorted at_most sorted /\
    length (noise_samples s) = Nat.min (sn_fft_size s) 1024 /\ Forall (fun x => x ∈ sn_power s) (noise_samples s) /\
    exists q, sorted !! (Nat.min (sn_fft_size s) 1024 / 4)%nat = Some q /\
      noise_floor s = if SFltb q f32_floor then f32_floor else q.
Proof.
  intros HN Hl Hp. set (n := Nat.min (sn_fft_size s) 1024).
  assert (Hin : Forall (fun x => x ∈ sn_power s) (noise_samples s)).
  { unfold noise_samples. fold n. apply Forall_forall. intros x Hx. apply list_elem_of_fmap in Hx as (i & -> & Hi).
    apply elem_of_seq in Hi. destruct (nth_lookup_or_length (sn_power s) (i * (sn_fft_size s / n)) f_zero) as [E|E].
    - by apply list_elem_of_lookup_2 in E.
    - assert (n * (sn_fft_size s / n) <= sn_fft_size s)%nat by (apply Nat.Div0.mul_div_le).
      assert (1 <= sn_fft_size s / n)%nat by (apply Nat.div_le_lower_bound; lia). nia. }
  assert (Hnum : Forall is_number (noise_samples s)).
  { rewrite Forall_forall in Hp. eapply Forall_impl; [exact Hin|]. intros x Hx. by apply Hp. }
  assert (Hlen : length (noise_samples s) = n) by (unfold noise_samples; fold n; rewrite length_map, length_seq; done).
  destruct (shell_sort_sorts f32_gt f_zero is_number f32_gt_asym f32_le_trans (noise_samples s) Hnum) as [Hs Hperm].
  exists (shell_sort f32_gt f_zero (noise_samples s)). split; [done|]. split; [done|]. split; [done|]. split; [done|].
  assert (Hl2 : length (shell_sort f32_gt f_zero (noise_samples s)) = n) by (by rewrite Hperm).
  destruct (nth_lookup_or_length (shell_sort f32_gt f_zero (noise_samples s)) (n / 4) f_zero) as [E|E].
  - eexists. split; [exact E|]. unfold noise_floor. by rewrite Hl2.
  - rewrite Hl2 in E. assert (n / 4 < n)%nat by (apply Nat.div_lt; lia). lia.
Qed.

(** ** Reports *)

Definition apart (f g : Z) : Prop := 50000 <= Z.abs (i64 f - i64 g).

Lemma apart_sym f g : apart f g -> apart g f.
Proof. unfold apart. lia. Qed.

(** The carriers of the table. *)
Definition carriers (s : scanner) : list Z := map ds_f_hz (sn_discoveries s).

Record table_ok (s : scanner) : Prop := {
  tb_bounded : (length (carriers s) <= DISCOVERY_LIMIT)%nat;
  tb_apart : forall i j f g, carriers s !! i = Some f -> carriers s !! j = Some g -> i <> j -> apart f g;
  tb_off_grid : Forall (fun f => freq_in_known_grid s f = false) (carriers s);
}.

Definition report_ok (s : scanner) (r : report) : Prop := rp_f_hz r ∈ carriers s /\ SFltb (rp_bw_hz r) (f32_of_Z 50000) = false.

Record reports_ok (st : scanner * list report) : Prop := {
  ro_table : table_ok (fst st);
  ro_reports : Forall (report_ok (fst st)) (snd st);
}.

Lemma discovery_index_none f l : discovery_index f l = None -> Forall (fun g => apart f g) (map ds_f_hz l).
Proof.
  induction l as [|d l IH]; [intros _; apply Forall_nil_2|]. cbn [discovery_index map]. unfold near at 1.
  destruct (Z.ltb_spec (Z.abs (i64 f - i64 (ds_f_hz d))) 50000); [done|]. destruct (discovery_index f l); [done|]. intros _.
  apply Forall_cons_2; [done|]. by apply IH.
Qed.

Lemma discovery_index_some f l i : discovery_index f l = Some i -> (i < length l)%nat.
Proof.
  revert i. induction l as [|d l IH]; [done|]. intros i. cbn [discovery_index length]. destruct (near f d); [intros [= <-]; lia|].
  destruct (discovery_index f l) as [j|]; [|done]. intros [= <-]. specialize (IH j eq_refl). lia.
Qed.

(** The table after an entry was counted: the same carriers, or one more. *)
Lemma get_or_make_spec l f i l' : (length l <= DISCOVERY_LIMIT)%nat -> discovery_get_or_make l f = Some (i, l') ->
  (i < length l')%nat /\ (length l' <= DISCOVERY_LIMIT)%nat /\
  (l' = l \/ map ds_f_hz l' = map ds_f_hz l ++ [f] /\ Forall (fun g => apart f g) (map ds_f_hz l)).
Proof.
  intros Hl. unfold discovery_get_or_make. destruct (discovery_index f l) as [j|] eqn:E.
  - intros [= <- <-]. split; [by apply discovery_index_some in E|]. split; [done|]. by left.
  - destruct (Nat.leb_spec DISCOVERY_LIMIT (length l)) as [|Hlt]; [done|]. intros [= <- <-]. rewrite length_app. cbn [length].
    split; [lia|]. split; [lia|]. right. split; [by rewrite map_app|by apply discovery_index_none].
Qed.

Lemma apart_snoc l f : (forall i j a b, l !! i = Some a -> l !! j = Some b -> i <> j -> apart a b) -> Forall (fun g => apart f g) l ->
  forall i j a b, (l ++ [f]) !! i = Some a -> (l ++ [f]) !! j = Some b -> i <> j -> apart a b.
Proof.
  intros Hl Hf i j a b Hi Hj Hne. rewrite Forall_forall in Hf. apply lookup_app_Some in Hi as [Hi|[Hi1 Hi]], Hj as [Hj|[Hj1 Hj]].
  - by apply (Hl i j).
  - apply list_lookup_singleton_Some in Hj as [_ <-]. apply apart_sym, Hf. by apply list_elem_of_lookup_2 in Hi.
  - apply list_lookup_singleton_Some in Hi as [_ <-]. apply Hf. by apply list_elem_of_lookup_2 in Hj.
  - apply list_lookup_singleton_Some in Hi as [Hi _], Hj as [Hj _]. lia.
Qed.

Lemma map_insert_hits l i d : l !! i = Some d -> forall h, map ds_f_hz (<[i := d {{ ds_hits := h }}]> l) = map ds_f_hz l.
Proof.
  intros Hd h. change (map ds_f_hz) with (fmap (M := list) ds_f_hz). rewrite list_fmap_insert. apply list_insert_id.
  rewrite list_lookup_fmap, Hd. done.
Qed.

Section Reports.
Context (fft : list sample -> list sample) (log10f : spec_float -> spec_float).

Lemma table_grow s s' f : table_ok s -> sn_grid s' = sn_grid s -> freq_in_known_grid s f = false -> (length (carriers s') <= DISCOVERY_LIMIT)%nat ->
  (carriers s' = carriers s \/ carriers s' = carriers s ++ [f] /\ Forall (fun g => apart f g) (carriers s)) ->
  table_ok s' /\ forall x, x ∈ carriers s -> x ∈ carriers s'.
Proof.
  intros [H1 H2 H3] Eg Hf Hl Hc.
  assert (Hg : forall x, freq_in_known_grid s' x = freq_in_known_grid s x) by (intros x; unfold freq_in_known_grid; by rewrite Eg).
  destruct Hc as [E|[E Ha]].
  - split; [|intros x; by rewrite E]. split; [done|by rewrite E|]. rewrite E. eapply Forall_impl; [exact H3|]. intros x Hx. by rewrite Hg.
  - split; [|intros x Hx; rewrite E; apply elem_of_app; by left]. split; [done| |].
    + rewrite E. by apply apart_snoc.
    + rewrite E. apply Forall_app. split; [eapply Forall_impl; [exact H3|]; intros x Hx; by rewrite Hg|].
      apply Forall_cons_2; [by rewrite Hg|apply Forall_nil_2].
Qed.

Lemma peak_bin_ok noise st k : reports_ok st ->
  reports_ok (peak_bin log10f noise st k) /\ sn_grid (fst (peak_bin log10f noise st k)) = sn_grid (fst st).
Proof.
  destruct st as [s out]. intros [Ht Hr]. cbn [fst snd] in *. unfold peak_bin. destruct (negb _); [by split|].
  set (f := peak_f_hz s k). clearbody f. destruct (freq_in_known_grid s f) eqn:Eg; [by split|].
  destruct (discovery_get_or_make _ _) as [[i ds]|] eqn:Ed; [|by split].
  assert (Hb : (length (sn_discoveries s) <= DISCOVERY_LIMIT)%nat) by (pose proof (tb_bounded s Ht) as H; unfold carriers in H; by rewrite length_map in H).
  destruct (get_or_make_spec _ _ _ _ Hb Ed) as (Hi & Hl & Hc).
  destruct (nth_lookup_or_length ds i (mk_discovery 0 0)) as [Hn|]; [|lia]. set (d := nth i ds _) in *. clearbody d.
  set (d' := d {{ ds_hits := _ }}). set (s' := s {{ sn_discoveries := <[i := d']> ds }}).
  assert (Ec : carriers s' = map ds_f_hz ds) by (unfold carriers, s'; rcbn; by apply map_insert_hits).
  destruct (table_grow s s' f Ht) as [Ht' Hk]; [done|done|by rewrite Ec, length_map| |].
  { rewrite Ec. unfold carriers. destruct Hc as [->|[-> ?]]; [by left|right; by split]. }
  assert (Hr' : Forall (report_ok s') out).
  { eapply Forall_impl; [exact Hr|]. intros r [H1 H2]. split; [by apply Hk|done]. }
  cbn zeta. destruct (_ =? 3); [|by split]. destruct (SFltb _ _) eqn:Eb; [by split|]. split; [|done]. split; cbn [fst snd]; [done|].
  apply Forall_app. split; [done|]. apply Forall_cons_2; [|apply Forall_nil_2]. split; cbn [rp_f_hz rp_bw_hz]; [|exact Eb].
  rewrite Ec. change (ds_f_hz d') with (ds_f_hz d). apply list_elem_of_fmap. exists d. split; [done|]. by apply list_elem_of_lookup_2 in Hn.
Qed.

Definition step_ok (st st' : scanner * list report) : Prop := reports_ok st -> reports_ok st' /\ sn_grid (fst st') = sn_grid (fst st).

Lemma step_ok_trans a b c : step_ok a b -> step_ok b c -> step_ok a c.
Proof. intros H1 H2 Ha. destruct (H1 Ha) as [Hb E1]. destruct (H2 Hb) as [Hc E2]. split; [done|congruence]. Qed.

Lemma fold_step_ok {X} (f : scanner * list report -> X -> scanner * list report) l : (forall st x, step_ok st (f st x)) ->
  forall st, step_ok st (fold_left f l st).
Proof. intros Hf. induction l as [|x l IH]; intros st; [by intros H|]. cbn [fold_left]. eapply step_ok_trans; [apply Hf|apply IH]. Qed.

(** Appending to the reports. *)
Lemma reports_app s out out' : reports_ok (s, out) -> reports_ok (s, out') -> reports_ok (s, out ++ out').
Proof. intros [H1 H2] [_ H3]. split; [done|]. cbn [fst snd] in *. apply Forall_app. by split. Qed.

(** The table alone matters, and it only grows. *)
Lemma peakfind_ok s : table_ok s -> reports_ok (run_peakfind log10f s) /\ sn_grid (fst (run_peakfind log10f s)) = sn_grid s.
Proof.
  intros Ht. unfold run_peakfind. apply (fold_step_ok _ _ (fun st x => peak_bin_ok (noise_floor s) st x) (s, [])). by split; [|apply Forall_nil_2].
Qed.

Lemma table_same s s' : sn_discoveries s' = sn_discoveries s -> sn_grid s' = sn_grid s -> table_ok s -> table_ok s'.
Proof.
  intros E1 E2 [H1 H2 H3]. assert (Ec : carriers s' = carriers s) by (unfold carriers; by rewrite E1).
  split; rewrite ?Ec; [done|done|]. eapply Forall_impl; [exact H3|]. intros f. unfold freq_in_known_grid. by rewrite E2.
Qed.

Lemma process_frame_ok s : table_ok s -> reports_ok (process_frame fft log10f s) /\ sn_grid (fst (process_frame fft log10f s)) = sn_grid s.
Proof.
  intros Ht. unfold process_frame. cbn zeta. destruct (_ <=? _).
  - match goal with |- context [run_peakfind _ ?x] => destruct (peakfind_ok x) as [H1 H2]; [by apply (table_same s)|] end.
    split; [exact H1|]. rewrite H2. done.
  - split; [|done]. split; [by apply (table_same s)|apply Forall_nil_2].
Qed.

Lemma peak_bin_carriers noise st k x : x ∈ carriers (fst st) -> x ∈ carriers (fst (peak_bin log10f noise st k)).
Proof.
  destruct st as [s out]. cbn [fst]. unfold peak_bin. intros Hx. destruct (negb _); [done|]. destruct (freq_in_known_grid _ _); [done|].
  destruct (discovery_get_or_make _ _) as [[i ds]|] eqn:Ed; [|done]. set (d := nth i ds _).
  assert (Hin : x ∈ map ds_f_hz ds /\ (i < length ds)%nat).
  { revert Ed. unfold discovery_get_or_make. destruct (discovery_index _ _) as [j|] eqn:E.
    - intros [= <- <-]. split; [done|]. by apply discovery_index_some in E.
    - destruct (_ <=? _)%nat; [done|]. intros [= <- <-]. rewrite map_app, length_app. split; [apply elem_of_app; by left|cbn; lia]. }
  destruct Hin as [Hin Hi]. destruct (nth_lookup_or_length ds i (mk_discovery 0 0)) as [Hn|]; [|lia].
  assert (E : forall h, x ∈ carriers (s {{ sn_discoveries := <[i := d {{ ds_hits := h }}]> ds }})).
  { intros h. unfold carriers. rcbn. rewrite (map_insert_hits ds i d Hn). exact Hin. }
  cbn zeta. destruct (_ =? 3); [destruct (SFltb _ _)|]; apply E.
Qed.

Lemma peakfind_carriers s x : x ∈ carriers s -> x ∈ carriers (fst (run_peakfind log10f s)).
Proof.
  unfold run_peakfind. set (noise := noise_floor s). clearbody noise. generalize (map Z.of_nat (seq 0 (sn_fft_size s))) as ks.
  intros ks Hx. change s with (fst (s, @nil report)) in Hx. revert Hx. generalize (s, @nil report) as st.
  induction ks as [|k ks IH]; intros st Hx; [done|]. cbn [fold_left]. by apply IH, peak_bin_carriers.
Qed.

Lemma process_frame_carriers s x : x ∈ carriers s -> x ∈ carriers (fst (process_frame fft log10f s)).
Proof. intros Hx. unfold process_frame. cbn zeta. destruct (_ <=? _); [|done]. by apply peakfind_carriers. Qed.

Lemma feed_one_ok st x : step_ok st (feed_one fft log10f st x).
Proof.
  destruct st as [s out]. intros [Ht Hr]. cbn [fst snd] in *. unfold feed_one.
  set (s1 := s {{ sn_in := sn_in s ++ [x] }}). assert (Ht1 : table_ok s1) by (by apply (table_same s)).
  destruct (_ =? _)%nat; [|split; [split; [done|exact Hr]|done]].
  destruct (process_frame_ok s1 Ht1) as [[H1 H2] H3]. pose proof (process_frame_carriers s1) as Hk.
  destruct (process_frame fft log10f s1) as [s2 new]. cbn [fst snd] in *.
  assert (Ht2 : table_ok (s2 {{ sn_in := [] }})) by (by apply (table_same s2)).
  split; [|exact H3]. split; cbn [fst snd]; [done|]. apply Forall_app. split; [|exact H2].
  eapply Forall_impl; [exact Hr|]. intros r [Ha Hb]. split; [|done]. apply (Hk (rp_f_hz r)). exact Ha.
Qed.

Lemma feed_from l : forall s out, fold_left (feed_one fft log10f) l (s, out) =
  let '(s', new) := scanner_feed_float fft log10f s l in (s', out ++ new).
Proof.
  unfold scanner_feed_float. induction l as [|x l IH]; intros s out; [cbn; by rewrite app_nil_r|]. cbn [fold_left].
  assert (E : feed_one fft log10f (s, out) x = let '(s', new) := feed_one fft log10f (s, []) x in (s', out ++ new)).
  { unfold feed_one. destruct (_ =? _)%nat; [|by rewrite app_nil_r]. by destruct (process_frame _ _ _). }
  rewrite E. destruct (feed_one fft log10f (s, []) x) as [s1 o1]. rewrite IH, (IH s1 o1).
  destruct (fold_left _ l (s1, [])) as [s2 o2]. by rewrite app_assoc.
Qed.

(** Buffers fed one after the other. *)
Fixpoint feeds (s : scanner) (chunks : list (list sample)) : scanner * list report :=
  match chunks with
  | [] => (s, [])
  | c :: t => let '(s, a) := scanner_feed_float fft log10f s c in let '(s, b) := feeds s t in (s, a ++ b)
  end.

Lemma feeds_concat chunks : forall s, feeds s chunks = scanner_feed_float fft log10f s (concat chunks).
Proof.
  induction chunks as [|c t IH]; intros s; [done|]. cbn [feeds concat]. unfold scanner_feed_float at 2. rewrite fold_left_app.
  fold (scanner_feed_float fft log10f s c). destruct (scanner_feed_float fft log10f s c) as [s1 a]. rewrite feed_from, IH. done.
Qed.
End Reports.


(** ** A scanner of 64 bins at 2 MS/s that looks for peaks at every frame *)

Definition demo_scanner : scanner := mk_scanner 869500000 2000000 64 [] (replicate 64 f_zero) 1 0 [] [].

(** Spectra given directly: bins with an amplitude. *)
Definition spectrum (bins : list (nat * Z)) : list sample :=
  map (fun k => match find (fun b => (fst b =? k)%nat) bins with Some b => (f32_of_Z (snd b), f_zero) | None => no_sample end) (seq 0 64).

Definition scan_demo (chans : list (Z * Z)) (frames : list (list sample)) : scanner * list report :=
  feeds id id (scanner_set_known_grid demo_scanner chans) frames.

Definition wide_peak (k : nat) : list sample := spectrum [(((k + 63) mod 64)%nat, 6); (k, 10); (S k, 8)].

Lemma noise_floor_is_quartile_witness :
  exists sorted q, sorted ≡ₚ noise_samples demo_scanner /\ sorted !! 16%nat = Some q /\ noise_floor demo_scanner = if SFltb q f32_floor then f32_floor else q.
Proof.
  destruct (noise_floor_is_quartile demo_scanner) as (sorted & H1 & _ & _ & _ & q & H2 & H3).
  - cbn. lia.
  - reflexivity.
  - apply Forall_replicate. discriminate.
  - exists sorted, q. split; [exact H1|]. split; [exact H2|exact H3].
Defined.


(** The region meant to hide the DC spike is the middle of the unshifted
    spectrum, its far edge: a peak at DC is reported as a carrier, and one at
    the edge of the band never is. *)
Theorem dc_region_at_band_edge :
  map rp_f_hz (snd (scan_demo [] (replicate 4 (wide_peak 0)))) = [869500000] /\
  snd (scan_demo [] (replicate 4 (wide_peak 30))) = [] /\
  peak_f_hz demo_scanner 30 = 870437500.
Proof. split; [|split]; vm_compute; reflexivity. Qed.

(** A carrier that looks narrow at its third sighting is never reported, also
    when it is wide later. *)
Theorem narrow_third_sighting_is_final :
  let narrow := spectrum [(10%nat, 10)] in
  snd (scan_demo [] (replicate 3 narrow ++ replicate 8 (wide_peak 10))) = [] /\
  map rp_f_hz (snd (scan_demo [] (replicate 3 (wide_peak 10)))) = [869812500].
Proof. split; vm_compute; reflexivity. Qed.

(** Channels after the 256th are not excluded. *)
Theorem grid_beyond_256_reported :
  map rp_f_hz (snd (scan_demo (replicate 256 (433500000, 250000) ++ [(869812500, 250000)]) (replicate 3 (wide_peak 10)))) = [869812500].
Proof. vm_compute. reflexivity. Qed.
