(* ===== verification/Cot.v ===== *)
(** Cursor-on-Target output (src/cot.c): XML escaping, the position and ATAK
    events and the datagrams sent for them; the endpoint is modelled in C2.

    [now] is the time of day in seconds and microseconds. *)

From Stdlib Require Import String.
From S2P Require Import Prelude CString CFloat MeshEvent MeshDecoders NodeDb Feed C2.

Local Open Scope string_scope.
Local Open Scope list_scope.
Local Open Scope Z_scope.

(** ** Escaping *)

Definition entity (c : Z) : option (list Z) :=
  if c =? 60 then Some (str "&lt;")
  else if c =? 62 then Some (str "&gt;")
  else if c =? 38 then Some (str "&amp;")
  else if c =? 34 then Some (str "&quot;")
  else if c =? 39 then Some (str "&apos;")
  else None.

(** The loop with [di] characters written of [dst_sz]. *)
Fixpoint escape_from (dst_sz di : nat) (src : list Z) : list Z :=
  match src with
  | [] => []
  | c :: t =>
      if (di + 1 <? dst_sz)%nat then
        match entity c with
        | Some ent => if (dst_sz <? di + List.length ent + 1)%nat then [] else ent ++ escape_from dst_sz (di + List.length ent) t
        | None => c :: escape_from dst_sz (di + 1) t
        end
      else []
  end.

Definition xml_escape (dst_sz : nat) (src : list Z) : list Z := escape_from dst_sz 0 src.

(** ** Parts of an event *)

Definition iso8601_now (now : Z * Z) (seconds_from_now : Z) : list Z :=
  let t := gmtime (fst now + seconds_from_now) in
  take 39 (fmt_0d 4 (tm_year t + 1900) ++ str "-" ++ fmt_0d 2 (tm_mon t + 1) ++ str "-" ++ fmt_0d 2 (tm_mday t) ++ str "T" ++
           fmt_0d 2 (tm_hour t) ++ str ":" ++ fmt_0d 2 (tm_min t) ++ str ":" ++ fmt_0d 2 (tm_sec t) ++ str "." ++
           fmt_0d 3 (snd now / 1000) ++ str "Z").

Definition cot_type_for_atak (a : mesh_atak) : list Z :=
  if ak_role a =? 4 then str "a-f-G-U-C-M"
  else if ak_role a =? 3 then str "a-f-G-U-C-I"
  else if ak_role a =? 2 then str "a-f-G-U-C-H"
  else str "a-f-G-U-C".

Definition attr (name : string) (v : list Z) : list Z := str " " ++ str name ++ str "=" ++ q v.

Definition XML_DECL : list Z := str "<?xml" ++ attr "version" (str "1.0") ++ attr "encoding" (str "UTF-8") ++ attr "standalone" (str "yes") ++ str "?>".

Definition event_open (uid type now stale : list Z) : list Z :=
  str "<event" ++ attr "version" (str "2.0") ++ attr "uid" uid ++ attr "type" type ++ attr "time" now ++ attr "start" now ++
  attr "stale" stale ++ attr "how" (str "m-g") ++ str ">".

Definition point (lat lon : spec_float) (hae : Z) (err : list Z) : list Z :=
  str "<point" ++ attr "lat" (fmt_f 7 lat) ++ attr "lon" (fmt_f 7 lon) ++ attr "hae" (fmt_d hae) ++ attr "ce" err ++ attr "le" err ++ str "/>".

Definition contact (callsign : list Z) : list Z := str "<contact" ++ attr "callsign" callsign ++ str "/>".
Definition group (name role : list Z) : list Z := str "<__group" ++ attr "name" name ++ attr "role" role ++ str "/>".
Definition track (speed course : Z) : list Z := str "<track" ++ attr "speed" (dec_of_Z (u32 speed)) ++ attr "course" (dec_of_Z (u32 course)) ++ str "/>".
Definition remarks_element (text : list Z) : list Z := str "<remarks>" ++ text ++ str "</remarks>".

(** ** Datagrams *)

Inductive cot_result :=
| Silent
| Datagram (bytes : list Z)
| Overread.                      (* sendto reads past the buffer *)

(** [n = snprintf(xml, cap, ...); if (n > 0) send_xml(xml, n)]. *)
Definition send_text (cap : nat) (text : list Z) : cot_result :=
  match text with [] => Silent | _ => if (List.length text <? cap)%nat then Datagram text else Overread end.

Definition esc_station (opt_station_id : option (list Z)) : list Z :=
  match opt_station_id with Some (c :: t) => xml_escape 128 (c :: t) | _ => [] end.

Definition uid_text (station name : list Z) : list Z :=
  take 511 (match station with [] => str "MESH-" ++ name | _ => str "MESH-" ++ station ++ str "-" ++ name end).

Section Publish.
Context (active : bool) (opt_station_id : option (list Z)) (now : Z * Z).

Definition atak_text (from : Z) (a : mesh_atak) : list Z :=
  let station := esc_station opt_station_id in
  let callsign := xml_escape 256 (ak_callsign a) in
  let uid := uid_text station (match callsign with [] => node_id_text from | _ => callsign end) in
  XML_DECL ++ event_open uid (cot_type_for_atak a) (iso8601_now now 0) (iso8601_now now 60) ++
  point (ak_lat_deg a) (ak_lon_deg a) (ak_altitude_hae_m a) (str "15") ++ str "<detail>" ++
  contact (match callsign with [] => uid | _ => callsign end) ++
  group (mesh_atak_team_name (ak_team a)) (mesh_atak_role_name (ak_role a)) ++
  track (ak_speed_mps a) (ak_course_deg a) ++
  str "<status" ++ attr "battery" (dec_of_Z (u32 (ak_battery a))) ++ str "/>" ++
  remarks_element (str "meshcore-sniffer atak/from=" ++ node_id_text from) ++ str "</detail>" ++ str "</event>".

Definition cot_publish_atak (ev : mesh_event) (a : mesh_atak) : cot_result :=
  if negb active then Silent
  else match ak_kind a, ak_detail_xml a with
       | MESH_ATAK_DETAIL, _ :: _ => Datagram (ak_detail_xml a)
       | MESH_ATAK_PLI, _ =>
           if negb (ak_have_lat a) || negb (ak_have_lon a) then Silent
           else send_text 1536 (atak_text (hd_from (ev_header ev)) a)
       | _, _ => Silent
       end.

(** COT_APPEND into a buffer of 384 bytes. *)
Definition cot_append (r part : list Z) : list Z := r ++ take (383 - List.length r) part.

(** [x != 0.0f]. *)
Definition remark_parts (ev : mesh_event) : list (list Z) :=
  [str "from=" ++ node_id_text (hd_from (ev_header ev))] ++
  (match ev_preset_name ev with [] => [] | n => [str " preset=" ++ n] end) ++
  (if 0 <? ev_sf ev then [str " SF" ++ fmt_d (ev_sf ev) ++ str "/CR4-" ++ fmt_d (ev_cr ev) ++ str "/BW" ++ fmt_d (ev_bw_hz ev)] else []) ++
  (match ev_channel_name ev with [] => [] | n => [str " ch=" ++ n] end) ++
  (if f32_nz (ev_rssi_db ev) || f32_nz (ev_snr_db ev)
   then [str " RSSI=" ++ fmt_f 1 (f32_of_bits (ev_rssi_db ev)) ++ str " SNR=" ++ fmt_f 1 (f32_of_bits (ev_snr_db ev))] else []) ++
  (if negb (ev_hop_limit ev =? 0) || negb (ev_hop_start ev =? 0)
   then [str " hop=" ++ fmt_d (ev_hop_limit ev) ++ str "/" ++ fmt_d (ev_hop_start ev)] else []).

Definition remarks_raw (ev : mesh_event) : list Z := fold_left cot_append (remark_parts ev) [].

Definition callsign_raw (db : node_db) (from : Z) : list Z :=
  match node_db_lookup db from with
  | Some rec => match nr_long_name rec with [] => node_id_text from | n => take 63 n end
  | None => node_id_text from
  end.

Definition position_text (db : node_db) (ev : mesh_event) (p : mesh_position) : list Z :=
  let from := hd_from (ev_header ev) in
  XML_DECL ++ event_open (uid_text (esc_station opt_station_id) (node_id_text from)) (str "a-f-G-U-C") (iso8601_now now 0) (iso8601_now now 300) ++
  point (po_lat_deg p) (po_lon_deg p) (if po_have_alt p then po_altitude_m p else 0) (str "50") ++ str "<detail>" ++
  contact (xml_escape 384 (callsign_raw db from)) ++ group (str "meshtastic") (str "Team Member") ++
  track (po_ground_speed_mps p) (u32 (po_ground_track_x100 p) / 100) ++
  remarks_element (xml_escape 2304 (remarks_raw ev)) ++ str "</detail>" ++ str "</event>".

Definition cot_publish_position (db : node_db) (ev : mesh_event) (p : mesh_position) : cot_result :=
  if negb active || negb (po_have_lat p) || negb (po_have_lon p) then Silent
  else send_text 2048 (position_text db ev p).
End Publish.

(** Correctness of the CoT output: escaping loses nothing, and no name or
    remark a node or an operator chooses changes the markup of an event or
    overflows its buffer. *)

(** ** Plain characters *)

Definition plain (c : Z) : Prop := entity c = None.

Lemma plain_cases c : plain c <-> c <> 60 /\ c <> 62 /\ c <> 38 /\ c <> 34 /\ c <> 39.
Proof.
  unfold plain, entity. destruct (Z.eqb_spec c 60), (Z.eqb_spec c 62), (Z.eqb_spec c 38), (Z.eqb_spec c 34), (Z.eqb_spec c 39); split; try done; try lia; intros; lia.
Qed.

Definition plains (s : list Z) : Prop := Forall plain s.

Lemma plains_app a b : plains (a ++ b) <-> plains a /\ plains b.
Proof. apply Forall_app. Qed.

Lemma digit_char_plain d : 0 <= d < 10 -> plain (48 + d).
Proof. intros H. apply plain_cases. lia. Qed.

Lemma dec_loop_plain fuel : forall z acc, plains acc -> plains (dec_loop fuel z acc).
Proof.
  induction fuel as [|k IH]; intros z acc Ha; [done|]. cbn [dec_loop].
  assert (plains ((48 + z mod 10) :: acc)) by (apply Forall_cons_2; [apply digit_char_plain, Z.mod_pos_bound; lia|done]).
  destruct (z <? 10); [done|by apply IH].
Qed.

Lemma dec_plain z : plains (dec_of_Z z).
Proof. apply dec_loop_plain, Forall_nil_2. Qed.

Lemma fmt_d_plain z : plains (fmt_d z).
Proof. unfold fmt_d. destruct (z <? 0); [apply Forall_cons_2; [by apply plain_cases|]|]; apply dec_plain. Qed.

Lemma pad0_plain w s : plains s -> plains (pad0 w s).
Proof. intros H. unfold pad0. apply plains_app. split; [|done]. apply Forall_replicate. by apply plain_cases. Qed.

Lemma fmt_0d_plain w z : plains (fmt_0d w z).
Proof. unfold fmt_0d. destruct (z <? 0); [apply Forall_cons_2; [by apply plain_cases|]|]; apply pad0_plain, dec_plain. Qed.

Lemma fmt_decimal_plain prec n : plains (fmt_decimal prec n).
Proof.
  unfold fmt_decimal. apply plains_app. split; [apply dec_plain|]. destruct prec; [apply Forall_nil_2|].
  apply Forall_cons_2; [by apply plain_cases|]. apply pad0_plain, dec_plain.
Qed.

(** Literals are checked by evaluation. *)
Definition plainb (c : Z) : bool := match entity c with None => true | Some _ => false end.

Lemma plains_check s : forallb plainb s = true -> plains s.
Proof.
  intros H. apply Forall_forall. intros c Hc. apply list_elem_of_In in Hc. rewrite forallb_forall in H. specialize (H c Hc).
  unfold plainb in H. unfold plain. by destruct (entity c).
Qed.

Lemma fmt_f_plain prec x : plains (fmt_f prec x).
Proof.
  assert (Hs : forall (s : bool), plains (if s then [45] else [])) by (intros []; by apply plains_check).
  destruct x as [s|s| |s m e]; cbn [fmt_f]; rewrite ?plains_app.
  - split; [apply Hs|apply fmt_decimal_plain].
  - split; [apply Hs|by apply plains_check].
  - by apply plains_check.
  - split; [apply Hs|apply fmt_decimal_plain].
Qed.

Lemma node_id_plain id : plains (node_id_text id).
Proof.
  unfold node_id_text. apply Forall_cons_2; [by apply plain_cases|]. apply Forall_forall. intros c Hc. apply list_elem_of_fmap in Hc as (i & -> & _).
  change 0xF with (Z.ones 4). rewrite Z.land_ones by lia. pose proof (Z.mod_pos_bound (Z.shiftr (u32 id) (4 * Z.of_nat i)) (2 ^ 4) ltac:(lia)).
  unfold MeshEvent.hex_digit. destruct (Z.ltb_spec (Z.shiftr (u32 id) (4 * Z.of_nat i) mod 2 ^ 4) 10); apply plain_cases; lia.
Qed.

Lemma node_id_len id : List.length (node_id_text id) = 9%nat.
Proof. unfold node_id_text. cbn [List.length]. by rewrite length_map. Qed.

Lemma iso_plain now d : plains (iso8601_now now d).
Proof.
  unfold iso8601_now. apply Forall_take. repeat apply Forall_app_2; try apply fmt_0d_plain; by apply plains_check.
Qed.

Lemma iso_len now d : (List.length (iso8601_now now d) <= 39)%nat.
Proof. unfold iso8601_now. cbn zeta. rewrite length_take. lia. Qed.

(** ** Escaping *)

Definition escaped (c : Z) : list Z := match entity c with Some e => e | None => [c] end.

Lemma escaped_pos c : (1 <= List.length (escaped c) <= 6)%nat.
Proof.
  unfold escaped, entity. repeat (destruct (_ =? _); [split; apply Nat.leb_le; reflexivity|]). split; apply Nat.leb_le; reflexivity.
Qed.

(** The text written is the escape of a prefix, of the whole text when that
    fits the buffer, and always fits itself. *)
Lemma escape_from_spec cap s : forall di, (di < cap)%nat ->
  exists p r, s = p ++ r /\ escape_from cap di s = flat_map escaped p /\ (di + List.length (escape_from cap di s) < cap)%nat /\
    ((di + List.length (flat_map escaped s) < cap)%nat -> r = []).
Proof.
  induction s as [|c s IH]; intros di Hdi; [exists [], []; cbn; repeat split; lia|]. cbn [escape_from flat_map]. unfold escaped at 2.
  destruct (Nat.ltb_spec (di + 1) cap).
  2:{ exists [], (c :: s). split; [done|]. split; [done|]. split; [cbn; lia|]. rewrite length_app.
      pose proof (escaped_pos c) as Hp. unfold escaped in Hp. lia. }
  destruct (entity c) as [e|] eqn:Ee.
  - destruct (Nat.ltb_spec cap (di + List.length e + 1)).
    { exists [], (c :: s). split; [done|]. split; [done|]. split; [cbn; lia|]. rewrite length_app. lia. }
    destruct (IH (di + List.length e)%nat ltac:(lia)) as (p & r & -> & E & Hl & Hr). exists (c :: p), r. split; [done|].
    split; [cbn [flat_map]; unfold escaped at 1; by rewrite Ee, E|]. rewrite !length_app. split; [lia|]. intros Hfit. apply Hr. lia.
  - destruct (IH (di + 1)%nat ltac:(lia)) as (p & r & -> & E & Hl & Hr). exists (c :: p), r. split; [done|].
    split; [cbn [flat_map]; unfold escaped at 1; by rewrite Ee, E|]. cbn [List.length]. split; [lia|]. intros Hfit. apply Hr. cbn in Hfit. lia.
Qed.

Lemma escape_len cap s : (0 < cap)%nat -> (List.length (xml_escape cap s) < cap)%nat.
Proof. intros H. destruct (escape_from_spec cap s 0 H) as (p & r & _ & _ & Hl & _). exact Hl. Qed.

(** No quote and no '<' is left. *)
Definition value_ok (c : Z) : Prop := c <> 34 /\ c <> 60.
Definition value (s : list Z) : Prop := Forall value_ok s.

Lemma value_app a b : value (a ++ b) <-> value a /\ value b.
Proof. apply Forall_app. Qed.

Lemma plains_value s : plains s -> value s.
Proof. intros H. eapply Forall_impl; [exact H|]. intros c Hc. apply plain_cases in Hc. split; lia. Qed.

Definition value_okb (c : Z) : bool := negb (c =? 34) && negb (c =? 60).

Lemma value_check s : forallb value_okb s = true -> value s.
Proof.
  intros H. apply Forall_forall. intros c Hc. apply list_elem_of_In in Hc. rewrite forallb_forall in H. specialize (H c Hc).
  unfold value_okb in H. zb. split; lia.
Qed.

Lemma escaped_value c : value (escaped c).
Proof.
  unfold escaped, entity. destruct (Z.eqb_spec c 60); [by apply value_check|]. destruct (c =? 62); [by apply value_check|].
  destruct (c =? 38); [by apply value_check|]. destruct (Z.eqb_spec c 34); [by apply value_check|]. destruct (c =? 39); [by apply value_check|].
  apply Forall_cons_2; [by split|apply Forall_nil_2].
Qed.

Lemma xml_escape_value cap s : (0 < cap)%nat -> value (xml_escape cap s).
Proof.
  intros H. destruct (escape_from_spec cap s 0 H) as (p & r & _ & E & _). unfold xml_escape. rewrite E. clear E.
  induction p as [|c p IH]; [apply Forall_nil_2|]. cbn [flat_map]. apply value_app. split; [apply escaped_value|done].
Qed.

(** ** Markup *)

Inductive xml_state := InText | InTag | InAttr.

(** One character: the state after it and what it adds to the markup, which
    leaves out texts and attribute values; a '<' in a value shows as NUL. *)
Definition xml_step (st : xml_state) (c : Z) : xml_state * list Z :=
  match st with
  | InText => if c =? 60 then (InTag, [c]) else (InText, [])
  | InTag => if c =? 34 then (InAttr, [c]) else if c =? 62 then (InText, [c]) else (InTag, [c])
  | InAttr => if c =? 34 then (InTag, [c]) else if c =? 60 then (InAttr, [0]) else (InAttr, [])
  end.

Fixpoint markup (st : xml_state) (s : list Z) : xml_state * list Z :=
  match s with
  | [] => (st, [])
  | c :: t => let '(st, a) := xml_step st c in let '(st, b) := markup st t in (st, a ++ b)
  end.

Lemma markup_app a : forall st b, markup st (a ++ b) = let '(st, x) := markup st a in let '(st, y) := markup st b in (st, x ++ y).
Proof.
  induction a as [|c a IH]; intros st b; [cbn; by destruct (markup st b)|]. cbn [app markup]. destruct (xml_step st c) as [st1 x]. rewrite IH.
  destruct (markup st1 a) as [st2 y]. destruct (markup st2 b) as [st3 z]. by rewrite app_assoc.
Qed.

Lemma markup_value v : value v -> markup InAttr v = (InAttr, []).
Proof.
  induction 1 as [|c v [H1 H2] _ IH]; [done|]. cbn [markup xml_step]. destruct (Z.eqb_spec c 34); [done|]. destruct (Z.eqb_spec c 60); [done|]. by rewrite IH.
Qed.

Lemma markup_text v : value v -> markup InText v = (InText, []).
Proof. induction 1 as [|c v [_ H2] _ IH]; [done|]. cbn [markup xml_step]. destruct (Z.eqb_spec c 60); [done|]. by rewrite IH. Qed.

(** Outside attribute values two texts have the same markup. *)
Definition same (a b : list Z) : Prop := forall st, st <> InAttr -> markup st a = markup st b /\ fst (markup st a) <> InAttr.

Lemma same_app a a' b b' : same a a' -> same b b' -> same (a ++ b) (a' ++ b').
Proof.
  intros Ha Hb st Hst. rewrite !markup_app. destruct (Ha st Hst) as [<- H1]. destruct (markup st a) as [st1 x]. cbn [fst] in H1.
  destruct (Hb st1 H1) as [<- H2]. destruct (markup st1 b) as [st2 y]. done.
Qed.

Definition closed_lit (s : list Z) : bool :=
  match fst (markup InText s), fst (markup InTag s) with InAttr, _ | _, InAttr => false | _, _ => true end.

Lemma same_lit s : closed_lit s = true -> same s s.
Proof.
  unfold closed_lit. intros H st Hst. split; [done|]. destruct st; [|..|done].
  - intros E. by rewrite E in H.
  - intros E. rewrite E in H. by destruct (fst (markup InText s)).
Qed.

(** Names of attributes: characters that do not leave a tag. *)
Definition name_char (c : Z) : bool := negb (c =? 34) && negb (c =? 60) && negb (c =? 62).

Lemma markup_name n : forallb name_char n = true -> (markup InTag n = (InTag, n)) /\ markup InText n = (InText, []).
Proof.
  induction n as [|c n IH]; [done|]. cbn [forallb]. intros H. apply andb_prop in H as [Hc H]. destruct (IH H) as [E1 E2]. unfold name_char in Hc. zb.
  cbn [markup xml_step]. destruct (Z.eqb_spec c 34); [done|]. destruct (Z.eqb_spec c 62); [done|]. destruct (Z.eqb_spec c 60); [done|].
  by rewrite E1, E2.
Qed.

Lemma markup_quoted v : value v -> markup InTag (q v) = (InTag, [34; 34]) /\ markup InText (q v) = (InText, []).
Proof.
  intros Hv. unfold q. split; cbn [markup xml_step Z.eqb Pos.eqb].
  - by rewrite markup_app, (markup_value v Hv).
  - by rewrite markup_app, (markup_text v Hv).
Qed.

Lemma same_attr n v : forallb name_char (str n) = true -> value v -> same (attr n v) (attr n []).
Proof.
  intros Hn Hv st Hst.
  assert (E : forall w, attr n w = (str " " ++ str n ++ str "=") ++ q w) by (intros w; unfold attr; by rewrite <- !app_assoc).
  rewrite !E. destruct (markup_name (str " " ++ str n ++ str "=")) as [E1 E2]; [by rewrite !forallb_app, Hn|].
  set (pre := str " " ++ str n ++ str "=") in *. clearbody pre. rewrite !markup_app.
  destruct (markup_quoted v Hv) as [Q1 Q2], (markup_quoted [] (Forall_nil_2 _)) as [Q3 Q4].
  destruct st; [rewrite E2, Q2, Q4|rewrite E1, Q1, Q3|done]; done.
Qed.

Lemma same_remarks t : value t -> same (remarks_element t) (remarks_element []).
Proof.
  intros Ht st Hst. unfold remarks_element. rewrite !(markup_app (str "<remarks>")).
  assert (E : fst (markup st (str "<remarks>")) = InText) by (by destruct st). destruct (markup st (str "<remarks>")) as [st1 x]. cbn [fst] in E. subst st1.
  rewrite markup_app, (markup_text t Ht). done.
Qed.

(** ** The two events *)

Definition POSITION_MARKUP : list Z :=
  snd (markup InText (XML_DECL ++ event_open [] [] [] [] ++ point f_zero f_zero 0 [] ++ str "<detail>" ++ contact [] ++ group [] [] ++ track 0 0 ++
                      remarks_element [] ++ str "</detail>" ++ str "</event>")).

Definition ATAK_MARKUP : list Z :=
  snd (markup InText (XML_DECL ++ event_open [] [] [] [] ++ point f_zero f_zero 0 [] ++ str "<detail>" ++ contact [] ++ group [] [] ++ track 0 0 ++
                      str "<status" ++ attr "battery" [] ++ str "/>" ++ remarks_element [] ++ str "</detail>" ++ str "</event>")).

Ltac lit := apply same_lit; reflexivity.
Ltac attr_value := apply same_attr; [reflexivity|].

Lemma same_trans a b c : same a b -> same b c -> same a c.
Proof. intros H1 H2 st Hst. destruct (H1 st Hst) as [E1 ?], (H2 st Hst) as [E2 ?]. split; [congruence|done]. Qed.

Lemma same_sym a b : same a b -> same b a.
Proof. intros H st Hst. destruct (H st Hst) as [E ?]. split; [done|]. by rewrite <- E. Qed.

Lemma same_event_open uid type now stale : value uid -> value type -> value now -> value stale -> same (event_open uid type now stale) (event_open [] [] [] []).
Proof.
  intros H1 H2 H3 H4. unfold event_open.
  apply same_app; [lit|]. apply same_app; [lit|]. repeat (apply same_app; [attr_value; done|]). apply same_app; [lit|]. lit.
Qed.

Lemma same_point lat lon hae err lat' lon' hae' : value err -> same (point lat lon hae err) (point lat' lon' hae' []).
Proof.
  intros He. unfold point. apply same_app; [lit|].
  do 2 (apply same_app; [eapply same_trans; [|apply same_sym]; attr_value; apply plains_value, fmt_f_plain|]).
  apply same_app; [eapply same_trans; [|apply same_sym]; attr_value; apply plains_value, fmt_d_plain|].
  do 2 (apply same_app; [attr_value; done|]). lit.
Qed.

Lemma same_contact c : value c -> same (contact c) (contact []).
Proof. intros H. unfold contact. apply same_app; [lit|]. apply same_app; [by attr_value|]. lit. Qed.

Lemma same_group n r : value n -> value r -> same (group n r) (group [] []).
Proof. intros Hn Hr. unfold group. apply same_app; [lit|]. do 2 (apply same_app; [by attr_value|]). lit. Qed.

Lemma same_track s c s' c' : same (track s c) (track s' c').
Proof.
  unfold track. apply same_app; [lit|].
  do 2 (apply same_app; [eapply same_trans; [|apply same_sym]; attr_value; apply plains_value, dec_plain|]). lit.
Qed.

(** ** Lengths *)

Lemma dec_loop_len k : forall fuel z acc, (1 <= k)%nat -> 0 <= z < 10 ^ Z.of_nat k -> (List.length (dec_loop fuel z acc) <= k + List.length acc)%nat.
Proof.
  induction k as [|k IH]; intros fuel z acc Hk Hz; [lia|]. destruct fuel as [|fuel]; [cbn; lia|]. cbn [dec_loop].
  destruct (Z.ltb_spec z 10); [cbn; lia|]. destruct k as [|k]; [cbn in Hz; lia|].
  rewrite Nat2Z.inj_succ, Z.pow_succ_r in Hz by lia. set (P := 10 ^ Z.of_nat (S k)) in *.
  pose proof (Z.div_mod z 10 ltac:(lia)). pose proof (Z.mod_pos_bound z 10 ltac:(lia)).
  specialize (IH fuel (z / 10) ((48 + z mod 10) :: acc) ltac:(lia)). cbn [List.length] in *. assert (Hq : 0 <= z / 10 < P) by (clearbody P; lia). specialize (IH Hq). lia.
Qed.

Lemma dec_len k z : (1 <= k)%nat -> 0 <= z < 10 ^ Z.of_nat k -> (List.length (dec_of_Z z) <= k)%nat.
Proof. intros Hk Hz. pose proof (dec_loop_len k (S (Z.to_nat (Z.log2 z))) z [] Hk Hz) as H. cbn [List.length] in H. unfold dec_of_Z. lia. Qed.

Lemma dec_u32_len z : (List.length (dec_of_Z (u32 z)) <= 10)%nat.
Proof. apply dec_len; [lia|]. pose proof (wrap_range 32 z ltac:(lia)). unfold u32. lia. Qed.

Lemma fmt_d_len z : - 2 ^ 31 <= z < 2 ^ 31 -> (List.length (fmt_d z) <= 11)%nat.
Proof.
  intros Hz. unfold fmt_d. destruct (Z.ltb_spec z 0); cbn [List.length].
  - pose proof (dec_len 10 (- z) ltac:(lia) ltac:(lia)). lia.
  - pose proof (dec_len 10 z ltac:(lia) ltac:(lia)). lia.
Qed.

(** A coordinate: a number under a thousand in magnitude. *)
Definition below_1000 (x : spec_float) : bool :=
  match x with
  | S754_zero _ => true
  | S754_finite _ m e => if 0 <=? e then Zpos m * 2 ^ e <? 1000 else Zpos m <? 1000 * 2 ^ (- e)
  | _ => false
  end.

Lemma round_half_even_le n d b : 0 < d -> 0 <= n <= b * d -> 0 <= round_half_even n d <= b.
Proof.
  intros Hd Hn. unfold round_half_even. pose proof (Z.div_mod n d ltac:(lia)). pose proof (Z.mod_pos_bound n d Hd).
  assert (0 <= n / d) by (apply Z.div_pos; lia). cbn zeta. set (x := n / d) in *. set (r := n mod d) in *. clearbody x r.
  repeat case_match; zb; nia.
Qed.

Lemma coordinate_len x : below_1000 x = true -> (List.length (fmt_f 7 x) <= 13)%nat.
Proof.
  assert (Hd : forall z, 0 <= z <= 10000000000 -> (List.length (fmt_decimal 7 z) <= 12)%nat).
  { intros z Hz. unfold fmt_decimal. change (10 ^ Z.of_nat 7) with 10000000. cbn zeta. rewrite length_app. cbn [List.length].
    assert (H1 : 0 <= z / 10000000 <= 1000) by (split; [apply Z.div_pos; lia|apply Z.div_le_upper_bound; lia]).
    assert (H2 : 0 <= z mod 10000000 < 10000000) by (apply Z.mod_pos_bound; lia).
    pose proof (dec_len 4 (z / 10000000) ltac:(lia) ltac:(cbn; lia)). pose proof (dec_len 7 (z mod 10000000) ltac:(lia) ltac:(cbn; lia)).
    unfold pad0. rewrite length_app, length_replicate. lia. }
  assert (Hs : forall s : bool, (List.length (if s then [45%Z] else []) <= 1)%nat) by (intros []; cbn; lia).
  destruct x as [s|s| |s m e]; cbn [below_1000 fmt_f]; try done.
  - intros _. rewrite length_app. specialize (Hs s). specialize (Hd 0 ltac:(lia)). lia.
  - intros H. rewrite length_app. specialize (Hs s). change (10 ^ Z.of_nat 7) with 10000000. set (z := if 0 <=? e then _ else _).
    assert (0 <= z <= 10000000000); [|specialize (Hd z ltac:(lia)); lia]. unfold z. destruct (Z.leb_spec 0 e).
    + zb. assert (0 < 2 ^ e) by (apply Z.pow_pos_nonneg; lia). nia.
    + zb. apply round_half_even_le; [apply Z.pow_pos_nonneg; lia|]. nia.
Qed.

(** What escaping adds. *)
Definition extra (s : list Z) : nat := (List.length (flat_map escaped s) - List.length s)%nat.

Lemma escaped_longer s : (List.length s <= List.length (flat_map escaped s) <= 6 * List.length s)%nat.
Proof. induction s as [|c s IH]; [done|]. cbn [flat_map]. rewrite length_app. pose proof (escaped_pos c). cbn [List.length]. lia. Qed.

Lemma extra_app a b : extra (a ++ b) = (extra a + extra b)%nat.
Proof. unfold extra. rewrite flat_map_app, !length_app. pose proof (escaped_longer a). pose proof (escaped_longer b). lia. Qed.

Lemma extra_take n s : (extra (take n s) <= extra s)%nat.
Proof. rewrite <- (take_drop n s) at 2. rewrite extra_app. lia. Qed.

Lemma extra_plain s : plains s -> extra s = 0%nat.
Proof.
  intros H. unfold extra. enough (List.length (flat_map escaped s) = List.length s) by lia.
  induction H as [|c s Hc _ IH]; [done|]. cbn [flat_map]. rewrite length_app, IH. unfold escaped. by rewrite Hc.
Qed.

Lemma extra_name s : (extra s <= 5 * List.length s)%nat.
Proof. unfold extra. pose proof (escaped_longer s). lia. Qed.

Lemma escape_extra cap s : (0 < cap)%nat -> (List.length (xml_escape cap s) <= List.length s + extra s)%nat.
Proof.
  intros H. destruct (escape_from_spec cap s 0 H) as (p & r & -> & E & _). unfold xml_escape. rewrite E, extra_app, length_app.
  unfold extra at 1. pose proof (escaped_longer p). lia.
Qed.

Lemma remarks_len ev : (List.length (remarks_raw ev) <= 383)%nat.
Proof.
  unfold remarks_raw. generalize (remark_parts ev) as ps. intros ps. assert (H0 : (List.length (@nil Z) <= 383)%nat) by (cbn; lia). revert H0.
  generalize (@nil Z) as r. induction ps as [|p ps IH]; intros r Hr; [done|]. cbn [fold_left]. apply IH. unfold cot_append. rewrite length_app, length_take. lia.
Qed.

Definition sum (l : list nat) : nat := fold_right Nat.add 0%nat l.

Lemma remarks_extra_parts ps : forall r, (extra (fold_left cot_append ps r) <= extra r + sum (map extra ps))%nat.
Proof.
  unfold sum. induction ps as [|p ps IH]; intros r; [cbn [fold_left map fold_right]; lia|]. cbn [fold_left map fold_right].
  specialize (IH (cot_append r p)). assert (extra (cot_append r p) <= extra r + extra p)%nat; [|lia].
  unfold cot_append. rewrite extra_app. pose proof (extra_take (383 - List.length r) p). lia.
Qed.

Lemma sum_app a b : sum (a ++ b) = (sum a + sum b)%nat.
Proof. unfold sum. induction a as [|x a IH]; [done|]. cbn [app fold_right]. lia. Qed.

Lemma remarks_extra ev : (extra (remarks_raw ev) <= 5 * (List.length (ev_preset_name ev) + List.length (ev_channel_name ev)))%nat.
Proof.
  unfold remarks_raw. pose proof (remarks_extra_parts (remark_parts ev) []) as H. change (extra []) with 0%nat in H.
  assert (Hs : (sum (map extra (remark_parts ev)) <= 5 * (List.length (ev_preset_name ev) + List.length (ev_channel_name ev)))%nat); [|lia]. clear H.
  unfold remark_parts. rewrite !map_app, !sum_app.
  assert (Hone : forall s, plains s -> sum (map extra [s]) = 0%nat) by (intros s Hp; cbn; rewrite extra_plain by done; done).
  assert (Hif : forall (b : bool) s, plains s -> sum (map extra (if b then [s] else [])) = 0%nat) by (intros [] s Hp; [by apply Hone|done]).
  assert (Hnm : forall pre n, plains pre -> (sum (map extra (match n with [] => [] | n0 => [pre ++ n0] end)) <= 5 * List.length n)%nat).
  { intros pre n Hp. destruct n as [|c n]; [cbn; lia|]. cbn [map sum fold_right]. rewrite extra_app, (extra_plain pre Hp). pose proof (extra_name (c :: n)). lia. }
  rewrite Hone. 2:{ apply plains_app. split; [by apply plains_check|apply node_id_plain]. }
  rewrite !Hif; try (repeat apply Forall_app_2; first [apply fmt_d_plain|apply fmt_f_plain|by apply plains_check]).
  pose proof (Hnm (str " preset=") (ev_preset_name ev) ltac:(by apply plains_check)).
  pose proof (Hnm (str " ch=") (ev_channel_name ev) ltac:(by apply plains_check)).
  destruct (ev_preset_name ev), (ev_channel_name ev); lia.
Qed.

(** ** Every event keeps its markup and its buffer *)

Lemma station_value o : value (esc_station o) /\ (List.length (esc_station o) <= 127)%nat.
Proof.
  destruct o as [[|c t]|]; [split; [apply Forall_nil_2|cbn; lia]| |split; [apply Forall_nil_2|cbn; lia]]. unfold esc_station.
  split; [apply xml_escape_value; lia|]. pose proof (escape_len 128 (c :: t) ltac:(lia)). lia.
Qed.

Lemma uid_value st n : value st -> value n -> value (uid_text st n).
Proof.
  intros H1 H2. unfold uid_text. apply Forall_take. destruct st; [|apply value_app; split; [by apply value_check|];
    apply value_app; split; [done|]]; apply value_app; (split; [by apply value_check|done]).
Qed.

Lemma uid_len st n : (List.length (uid_text st n) <= 6 + List.length st + List.length n)%nat.
Proof.
  unfold uid_text. rewrite length_take. destruct st; rewrite ?length_app; change (List.length (str "MESH-")) with 5%nat;
    change (List.length (str "-")) with 1%nat; cbn [List.length]; lia.
Qed.

Lemma attr_len n v : List.length (attr n v) = (4 + List.length (str n) + List.length v)%nat.
Proof.
  unfold attr, q. rewrite !length_app. change (List.length (str " ")) with 1%nat. change (List.length (str "=")) with 1%nat. cbn [List.length].
  rewrite length_app. cbn [List.length]. lia.
Qed.

(** Literals count by evaluation. *)
Ltac lengths := repeat rewrite ?length_app, ?attr_len;
  repeat match goal with |- context [List.length (str ?s)] => let n := eval vm_compute in (List.length (str s)) in change (List.length (str s)) with n end.

Lemma event_open_len uid type now stale : List.length (event_open uid type now stale) =
  (72 + List.length uid + List.length type + 2 * List.length now + List.length stale)%nat.
Proof. unfold event_open. lengths. lia. Qed.

Lemma point_len lat lon hae err : below_1000 lat = true -> below_1000 lon = true -> - 2 ^ 31 <= hae < 2 ^ 31 ->
  (List.length (point lat lon hae err) <= 82 + 2 * List.length err)%nat.
Proof.
  intros H1 H2 H3. unfold point. lengths. pose proof (coordinate_len lat H1). pose proof (coordinate_len lon H2). pose proof (fmt_d_len hae H3). lia.
Qed.

Lemma track_len s c : (List.length (track s c) <= 47)%nat.
Proof. unfold track. lengths. pose proof (dec_u32_len s). pose proof (dec_u32_len c). lia. Qed.

Lemma names_value team role : value (mesh_atak_team_name team) /\ value (mesh_atak_role_name role) /\
  (List.length (mesh_atak_team_name team) + List.length (mesh_atak_role_name role) <= 26)%nat.
Proof.
  assert (Hn : forall (l : list (list Z)) k i, forallb (fun s => forallb value_okb s && (List.length s <=? k)%nat) l = true ->
    value (nth i l []) /\ (List.length (nth i l []) <= k)%nat).
  { intros l k i Hl. destruct (nth_in_or_default i l []) as [Hin| ->]; [|split; [apply Forall_nil_2|cbn; lia]].
    rewrite forallb_forall in Hl. specialize (Hl _ Hin). apply andb_prop in Hl as [H1 H2]. apply Nat.leb_le in H2. split; [by apply value_check|done]. }
  destruct (Hn ATAK_TEAMS 11%nat (Z.to_nat team) eq_refl) as [T1 T2], (Hn ATAK_ROLES 15%nat (Z.to_nat role) eq_refl) as [R1 R2].
  unfold mesh_atak_team_name, mesh_atak_role_name.
  assert (HU : value (str "Unspecified") /\ (List.length (str "Unspecified") <= 11)%nat) by (split; [by apply value_check|apply Nat.leb_le; reflexivity]).
  assert (HK : value (str "Unknown") /\ (List.length (str "Unknown") <= 15)%nat) by (split; [by apply value_check|apply Nat.leb_le; reflexivity]).
  destruct HU, HK. destruct (_ || _), (_ || _); (split; [done|split; [done|lia]]).
Qed.

Lemma type_value a : value (cot_type_for_atak a) /\ (List.length (cot_type_for_atak a) <= 11)%nat.
Proof.
  unfold cot_type_for_atak. repeat (destruct (_ =? _); [split; [by apply value_check|apply Nat.leb_le; reflexivity]|]).
  split; [by apply value_check|apply Nat.leb_le; reflexivity].
Qed.

Lemma send_text_fits cap text : text <> [] -> (List.length text < cap)%nat -> send_text cap text = Datagram text.
Proof. intros Hn Hl. unfold send_text. destruct text; [done|]. by rewrite (proj2 (Nat.ltb_lt _ _) Hl). Qed.

Section Events.
Context (opt_station_id : option (list Z)) (now : Z * Z).

Lemma times_value : value (iso8601_now now 0) /\ value (iso8601_now now 60) /\ value (iso8601_now now 300).
Proof. split; [|split]; apply plains_value, iso_plain. Qed.

Lemma position_markup db ev p : markup InText (position_text opt_station_id now db ev p) = (InText, POSITION_MARKUP).
Proof.
  destruct times_value as (T1 & _ & T2). destruct (station_value opt_station_id) as [S1 _].
  assert (H : same (position_text opt_station_id now db ev p) (XML_DECL ++ event_open [] [] [] [] ++ point f_zero f_zero 0 [] ++ str "<detail>" ++
    contact [] ++ group [] [] ++ track 0 0 ++ remarks_element [] ++ str "</detail>" ++ str "</event>")).
  { unfold position_text. cbn zeta. apply same_app; [lit|].
    apply same_app; [apply same_event_open; [apply uid_value; [done|apply plains_value, node_id_plain]|by apply value_check|done|done]|].
    apply same_app; [apply same_point; by apply value_check|]. apply same_app; [lit|]. apply same_app; [apply same_contact, xml_escape_value; lia|].
    apply same_app; [apply same_group; by apply value_check|]. apply same_app; [apply same_track|].
    apply same_app; [apply same_remarks, xml_escape_value; lia|]. apply same_app; lit. }
  destruct (H InText ltac:(done)) as [-> _]. reflexivity.
Qed.

Lemma atak_markup from a : markup InText (atak_text opt_station_id now from a) = (InText, ATAK_MARKUP).
Proof.
  destruct times_value as (T1 & T2 & _). destruct (station_value opt_station_id) as [S1 _]. destruct (type_value a) as [Y1 _].
  destruct (names_value (ak_team a) (ak_role a)) as (N1 & N2 & _).
  assert (C1 : value (xml_escape 256 (ak_callsign a))) by (apply xml_escape_value; lia).
  assert (I1 : value (node_id_text from)) by apply plains_value, node_id_plain.
  assert (H : same (atak_text opt_station_id now from a) (XML_DECL ++ event_open [] [] [] [] ++ point f_zero f_zero 0 [] ++ str "<detail>" ++
    contact [] ++ group [] [] ++ track 0 0 ++ str "<status" ++ attr "battery" [] ++ str "/>" ++ remarks_element [] ++ str "</detail>" ++ str "</event>")).
  { unfold atak_text. cbn zeta. set (cs := xml_escape 256 (ak_callsign a)) in *. clearbody cs.
    assert (U1 : value (uid_text (esc_station opt_station_id) (match cs with [] => node_id_text from | _ => cs end))) by (apply uid_value; [done|by destruct cs]).
    apply same_app; [lit|]. apply same_app; [apply same_event_open; done|]. apply same_app; [apply same_point; by apply value_check|].
    apply same_app; [lit|]. apply same_app; [apply same_contact; by destruct cs|]. apply same_app; [by apply same_group|]. apply same_app; [apply same_track|].
    apply same_app; [lit|]. apply same_app; [attr_value; apply plains_value, dec_plain|]. apply same_app; [lit|].
    apply same_app; [apply same_remarks, value_app; split; [by apply value_check|done]|]. apply same_app; lit. }
  destruct (H InText ltac:(done)) as [-> _]. reflexivity.
Qed.
End Events.

(** What the decoders guarantee of an event: names within their arrays,
    coordinates of degrees, altitudes of 32 bits. *)
Definition event_sized (ev : mesh_event) : Prop := (List.length (ev_preset_name ev) < 24)%nat /\ (List.length (ev_channel_name ev) < 32)%nat.
Definition position_sized (p : mesh_position) : Prop :=
  below_1000 (po_lat_deg p) = true /\ below_1000 (po_lon_deg p) = true /\ - 2 ^ 31 <= po_altitude_m p < 2 ^ 31.
Definition atak_sized (a : mesh_atak) : Prop :=
  below_1000 (ak_lat_deg a) = true /\ below_1000 (ak_lon_deg a) = true /\ - 2 ^ 31 <= ak_altitude_hae_m a < 2 ^ 31.

Lemma position_len st now db ev p : event_sized ev -> position_sized p -> (List.length (position_text st now db ev p) < 2048)%nat.
Proof.
  intros [E1 E2] (P1 & P2 & P3). unfold position_text, contact, group, remarks_element. cbn zeta.
  assert (Ha : - 2 ^ 31 <= (if po_have_alt p then po_altitude_m p else 0) < 2 ^ 31) by (destruct (po_have_alt p); lia).
  pose proof (point_len _ _ _ (str "50") P1 P2 Ha) as Hp. change (List.length (str "50")) with 2%nat in Hp.
  pose proof (track_len (po_ground_speed_mps p) (u32 (po_ground_track_x100 p) / 100)). destruct (station_value st) as [_ Hs].
  pose proof (uid_len (esc_station st) (node_id_text (hd_from (ev_header ev)))) as Hu. rewrite node_id_len in Hu.
  pose proof (iso_len now 0). pose proof (iso_len now 300). pose proof (escape_len 384 (callsign_raw db (hd_from (ev_header ev))) ltac:(lia)).
  pose proof (escape_extra 2304 (remarks_raw ev) ltac:(lia)). pose proof (remarks_len ev). pose proof (remarks_extra ev).
  rewrite !length_app, event_open_len. lengths. change (List.length XML_DECL) with 55%nat. lia.
Qed.

Lemma atak_len st now from a : atak_sized a -> (List.length (atak_text st now from a) < 1536)%nat.
Proof.
  intros (P1 & P2 & P3). unfold atak_text, contact, group, remarks_element. cbn zeta.
  pose proof (point_len _ _ _ (str "15") P1 P2 P3) as Hp. change (List.length (str "15")) with 2%nat in Hp.
  pose proof (track_len (ak_speed_mps a) (ak_course_deg a)). destruct (station_value st) as [_ Hs].
  pose proof (escape_len 256 (ak_callsign a) ltac:(lia)) as Hc. set (cs := xml_escape 256 (ak_callsign a)) in *. clearbody cs.
  pose proof (uid_len (esc_station st) (match cs with [] => node_id_text from | _ => cs end)) as Hu.
  pose proof (iso_len now 0). pose proof (iso_len now 60). destruct (type_value a) as [_ Hy]. destruct (names_value (ak_team a) (ak_role a)) as (_ & _ & Hn).
  pose proof (dec_u32_len (ak_battery a)). rewrite !length_app, event_open_len. lengths. change (List.length XML_DECL) with 55%nat. rewrite node_id_len.
  destruct cs as [|c cs]; [rewrite node_id_len in Hu|]; lia.
Qed.


(** ** Examples *)

Definition cot_event : mesh_event := MeshEvent.event_zero {{ ev_channel_name := [34; 60] }}.
Definition cot_position : mesh_position := position_zero {{ po_have_lat := true; po_have_lon := true; po_lat_deg := deg_of_fixed 488566000; po_lon_deg := deg_of_fixed 23522000 }}.
Definition cot_node : node_db := [mk_node_record 0 (str "<b>" ++ [34]) [] 0 0].


(** The CoT types are one role off the names: a sniper is sent as a medic, an
    HQ as a sniper, a team lead as an HQ, and a medic as nobody in particular. *)
Theorem cot_role_shifted :
  map (fun r => (mesh_atak_role_name r, cot_type_for_atak (atak_zero {{ ak_role := r }}))) [2; 3; 4; 5] =
  [(str "TeamLead", str "a-f-G-U-C-H"); (str "HQ", str "a-f-G-U-C-I"); (str "Sniper", str "a-f-G-U-C-M"); (str "Medic", str "a-f-G-U-C")].
Proof. reflexivity. Qed.
