(* ===== verification/Gpsd.v ===== *)
(** The gpsd client (src/gpsd.c): the endpoint, the line buffer over the
    stream, the reading of TPV reports and the fix handed to the feed; and
    that the reports read do not depend on how the stream is cut.

    [now] is the monotonic clock. *)

From Stdlib Require Import String.
From S2P Require Import Prelude CString CFloat HttpText.

Local Open Scope string_scope.
Local Open Scope list_scope.
Local Open Scope Z_scope.

Definition GPS_BUF : nat := 4096.

Record gps_fix := mk_fix {
  gx_lat : spec_float;
  gx_lon : spec_float;
  gx_alt_m : spec_float;
  gx_last_update_s : spec_float;
  gx_has_fix : bool;
}.

Definition no_fix : gps_fix := mk_fix f_zero f_zero f_zero f_zero false.

Definition quoted (s : list Z) : list Z := 34 :: s ++ [34].

(** The number after the key; [None]: absent. *)
Definition find_number (line key : list Z) : option spec_float :=
  let needle := quoted key ++ [58] in
  match strstr needle line with
  | None => None
  | Some (_, p) => strtod (skip_while is_blank (drop (List.length needle) p))
  end.

Definition contains (needle s : list Z) : bool := match strstr needle s with Some _ => true | None => false end.

Definition parse_tpv_line (now : spec_float) (line : list Z) (f : gps_fix) : gps_fix :=
  if negb (contains (quoted (str "class") ++ [58] ++ quoted (str "TPV")) line) then f
  else match find_number line (str "mode") with
  | None => f
  | Some mode =>
      if SFltb mode (f64_of_Z 2) then f
      else match find_number line (str "lat"), find_number line (str "lon") with
      | Some lat, Some lon =>
          let alt := match find_number line (str "altMSL") with Some a => Some a | None => find_number line (str "alt") end in
          mk_fix lat lon (default f_zero alt) now true
      | _, _ => f
      end
  end.

(** ** The line buffer *)

(** The complete lines of the buffer and what is left; strchr stops at a
    NUL. *)
Fixpoint split_at_newlines (fuel : nat) (buf : list Z) : list (list Z) * list Z :=
  match fuel with
  | O => ([], buf)
  | S fuel =>
      match strchr 10 (until_nul buf) with
      | None => ([], buf)
      | Some (line, _) => let '(ls, rest) := split_at_newlines fuel (drop (S (List.length line)) buf) in (line :: ls, rest)
      end
  end.

(** One read: the lines handed to the parser and the bytes kept. *)
Definition gps_read (kept chunk : list Z) : list (list Z) * list Z :=
  let buf := kept ++ chunk in
  let '(ls, rest) := split_at_newlines (S (List.length buf)) buf in
  (List.filter (fun l => negb (list_eqb l [])) ls, if (List.length rest =? GPS_BUF - 1)%nat then [] else rest).

(** A connection: reads of at most the room left until the stream ends. *)
Fixpoint gps_session (fuel : nat) (kept : list Z) (net : list (list Z)) : list (list Z) :=
  match fuel with
  | O => []
  | S fuel =>
      match net with
      | [] | [] :: _ => []
      | seg :: net =>
          let room := (GPS_BUF - 1 - List.length kept)%nat in
          let '(ls, kept) := gps_read kept (take room seg) in
          ls ++ gps_session fuel kept (match drop room seg with [] => net | rest => rest :: net end)
      end
  end.

(** The fix after the lines, the clock of the n-th being [now n]. *)
Fixpoint parse_lines (now : nat -> spec_float) (n : nat) (ls : list (list Z)) (f : gps_fix) : gps_fix :=
  match ls with
  | [] => f
  | l :: t => parse_lines now (S n) t (parse_tpv_line (now n) l f)
  end.

Definition gpsd_get_fix (now : spec_float) (f : gps_fix) : option (spec_float * spec_float * spec_float * spec_float) :=
  if gx_has_fix f then Some (gx_lat f, gx_lon f, gx_alt_m f, f64_sub now (gx_last_update_s f)) else None.

(** ** The endpoint *)

(** [strrchr(s, c)]: what precedes and what follows the last [c]. *)
Definition strrchr (c : Z) (s : list Z) : option (list Z * list Z) :=
  match strchr c (rev s) with Some (b, a) => Some (rev a, rev b) | None => None end.

Definition gpsd_endpoint (endpoint : list Z) : list Z * Z :=
  match endpoint with
  | [] => (str "localhost", 2947)
  | _ =>
      match strrchr 58 endpoint with
      | Some (h, p) =>
          (if (0 <? List.length h)%nat && (List.length h <? 64)%nat then h else str "localhost",
           let p := atoi_c p in if (0 <? p) && (p <? 65536) then p else 2947)
      | None => (take 63 endpoint, 2947)
      end
  end.

(** ** Segmentation *)

Definition line_fits (l : list Z) : Prop := is_cstr l /\ ~ In 10 l /\ (List.length l < GPS_BUF - 1)%nat.

Definition stream (ls : list (list Z)) : list Z := flat_map (fun l => l ++ [10]) ls.

Definition nonempty (ls : list (list Z)) : list (list Z) := List.filter (fun l => negb (list_eqb l [])) ls.

Lemma until_nul_split s c t : is_cstr s -> until_nul (s ++ c :: t) = s ++ (if c =? 0 then [] else c :: until_nul t).
Proof. induction 1 as [|x s Hx _ IH]; [done|]. cbn [app until_nul]. destruct (Z.eqb_spec x 0); [lia|]. by rewrite IH. Qed.

Lemma split_stream ls : Forall line_fits ls -> forall fuel tail, is_cstr tail -> ~ In 10 tail -> (List.length ls < fuel)%nat ->
  split_at_newlines fuel (stream ls ++ tail) = (ls, tail).
Proof.
  induction 1 as [|l ls (Hc & Hn & _) _ IH]; intros fuel tail Ht Hnt Hf; (destruct fuel as [|fuel]; [cbn in Hf; lia|]); cbn [split_at_newlines].
  - cbn [stream flat_map app]. rewrite until_nul_cstr by done. by rewrite strchr_absent.
  - unfold stream. cbn [flat_map]. fold (stream ls). rewrite <- !app_assoc. cbn [app]. rewrite until_nul_split by done. cbn [Z.eqb].
    rewrite strchr_split by done.
    replace (drop (S (List.length l)) (l ++ 10 :: stream ls ++ tail)) with (stream ls ++ tail).
    2:{ replace (S (List.length l)) with (List.length l + 1)%nat by lia. rewrite <- drop_drop, drop_app_length. done. }
    rewrite IH; [done|done|done|cbn in Hf; lia].
Qed.

Lemma stream_len ls : (List.length ls <= List.length (stream ls))%nat.
Proof. induction ls as [|l ls IH]; [done|]. unfold stream. cbn [flat_map]. rewrite !length_app. cbn [List.length]. unfold stream in IH. lia. Qed.

(** A prefix of the stream: whole lines and the beginning of the next. *)
Lemma stream_prefix ls : Forall line_fits ls -> forall a b, stream ls = a ++ b ->
  exists ls1 ls2 part, ls = ls1 ++ ls2 /\ a = stream ls1 ++ part /\ is_cstr part /\ ~ In 10 part /\ (List.length part < GPS_BUF - 1)%nat /\ part ++ b = stream ls2.
Proof.
  induction 1 as [|l ls (Hc & Hn & Hl) Hls IH]; intros a b E.
  - destruct a; [|done]. exists [], [], []. split; [done|]. split; [done|]. split; [apply Forall_nil_2|]. split; [by intros []|]. split; [unfold GPS_BUF; cbn; lia|done].
  - unfold stream in E. cbn [flat_map] in E. fold (stream ls) in E. destruct (Nat.le_gt_cases (S (List.length l)) (List.length a)) as [Hge|Hlt].
    + assert (Ea : a = (l ++ [10]) ++ drop (S (List.length l)) a).
      { rewrite <- (take_drop (S (List.length l)) a) at 1. f_equal. rewrite <- (take_app_le a b) by done. rewrite <- E.
        rewrite take_app_le by (rewrite length_app; cbn; lia). apply take_ge. rewrite length_app. cbn. lia. }
      rewrite Ea in E. rewrite <- !app_assoc in E. apply app_inv_head, (app_inv_head [10]) in E. destruct (IH _ _ E) as (ls1 & ls2 & part & -> & E1 & Hp).
      exists (l :: ls1), ls2, part. split; [done|]. split; [|done]. rewrite Ea, E1. unfold stream. cbn [flat_map]. by rewrite <- !app_assoc.
    + assert (Ea : l = a ++ drop (List.length a) l).
      { rewrite <- (take_drop (List.length a) l) at 1. f_equal. transitivity (take (List.length a) (a ++ b)); [|apply take_app_length].
        rewrite <- E. rewrite <- app_assoc, take_app_le by lia. done. }
      exists [], (l :: ls), a. split; [done|]. split; [done|]. rewrite Ea in Hc, Hn. unfold is_cstr in Hc. apply Forall_app in Hc as [Hc _].
      split; [done|]. split; [intros Hi; apply Hn, in_or_app; by left|]. split; [lia|]. unfold stream. cbn [flat_map]. fold (stream ls). by rewrite E.
Qed.

Lemma session_lines fuel : forall kept net ls, Forall line_fits ls -> kept ++ concat net = stream ls -> is_cstr kept -> ~ In 10 kept ->
  (List.length kept < GPS_BUF - 1)%nat -> Forall (fun seg => seg <> []) net -> (List.length (concat net) < fuel)%nat ->
  gps_session fuel kept net = nonempty ls.
Proof.
  induction fuel as [|fuel IH]; intros kept net ls Hls E Hc Hn Hk Hne Hf; [lia|]. cbn [gps_session].
  destruct net as [|[|b0 seg] net].
  - cbn [concat] in E. rewrite app_nil_r in E. destruct ls as [|l ls]; [done|]. exfalso. apply Hn. rewrite E. unfold stream. cbn [flat_map].
    apply in_or_app. left. apply in_or_app. right. by left.
  - apply Forall_cons in Hne as [Hne _]. done.
  - apply Forall_cons in Hne as [_ Hne]. set (room := (GPS_BUF - 1 - List.length kept)%nat). set (sg := b0 :: seg) in *. unfold gps_read.
    assert (Ec : concat (sg :: net) = take room sg ++ concat (match drop room sg with [] => net | rest => rest :: net end)).
    { cbn [concat]. rewrite <- (take_drop room sg) at 1. rewrite <- app_assoc. f_equal. by destruct (drop room sg). }
    rewrite Ec, app_assoc in E. symmetry in E. destruct (stream_prefix ls Hls _ _ E) as (ls1 & ls2 & part & -> & Ea & Hpc & Hpn & Hpl & Er).
    apply Forall_app in Hls as [Hls1 Hls2]. rewrite Ea at 2. rewrite (split_stream ls1 Hls1); [|done|done|].
    2:{ rewrite Ea, length_app. pose proof (stream_len ls1). lia. }
    rewrite (proj2 (Nat.eqb_neq _ _)) by lia. unfold nonempty. rewrite List.filter_app. f_equal. apply IH; try done.
    + destruct (drop room sg) eqn:Ed; [done|]. by apply Forall_cons_2.
    + rewrite Ec, length_app, length_take in Hf. assert (1 <= room)%nat by (unfold room; lia). assert (1 <= List.length sg)%nat by (unfold sg; cbn; lia). lia.
Qed.


(** A report of 48.25 N 2.5 E, without spaces as gpsd prints it. *)
Definition tpv_demo : list Z :=
  str "{" ++ quoted (str "class") ++ str ":" ++ quoted (str "TPV") ++ str "," ++ quoted (str "mode") ++ str ":3," ++
  quoted (str "lat") ++ str ":48.25," ++ quoted (str "lon") ++ str ":2.5," ++ quoted (str "alt") ++ str ":35}".

Definition gps_net : list (list Z) := [take 20 tpv_demo; drop 20 tpv_demo ++ [10; 10; 123]; [125; 10]].


(** A line longer than the buffer is not dropped whole: its tail is parsed as
    a line of its own. *)
Theorem overlong_line_tail_parsed :
  gps_session 4200 [] [replicate 4095 32 ++ str "tail" ++ [10]] = [str "tail"].
Proof. vm_compute. reflexivity. Qed.
