(* ===== verification/C2Dealer.v ===== *)
(** Remote control over a ZeroMQ DEALER socket (src/c2_dealer.c): the field
    extractor, the handling of a command frame, the heartbeat and one turn of
    the thread; and that a command sent with its body escaped runs with
    exactly that body. *)

From Stdlib Require Import String.
From stdpp Require Import gmap.
From S2P Require Import Prelude CString CFloat Json Keyset MeshCoreRegion Pfb Channelizer ChannelSet ChannelSetFacts HttpText C2.

Local Open Scope string_scope.
Local Open Scope list_scope.
Local Open Scope Z_scope.

(** ** The extractor *)

Definition is_filler (c : Z) : bool := (c =? 32) || (c =? 58) || (c =? 9).

(** The characters up to the closing quote, a backslash taking the next one
    along; [None]: no closing quote. *)
Fixpoint string_body (p : list Z) : option (list Z) :=
  match p with
  | [] => None
  | c :: t =>
      if c =? 34 then Some []
      else if c =? 92 then
        match t with
        | d :: u => option_map (fun r => c :: d :: r) (string_body u)
        | [] => None
        end
      else option_map (cons c) (string_body t)
  end.

Fixpoint unescape (s : list Z) : list Z :=
  match s with
  | [] => []
  | c :: t =>
      if c =? 92 then
        match t with
        | d :: u => (if d =? 110 then 10 else if d =? 116 then 9 else if d =? 114 then 13 else d) :: unescape u
        | [] => [c]
        end
      else c :: unescape t
  end.

Definition ends_value (c : Z) : bool := (c =? 44) || (c =? 125) || (c =? 32) || (c =? 10) || (c =? 13) || (c =? 9).

(** [None] for NULL. *)
Definition json_extract (s field : list Z) : option (list Z) :=
  let needle := q field in
  if (64 <=? List.length needle)%nat then None
  else match strstr needle s with
  | None => None
  | Some (_, p) =>
      match skip_while is_filler (drop (List.length needle) p) with
      | [] => None
      | c :: t =>
          if c =? 34 then option_map unescape (string_body t)
          else match take_until ends_value (c :: t) with [] => None | v => Some v end
      end
  end.

(** ** The socket *)

Definition HEARTBEAT_S : Z := 30.

Definition heartbeat (opt_station_id : option (list Z)) (now : Z) : option (list Z) :=
  let text := str "{" ++ q (str "event") ++ str ":" ++ q (str "HEARTBEAT") ++ str "," ++ q (str "station") ++ str ":" ++
              q (default (str "sniffer") opt_station_id) ++ str "," ++ q (str "ts") ++ str ":" ++ fmt_d now ++ str "}" in
  if (List.length text <? 256)%nat then Some text else None.

Section Dealer.
Context {C F : Type} `{ops : PfbOps C F} (rotation : spec_float -> spec_float -> C).
Context (sha256 : list Z -> option (list Z)) (evp_decode_block : list Z -> option (list Z)).
Context (resolve_host_ipv4 : list Z -> option Z) (o : options) (opt_station_id : option (list Z)).
Abbreviation dispatch := (c2_dispatch rotation sha256 evp_decode_block resolve_host_ipv4 o).

Definition reply_text (id : option (list Z)) (r : c2_response) : list Z :=
  let body := match rs_body r with [] => str "null" | b => b end in
  str "{" ++ match id with Some id => q (str "id") ++ str ":" ++ id ++ str "," | None => [] end ++
  q (str "status") ++ str ":" ++ fmt_d (rs_status r) ++ str "," ++ q (str "body") ++ str ":" ++ body ++ str "}".

(** The state, the frame sent and the effects of the command. *)
Definition handle_command (frame : list Z) (s : system (C := C) (F := F)) : system * option (list Z) * list c2_effect :=
  if (List.length frame =? 0)%nat || (65536 <? Z.of_nat (List.length frame)) then (s, None, [])
  else
    let z := until_nul frame in
    let '(r, s, eff) := dispatch (json_extract z (str "cmd")) (json_extract z (str "body")) s in
    let reply := reply_text (json_extract z (str "id")) r in
    (s, if (List.length reply <? 512)%nat then Some reply else None, eff).

(** One turn after a poll: the frame received, the clock. *)
Definition dealer_turn (frame : option (list Z)) (now : Z) (st : system (C := C) (F := F) * Z)
  : (system (C := C) (F := F) * Z) * list (list Z) * list c2_effect :=
  let '(s, last_hb) := st in
  let '(s, reply, eff) := match frame with Some f => handle_command f s | None => (s, None, []) end in
  let sent := match reply with Some r => [r] | None => [] end in
  if HEARTBEAT_S <=? now - last_hb
  then ((s, now), sent ++ match heartbeat opt_station_id now with Some h => [h] | None => [] end, eff)
  else ((s, last_hb), sent, eff).
End Dealer.

(** ** Frames a client writes *)

Definition escape_char (c : Z) : list Z :=
  if (c =? 34) || (c =? 92) then [92; c] else if c =? 10 then [92; 110] else if c =? 9 then [92; 116] else if c =? 13 then [92; 114] else [c].

Definition escape (s : list Z) : list Z := flat_map escape_char s.

Definition command_frame (id : Z) (cmd body : list Z) : list Z :=
  str "{" ++ q (str "id") ++ str ":" ++ fmt_d id ++ str "," ++ q (str "cmd") ++ str ":" ++ q cmd ++ str "," ++
  q (str "body") ++ str ":" ++ q (escape body) ++ str "}".

Lemma escape_char_cases c : escape_char c = [c] /\ (c =? 34) = false /\ (c =? 92) = false \/ exists d, escape_char c = [92; d].
Proof.
  unfold escape_char. destruct (c =? 34); [right; by eexists|]. destruct (c =? 92); [right; by eexists|]. cbn [orb].
  destruct (c =? 10); [right; by eexists|]. destruct (c =? 9); [right; by eexists|]. destruct (c =? 13); [right; by eexists|]. by left.
Qed.

Lemma string_body_escape s rest : string_body (escape s ++ 34 :: rest) = Some (escape s).
Proof.
  induction s as [|c s IH]; [done|]. unfold escape. cbn [flat_map]. fold (escape s). rewrite <- app_assoc.
  destruct (escape_char_cases c) as [(-> & E1 & E2)|[d ->]]; cbn [Datatypes.app string_body].
  - by rewrite E1, E2, IH.
  - change (92 =? 34) with false. change (92 =? 92) with true. cbn iota. by rewrite IH.
Qed.

Lemma unescape_escape s : unescape (escape s) = s.
Proof.
  induction s as [|c s IH]; [done|]. unfold escape. cbn [flat_map]. fold (escape s). unfold escape_char.
  destruct ((c =? 34) || (c =? 92)) eqn:E1.
  { cbn [Datatypes.app unescape]. change (92 =? 92) with true. cbn iota. rewrite IH. apply orb_prop in E1 as [E|E]; apply Z.eqb_eq in E; by subst c. }
  apply orb_false_iff in E1 as [E1 E2].
  destruct (Z.eqb_spec c 10) as [->|]; [cbn [Datatypes.app unescape]; by rewrite IH|].
  destruct (Z.eqb_spec c 9) as [->|]; [cbn [Datatypes.app unescape]; by rewrite IH|].
  destruct (Z.eqb_spec c 13) as [->|]; [cbn [Datatypes.app unescape]; by rewrite IH|].
  cbn [Datatypes.app unescape]. by rewrite E2, IH.
Qed.

(** ** Finding the fields *)

(** The first two characters of the needle fit nowhere in the text, whatever
    follows it. *)
Fixpoint passes (n0 n1 : Z) (l : list Z) : bool :=
  match l with
  | [] => true
  | c :: t => (negb (c =? n0) || match t with d :: _ => negb (d =? n1) | [] => false end) && passes n0 n1 t
  end.

Lemma strstr_pass n0 n1 n l b : passes n0 n1 l = true ->
  strstr (n0 :: n1 :: n) (l ++ b) = match strstr (n0 :: n1 :: n) b with Some (x, y) => Some (l ++ x, y) | None => None end.
Proof.
  induction l as [|c l IH]; intros H; cbn [Datatypes.app]; [by destruct (strstr _ b) as [[x y]|]|]. cbn [passes] in H. apply andb_prop in H as [Hc H].
  cbn [strstr]. rewrite IH by done.
  assert (Hs : starts_with (n0 :: n1 :: n) (c :: l ++ b) = false).
  { unfold starts_with. cbn [List.length take list_eqb]. destruct (c =? n0); [|done]. cbn [negb orb] in Hc. destruct l as [|d l]; [done|].
    cbn [Datatypes.app take list_eqb]. by destruct (d =? n1). }
  rewrite Hs. by destruct (strstr _ b) as [[x y]|].
Qed.

Lemma strstr_here n b : strstr n (n ++ b) = Some ([], n ++ b).
Proof.
  assert (E : starts_with n (n ++ b) = true) by (apply starts_with_app; by exists b). destruct (n ++ b); cbn [strstr]; by rewrite E.
Qed.

Lemma passes_app n0 n1 a b : passes n0 n1 a = true -> passes n0 n1 b = true -> passes n0 n1 (a ++ b) = true.
Proof.
  intros Ha Hb. induction a as [|c a IH]; [done|]. cbn [Datatypes.app passes] in *. apply andb_prop in Ha as [Hc Ha]. rewrite IH by done.
  rewrite andb_true_r. destruct a as [|d a]; [|done]. apply orb_prop in Hc as [->|Hc]; [done|]. done.
Qed.

Lemma passes_no_quote n1 l : Forall (fun c => c <> 34) l -> passes 34 n1 l = true.
Proof. induction 1 as [|c l Hc _ IH]; [done|]. cbn [passes]. apply Z.eqb_neq in Hc. by rewrite Hc, IH. Qed.

(** The value of the field a text goes on with. *)
Lemma extract_at pre field rest : passes 34 (hd 0 field) pre = true -> field <> [] -> (List.length (q field) < 64)%nat ->
  json_extract (pre ++ q field ++ rest) field =
  match skip_while is_filler rest with
  | [] => None
  | c :: t => if c =? 34 then option_map unescape (string_body t) else match take_until ends_value (c :: t) with [] => None | v => Some v end
  end.
Proof.
  intros Hp Hf Hl. destruct field as [|f0 field]; [done|]. cbn [hd] in Hp. unfold json_extract. cbn zeta. rewrite (proj2 (Nat.leb_gt _ _) Hl).
  change (q (f0 :: field)) with (34 :: f0 :: field ++ [34]) in *. rewrite strstr_pass by done.
  rewrite (strstr_here (34 :: f0 :: field ++ [34]) rest). by rewrite drop_app_length.
Qed.

Definition C2_COMMANDS : list (list Z) := [str "keys_add"; str "share_url"; str "extra_freq"; str "cot_multicast"; str "meshcore_channel_add"].

Definition number_char (c : Z) : Prop := c <> 34 /\ ends_value c = false /\ is_filler c = false /\ 0 < c < 256.

Lemma number_text id : exists c t, fmt_d id = c :: t /\ Forall number_char (c :: t).
Proof.
  assert (Hd : forall l, forallb is_digit l = true -> Forall number_char l).
  { intros l H. apply Forall_forall. intros c Hc. apply list_elem_of_In in Hc. rewrite forallb_forall in H. specialize (H c Hc).
    unfold is_digit in H. zb. unfold number_char, ends_value, is_filler. repeat split; try lia; repeat (apply orb_false_iff; split); apply Z.eqb_neq; lia. }
  unfold fmt_d. destruct (Z.ltb_spec id 0).
  - destruct (dec_digits (- id) ltac:(lia)) as (c & u & -> & H1 & _). eexists 45, (c :: u). split; [done|]. apply Forall_cons_2; [|by apply Hd].
    repeat split; try done; lia.
  - destruct (dec_digits id ltac:(lia)) as (c & u & -> & H1 & _). eexists c, u. split; [done|]. by apply Hd.
Qed.

Lemma take_until_stop p a c b : Forall (fun x => p x = false) a -> p c = true -> take_until p (a ++ c :: b) = a.
Proof. intros Ha Hc. induction Ha as [|x a Hx _ IH]; cbn [Datatypes.app take_until]; [by rewrite Hc|]. by rewrite Hx, IH. Qed.

Lemma frame_fields id cmd body : In cmd C2_COMMANDS ->
  json_extract (command_frame id cmd body) (str "id") = Some (fmt_d id) /\
  json_extract (command_frame id cmd body) (str "cmd") = Some cmd /\
  json_extract (command_frame id cmd body) (str "body") = Some body.
Proof.
  intros Hcmd. destruct (number_text id) as (c & t & En & Hn).
  assert (Hnq : forall n1, passes 34 n1 (fmt_d id ++ str ",") = true).
  { intros n1. apply passes_app; [|done]. rewrite En. apply passes_no_quote. eapply Forall_impl; [exact Hn|]. by intros x [? _]. }
  assert (Hc : forall x, In x C2_COMMANDS -> passes 34 98 (q x ++ str ",") = true /\ unescape x = x /\ forall r, string_body (x ++ 34 :: r) = Some x).
  { intros x Hx. repeat (destruct Hx as [<-|Hx]; [split; [reflexivity|split; [reflexivity|intros r; reflexivity]]|]). destruct Hx. }
  destruct (Hc cmd Hcmd) as (Hc1 & Hc2 & Hc3).
  assert (Ec : command_frame id cmd body = (str "{" ++ q (str "id") ++ str ":" ++ fmt_d id ++ str ",") ++ q (str "cmd") ++
    (58 :: 34 :: cmd ++ 34 :: (str "," ++ q (str "body") ++ str ":" ++ q (escape body) ++ str "}"))).
  { unfold command_frame. change (q cmd) with (34 :: cmd ++ [34]). rewrite <- !app_assoc. cbn [Datatypes.app]. by rewrite <- !app_assoc. }
  assert (Eb : command_frame id cmd body = (str "{" ++ q (str "id") ++ str ":" ++ (fmt_d id ++ str ",") ++ q (str "cmd") ++ str ":" ++ (q cmd ++ str ",")) ++
    q (str "body") ++ (58 :: 34 :: escape body ++ 34 :: str "}")).
  { unfold command_frame. change (q (escape body)) with (34 :: escape body ++ [34]). rewrite <- !app_assoc. cbn [Datatypes.app]. by rewrite <- !app_assoc. }
  split; [|split].
  - unfold command_frame. rewrite (extract_at (str "{") (str "id")) by (done || (apply Nat.ltb_lt; reflexivity)).
    rewrite En. set (r := q (str "cmd") ++ _). clearbody r. apply Forall_cons in Hn as Hn'. destruct Hn' as [(H1 & H2 & H3 & _) _].
    assert (E : skip_while is_filler (str ":" ++ (c :: t) ++ str "," ++ r) = (c :: t) ++ 44 :: r) by (cbn; by rewrite H3).
    rewrite E. cbn [Datatypes.app]. apply Z.eqb_neq in H1. rewrite H1. rewrite app_comm_cons, take_until_stop; [done| |done].
    eapply Forall_impl; [exact Hn|]. by intros x (_ & ? & _).
  - rewrite Ec, (extract_at _ (str "cmd")); [|apply (passes_app _ _ (str "{" ++ q (str "id") ++ str ":")); [done|apply Hnq]|done|apply Nat.ltb_lt; reflexivity].
    cbn [skip_while is_filler Z.eqb Pos.eqb orb option_map]. rewrite Hc3. cbn [option_map]. by rewrite Hc2.
  - rewrite Eb, (extract_at _ (str "body")); [|apply (passes_app _ _ (str "{" ++ q (str "id") ++ str ":")); [done|]; apply passes_app; [apply Hnq|];
      apply (passes_app _ _ (q (str "cmd") ++ str ":")); [done|exact Hc1]|done|apply Nat.ltb_lt; reflexivity].
    cbn [skip_while is_filler Z.eqb Pos.eqb orb]. rewrite string_body_escape. cbn [option_map]. by rewrite unescape_escape.
Qed.

Lemma escape_cstr s : is_cstr s -> is_cstr (escape s).
Proof.
  induction 1 as [|c s Hc _ IH]; [apply Forall_nil_2|]. apply Forall_app. split; [|done]. unfold escape_char.
  repeat case_match; repeat apply Forall_cons_2; try apply Forall_nil_2; lia.
Qed.

Lemma frame_cstr id cmd body : In cmd C2_COMMANDS -> is_cstr body -> is_cstr (command_frame id cmd body).
Proof.
  intros Hcmd Hb. destruct (number_text id) as (c & t & En & Hn). unfold command_frame. rewrite En.
  assert (Hc : is_cstr (q cmd)) by (repeat (destruct Hcmd as [<-|Hcmd]; [cstr_tac|]); destruct Hcmd).
  repeat (apply cstr_app; split; [first [exact Hc|cstr_tac|eapply Forall_impl; [exact Hn|]; by intros x (_ & _ & _ & ?)]|]).
  apply cstr_app. split; [|cstr_tac]. unfold q. apply Forall_cons_2; [lia|]. apply cstr_app. split; [by apply escape_cstr|cstr_tac].
Qed.

(** ** A command runs with its body *)

Section Runs.
Context {C F : Type} `{ops : PfbOps C F} (rotation : spec_float -> spec_float -> C).
Context (sha256 : list Z -> option (list Z)) (evp_decode_block : list Z -> option (list Z)).
Context (resolve_host_ipv4 : list Z -> option Z) (o : options).

Lemma dispatch_answers cmd body (s : system (C := C) (F := F)) : exists st t, In st [200; 400; 404] /\
  fst (fst (c2_dispatch rotation sha256 evp_decode_block resolve_host_ipv4 o cmd body s)) = respond st t.
Proof.
  unfold c2_dispatch, c2_keys_add, c2_share_url, c2_extra_freq, c2_cot_multicast, c2_meshcore_channel_add. cbn zeta.
  repeat case_match; eexists _, _; (split; [|reflexivity]); cbn [In]; tauto.
Qed.
End Runs.

Lemma reply_fits id st t : In st [200; 400; 404] -> (List.length id <= 200)%nat ->
  (List.length (reply_text (Some id) (respond st t)) < 512)%nat.
Proof.
  intros Hst Hid. pose proof (respond_body st t) as Hb. unfold RESPONSE_CAP in Hb. unfold reply_text. set (b := rs_body (respond st t)) in *. cbn zeta.
  assert (Hs : List.length (fmt_d (rs_status (respond st t))) = 3%nat) by (repeat (destruct Hst as [<-|Hst]; [reflexivity|]); destruct Hst).
  assert (Hl : (List.length (match b with [] => str "null" | _ => b end) < 256)%nat) by (destruct b; [cbn; lia|done]).
  destruct b; rewrite !length_app, Hs; cbn [List.length q str Datatypes.app] in *; cbn; lia.
Qed.

(** C29: A command sent to the DEALER socket with its body escaped as JSON
    escapes it runs exactly as the same command given directly: the state and
    the effects are those of the dispatcher on the unescaped body, for every
    body of characters and every command of the program, and one reply is
    sent, which carries the request's id, the status and the body of the
    answer.  The frame need only keep within 64 KiB and the id within 200
    digits. *)
Theorem dealer_runs_command {C F : Type} `{ops : PfbOps C F} rotation sha256 evp_decode_block resolve_host_ipv4 o id cmd body
  (s : system (C := C) (F := F)) :
  In cmd C2_COMMANDS -> is_cstr body -> (List.length (fmt_d id) <= 200)%nat ->
  Z.of_nat (List.length (command_frame id cmd body)) <= 65536 ->
  handle_command rotation sha256 evp_decode_block resolve_host_ipv4 o (command_frame id cmd body) s =
  let '(r, s', eff) := c2_dispatch rotation sha256 evp_decode_block resolve_host_ipv4 o (Some cmd) (Some body) s in
  (s', Some (reply_text (Some (fmt_d id)) r), eff).
Proof.
  intros Hcmd Hb Hid Hl. unfold handle_command. rewrite (proj2 (Z.ltb_ge _ _) Hl), orb_false_r.
  rewrite (proj2 (Nat.eqb_neq (List.length (command_frame id cmd body)) 0)) by (unfold command_frame; cbn; lia).
  rewrite until_nul_cstr by by apply frame_cstr. cbn zeta. destruct (frame_fields id cmd body Hcmd) as (-> & -> & ->).
  destruct (dispatch_answers rotation sha256 evp_decode_block resolve_host_ipv4 o (Some cmd) (Some body) s) as (st & t & Hst & E).
  destruct (c2_dispatch _ _ _ _ _ _ _ s) as [[r s'] eff]. cbn [fst] in E. subst r.
  by rewrite (proj2 (Nat.ltb_lt _ _) (reply_fits (fmt_d id) st t Hst Hid)).
Qed.

(** Two keys, one per line. *)
Definition demo_body : list Z := str "Ops=simple2" ++ [10] ++ str "Cafe=default".

Definition demo_handle (frame : list Z) : system * option (list Z) * list c2_effect :=
  handle_command (ops := z_pfb) z_rotation pad_hash (fun _ => None) (fun _ => None) eu_options frame idle_system.

Lemma dealer_runs_command_witness :
  demo_handle (command_frame 7 (str "keys_add") demo_body) =
  (let '(r, s', eff) := c2_dispatch (ops := z_pfb) z_rotation pad_hash (fun _ => None) (fun _ => None) eu_options
     (Some (str "keys_add")) (Some demo_body) idle_system in (s', Some (reply_text (Some (fmt_d 7)) r), eff)) /\
  snd (fst (demo_handle (command_frame 7 (str "keys_add") demo_body))) =
  Some (str "{" ++ q (str "id") ++ str ":7," ++ q (str "status") ++ str ":200," ++ q (str "body") ++ str ":{" ++ q (str "added") ++ str ":2}}").
Proof.
  split; [|vm_compute; reflexivity].
  apply (dealer_runs_command (ops := z_pfb) z_rotation pad_hash (fun _ => None) (fun _ => None) eu_options 7 (str "keys_add") demo_body idle_system).
  - left. reflexivity.
  - cstr_tac.
  - apply Nat.leb_le. reflexivity.
  - apply Z.leb_le. vm_compute. reflexivity.
Defined.

(** The id is forwarded as it was extracted: an id sent as a JSON string
    comes back without its quotes, and the reply is no JSON. *)
Theorem string_id_loses_quotes :
  snd (fst (demo_handle (str "{" ++ q (str "id") ++ str ":" ++ q (str "a1") ++ str "," ++ q (str "cmd") ++ str ":" ++ q (str "nop") ++ str "}"))) =
  Some (str "{" ++ q (str "id") ++ str ":a1," ++ q (str "status") ++ str ":404," ++ q (str "body") ++ str ":" ++
        error_body (str "unknown cmd") ++ str "}").
Proof. vm_compute. reflexivity. Qed.
