(* ===== verification/Webhook.v ===== *)
(** The webhook sink (src/webhook.c): the allow list, the request bodies, the
    bounded queue and the posting thread as steps between two accesses to
    shared state; and that what is posted is what was published, in order.

    Memory allocation succeeds; whether libcurl starts and how a request ends
    are arguments of the worker's step. *)

From Stdlib Require Import String.
From S2P Require Import Prelude CString CountedQueue Json HttpText.

Local Open Scope string_scope.
Local Open Scope list_scope.
Local Open Scope Z_scope.

Definition WEBHOOK_QUEUE_CAP : nat := 256.
Definition WEBHOOK_MAX_EVENTS : nat := 32.
Definition WEBHOOK_NAME_MAX : nat := 48.

Definition DEFAULT_EVENTS : list (list Z) :=
  [str "PSK_DISCOVERED"; str "OFF_GRID_LORA"; str "GEOFENCE_ENTRY"; str "GEOFENCE_EXIT"].

Inductive webhook_format := WEBHOOK_FORMAT_RAW | WEBHOOK_FORMAT_SLACK | WEBHOOK_FORMAT_DISCORD.

Definition webhook_format_parse (s : list Z) : webhook_format :=
  if strcasecmp_eq s (str "raw") then WEBHOOK_FORMAT_RAW
  else if strcasecmp_eq s (str "slack") then WEBHOOK_FORMAT_SLACK
  else if strcasecmp_eq s (str "discord") then WEBHOOK_FORMAT_DISCORD
  else WEBHOOK_FORMAT_RAW.

(** What the start-up message shows of the address. *)
Definition redacted_url (url : list Z) (out_cap : nat) : list Z :=
  match strstr (str "://") url with
  | None => take (out_cap - 1) (str "<redacted>")
  | Some (scheme, rest) =>
      let host := drop 3 rest in
      let name := match strchr 47 host with Some (n, _) => n | None => host end in
      take (out_cap - 1) (scheme ++ take 3 rest ++ name ++ str "/<redacted>")
  end.

(** ** The allow list *)

Definition allow_sep (c : Z) : bool := (c =? 44) || (c =? 32) || (c =? 9).

(** The parsing loop at [p] with [l] stored; each round consumes a character. *)
Fixpoint parse_allow (fuel : nat) (l : list (list Z)) (p : list Z) : list (list Z) :=
  match fuel, p with
  | O, _ | _, [] => l
  | S fuel, _ =>
      if (List.length l <? WEBHOOK_MAX_EVENTS)%nat then
        let p := skip_while allow_sep p in
        let entry := take_until (Z.eqb 44) p in
        let p := drop (List.length entry) p in
        match trim_end is_blank entry with
        | [] => parse_allow fuel l p
        | e => parse_allow fuel (l ++ [take (WEBHOOK_NAME_MAX - 1) e]) p
        end
      else l
  end.

Definition allow_list (event_csv : list Z) : list (list Z) :=
  match event_csv with
  | [] => DEFAULT_EVENTS
  | _ => parse_allow (List.length event_csv) [] event_csv
  end.

(** ** Request bodies *)

Definition escape_byte (c : Z) : list Z :=
  if c =? 34 then [92; 34]
  else if c =? 92 then [92; 92]
  else if c =? 10 then [92; 110]
  else if c =? 13 then [92; 114]
  else if c =? 9 then [92; 116]
  else if c =? 8 then [92; 98]
  else if c =? 12 then [92; 102]
  else if c <? 32 then [92; 117; 48; 48; hex_char (c / 16); hex_char (c mod 16)]
  else [c].

(** The loop with [w] bytes written of [dstcap]. *)
Fixpoint json_escape (dstcap w : nat) (src : list Z) : list Z :=
  match src with
  | [] => []
  | c :: t =>
      let esc := escape_byte c in
      if (dstcap <? w + List.length esc + 1)%nat then []
      else esc ++ json_escape dstcap (w + List.length esc) t
  end.

Definition envelope_key (f : webhook_format) : list Z :=
  match f with WEBHOOK_FORMAT_SLACK => str "text" | _ => str "content" end.

Definition envelope (key text : list Z) : list Z := 123 :: 34 :: key ++ [34; 58; 34] ++ text ++ [34; 125].

(** The body of a request; [None]: nothing to post. *)
Definition request_body (f : webhook_format) (event_name : list Z) (json summary : option (list Z)) : option (list Z) :=
  match f with
  | WEBHOOK_FORMAT_RAW => match json with Some (c :: t) => Some (c :: t) | _ => None end
  | _ =>
      let text := match summary with Some (c :: t) => c :: t | _ => event_name end in
      let esc := json_escape (List.length text * 6 + 64) 0 text in
      Some (take (List.length esc + 32 - 1) (envelope (envelope_key f) esc))
  end.

(** ** The sink *)

(** Where the posting thread is: before libcurl is set up, at the head of its
    loop, with a request under way, or gone. *)
Inductive poster := Starting | Looping | Posting (body : list Z) | Gone.

Record webhook := mk_webhook {
  wh_started : bool;
  wh_run : bool;
  wh_joining : bool;   (* webhook_stop waits for the thread *)
  wh_format : webhook_format;
  wh_allow : list (list Z);
  wh_timeout_ms : Z;
  wh_queue : cqueue (list Z);
  wh_poster : poster;
  wh_queued : Z;
  wh_sent : Z;
  wh_dropped : Z;
  wh_failed : Z;
}.

(** Called once, on the zero-initialised statics; [created]: the thread was. *)
Definition webhook_init (url event_csv : list Z) (timeout_ms : Z) (format : webhook_format) (created : bool) : webhook :=
  let off := mk_webhook false false false WEBHOOK_FORMAT_RAW [] 1000 (cq_create [] WEBHOOK_QUEUE_CAP) Gone 0 0 0 0 in
  match url with
  | [] => off
  | _ =>
      let timeout_ms := if timeout_ms <? 100 then 100 else timeout_ms in
      let timeout_ms := if 30000 <? timeout_ms then 30000 else timeout_ms in
      let w := off {{ wh_timeout_ms := timeout_ms; wh_format := format; wh_allow := allow_list event_csv }} in
      if created then w {{ wh_run := true; wh_started := true; wh_poster := Starting }} else w
  end.

(** What a step does to a request. *)
Inductive wh_event := Queued (body : list Z) | Refused (body : list Z) | Posted (body : list Z) (ok : bool) | Discarded (body : list Z).

Definition event_allowed (w : webhook) (name : list Z) : bool := existsb (fun a => strcmp_eq a name) (wh_allow w).

Definition webhook_publish (w : webhook) (event_name : option (list Z)) (json summary : option (list Z)) : webhook * list wh_event :=
  match event_name with
  | None => (w, [])
  | Some name =>
      if negb (wh_started w) || negb (event_allowed w name) then (w, [])
      else match request_body (wh_format w) name json summary with
           | None => (w, [])
           | Some body =>
               match cq_push (wh_queue w) body with
               | None => (w {{ wh_dropped := u64 (wh_dropped w + 1) }}, [Refused body])
               | Some q => (w {{ wh_queue := q; wh_queued := u64 (wh_queued w + 1) }}, [Queued body])
               end
           end
  end.

(** The drain at shut-down, while [g_count > 0]. *)
Fixpoint drop_queue (n : nat) (q : cqueue (list Z)) : cqueue (list Z) * list wh_event :=
  match n with
  | O => (q, [])
  | S n => match cq_pop q with
           | Some (b, q) => let '(q, ev) := drop_queue n q in (q, Discarded b :: ev)
           | None => (q, [])
           end
  end.

(** The thread up to its next access to shared state; [ok]: libcurl could be
    set up, or the request under way was answered with a 2xx. *)
Definition webhook_thread (w : webhook) (ok : bool) : webhook * list wh_event :=
  match wh_poster w with
  | Starting => if ok then (w {{ wh_poster := Looping }}, []) else (w {{ wh_run := false; wh_poster := Gone }}, [])
  | Looping =>
      if wh_run w then
        match cq_pop (wh_queue w) with
        | Some (b, q) => (w {{ wh_queue := q; wh_poster := Posting b }}, [])
        | None => (w, [])
        end
      else
        let '(q, ev) := drop_queue (cq_size (wh_queue w)) (wh_queue w) in
        (w {{ wh_queue := q; wh_poster := Gone }}, ev)
  | Posting b =>
      if ok then (w {{ wh_sent := u64 (wh_sent w + 1); wh_poster := Looping }}, [Posted b true])
      else (w {{ wh_failed := u64 (wh_failed w + 1); wh_poster := Looping }}, [Posted b false])
  | Gone => (w, [])
  end.

(** webhook_stop up to the join, and after it. *)
Definition webhook_stop_request (w : webhook) : webhook := if wh_started w then w {{ wh_run := false; wh_joining := true }} else w.
Definition webhook_stop_joined (w : webhook) : webhook :=
  match wh_poster w with
  | Gone => if wh_joining w then w {{ wh_started := false; wh_joining := false }} else w
  | _ => w
  end.

Inductive wh_step :=
| Publish (event_name json summary : option (list Z))
| Work (ok : bool)
| StopRequest
| StopJoined.

Definition wh_do (w : webhook) (st : wh_step) : webhook * list wh_event :=
  match st with
  | Publish n j s => webhook_publish w n j s
  | Work ok => webhook_thread w ok
  | StopRequest => (webhook_stop_request w, [])
  | StopJoined => (webhook_stop_joined w, [])
  end.

Fixpoint wh_run_steps (w : webhook) (sts : list wh_step) : webhook * list wh_event :=
  match sts with
  | [] => (w, [])
  | st :: sts => let '(w, ev) := wh_do w st in let '(w, ev') := wh_run_steps w sts in (w, ev ++ ev')
  end.

(** ** The bodies are JSON *)

Lemma escape_byte_esc c : c <> 8 -> c <> 12 -> escape_byte c = esc c.
Proof.
  intros H8 H12. unfold escape_byte, esc. destruct (Z.eqb_spec c 34) as [->|]; [done|]. destruct (Z.eqb_spec c 92) as [->|]; [done|]. cbn [orb].
  destruct (c =? 10), (c =? 13), (c =? 9); try done. destruct (Z.eqb_spec c 8); [lia|]. by destruct (Z.eqb_spec c 12); [lia|].
Qed.

Lemma parse_escape c t : is_byte c -> parse_str (escape_byte c ++ t) = prepend [c] (parse_str t).
Proof.
  intros Hc. destruct (Z.eq_dec c 8) as [->|]; [done|]. destruct (Z.eq_dec c 12) as [->|]; [done|]. rewrite escape_byte_esc by done. by apply parse_esc.
Qed.

Lemma parse_escaped s r : bytes_ok s -> parse_str (flat_map escape_byte s ++ 34 :: r) = Some (s, r).
Proof.
  induction 1 as [|c s Hc _ IH]; [reflexivity|]. cbn [flat_map]. by rewrite <- app_assoc, parse_escape, IH.
Qed.

Lemma escape_length c : (List.length (escape_byte c) <= 6)%nat.
Proof. unfold escape_byte. repeat case_match; cbn; lia. Qed.

Lemma json_escape_whole s : forall cap w, (w + 6 * List.length s < cap)%nat -> json_escape cap w s = flat_map escape_byte s.
Proof.
  induction s as [|c s IH]; intros cap w H; [done|]. cbn [json_escape flat_map List.length] in *. pose proof (escape_length c).
  rewrite (proj2 (Nat.ltb_ge _ _)) by lia. rewrite IH by lia. done.
Qed.

Lemma request_body_text f name json summary : f <> WEBHOOK_FORMAT_RAW ->
  request_body f name json summary =
  Some (envelope (envelope_key f) (flat_map escape_byte (match summary with Some (c :: t) => c :: t | _ => name end))).
Proof.
  intros Hf. unfold request_body. set (text := match summary with Some (c :: t) => c :: t | _ => name end).
  assert (Hk : (List.length (envelope_key f) <= 7)%nat) by (destruct f; cbn; lia).
  destruct f; [done| |]; cbn zeta; rewrite json_escape_whole by lia; rewrite take_ge; try done;
    unfold envelope; cbn [List.length]; rewrite !length_app; cbn [List.length] in *; lia.
Qed.

Lemma envelope_json f text : bytes_ok text -> json_parse (envelope (envelope_key f) (flat_map escape_byte text)) = Some (JObj [(envelope_key f, JStr text)]).
Proof.
  intros Hb. unfold envelope. set (r := flat_map escape_byte text ++ [34; 125]). assert (Er : parse_str r = Some (text, [125])) by by apply parse_escaped.
  clearbody r. set (k := envelope_key f).
  assert (Hk : k = str "text" \/ k = str "content") by (destruct f; auto). clearbody k.
  unfold json_parse. destruct Hk as [-> | ->];
    [set (k := str "text")|set (k := str "content")]; vm_compute in k; subst k; cbn; by rewrite Er.
Qed.

(** ** Requests are posted in order *)

Definition queued (tr : list wh_event) : list (list Z) := omap (fun e => match e with Queued b => Some b | _ => None end) tr.
Definition posted (tr : list wh_event) : list (list Z) := omap (fun e => match e with Posted b _ => Some b | _ => None end) tr.
Definition delivered (tr : list wh_event) : list (list Z) := omap (fun e => match e with Posted b true => Some b | _ => None end) tr.
Definition discarded (tr : list wh_event) : list (list Z) := omap (fun e => match e with Discarded b => Some b | _ => None end) tr.
Definition refused (tr : list wh_event) : list (list Z) := omap (fun e => match e with Refused b => Some b | _ => None end) tr.

Definition under_way (w : webhook) : list (list Z) := match wh_poster w with Posting b => [b] | _ => [] end.

(** The sink after the trace [tr]. *)
Record wh_ok (w : webhook) (tr : list wh_event) : Prop := {
  wo_queue : cq_ok (wh_queue w) /\ cq_cap (wh_queue w) = WEBHOOK_QUEUE_CAP;
  wo_order : queued tr = posted tr ++ under_way w ++ discarded tr ++ cq_list (wh_queue w);
  wo_discarded : wh_poster w = Gone \/ discarded tr = [];
  wo_queued : wh_queued w = u64 (Z.of_nat (List.length (queued tr)));
  wo_sent : wh_sent w = u64 (Z.of_nat (List.length (delivered tr)));
  wo_failed : wh_failed w = u64 (Z.of_nat (List.length (posted tr) - List.length (delivered tr)));
  wo_dropped : wh_dropped w = u64 (Z.of_nat (List.length (refused tr)));
}.

Lemma u64_succ n : u64 (u64 (Z.of_nat n) + 1) = u64 (Z.of_nat (S n)).
Proof. unfold u64, wrap. rewrite Zplus_mod_idemp_l. f_equal. lia. Qed.

Lemma delivered_le tr : (List.length (delivered tr) <= List.length (posted tr))%nat.
Proof. induction tr as [|e tr IH]; [cbn; lia|]. unfold delivered, posted in *. destruct e as [| |b [|]|]; cbn [omap list_omap List.length]; lia. Qed.

Lemma publish_ok w tr n j s : wh_ok w tr -> let '(w', ev) := webhook_publish w n j s in wh_ok w' (tr ++ ev).
Proof.
  intros H. unfold webhook_publish. destruct n as [n|]; [|by rewrite app_nil_r]. destruct (_ || _); [by rewrite app_nil_r|].
  destruct (request_body _ _ _ _) as [b|]; [|by rewrite app_nil_r]. destruct H as [[H1 H1'] H2 H3 H4 H5 H6 H7].
  pose proof (cq_push_spec (wh_queue w) b H1) as Hp. unfold queued, posted, delivered, discarded, refused in *.
  destruct (cq_push _ b) as [q'|].
  - destruct Hp as (P1 & P2 & P3). split; rcbn; unfold queued, posted, delivered, discarded, refused; rewrite ?omap_app; cbn [omap list_omap];
      rewrite ?app_nil_r; try done; [by rewrite P3| |].
    + rewrite H2, P2. unfold under_way. rcbn. by rewrite <- !app_assoc.
    + rewrite H4, u64_succ, length_app, Nat.add_1_r. done.
  - split; rcbn; unfold queued, posted, delivered, discarded, refused; rewrite ?omap_app; cbn [omap list_omap]; rewrite ?app_nil_r; try done.
    rewrite H7, u64_succ, length_app, Nat.add_1_r. done.
Qed.

Lemma cq_pop_cap (q q' : cqueue (list Z)) b : cq_pop q = Some (b, q') -> cq_cap q' = cq_cap q.
Proof. unfold cq_pop. destruct (_ =? _)%nat; [done|]. destruct (_ !! _); [|done]. by intros [= _ <-]. Qed.

Lemma drop_queue_spec n : forall q, cq_ok q -> (List.length (cq_list q) <= n)%nat ->
  let '(q', ev) := drop_queue n q in
  cq_ok q' /\ cq_cap q' = cq_cap q /\ cq_list q' = [] /\ ev = map Discarded (cq_list q).
Proof.
  induction n as [|n IH]; intros q Hq Hn; cbn [drop_queue]; [by destruct (cq_list q); [|cbn in Hn; lia]|].
  pose proof (cq_pop_spec q Hq) as Hp. destruct (cq_pop q) as [[b q1]|] eqn:E; [|by rewrite Hp]. destruct Hp as [Hq1 El].
  rewrite El in Hn. cbn in Hn. specialize (IH q1 Hq1 ltac:(lia)). destruct (drop_queue n q1) as [q' ev]. destruct IH as (I1 & I2 & I3 & ->).
  rewrite I2, El. by rewrite (cq_pop_cap _ _ _ E).
Qed.

Lemma omap_discarded l : discarded (map Discarded l) = l /\ queued (map Discarded l) = [] /\ posted (map Discarded l) = [] /\
  delivered (map Discarded l) = [] /\ refused (map Discarded l) = [].
Proof. induction l as [|b l (I1 & I2)]; [done|]. unfold discarded in *. cbn [map omap list_omap]. by rewrite I1. Qed.

Ltac trace_tac := unfold queued, posted, delivered, discarded, refused in *; rewrite ?omap_app; cbn [omap list_omap]; rewrite ?app_nil_r.

Lemma work_ok w tr ok : wh_ok w tr -> let '(w', ev) := webhook_thread w ok in wh_ok w' (tr ++ ev).
Proof.
  intros H. pose proof H as [[H1 H1'] H2 H3 H4 H5 H6 H7]. unfold webhook_thread. unfold under_way in H2.
  destruct (wh_poster w) as [| |b|] eqn:Ep; [| | |by rewrite app_nil_r].
  - destruct H3 as [?|H3]; [done|]. destruct ok; split; trace_tac; unfold under_way; rcbn; auto.
  - destruct H3 as [?|H3]; [done|]. destruct (wh_run w).
    + pose proof (cq_pop_spec _ H1) as Hp. destruct (cq_pop (wh_queue w)) as [[b q']|] eqn:E; [|by rewrite app_nil_r].
      destruct Hp as [P1 P2]. split; trace_tac; unfold under_way; rcbn; auto; [by rewrite (cq_pop_cap _ _ _ E)|].
      rewrite H2, P2, H3. done.
    + pose proof (drop_queue_spec (cq_size (wh_queue w)) _ H1 ltac:(by rewrite cq_list_length)) as Hd.
      destruct (drop_queue _ _) as [q' ev]. destruct Hd as (D1 & D2 & D3 & ->). destruct (omap_discarded (cq_list (wh_queue w))) as (O1 & O2 & O3 & O4 & O5).
      unfold queued, posted, delivered, discarded, refused in *.
      split; unfold queued, posted, delivered, discarded, refused, under_way; rcbn; rewrite ?omap_app, ?O1, ?O2, ?O3, ?O4, ?O5, ?app_nil_r; auto;
        [by rewrite D2|]. rewrite H2, H3, D3. by rewrite !app_nil_r.
  - destruct H3 as [?|H3]; [done|]. pose proof (delivered_le tr) as Hl.
    destruct ok; split; trace_tac; unfold under_way; rcbn; auto; rewrite ?length_app, ?Nat.add_1_r; cbn [List.length].
    + rewrite H2. by rewrite <- !app_assoc.
    + by rewrite H5, u64_succ.
    + exact H6.
    + rewrite H2. by rewrite <- !app_assoc.
    + rewrite H6, u64_succ. do 2 f_equal. rewrite Nat.sub_succ_l by done. done.
Qed.

Lemma stop_ok w tr : wh_ok w tr -> wh_ok (webhook_stop_request w) tr /\ wh_ok (webhook_stop_joined w) tr.
Proof.
  intros H. pose proof H as [H1 H2 H3 H4 H5 H6 H7]. unfold webhook_stop_request, webhook_stop_joined. split.
  - destruct (wh_started w); [|done]. by split; rcbn.
  - destruct (wh_poster w) eqn:E; [done|done|done|]. destruct (wh_joining w); [|done]. split; unfold under_way in *; rcbn; rewrite ?E in *; auto.
Qed.

Lemma steps_ok sts : forall w tr, wh_ok w tr -> let '(w', ev) := wh_run_steps w sts in wh_ok w' (tr ++ ev).
Proof.
  induction sts as [|st sts IH]; intros w tr H; cbn [wh_run_steps]; [by rewrite app_nil_r|].
  assert (Hs : let '(w1, ev) := wh_do w st in wh_ok w1 (tr ++ ev)).
  { destruct st; cbn [wh_do]; [by apply publish_ok|by apply work_ok|rewrite app_nil_r; by apply stop_ok|rewrite app_nil_r; by apply stop_ok]. }
  destruct (wh_do w st) as [w1 ev]. specialize (IH w1 (tr ++ ev) Hs). destruct (wh_run_steps w1 sts) as [w' ev']. by rewrite app_assoc.
Qed.

Lemma webhook_init_ok url csv t f created : wh_ok (webhook_init url csv t f created) [].
Proof.
  destruct (cq_create_ok (A := list Z) [] WEBHOOK_QUEUE_CAP) as [Hq Hl]; [unfold WEBHOOK_QUEUE_CAP; lia|].
  assert (Hc : cq_cap (cq_create (A := list Z) [] WEBHOOK_QUEUE_CAP) = WEBHOOK_QUEUE_CAP) by reflexivity.
  unfold webhook_init. destruct url; [by split; auto|]. cbn zeta. destruct created; by split; unfold under_way; rcbn; auto.
Qed.

(** ** Where the requests come from *)

Definition headline (name : list Z) (summary : option (list Z)) : list Z := match summary with Some (c :: t) => c :: t | _ => name end.

(** What a request says of the event it was made for. *)
Definition carries (f : webhook_format) (name : list Z) (json summary : option (list Z)) (b : list Z) : Prop :=
  match f with
  | WEBHOOK_FORMAT_RAW => json = Some b
  | _ => bytes_ok (headline name summary) -> json_parse b = Some (JObj [(envelope_key f, JStr (headline name summary))])
  end.

Lemma body_carries f name json summary b : request_body f name json summary = Some b -> carries f name json summary b.
Proof.
  intros E. unfold carries. destruct f.
  - unfold request_body in E. destruct json as [[|c t]|]; congruence.
  - rewrite request_body_text in E by done. apply (inj Some) in E as <-. apply envelope_json.
  - rewrite request_body_text in E by done. apply (inj Some) in E as <-. apply envelope_json.
Qed.

Definition configured (f : webhook_format) (allow : list (list Z)) (w : webhook) : Prop :=
  wh_started w = true -> wh_format w = f /\ wh_allow w = allow.

Lemma step_configured f allow w st : configured f allow w -> configured f allow (fst (wh_do w st)).
Proof.
  intros H. unfold configured. destruct st as [[n|] j s|ok| |]; cbn [wh_do]; [|done| | |].
  - unfold webhook_publish. destruct (_ || _); [done|]. destruct (request_body _ _ _ _); [|done]. by destruct (cq_push _ _).
  - unfold webhook_thread. destruct (wh_poster w); [by destruct ok| |by destruct ok|done]. destruct (wh_run w); [by destruct (cq_pop _) as [[? ?]|]|].
    by destruct (drop_queue _ _).
  - unfold webhook_stop_request. by destruct (wh_started w).
  - unfold webhook_stop_joined. destruct (wh_poster w); try done. by destruct (wh_joining w).
Qed.

Lemma step_queued f allow w st b : configured f allow w -> In b (queued (snd (wh_do w st))) ->
  exists name json summary, st = Publish (Some name) json summary /\ In name allow /\ request_body f name json summary = Some b.
Proof.
  intros H. unfold queued. destruct st as [[n|] j s|ok| |]; cbn [wh_do snd]; try done.
  - unfold webhook_publish. destruct (wh_started w) eqn:Es; [|done]. destruct (event_allowed w n) eqn:Ea; [|done]. cbn [negb orb].
    destruct (H Es) as [Hf Hl]. destruct (request_body (wh_format w) n j s) as [b'|] eqn:Eb; [|done].
    destruct (cq_push _ _); [|done]. cbn. intros [<-|[]]. exists n, j, s. split; [done|]. rewrite Hf in Eb. split; [|done].
    unfold event_allowed in Ea. apply existsb_exists in Ea as (x & Hx & E). apply list_eqb_eq in E as ->. by rewrite <- Hl.
  - unfold webhook_thread. destruct (wh_poster w); [by destruct ok| |by destruct ok|done]. destruct (wh_run w); [by destruct (cq_pop _) as [[? ?]|]|].
    destruct (drop_queue _ _) as [q' ev] eqn:E. cbn [snd]. intros Hb. exfalso. revert E Hb.
    generalize (cq_size (wh_queue w)) as n. generalize (wh_queue w) as q. intros q n. revert q q' ev. induction n as [|n IH]; intros q q' ev; cbn [drop_queue].
    + by intros [= _ <-].
    + destruct (cq_pop q) as [[x q1]|]; [|by intros [= _ <-]]. destruct (drop_queue n q1) as [q2 ev'] eqn:E. intros [= _ <-] Hb. exact (IH _ _ _ E Hb).
Qed.

Lemma steps_queued f allow sts : forall w b, configured f allow w -> In b (queued (snd (wh_run_steps w sts))) ->
  exists name json summary, In (Publish (Some name) json summary) sts /\ In name allow /\ request_body f name json summary = Some b.
Proof.
  induction sts as [|st sts IH]; intros w b H; cbn [wh_run_steps]; [done|]. pose proof (step_configured f allow w st H) as H1.
  pose proof (step_queued f allow w st b H) as H2. destruct (wh_do w st) as [w1 ev]. cbn [fst snd] in *. specialize (IH w1 b H1).
  destruct (wh_run_steps w1 sts) as [w' ev']. cbn [snd] in *. unfold queued in *. rewrite omap_app. intros [Hb|Hb]%in_app_or.
  - destruct (H2 Hb) as (n & j & s & -> & Hr). exists n, j, s. split; [by left|done].
  - destruct (IH Hb) as (n & j & s & Hs & Hr). exists n, j, s. split; [by right|done].
Qed.

(** C24: The webhook posts what was published, in order.  Under every
    interleaving of publishers, the posting thread and a stop, the requests
    queued are exactly those posted, followed by the one under way, those
    thrown away at shut-down and those still waiting, in that order, and at
    most 256 wait; each was made for a published event of the configured
    allow list and carries that event's line verbatim or, for Slack and
    Discord, is a JSON object of its summary; and the four counters count
    the requests queued, refused by a full queue, answered and failed. *)
Theorem webhook_posts_in_order url csv timeout_ms f created sts w tr :
  wh_run_steps (webhook_init url csv timeout_ms f created) sts = (w, tr) ->
  queued tr = posted tr ++ under_way w ++ discarded tr ++ cq_list (wh_queue w) /\
  (List.length (cq_list (wh_queue w)) <= WEBHOOK_QUEUE_CAP)%nat /\
  (forall b, In b (queued tr) -> exists name json summary,
     In (Publish (Some name) json summary) sts /\ In name (allow_list csv) /\ carries f name json summary b) /\
  wh_queued w = u64 (Z.of_nat (List.length (queued tr))) /\ wh_dropped w = u64 (Z.of_nat (List.length (refused tr))) /\
  wh_sent w = u64 (Z.of_nat (List.length (delivered tr))) /\
  wh_failed w = u64 (Z.of_nat (List.length (posted tr) - List.length (delivered tr))).
Proof.
  intros E. pose proof (steps_ok sts _ [] (webhook_init_ok url csv timeout_ms f created)) as H. rewrite E in H. destruct H as [[H1 H1'] H2 _ H4 H5 H6 H7].
  split; [done|]. split; [|split; [|done]].
  - rewrite cq_list_length by done. rewrite <- H1'. apply (cq_size_le _ H1).
  - intros b Hb. destruct (steps_queued f (allow_list csv) sts (webhook_init url csv timeout_ms f created) b) as (n & j & s & Hs & Hn & Hr).
    + unfold configured, webhook_init. destruct url; [done|]. cbn zeta. by destruct created.
    + by rewrite E.
    + exists n, j, s. split; [done|]. split; [done|]. by apply body_carries.
Qed.

Definition demo_steps : list wh_step :=
  [Publish (Some (str "GEOFENCE_EXIT")) None (Some (str "node left" ++ [10])); Publish (Some (str "STATS")) None None; Work true; Work true; Work true].

Lemma webhook_posts_in_order_witness :
  let '(w, tr) := wh_run_steps (webhook_init (str "https://h/x") [] 1000 WEBHOOK_FORMAT_SLACK true) demo_steps in
  posted tr = [envelope (str "text") (str "node left\n")] /\ wh_sent w = 1 /\
  queued tr = posted tr ++ under_way w ++ discarded tr ++ cq_list (wh_queue w).
Proof.
  destruct (wh_run_steps (webhook_init (str "https://h/x") [] 1000 WEBHOOK_FORMAT_SLACK true) demo_steps) as [w tr] eqn:E.
  pose proof (webhook_posts_in_order _ _ _ _ _ _ _ _ E) as (H & _).
  split; [|split; [|exact H]]; vm_compute in E; injection E as <- <-; reflexivity.
Defined.

(** ** The configured names *)

Fixpoint join_names (ns : list (list Z)) : list Z :=
  match ns with [] => [] | [n] => n | n :: ns => n ++ 44 :: join_names ns end.

Definition name_ok (n : list Z) : Prop :=
  n <> [] /\ Forall (fun c => allow_sep c = false) n /\ (List.length n < WEBHOOK_NAME_MAX)%nat.

Lemma no_sep_char c : allow_sep c = false -> (44 =? c) = false /\ is_blank c = false.
Proof. unfold allow_sep, is_blank. intros H. apply orb_false_iff in H as [H H3]. apply orb_false_iff in H as [H1 H2]. by rewrite Z.eqb_sym, H1, H2, H3. Qed.

Lemma name_entry n r : name_ok n -> (r = [] \/ exists r', r = 44 :: r') ->
  skip_while allow_sep (n ++ r) = n ++ r /\ take_until (Z.eqb 44) (n ++ r) = n /\ trim_end is_blank n = n /\ take (WEBHOOK_NAME_MAX - 1) n = n.
Proof.
  intros (Hne & Hs & Hl) Hr. split; [|split; [|split]].
  - destruct n as [|c n]; [done|]. apply Forall_cons in Hs as [Hc _]. cbn [Datatypes.app skip_while]. by rewrite Hc.
  - clear Hne Hl. induction Hs as [|c n Hc _ IH]; cbn [Datatypes.app take_until].
    + destruct Hr as [->|[r' ->]]; done.
    + destruct (no_sep_char c Hc) as [-> _]. by rewrite IH.
  - unfold trim_end. assert (Hv : Forall (fun c => is_blank c = false) (rev n)).
    { apply Forall_rev. eapply Forall_impl; [exact Hs|]. intros c Hc. apply (no_sep_char c Hc). }
    assert (E : skip_while is_blank (rev n) = rev n) by (destruct Hv as [|c l Hc]; [done|]; cbn [skip_while]; by rewrite Hc). rewrite E. apply rev_involutive.
  - apply take_ge. lia.
Qed.

(** The allow list given as names joined by commas is those names. *)
Lemma parse_allow_names ns : Forall name_ok ns -> forall fuel l p, (List.length p <= fuel)%nat -> (List.length l + List.length ns <= WEBHOOK_MAX_EVENTS)%nat ->
  p = join_names ns \/ p = 44 :: join_names ns -> parse_allow fuel l p = l ++ ns.
Proof.
  induction 1 as [|n ns Hn Hns IH]; intros fuel l p Hf Hl Hp.
  - rewrite app_nil_r. destruct Hp as [->| ->]; destruct fuel as [|fuel]; try done; cbn [parse_allow]. destruct (_ <? _)%nat; [|done].
    cbn [skip_while take_until trim_end rev drop List.length]. by destruct fuel.
  - assert (Hj : exists r, join_names (n :: ns) = n ++ r /\ (r = [] /\ ns = [] \/ r = 44 :: join_names ns)).
    { destruct ns as [|m ns]; [exists []|exists (44 :: join_names (m :: ns))]; cbn [join_names]; rewrite ?app_nil_r; auto. }
    destruct Hj as (r & Ej & Hr). assert (Hr' : r = [] \/ exists r', r = 44 :: r') by (destruct Hr as [[-> _]| ->]; eauto).
    destruct (name_entry n r Hn Hr') as (E1 & E2 & E3 & E4). pose proof (proj1 Hn) as Hne.
    assert (Es : skip_while allow_sep p = n ++ r) by (rewrite Ej in Hp; destruct Hp as [->| ->]; [done|cbn [skip_while]; done]).
    assert (Hlen : (List.length (n ++ r) <= List.length p)%nat) by (rewrite Ej in Hp; destruct Hp as [->| ->]; cbn [List.length]; lia).
    assert (H0 : (0 < List.length n)%nat) by (destruct n; [done|cbn; lia]). rewrite length_app in Hlen. cbn [List.length] in Hl.
    destruct p as [|c p]; [cbn in Hlen; lia|]. destruct fuel as [|fuel]; [cbn in Hf; lia|]. cbn [parse_allow].
    rewrite (proj2 (Nat.ltb_lt _ _)) by lia. cbn zeta. rewrite Es, E2, E3, drop_app_length.
    destruct n as [|c0 n]; [done|]. rewrite E4. change (l ++ (c0 :: n) :: ns) with (l ++ [c0 :: n] ++ ns). rewrite app_assoc.
    cbn [List.length] in Hf.
    assert (G : forall q, (List.length q <= fuel)%nat -> q = join_names ns \/ q = 44 :: join_names ns -> parse_allow fuel (l ++ [c0 :: n]) q = (l ++ [c0 :: n]) ++ ns).
    { intros q Hq Hq'. apply IH; [done|rewrite length_app; cbn; lia|done]. }
    cbn [List.length] in Hlen. destruct Hr as [[-> ->]| ->]; apply G; [cbn; lia|by left|lia|by right].
Qed.

Theorem allow_list_names ns : Forall name_ok ns -> ns <> [] -> (List.length ns <= WEBHOOK_MAX_EVENTS)%nat -> allow_list (join_names ns) = ns.
Proof.
  intros Hns Hne Hl. unfold allow_list. destruct (join_names ns) as [|c t] eqn:E.
  - destruct Hns as [|n ns (Hn & _) _]; [done|]. destruct ns; cbn [join_names] in E; [done|]. by apply app_nil in E as [-> _].
  - rewrite (parse_allow_names ns Hns _ [] (c :: t)); [done|done|done|by left].
Qed.

(** ** Defects *)

(** When libcurl cannot be set up the thread ends and clears [g_run]; the
    publishers look at [g_started] and go on filling the queue. *)
Theorem curl_failure_keeps_queueing :
  let '(w, tr) := wh_run_steps (webhook_init (str "https://h/x") [] 1000 WEBHOOK_FORMAT_SLACK true)
    [Work false; Publish (Some (str "GEOFENCE_EXIT")) None None] in
  wh_run w = false /\ wh_poster w = Gone /\ List.length (cq_list (wh_queue w)) = 1%nat /\ queued tr <> [].
Proof. vm_compute. repeat split; discriminate. Qed.

(** An address without a path is logged whole, its query included. *)
Theorem query_not_redacted : redacted_url (str "https://h?token=s3cret") 256 = str "https://h?token=s3cret/<redacted>".
Proof. reflexivity. Qed.
