(* ===== verification/PcapOut.v ===== *)
(** The pcap output (src/pcap_out.c): the file header and one record per
    frame, and that a reader of the format gets the frames back.

    The host is little-endian.  Writing a record puts all of it into the file
    or fails after a part of it; the outcome is an argument. *)

From S2P Require Import Prelude Protobuf PbMessage MeshPacketFacts MeshCoreFacts.

Local Open Scope Z_scope.

Definition PCAP_MAGIC : Z := 2712847316.
Definition PCAP_VER_MAJOR : Z := 2.
Definition PCAP_VER_MINOR : Z := 4.
Definition PCAP_SNAPLEN : Z := 65535.
Definition DLT_USER0 : Z := 147.

(** [g_started], whether [g_fp] is set, and what the file holds. *)
Record pcap := mk_pcap { pc_started : bool; pc_open : bool; pc_file : list Z }.

Definition write_global_header : list Z :=
  enc_fixed 4 PCAP_MAGIC ++ enc_fixed 2 PCAP_VER_MAJOR ++ enc_fixed 2 PCAP_VER_MINOR ++
  enc_fixed 4 0 ++ enc_fixed 4 0 ++ enc_fixed 4 PCAP_SNAPLEN ++ enc_fixed 4 DLT_USER0.

(** [ready]: the FIFO exists or could be made, and the file was opened. *)
Definition pcap_out_init (ready : bool) : pcap :=
  if ready then mk_pcap true true write_global_header else mk_pcap false false [].

Inductive write_outcome := Written | FailedAfter (n : nat).

Definition record_of (bytes : list Z) (ts_sec ts_usec : Z) : list Z :=
  let len := Z.of_nat (length bytes) in
  enc_fixed 4 ts_sec ++ enc_fixed 4 ts_usec ++ enc_fixed 4 (u32 len) ++ enc_fixed 4 (u32 len) ++ bytes.

Definition pcap_out_write_frame (p : pcap) (bytes : list Z) (ts_sec ts_usec : Z) (res : write_outcome) : pcap :=
  if negb (pc_started p) || (length bytes =? 0)%nat then p
  else
    let bytes := if PCAP_SNAPLEN <? Z.of_nat (length bytes) then take (Z.to_nat PCAP_SNAPLEN) bytes else bytes in
    if pc_open p then
      match res with
      | Written => p {{ pc_file := pc_file p ++ record_of bytes ts_sec ts_usec }}
      | FailedAfter n => mk_pcap false false (pc_file p ++ take n (record_of bytes ts_sec ts_usec))
      end
    else p.

Definition pcap_out_shutdown (p : pcap) : pcap := mk_pcap false false (pc_file p).

(** ** A reader of the format *)

Definition packet := (Z * Z * list Z)%type.

(** The records up to the end of the file or a record that is cut. *)
Fixpoint read_records (fuel : nat) (s : list Z) : list packet :=
  match fuel with
  | O => []
  | S fuel =>
      let n := Z.to_nat (rd_le32 (drop 8 s)) in
      if (length s <? 16)%nat || (length s <? 16 + n)%nat then []
      else (rd_le32 s, rd_le32 (drop 4 s), take n (drop 16 s)) :: read_records fuel (drop (16 + n) s)
  end.

Definition pcap_read (s : list Z) : option (Z * list packet) :=
  if (24 <=? length s)%nat && (rd_le32 s =? 2712847316) && (rd_le16 (drop 4 s) =? 2)
  then Some (rd_le32 (drop 20 s), read_records (length s) (drop 24 s)) else None.

(** What a run of writes records: the non-empty frames up to the first
    failure. *)
Definition write := (packet * write_outcome)%type.

Fixpoint recorded (ws : list write) : list packet :=
  match ws with
  | [] => []
  | ((sec, usec, b), res) :: ws =>
      if (length b =? 0)%nat then recorded ws
      else match res with Written => (sec, usec, b) :: recorded ws | FailedAfter _ => [] end
  end.

Definition run_writes (p : pcap) (ws : list write) : pcap :=
  fold_left (fun p '((sec, usec, b), res) => pcap_out_write_frame p b sec usec res) ws p.

(** A frame that fits a record, stamped with 32-bit times; a failed write
    leaves a proper part of the record. *)
Definition write_ok (w : write) : Prop :=
  let '((sec, usec, b), res) := w in
  0 <= sec < 2 ^ 32 /\ 0 <= usec < 2 ^ 32 /\ Z.of_nat (length b) <= PCAP_SNAPLEN /\
  match res with Written => True | FailedAfter n => (n < 16 + length b)%nat end.

Lemma record_length b sec usec : length (record_of b sec usec) = (16 + length b)%nat.
Proof. unfold record_of. cbn zeta. rewrite !length_app, !enc_fixed_length. lia. Qed.

Lemma read_record fuel b sec usec rest : 0 <= sec < 2 ^ 32 -> 0 <= usec < 2 ^ 32 -> Z.of_nat (length b) <= PCAP_SNAPLEN ->
  read_records (S fuel) (record_of b sec usec ++ rest) = (sec, usec, b) :: read_records fuel rest.
Proof.
  intros Hs Hu Hb. unfold PCAP_SNAPLEN in Hb. pose proof (record_length b sec usec) as Hl. unfold record_of in *. cbn zeta in *.
  set (L := u32 (Z.of_nat (length b))) in *. assert (HL : L = Z.of_nat (length b)) by (unfold L, u32, wrap; rewrite Z.mod_small; lia).
  set (l := (enc_fixed 4 sec ++ _) ++ rest). assert (D8 : drop 8 l = enc_fixed 4 L ++ enc_fixed 4 L ++ b ++ rest) by reflexivity.
  assert (D4 : drop 4 l = enc_fixed 4 usec ++ enc_fixed 4 L ++ enc_fixed 4 L ++ b ++ rest) by reflexivity.
  assert (D16 : drop 16 l = b ++ rest) by reflexivity.
  assert (D0 : rd_le32 l = sec) by (unfold l; rewrite <- app_assoc; apply rd_le32_enc; lia).
  assert (Hl' : length l = (16 + length b + length rest)%nat) by (unfold l; rewrite length_app, Hl; done). clearbody l.
  cbn [read_records]. cbn zeta. rewrite D8, rd_le32_enc by lia. rewrite HL, Nat2Z.id, <- drop_drop, D16, Hl', D0, D4, rd_le32_enc by lia.
  rewrite (proj2 (Nat.ltb_ge _ _)) by lia. rewrite (proj2 (Nat.ltb_ge _ _)) by lia. cbn [orb]. by rewrite take_app_length, drop_app_length.
Qed.

Lemma read_cut fuel b sec usec n : 0 <= sec < 2 ^ 32 -> 0 <= usec < 2 ^ 32 -> Z.of_nat (length b) <= PCAP_SNAPLEN -> (n < 16 + length b)%nat ->
  read_records fuel (take n (record_of b sec usec)) = [].
Proof.
  intros Hs Hu Hb Hn. destruct fuel as [|fuel]; [done|]. cbn [read_records]. cbn zeta. rewrite length_take, record_length.
  destruct (Nat.ltb_spec (Nat.min n (16 + length b)) 16) as [|Hn']; [done|]. cbn [orb].
  assert (E : drop 8 (take n (record_of b sec usec)) = enc_fixed 4 (u32 (Z.of_nat (length b))) ++ take (n - 12) (enc_fixed 4 (u32 (Z.of_nat (length b))) ++ b)).
  { replace n with (12 + (n - 12))%nat at 1 by lia. reflexivity. }
  unfold PCAP_SNAPLEN in Hb. assert (HL : u32 (Z.of_nat (length b)) = Z.of_nat (length b)) by (unfold u32, wrap; rewrite Z.mod_small; lia).
  rewrite E, HL, rd_le32_enc, Nat2Z.id by lia. by rewrite (proj2 (Nat.ltb_lt _ _)) by lia.
Qed.

(** Writes on a closed output do nothing. *)
Lemma run_closed ws : forall p, pc_started p = false -> run_writes p ws = p.
Proof. induction ws as [|[[[sec usec] b] res] ws IH]; intros p Hp; [done|]. unfold run_writes, pcap_out_write_frame in *. cbn [fold_left]. rewrite Hp. cbn [negb orb]. by apply IH. Qed.

Lemma run_writes_spec ws : Forall write_ok ws -> forall p, pc_started p = true -> pc_open p = true ->
  exists s, pc_file (run_writes p ws) = pc_file p ++ s /\ forall fuel, (length s <= fuel)%nat -> read_records fuel s = recorded ws.
Proof.
  induction 1 as [|[[[sec usec] b] res] ws Hw Hws IH]; intros p Hs Ho.
  { exists []. rewrite app_nil_r. split; [done|]. intros [|fuel] _; done. }
  destruct Hw as (H1 & H2 & H3 & H4). cbn [recorded]. change (run_writes p ((sec, usec, b, res) :: ws)) with (run_writes (pcap_out_write_frame p b sec usec res) ws).
  unfold pcap_out_write_frame. rewrite Hs, Ho. cbn [negb orb].
  destruct (Nat.eqb_spec (length b) 0) as [E|E]; [by apply IH|]. rewrite (proj2 (Z.ltb_ge _ _)) by done. destruct res as [|n].
  - destruct (IH (p {{ pc_file := pc_file p ++ record_of b sec usec }})) as (s & Es & Hr); [done|done|]. exists (record_of b sec usec ++ s).
    rewrite app_assoc. split; [exact Es|]. intros fuel Hf. rewrite length_app, record_length in Hf. destruct fuel as [|fuel]; [lia|].
    rewrite read_record by done. by rewrite Hr by lia.
  - exists (take n (record_of b sec usec)). split; [|intros fuel _; by apply read_cut].
    by rewrite run_closed.
Qed.


Definition demo_writes : list write := [((1700000000, 250000, [1; 2; 3]), Written); ((1700000001, 0, []), Written); ((1700000002, 7, [4]), FailedAfter 9); ((1700000003, 8, [5]), Written)].

