(* ===== verification/SamplePump.v ===== *)
(** The sample pump of src/main.c (push_samples, sample_pump_thread and the
    pipeline's start, drain and stop): a bounded queue between the receiver's
    thread and the thread that does the signal processing, as steps between
    two accesses to shared state.

    One thread pushes (the input thread); allocating the queue succeeds. *)

From S2P Require Import Prelude CountedQueue CString CFloat.

Local Open Scope Z_scope.

Definition SAMPLE_QUEUE_DEFAULT_CAP : Z := 64.
Definition SAMPLE_QUEUE_USRP_HIGH_RATE_CAP : Z := 256.
Definition SAMPLE_QUEUE_USRP_HIGH_RATE_HZ : spec_float := f64_of_Z 20000000.

Definition sample_queue_default_cap (usrp : bool) (samp_rate : spec_float) : Z :=
  if usrp && SFleb SAMPLE_QUEUE_USRP_HIGH_RATE_HZ samp_rate then SAMPLE_QUEUE_USRP_HIGH_RATE_CAP else SAMPLE_QUEUE_DEFAULT_CAP.

(** The capacity with MESHTASTIC_SAMPLE_QUEUE in the environment. *)
Definition sample_queue_cap (usrp : bool) (samp_rate : spec_float) (env : list Z) : Z :=
  let cap := sample_queue_default_cap usrp samp_rate in
  match env with
  | [] => cap
  | _ => let v := atoi_c env in if (1 <=? v) && (v <=? 4096) then v else cap
  end.

Section Pump.
Context {B : Type} (null : B).

(** Where the pump thread is: at the head of its loop, with a buffer, done
    with one, or gone. *)
Inductive pump_pc := AtHead | Busy (buf : B) | Finishing | Ended.

Record pump := mk_pump {
  sp_queue : cqueue B;
  sp_active : bool;
  sp_started : bool;
  sp_closing : bool;
  sp_submitted : Z;
  sp_processed : Z;
  sp_queue_waits : Z;
  sp_thread : pump_pc;
  sp_pusher : option B;   (* the buffer push_samples waits with *)
}.

Definition pump_zero : pump := mk_pump (cq_create null 0) false false false 0 0 0 Ended None.

(** [created]: the thread was. *)
Definition sample_pipeline_start (cap : nat) (created : bool) (p : pump) : pump :=
  if sp_started p then p
  else
    let p := p {{ sp_active := false; sp_closing := false; sp_submitted := 0; sp_processed := 0; sp_queue_waits := 0 }} in
    if created then p {{ sp_queue := cq_create null cap; sp_started := true; sp_thread := AtHead }}
    else p {{ sp_queue := cq_create null 0 }}.

(** What happens to a buffer: processed by the pump or by the caller of
    push_samples, or freed unprocessed. *)
Inductive fate := Pumped (b : B) | Inline (b : B) | Freed (b : B).

(** The waiting loop of push_samples and what follows it. *)
Definition push_wait (b : B) (p : pump) : pump * list fate :=
  if (cq_size (sp_queue p) =? cq_cap (sp_queue p))%nat && negb (sp_closing p)
  then (p {{ sp_queue_waits := u64 (sp_queue_waits p + 1); sp_pusher := Some b }}, [])
  else if sp_closing p then (p {{ sp_pusher := None }}, [Freed b])
  else match cq_push (sp_queue p) b with
       | Some q => (p {{ sp_queue := q; sp_submitted := u64 (sp_submitted p + 1); sp_pusher := None }}, [])
       | None => (p, [])   (* unreachable: not full *)
       end.

Definition push_samples (b : B) (p : pump) : pump * list fate :=
  if negb (sp_started p) || sp_closing p then (p, [Inline b]) else push_wait b p.

(** A wake-up of the waiting caller. *)
Definition push_resume (p : pump) : pump * list fate :=
  match sp_pusher p with Some b => push_wait b p | None => (p, []) end.

Definition sample_pump_thread (p : pump) : pump * list fate :=
  match sp_thread p with
  | AtHead =>
      match cq_pop (sp_queue p) with
      | Some (b, q) => (p {{ sp_queue := q; sp_active := true; sp_thread := Busy b }}, [])
      | None => if sp_closing p then (p {{ sp_thread := Ended }}, []) else (p, [])
      end
  | Busy b => (p {{ sp_processed := u64 (sp_processed p + 1); sp_thread := Finishing }}, [Pumped b])
  | Finishing => (p {{ sp_active := false; sp_thread := AtHead }}, [])
  | Ended => (p, [])
  end.

(** sample_pipeline_drain returns in this state. *)
Definition sample_pipeline_drained (p : pump) : bool :=
  negb (sp_started p && ((0 <? cq_size (sp_queue p))%nat || sp_active p)).

(** sample_pipeline_stop up to the join, and after it. *)
Definition sample_pipeline_stop_request (p : pump) : pump := if sp_started p then p {{ sp_closing := true }} else p.

Definition sample_pipeline_stop_joined (p : pump) : pump :=
  match sp_thread p with
  | Ended => if sp_started p && sp_closing p
             then p {{ sp_queue := cq_create null 0; sp_active := false; sp_started := false; sp_closing := false }} else p
  | _ => p
  end.

Inductive pump_step := Push (b : B) | Wake | Pump | StopRequest | StopJoined.

Definition pump_do (p : pump) (st : pump_step) : pump * list fate :=
  match st with
  | Push b => push_samples b p
  | Wake => push_resume p
  | Pump => sample_pump_thread p
  | StopRequest => (sample_pipeline_stop_request p, [])
  | StopJoined => (sample_pipeline_stop_joined p, [])
  end.

Fixpoint pump_run (p : pump) (sts : list pump_step) : pump * list fate :=
  match sts with
  | [] => (p, [])
  | st :: sts => let '(p, o) := pump_do p st in let '(p, o') := pump_run p sts in (p, o ++ o')
  end.

(** How run_live uses the pump: the input thread pushes one buffer after the
    other, each push returning before the next, and is joined before the stop. *)
Fixpoint pump_used (p : pump) (sts : list pump_step) : Prop :=
  match sts with
  | [] => True
  | st :: sts =>
      match st with
      | Push _ => sp_pusher p = None /\ sp_started p = true /\ sp_closing p = false
      | StopRequest => sp_pusher p = None
      | _ => True
      end /\ pump_used (fst (pump_do p st)) sts
  end.

(** ** Nothing is lost *)

Definition pushed (sts : list pump_step) : list B := omap (fun st => match st with Push b => Some b | _ => None end) sts.
Definition pumped (tr : list fate) : list B := omap (fun f => match f with Pumped b => Some b | _ => None end) tr.
Definition others (tr : list fate) : list B := omap (fun f => match f with Pumped _ => None | Inline b | Freed b => Some b end) tr.
Definition in_hand (p : pump) : list B := match sp_thread p with Busy b => [b] | _ => [] end.
Definition waiting (p : pump) : list B := match sp_pusher p with Some b => [b] | None => [] end.

(** The buffers still to be processed, in order. *)
Definition to_come (p : pump) : list B := in_hand p ++ cq_list (sp_queue p) ++ waiting p.

Record pump_ok (p : pump) : Prop := {
  po_queue : sp_started p = true -> cq_ok (sp_queue p);
  po_idle : sp_started p = false -> sp_thread p = Ended /\ cq_size (sp_queue p) = 0%nat /\ to_come p = [];
  po_closing : sp_closing p = true -> sp_pusher p = None;
  po_active : sp_active p = true <-> match sp_thread p with Busy _ | Finishing => True | _ => False end;
  po_ended : sp_thread p = Ended -> sp_started p = true -> sp_closing p = true /\ to_come p = [];
}.

Lemma started_ok cap p : (0 < cap)%nat -> sp_started p = false -> pump_ok p -> pump_ok (sample_pipeline_start cap true p) /\
  to_come (sample_pipeline_start cap true p) = [].
Proof.
  intros Hc Hs H. unfold sample_pipeline_start. rewrite Hs. destruct (cq_create_ok null cap Hc) as [Hq Hl]. pose proof (po_idle _ H Hs) as (_ & _ & Hi).
  assert (Hw : waiting p = []) by (unfold to_come in Hi; by apply app_eq_nil in Hi as [_ [_ Hi]%app_eq_nil]).
  assert (Ht : to_come (p {{ sp_active := false; sp_closing := false; sp_submitted := 0; sp_processed := 0; sp_queue_waits := 0;
    sp_queue := cq_create null cap; sp_started := true; sp_thread := AtHead }}) = []).
  { unfold to_come, in_hand, waiting in *. rcbn. by rewrite Hl, Hw. }
  split; [|exact Ht]. split; rcbn; done.
Qed.

Lemma to_come_nil p : to_come p = [] -> in_hand p = [] /\ cq_list (sp_queue p) = [] /\ waiting p = [].
Proof. unfold to_come. intros [H1 [H2 H3]%app_eq_nil]%app_eq_nil. done. Qed.

(** Pushing: the buffer takes its place behind the others. *)
Lemma push_wait_ok b p : pump_ok p -> sp_started p = true -> sp_closing p = false ->
  let '(p', o) := push_wait b p in
  pump_ok p' /\ o = [] /\ to_come p' = in_hand p ++ cq_list (sp_queue p) ++ [b].
Proof.
  intros H Hs Hc. pose proof (po_queue _ H Hs) as Hq. unfold push_wait. rewrite Hc. cbn [negb]. rewrite andb_true_r.
  assert (He : sp_thread p <> Ended) by (intros E; destruct (po_ended _ H E Hs) as [? _]; congruence).
  destruct (Nat.eqb_spec (cq_size (sp_queue p)) (cq_cap (sp_queue p))) as [Ef|Ef].
  - split; [|split; [done|]]; [|by unfold to_come, in_hand, waiting; rcbn].
    split; rcbn; [done|congruence|congruence|apply H|done].
  - pose proof (cq_push_spec (sp_queue p) b Hq) as Hp. destruct (cq_push (sp_queue p) b) as [q'|]; [|done]. destruct Hp as (P1 & P2 & _).
    split; [|split; [done|]]; [|unfold to_come, in_hand, waiting; rcbn; by rewrite P2, app_nil_r].
    split; rcbn; [done|congruence|congruence|apply H|done].
Qed.

Lemma thread_ok p : pump_ok p -> let '(p', o) := sample_pump_thread p in pump_ok p' /\ others o = [] /\ to_come p = pumped o ++ to_come p'.
Proof.
  intros H. pose proof H as [H1 H2 H3 H4 H5]. unfold sample_pump_thread. destruct (sp_thread p) as [|b| |] eqn:Et; [| | |done].
  all: assert (Es : sp_started p = true) by (destruct (sp_started p); [done|]; by destruct (H2 eq_refl)).
  - pose proof (cq_pop_spec _ (H1 Es)) as Hp. destruct (cq_pop (sp_queue p)) as [[b q']|] eqn:Eq.
    + destruct Hp as [P1 P2]. split; [|split; [done|]]; [|unfold to_come, in_hand, waiting; rcbn; by rewrite Et, P2].
      split; rcbn; try done. congruence.
    + destruct (sp_closing p) eqn:Ec; [|done]. assert (Ht : to_come p = []) by (unfold to_come, in_hand, waiting; by rewrite Et, Hp, H3).
      unfold to_come, in_hand, waiting in *. rewrite Et in *. split; [|split; [done|by rcbn]].
      split; rcbn; [done|congruence|intros _; by apply H3|done|]. intros _ _. split; [done|]. unfold to_come, in_hand, waiting. by rcbn.
  - split; [|split; [done|unfold to_come, in_hand, waiting; rcbn; by rewrite Et]]. split; rcbn; try done. congruence.
  - split; [|split; [done|unfold to_come, in_hand, waiting; rcbn; by rewrite Et]]. split; rcbn; try done. congruence.
Qed.

(** A step adds what was pushed and takes away what was processed. *)
Lemma pump_step_ok p st : pump_ok p ->
  match st with Push _ => sp_pusher p = None /\ sp_started p = true /\ sp_closing p = false | StopRequest => sp_pusher p = None | _ => True end ->
  let '(p', o) := pump_do p st in pump_ok p' /\ others o = [] /\ to_come p ++ pushed [st] = pumped o ++ to_come p'.
Proof.
  intros H Hu. destruct st as [b| | | |]; cbn [pump_do pushed omap list_omap]; rewrite ?app_nil_r.
  - destruct Hu as (Hp & Hs & Hc). unfold push_samples. rewrite Hs, Hc. cbn [negb orb]. pose proof (push_wait_ok b p H Hs Hc) as Hw.
    destruct (push_wait b p) as [p' o]. destruct Hw as (W1 & -> & W2). split; [done|]. split; [done|]. rewrite W2. unfold to_come, waiting.
    rewrite Hp, app_nil_r. cbn. by rewrite <- !app_assoc.
  - unfold push_resume. destruct (sp_pusher p) as [b|] eqn:Ep; [|done].
    assert (Hs : sp_started p = true). { destruct (sp_started p) eqn:E; [done|]. destruct (po_idle _ H E) as (_ & _ & Hi). apply to_come_nil in Hi as (_ & _ & Hw). unfold waiting in Hw. by rewrite Ep in Hw. }
    assert (Hc : sp_closing p = false). { destruct (sp_closing p) eqn:E; [|done]. pose proof (po_closing _ H E). congruence. }
    pose proof (push_wait_ok b p H Hs Hc) as Hw. destruct (push_wait b p) as [p' o]. destruct Hw as (W1 & -> & W2).
    split; [done|]. split; [done|]. rewrite W2. unfold to_come, waiting. by rewrite Ep.
  - exact (thread_ok p H).
  - split; [|split; [done|]]; unfold sample_pipeline_stop_request; destruct (sp_started p) eqn:Es; try done.
    destruct H as [H1 H2 H3 H4 H5]. split; rcbn; try done. intros E _. split; [done|]. by destruct (H5 E Es).
  - unfold sample_pipeline_stop_joined. destruct (sp_thread p) eqn:Et; try done. destruct (sp_started p && sp_closing p) eqn:E; [|done].
    apply andb_prop in E as [Es Ec]. destruct (po_ended _ H Et Es) as [_ Ht]. destruct (to_come_nil _ Ht) as (_ & _ & Hw).
    assert (Ht' : to_come (p {{ sp_queue := cq_create null 0; sp_active := false; sp_started := false; sp_closing := false }}) = []).
    { unfold to_come, in_hand, waiting in *. rcbn. by rewrite Et, Hw. }
    split; [|split; [done|by rewrite Ht, Ht']]. split; rcbn; try done; rewrite Et; done.
Qed.

Lemma pump_run_ok sts : forall p, pump_ok p -> pump_used p sts ->
  let '(p', tr) := pump_run p sts in pump_ok p' /\ others tr = [] /\ to_come p ++ pushed sts = pumped tr ++ to_come p'.
Proof.
  induction sts as [|st sts IH]; intros p H Hu; cbn [pump_run]; [by rewrite app_nil_r|]. destruct Hu as [Hg Hu].
  pose proof (pump_step_ok p st H Hg) as Hs. destruct (pump_do p st) as [p1 o]. cbn [fst] in Hu. destruct Hs as (S1 & S2 & S3).
  specialize (IH p1 S1 Hu). destruct (pump_run p1 sts) as [p' tr]. destruct IH as (I1 & I2 & I3). split; [done|]. unfold others, pumped, pushed in *.
  rewrite !omap_app, S2, I2. split; [done|]. change (st :: sts) with ([st] ++ sts). by rewrite omap_app, app_assoc, S3, <- app_assoc, I3, app_assoc.
Qed.
(** Nothing queued and nobody at work: nothing to come but a waiting push. *)
Lemma idle_to_come p : pump_ok p -> cq_size (sp_queue p) = 0%nat -> sp_active p = false -> to_come p = waiting p.
Proof.
  intros H Hz Ha. assert (Hl : cq_list (sp_queue p) = []) by (unfold cq_list; by rewrite Hz).
  assert (Hi : in_hand p = []). { unfold in_hand. pose proof (proj2 (po_active _ H)) as Hb. destruct (sp_thread p); try done. by rewrite Hb in Ha. }
  unfold to_come. by rewrite Hi, Hl.
Qed.

(** ** The queue runs empty *)

(** The turns of the thread until it rests. *)
Definition turns (p : pump) : nat :=
  3 * cq_size (sp_queue p) + match sp_thread p with Busy _ => 2 | Finishing => 1 | AtHead | Ended => 0 end +
  match sp_thread p with Ended => 0 | _ => if sp_closing p then 1 else 0 end.

Lemma pop_size (q q' : cqueue B) b : cq_pop q = Some (b, q') -> S (cq_size q') = cq_size q.
Proof. unfold cq_pop. destruct (Nat.eqb_spec (cq_size q) 0); [done|]. destruct (_ !! _); [|done]. intros [= _ <-]. cbn [cq_size]. lia. Qed.

Lemma empty_size p : pump_ok p -> sp_thread p <> Ended -> cq_pop (sp_queue p) = None -> cq_size (sp_queue p) = 0%nat.
Proof.
  intros H Ht E. assert (Es : sp_started p = true) by (destruct (sp_started p) eqn:Es; [done|]; by destruct (po_idle _ H Es)).
  pose proof (cq_pop_spec _ (po_queue _ H Es)) as Hp. rewrite E in Hp. pose proof (cq_list_length _ (po_queue _ H Es)) as Hl. by rewrite Hp in Hl.
Qed.

Lemma thread_turns p : pump_ok p -> (turns (fst (sample_pump_thread p)) <= turns p - 1)%nat /\
  sp_closing (fst (sample_pump_thread p)) = sp_closing p /\ waiting (fst (sample_pump_thread p)) = waiting p /\
  sp_started (fst (sample_pump_thread p)) = sp_started p.
Proof.
  intros H. unfold sample_pump_thread, turns, waiting. destruct (sp_thread p) as [|b| |] eqn:Et.
  - destruct (cq_pop (sp_queue p)) as [[b q']|] eqn:E; [|destruct (sp_closing p) eqn:Ec].
    + apply pop_size in E. cbn [fst]. rcbn. split; [lia|done].
    + cbn [fst]. rcbn. rewrite Ec. split; [|done].
      pose proof (empty_size p H ltac:(congruence) E). lia.
    + cbn [fst]. rewrite Et, Ec. split; [|done].
      pose proof (empty_size p H ltac:(congruence) E). lia.
  - cbn [fst]. rcbn. split; [lia|done].
  - cbn [fst]. rcbn. split; [lia|done].
  - cbn [fst]. rewrite Et. split; [|done]. destruct (sp_started p) eqn:Es.
    + destruct (po_ended _ H Et Es) as [_ Ht]. apply to_come_nil in Ht as (_ & Hl & _). pose proof (cq_list_length _ (po_queue _ H Es)) as E. rewrite Hl in E. cbn in E. lia.
    + destruct (po_idle _ H Es) as (_ & Hz & _). lia.
Qed.

Lemma pumps_used n : forall p, pump_used p (repeat Pump n).
Proof. induction n as [|n IH]; intros p; cbn [repeat pump_used]; auto. Qed.

Lemma pushed_pumps n : pushed (repeat Pump n) = [].
Proof. by induction n. Qed.

(** Enough turns bring the thread to rest. *)
Lemma pumps_rest n : forall p, pump_ok p -> (turns p <= n)%nat ->
  let p' := fst (pump_run p (repeat Pump n)) in
  turns p' = 0%nat /\ sp_closing p' = sp_closing p /\ waiting p' = waiting p /\ sp_started p' = sp_started p.
Proof.
  induction n as [|n IH]; intros p H Hn; cbn [repeat pump_run]; [split; [cbn [fst]; lia|done]|]. cbn [pump_do].
  destruct (thread_turns p H) as (T1 & T2 & T3 & T4). pose proof (thread_ok p H) as Ht. destruct (sample_pump_thread p) as [p1 o]. cbn [fst] in *.
  destruct Ht as (H1 & _). specialize (IH p1 H1 ltac:(lia)). destruct (pump_run p1 (repeat Pump n)) as [p' tr]. cbn [fst] in *.
  destruct IH as (I1 & I2 & I3 & I4). split; [done|]. split; [congruence|]. split; congruence.
Qed.

Lemma rest_to_come p : pump_ok p -> turns p = 0%nat -> to_come p = waiting p /\ (sp_closing p = true -> sp_thread p = Ended).
Proof.
  intros H Ht. unfold turns in Ht. split.
  - apply idle_to_come; [done|lia|]. destruct (sp_active p) eqn:Ea; [|done]. pose proof (proj1 (po_active _ H) Ea) as Hb. by destruct (sp_thread p); try lia.
  - intros Hc. rewrite Hc in Ht. by destruct (sp_thread p); try lia.
Qed.
End Pump.

(** A used pump whose thread has ended has processed everything. *)
Lemma pump_ended {B} (null : B) cap sts p tr : (0 < cap)%nat -> let p0 := sample_pipeline_start null cap true (pump_zero null) in
  pump_used null p0 sts -> pump_run null p0 sts = (p, tr) -> pump_ok p /\ others tr = [] /\ pushed sts = pumped tr ++ to_come p /\
  (sp_thread p = Ended -> pumped tr = pushed sts).
Proof.
  intros Hc p0 Hu E. destruct (started_ok null cap (pump_zero null) Hc eq_refl) as [H0 T0]; [by split|].
  pose proof (pump_run_ok null sts p0 H0 Hu) as Hr. rewrite E in Hr. destruct Hr as (H & Ho & Hp). fold p0 in T0. rewrite T0 in Hp. cbn [app] in Hp.
  split; [done|]. split; [done|]. split; [done|]. rewrite Hp. intros Ht. enough (Ht' : to_come p = []) by (rewrite Ht'; by rewrite app_nil_r).
  destruct (sp_started p) eqn:Es; [by destruct (po_ended _ H Ht Es)|by destruct (po_idle _ H Es) as (_ & _ & ?)].
Qed.

(** C22: The sample pump processes every buffer once and in order.  With the
    input thread pushing one buffer after another and joined before the stop,
    under every interleaving with the pump thread and with wake-ups at any
    time, the buffers pushed are exactly those processed, followed by the one
    in hand, those queued and the one a push waits with; none is freed
    unprocessed and none is processed by the input thread; when a drain returns to the input thread everything
    pushed has been processed, and so it has when the thread has ended. *)
Theorem sample_pump_fifo {B} (null : B) cap sts p tr :
  (0 < cap)%nat -> let p0 := sample_pipeline_start null cap true (pump_zero null) in
  pump_used null p0 sts -> pump_run null p0 sts = (p, tr) ->
  others tr = [] /\ pushed sts = pumped tr ++ to_come p /\
  (sample_pipeline_drained p = true -> sp_pusher p = None -> pumped tr = pushed sts) /\
  (sp_thread p = Ended -> pumped tr = pushed sts).
Proof.
  intros Hc p0 Hu E. destruct (pump_ended null cap sts p tr Hc Hu E) as (H & Ho & Hp & He). split; [done|]. split; [done|]. split; [|exact He].
  rewrite Hp. intros Hd Hn. enough (Ht : to_come p = []) by (rewrite Ht; by rewrite app_nil_r). unfold sample_pipeline_drained in Hd. apply negb_true_iff in Hd.
  destruct (sp_started p) eqn:Es; [|by destruct (po_idle _ H Es) as (_ & _ & ?)]. apply orb_false_iff in Hd as [Hz Ha]. apply Nat.ltb_ge in Hz.
  rewrite (idle_to_come p H) by (done || lia). unfold waiting. by rewrite Hn.
Qed.


Definition demo_pushes : list (@pump_step Z) := [Push 1; Push 2; Pump; Push 3; Push 4; Pump; Pump; Pump; Wake; StopRequest].
Definition demo_start : @pump Z := sample_pipeline_start 0 2 true (pump_zero 0).

Lemma sample_pump_fifo_witness :
  let '(p, tr) := pump_run 0 demo_start demo_pushes in
  pumped tr = [1] /\ to_come p = [2; 3; 4] /\ sp_queue_waits p = 1 /\ pushed demo_pushes = pumped tr ++ to_come p.
Proof.
  destruct (pump_run 0 demo_start demo_pushes) as [p tr] eqn:E.
  assert (Hu : pump_used 0 demo_start demo_pushes) by (vm_compute; repeat split; reflexivity).
  pose proof (sample_pump_fifo 0 2 demo_pushes p tr ltac:(lia) Hu E) as (_ & H & _).
  split; [|split; [|split; [|exact H]]]; vm_compute in E; injection E as <- <-; reflexivity.
Defined.


(** A push while the pump is being stopped is processed at once by its
    caller, ahead of what is queued; run_live joins the input thread first. *)
Theorem push_while_closing_overtakes :
  let '(_, tr) := pump_run 0 demo_start [Push 1; StopRequest; Push 2; Pump; Pump] in tr = [Inline 2; Pumped 1].
Proof. reflexivity. Qed.
