(* ===== verification/IqFile.v ===== *)
(** IQ files: the recorder of process_sample_buf and run_live (src/main.c)
    and the file source (src/file_src.c), and that a recording replays as the
    samples recorded.

    A sample is its two components: signed bytes in an int8 buffer, the bit
    patterns of two floats in a float buffer.  Reads and writes succeed,
    memory allocation too; what lrintf gives for a value no long holds is a
    parameter. *)

From Stdlib Require Import String.
From S2P Require Import Prelude Protobuf CString CFloat MeshDecodersFacts MeshPacketFacts Gpsd.
From S2P Require Import IqRing Vita49.

Local Open Scope string_scope.
Local Open Scope list_scope.
Local Open Scope Z_scope.

Abbreviation iq_sample := (Z * Z)%type.

Record sample_buf := mk_sample_buf { sb_format : Z; sb_samples : list iq_sample }.

(** ** Recording *)

Section Recorder.
Context (lrint_invalid : Z).

Definition lrintf (x : spec_float) : Z :=
  match x with
  | S754_zero _ => 0
  | S754_finite s m e =>
      let v := if 0 <=? e then Z.pos m * 2 ^ e else round_half_even (Z.pos m) (2 ^ (- e)) in
      if 2 ^ 63 <=? v then lrint_invalid else if s then - v else v
  | _ => lrint_invalid
  end.

Definition to_int8 (x : spec_float) : Z :=
  let v := i32 (lrintf (f32_mul x (f32_of_Z 127))) in
  if 127 <? v then 127 else if v <? -128 then -128 else v.

Definition quantize (s : iq_sample) : iq_sample := (to_int8 (f32_of_bits (fst s)), to_int8 (f32_of_bits (snd s))).

Record recorder := mk_recorder {
  rc_target_cs8 : bool;
  rc_clip : Z;
  rc_peak_mag2 : spec_float;
  rc_file : list Z;
}.

Definition has_ext (ext path : list Z) : bool :=
  (List.length ext <=? List.length path)%nat && strcasecmp_eq (drop (List.length path - List.length ext) path) ext.

Definition open_recorder (opt_iq_record : list Z) : recorder := mk_recorder (has_ext (str ".cs8") opt_iq_record) 0 f_zero [].

Definition int8_bytes (s : iq_sample) : list Z := [u8 (fst s); u8 (snd s)].
Definition float_bytes (s : iq_sample) : list Z := enc_fixed 4 (fst s) ++ enc_fixed 4 (snd s).

Definition mag2 (s : iq_sample) : spec_float :=
  let ii := f64_of_f32 (f32_of_bits (fst s)) in let qq := f64_of_f32 (f32_of_bits (snd s)) in
  f64_add (f64_mul ii ii) (f64_mul qq qq).

Definition count_sample (r : recorder) (s : iq_sample) : recorder :=
  let m := mag2 s in
  let r := if SFltb (rc_peak_mag2 r) m then r {{ rc_peak_mag2 := m }} else r in
  if SFleb (f64_of_Z 1) m then r {{ rc_clip := u64 (rc_clip r + 1) }} else r.

Definition record_buf (r : recorder) (b : sample_buf) : recorder :=
  if (sb_format b =? SAMPLE_FMT_FLOAT) && rc_target_cs8 r then
    let r := fold_left count_sample (sb_samples b) r in
    r {{ rc_file := rc_file r ++ flat_map (fun s => int8_bytes (quantize s)) (sb_samples b) }}
  else
    r {{ rc_file := rc_file r ++ flat_map (if sb_format b =? SAMPLE_FMT_FLOAT then float_bytes else int8_bytes) (sb_samples b) }}.
End Recorder.

(** ** Replaying *)

Definition guess_format_from_path (path : list Z) : Vita49.iq_format :=
  match strrchr 46 path with
  | None => FMT_CI8
  | Some (_, ext) =>
      let dot := 46 :: ext in
      if strcasecmp_eq dot (str ".cf32") || strcasecmp_eq dot (str ".fc32") then FMT_CF32
      else if strcasecmp_eq dot (str ".cs16") || strcasecmp_eq dot (str ".sc16") || strcasecmp_eq dot (str ".ci16") then FMT_CI16
      else FMT_CI8
  end.

Definition file_src_setup (iq_format : Vita49.iq_format) (path : list Z) : Vita49.iq_format :=
  match iq_format with FMT_CI8 => guess_format_from_path path | f => f end.

Definition FILE_BLOCK : nat := Z.to_nat 32768.

Definition sample_bytes (f : Vita49.iq_format) : nat := match f with FMT_CI8 => 2 | FMT_CI16 => 4 | FMT_CF32 => 8 end.

Definition read_sample (f : Vita49.iq_format) (s : list Z) : iq_sample :=
  match f with
  | FMT_CI8 => (Prelude.i8 (at_ s 0), Prelude.i8 (at_ s 1))
  | FMT_CI16 => (Prelude.i8 (Z.shiftr (i16 (rd_le16 s)) 8), Prelude.i8 (Z.shiftr (i16 (rd_le16 (drop 2 s))) 8))
  | FMT_CF32 => (rd_le32 s, rd_le32 (drop 4 s))
  end.

(** [n] samples of the file. *)
Fixpoint read_samples (f : Vita49.iq_format) (n : nat) (s : list Z) : list iq_sample :=
  match n with O => [] | S n => read_sample f s :: read_samples f n (drop (sample_bytes f) s) end.

Definition buf_format (f : Vita49.iq_format) : Z := match f with FMT_CF32 => SAMPLE_FMT_FLOAT | _ => SAMPLE_FMT_INT8 end.

(** The buffers pushed until the end of the file; each read takes a sample or
    more. *)
Fixpoint file_src_thread (fuel : nat) (f : Vita49.iq_format) (s : list Z) : list sample_buf :=
  match fuel with
  | O => []
  | S fuel =>
      let got := Nat.min FILE_BLOCK (List.length s / sample_bytes f) in
      if (got =? 0)%nat then []
      else mk_sample_buf (buf_format f) (read_samples f got s) :: file_src_thread fuel f (drop (got * sample_bytes f) s)
  end.

(** ** Replaying a recording *)

Definition stream_of (bs : list sample_buf) : list iq_sample := concat (map sb_samples bs).

Definition enc (f : Vita49.iq_format) : iq_sample -> list Z := match f with FMT_CF32 => float_bytes | _ => int8_bytes end.

Definition sample_ok (f : Vita49.iq_format) (s : iq_sample) : Prop :=
  match f with
  | FMT_CF32 => 0 <= fst s < 2 ^ 32 /\ 0 <= snd s < 2 ^ 32
  | _ => -128 <= fst s < 128 /\ -128 <= snd s < 128
  end.

Lemma i8_u8 z : -128 <= z < 128 -> Prelude.i8 (u8 z) = z.
Proof. intros H. unfold Prelude.i8, u8. rewrite swrap_wrap by lia. apply swrap_small; lia. Qed.

Lemma read_enc f s rest : f <> FMT_CI16 -> sample_ok f s -> read_sample f (enc f s ++ rest) = s /\ drop (sample_bytes f) (enc f s ++ rest) = rest.
Proof.
  intros Hf Hs. destruct s as [i q], f; cbn [sample_ok fst snd] in Hs; [|done|].
  - split; [|done]. unfold enc, int8_bytes, read_sample, at_. cbn [fst snd Datatypes.app nth]. by rewrite !i8_u8 by apply Hs.
  - split; [|done]. unfold enc, float_bytes, read_sample. cbn [fst snd]. rewrite <- app_assoc.
    change (drop 4 (enc_fixed 4 i ++ enc_fixed 4 q ++ rest)) with (enc_fixed 4 q ++ rest). by rewrite !rd_le32_enc by apply Hs.
Qed.

Lemma enc_length f s : f <> FMT_CI16 -> List.length (enc f s) = sample_bytes f.
Proof. by destruct f. Qed.

Lemma flat_enc_length f l : f <> FMT_CI16 -> List.length (flat_map (enc f) l) = (List.length l * sample_bytes f)%nat.
Proof. intros Hf. induction l as [|s l IH]; [done|]. cbn [flat_map List.length]. rewrite length_app, enc_length, IH by done. lia. Qed.

Lemma read_block f : f <> FMT_CI16 -> forall n l, Forall (sample_ok f) l -> (n <= List.length l)%nat ->
  read_samples f n (flat_map (enc f) l) = take n l /\ drop (n * sample_bytes f) (flat_map (enc f) l) = flat_map (enc f) (drop n l).
Proof.
  intros Hf. induction n as [|n IH]; intros l Hl Hn; [done|]. destruct l as [|s l]; [cbn in Hn; lia|]. apply Forall_cons in Hl as [Hs Hl].
  cbn [flat_map read_samples take drop]. destruct (read_enc f s (flat_map (enc f) l) Hf Hs) as [E1 E2]. rewrite E1, E2. cbn in Hn.
  destruct (IH l Hl ltac:(lia)) as [I1 I2]. split; [by rewrite I1|]. rewrite <- I2, Nat.mul_succ_l, Nat.add_comm, <- drop_drop. by rewrite E2.
Qed.

Lemma replay_stream f : f <> FMT_CI16 -> forall fuel l, Forall (sample_ok f) l -> (List.length l < fuel)%nat ->
  stream_of (file_src_thread fuel f (flat_map (enc f) l)) = l /\
  Forall (fun b => sb_format b = buf_format f) (file_src_thread fuel f (flat_map (enc f) l)).
Proof.
  intros Hf. induction fuel as [|fuel IH]; intros l Hl Hn; [lia|]. cbn [file_src_thread]. cbn zeta. rewrite flat_enc_length by done.
  assert (Hb : sample_bytes f <> 0%nat) by by destruct f. rewrite Nat.div_mul by done.
  destruct (Nat.eqb_spec (Nat.min FILE_BLOCK (List.length l)) 0) as [E|E].
  - unfold FILE_BLOCK in E. destruct l; [done|cbn in E; lia].
  - set (got := Nat.min FILE_BLOCK (List.length l)) in *. destruct (read_block f Hf got l Hl ltac:(lia)) as [E1 E2]. rewrite E1, E2.
    destruct (IH (drop got l) ltac:(by apply Forall_drop) ltac:(rewrite length_drop; lia)) as [I1 I2]. split.
    + unfold stream_of in *. cbn [map concat sb_samples]. rewrite I1. apply take_drop.
    + by apply Forall_cons_2.
Qed.

(** The buffers read from a file of a name. *)
Definition replayed (path file : list Z) : list sample_buf := file_src_thread (S (List.length file)) (file_src_setup FMT_CI8 path) file.

(** How the samples of a recording under a name come back: [None] when the
    file is read in another format than it was written. *)
Definition replays_as (inv : Z) (path : list Z) (fmt : Z) : option (iq_sample -> iq_sample) :=
  match guess_format_from_path path with
  | FMT_CI8 => if fmt =? SAMPLE_FMT_FLOAT then if has_ext (str ".cs8") path then Some (quantize inv) else None else Some id
  | FMT_CF32 => if (fmt =? SAMPLE_FMT_FLOAT) && negb (has_ext (str ".cs8") path) then Some id else None
  | FMT_CI16 => None
  end.

Definition raw_ok (fmt : Z) (s : iq_sample) : Prop := sample_ok (if fmt =? SAMPLE_FMT_FLOAT then FMT_CF32 else FMT_CI8) s.

Lemma to_int8_range inv x : -128 <= to_int8 inv x < 128.
Proof. unfold to_int8. cbn zeta. set (v := i32 _). destruct (Z.ltb_spec 127 v); [lia|]. destruct (Z.ltb_spec v (-128)); lia. Qed.

Lemma count_file r l : rc_file (fold_left count_sample l r) = rc_file r /\ rc_target_cs8 (fold_left count_sample l r) = rc_target_cs8 r.
Proof.
  revert r. induction l as [|s l IH]; intros r; [done|]. cbn [fold_left]. destruct (IH (count_sample r s)) as [-> ->].
  unfold count_sample. cbn zeta. by destruct (SFltb _ _), (SFleb _ _).
Qed.

(** What a run of buffers of one format puts into the file. *)
Lemma record_file inv fmt bs : Forall (fun b => sb_format b = fmt) bs -> forall r,
  rc_file (fold_left (record_buf inv) bs r) = rc_file r ++
    (if fmt =? SAMPLE_FMT_FLOAT then if rc_target_cs8 r then flat_map int8_bytes (map (quantize inv) (stream_of bs)) else flat_map float_bytes (stream_of bs)
     else flat_map int8_bytes (stream_of bs)).
Proof.
  induction 1 as [|b bs Hb _ IH]; intros r; [cbn; destruct (fmt =? _), (rc_target_cs8 r); by rewrite app_nil_r|]. cbn [fold_left]. rewrite IH.
  assert (Hq : forall l, flat_map (fun s => int8_bytes (quantize inv s)) l = flat_map int8_bytes (map (quantize inv) l)).
  { intros l. induction l as [|s l IHl]; [done|]. cbn [flat_map map]. by rewrite IHl. }
  unfold record_buf, stream_of. rewrite Hb. cbn [map concat]. destruct (fmt =? SAMPLE_FMT_FLOAT); cbn [andb].
  - destruct (rc_target_cs8 r) eqn:Et; cbn zeta; rcbn.
    + destruct (count_file r (sb_samples b)) as [-> ->]. rewrite Et, <- app_assoc, map_app, flat_map_app, Hq. done.
    + by rewrite Et, <- app_assoc, flat_map_app.
  - rcbn. by rewrite <- app_assoc, flat_map_app.
Qed.

Lemma recorded_replays inv path fmt bs f :
  Forall (fun b => sb_format b = fmt) bs -> Forall (raw_ok fmt) (stream_of bs) -> replays_as inv path fmt = Some f ->
  let file := rc_file (fold_left (record_buf inv) bs (open_recorder path)) in
  stream_of (replayed path file) = map f (stream_of bs) /\
  Forall (fun b => sb_format b = buf_format (guess_format_from_path path)) (replayed path file).
Proof.
  intros Hf Hs Hr file. assert (Ef : file = _) by (apply (record_file inv fmt bs Hf)). cbn [open_recorder rc_file rc_target_cs8 app] in Ef.
  assert (G : forall fm l, fm <> FMT_CI16 -> Forall (sample_ok fm) l -> file = flat_map (enc fm) l ->
    stream_of (file_src_thread (S (List.length file)) fm file) = l /\ Forall (fun b => sb_format b = buf_format fm) (file_src_thread (S (List.length file)) fm file)).
  { intros fm l Hfm Hl E. rewrite E. apply replay_stream; [done|done|]. rewrite flat_enc_length by done. destruct fm; cbn; lia. }
  unfold replayed. cbn [file_src_setup]. unfold replays_as, raw_ok in *. destruct (guess_format_from_path path); [| |].
  - destruct (fmt =? SAMPLE_FMT_FLOAT).
    + destruct (has_ext (str ".cs8") path); [|done]. apply (inj Some) in Hr as <-. apply G; [done| |exact Ef].
      apply Forall_map, Forall_true. intros s. unfold quantize. split; apply to_int8_range.
    + apply (inj Some) in Hr as <-. rewrite map_id. by apply G.
  - done.
  - destruct (fmt =? SAMPLE_FMT_FLOAT); [|done]. destruct (has_ext (str ".cs8") path); [done|]. apply (inj Some) in Hr as <-. rewrite map_id. by apply G.
Qed.

(** A recording replays as what was recorded.  For any buffers of one
    format recorded under a name the file source reads back in that format
    (int8 samples under any name without a format's extension, floats under
    .cf32 or .fc32), the samples replayed are exactly those recorded, in
    order; floats recorded under .cs8 come back as the quantised samples. *)
Theorem record_replay_round_trip inv path fmt bs f :
  Forall (fun b => sb_format b = fmt) bs -> Forall (raw_ok fmt) (stream_of bs) -> replays_as inv path fmt = Some f ->
  let file := rc_file (fold_left (record_buf inv) bs (open_recorder path)) in
  stream_of (replayed path file) = map f (stream_of bs).
Proof. intros Hf Hs Hr file. by apply (recorded_replays inv path fmt bs f). Qed.

(** 0.5 and -1.0 recorded as floats. *)
Definition demo_floats : list sample_buf := [mk_sample_buf SAMPLE_FMT_FLOAT [(1056964608, 3212836864)]; mk_sample_buf SAMPLE_FMT_FLOAT [(0, 1056964608)]].

Definition replay (path : list Z) (bs : list sample_buf) : list iq_sample :=
  stream_of (replayed path (rc_file (fold_left (record_buf 0) bs (open_recorder path)))).

Lemma record_replay_round_trip_witness :
  replay (str "a.CF32") demo_floats = stream_of demo_floats /\ replay (str "a.cs8") demo_floats = [(64, -127); (0, 64)].
Proof.
  assert (Hf : Forall (fun b => sb_format b = SAMPLE_FMT_FLOAT) demo_floats) by (repeat apply Forall_cons_2; try apply Forall_nil_2; reflexivity).
  assert (Hs : Forall (raw_ok SAMPLE_FMT_FLOAT) (stream_of demo_floats)) by (repeat apply Forall_cons_2; try apply Forall_nil_2; vm_compute; repeat split; discriminate).
  split.
  - rewrite <- (map_id (stream_of demo_floats)). exact (record_replay_round_trip 0 (str "a.CF32") SAMPLE_FMT_FLOAT demo_floats id Hf Hs eq_refl).
  - transitivity (map (quantize 0) (stream_of demo_floats)); [|vm_compute; reflexivity].
    exact (record_replay_round_trip 0 (str "a.cs8") SAMPLE_FMT_FLOAT demo_floats (quantize 0) Hf Hs eq_refl).
Defined.

(** ** Defects *)

(** Int8 samples recorded under .cf32 are written as bytes and read back as
    floats. *)
Theorem int8_under_cf32_misread :
  replay (str "a.cf32") [mk_sample_buf SAMPLE_FMT_INT8 [(1, 2); (3, 4); (5, 6); (7, 8)]] = [(67305985, 134678021)].
Proof. vm_compute. reflexivity. Qed.

(** A format given on the command line as cs8 is taken as not given. *)
Theorem explicit_cs8_overridden : file_src_setup FMT_CI8 (str "a.cf32") = FMT_CF32.
Proof. reflexivity. Qed.

(** A sample of magnitude 1 or more counts as clipped although neither of its
    components is: 0.8 + 0.8i is kept exactly. *)
Theorem unclipped_sample_counted :
  let s := (1061997773, 1061997773) in
  let r := record_buf 0 (open_recorder (str "a.cs8")) (mk_sample_buf SAMPLE_FMT_FLOAT [s]) in
  rc_clip r = 1 /\ quantize 0 s = (102, 102).
Proof. vm_compute. auto. Qed.
