(* ===== verification/Receiver.v ===== *)
(** What the pump does with a buffer (process_sample_buf of src/main.c): the
    sample counter, the raw-IQ ring, the snapshot store and the focused
    workers started once samples flow, the recording, the channelizer and the
    scanner; and that all of them are given the same stream.

    The outcomes of starting threads, the memory of a fresh ring and the
    clock are an argument of each call. *)

From Stdlib Require Import String.
From stdpp Require Import gmap.
From S2P Require Import Prelude CString CFloat IqRing IqSnapshot Ddc Focused FocusedFacts Pfb Channelizer ChannelSet Scanner Vita49 IqFile SamplePump.

Local Open Scope string_scope.
Local Open Scope list_scope.
Local Open Scope Z_scope.

(** ** sscanf of the manual slot *)

(** A conversion of a decimal integer: blanks, a sign, digits.  [None]: it
    does not match. *)
Definition scan_int (s : list Z) : option (Z * list Z) :=
  let s := skip_while is_space s in
  let '(neg, t) := match s with c :: t => if c =? 45 then (true, t) else if c =? 43 then (false, t) else (false, s) | [] => (false, []) end in
  match t with
  | d :: _ => if is_digit d then let v := atoi_digits 0 t in Some (if neg then - v else v, skip_while is_digit t) else None
  | [] => None
  end.

Definition after_colon (s : list Z) : option (list Z) := match s with c :: t => if c =? 58 then Some t else None | [] => None end.

Fixpoint scan_fields (n : nat) (s : list Z) : list Z :=
  match n with
  | O => []
  | S n => match scan_int s with
           | None => []
           | Some (v, r) => v :: match after_colon r with Some r => scan_fields n r | None => [] end
           end
  end.

(** [%lld] and [%d] keep what fits; [%llu] of a negative number wraps. *)
Definition clamp64 (v : Z) : Z := Z.max (- 2 ^ 63) (Z.min v (2 ^ 63 - 1)).
Definition clampu64 (v : Z) : Z := if Z.abs v <? 2 ^ 64 then u64 v else 2 ^ 64 - 1.

(** The options and environment the call reads. *)
Record rx_options := mk_rx_options {
  ro_samp_rate : spec_float;
  ro_center_freq : spec_float;
  ro_snapshot_dir : option (list Z);
  ro_snapshot_cfg : iq_snapshot_cfg;     (* but for the threshold; with the queue capacity 64 *)
  ro_snapshot_min_snr_db : spec_float;
  ro_focus_min_snr_db : spec_float;
  ro_snapshot_qcap : list Z;             (* MESHTASTIC_SNAPSHOT_QUEUE_CAP *)
  ro_focus_os_factor : Z;
  ro_pool_cfg_size : nat;
  ro_auto_spec : list Z;
  ro_auto_slot : slot;
}.

Section Receiver.
Context {C F : Type} `{pops : PfbOps C F} (of_i8 : Z -> Z -> C) (of_f32 : spec_float -> spec_float -> C).
Context {CD FD : Type} `{dops : DdcOps iq_sample CD FD} `{env : FocusedEnv CD FD}.
Context (fft_out : list sample -> list sample) (log10f : spec_float -> spec_float) (lrint_invalid : Z).
Abbreviation worker := (focused_worker (C := CD) (F := FD)).

Record receiver := mk_receiver {
  rx_samples_total : Z;
  rx_iq_ring_ms : Z;
  rx_iq_ring : option (iq_ring (A := iq_sample));
  rx_snapshots : option snapshots;
  rx_manual_spec : list Z;
  rx_manual : option worker;
  rx_manual_channel_id : Z;
  rx_manual_start_sample : Z;
  rx_pool_inited : bool;
  rx_pool : list worker;
  rx_auto : option worker;
  rx_auto_channel_id : Z;
  rx_chan_stats : gmap nat slot_stat;
  rx_record : option recorder;
  rx_channelizer : option (channelizer (C := C) (F := F));
  rx_scanner : option scanner;
}.

(** What the system grants during a call. *)
Record grants := mk_grants {
  gt_ring_memory : option (list iq_sample);   (* malloc of the ring *)
  gt_snapshots : bool;
  gt_decoder : nat -> bool * bool * bool;     (* growing, decoder and thread of the manual (0), auto (1) and pool (2 + i) worker *)
  gt_taps : list FD;
  gt_now : Z;
}.

Definition ring_capacity (rate : spec_float) (ms : Z) : nat :=
  let cap := f64_trunc (f64_add (f64_div (f64_mul rate (f64_of_Z ms)) (f64_of_Z 1000)) f64_half) in
  Z.to_nat (if cap <? 1024 then 1024 else cap).

Definition make_ring (o : rx_options) (g : grants) (format : Z) (r : receiver) : receiver :=
  if (0 <? rx_iq_ring_ms r) && match rx_iq_ring r with None => true | _ => false end then
    match match gt_ring_memory g with Some fresh => iq_ring_create (ring_capacity (ro_samp_rate o) (rx_iq_ring_ms r)) format fresh | None => None end with
    | Some ring => r {{ rx_iq_ring := Some ring }}
    | None => r {{ rx_iq_ring_ms := 0 }}
    end
  else r.

Definition append_ring (b : sample_buf) (r : receiver) : receiver :=
  match rx_iq_ring r with Some ring => r {{ rx_iq_ring := Some (fst (iq_ring_append ring (sb_samples b))) }} | None => r end.

Definition start_snapshots (o : rx_options) (g : grants) (r : receiver) : receiver :=
  match rx_iq_ring r, ro_snapshot_dir o, rx_snapshots r with
  | Some _, Some _, None =>
      let min_snr := if SFleb f_zero (ro_snapshot_min_snr_db o) then ro_snapshot_min_snr_db o else ro_focus_min_snr_db o in
      let c := (ro_snapshot_cfg o) {{ sc_min_snr_db := min_snr }} in
      let qc := atoi_c (ro_snapshot_qcap o) in
      let c := match ro_snapshot_qcap o with [] => c | _ => if (1 <=? qc) && (qc <=? 4096) then c {{ sc_queue_capacity := qc }} else c end in
      if gt_snapshots g then r {{ rx_snapshots := iq_snapshot_init c }} else r
  | _, _, _ => r
  end.

(** focused_worker_create and focused_worker_start; [None]: either failed. *)
Definition spawn (o : rx_options) (g : grants) (who : nat) (sl : slot) (start_sample : Z) (sticky : bool) : option worker :=
  let '(grow_ok, dec_ok, thread_ok) := gt_decoder g who in
  match focused_worker_create grow_ok dec_ok (mk_focused_cfg sl (ro_center_freq o) (ro_samp_rate o)) (gt_taps g) with
  | None => None
  | Some w => match focused_worker_start start_sample sticky thread_ok (gt_now g) w with (true, w) => Some w | (false, _) => None end
  end.

Definition worker_os (o : rx_options) : Z := if ro_focus_os_factor o =? 0 then 1 else ro_focus_os_factor o.

(** The slot of the last channels' statistics. *)
Definition MANUAL_ID : Z := 1023.
Definition AUTO_ID : Z := 1022.

Definition start_manual (o : rx_options) (g : grants) (r : receiver) : receiver :=
  match rx_iq_ring r, rx_manual_spec r, rx_manual r with
  | Some _, _ :: _, None =>
      match scan_fields 5 (rx_manual_spec r) with
      | freq :: bw :: sf :: cr :: more =>
          let freq_hz := clamp64 freq in let bw_hz := clamp64 bw in
          let sf := i32 (clamp64 sf) in let cr := i32 (clamp64 cr) in
          let start := match more with s :: _ => clampu64 s | [] => 0 end in
          if (7 <=? sf) && (sf <=? 12) && (5 <=? cr) && (cr <=? 8) && (0 <? bw_hz) && (0 <? freq_hz) then
            let r := r {{ rx_chan_stats := <[Z.to_nat MANUAL_ID := mk_slot_stat sf cr (i32 bw_hz) freq_hz (str "Focused")]> (rx_chan_stats r);
                          rx_manual_start_sample := start }} in
            match spawn o g 0 (mk_slot (f64_of_Z freq_hz) (i32 bw_hz) sf cr (worker_os o)) start true with
            | Some w => r {{ rx_manual := Some w; rx_manual_channel_id := MANUAL_ID }}
            | None => r {{ rx_manual_channel_id := -1 }}
            end
          else r {{ rx_manual_spec := [] }}
      | _ => r {{ rx_manual_spec := [] }}
      end
  | _, _, _ => r
  end.

Definition start_pool_worker (o : rx_options) (g : grants) (r : receiver) (i : nat) : receiver :=
  let chan_id := (1022 - i)%nat in
  match spawn o g (2 + i) (mk_slot f_zero 0 0 0 (worker_os o)) 0 false with
  | None => r
  | Some w =>
      let st := default (mk_slot_stat 0 0 0 0 []) (rx_chan_stats r !! chan_id) in
      r {{ rx_chan_stats := <[chan_id := st {{ ss_preset_name := str "FocusedPool" }}]> (rx_chan_stats r); rx_pool := rx_pool r ++ [w] }}
  end.

Definition start_pool (o : rx_options) (g : grants) (r : receiver) : receiver :=
  match rx_iq_ring r with
  | Some _ => if (0 <? ro_pool_cfg_size o)%nat && negb (rx_pool_inited r)
              then fold_left (start_pool_worker o g) (seq 0 (ro_pool_cfg_size o)) (r {{ rx_pool_inited := true }}) else r
  | None => r
  end.

Definition start_auto (o : rx_options) (g : grants) (r : receiver) : receiver :=
  match rx_iq_ring r, ro_auto_spec o, rx_auto r with
  | Some _, _ :: _, None =>
      let sl := ro_auto_slot o in
      if f64_ltb f_zero (sl_channel_hz sl) then
        let r := r {{ rx_chan_stats := <[Z.to_nat AUTO_ID := mk_slot_stat (sl_sf sl) (sl_cr sl) (sl_bw_hz sl) (f64_trunc (sl_channel_hz sl)) (str "FocusedAuto")]> (rx_chan_stats r) }} in
        match spawn o g 1 (sl {{ sl_os_factor := worker_os o }}) 0 false with
        | Some w => r {{ rx_auto := Some w; rx_auto_channel_id := AUTO_ID }}
        | None => r {{ rx_auto_channel_id := -1 }}
        end
      else r
  | _, _, _ => r
  end.

Definition float_sample (s : iq_sample) : sample := (f32_of_bits (fst s), f32_of_bits (snd s)).

(** The receiver after the call, what the channels are handed, and what the
    scanner reports. *)
Definition process_sample_buf (o : rx_options) (g : grants) (b : sample_buf) (r : receiver) : receiver * list (nat * C) * list report :=
  let r := r {{ rx_samples_total := u64 (rx_samples_total r + Z.of_nat (List.length (sb_samples b))) }} in
  let r := append_ring b (make_ring o g (sb_format b) r) in
  let r := start_auto o g (start_pool o g (start_manual o g (start_snapshots o g r))) in
  let r := r {{ rx_record := option_map (fun rc => record_buf lrint_invalid rc b) (rx_record r) }} in
  let '(cz, out) :=
    match rx_channelizer r with
    | None => (None, [])
    | Some cz =>
        let '(cz, out) := if sb_format b =? SAMPLE_FMT_INT8 then channelizer_process_int8 of_i8 cz (sb_samples b)
                          else if sb_format b =? SAMPLE_FMT_FLOAT
                          then channelizer_process_float cz (map (fun s => of_f32 (f32_of_bits (fst s)) (f32_of_bits (snd s))) (sb_samples b))
                          else (cz, []) in (Some cz, out)
    end in
  let '(sc, reports) :=
    match rx_scanner r with
    | None => (None, [])
    | Some sc =>
        let '(sc, reports) := if sb_format b =? SAMPLE_FMT_INT8 then scanner_feed_int8 fft_out log10f sc (sb_samples b)
                              else if sb_format b =? SAMPLE_FMT_FLOAT then scanner_feed_float fft_out log10f sc (map float_sample (sb_samples b))
                              else (sc, []) in (Some sc, reports)
    end in
  (r {{ rx_channelizer := cz; rx_scanner := sc }}, out, reports).

(** ** Every sink gets the stream *)

Fixpoint rx_run (o : rx_options) (bs : list (grants * sample_buf)) (r : receiver) : receiver * list (nat * C) * list report :=
  match bs with
  | [] => (r, [], [])
  | (g, b) :: bs =>
      let '(r, out, rep) := process_sample_buf o g b r in
      let '(r, out', rep') := rx_run o bs r in (r, out ++ out', rep ++ rep')
  end.

(** What starting a worker or the snapshot store leaves alone. *)
Definition sinks (r : receiver) := (rx_samples_total r, rx_iq_ring r, rx_record r, rx_channelizer r, rx_scanner r).

Lemma start_sinks o g r : sinks (start_snapshots o g r) = sinks r /\ sinks (start_manual o g r) = sinks r /\
  sinks (start_pool o g r) = sinks r /\ sinks (start_auto o g r) = sinks r.
Proof.
  split; [|split; [|split]].
  - unfold start_snapshots. by repeat case_match.
  - unfold start_manual. by repeat case_match.
  - unfold start_pool. destruct (rx_iq_ring r) eqn:E; [|done]. destruct (_ && _); [|done].
    assert (G : forall l r, sinks (fold_left (start_pool_worker o g) l r) = sinks r); [|by rewrite G].
    intros l. induction l as [|j l IH]; intros r'; [done|]. cbn [fold_left]. rewrite IH. unfold start_pool_worker. by case_match.
  - unfold start_auto. by repeat case_match.
Qed.

Definition conv (fmt : Z) (s : iq_sample) : C :=
  if fmt =? SAMPLE_FMT_INT8 then of_i8 (fst s) (snd s) else of_f32 (f32_of_bits (fst s)) (f32_of_bits (snd s)).

Definition scan_conv (fmt : Z) (s : iq_sample) : sample := if fmt =? SAMPLE_FMT_INT8 then int8_sample s else float_sample s.

Definition fmt_ok (fmt : Z) : Prop := fmt = SAMPLE_FMT_INT8 \/ fmt = SAMPLE_FMT_FLOAT.

(** One call, sink by sink. *)
Lemma process_spec o g b r : fmt_ok (sb_format b) ->
  let '(r', out, rep) := process_sample_buf o g b r in
  rx_samples_total r' = u64 (rx_samples_total r + Z.of_nat (List.length (sb_samples b))) /\
  rx_iq_ring r' = rx_iq_ring (append_ring b (make_ring o g (sb_format b) r)) /\
  rx_record r' = option_map (fun rc => record_buf lrint_invalid rc b) (rx_record r) /\
  (rx_channelizer r', out) = match rx_channelizer r with
    | Some cz => let '(cz, out) := channelizer_process_float cz (map (conv (sb_format b)) (sb_samples b)) in (Some cz, out)
    | None => (None, []) end /\
  (rx_scanner r', rep) = match rx_scanner r with
    | Some sc => let '(sc, rep) := scanner_feed_float fft_out log10f sc (map (scan_conv (sb_format b)) (sb_samples b)) in (Some sc, rep)
    | None => (None, []) end.
Proof.
  intros Hf. unfold process_sample_buf. cbn zeta. set (r1 := append_ring b (make_ring o g (sb_format b) _)).
  assert (E1 : rx_samples_total r1 = u64 (rx_samples_total r + Z.of_nat (List.length (sb_samples b))) /\ rx_record r1 = rx_record r /\
    rx_channelizer r1 = rx_channelizer r /\ rx_scanner r1 = rx_scanner r /\ rx_iq_ring r1 = rx_iq_ring (append_ring b (make_ring o g (sb_format b) r))).
  { unfold r1, append_ring, make_ring. rcbn. destruct (rx_iq_ring r) as [ring|] eqn:Er; rewrite ?andb_false_r, ?andb_true_r; rcbn; [by rewrite Er|].
    destruct (0 <? rx_iq_ring_ms r); rcbn; [|by rewrite Er]. destruct (gt_ring_memory g) as [m|]; [|rcbn; by rewrite Er].
    destruct (iq_ring_create _ _ m); rcbn; [done|by rewrite Er]. }
  clearbody r1. destruct E1 as (T1 & T2 & T3 & T4 & T5).
  set (r2 := start_auto o g _). assert (E2 : sinks r2 = sinks r1).
  { unfold r2. destruct (start_sinks o g r1) as [S1 _]. set (ra := start_snapshots o g r1) in *. destruct (start_sinks o g ra) as (_ & S2 & _).
    set (rb := start_manual o g ra) in *. destruct (start_sinks o g rb) as (_ & _ & S3 & _). set (rc := start_pool o g rb) in *.
    destruct (start_sinks o g rc) as (_ & _ & _ & S4). congruence. }
  clearbody r2. unfold sinks in E2. injection E2 as U1 U2 U3 U4 U5. rcbn. rewrite U4, T3, U5, T4.
  assert (Ec : conv (sb_format b) = if sb_format b =? SAMPLE_FMT_INT8 then fun s => of_i8 (fst s) (snd s) else fun s => of_f32 (f32_of_bits (fst s)) (f32_of_bits (snd s)))
    by (by destruct Hf as [->| ->]).
  assert (Es : scan_conv (sb_format b) = if sb_format b =? SAMPLE_FMT_INT8 then int8_sample else float_sample) by (by destruct Hf as [->| ->]).
  rewrite Ec, Es. clear Ec Es. unfold channelizer_process_int8, scanner_feed_int8.
  destruct Hf as [Hf|Hf]; rewrite Hf in *;
    change (SAMPLE_FMT_INT8 =? SAMPLE_FMT_INT8) with true; change (SAMPLE_FMT_FLOAT =? SAMPLE_FMT_INT8) with false;
    change (SAMPLE_FMT_FLOAT =? SAMPLE_FMT_FLOAT) with true; cbn iota;
    destruct (rx_channelizer r) as [cz|]; destruct (rx_scanner r) as [sc|];
    repeat match goal with |- context [channelizer_process_float ?c ?l] => destruct (channelizer_process_float c l) as [? ?] end;
    repeat match goal with |- context [scanner_feed_float ?f ?l ?s ?x] => destruct (scanner_feed_float f l s x) as [? ?] end;
    rcbn; rewrite U1, U2, U3, T1, T2; by split_and!.
Qed.

Lemma u64_add a b : u64 (u64 a + b) = u64 (a + b).
Proof. unfold u64, wrap. apply Zplus_mod_idemp_l. Qed.

Lemma append_ring_some o g fmt b ring r : rx_iq_ring r = Some ring ->
  rx_iq_ring (append_ring b (make_ring o g fmt r)) = Some (fst (iq_ring_append ring (sb_samples b))).
Proof. intros E. unfold append_ring, make_ring. rewrite E, andb_false_r. rewrite E. by rcbn. Qed.

(** A run of buffers of one format, sink by sink; the channelizer's part is a
    run of batches. *)
Lemma run_spec o fmt rotation (bs : list (grants * sample_buf)) : fmt_ok fmt -> Forall (fun b => sb_format (snd b) = fmt) bs -> forall r,
  u64 (rx_samples_total r) = rx_samples_total r ->
  let '(r', out, rep) := rx_run o bs r in
  let chunks := map (fun b => sb_samples (snd b)) bs in
  rx_samples_total r' = u64 (rx_samples_total r + Z.of_nat (List.length (concat chunks))) /\
  rx_record r' = option_map (fold_left (record_buf lrint_invalid) (map snd bs)) (rx_record r) /\
  (rx_channelizer r', out) = match rx_channelizer r with
    | Some cz => let '(cz, out) := cz_run rotation cz (map (fun c => Feed (map (conv fmt) c)) chunks) in (Some cz, out)
    | None => (None, []) end /\
  (rx_scanner r', rep) = match rx_scanner r with
    | Some sc => let '(sc, rep) := feeds fft_out log10f sc (map (map (scan_conv fmt)) chunks) in (Some sc, rep)
    | None => (None, []) end /\
  match rx_iq_ring r with Some ring => rx_iq_ring r' = Some (iq_feed ring chunks) | None => True end.
Proof.
  intros Hf. induction 1 as [|[g b] bs Hb Hbs IH]; intros r Ht; cbn [rx_run].
  - cbn zeta. cbn [map concat List.length fold_left cz_run feeds iq_feed]. rewrite Z.add_0_r, Ht.
    split_and!; try done; [by destruct (rx_record r)|by destruct (rx_channelizer r)|by destruct (rx_scanner r)|by destruct (rx_iq_ring r)].
  - cbn [snd] in Hb. pose proof (process_spec o g b r ltac:(by rewrite Hb)) as Hp. destruct (process_sample_buf o g b r) as [[r1 out] rep].
    destruct Hp as (P1 & P2 & P3 & P4 & P5). specialize (IH r1 ltac:(rewrite P1; unfold u64, wrap; by rewrite Z.mod_mod)).
    destruct (rx_run o bs r1) as [[r' out'] rep']. cbn zeta in *. destruct IH as (I1 & I2 & I3 & I4 & I5). rewrite Hb in *.
    cbn [map snd concat fold_left]. set (chunks := map (fun b => sb_samples (snd b)) bs) in *. split_and!.
    + rewrite I1, P1, u64_add, length_app. f_equal. lia.
    + rewrite I2, P3. by destruct (rx_record r).
    + cbn [cz_run cz_step]. destruct (rx_channelizer r) as [cz|].
      * destruct (channelizer_process_float cz _) as [cz1 o1]. apply pair_inj in P4 as [P4 ->]. rewrite P4 in I3.
        destruct (cz_run rotation cz1 _) as [cz2 o2]. by apply pair_inj in I3 as [-> ->].
      * apply pair_inj in P4 as [P4 ->]. rewrite P4 in I3. by apply pair_inj in I3 as [-> ->].
    + cbn [feeds]. destruct (rx_scanner r) as [sc|].
      * destruct (scanner_feed_float fft_out log10f sc _) as [sc1 o1]. apply pair_inj in P5 as [P5 ->]. rewrite P5 in I4.
        destruct (feeds fft_out log10f sc1 _) as [sc2 o2]. by apply pair_inj in I4 as [-> ->].
      * apply pair_inj in P5 as [P5 ->]. rewrite P5 in I4. by apply pair_inj in I4 as [-> ->].
    + destruct (rx_iq_ring r) as [ring|] eqn:Er; [|done]. rewrite (append_ring_some o g fmt b ring r Er) in P2. by rewrite P2 in I5.
Qed.

Lemma ring_capacity_pos rate ms : (0 < ring_capacity rate ms)%nat.
Proof. unfold ring_capacity. set (cap := f64_trunc _). clearbody cap. cbn zeta. destruct (Z.ltb_spec cap 1024); lia. Qed.

(** The first buffer makes the ring. *)
Lemma first_ring o g b r fresh : fmt_ok (sb_format b) -> rx_iq_ring r = None -> 0 < rx_iq_ring_ms r ->
  gt_ring_memory g = Some fresh -> (ring_capacity (ro_samp_rate o) (rx_iq_ring_ms r) <= List.length fresh)%nat ->
  exists ring, iq_rep ring [] /\ rx_iq_ring (append_ring b (make_ring o g (sb_format b) r)) = Some (fst (iq_ring_append ring (sb_samples b))).
Proof.
  intros Hf Er Hm Hg Hl. unfold append_ring, make_ring. rewrite Er, Hg, (proj2 (Z.ltb_lt _ _) Hm). cbn [andb].
  pose proof (ring_capacity_pos (ro_samp_rate o) (rx_iq_ring_ms r)) as Hc. set (cap := ring_capacity _ _) in *.
  assert (Hc' : (cap =? 0)%nat = false) by (apply Nat.eqb_neq; lia).
  clearbody cap. destruct (iq_ring_create cap (sb_format b) fresh) as [ring|] eqn:E.
  - exists ring. split; [by apply (create_rep _ _ _ _ E)|]. by rcbn.
  - exfalso. unfold iq_ring_create in E. rewrite Hc' in E. by destruct Hf as [Hf|Hf]; rewrite Hf in E.
Qed.

Lemma rx_run_cons o g b bs r : rx_run o ((g, b) :: bs) r =
  let '(r, out, rep) := process_sample_buf o g b r in let '(r, out', rep') := rx_run o bs r in (r, out ++ out', rep ++ rep').
Proof. reflexivity. Qed.

Lemma ring_stream o fmt (bs : list (grants * sample_buf)) r r' out rep fresh : fmt_ok fmt -> Forall (fun b => sb_format (snd b) = fmt) bs -> bs <> [] ->
  rx_samples_total r = 0 -> rx_iq_ring r = None -> 0 < rx_iq_ring_ms r ->
  (forall g, fst <$> head bs = Some g -> gt_ring_memory g = Some fresh) ->
  (ring_capacity (ro_samp_rate o) (rx_iq_ring_ms r) <= List.length fresh)%nat ->
  Z.of_nat (List.length (stream_of (map snd bs))) < 2 ^ 64 ->
  rx_run o bs r = (r', out, rep) -> exists ring, rx_iq_ring r' = Some ring /\ iq_rep ring (stream_of (map snd bs)).
Proof.
  intros Hf Hb Hne Ht Er Hm Hg Hl Hs E. destruct bs as [|[g b] bs]; [done|]. apply Forall_cons in Hb as [Hb Hbs]. cbn [snd] in Hb.
  specialize (Hg g eq_refl). destruct (first_ring o g b r fresh ltac:(by rewrite Hb) Er Hm Hg Hl) as (ring & Hr & E1). rewrite rx_run_cons in E.
  assert (Es : stream_of (map snd ((g, b) :: bs)) = sb_samples b ++ concat (map (fun b => sb_samples (snd b)) bs)) by (unfold stream_of; cbn [map concat snd]; by rewrite map_map).
  rewrite Es in *. clear Es Hl Hg.
  pose proof (process_spec o g b r ltac:(by rewrite Hb)) as Hp. destruct (process_sample_buf o g b r) as [[r1 o1] rep1].
  destruct Hp as (P1 & P2 & _). rewrite E1 in P2. rewrite Ht in P1.
  pose proof (run_spec o fmt (fun _ _ => pzero) bs Hf Hbs r1 ltac:(rewrite P1; unfold u64, wrap; by rewrite Z.mod_mod)) as Hr'.
  destruct (rx_run o bs r1) as [[r2 o2] rep2]. cbn zeta in Hr'. destruct Hr' as (_ & _ & _ & _ & R5). rewrite P2 in R5.
  apply pair_inj in E as [E _]. apply pair_inj in E as [-> _]. eexists. split; [exact R5|].
  apply feed_rep; [|done]. apply (append_rep ring [] (sb_samples b) Hr). rewrite length_app in Hs. cbn [List.length Nat.add]. lia.
Qed.

(** Each channel is handed its bin of the stream. *)
Lemma run_received o fmt (bs : list (grants * sample_buf)) r r' out rep cz : fmt_ok fmt -> Forall (fun b => sb_format (snd b) = fmt) bs ->
  u64 (rx_samples_total r) = rx_samples_total r -> rx_channelizer r = Some cz -> cz_ok cz -> rx_run o bs r = (r', out, rep) ->
  forall k s g, cz_channels cz !! k = Some s -> cz_groups cz !! cn_group_idx s = Some g ->
  received k out = map (fun row => nth (cn_bin s) row pzero) (snd (pfb_process (gr_pfb g) (map (conv fmt) (stream_of (map snd bs))))).
Proof.
  intros Hf Hb Ht Ecz Hcz E k s g Hk Hgr. pose proof (run_spec o fmt (fun _ _ => pzero) bs Hf Hb r Ht) as Hr. rewrite E in Hr. cbn zeta in Hr.
  destruct Hr as (_ & _ & R3 & _). rewrite Ecz in R3.
  assert (Ec : concat (map (fun b => sb_samples (snd b)) bs) = stream_of (map snd bs)) by (unfold stream_of; by rewrite map_map).
  pose proof (cz_run_received (fun _ _ => pzero) (map (fun c => Feed (map (conv fmt) c)) (map (fun b => sb_samples (snd b)) bs)) cz k s g Hcz Hk Hgr) as Hrec.
  destruct (cz_run _ cz _) as [cz' out']. apply pair_inj in R3 as [_ ->]. cbn [snd] in Hrec. rewrite Hrec. do 3 f_equal. unfold fed. rewrite <- Ec.
  generalize (map (fun b => sb_samples (snd b)) bs) as l. intros l. induction l as [|c l IH]; [done|]. cbn [map flat_map concat]. by rewrite IH, map_app.
Qed.
End Receiver.

(** C21: The ring, the recording, the channels and the scanner are given the
    same stream.  For buffers of one format processed one after the other,
    whatever workers are started meanwhile and whichever of them fail to
    start, the sample count is the length of the stream, the raw-IQ ring
    holds its latest samples at their absolute indices, the recording is the
    recording of the same buffers, every channel is handed exactly its bin of
    the stream filtered by its bank, and the scanner reports what it reports
    of the whole stream; how the stream is cut into buffers makes no
    difference. *)
Theorem sinks_get_same_stream {C F} `{PfbOps C F} of_i8 of_f32 {CD FD} `{DdcOps (Z * Z) CD FD} `{FocusedEnv CD FD} fft_out log10f inv
  o fmt (bs : list (grants (FD := FD) * sample_buf)) r r' out rep cz sc rc fresh :
  fmt_ok fmt -> Forall (fun b => sb_format (snd b) = fmt) bs -> bs <> [] ->
  let stream := stream_of (map snd bs) in
  rx_samples_total r = 0 -> Z.of_nat (List.length stream) < 2 ^ 64 ->
  rx_iq_ring r = None -> 0 < rx_iq_ring_ms r ->
  (forall g, fst <$> head bs = Some g -> gt_ring_memory g = Some fresh) ->
  (ring_capacity (ro_samp_rate o) (rx_iq_ring_ms r) <= List.length fresh)%nat ->
  rx_channelizer r = Some cz -> cz_ok cz -> rx_scanner r = Some sc -> rx_record r = Some rc ->
  rx_run (C := C) (F := F) (CD := CD) of_i8 of_f32 fft_out log10f inv o bs r = (r', out, rep) ->
  rx_samples_total r' = Z.of_nat (List.length stream) /\
  (exists ring, rx_iq_ring r' = Some ring /\ iq_rep ring stream) /\
  rx_record r' = Some (fold_left (record_buf inv) (map snd bs) rc) /\
  (forall k s g, cz_channels cz !! k = Some s -> cz_groups cz !! cn_group_idx s = Some g ->
     received k out = map (fun row => nth (cn_bin s) row pzero) (snd (pfb_process (gr_pfb g) (map (conv of_i8 of_f32 fmt) stream)))) /\
  (rx_scanner r', rep) = (let '(sc, rep) := scanner_feed_float fft_out log10f sc (map (scan_conv fmt) stream) in (Some sc, rep)).
Proof.
  intros Hf Hb Hne stream Ht Hs Er Hm Hg Hl Ecz Hcz Esc Erc E.
  pose proof (ring_stream of_i8 of_f32 fft_out log10f inv o fmt bs r r' out rep fresh Hf Hb Hne Ht Er Hm Hg Hl Hs E) as Hring.
  pose proof (run_spec of_i8 of_f32 fft_out log10f inv o fmt (fun _ _ => pzero) bs Hf Hb r ltac:(by rewrite Ht)) as Hr. rewrite E in Hr. cbn zeta in Hr.
  destruct Hr as (R1 & R2 & R3 & R4 & _). rewrite Erc in R2. rewrite Ecz in R3. rewrite Esc in R4.
  assert (Ec : concat (map (fun b => sb_samples (snd b)) bs) = stream) by (unfold stream, stream_of; by rewrite map_map).
  rewrite Ec in R1. split; [rewrite R1, Ht; unfold u64, wrap; rewrite Z.mod_small; lia|]. split; [done|]. split; [done|]. split.
  - by apply (run_received of_i8 of_f32 fft_out log10f inv o fmt bs r r' out rep cz Hf Hb ltac:(by rewrite Ht) Ecz Hcz E).
  - rewrite R4, feeds_concat, <- concat_map, Ec. done.
Qed.

#[export] Instance pair_ops : DdcOps (Z * Z) Z Z := {|
  of_iq := fst; czero := 0; cone := 1; cmul := Z.mul; cscale := Z.mul; cadd := Z.add; renorm := id |}.

(** A receiver with one channel, a recording and a pool of one worker. *)
Definition rx_demo : receiver (C := Z) (F := Z) (CD := Z) (FD := Z) :=
  mk_receiver 0 1 None None [] None (-1) 0 false [] None (-1) ∅ (Some (open_recorder (str "a.cs8"))) (Some Channelizer.demo)
    (scanner_create 869500000 2000000 64).

Definition rx_demo_options : rx_options :=
  mk_rx_options (f64_of_Z 2000000) (f64_of_Z 869500000) None (mk_snapshot_cfg [] 0 0 0 0 f_zero f_zero None 0 64) f_zero f_zero [] 0 1 [] (mk_slot f_zero 0 0 0 0).

Definition rx_memory : list (Z * Z) := replicate 2000 (0, 0).
Definition rx_grants : grants (FD := Z) := mk_grants (Some rx_memory) true (fun _ => (true, true, true)) [] 0.
Definition rx_bufs : list (grants (FD := Z) * sample_buf) :=
  [(rx_grants, mk_sample_buf SAMPLE_FMT_INT8 (replicate 11 (0, 0))); (rx_grants, mk_sample_buf SAMPLE_FMT_INT8 [(1, 0); (5, 0); (1, 0); (0, 0); (2, 0); (0, 0)])].

Definition rx_demo_run := rx_run (fun i _ => i) (fun _ _ => 0) id id 0 rx_demo_options rx_bufs rx_demo.

Lemma rx_demo_cz : cz_ok Channelizer.demo.
Proof. apply cz_run_ok, create_ok. Qed.

Lemma sinks_get_same_stream_witness :
  let '(r, out, _) := rx_demo_run in
  rx_samples_total r = 17 /\ List.length (rx_pool r) = 1%nat /\ received 0 out = [3; 9; 22] /\
  exists ring, rx_iq_ring r = Some ring /\ iq_rep ring (stream_of (map snd rx_bufs)).
Proof.
  destruct rx_demo_run as [[r out] rep] eqn:E. unfold rx_demo_run in E.
  assert (Esc : exists sc, rx_scanner rx_demo = Some sc) by (eexists; reflexivity). destruct Esc as [sc Esc].
  destruct (sinks_get_same_stream (fun i _ => i) (fun _ _ => 0) id id 0 rx_demo_options SAMPLE_FMT_INT8 rx_bufs rx_demo r out rep
    Channelizer.demo sc (open_recorder (str "a.cs8")) rx_memory) as (H1 & H2 & _ & H4 & _).
  - left. reflexivity.
  - repeat apply Forall_cons_2; try apply Forall_nil_2; reflexivity.
  - discriminate.
  - reflexivity.
  - vm_compute. reflexivity.
  - reflexivity.
  - reflexivity.
  - intros g Hg. injection Hg as <-. reflexivity.
  - apply Nat.leb_le. vm_compute. reflexivity.
  - reflexivity.
  - exact rx_demo_cz.
  - exact Esc.
  - reflexivity.
  - exact E.
  - split; [exact H1|]. split; [|split; [|exact H2]].
    + change r with (fst (fst (r, out, rep))). rewrite <- E. vm_compute. reflexivity.
    + change out with (snd (fst (r, out, rep))). rewrite <- E. vm_compute. reflexivity.
Defined.

(** The input path from end to end: a recording read by the file source, its
    buffers through the sample pump, each processed by the receiver. *)

Definition no_buf : sample_buf := mk_sample_buf 0 [].

Lemma buf_format_ok f : fmt_ok (buf_format f).
Proof. destruct f; [by left|by left|by right]. Qed.

Lemma zip_received {C F} `{PfbOps C F} of_i8 of_f32 {CD FD} `{DdcOps (Z * Z) CD FD} `{FocusedEnv CD FD} fft_out log10f inv
  o fmt (gs : list (grants (FD := FD))) l r r' out rep cz :
  fmt_ok fmt -> Forall (fun b => sb_format b = fmt) l -> List.length gs = List.length l ->
  u64 (rx_samples_total r) = rx_samples_total r -> rx_channelizer r = Some cz -> cz_ok cz ->
  rx_run (C := C) (F := F) (CD := CD) of_i8 of_f32 fft_out log10f inv o (zip gs l) r = (r', out, rep) ->
  forall k s g, cz_channels cz !! k = Some s -> cz_groups cz !! cn_group_idx s = Some g ->
  received k out = map (fun row => nth (cn_bin s) row pzero) (snd (pfb_process (gr_pfb g) (map (conv of_i8 of_f32 fmt) (stream_of l)))).
Proof.
  intros Hf Hb Hl Hn Ecz Hcz E k s g Hk Hg. assert (Es : map snd (zip gs l) = l) by (apply (snd_zip gs l); lia).
  rewrite <- Es. apply (run_received of_i8 of_f32 fft_out log10f inv o fmt (zip gs l) r r' out rep cz); try done.
  rewrite <- Es in Hb. by apply (proj1 (Forall_map snd _ (zip gs l))) in Hb.
Qed.


Definition replay_bufs : list sample_buf := map snd rx_bufs.
Definition replay_file : list Z := rc_file (fold_left (record_buf 0) replay_bufs (open_recorder (str "a.cs8"))).
Definition replay_steps : list pump_step := map Push (replayed (str "a.cs8") replay_file) ++ [StopRequest] ++ repeat Pump 6.

