(* ===== verification/Stats.v ===== *)
(** The heartbeat of src/main.c (stats_thread, watchdog_thread,
    on_off_grid_discovery): the STATS line, the CHAN_SNR line with each
    channel's SNR history, the statistics file, the scanner's reports and the
    two start-up warnings; and that the lines are JSON of what was counted.

    A conversion of a double to int is only modelled in range. *)

From Stdlib Require Import String.
From S2P Require Import Prelude CString CFloat Json Focused Channelizer ChannelSet Scanner Pipeline PipelineRings.

Local Open Scope string_scope.
Local Open Scope list_scope.
Local Open Scope Z_scope.

(** ** Text of objects *)

Definition quoted (s : list Z) : list Z := 34 :: s ++ [34].
Definition member (kv : list Z * list Z) : list Z := quoted (fst kv) ++ 58 :: snd kv.
Definition object_text (l : list (list Z * list Z)) : list Z := 123 :: commas (map member l) ++ [125].
Definition array_text (l : list (list Z)) : list Z := 91 :: commas l ++ [93].

(** ** The STATS line *)

Definition clock_class (t_acc_ns : Z) : list Z :=
  if t_acc_ns <=? 200 then str "GPSDO" else if t_acc_ns <=? 2000 then str "PPS" else if t_acc_ns <=? 100000 then str "chrony" else str "NTP".

(** What the thread reads. *)
Record heartbeat_in := mk_heartbeat {
  hb_station : option (list Z);
  hb_t_acc_ns : Z;
  hb_samples : Z;
  hb_prev_samples : Z;
  hb_frames : Z;
  hb_decrypted : Z;
  hb_off_grid : option Z;                 (* [None] without a scanner *)
  hb_focus_workers : Z;
  hb_focus : list Z;                      (* the nine totals of FOCUS_KEYS *)
  hb_webhook : list Z;                    (* the four totals of WEBHOOK_KEYS *)
  hb_ring_ms : Z;
  hb_ring_samples : Z;
}.

Definition FOCUS_KEYS : list (list Z) :=
  [str "focus_promotions"; str "focus_matched"; str "focus_assigned"; str "focus_dropped"; str "focus_below_snr"; str "focus_frames";
   str "focus_fell_behind"; str "focus_fell_behind_edge"; str "focus_fell_behind_thru"].
Definition WEBHOOK_KEYS : list (list Z) := [str "webhook_queued"; str "webhook_sent"; str "webhook_dropped"; str "webhook_failed"].

Definition rate_msps (s prev : Z) : spec_float := f64_div (f64_of_Z (u64 (s - prev))) (f64_of_Z 5000000).

Definition stats_fields (h : heartbeat_in) : list (list Z * list Z) :=
  [(str "event", quoted (str "STATS")); (str "station", quoted (default [] (hb_station h)));
   (str "msps", fmt_f 2 (rate_msps (hb_samples h) (hb_prev_samples h))); (str "frames", fmt_d (hb_frames h));
   (str "decrypted", fmt_d (hb_decrypted h))] ++
  match hb_off_grid h with Some og => [(str "off_grid", fmt_d og)] | None => [] end ++
  [(str "clock", quoted (clock_class (hb_t_acc_ns h))); (str "clock_acc_ns", fmt_d (hb_t_acc_ns h));
   (str "focus_active", if 0 <? hb_focus_workers h then str "true" else str "false"); (str "focus_workers", fmt_d (hb_focus_workers h))] ++
  map (fun kv => (fst kv, fmt_d (snd kv))) (zip FOCUS_KEYS (hb_focus h)) ++ map (fun kv => (fst kv, fmt_d (snd kv))) (zip WEBHOOK_KEYS (hb_webhook h)) ++
  [(str "ring_ms", fmt_d (hb_ring_ms h)); (str "ring_samples", fmt_d (hb_ring_samples h))].

Definition STATS_BUF : nat := Z.to_nat 1024.

(** The line of [sn] bytes is handed on from a buffer of 1024. *)
Inductive handed := Whole (line : list Z) | Overread (line : list Z).

Definition stats_line (h : heartbeat_in) : handed :=
  let line := object_text (stats_fields h) ++ [10] in
  if (List.length line <? STATS_BUF)%nat then Whole line else Overread (take (STATS_BUF - 1) line).

(** ** The CHAN_SNR line *)

Definition f64_minus_half : spec_float := SFopp f64_half.

Definition sparkline_value (c : snr_cell) : Z :=
  if snd c =? 0 then -1
  else let avg := f64_div (fst c) (f64_of_Z (snd c)) in f64_trunc (f64_add avg (if SFleb f_zero avg then f64_half else f64_minus_half)).

Definition has_data (h : snr_history) : bool := existsb (fun c => negb (snd c =? 0)) (sh_cells h).

Definition chan_entry (ih : nat * snr_history) : list Z :=
  object_text [(str "id", fmt_d (Z.of_nat (fst ih))); (str "snr", array_text (map (fun c => fmt_d (sparkline_value c)) (snr_report (snd ih))))].

Definition chan_snr_text (ts : Z) (chans : list snr_history) : list Z :=
  object_text [(str "event", quoted (str "CHAN_SNR")); (str "ts", fmt_d ts);
               (str "channels", array_text (map chan_entry (List.filter (fun ih => has_data (snd ih)) (imap pair chans))))] ++ [10].

Definition CHAN_SNR_CAP : Z := 256 + 1024 * 1200.

(** [None]: the text exceeds the buffer; nothing is published then, and the
    closing brackets are written out of bounds. *)
Definition chan_snr_line (ts : Z) (chans : list snr_history) : option (list Z) :=
  let text := chan_snr_text ts chans in if Z.of_nat (List.length text) <? CHAN_SNR_CAP then Some text else None.

(** ** The statistics file *)

Definition file_entry (i : nat) (slot : slot_stat) (cs : chan_stat) : list Z :=
  let avg := if cs_snr_db_count cs =? 0 then f_zero else f64_div (cs_snr_db_sum cs) (f64_of_Z (cs_snr_db_count cs)) in
  object_text ([(str "id", fmt_d (Z.of_nat i))] ++
    match ss_preset_name slot with [] => [] | n => [(str "preset", quoted n)] end ++
    (if ss_sf slot =? 0 then [] else [(str "sf", fmt_d (ss_sf slot)); (str "cr", fmt_d (ss_cr slot)); (str "bw_hz", fmt_d (ss_bw_hz slot))]) ++
    [(str "frames", fmt_d (cs_frames cs)); (str "decrypted", fmt_d (cs_decrypted cs)); (str "avg_snr_db", fmt_f 2 avg); (str "bytes", fmt_d (cs_bytes cs))]).

Definition stats_file (ts : Z) (h : heartbeat_in) (off_grid : Z) (chans : list (slot_stat * chan_stat)) : list Z :=
  object_text [(str "ts", fmt_d ts); (str "msps", fmt_f 3 (rate_msps (hb_samples h) (hb_prev_samples h))); (str "frames", fmt_d (hb_frames h));
    (str "decrypted", fmt_d (hb_decrypted h)); (str "off_grid", fmt_d off_grid);
    (str "channels", array_text (imap (fun i sc => file_entry i (fst sc) (snd sc)) (take CHANNELIZER_MAX_CHANNELS chans)))] ++ [10].

(** ** Reports of the scanner *)

(** on_off_grid_discovery: the line printed and posted, and its summary. *)
Definition off_grid_fields (r : report) : list (list Z * list Z) :=
  [(str "event", quoted (str "OFF_GRID_LORA")); (str "f_hz", fmt_d (rp_f_hz r)); (str "snr_db", fmt_f 1 (f64_of_f32 (rp_snr_db r)));
   (str "bw_estimate_hz", fmt_f 0 (f64_of_f32 (rp_bw_hz r)))].

Definition on_off_grid_discovery (r : report) : list Z * list Z :=
  (object_text (off_grid_fields r) ++ [10],
   take 159 (str "Off-grid LoRa: " ++ fmt_f 3 (f64_div (f64_of_Z (rp_f_hz r)) f64_1e6) ++ str " MHz, SNR " ++ fmt_f 1 (f64_of_f32 (rp_snr_db r)) ++
             str " dB, ~" ++ fmt_f 0 (f64_div (f64_of_f32 (rp_bw_hz r)) (f64_of_Z 1000)) ++ str " kHz")).

(** ** The watchdog *)

Record watchdog := mk_watchdog { wd_no_samples : bool; wd_no_frames : bool; wd_ticks : Z }.

Inductive warning := NoSamples | NoFrames.

(** A second has passed with these totals. *)
Definition watchdog_tick (w : watchdog) (samples frames : Z) : watchdog * list warning :=
  let w := w {{ wd_ticks := i32 (wd_ticks w + 1) }} in
  let '(w, a) := if negb (wd_no_samples w) && (2 <=? wd_ticks w) && (samples =? 0) then (w {{ wd_no_samples := true }}, [NoSamples]) else (w, []) in
  let '(w, b) := if negb (wd_no_frames w) && (30 <=? wd_ticks w) && (frames =? 0) && (0 <? samples) then (w {{ wd_no_frames := true }}, [NoFrames]) else (w, []) in
  (w, a ++ b).

(** ** The lines are JSON *)

(** A text JSON prints as it is. *)
Definition plain (s : list Z) : bool := forallb (fun c => negb (c =? 34) && negb (c =? 92) && (32 <=? c) && (c <? 256)) s.

Lemma plain_esc s : plain s = true -> flat_map esc s = s /\ bytes_okb s = true.
Proof.
  induction s as [|c s IH]; [done|]. cbn [plain forallb]. intros [Hc Hs]%andb_prop. destruct (IH Hs) as [E1 E2].
  cbn [flat_map bytes_okb forallb]. fold (bytes_okb s). rewrite E1, E2, andb_true_r. zb. unfold esc.
  destruct (Z.eqb_spec c 34); [done|]. destruct (Z.eqb_spec c 92); [done|]. cbn [orb]. destruct (Z.eqb_spec c 10); [lia|]. destruct (Z.eqb_spec c 13); [lia|].
  destruct (Z.eqb_spec c 9); [lia|]. destruct (Z.ltb_spec c 32); [lia|]. split; [done|]. apply andb_true_intro. split; [apply Z.leb_le|apply Z.ltb_lt]; lia.
Qed.

Lemma quoted_plain s : plain s = true -> quoted s = print (JStr s).
Proof. intros H. unfold quoted. cbn [print]. unfold quote. by destruct (plain_esc s H) as [-> _]. Qed.

Lemma object_print l : Forall (fun kv => plain (fst kv) = true) l -> object_text (map (fun kv => (fst kv, print (snd kv))) l) = print (JObj l).
Proof.
  intros H. unfold object_text. cbn [print]. f_equal. f_equal. f_equal. rewrite map_map. induction H as [|[k v] l Hk _ IH]; [done|].
  cbn [map fst snd] in *. rewrite IH. f_equal. unfold member. cbn [fst snd]. by rewrite (quoted_plain k Hk).
Qed.

Definition entry_json (ih : nat * list Z) : json :=
  JObj [(str "id", JNum (fmt_d (Z.of_nat (fst ih)))); (str "snr", JArr (map (fun v => JNum (fmt_d v)) (snd ih)))].

Definition chan_snr_json (ts : Z) (entries : list (nat * list Z)) : json :=
  JObj [(str "event", JStr (str "CHAN_SNR")); (str "ts", JNum (fmt_d ts)); (str "channels", JArr (map entry_json entries))].

Definition plotted (chans : list snr_history) : list (nat * list Z) :=
  map (fun ih => (fst ih, map sparkline_value (snr_report (snd ih)))) (List.filter (fun ih => has_data (snd ih)) (imap pair chans)).

Lemma entry_print ih : chan_entry ih = print (entry_json (fst ih, map sparkline_value (snr_report (snd ih)))).
Proof.
  unfold entry_json. rewrite <- object_print by (repeat apply Forall_cons_2; try apply Forall_nil_2; reflexivity).
  unfold chan_entry. cbn [map fst snd print]. unfold array_text. by rewrite !map_map.
Qed.

Lemma chan_snr_print ts chans : chan_snr_text ts chans = print (chan_snr_json ts (plotted chans)) ++ [10].
Proof.
  unfold chan_snr_text, chan_snr_json. f_equal. rewrite <- object_print by (repeat apply Forall_cons_2; try apply Forall_nil_2; reflexivity).
  assert (E : array_text (map chan_entry (List.filter (fun ih => has_data (snd ih)) (imap pair chans))) = print (JArr (map entry_json (plotted chans)))).
  { cbn [print]. unfold array_text, plotted. rewrite !map_map. by rewrite (map_ext _ _ entry_print). }
  rewrite E. cbn [map fst snd]. rewrite (quoted_plain (str "CHAN_SNR")) by reflexivity. done.
Qed.

Lemma chan_snr_ok ts entries : json_ok (chan_snr_json ts entries) = true.
Proof.
  unfold chan_snr_json. assert (G : forallb json_ok (map entry_json entries) = true).
  { apply forallb_forall. intros x (ih & <- & _)%in_map_iff. unfold entry_json. cbn [json_ok forallb]. rewrite num_text_d.
    assert (Ga : forallb json_ok (map (fun v => JNum (fmt_d v)) (snd ih)) = true) by (apply forallb_forall; intros y (v & <- & _)%in_map_iff; apply num_text_d).
    rewrite Ga. reflexivity. }
  cbn [json_ok forallb]. rewrite G, num_text_d. reflexivity.
Qed.

(** ** The line fits its buffer *)

Lemma fmt_short z : -99 <= z <= 999 -> (List.length (fmt_d z) <= 3)%nat.
Proof.
  intros Hz. assert (G : forallb (fun n => (List.length (fmt_d (Z.of_nat n - 99)) <=? 3)%nat) (seq 0 1099) = true) by (vm_compute; reflexivity).
  rewrite forallb_forall in G. specialize (G (Z.to_nat (z + 99)) ltac:(apply in_seq; lia)). apply Nat.leb_le in G.
  by replace (Z.of_nat (Z.to_nat (z + 99)) - 99) with z in G by lia.
Qed.

Lemma id_short i : (i < 1024)%nat -> (List.length (fmt_d (Z.of_nat i)) <= 4)%nat.
Proof.
  intros Hi. assert (G : forallb (fun n => (List.length (fmt_d (Z.of_nat n)) <=? 4)%nat) (seq 0 (Z.to_nat 1024)) = true) by (vm_compute; reflexivity).
  rewrite forallb_forall in G. apply Nat.leb_le, G, in_seq. lia.
Qed.

Lemma commas_bound n l : Forall (fun t => (List.length t <= n)%nat) l -> (List.length (commas l) <= List.length l * S n)%nat.
Proof.
  induction 1 as [|x l Hx Hl IH]; [cbn; lia|]. destruct l as [|y l]; [cbn [commas List.length] in *; lia|].
  change (commas (x :: y :: l)) with (x ++ 44 :: commas (y :: l)). rewrite length_app. cbn [List.length] in *. lia.
Qed.

Lemma snr_report_length h : List.length (snr_report h) = 288%nat.
Proof. unfold snr_report. by rewrite length_map, length_seq. Qed.

Lemma entry_bound i h : (i < 1024)%nat -> Forall (fun c => -99 <= sparkline_value c <= 999) (snr_report h) -> (List.length (chan_entry (i, h)) <= 1190)%nat.
Proof.
  intros Hi Hv. pose proof (id_short i Hi) as H1. unfold chan_entry. cbn [fst snd]. set (vals := map _ (snr_report h)).
  assert (H2 : (List.length (commas vals) <= 288 * 4)%nat).
  { unfold vals. replace 288%nat with (List.length (map (fun c => fmt_d (sparkline_value c)) (snr_report h))) by (by rewrite length_map, snr_report_length).
    apply commas_bound, Forall_map. eapply Forall_impl; [exact Hv|]. intros c Hc. by apply fmt_short. }
  clearbody vals. unfold object_text, array_text. cbn [map commas]. cbn [List.length]. rewrite !length_app. cbn [List.length member fst snd quoted str].
  unfold member, quoted. cbn [fst snd]. cbn [List.length Datatypes.app]. rewrite !length_app. cbn [List.length Datatypes.app str]. rewrite ?length_app. cbn [List.length]. lia.
Qed.

(** What a channel's frames, as (five-minute window, SNR), plot as. *)
Definition plot_of (samples : list (Z * spec_float)) : list Z :=
  match last samples with
  | Some s => map (fun k => sparkline_value (bucket_cell samples (fst s - 287 + Z.of_nat k))) (seq 0 288)
  | None => []
  end.

Definition plots (chans : list (list (Z * spec_float))) : list (nat * list Z) :=
  map (fun ic => (fst ic, plot_of (snd ic))) (List.filter (fun ic => has_data (run_snr (snd ic))) (imap pair chans)).

Lemma run_snr_data samples : has_data (run_snr samples) = true -> exists s, last samples = Some s.
Proof. destruct samples as [|x l] using rev_ind; [intros H; by vm_compute in H|]. intros _. exists x. by rewrite last_snoc. Qed.

Lemma report_plot samples : in_order samples -> has_data (run_snr samples) = true -> map sparkline_value (snr_report (run_snr samples)) = plot_of samples.
Proof.
  intros Ho Hd. destruct (run_snr_data samples Hd) as [s Hs]. rewrite (snr_history_is_window samples s Ho Hs), map_map.
  unfold plot_of. rewrite Hs. apply map_ext. intros k. done.
Qed.

Lemma filter_plots l : Forall (fun ic => in_order (snd ic)) l ->
  map (fun ih => (fst ih, map sparkline_value (snr_report (snd ih))))
    (List.filter (fun ih => has_data (snd ih)) (map (fun ic => (fst ic, run_snr (snd ic))) l)) =
  map (fun ic => (fst ic, plot_of (snd ic))) (List.filter (fun ic => has_data (run_snr (snd ic))) l) (A := nat * list (Z * spec_float)).
Proof.
  induction 1 as [|[i c] l Hc _ IH]; [done|]. cbn [map List.filter fst snd]. destruct (has_data (run_snr c)) eqn:Hd; [|done].
  cbn [map fst snd]. rewrite IH. by rewrite report_plot.
Qed.

Lemma plotted_plots chans : Forall in_order chans -> plotted (map run_snr chans) = plots chans.
Proof.
  intros Ho. unfold plotted, plots. rewrite <- filter_plots.
  - f_equal. f_equal. change (map run_snr chans) with (run_snr <$> chans). rewrite imap_fmap.
    change (map ?f (imap pair chans)) with (f <$> imap pair chans). by rewrite fmap_imap.
  - apply Forall_forall. intros [i c] Hi. apply elem_of_lookup_imap in Hi as (j & c' & E & Hj). injection E as -> ->. cbn [snd].
    rewrite Forall_forall in Ho. apply Ho. by apply list_elem_of_lookup_2 in Hj.
Qed.

(** The CHAN_SNR line plots each channel's recent SNR.  For up to 1024
    channels with any frames in wall-clock order, whose averages stay between
    -99 and 999 dB, the line fits its buffer, is published, and is JSON: for
    each channel with a counted frame, in order, its id and the 288
    five-minute windows ending with that of its last frame, oldest first, each
    the rounded average of the window's frames or -1. *)
Theorem chan_snr_line_is_window ts chans :
  (List.length chans <= CHANNELIZER_MAX_CHANNELS)%nat -> Forall in_order chans -> (List.length (fmt_d ts) <= 20)%nat ->
  Forall (fun c => Forall (fun v => -99 <= v <= 999) (plot_of c)) chans ->
  exists line, chan_snr_line ts (map run_snr chans) = Some line /\ json_parse line = Some (chan_snr_json ts (plots chans)).
Proof.
  intros Hn Ho Ht Hv. exists (chan_snr_text ts (map run_snr chans)). split.
  - unfold chan_snr_line. cbn zeta. enough (H : Z.of_nat (List.length (chan_snr_text ts (map run_snr chans))) < CHAN_SNR_CAP) by by rewrite (proj2 (Z.ltb_lt _ _) H).
    set (es := List.filter (fun ih => has_data (snd ih)) (imap pair (map run_snr chans))).
    assert (Hes : Forall (fun e => (List.length e <= 1190)%nat) (map chan_entry es)).
    { apply Forall_map, Forall_forall. intros [i h] Hi. apply list_elem_of_In, filter_In in Hi as [Hi Hd]. cbn [snd] in Hd.
      apply list_elem_of_In, elem_of_lookup_imap in Hi as (j & h' & E & Hj). injection E as -> ->. change (map run_snr chans) with (run_snr <$> chans) in Hj.
      rewrite list_lookup_fmap in Hj. apply fmap_Some in Hj as (c & Hc & ->). pose proof (lookup_lt_Some _ _ _ Hc) as Hlt. unfold CHANNELIZER_MAX_CHANNELS in Hn.
      apply entry_bound; [lia|]. rewrite Forall_forall in Ho, Hv. specialize (Ho c ltac:(by apply list_elem_of_lookup_2 in Hc)). specialize (Hv c ltac:(by apply list_elem_of_lookup_2 in Hc)).
      rewrite <- (report_plot c Ho Hd) in Hv. by apply (proj1 (Forall_map sparkline_value _ _)) in Hv. }
    assert (Hl : (List.length (map chan_entry es) <= 1024)%nat).
    { rewrite length_map. unfold es. etransitivity; [apply filter_length_le|]. rewrite length_imap, length_map. exact Hn. }
    pose proof (commas_bound 1190 _ Hes) as Hc. unfold chan_snr_text. fold es. set (cs := map chan_entry es) in *. clearbody cs es.
    unfold object_text, array_text, CHAN_SNR_CAP. cbn [map commas]. unfold member, quoted. cbn [fst snd]. rewrite !length_app. cbn [List.length Datatypes.app str].
    repeat (rewrite length_app; cbn [List.length Datatypes.app str]). nia.
  - rewrite chan_snr_print, plotted_plots by done. apply json_parse_print; [apply chan_snr_ok|done].
Qed.

(** Two frames of 4 dB and one of 7 dB, ten minutes apart, on channel 1. *)
Definition demo_chans : list (list (Z * spec_float)) := [[]; [(5, f64_of_Z 4); (5, f64_of_Z 4); (7, f64_of_Z 7)]].

Lemma chan_snr_line_is_window_witness :
  plots demo_chans = [(1%nat, replicate 285 (-1) ++ [4; -1; 7])] /\
  exists line, chan_snr_line 1700000000 (map run_snr demo_chans) = Some line /\ json_parse line = Some (chan_snr_json 1700000000 (plots demo_chans)).
Proof.
  split; [vm_compute; reflexivity|]. apply (chan_snr_line_is_window 1700000000 demo_chans).
  - apply Nat.leb_le. reflexivity.
  - apply Forall_cons_2; [|apply Forall_cons_2; [|apply Forall_nil_2]].
    + split; [apply Forall_nil_2|]. intros i j a b _ Ha. by rewrite lookup_nil in Ha.
    + split; [repeat (apply Forall_cons_2; [cbn; lia|]); apply Forall_nil_2|].
      intros [|[|[|i]]] [|[|[|j]]] x y Hij Hx Hy; try lia; cbn in Hx, Hy; try discriminate; injection Hx as <-; injection Hy as <-; cbn; lia.
  - apply Nat.leb_le. vm_compute. reflexivity.
  - apply Forall_cons_2; [apply Forall_nil_2|]. apply Forall_cons_2; [|apply Forall_nil_2].
    assert (G : forallb (fun v => (-99 <=? v) && (v <=? 999)) (plot_of [(5, f64_of_Z 4); (5, f64_of_Z 4); (7, f64_of_Z 7)]) = true) by (vm_compute; reflexivity).
    apply Forall_forall. intros v Hin. apply list_elem_of_In in Hin. rewrite forallb_forall in G. specialize (G v Hin). apply andb_prop in G as [G1 G2].
    apply Z.leb_le in G1, G2. split; assumption.
Defined.

(** ** The STATS line *)

Definition count_json (kv : list Z * Z) : list Z * json := (fst kv, JNum (fmt_d (snd kv))).

Definition stats_json (h : heartbeat_in) : list (list Z * json) :=
  [(str "event", JStr (str "STATS")); (str "station", JStr (default [] (hb_station h)));
   (str "msps", JNum (fmt_f 2 (rate_msps (hb_samples h) (hb_prev_samples h)))); count_json (str "frames", hb_frames h);
   count_json (str "decrypted", hb_decrypted h)] ++
  match hb_off_grid h with Some og => [count_json (str "off_grid", og)] | None => [] end ++
  [(str "clock", JStr (clock_class (hb_t_acc_ns h))); count_json (str "clock_acc_ns", hb_t_acc_ns h);
   (str "focus_active", JBool (0 <? hb_focus_workers h)); count_json (str "focus_workers", hb_focus_workers h)] ++
  map count_json (zip FOCUS_KEYS (hb_focus h)) ++ map count_json (zip WEBHOOK_KEYS (hb_webhook h)) ++
  [count_json (str "ring_ms", hb_ring_ms h); count_json (str "ring_samples", hb_ring_samples h)].

Definition member_ok (kv : list Z * json) : Prop := plain (fst kv) = true /\ json_ok (snd kv) = true.

Lemma zip_members ks vs : Forall (fun k => plain k = true) ks -> Forall member_ok (map count_json (zip ks vs)).
Proof.
  intros H. revert vs. induction H as [|k ks Hk _ IH]; intros vs; [by destruct vs; apply Forall_nil_2|]. destruct vs as [|v vs]; [apply Forall_nil_2|].
  apply Forall_cons_2; [|apply IH]. split; [done|]. apply num_text_d.
Qed.

Lemma plain_ok s : plain s = true -> json_ok (JStr s) = true.
Proof. intros H. cbn [json_ok]. by destruct (plain_esc s H). Qed.

Lemma stats_members h : plain (default [] (hb_station h)) = true -> f_finite (rate_msps (hb_samples h) (hb_prev_samples h)) = true ->
  Forall member_ok (stats_json h).
Proof.
  intros Hs Hr. assert (Hc : plain (clock_class (hb_t_acc_ns h)) = true) by (unfold clock_class; repeat case_match; reflexivity).
  assert (Hk : forall k v, plain k = true -> member_ok (count_json (k, v))) by (intros k v Hk; split; [done|apply num_text_d]).
  unfold stats_json. apply Forall_app. split.
  { apply Forall_cons_2; [split; reflexivity|]. apply Forall_cons_2; [split; [reflexivity|by apply plain_ok]|].
    apply Forall_cons_2; [split; [reflexivity|by apply num_text_f]|]. do 2 (apply Forall_cons_2; [by apply Hk|]). apply Forall_nil_2. }
  apply Forall_app. split; [destruct (hb_off_grid h); [apply Forall_cons_2; [by apply Hk|]|]; apply Forall_nil_2|].
  apply Forall_app. split.
  { apply Forall_cons_2; [split; [reflexivity|by apply plain_ok]|]. apply Forall_cons_2; [by apply Hk|]. apply Forall_cons_2; [by split|].
    apply Forall_cons_2; [by apply Hk|apply Forall_nil_2]. }
  apply Forall_app. split; [apply zip_members; repeat apply Forall_cons_2; try apply Forall_nil_2; reflexivity|].
  apply Forall_app. split; [apply zip_members; repeat apply Forall_cons_2; try apply Forall_nil_2; reflexivity|].
  do 2 (apply Forall_cons_2; [by apply Hk|]). apply Forall_nil_2.
Qed.

Lemma stats_fields_print h : plain (default [] (hb_station h)) = true -> stats_fields h = map (fun kv => (fst kv, print (snd kv))) (stats_json h).
Proof.
  intros Hs. assert (Hc : plain (clock_class (hb_t_acc_ns h)) = true) by (unfold clock_class; repeat case_match; reflexivity).
  unfold stats_fields, stats_json. rewrite (quoted_plain _ Hs), (quoted_plain _ Hc), (quoted_plain (str "STATS")) by reflexivity.
  rewrite !map_app, !map_map. cbn [map count_json fst snd print]. repeat (f_equal; []). by destruct (hb_off_grid h).
Qed.

(** The STATS line of a station whose name needs no escaping is the JSON
    object of the counters. *)
Theorem stats_line_is_json h line : plain (default [] (hb_station h)) = true -> f_finite (rate_msps (hb_samples h) (hb_prev_samples h)) = true ->
  stats_line h = Whole line -> json_parse line = Some (JObj (stats_json h)).
Proof.
  intros Hs Hr. unfold stats_line. cbn zeta. destruct (_ <? _)%nat; [|done]. intros E.
  assert (El : line = object_text (stats_fields h) ++ [10]) by congruence. subst line. pose proof (stats_members h Hs Hr) as Hm.
  rewrite (stats_fields_print h Hs), object_print by (eapply Forall_impl; [exact Hm|]; by intros kv [? _]). apply json_parse_print; [|done].
  cbn [json_ok]. apply forallb_forall. intros [k v] Hk. apply list_elem_of_In in Hk. rewrite Forall_forall in Hm. destruct (Hm (k, v) Hk) as [H1 H2].
  cbn [fst snd] in *. apply plain_ok in H1. cbn [json_ok] in H1. by rewrite H1, H2.
Qed.

(** A report with finite figures is announced as JSON. *)
Theorem off_grid_line_is_json r : f_finite (rp_snr_db r) = true -> f_finite (rp_bw_hz r) = true ->
  json_parse (fst (on_off_grid_discovery r)) =
  Some (JObj [(str "event", JStr (str "OFF_GRID_LORA")); (str "f_hz", JNum (fmt_d (rp_f_hz r))); (str "snr_db", JNum (fmt_f 1 (rp_snr_db r)));
              (str "bw_estimate_hz", JNum (fmt_f 0 (rp_bw_hz r)))]).
Proof.
  intros Hs Hb. set (v := JObj _). assert (E : fst (on_off_grid_discovery r) = print v ++ [10]).
  { unfold v. rewrite <- object_print by (repeat apply Forall_cons_2; try apply Forall_nil_2; reflexivity). reflexivity. }
  rewrite E. apply json_parse_print; [|done]. unfold v. cbn [json_ok forallb]. rewrite num_text_d, !num_text_f by done. reflexivity.
Qed.

(** ** The watchdog *)

Fixpoint watchdog_run (w : watchdog) (obs : list (Z * Z)) : list warning :=
  match obs with [] => [] | (s, f) :: obs => let '(w, ws) := watchdog_tick w s f in ws ++ watchdog_run w obs end.

Definition is_no_samples (x : warning) : bool := match x with NoSamples => true | NoFrames => false end.

(** Each warning is given at most once. *)
Theorem watchdog_warns_once obs : forall w,
  (List.length (List.filter is_no_samples (watchdog_run w obs)) <= if wd_no_samples w then 0 else 1)%nat /\
  (List.length (List.filter (fun x => negb (is_no_samples x)) (watchdog_run w obs)) <= if wd_no_frames w then 0 else 1)%nat.
Proof.
  induction obs as [|[s f] obs IH]; intros w; cbn [watchdog_run]; [cbn; destruct (wd_no_samples w), (wd_no_frames w); lia|].
  unfold watchdog_tick. rcbn. destruct (negb (wd_no_samples w) && _ && _) eqn:E1; rcbn; destruct (negb (wd_no_frames w) && _ && _ && _) eqn:E2;
    cbn [Datatypes.app]; match goal with |- context [watchdog_run ?w' obs] => destruct (IH w') as [I1 I2]; revert I1 I2; rcbn; intros I1 I2 end;
    cbn [List.filter is_no_samples negb List.length]; destruct (wd_no_samples w), (wd_no_frames w); cbn [negb andb] in E1, E2; try discriminate; cbn iota in I1, I2 |- *; split; lia.
Qed.

(** ** Defects *)

(** An average of -1 dB plots as a window without frames. *)
Theorem minus_one_db_is_no_data : sparkline_value (f64_of_Z (-1), 1) = sparkline_value cell_zero.
Proof. reflexivity. Qed.

(** A channel's plot ends at its own last frame: a channel that fell silent a
    day ago and one heard just now plot alike. *)
Theorem plots_not_aligned : plot_of [(5, f64_of_Z 4)] = plot_of [(293, f64_of_Z 4)].
Proof. vm_compute. reflexivity. Qed.

(** A long station name makes the line longer than its buffer, which is then
    read beyond its end. *)
Theorem long_station_overread :
  let h := mk_heartbeat (Some (replicate 700 65)) 100 0 0 0 0 None 0 (replicate 9 0) (replicate 4 0) 0 0 in
  exists l, stats_line h = Overread l.
Proof. eexists. vm_compute. reflexivity. Qed.
