(* ===== verification/DbStore.v ===== *)
(** The SQLite store (src/db_sqlite.c, src/db_sqlite.h): the columns an event
    is stored under, the statements that select and update rows, the paged
    history queries, the replay at start-up and the table of nodes.

    The tables are lists of rows.  A SELECT is the rows its WHERE clause
    accepts; an UPDATE by primary key changes the rows with that key.  Whether
    SQLite finishes a statement is an argument, and so is the order it returns
    rows in where the statement does not fix it.  A column that may be NULL is
    an option, and a comparison with NULL does not hold.  [None] in place of
    the store is [g_db == NULL]; the mutex makes each call atomic, and the
    allocations succeed. *)

From Stdlib Require Import String Sorted.
From S2P Require Import Prelude CString CFloat MeshEvent Meshtastic MeshDecoders MeshCore MeshCoreDecoders.
From S2P Require Import Json Feed FeedMeshCore NodeDb.

Local Open Scope Z_scope.
Local Open Scope list_scope.

Definition dq (s : string) : list Z := 34 :: str s ++ [34].

Definition MESH_PORT_TEXT_MESSAGE : Z := 1.

(** ** Rows *)

Record event_row := mk_event_row {
  er_id : Z;
  er_ts : spec_float;
  er_protocol : list Z;
  er_type : option (list Z);
  er_route_type : option Z;
  er_payload_type : option Z;
  er_decrypted : option Z;
  er_crc_ok : option Z;
  er_crc_corrected : option Z;
  er_crc_corrected_bits : option Z;
  er_rssi_db : option spec_float;
  er_snr_db : option spec_float;
  er_sf : option Z;
  er_cr : option Z;
  er_bw_hz : option Z;
  er_node_id : option (list Z);
  er_channel_name : option (list Z);
  er_channel_hash : option Z;
  er_text : option (list Z);
  er_route_path_hex : option (list Z);
  er_lat : option spec_float;
  er_lon : option spec_float;
  er_raw_hex : option (list Z);
  er_json : option (list Z);
  er_telemetry_json : option (list Z);
}.

Record node_row := mk_node_row {
  no_id : Z;
  no_long_name : list Z;
  no_short_name : list Z;
  no_hw_model : Z;
  no_role : Z;
  no_last_seen : spec_float;
}.

(** [st_next_id] is the next value of AUTOINCREMENT. *)
Record store := mk_store { st_events : list event_row; st_next_id : Z; st_nodes : list node_row }.

Definition store_empty : store := mk_store [] 1 [].

(** ** Binding values *)

(** [sqlite3_bind_double]: NULL for a NaN. *)
Definition bind_double (x : spec_float) : option spec_float :=
  match x with S754_nan => None | _ => Some x end.

(** [if (s[0]) sqlite3_bind_text(s, -1) else sqlite3_bind_null()] *)
Definition bind_str (s : list Z) : option (list Z) := if nonempty s then Some (cstr s) else None.

(** [if (json && json_len) sqlite3_bind_text(json, json_len) else ...] *)
Definition bind_json (line : list Z) : option (list Z) :=
  match line with [] => None | _ => Some line end.

Definition bool_col (b : bool) : option Z := Some (if b then 1 else 0).

(** A float column that is zero is stored as NULL. *)
Definition bind_f32 (p : Z) : option spec_float :=
  if f32_nz p then bind_double (f64_of_f32 (f32_of_bits p)) else None.

Definition mc_node_id (ev : mesh_event) : Z :=
  let t := ev_mc_payload_type ev in
  let pk (k : nat) := nth k (ev_mc_pubkey ev) 0 in
  if (t =? MC_PAYLOAD_ADVERT) || (t =? MC_PAYLOAD_ANON_REQ) ||
     ((t =? MC_PAYLOAD_CONTROL) && ev_decrypted ev && strcmp_eq (ev_mc_ctl_subtype ev) NODE_DISCOVER_RESP)
  then Z.lor (Z.lor (Z.lor (u32 (Z.shiftl (pk 0%nat) 24)) (Z.shiftl (pk 1%nat) 16)) (Z.shiftl (pk 2%nat) 8)) (pk 3%nat)
  else if (t =? MC_PAYLOAD_GRP_TXT) || (t =? MC_PAYLOAD_GRP_DATA)
  then Z.lor 0x80000000 (ev_mc_channel_hash ev)
  else if nz (ev_mc_dest_hash ev) || nz (ev_mc_src_hash ev)
  then Z.lor (Z.lor 0x40000000 (Z.shiftl (ev_mc_dest_hash ev) 8)) (ev_mc_src_hash ev)
  else 0.

Definition bind_node_id (ev : mesh_event) : option (list Z) :=
  let id := if ev_is_meshcore ev then mc_node_id ev else hd_from (ev_header ev) in
  if nz id then Some (node_id_text id) else None.

Definition bind_route_path_hex (ev : mesh_event) : option (list Z) :=
  if negb (ev_is_meshcore ev) || (length (ev_mc_hdr_path ev) =? 0)%nat then None
  else Some (hex_of (ev_mc_hdr_path ev)).

(** The text column: a MeshCore text, or the payload of a Meshtastic text
    message cut to 255 bytes. *)
Definition bind_text (ev : mesh_event) : option (list Z) :=
  if ev_decrypted ev && ev_is_meshcore ev && nonempty (ev_mc_text ev) then Some (cstr (ev_mc_text ev))
  else if ev_decrypted ev && negb (ev_is_meshcore ev) && (ev_portnum ev =? MESH_PORT_TEXT_MESSAGE) &&
          (0 <? length (ev_payload ev))%nat
  then Some (cstr (take 255 (ev_payload ev)))
  else None.

(** [clock_gettime]: seconds and nanoseconds. *)
Definition now_of (now : Z * Z) : spec_float :=
  f64_add (f64_of_Z (fst now)) (f64_div (f64_of_Z (snd now)) (f64_of_Z 1000000000)).

(** The row db_sqlite_publish inserts. *)
Definition event_columns (id : Z) (now : Z * Z) (ev : mesh_event) (json_line : list Z) : event_row :=
  let mc := ev_is_meshcore ev in
  let radio (v : Z) := if 0 <? ev_sf ev then Some v else None in
  let located (x : spec_float) := if mc && ev_decrypted ev && ev_mc_has_latlon ev then bind_double x else None in
  {| er_id := id;
     er_ts := now_of now;
     er_protocol := if mc then str "meshcore" else str "meshtastic";
     er_type := Some (if mc then (if nonempty (ev_mc_type_name ev) then cstr (ev_mc_type_name ev) else str "UNKNOWN")
                      else mesh_port_name (ev_portnum ev));
     er_route_type := if mc then Some (ev_mc_route_type ev) else None;
     er_payload_type := Some (if mc then ev_mc_payload_type ev else i32 (ev_portnum ev));
     er_decrypted := bool_col (ev_decrypted ev);
     er_crc_ok := if ev_has_crc ev then bool_col (ev_payload_crc_ok ev) else None;
     er_crc_corrected := bool_col (ev_crc_corrected ev);
     er_crc_corrected_bits := Some (ev_crc_corrected_bits ev);
     er_rssi_db := bind_f32 (ev_rssi_db ev);
     er_snr_db := bind_f32 (ev_snr_db ev);
     er_sf := radio (ev_sf ev); er_cr := radio (ev_cr ev); er_bw_hz := radio (ev_bw_hz ev);
     er_node_id := bind_node_id ev;
     er_channel_name := bind_str (ev_channel_name ev);
     er_channel_hash := if mc && nz (ev_mc_channel_hash ev) then Some (ev_mc_channel_hash ev) else None;
     er_text := bind_text ev;
     er_route_path_hex := bind_route_path_hex ev;
     er_lat := located (ev_mc_lat ev); er_lon := located (ev_mc_lon ev);
     er_raw_hex := bind_str (ev_raw_hex ev);
     er_json := bind_json json_line;
     er_telemetry_json := if mc && ev_decrypted ev then bind_str (ev_mc_telemetry_json ev) else None |}.

(** [done]: the INSERT ends with SQLITE_DONE. *)
Definition db_sqlite_publish (st : option store) (now : Z * Z) (done : bool) (ev : mesh_event) (json_line : list Z)
  : option store :=
  match st with
  | None => None
  | Some s =>
      Some (if done
            then mk_store (st_events s ++ [event_columns (st_next_id s) now ev json_line]) (st_next_id s + 1) (st_nodes s)
            else s)
  end.

(** ** Rows to be processed again *)

(** [db_sqlite_undecrypted_row_t] and the four structures equal to it. *)
Record candidate_row := mk_candidate {
  cd_id : Z;
  cd_ts : spec_float;
  cd_sf : Z;
  cd_cr : Z;
  cd_bw_hz : Z;
  cd_rssi_db : spec_float;
  cd_snr_db : spec_float;
  cd_raw_hex : list Z;
}.

(** [column = value] in a WHERE clause. *)
Definition col_is (c : option Z) (v : Z) : bool := match c with Some x => x =? v | None => false end.
Definition col_set {A} (c : option A) : bool := match c with Some _ => true | None => false end.
Definition is_meshcore_row (r : event_row) : bool := list_eqb (er_protocol r) (str "meshcore").

(** One step of the fetch loop: NULL numbers read as zero; a row without
    raw_hex is skipped. *)
Definition fetch_row (r : event_row) : option candidate_row :=
  match er_raw_hex r with
  | Some h =>
      if nonempty h then
        Some (mk_candidate (er_id r) (er_ts r) (default 0 (er_sf r)) (default 0 (er_cr r)) (default 0 (er_bw_hz r))
                (default f_zero (er_rssi_db r)) (default f_zero (er_snr_db r)) (copy_to 513 (cstr h)))
      else None
  | None => None
  end.

(** [NULL] and no rows are the same to every caller. *)
Definition fetch_rows (where_ : event_row -> bool) (st : option store) : list candidate_row :=
  match st with
  | None => []
  | Some s => omap fetch_row (List.filter where_ (st_events s))
  end.

Definition undecrypted_where (channel_hash : Z) (r : event_row) : bool :=
  is_meshcore_row r && col_is (er_channel_hash r) channel_hash && col_is (er_decrypted r) 0 &&
  col_set (er_raw_hex r) && (col_is (er_payload_type r) 5 || col_is (er_payload_type r) 6).
Definition db_sqlite_query_undecrypted_channel_rows (st : option store) (channel_hash : Z) : list candidate_row :=
  fetch_rows (undecrypted_where channel_hash) st.

Definition crc_fail_where (r : event_row) : bool :=
  is_meshcore_row r && col_is (er_crc_ok r) 0 && col_set (er_raw_hex r).
Definition db_sqlite_query_meshcore_crc_fail_rows (st : option store) : list candidate_row :=
  fetch_rows crc_fail_where st.

Definition region_scope_where (r : event_row) : bool :=
  is_meshcore_row r && (col_is (er_route_type r) 0 || col_is (er_route_type r) 3) && col_set (er_raw_hex r).
Definition db_sqlite_query_region_scope_rows (st : option store) : list candidate_row :=
  fetch_rows region_scope_where st.

Definition telemetry_where (r : event_row) : bool :=
  is_meshcore_row r && col_is (er_payload_type r) 6 && col_is (er_decrypted r) 1 &&
  negb (col_set (er_telemetry_json r)) && col_set (er_raw_hex r).
Definition db_sqlite_query_telemetry_candidates (st : option store) : list candidate_row :=
  fetch_rows telemetry_where st.

Definition control_where (r : event_row) : bool :=
  is_meshcore_row r && col_is (er_payload_type r) 11 && col_is (er_decrypted r) 0 && col_set (er_raw_hex r).
Definition db_sqlite_query_control_candidates (st : option store) : list candidate_row :=
  fetch_rows control_where st.

(** ** Updates by primary key *)

Definition set_row (id : Z) (f : event_row -> event_row) (rows : list event_row) : list event_row :=
  map (fun r => if er_id r =? id then f r else r) rows.

(** The store and whether [sqlite3_step] ended with SQLITE_DONE and changed a
    row; [done] says whether it ended so. *)
Definition update_row (done : bool) (id : Z) (f : event_row -> event_row) (st : option store) : option store * bool :=
  match st with
  | None => (None, false)
  | Some s =>
      if done
      then (Some (mk_store (set_row id f (st_events s)) (st_next_id s) (st_nodes s)),
            existsb (fun r => er_id r =? id) (st_events s))
      else (Some s, false)
  end.

Definition db_sqlite_apply_redecrypt (done : bool) (id : Z) (channel_name text json : list Z) :=
  update_row done id (fun r => r {{ er_decrypted := Some 1; er_channel_name := bind_str channel_name;
                                    er_text := bind_str text; er_json := bind_json json }}).

Definition db_sqlite_apply_crc_recover (done : bool) (id crc_corrected_bits : Z) (decrypted : bool)
    (channel_name text json : list Z) :=
  update_row done id (fun r => r {{ er_crc_ok := Some 1; er_crc_corrected := Some 1;
                                    er_crc_corrected_bits := Some crc_corrected_bits;
                                    er_decrypted := bool_col decrypted;
                                    er_channel_name := bind_str channel_name; er_text := bind_str text;
                                    er_json := bind_json json }}).

Definition db_sqlite_apply_region_recover (done : bool) (id : Z) (json : list Z) :=
  update_row done id (fun r => r {{ er_json := bind_json json }}).

Definition db_sqlite_apply_telemetry_recover (done : bool) (id : Z) (telemetry_json json : list Z) :=
  update_row done id (fun r => r {{ er_telemetry_json := bind_str telemetry_json; er_json := bind_json json }}).

Definition db_sqlite_apply_control_recover (done : bool) (id : Z) (node_id : option (list Z)) (json : list Z) :=
  update_row done id (fun r => r {{ er_decrypted := Some 1;
                                    er_node_id := match node_id with Some n => bind_str n | None => None end;
                                    er_json := bind_json json }}).

(** ** Paged history *)

(** [while (newcap < need) newcap *= 2], from twice the old capacity. *)
Fixpoint grow_loop (fuel : nat) (newcap need : Z) : Z :=
  match fuel with
  | O => newcap
  | S fuel => if newcap <? need then grow_loop fuel (newcap * 2) need else newcap
  end.
Definition grow (cap need : Z) : Z := if cap <? need then grow_loop (Z.to_nat need) (cap * 2) need else cap.

(** The text being assembled: [buf[0 .. n)] of a buffer of [cap] bytes. *)
Record page_buf := mk_page { pg_text : list Z; pg_cap : Z }.
Definition pg_len (p : page_buf) : Z := Z.of_nat (length (pg_text p)).

Definition page_snprintf (p : page_buf) (s : list Z) : page_buf :=
  mk_page (pg_text p ++ take (Z.to_nat (pg_cap p - pg_len p - 1)) s) (pg_cap p).

Definition page_add (first : bool) (p : page_buf) (txt : list Z) : page_buf :=
  mk_page (pg_text p ++ (if first then [] else [44]) ++ txt)
    (grow (pg_cap p) (pg_len p + 1 + Z.of_nat (length txt) + 24)).

(** The fetch loop; the flag is [more]. *)
Fixpoint page_loop (limit row_count : nat) (first : bool) (p : page_buf) (rows : list event_row) : page_buf * bool :=
  match rows with
  | [] => (p, false)
  | r :: rows =>
      if (limit <=? row_count)%nat then (p, true)
      else match er_json r with
           | Some (c :: t) => page_loop limit (S row_count) false (page_add first p (c :: t)) rows
           | _ => page_loop limit row_count first p rows
           end
  end.

Definition page_json (head : list Z) (limit : nat) (rows : list event_row) : list Z :=
  let '(p, more) := page_loop limit 0 true (page_snprintf (mk_page [] 256) head) rows in
  pg_text (page_snprintf p (str "]," ++ dq "more" ++ str ":" ++ str (if more then "true" else "false") ++ str "}")).

Section History.
(** ORDER BY ts DESC; rows with the same time come in any order. *)
Context (order_desc : list event_row -> list event_row).

(** [?2 <= 0 OR ts < ?2] *)
Definition before_ok (before_ts : spec_float) (r : event_row) : bool :=
  SFleb before_ts f_zero || f64_ltb (er_ts r) before_ts.

Definition page_limit (limit : Z) : nat := if limit <=? 0 then 1%nat else Z.to_nat limit.

(** SELECT json ... WHERE ... ORDER BY ts DESC LIMIT limit + 1 *)
Definition page_rows (where_ : event_row -> bool) (before_ts : spec_float) (limit : Z) (s : store) : list event_row :=
  take (page_limit limit + 1) (order_desc (List.filter (fun r => where_ r && before_ok before_ts r) (st_events s))).

Definition history_page (head : string) (where_ : event_row -> bool) (before_ts : spec_float) (limit : Z)
    (st : option store) : option (list Z) :=
  match st with
  | None => None
  | Some s => Some (page_json (str "{" ++ dq head ++ str ":[") (page_limit limit) (page_rows where_ before_ts limit s))
  end.

Definition db_sqlite_query_messages_json (st : option store) (channel_hash : Z) (before_ts : spec_float) (limit : Z) :=
  history_page "messages" (fun r => col_is (er_channel_hash r) channel_hash && col_set (er_text r)) before_ts limit st.

Definition db_sqlite_query_node_events_json (st : option store) (node_id : list Z) (before_ts : spec_float) (limit : Z) :=
  if nonempty node_id
  then history_page "events" (fun r => match er_node_id r with Some n => list_eqb n (cstr node_id) | None => false end)
         before_ts limit st
  else None.

Definition db_sqlite_query_telemetry_json (st : option store) (before_ts : spec_float) (limit : Z) :=
  history_page "telemetry" (fun r => col_set (er_telemetry_json r)) before_ts limit st.

Definition db_sqlite_query_topology_json (st : option store) (before_ts : spec_float) (limit : Z) :=
  history_page "events" (fun r => col_set (er_route_path_hex r)) before_ts limit st.
End History.

(** The lines db_sqlite_replay_recent hands to web_publish_line, oldest first. *)
Definition db_sqlite_replay_recent (order_asc : list event_row -> list event_row) (st : option store) (now : Z * Z)
    (hours : spec_float) : option (list (list Z)) :=
  match st with
  | None => None
  | Some s =>
      if f64_ltb hours f_zero || f64_eqb hours f_zero then None
      else
        let since := f64_sub (now_of now) (f64_mul hours (f64_of_Z 3600)) in
        Some (omap (fun r => match er_json r with Some (c :: t) => Some (c :: t) | _ => None end)
                (order_asc (List.filter (fun r => SFleb since (er_ts r) && col_set (er_json r)) (st_events s))))
  end.

(** ** CRC statistics *)

Definition crc_counts (since_ts : spec_float) (rows : list event_row) : Z * Z * Z :=
  let rows := List.filter (fun r => is_meshcore_row r && SFleb since_ts (er_ts r)) rows in
  let count (p : event_row -> bool) := Z.of_nat (length (List.filter p rows)) in
  (count (fun r => col_is (er_crc_ok r) 1 && col_is (er_crc_corrected r) 0),
   count (fun r => col_is (er_crc_ok r) 1 && col_is (er_crc_corrected r) 1),
   count (fun r => col_is (er_crc_ok r) 0)).

Definition db_sqlite_query_stats_crc_json (st : option store) (since_ts : spec_float) : option (list Z) :=
  match st with
  | None => None
  | Some s =>
      let '(ok, corrected, failed) := crc_counts since_ts (st_events s) in
      Some (copy_to 96 (str "{" ++ dq "ok" ++ str ":" ++ dec_of_Z ok ++ str "," ++ dq "corrected" ++ str ":" ++ dec_of_Z corrected ++
                        str "," ++ dq "failed" ++ str ":" ++ dec_of_Z failed ++ str "}"))
  end.

(** ** The table of nodes *)

(** NODE_UPSERT_SQL: an empty name or a zero leaves what the row has. *)
Definition node_merge (new old : node_row) : node_row :=
  mk_node_row (no_id old)
    (match no_long_name new with [] => no_long_name old | n => n end)
    (match no_short_name new with [] => no_short_name old | n => n end)
    (if nz (no_hw_model new) then no_hw_model new else no_hw_model old)
    (if nz (no_role new) then no_role new else no_role old)
    (no_last_seen new).

Definition node_upsert (new : node_row) (rows : list node_row) : list node_row :=
  if existsb (fun r => no_id r =? no_id new) rows
  then map (fun r => if no_id r =? no_id new then node_merge new r else r) rows
  else rows ++ [new].

Definition node_db_persist_hook (st : option store) (now : Z * Z) (done : bool) (p : persist) : option store :=
  match st with
  | None => None
  | Some s =>
      Some (if done
            then mk_store (st_events s) (st_next_id s)
                   (node_upsert (mk_node_row (ps_id p) (ps_long_name p) (ps_short_name p) (i32 (ps_hw_model p))
                                   (i32 (ps_role p)) (now_of now)) (st_nodes s))
            else s)
  end.

(** [rows] is what the SELECT over the table returns, in its order. *)
Definition load_node (db : node_db) (r : node_row) : node_db :=
  node_db_load db (u32 (no_id r)) (no_long_name r) (no_short_name r) (u32 (no_hw_model r)) (u32 (no_role r)).
Definition db_sqlite_load_nodes (rows : list node_row) (db : node_db) : node_db := fold_left load_node rows db.

(** ** Facts about the tables *)

Definition store_ok (s : store) : Prop :=
  NoDup (map er_id (st_events s)) /\ Forall (fun r => er_id r < st_next_id s) (st_events s).

(** A pass over candidate rows as far as the table goes: [upd c] is the
    assignment made to the row of [c], if any. *)
Definition apply_all (upd : candidate_row -> option (event_row -> event_row)) (cands : list candidate_row)
    (rows : list event_row) : list event_row :=
  fold_left (fun rows c => match upd c with Some f => set_row (cd_id c) f rows | None => rows end) cands rows.

(** The same, row by row. *)
Definition rewritten (where_ : event_row -> bool) (upd : candidate_row -> option (event_row -> event_row))
    (r : event_row) : event_row :=
  if where_ r then
    match fetch_row r with
    | Some c => match upd c with Some f => f r | None => r end
    | None => r
    end
  else r.

Definition keeps_id (f : event_row -> event_row) : Prop := forall r, er_id (f r) = er_id r.

Lemma fetch_id r c : fetch_row r = Some c -> cd_id c = er_id r.
Proof. unfold fetch_row. destruct (er_raw_hex r) as [h|]; [|done]. destruct (nonempty h); [|done]. by intros [= <-]. Qed.

Lemma set_row_ids id f rows : keeps_id f -> map er_id (set_row id f rows) = map er_id rows.
Proof. intros Hf. unfold set_row. rewrite map_map. apply map_ext. intros r. case_if; [apply Hf|done]. Qed.

Definition chosen (upd : candidate_row -> option (event_row -> event_row)) (cands : list candidate_row) (r : event_row) :=
  match List.find (fun c => cd_id c =? er_id r) cands with
  | Some c => match upd c with Some f => f r | None => r end
  | None => r
  end.

Lemma apply_all_chosen upd cands rows :
  (forall c f, upd c = Some f -> keeps_id f) -> NoDup (map cd_id cands) ->
  apply_all upd cands rows = map (chosen upd cands) rows.
Proof.
  intros Hk. revert rows. induction cands as [|c cands IH]; intros rows Hn.
  { cbn. symmetry. apply map_id. }
  apply NoDup_cons in Hn as [Hc Hn]. change (apply_all upd (c :: cands) rows) with
    (apply_all upd cands (match upd c with Some f => set_row (cd_id c) f rows | None => rows end)).
  rewrite IH by done. unfold chosen at 2. cbn [List.find].
  assert (Habs : forall r, er_id r = cd_id c -> List.find (fun c0 => cd_id c0 =? er_id r) cands = None).
  { intros r E. destruct (List.find _ cands) as [c'|] eqn:Ef; [|done]. apply find_some in Ef as [Hin Ef]. zb.
    destruct Hc. rewrite <- E, <- Ef. apply list_elem_of_In, in_map. done. }
  destruct (upd c) as [f|] eqn:Ef.
  - unfold set_row. rewrite map_map. apply map_ext. intros r. rewrite (Z.eqb_sym (cd_id c)).
    destruct (Z.eqb_spec (er_id r) (cd_id c)) as [E|E]; [|done]. unfold chosen.
    rewrite (Habs (f r)), Ef; [done|]. by rewrite (Hk _ _ Ef).
  - apply map_ext. intros r. unfold chosen. destruct (Z.eqb_spec (cd_id c) (er_id r)) as [E|E]; [|done].
    by rewrite (Habs r), Ef.
Qed.

Lemma fetch_ids where_ rows : NoDup (map er_id rows) -> NoDup (map cd_id (omap fetch_row (List.filter where_ rows))).
Proof.
  intros H. assert (Hsub : forall rows, sublist (map cd_id (omap fetch_row (List.filter where_ rows))) (map er_id rows)).
  { clear. induction rows as [|r rows IH]; [done|]. cbn [List.filter map]. destruct (where_ r); [|by apply sublist_cons].
    cbn [omap list_omap]. destruct (fetch_row r) as [c|] eqn:E; [|by apply sublist_cons].
    cbn [map]. rewrite (fetch_id _ _ E). by apply sublist_skip. }
  by eapply sublist_NoDup.
Qed.

Lemma find_fetched where_ rows r : NoDup (map er_id rows) -> In r rows ->
  List.find (fun c => cd_id c =? er_id r) (omap fetch_row (List.filter where_ rows)) =
  if where_ r then fetch_row r else None.
Proof.
  intros Hn Hin. induction rows as [|x rows IH]; [done|]. cbn [map] in Hn. apply NoDup_cons in Hn as [Hx Hn].
  assert (Hno : forall y, er_id y = er_id x ->
            List.find (fun c => cd_id c =? er_id y) (omap fetch_row (List.filter where_ rows)) = None).
  { clear IH. intros y E. destruct (List.find _ _) as [c|] eqn:Ef; [|done]. apply find_some in Ef as [Hc Ef]. zb.
    apply list_elem_of_In, list_elem_of_omap in Hc as (z & Hz & Hf). apply list_elem_of_In, filter_In in Hz as [Hz _].
    destruct Hx. rewrite <- E, <- Ef, (fetch_id _ _ Hf). by apply list_elem_of_In, in_map. }
  cbn [List.filter]. destruct Hin as [->|Hin].
  - destruct (where_ r) eqn:Ew; [|by apply Hno]. cbn [omap list_omap].
    destruct (fetch_row r) as [c|] eqn:Ef; [|by apply Hno]. cbn [List.find]. by rewrite (fetch_id _ _ Ef), Z.eqb_refl.
  - assert (Hne : er_id x <> er_id r) by (intros E; apply Hx; rewrite E; by apply list_elem_of_In, in_map).
    rewrite <- (IH Hn Hin). destruct (where_ x); [|done]. cbn [omap list_omap].
    destruct (fetch_row x) as [c|] eqn:Ef; [|done]. cbn [List.find]. rewrite (fetch_id _ _ Ef).
    by destruct (Z.eqb_spec (er_id x) (er_id r)).
Qed.

(** A pass over the rows a query selects works row by row. *)
Lemma pass_pointwise where_ upd s :
  (forall c f, upd c = Some f -> keeps_id f) -> NoDup (map er_id (st_events s)) ->
  apply_all upd (fetch_rows where_ (Some s)) (st_events s) = map (rewritten where_ upd) (st_events s).
Proof.
  intros Hk Hn. cbn [fetch_rows]. rewrite apply_all_chosen by (done || by apply fetch_ids). apply map_ext_in.
  intros r Hr. unfold chosen, rewritten. rewrite find_fetched by done. by destruct (where_ r).
Qed.

Lemma rewritten_id where_ upd r : (forall c f, upd c = Some f -> keeps_id f) -> er_id (rewritten where_ upd r) = er_id r.
Proof.
  intros Hk. unfold rewritten. destruct (where_ r); [|done]. destruct (fetch_row r) as [c|]; [|done].
  destruct (upd c) as [f|] eqn:E; [|done]. apply (Hk _ _ E).
Qed.

(** ** Restart: the node cache comes back *)

(** What a row becomes in the cache. *)
Definition loaded (r : node_row) : node_record :=
  mk_node_record (u32 (no_id r)) (copy_to NODE_DB_LONG_NAME (no_long_name r))
    (copy_to NODE_DB_SHORT_NAME (no_short_name r)) (u32 (no_hw_model r)) (u32 (no_role r)).

Definition persist_ok (p : persist) : Prop :=
  0 <= ps_id p < 2 ^ 32 /\ 0 <= ps_hw_model p < 2 ^ 32 /\ 0 <= ps_role p < 2 ^ 32.

Definition persist_row (now : Z * Z) (p : persist) : node_row :=
  mk_node_row (ps_id p) (ps_long_name p) (ps_short_name p) (i32 (ps_hw_model p)) (i32 (ps_role p)) (now_of now).

Lemma u32_i32 v : 0 <= v < 2 ^ 32 -> u32 (i32 v) = v.
Proof.
  intros H. unfold u32, i32, wrap, swrap. rewrite Zminus_mod_idemp_l. replace (v + 2 ^ (32 - 1) - 2 ^ (32 - 1)) with v by lia.
  by apply Z.mod_small.
Qed.

Lemma nz_i32 v : 0 <= v < 2 ^ 32 -> nz (i32 v) = nz v.
Proof.
  intros H. unfold nz. f_equal. apply eq_true_iff_eq. rewrite !Z.eqb_eq. split; [|by intros ->].
  intros E. rewrite <- (u32_i32 v H), E. done.
Qed.

Lemma loaded_update p x : persist_ok p ->
  node_update (ps_long_name p) (ps_short_name p) (u32 (i32 (ps_hw_model p))) (u32 (i32 (ps_role p))) x =
  node_update (ps_long_name p) (ps_short_name p) (ps_hw_model p) (ps_role p) x.
Proof. intros (_ & H1 & H2). by rewrite !u32_i32. Qed.

Lemma loaded_merge now p old : persist_ok p ->
  loaded (node_merge (persist_row now p) old) =
  node_update (ps_long_name p) (ps_short_name p) (ps_hw_model p) (ps_role p) (loaded old).
Proof.
  intros (_ & H1 & H2). unfold loaded, node_merge, node_update, persist_row.
  cbn [no_id no_long_name no_short_name no_hw_model no_role no_last_seen]. rewrite !nz_i32 by done.
  destruct (ps_long_name p), (ps_short_name p), (nz (ps_hw_model p)), (nz (ps_role p)); rewrite ?u32_i32 by done; reflexivity.
Qed.

Lemma loaded_new now p : persist_ok p ->
  loaded (persist_row now p) =
  node_update (ps_long_name p) (ps_short_name p) (ps_hw_model p) (ps_role p) (mk_node_record (ps_id p) [] [] 0 0).
Proof.
  intros (H0 & H1 & H2). unfold loaded, persist_row, node_update. cbn [no_id no_long_name no_short_name no_hw_model no_role].
  rewrite !u32_i32 by done. replace (u32 (ps_id p)) with (ps_id p) by (symmetry; by apply Z.mod_small).
  unfold nz. destruct (ps_long_name p), (ps_short_name p), (Z.eqb_spec (ps_hw_model p) 0) as [->|],
    (Z.eqb_spec (ps_role p) 0) as [->|]; reflexivity.
Qed.

(** The rows of a table: distinct 32-bit keys. *)
Definition nodes_ok (rows : list node_row) : Prop :=
  NoDup (map no_id rows) /\ Forall (fun r => 0 <= no_id r < 2 ^ 32) rows.

Lemma loaded_ids rows : nodes_ok rows -> map nr_id (map loaded rows) = map no_id rows.
Proof.
  intros [_ H]. rewrite map_map. apply map_ext_in. intros r Hr. rewrite List.Forall_forall in H. cbn. by apply Z.mod_small, H.
Qed.

Lemma alter_map_id (f : node_record -> node_record) id db i :
  NoDup (map nr_id db) -> find_locked id 0 db = Some i ->
  alter f i db = map (fun n => if nr_id n =? id then f n else n) db.
Proof.
  intros Hn E. apply find_locked_Some in E as (n & _ & Hi & Hid). rewrite Nat.sub_0_r in Hi. revert i Hi.
  induction db as [|m db IH]; intros [|i] Hi; try done; cbn [map] in Hn; apply NoDup_cons in Hn as [Hm Hn].
  - injection Hi as ->. cbn. rewrite Hid, Z.eqb_refl. f_equal. rewrite <- (map_id db) at 1. apply map_ext_in. intros x Hx.
    destruct (Z.eqb_spec (nr_id x) id) as [E|]; [|done]. destruct Hm. rewrite Hid, <- E. by apply list_elem_of_In, in_map.
  - cbn [map]. change (alter f (S i) (m :: db)) with (m :: alter f i db). rewrite (IH Hn i Hi).
    destruct (Z.eqb_spec (nr_id m) id) as [E|]; [|done]. destruct Hm. rewrite E, <- Hid. apply list_elem_of_In, in_map.
    apply list_elem_of_In. by eapply list_elem_of_lookup_2.
Qed.

(** One sighting, in the cache and in the table. *)
Lemma sighting_agrees now p rows :
  persist_ok p -> nodes_ok rows -> let rows' := node_upsert (persist_row now p) rows in
  (length rows' <= NODE_DB_CAP)%nat ->
  nodes_ok rows' /\
  node_db_load (map loaded rows) (ps_id p) (ps_long_name p) (ps_short_name p) (ps_hw_model p) (ps_role p) =
  map loaded rows'.
Proof.
  intros Hp Hr rows' Hc. pose proof (loaded_ids rows Hr) as Hids. pose proof Hr as [Hn Hb]. unfold node_db_load.
  subst rows'. unfold node_upsert in *. change (no_id (persist_row now p)) with (ps_id p) in *.
  destruct (existsb _ rows) eqn:E.
  - apply existsb_exists in E as (r0 & Hin & E0). zb.
    assert (Hid : forall r, no_id (if no_id r =? ps_id p then node_merge (persist_row now p) r else r) = no_id r) by (intros r; by case_if).
    split; [split|].
    + rewrite map_map. erewrite map_ext; [exact Hn|]. exact Hid.
    + rewrite Forall_map. eapply Forall_impl; [exact Hb|]. intros r. cbn. by rewrite Hid.
    + destruct (find_locked (ps_id p) 0 (map loaded rows)) as [i|] eqn:Ei.
      2: { apply find_locked_None in Ei. destruct Ei. rewrite Hids, <- E0. by apply in_map. }
      rewrite (alter_map_id _ _ _ _ ltac:(by rewrite Hids) Ei), !map_map. apply map_ext_in. intros r Hr'.
      rewrite List.Forall_forall in Hb. change (nr_id (loaded r)) with (u32 (no_id r)).
      replace (u32 (no_id r)) with (no_id r) by (symmetry; by apply Z.mod_small, Hb).
      case_if; [by rewrite loaded_merge|done].
  - assert (Hno : ~ In (ps_id p) (map no_id rows)).
    { intros Hin. apply in_map_iff in Hin as (r & Er & Hin). enough (existsb (fun r => no_id r =? ps_id p) rows = true) by congruence.
      apply existsb_exists. exists r. split; [done|]. by apply Z.eqb_eq. }
    rewrite length_app in Hc. cbn [length] in Hc. split; [split|].
    + rewrite map_app. apply NoDup_app. split_and!; [done| |apply NoDup_singleton].
      intros x Hx Hx'. apply list_elem_of_singleton in Hx'. subst x. by apply list_elem_of_In in Hx.
    + apply Forall_app. split; [done|]. apply Forall_singleton. apply Hp.
    + rewrite (proj2 (find_locked_None _ _ _)) by by rewrite Hids.
      rewrite length_map. destruct (Nat.leb_spec NODE_DB_CAP (length rows)); [lia|].
      by rewrite map_app, <- (loaded_new now).
Qed.

(** Sightings in the order they come, each with its time, in both places. *)
Definition remember_all (sightings : list ((Z * Z) * persist)) : node_db :=
  fold_left (fun db x => fst (node_db_remember db (ps_id (snd x)) (ps_long_name (snd x)) (ps_short_name (snd x))
                                (ps_hw_model (snd x)) (ps_role (snd x)))) sightings [].
Definition persist_all (sightings : list ((Z * Z) * persist)) (st : option store) : option store :=
  fold_left (fun st x => node_db_persist_hook st (fst x) true (snd x)) sightings st.

Lemma persist_all_spec sightings s :
  Forall (fun x => persist_ok (snd x)) sightings -> st_nodes s = [] ->
  exists s', persist_all sightings (Some s) = Some s' /\
    ((length (st_nodes s') <= NODE_DB_CAP)%nat -> nodes_ok (st_nodes s') /\ remember_all sightings = map loaded (st_nodes s')).
Proof.
  intros Hf Hs. induction sightings as [|x l IH] using rev_ind.
  - exists s. split; [done|]. intros _. rewrite Hs. split; [split; constructor|done].
  - apply Forall_app in Hf as [Hf Hx]. rewrite Forall_singleton in Hx. destruct (IH Hf) as (s1 & E1 & H1).
    unfold persist_all, remember_all in *. rewrite !fold_left_app. cbn [fold_left]. rewrite E1.
    eexists. split; [reflexivity|]. cbn [st_nodes]. intros Hc. fold (persist_row (fst x) (snd x)) in *.
    assert (Hgrow : (length (st_nodes s1) <= length (node_upsert (persist_row (fst x) (snd x)) (st_nodes s1)))%nat).
    { unfold node_upsert. case_if; [by rewrite length_map|rewrite length_app; lia]. }
    destruct (H1 ltac:(lia)) as [Hok E]. rewrite E. exact (sighting_agrees (fst x) (snd x) (st_nodes s1) Hx Hok Hc).
Qed.

Lemma load_new rows : nodes_ok rows -> (length rows <= NODE_DB_CAP)%nat -> db_sqlite_load_nodes rows [] = map loaded rows.
Proof.
  induction rows as [|r rows IH] using rev_ind; [done|]. intros [Hn Hb] Hl. rewrite length_app in Hl. cbn [length] in Hl.
  rewrite map_app in Hn. apply NoDup_app in Hn as (Hn & Hd & _). apply Forall_app in Hb as [Hb Hr]. rewrite Forall_singleton in Hr.
  unfold db_sqlite_load_nodes in *. rewrite fold_left_app, IH by (done || lia). cbn [fold_left]. rewrite map_app. cbn [map].
  unfold load_node, node_db_load. pose proof (loaded_ids rows (conj Hn Hb)) as Hids.
  replace (u32 (no_id r)) with (no_id r) by (symmetry; by apply Z.mod_small).
  rewrite (proj2 (find_locked_None _ _ _)).
  2: { rewrite Hids. intros Hin. apply (Hd (no_id r)); [by apply list_elem_of_In|by apply list_elem_of_singleton]. }
  rewrite length_map. destruct (Nat.leb_spec NODE_DB_CAP (length rows)); [lia|]. do 2 f_equal.
  unfold loaded, node_update, nz. replace (u32 (no_id r)) with (no_id r) by (symmetry; by apply Z.mod_small).
  destruct (no_long_name r), (no_short_name r), (Z.eqb_spec (u32 (no_hw_model r)) 0) as [E1|],
    (Z.eqb_spec (u32 (no_role r)) 0) as [E2|]; cbn [negb]; rewrite ?E1, ?E2; reflexivity.
Qed.

Lemma find_perm (db db' : node_db) id : NoDup (map nr_id db) -> Permutation db db' -> node_db_lookup db id = node_db_lookup db' id.
Proof.
  intros Hn Hp. rewrite !lookup_find. assert (Hn' : NoDup (map nr_id db')) by by rewrite <- Hp.
  assert (G : forall a b, NoDup (map nr_id b) -> Permutation a b -> forall n, List.find (fun n => nr_id n =? id) a = Some n ->
            List.find (fun n => nr_id n =? id) b = Some n).
  { clear. intros a b Hb Hp n E. apply find_some in E as [Hin E]. apply (Permutation_in _ Hp) in Hin. zb. clear a Hp.
    induction b as [|m b IH]; [done|]. cbn [map] in Hb. apply NoDup_cons in Hb as [Hm Hb]. cbn [List.find].
    destruct Hin as [->|Hin]; [by rewrite (proj2 (Z.eqb_eq _ _) E)|].
    destruct (Z.eqb_spec (nr_id m) id) as [E'|]; [|by apply IH]. destruct Hm. rewrite E', <- E. by apply list_elem_of_In, in_map. }
  destruct (List.find _ db) as [n|] eqn:E1; [symmetry; by apply (G db)|].
  destruct (List.find _ db') as [n|] eqn:E2; [|done]. apply (G db' db) in E2; [congruence|done|by symmetry].
Qed.

(** C15: a restart loses no node.  Take any history of sightings that starts
    with an empty cache and an empty table, and let at most 1024 nodes be in
    the table at its end.  Whatever order the database returns the table in,
    loading it into an empty cache gives, for every node, exactly the record
    the running cache had: names cut to the cache's sizes, the last non-empty
    name and the last non-zero model and role. *)
Theorem restart_restores_nodes sightings s rows :
  Forall (fun x => persist_ok (snd x)) sightings -> st_nodes s = [] ->
  Permutation rows (default [] (option_map st_nodes (persist_all sightings (Some s)))) ->
  (length rows <= NODE_DB_CAP)%nat ->
  forall id, node_db_lookup (db_sqlite_load_nodes rows []) id = node_db_lookup (remember_all sightings) id.
Proof.
  intros Hf Hs Hp Hl id. destruct (persist_all_spec sightings s Hf Hs) as (s' & E & H). rewrite E in Hp. cbn in Hp.
  destruct H as [[Hn Hb] Er]; [by rewrite <- (Permutation_length Hp)|].
  assert (Hok : nodes_ok rows) by (split; [by rewrite Hp|by rewrite Hp]).
  rewrite Er, load_new by done. apply find_perm; [|by apply Permutation_map]. rewrite loaded_ids by done. apply Hok.
Qed.

(** Two sightings of one node and one of another, read back in the other order. *)
Definition three_sightings : list ((Z * Z) * persist) :=
  [((1, 0), mk_persist 7 (str "Alpine Repeater") (str "ALP1") 3 0); ((2, 0), mk_persist 9 [] (str "B") 0 2);
   ((3, 0), mk_persist 7 [] [] 0 0xFFFFFFFF)].

Lemma restart_restores_nodes_witness :
  node_db_lookup (db_sqlite_load_nodes (rev (default [] (option_map st_nodes (persist_all three_sightings (Some store_empty))))) []) 7 =
  Some (mk_node_record 7 (str "Alpine Repeater") (str "ALP1") 3 0xFFFFFFFF).
Proof.
  rewrite (restart_restores_nodes three_sightings store_empty).
  - vm_compute. reflexivity.
  - repeat constructor; vm_compute; done.
  - reflexivity.
  - symmetry. apply Permutation_rev.
  - apply Nat.leb_le. vm_compute. reflexivity.
Defined.

(** ** Pages are never cut *)

Lemma grow_loop_ge fuel : forall newcap need, 1 <= newcap -> need <= newcap + Z.of_nat fuel -> need <= grow_loop fuel newcap need.
Proof.
  induction fuel as [|fuel IH]; intros newcap need H1 H2; cbn [grow_loop]; [lia|].
  destruct (Z.ltb_spec newcap need); [|done]. apply IH; lia.
Qed.

Lemma grow_ge cap need : 1 <= cap -> need <= grow cap need.
Proof. intros H. unfold grow. destruct (Z.ltb_spec cap need); [apply grow_loop_ge; lia|done]. Qed.

(** Room for the closing text. *)
Definition page_room (p : page_buf) : Prop := pg_len p + 24 <= pg_cap p.

Lemma page_add_room first p txt : page_room p -> page_room (page_add first p txt).
Proof.
  unfold page_room, pg_len, page_add. cbn [pg_text pg_cap]. intros H. rewrite !length_app.
  pose proof (grow_ge (pg_cap p) (Z.of_nat (length (pg_text p)) + 1 + Z.of_nat (length txt) + 24) ltac:(lia)).
  unfold pg_len. destruct first; cbn [length]; lia.
Qed.

Lemma page_snprintf_fits p s : pg_len p + Z.of_nat (length s) < pg_cap p -> pg_text (page_snprintf p s) = pg_text p ++ s.
Proof. intros H. unfold page_snprintf. cbn [pg_text]. rewrite take_ge by lia. done. Qed.

Definition with_json (r : event_row) : bool := match er_json r with Some (_ :: _) => true | _ => false end.
Definition json_of (r : event_row) : list Z := default [] (er_json r).

Lemma page_loop_spec limit rows : forallb with_json rows = true -> forall count first p, page_room p -> (count <= limit)%nat ->
  let '(p', more) := page_loop limit count first p rows in
  page_room p' /\ more = (limit - count <? length rows)%nat /\
  pg_text p' = pg_text p ++ match take (limit - count) rows with
                            | [] => []
                            | l => (if first then [] else [44]) ++ commas (map json_of l)
                            end.
Proof.
  induction rows as [|r rows IH]; intros Hj count first p Hp Hc; cbn [page_loop].
  { rewrite take_nil, app_nil_r. split; [done|]. split; [|done]. by destruct (limit - count)%nat. }
  cbn [forallb] in Hj. apply andb_prop in Hj as [Hr Hj]. destruct (Nat.leb_spec limit count) as [Hl|Hl].
  - replace (limit - count)%nat with O by lia. rewrite app_nil_r. done.
  - unfold with_json in Hr. destruct (er_json r) as [[|c t]|] eqn:Ej; try done.
    specialize (IH Hj (S count) false (page_add first p (c :: t)) (page_add_room _ _ _ Hp) ltac:(lia)).
    destruct (page_loop limit (S count) false _ rows) as [p' more]. destruct IH as (I1 & I2 & I3). split; [done|].
    replace (limit - count)%nat with (S (limit - S count)) by lia. cbn [take length]. split; [done|].
    rewrite I3. unfold page_add. cbn [pg_text map]. rewrite <- !app_assoc. do 2 f_equal.
    assert (E : json_of r = c :: t) by (unfold json_of; by rewrite Ej). rewrite E.
    destruct (take (limit - S count) rows) as [|r' l]; [by rewrite app_nil_r|]. done.
Qed.

(** The text of a page: the documents of the [limit] rows, the [more] flag. *)
Definition page_text (head : list Z) (docs : list (list Z)) (more : bool) : list Z :=
  head ++ commas docs ++ str "]," ++ dq "more" ++ str ":" ++ str (if more then "true" else "false") ++ str "}".

Lemma page_json_text head limit rows : (length head <= 128)%nat -> (0 < limit)%nat -> forallb with_json rows = true ->
  page_json head limit rows = page_text head (map json_of (take limit rows)) (limit <? length rows)%nat.
Proof.
  intros Hh Hl Hj. unfold page_json. set (p0 := page_snprintf (mk_page [] 256) head).
  assert (E0 : pg_text p0 = head) by (apply page_snprintf_fits; unfold pg_len; cbn [pg_text pg_cap length]; lia).
  assert (H0 : page_room p0) by (unfold page_room, pg_len; rewrite E0; unfold p0, page_snprintf; cbn [pg_cap]; lia).
  pose proof (page_loop_spec limit rows Hj 0 true p0 H0 ltac:(lia)) as H. rewrite !Nat.sub_0_r in H.
  destruct (page_loop limit 0 true p0 rows) as [p more]. destruct H as (H1 & H2 & H3).
  rewrite page_snprintf_fits.
  - unfold page_text. rewrite H3, E0, H2, <- app_assoc. do 2 f_equal. by destruct (take limit rows).
  - unfold page_room in H1. destruct more; cbn; lia.
Qed.

(** A sorted selection. *)
Definition orders_desc (order : list event_row -> list event_row) : Prop := forall l,
  Permutation (order l) l /\ StronglySorted (fun a b => f64_ltb (er_ts a) (er_ts b) = false) (order l).

(** A page of the message history is complete.  Whatever rows the store
    holds, a query for [limit] messages of a channel older than a given time
    returns the JSON documents of the [limit] first rows of the channel, in
    order of time from the newest, none cut and none skipped; [more] tells
    whether another row follows. *)
Theorem messages_page_complete order s channel before limit :
  orders_desc order -> forallb with_json (st_events s) = true ->
  exists rows,
    db_sqlite_query_messages_json order (Some s) channel before limit =
      Some (page_text (str "{" ++ dq "messages" ++ str ":[") (map json_of (take (page_limit limit) rows))
              (page_limit limit <? length rows)%nat) /\
    Permutation rows (List.filter (fun r => col_is (er_channel_hash r) channel && col_set (er_text r) && before_ok before r)
                        (st_events s)) /\
    StronglySorted (fun a b => f64_ltb (er_ts a) (er_ts b) = false) rows.
Proof.
  intros Ho Hj. set (sel := List.filter _ (st_events s)). destruct (Ho sel) as [Hp Hs]. exists (order sel). split; [|done].
  unfold db_sqlite_query_messages_json, history_page, page_rows. f_equal.
  assert (Hsel : forallb with_json (order sel) = true).
  { apply forallb_forall. intros r Hr. apply (Permutation_in _ Hp), filter_In in Hr as [Hr _]. rewrite forallb_forall in Hj. by apply Hj. }
  set (n := page_limit limit). assert (Hn : (0 < n)%nat) by (unfold n, page_limit; destruct (Z.leb_spec limit 0); lia).
  rewrite page_json_text; [|cbn; lia|done|].
  - change (List.filter _ _) with sel. rewrite take_take, Nat.min_l, length_take by lia. f_equal. apply eq_true_iff_eq. rewrite !Nat.ltb_lt. lia.
  - change (List.filter _ _) with sel. rewrite <- (take_drop (n + 1) (order sel)), forallb_app in Hsel. by apply andb_prop in Hsel as [Hsel _].
Qed.
