(* ===== verification/Recover.v ===== *)
(** The passes that process stored rows again: a channel whose key became
    known (src/meshcore_redecrypt.c), failed checksums (src/crc_recover.c),
    region names (src/meshcore_region_recover.c), telemetry
    (src/meshcore_lpp_recover.c) and node discovery
    (src/meshcore_control_recover.c).

    A pass fetches its candidate rows, decodes each stored frame as the live
    receiver would, and writes back what it finds.  The store is that of
    DbStore.v; the cryptographic functions are parameters, as in the
    decoders. *)

From Stdlib Require Import String.
From S2P Require Import Prelude CString CFloat LoraCodec LoraCrcFacts LoraCrc MeshEvent Keyset MeshDecoders MeshCore MeshCoreRegion MeshCoreDecoders MeshCoreLpp.
From S2P Require Import MeshCoreFacts MeshCoreTrust Jw Feed FeedMeshCore DbStore.

Local Open Scope Z_scope.
Local Open Scope list_scope.

(** ** Shared steps *)

(** [hex_decode] into [frame[256]]: an odd length is an error, more digits
    than fit are ignored. *)
Definition frame_of_hex (hex : list Z) : option (list Z) :=
  if negb (length hex mod 2 =? 0)%nat then None else hex_pairs (take 512 hex).

(** The pattern of a float value. *)
Definition f32_bits (x : spec_float) : Z :=
  let sign (s : bool) := if s then 2 ^ 31 else 0 in
  match x with
  | S754_zero s => sign s
  | S754_infinity s => sign s + 0x7f800000
  | S754_nan => 0x7fc00000
  | S754_finite s m e => sign s + (if Zpos m <? 2 ^ 23 then Zpos m else (e + 150) * 2 ^ 23 + (Zpos m - 2 ^ 23))
  end.

(** [(float)row.rssi_db] *)
Definition row_f32 (x : spec_float) : Z := f32_bits (f32_of_f64 x).

(** capture_cb: the event of the callback, over a zeroed one. *)
Definition captured (fx : list mc_effect) : mesh_event :=
  fold_left (fun e f => match f with McEvent ev => ev | _ => e end) fx event_zero.
Definition uncaptured (fx : list mc_effect) : list mc_effect :=
  List.filter (fun f => match f with McEvent _ => false | _ => true end) fx.

(** What a pass does besides writing rows. *)
Inductive rx_effect :=
| RxDecode (e : mc_effect)
| RxFeed (e : feed_effect).

Record crc_recover_stats := mk_crc_stats {
  total_candidates : Z;
  fixed_1bit : Z;
  fixed_2bit : Z;
  untrusted : Z;
  decode_failed : Z;
}.

(** The counters of the other three scans. *)
Record recover_stats := mk_rx_stats { rx_total_candidates : Z; rx_resolved : Z; rx_decode_failed : Z }.

Section Passes.
Context (ed25519_verify : list Z -> list Z -> list Z -> bool) (hmac_sha256 : list Z -> list Z -> option (list Z)).
Context (aes128_ecb_decrypt : list Z -> list Z -> option (list Z)) (sha256 : list Z -> option (list Z)).

(** The clock, read only for a row without a time; whether the UPDATE of a
    row ends with SQLITE_DONE. *)
Context (tv : Z * Z) (done : Z -> bool).

Definition redecode (regions : list confirmed_region) (channels : option channelset) (c : candidate_row)
    (frame : list Z) : Z * list mc_effect :=
  meshcore_packet_decode_with_radio ed25519_verify hmac_sha256 aes128_ecb_decrypt frame
    (row_f32 (cd_rssi_db c)) (row_f32 (cd_snr_db c)) (cd_sf c) (cd_cr c) (cd_bw_hz c) regions channels true.

(** [feed_serialize_event_meshcore(&j, &ev, NULL, row.ts, false, 0, 0, 0)] into
    2048 bytes. *)
Definition row_json (c : candidate_row) (ev : mesh_event) : list Z * list feed_effect :=
  let '(cs, fx) := meshcore_calls None (cd_ts c) tv None ev in
  (jw_buf (jw_close (run_calls cs (jw_open (jw_init 2048)))), fx).

(** ** Re-decryption *)

(** The event rebuilt from a row, when it decrypts. *)
Definition redecrypt_event (channels : option channelset) (regions : list confirmed_region) (c : candidate_row)
  : list mc_effect * option mesh_event :=
  match frame_of_hex (cd_raw_hex c) with
  | None | Some [] => ([], None)
  | Some frame =>
      match meshcore_packet_parse frame with
      | None => ([], None)
      | Some pkt =>
          let t := pk_payload_type pkt in
          if negb (t =? MC_PAYLOAD_GRP_TXT) && negb (t =? MC_PAYLOAD_GRP_DATA) then ([], None)
          else
            let region :=
              if pk_has_transport_codes pkt
              then meshcore_region_resolve_fast hmac_sha256 regions t (pk_payload pkt) (pk_transport_code1 pkt) 32
              else None in
            let enq := if pk_has_transport_codes pkt
                       then match region with
                            | Some _ => []
                            | None => [RegionEnqueue t (pk_payload pkt) (pk_transport_code1 pkt)]
                            end
                       else [] in
            let ev := (mc_base_event pkt frame (row_f32 (cd_rssi_db c)) (row_f32 (cd_snr_db c)) (cd_sf c) (cd_cr c)
                         (cd_bw_hz c) region) {{ ev_raw_hex := copy_to 513 (cd_raw_hex c) }} in
            let r := if t =? MC_PAYLOAD_GRP_TXT
                     then meshcore_decode_grp_txt hmac_sha256 aes128_ecb_decrypt pkt channels ev
                     else meshcore_decode_grp_data hmac_sha256 aes128_ecb_decrypt pkt channels ev in
            (enq, match r with Some ev => if ev_decrypted ev then Some ev else None | None => None end)
      end
  end.

Definition redecrypt_row (channels : option channelset) (regions : list confirmed_region)
    (acc : option store * list rx_effect * Z) (c : candidate_row) : option store * list rx_effect * Z :=
  let '(st, fx, fixed) := acc in
  let '(mfx, r) := redecrypt_event channels regions c in
  let fx := fx ++ map RxDecode mfx in
  match r with
  | None => (st, fx, fixed)
  | Some ev =>
      let '(json, ffx) := row_json c ev in
      let '(st, ok) := db_sqlite_apply_redecrypt (done (cd_id c)) (cd_id c) (ev_channel_name ev) (ev_mc_text ev) json st in
      (st, fx ++ map RxFeed ffx, if ok then fixed + 1 else fixed)
  end.

Definition meshcore_redecrypt_channel (channel_hash : Z) (channels : option channelset) (regions : list confirmed_region)
    (st : option store) : option store * list rx_effect * Z :=
  match channels with
  | None => (st, [], 0)
  | Some _ =>
      fold_left (redecrypt_row channels regions) (db_sqlite_query_undecrypted_channel_rows st channel_hash) (st, [], 0)
  end.

(** ** Checksum recovery *)

(** One flipped bit, then two, in the same buffer. *)
Definition crc_repair (frame : list Z) : option (Z * list Z) :=
  let '(ok1, frame) := lora_crc_bruteforce_correct frame in
  if ok1 then Some (1, frame)
  else let '(ok2, frame) := lora_crc_bruteforce_correct_2bit frame in
       if ok2 then Some (2, frame) else None.

Definition authable (ev : mesh_event) : bool :=
  (ev_mc_payload_type ev =? MC_PAYLOAD_GRP_TXT) || (ev_mc_payload_type ev =? MC_PAYLOAD_GRP_DATA) ||
  (ev_mc_payload_type ev =? MC_PAYLOAD_ADVERT).

Definition repair_trusted (bits : Z) (ev : mesh_event) : bool :=
  let needs_gate := (2 <=? bits) || ((bits =? 1) && authable ev) in
  negb needs_gate || mesh_event_crc2bit_trusted ev.

Definition crc_recover_row (channels : option channelset) (regions : list confirmed_region)
    (acc : option store * list rx_effect * crc_recover_stats * Z) (c : candidate_row)
  : option store * list rx_effect * crc_recover_stats * Z :=
  let '(st, fx, local, fixed_total) := acc in
  let local := local {{ total_candidates := total_candidates local + 1 }} in
  match frame_of_hex (cd_raw_hex c) with
  | None => (st, fx, local, fixed_total)
  | Some frame =>
      if (length frame <? 4)%nat then (st, fx, local, fixed_total)
      else
        match crc_repair frame with
        | None => (st, fx, local, fixed_total)
        | Some (bits, frame) =>
            let '(rc, mfx) := redecode regions channels c frame in
            let fx := fx ++ map RxDecode (uncaptured mfx) in
            if negb (rc =? 0) then (st, fx, local {{ decode_failed := decode_failed local + 1 }}, fixed_total)
            else
              let ev := (captured mfx) {{ ev_has_crc := true; ev_payload_crc_ok := true; ev_crc_corrected := true;
                                          ev_crc_corrected_bits := bits }} in
              if negb (repair_trusted bits ev) then (st, fx, local {{ untrusted := untrusted local + 1 }}, fixed_total)
              else
                let '(json, ffx) := row_json c ev in
                let '(st, ok) := db_sqlite_apply_crc_recover (done (cd_id c)) (cd_id c) bits (ev_decrypted ev)
                                   (ev_channel_name ev) (ev_mc_text ev) json st in
                let fx := fx ++ map RxFeed ffx in
                if ok
                then (st, fx,
                      if bits =? 1 then local {{ fixed_1bit := fixed_1bit local + 1 }}
                      else local {{ fixed_2bit := fixed_2bit local + 1 }}, fixed_total + 1)
                else (st, fx, local, fixed_total)
        end
  end.

Definition meshcore_crc_recover_scan (channels : option channelset) (regions : list confirmed_region) (st : option store)
  : option store * list rx_effect * crc_recover_stats * Z :=
  let local := mk_crc_stats 0 0 0 0 0 in
  match channels with
  | None => (st, [], local, 0)
  | Some _ =>
      fold_left (crc_recover_row channels regions) (db_sqlite_query_meshcore_crc_fail_rows st) (st, [], local, 0)
  end.

(** ** Region names *)

(** The confirmed regions are state of the scan: the full search adds to them. *)
Definition region_recover_row (channels : option channelset)
    (acc : option store * list confirmed_region * list rx_effect * recover_stats * Z) (c : candidate_row)
  : option store * list confirmed_region * list rx_effect * recover_stats * Z :=
  let '(st, regions, fx, local, updated_total) := acc in
  let local := local {{ rx_total_candidates := rx_total_candidates local + 1 }} in
  match frame_of_hex (cd_raw_hex c) with
  | None => (st, regions, fx, local, updated_total)
  | Some frame =>
      if (length frame <? 4)%nat then (st, regions, fx, local, updated_total)
      else
        let '(rc, mfx) := redecode regions channels c frame in
        let fx := fx ++ map RxDecode (uncaptured mfx) in
        if negb (rc =? 0) then (st, regions, fx, local {{ rx_decode_failed := rx_decode_failed local + 1 }}, updated_total)
        else
          let ev := captured mfx in
          if negb (ev_mc_has_region_scope ev) then (st, regions, fx, local, updated_total)
          else
            let '(ev, regions) :=
              if nonempty (ev_mc_region_name ev) then (ev, regions)
              else match meshcore_packet_parse frame with
                   | Some pkt =>
                       if pk_has_transport_codes pkt
                       then let '(name, regions) := meshcore_region_resolve_full sha256 hmac_sha256 regions
                                  (pk_payload_type pkt) (pk_payload pkt) (pk_transport_code1 pkt) 32 in
                            (match name with Some n => ev {{ ev_mc_region_name := n }} | None => ev end, regions)
                       else (ev, regions)
                   | None => (ev, regions)
                   end in
            if negb (nonempty (ev_mc_region_name ev)) then (st, regions, fx, local, updated_total)
            else
              let '(json, ffx) := row_json c ev in
              let '(st, ok) := db_sqlite_apply_region_recover (done (cd_id c)) (cd_id c) json st in
              let fx := fx ++ map RxFeed ffx in
              if ok then (st, regions, fx, local {{ rx_resolved := rx_resolved local + 1 }}, updated_total + 1)
              else (st, regions, fx, local, updated_total)
  end.

Definition meshcore_region_recover_scan (channels : option channelset) (regions : list confirmed_region)
    (st : option store) : option store * list confirmed_region * list rx_effect * recover_stats * Z :=
  let local := mk_rx_stats 0 0 0 in
  match channels with
  | None => (st, regions, [], local, 0)
  | Some _ =>
      fold_left (region_recover_row channels) (db_sqlite_query_region_scope_rows st) (st, regions, [], local, 0)
  end.

(** ** Telemetry *)

Definition lpp_recover_row (channels : option channelset) (regions : list confirmed_region)
    (acc : option store * list rx_effect * recover_stats * Z) (c : candidate_row)
  : option store * list rx_effect * recover_stats * Z :=
  let '(st, fx, local, updated_total) := acc in
  let local := local {{ rx_total_candidates := rx_total_candidates local + 1 }} in
  let failed := local {{ rx_decode_failed := rx_decode_failed local + 1 }} in
  match frame_of_hex (cd_raw_hex c) with
  | None => (st, fx, failed, updated_total)
  | Some frame =>
      if (length frame <? 4)%nat then (st, fx, failed, updated_total)
      else
        let '(rc, mfx) := redecode regions channels c frame in
        let fx := fx ++ map RxDecode (uncaptured mfx) in
        if negb (rc =? 0) then (st, fx, failed, updated_total)
        else
          let ev := captured mfx in
          if negb (ev_mc_payload_type ev =? MC_PAYLOAD_GRP_DATA) || negb (ev_decrypted ev)
          then (st, fx, local, updated_total)
          else if negb (nonempty (ev_mc_telemetry_json ev)) then (st, fx, local, updated_total)
          else
            let '(json, ffx) := row_json c ev in
            let '(st, ok) := db_sqlite_apply_telemetry_recover (done (cd_id c)) (cd_id c) (ev_mc_telemetry_json ev) json st in
            let fx := fx ++ map RxFeed ffx in
            if ok then (st, fx, local {{ rx_resolved := rx_resolved local + 1 }}, updated_total + 1)
            else (st, fx, local, updated_total)
  end.

Definition meshcore_lpp_recover_scan (channels : option channelset) (regions : list confirmed_region) (st : option store)
  : option store * list rx_effect * recover_stats * Z :=
  let local := mk_rx_stats 0 0 0 in
  match channels with
  | None => (st, [], local, 0)
  | Some _ =>
      fold_left (lpp_recover_row channels regions) (db_sqlite_query_telemetry_candidates st) (st, [], local, 0)
  end.

(** ** Node discovery *)

Definition control_resp_node_id (ev : mesh_event) : Z :=
  let pk (k : nat) := nth k (ev_mc_pubkey ev) 0 in
  Z.lor (Z.lor (Z.lor (u32 (Z.shiftl (pk 0%nat) 24)) (Z.shiftl (pk 1%nat) 16)) (Z.shiftl (pk 2%nat) 8)) (pk 3%nat).

Definition control_recover_row (regions : list confirmed_region)
    (acc : option store * list rx_effect * recover_stats * Z) (c : candidate_row)
  : option store * list rx_effect * recover_stats * Z :=
  let '(st, fx, local, updated_total) := acc in
  let local := local {{ rx_total_candidates := rx_total_candidates local + 1 }} in
  match frame_of_hex (cd_raw_hex c) with
  | None => (st, fx, local, updated_total)
  | Some frame =>
      if (length frame <? 4)%nat then (st, fx, local, updated_total)
      else
        let '(rc, mfx) := redecode regions None c frame in
        let fx := fx ++ map RxDecode (uncaptured mfx) in
        if negb (rc =? 0) then (st, fx, local {{ rx_decode_failed := rx_decode_failed local + 1 }}, updated_total)
        else
          let ev := captured mfx in
          if negb (ev_mc_payload_type ev =? MC_PAYLOAD_CONTROL) || negb (ev_decrypted ev) ||
             negb (nonempty (ev_mc_ctl_subtype ev))
          then (st, fx, local, updated_total)
          else
            let node_id := if strcmp_eq (ev_mc_ctl_subtype ev) NODE_DISCOVER_RESP
                           then Some (node_id_text (control_resp_node_id ev)) else None in
            let '(json, ffx) := row_json c ev in
            let '(st, ok) := db_sqlite_apply_control_recover (done (cd_id c)) (cd_id c) node_id json st in
            let fx := fx ++ map RxFeed ffx in
            if ok then (st, fx, local {{ rx_resolved := rx_resolved local + 1 }}, updated_total + 1)
            else (st, fx, local, updated_total)
  end.

Definition meshcore_control_recover_scan (regions : list confirmed_region) (st : option store)
  : option store * list rx_effect * recover_stats * Z :=
  fold_left (control_recover_row regions) (db_sqlite_query_control_candidates st) (st, [], mk_rx_stats 0 0 0, 0).
End Passes.

(** ** The stored text of a frame *)

Lemma hex_digit_at n : 0 <= n < 16 -> hex_digit n = at_ hex_digits (Z.to_nat n).
Proof.
  intros Hn. assert (H : forallb (fun n => hex_digit (Z.of_nat n) =? at_ hex_digits n) (seq 0 16) = true) by reflexivity.
  rewrite forallb_forall in H. specialize (H (Z.to_nat n) ltac:(apply in_seq; lia)). apply Z.eqb_eq in H.
  by rewrite Z2Nat.id in H by lia.
Qed.

Lemma hex_dump_encode l : bytes_ok l -> forall o max, (o + 2 * length l < max)%nat -> hex_dump l o max = hex_encode l.
Proof.
  induction 1 as [|b l Hb Hl IH]; intros o max Hm; [done|]. cbn [hex_dump]. cbn [length] in Hm.
  destruct (Nat.ltb_spec (o + 2) max); [|lia]. change (hex_encode (b :: l)) with (hex_of_byte b ++ hex_encode l).
  rewrite IH by lia. unfold hex_of_byte. destruct (byte_split b Hb) as (H1 & H2 & _).
  assert (E : Z.land (Z.shiftr b 4) 0xF = Z.shiftr b 4) by (change 0xF with (Z.ones 4); rewrite Z.land_ones, Z.mod_small by (done || lia); done).
  by rewrite E, !hex_digit_at.
Qed.

Lemma hex_encode_chars l : bytes_ok l -> Forall (fun c => 0 < c) (hex_encode l).
Proof.
  assert (H : forall n, 0 <= n < 16 -> 0 < at_ hex_digits (Z.to_nat n)).
  { intros n Hn. rewrite <- hex_digit_at by done. unfold hex_digit. case_if; lia. }
  induction 1 as [|b l Hb _ IH]; [constructor|]. change (hex_encode (b :: l)) with (hex_of_byte b ++ hex_encode l).
  apply Forall_app. split; [|done]. destruct (byte_split b Hb) as (H1 & H2 & _). unfold hex_of_byte.
  repeat constructor; by apply H.
Qed.

Lemma until_nul_id s : Forall (fun c => 0 < c) s -> until_nul s = s.
Proof. induction 1 as [|c s Hc _ IH]; [done|]. cbn. destruct (Z.eqb_spec c 0); [lia|]. by rewrite IH. Qed.

(** What a live decode leaves in the event's raw_hex. *)
Definition stored_hex (frame : list Z) : list Z := hex_dump (take 256 frame) 0 513.

Lemma frame_of_stored frame : bytes_ok frame -> (0 < length frame <= 256)%nat ->
  bind_str (stored_hex frame) = Some (stored_hex frame) /\ copy_to 513 (stored_hex frame) = stored_hex frame /\
  nonempty (stored_hex frame) = true /\ cstr (stored_hex frame) = stored_hex frame /\
  frame_of_hex (stored_hex frame) = Some frame.
Proof.
  intros Hb Hl. unfold stored_hex. rewrite take_ge by lia. rewrite hex_dump_encode by (done || lia).
  pose proof (hex_encode_chars frame Hb) as Hc. pose proof (hex_encode_length frame) as Hn.
  assert (Hne : nonempty (hex_encode frame) = true).
  { unfold nonempty, nz. destruct (hex_encode frame) as [|c t]; [cbn in Hn; lia|]. apply Forall_cons in Hc as [Hc _].
    cbn. by destruct (Z.eqb_spec c 0); [lia|]. }
  assert (Hu : cstr (hex_encode frame) = hex_encode frame) by by apply until_nul_id.
  split_and!; [unfold bind_str; by rewrite Hne, Hu|apply copy_to_short; lia|done|done|].
  unfold frame_of_hex. rewrite Hn, (Nat.mul_comm 2), Nat.Div0.mod_mul. cbn [Nat.eqb negb].
  rewrite take_ge by lia. by apply hex_pairs_encode.
Qed.

Lemma frame_of_hex_bytes hex frame : frame_of_hex hex = Some frame -> bytes_ok frame.
Proof. unfold frame_of_hex. case_if; [done|]. by apply (hex_pairs_bytes _ _ _ (le_n _)). Qed.

(** ** A float through a REAL column *)

Lemma round_exact s m e : Zpos (digits2_pos m) <= 24 -> -149 <= e <= 104 -> Z.max (Zpos (digits2_pos m) + e - 24) (-149) = e ->
  binary_round 24 128 s m e = S754_finite s m e.
Proof.
  intros Hd He Hf. assert (Hx : fexp 24 128 (Zpos (digits2_pos m) + e) - e = 0).
  { unfold fexp, SpecFloat.emin. change (3 - 128 - 24) with (-149). lia. }
  unfold binary_round, shl_align. rewrite Hx. unfold binary_round_aux.
  assert (Hs : shr_fexp 24 128 (Zpos m) e loc_Exact = (shr_record_of_loc (Zpos m) loc_Exact, e)).
  { unfold shr_fexp. cbn [Zdigits2]. by rewrite Hx. }
  rewrite Hs. cbn [shr_record_of_loc shr_m loc_of_shr_record round_nearest_even]. rewrite Hs. cbn [shr_record_of_loc shr_m].
  destruct (Z.leb_spec e (128 - 24)); [done|lia].
Qed.

(** A pattern that is neither a NaN nor a negative zero. *)
Definition plain_f32 (p : Z) : Prop := 0 <= p < 2 ^ 32 /\ p <> 2 ^ 31 /\ f32_of_bits p <> S754_nan.

Lemma pattern_split p : 0 <= p < 2 ^ 32 ->
  p = (if Z.testbit p 31 then 2 ^ 31 else 0) + Z.land (Z.shiftr p 23) 0xff * 2 ^ 23 + Z.land p 0x7fffff /\
  0 <= Z.land (Z.shiftr p 23) 0xff < 256 /\ 0 <= Z.land p 0x7fffff < 2 ^ 23.
Proof.
  intros Hp. change 0xff with (Z.ones 8). change 0x7fffff with (Z.ones 23). rewrite !Z.land_ones, Z.shiftr_div_pow2 by lia.
  pose proof (Z.mod_pos_bound (p / 2 ^ 23) (2 ^ 8)). pose proof (Z.mod_pos_bound p (2 ^ 23)).
  split; [|lia]. pose proof (Z.div_mod p (2 ^ 23)). pose proof (Z.div_mod (p / 2 ^ 23) (2 ^ 8)).
  rewrite Z.div_div in * by lia. change (2 ^ 23 * 2 ^ 8) with (2 ^ 31) in *.
  assert (E : p / 2 ^ 31 = if Z.testbit p 31 then 1 else 0).
  { rewrite <- Z.shiftr_div_pow2 by lia. rewrite Z.testbit_odd. assert (0 <= Z.shiftr p 31 < 2).
    { rewrite Z.shiftr_div_pow2 by lia. split; [apply Z.div_pos; lia|apply Z.div_lt_upper_bound; lia]. }
    assert (Z.shiftr p 31 = 0 \/ Z.shiftr p 31 = 1) as [->| ->] by lia; done. }
  destruct (Z.testbit p 31); rewrite E in *; lia.
Qed.

Lemma f32_bits_of p : 0 <= p < 2 ^ 32 -> f32_of_bits p <> S754_nan -> row_f32 (f32_of_bits p) = p.
Proof.
  intros Hp Hn. destruct (pattern_split p Hp) as (E & He & Hm). unfold row_f32, f32_of_bits in *.
  set (s := Z.testbit p 31) in *. set (e := Z.land (Z.shiftr p 23) 0xff) in *. set (m := Z.land p 0x7fffff) in *.
  clearbody s e m. destruct (Z.eqb_spec e 255) as [->|He'].
  { destruct (Z.eqb_spec m 0) as [Em|]; [|done]. cbn. rewrite E, Em. by destruct s. }
  destruct (if e =? 0 then m else m + 0x800000) as [|q|q] eqn:Eq.
  - destruct (Z.eqb_spec e 0) as [->|]; [|lia]. rewrite Eq in E. cbn. rewrite E. by destruct s.
  - assert (Hr : binary_round 24 128 s q ((if e =? 0 then 1 else e) - 150) = S754_finite s q ((if e =? 0 then 1 else e) - 150)).
    { assert (Hd : Z.log2 (Zpos q) < 24) by (apply Z.log2_lt_pow2; [lia|]; destruct (Z.eqb_spec e 0); lia).
      apply round_exact; rewrite ?digits_log2; destruct (Z.eqb_spec e 0); try lia.
      assert (23 <= Z.log2 (Zpos q)) by (apply Z.log2_le_pow2; lia). lia. }
    cbn [f32_of_f64]. unfold binary_normalize. destruct s; rewrite Hr; cbn [f32_bits];
      (destruct (Z.eqb_spec e 0) as [->|]; destruct (Z.ltb_spec (Zpos q) (2 ^ 23)); lia).
  - destruct (Z.eqb_spec e 0); lia.
Qed.

Lemma bind_f32_read p : plain_f32 p -> row_f32 (default f_zero (bind_f32 p)) = p.
Proof.
  intros (Hp & Hz & Hn). unfold bind_f32, f32_nz. destruct (Z.eqb_spec (Z.land p 0x7fffffff) 0) as [E|E]; cbn [negb].
  - change 0x7fffffff with (Z.ones 31) in E. rewrite Z.land_ones in E by lia. pose proof (Z.div_mod p (2 ^ 31) ltac:(lia)).
    assert (0 <= p / 2 ^ 31 < 2) by (split; [apply Z.div_pos; lia|apply Z.div_lt_upper_bound; lia]).
    assert (p = 0) as -> by lia. reflexivity.
  - unfold bind_double, f64_of_f32. pose proof (f32_bits_of p Hp Hn) as H. by destruct (f32_of_bits p).
Qed.

(** ** The passes, row by row *)

Section PassFacts.
Context (verify : list Z -> list Z -> list Z -> bool) (hmac aes_dec : list Z -> list Z -> option (list Z)).
Context (tv : Z * Z) (done : Z -> bool) (channels : option channelset) (regions : list confirmed_region).

Let redecode_ := redecode verify hmac aes_dec regions channels.
Let json_ (c : candidate_row) (ev : mesh_event) : list Z := fst (row_json tv c ev).

(** The assignment re-decryption makes to the row of a candidate. *)
Definition redecrypt_upd (c : candidate_row) : option (event_row -> event_row) :=
  match snd (redecrypt_event hmac aes_dec channels regions c) with
  | Some ev =>
      if done (cd_id c)
      then Some (fun r => r {{ er_decrypted := Some 1; er_channel_name := bind_str (ev_channel_name ev);
                               er_text := bind_str (ev_mc_text ev); er_json := bind_json (json_ c ev) }})
      else None
  | None => None
  end.

Definition with_events (s : store) (rows : list event_row) : store := mk_store rows (st_next_id s) (st_nodes s).

Lemma redecrypt_fold cands : forall s fx n, exists fx' n',
  fold_left (redecrypt_row hmac aes_dec tv done channels regions) cands (Some s, fx, n) =
  (Some (with_events s (apply_all redecrypt_upd cands (st_events s))), fx', n').
Proof.
  induction cands as [|c cands IH]; intros s fx n; [eexists _, _; by destruct s|].
  cbn [fold_left]. change (apply_all redecrypt_upd (c :: cands) (st_events s)) with
    (apply_all redecrypt_upd cands (match redecrypt_upd c with Some f => set_row (cd_id c) f (st_events s) | None => st_events s end)).
  unfold redecrypt_row at 2, redecrypt_upd at 2. destruct (redecrypt_event _ _ _ _ c) as [mfx [ev|]]; cbn [snd]; [|apply IH].
  unfold json_. destruct (row_json tv c ev) as [json ffx]. cbn [fst]. unfold db_sqlite_apply_redecrypt, update_row.
  destruct (done (cd_id c)); [|apply IH].
  destruct (IH (with_events s (set_row (cd_id c) (fun r => r {{ er_decrypted := Some 1; er_channel_name := bind_str (ev_channel_name ev);
     er_text := bind_str (ev_mc_text ev); er_json := bind_json json }}) (st_events s)))
    (fx ++ map RxDecode mfx ++ map RxFeed ffx) (if existsb (fun r => er_id r =? cd_id c) (st_events s) then n + 1 else n)) as (fx' & n' & E).
  exists fx', n'. rewrite app_assoc in E. exact E.
Qed.

Lemma redecrypt_keeps c f : redecrypt_upd c = Some f -> keeps_id f.
Proof.
  unfold redecrypt_upd. destruct (snd _) as [ev|]; [|done]. destruct (done _); [|done]. by intros [= <-] r.
Qed.

(** Re-decryption changes the store row by row. *)
Lemma redecrypt_pointwise h s : NoDup (map er_id (st_events s)) -> channels <> None -> exists fx n,
  meshcore_redecrypt_channel hmac aes_dec tv done h channels regions (Some s) =
  (Some (with_events s (map (rewritten (undecrypted_where h) redecrypt_upd) (st_events s))), fx, n).
Proof.
  intros Hn Hc. unfold meshcore_redecrypt_channel. destruct channels as [cs|] eqn:Ec; [|done]. rewrite <- Ec.
  destruct (redecrypt_fold (db_sqlite_query_undecrypted_channel_rows (Some s) h) s [] 0) as (fx & n & E).
  exists fx, n. rewrite E. do 3 f_equal. unfold with_events. f_equal. apply (pass_pointwise (undecrypted_where h)); [|done]. apply redecrypt_keeps.
Qed.

(** The event the live receiver would deliver for a stored frame. *)
Definition live_decode (frame : list Z) (rssi_db snr_db sf cr bw_hz : Z) : option mesh_event :=
  let '(rc, fx) := meshcore_packet_decode_with_radio verify hmac aes_dec frame rssi_db snr_db sf cr bw_hz regions channels true in
  if rc =? 0 then Some (captured fx) else None.
Definition live_event (c : candidate_row) (frame : list Z) : option mesh_event :=
  live_decode frame (row_f32 (cd_rssi_db c)) (row_f32 (cd_snr_db c)) (cd_sf c) (cd_cr c) (cd_bw_hz c).

Lemma captured_event (enq rest : list mc_effect) ev :
  (forall e, ~ In (McEvent e) rest) -> captured (enq ++ McEvent ev :: rest) = ev.
Proof.
  intros Hr. unfold captured. rewrite fold_left_app. cbn [fold_left]. generalize ev as e0. induction rest as [|f rest IH]; [done|].
  intros e0. cbn [fold_left]. destruct f as [e|?|?]; [destruct (Hr e); by left| |]; apply IH; intros e He; apply (Hr e); by right.
Qed.

Lemma redecode_event c frame pkt : meshcore_packet_parse frame = Some pkt ->
  let region := if pk_has_transport_codes pkt
                then meshcore_region_resolve_fast hmac regions (pk_payload_type pkt) (pk_payload pkt) (pk_transport_code1 pkt) 32
                else None in
  live_event c frame =
  mc_dispatch verify hmac aes_dec pkt channels
    (mc_base_event pkt frame (row_f32 (cd_rssi_db c)) (row_f32 (cd_snr_db c)) (cd_sf c) (cd_cr c) (cd_bw_hz c) region).
Proof.
  intros Ep region. unfold live_event, live_decode, meshcore_packet_decode_with_radio. rewrite Ep. fold region. cbn zeta.
  destruct (mc_dispatch _ _ _ _ _ _) as [ev|]; [|done]. cbn [Z.eqb]. f_equal. cbn [app]. apply captured_event.
  intros e He. destruct (_ && _); [|done]. destruct He as [He|[]]. discriminate He.
Qed.

Definition grp_packet (pkt : meshcore_packet) : Prop :=
  pk_payload_type pkt = MC_PAYLOAD_GRP_TXT \/ pk_payload_type pkt = MC_PAYLOAD_GRP_DATA.

(** Re-decryption rebuilds exactly that event. *)
Lemma redecrypt_event_live c frame pkt :
  frame <> [] -> frame_of_hex (cd_raw_hex c) = Some frame -> cd_raw_hex c = stored_hex frame ->
  copy_to 513 (stored_hex frame) = stored_hex frame ->
  meshcore_packet_parse frame = Some pkt -> grp_packet pkt ->
  snd (redecrypt_event hmac aes_dec channels regions c) =
  match live_event c frame with Some ev => if ev_decrypted ev then Some ev else None | None => None end.
Proof.
  intros Hne Hf Hr Hc Ep Hg. rewrite (redecode_event c frame pkt Ep). unfold redecrypt_event. rewrite Hf, Ep, Hr, Hc.
  destruct frame as [|b frame]; [done|]. set (region := if pk_has_transport_codes pkt then _ else None).
  set (ev0 := mc_base_event pkt _ _ _ _ _ _ region).
  assert (E0 : ev0 {{ ev_raw_hex := stored_hex (b :: frame) }} = ev0).
  { unfold ev0, mc_base_event. by destruct (pk_has_transport_codes pkt). }
  destruct Hg as [Ht|Ht]; rewrite Ht; cbn [Z.eqb Pos.eqb negb andb MC_PAYLOAD_GRP_TXT MC_PAYLOAD_GRP_DATA snd];
    rewrite E0; unfold mc_dispatch; rewrite Ht; reflexivity.
Qed.

Lemma grp_event_meshcore pkt ev0 ev : grp_packet pkt -> mc_dispatch verify hmac aes_dec pkt channels ev0 = Some ev ->
  ev_is_meshcore ev = ev_is_meshcore ev0.
Proof.
  intros [Ht|Ht]; unfold mc_dispatch; rewrite Ht; cbn [Z.eqb Pos.eqb MC_PAYLOAD_ADVERT MC_PAYLOAD_TRACE MC_PAYLOAD_GRP_TXT MC_PAYLOAD_GRP_DATA].
  - unfold meshcore_decode_grp_txt. destruct (grp_decrypt _ _ _ _) as [[i pl]|]; [|by intros [= <-]].
    destruct (_ <? _)%nat; [done|]. destruct (nz _); [done|]. by intros [= <-].
  - unfold meshcore_decode_grp_data. destruct (grp_decrypt _ _ _ _) as [[i pl]|]; [|by intros [= <-]].
    destruct (_ <? _)%nat; [done|]. destruct (meshcore_lpp_decode _ _); by intros [= <-].
Qed.

Lemma base_meshcore pkt frame rssi snr sf cr bw region : ev_is_meshcore (mc_base_event pkt frame rssi snr sf cr bw region) = true.
Proof. unfold mc_base_event. by destruct (pk_has_transport_codes pkt). Qed.

(** The row of an event that was not decrypted is a candidate, with the
    event's own radio values. *)
Lemma stored_candidate id now ev line frame :
  bytes_ok frame -> (0 < length frame <= 256)%nat -> ev_raw_hex ev = stored_hex frame ->
  plain_f32 (ev_rssi_db ev) -> plain_f32 (ev_snr_db ev) -> 0 < ev_sf ev ->
  exists c, fetch_row (event_columns id now ev line) = Some c /\ cd_id c = id /\ cd_raw_hex c = stored_hex frame /\
    frame_of_hex (cd_raw_hex c) = Some frame /\
    live_event c frame = live_decode frame (ev_rssi_db ev) (ev_snr_db ev) (ev_sf ev) (ev_cr ev) (ev_bw_hz ev).
Proof.
  intros Hb Hl Hr H1 H2 H3. destruct (frame_of_stored frame Hb Hl) as (E1 & E2 & E3 & E4 & E5).
  unfold fetch_row, event_columns. cbn [er_raw_hex er_id er_ts er_sf er_cr er_bw_hz er_rssi_db er_snr_db]. rewrite Hr, E1, E3, E4, E2.
  rewrite (proj2 (Z.ltb_lt 0 (ev_sf ev)) H3). eexists. split; [reflexivity|]. cbn [cd_id cd_raw_hex]. split_and!; [done|done|done|].
  unfold live_event. cbn [cd_rssi_db cd_snr_db cd_sf cd_cr cd_bw_hz default]. by rewrite !bind_f32_read.
Qed.

Lemma stored_undecrypted id now ev line frame pkt :
  bytes_ok frame -> (0 < length frame <= 256)%nat -> ev_raw_hex ev = stored_hex frame ->
  ev_is_meshcore ev = true -> ev_decrypted ev = false -> ev_mc_payload_type ev = pk_payload_type pkt -> grp_packet pkt ->
  ev_mc_channel_hash ev <> 0 ->
  undecrypted_where (ev_mc_channel_hash ev) (event_columns id now ev line) = true.
Proof.
  intros Hb Hl Hr Hm Hd Ht Hg Hh. destruct (frame_of_stored frame Hb Hl) as (E1 & _).
  unfold undecrypted_where, event_columns, is_meshcore_row.
  cbn [er_raw_hex er_protocol er_channel_hash er_decrypted er_payload_type]. rewrite Hm, Hd, Hr, E1, Ht.
  unfold nz. rewrite (proj2 (Z.eqb_neq _ _) Hh). cbn [negb andb col_is bool_col col_set]. rewrite Z.eqb_refl, list_eqb_refl.
  destruct Hg as [-> | ->]; reflexivity.
Qed.


(** ** Checksum recovery *)

(** The event of a repaired frame, as it is judged and stored. *)
Definition repaired_event (bits : Z) (ev : mesh_event) : mesh_event :=
  ev {{ ev_has_crc := true; ev_payload_crc_ok := true; ev_crc_corrected := true; ev_crc_corrected_bits := bits }}.

Definition crc_upd (c : candidate_row) : option (event_row -> event_row) :=
  match frame_of_hex (cd_raw_hex c) with
  | None => None
  | Some frame =>
      if (length frame <? 4)%nat then None
      else
        match crc_repair frame with
        | None => None
        | Some (bits, fixed) =>
            match live_event c fixed with
            | None => None
            | Some ev =>
                let ev := repaired_event bits ev in
                if repair_trusted bits ev && done (cd_id c)
                then Some (fun r => r {{ er_crc_ok := Some 1; er_crc_corrected := Some 1; er_crc_corrected_bits := Some bits;
                                         er_decrypted := bool_col (ev_decrypted ev);
                                         er_channel_name := bind_str (ev_channel_name ev);
                                         er_text := bind_str (ev_mc_text ev); er_json := bind_json (json_ c ev) }})
                else None
            end
        end
  end.

Lemma crc_row_store c s fx l n : exists fx' l' n',
  crc_recover_row verify hmac aes_dec tv done channels regions (Some s, fx, l, n) c =
  (Some (with_events s (match crc_upd c with Some f => set_row (cd_id c) f (st_events s) | None => st_events s end)), fx', l', n') /\
  (n = fixed_1bit l + fixed_2bit l -> n' = fixed_1bit l' + fixed_2bit l').
Proof.
  unfold crc_recover_row, crc_upd. destruct (frame_of_hex _) as [frame|]; [|by eexists _, _, _; split; destruct s].
  destruct (_ <? 4)%nat; [by eexists _, _, _; split; destruct s|].
  destruct (crc_repair frame) as [[bits fixed]|]; [|by eexists _, _, _; split; destruct s].
  unfold live_event, live_decode. unfold redecode. destruct (meshcore_packet_decode_with_radio _ _ _ _ _ _ _ _ _ _ _ _) as [rc mfx].
  destruct (rc =? 0); cbn [negb]; [|by eexists _, _, _; split; destruct s].
  fold (repaired_event bits (captured mfx)). set (ev := repaired_event bits (captured mfx)).
  destruct (repair_trusted bits ev); cbn [negb andb]; [|by eexists _, _, _; split; destruct s].
  unfold json_. destruct (row_json tv c ev) as [json ffx]. cbn [fst]. unfold db_sqlite_apply_crc_recover, update_row.
  destruct (done (cd_id c)); [|by eexists _, _, _; split; destruct s].
  destruct (existsb _ _); [|eexists _, _, _; split; [reflexivity|done]].
  eexists _, _, _. split; [reflexivity|]. intros ->. destruct (bits =? 1); rcbn; lia.
Qed.

Lemma crc_fold cands : forall s fx l n, n = fixed_1bit l + fixed_2bit l -> exists fx' l' n',
  fold_left (crc_recover_row verify hmac aes_dec tv done channels regions) cands (Some s, fx, l, n) =
  (Some (with_events s (apply_all crc_upd cands (st_events s))), fx', l', n') /\ n' = fixed_1bit l' + fixed_2bit l'.
Proof.
  induction cands as [|c cands IH]; intros s fx l n Hn; [eexists _, _, _; by destruct s|]. cbn [fold_left].
  destruct (crc_row_store c s fx l n) as (fx1 & l1 & n1 & E & Hn1). rewrite E.
  destruct (IH (with_events s (match crc_upd c with Some f => set_row (cd_id c) f (st_events s) | None => st_events s end))
    fx1 l1 n1 (Hn1 Hn)) as (fx2 & l2 & n2 & E2 & Hn2). exists fx2, l2, n2. split; [exact E2|done].
Qed.

Lemma crc_keeps c f : crc_upd c = Some f -> keeps_id f.
Proof.
  unfold crc_upd. destruct (frame_of_hex _); [|done]. destruct (_ <? _)%nat; [done|]. destruct (crc_repair _) as [[bits fixed]|]; [|done].
  destruct (live_event c fixed); [|done]. cbn zeta. destruct (_ && _); [|done]. by intros [= <-] r.
Qed.

(** A repair flips one bit, or two when no single flip helps. *)
Lemma crc_repair_flips frame bits fixed : bytes_ok frame -> (4 <= length frame)%nat -> crc_repair frame = Some (bits, fixed) ->
  bytes_ok fixed /\
  ((bits = 1 /\ exists i, fixed = flip_bit frame i) \/ (bits = 2 /\ exists i j, fixed = flip_bit (flip_bit frame i) j)).
Proof.
  intros Hb Hl. unfold crc_repair. rewrite crc_bruteforce_is_search by done. destruct (crc_fix1 frame) as [i|].
  - intros [= <- <-]. split; [by apply flip_bit_bytes|]. left. eauto.
  - unfold lora_crc_bruteforce_correct_2bit. destruct (_ <? 4)%nat; [done|]. cbn zeta. destruct (_ =? 0); [done|].
    destruct (find_pair _ _ _ _) as [[i j]|]; [|done]. intros [= <- <-]. split; [by do 2 apply flip_bit_bytes|]. right. eauto.
Qed.

(** What a trusted repair is worth. *)
Lemma repair_vouched c fixed bits ev :
  bytes_ok fixed -> bits = 1 \/ bits = 2 -> live_event c fixed = Some ev -> repair_trusted bits (repaired_event bits ev) = true ->
  exists pkt, meshcore_packet_parse fixed = Some pkt /\
    (authenticated verify hmac channels fixed \/
     (bits = 1 /\ pk_payload_type pkt <> MC_PAYLOAD_GRP_TXT /\ pk_payload_type pkt <> MC_PAYLOAD_GRP_DATA /\
      pk_payload_type pkt <> MC_PAYLOAD_ADVERT)).
Proof.
  intros Hb Hbits He Ht. destruct (meshcore_packet_parse fixed) as [pkt|] eqn:Ep.
  2: { unfold live_event, live_decode, meshcore_packet_decode_with_radio in He. by rewrite Ep in He. }
  exists pkt. split; [done|]. rewrite (redecode_event c fixed pkt Ep) in He.
  set (ev0 := mc_base_event _ _ _ _ _ _ _ _) in He.
  assert (Ht0 : ev_mc_payload_type ev0 = pk_payload_type pkt) by (unfold ev0, mc_base_event; by destruct (pk_has_transport_codes pkt)).
  destruct (dispatch_trust verify hmac aes_dec pkt channels ev0 ev (parse_payload_bytes _ _ Hb Ep) Ht0 He) as [Hty Htr].
  unfold repair_trusted in Ht. apply orb_prop in Ht as [Ht|Ht].
  - right. apply negb_true_iff, orb_false_elim in Ht as [H2 H1]. zb. assert (bits = 1) as -> by lia. split; [done|].
    change (authable (repaired_event 1 ev)) with (authable ev) in H1. cbn [Z.eqb Pos.eqb andb] in H1.
    unfold authable in H1. rewrite Hty in H1. by zb.
  - left. exists pkt. split; [done|]. by apply Htr.
Qed.

(** C14: recovering checksums never lets an unauthenticated message in.
    Whatever the store holds and whatever the channel keys, after the scan
    every row is either untouched, or it was stored with a failed checksum and
    its stored frame, with one or two bits flipped, decodes; and then the
    repaired frame is authenticated by a channel's MAC or an advert's
    signature, unless a single bit was flipped and its type carries no
    authentication at all.  The number returned is the number of one-bit plus
    two-bit repairs. *)
Theorem crc_recovery_authenticated s :
  channels <> None -> NoDup (map er_id (st_events s)) ->
  exists s2 fx stats n,
    meshcore_crc_recover_scan verify hmac aes_dec tv done channels regions (Some s) = (Some s2, fx, stats, n) /\
    n = fixed_1bit stats + fixed_2bit stats /\
    forall i r, st_events s !! i = Some r -> exists r', st_events s2 !! i = Some r' /\
      (r' = r \/
       exists hex frame bits fixed pkt,
         er_crc_ok r = Some 0 /\ er_raw_hex r = Some hex /\ frame_of_hex (copy_to 513 (cstr hex)) = Some frame /\
         ((bits = 1 /\ exists k, fixed = flip_bit frame k) \/ (bits = 2 /\ exists k l, fixed = flip_bit (flip_bit frame k) l)) /\
         er_crc_ok r' = Some 1 /\ er_crc_corrected_bits r' = Some bits /\ er_raw_hex r' = er_raw_hex r /\
         meshcore_packet_parse fixed = Some pkt /\
         (authenticated verify hmac channels fixed \/
          (bits = 1 /\ pk_payload_type pkt <> MC_PAYLOAD_GRP_TXT /\ pk_payload_type pkt <> MC_PAYLOAD_GRP_DATA /\
           pk_payload_type pkt <> MC_PAYLOAD_ADVERT))).
Proof.
  intros Hc Hn. unfold meshcore_crc_recover_scan. destruct channels as [cs|] eqn:Ec; [|done]. rewrite <- Ec.
  destruct (crc_fold (db_sqlite_query_meshcore_crc_fail_rows (Some s)) s [] (mk_crc_stats 0 0 0 0 0) 0 eq_refl) as (fx & l & n & E & Hcount).
  eexists _, fx, l, n. split; [exact E|]. split; [done|]. intros i r Hi. unfold db_sqlite_query_meshcore_crc_fail_rows.
  cbn [st_events with_events]. rewrite (pass_pointwise crc_fail_where) by (done || apply crc_keeps).
  rewrite list_lookup_fmap, Hi. eexists. split; [reflexivity|]. cbn beta. unfold rewritten.
  destruct (crc_fail_where r) eqn:Ew; [|by left]. destruct (fetch_row r) as [c|] eqn:Ef; [|by left].
  destruct (crc_upd c) as [f|] eqn:Eu; [|by left]. right. unfold fetch_row in Ef.
  destruct (er_raw_hex r) as [hex|] eqn:Eh; [|done]. destruct (nonempty hex); [|done]. injection Ef as <-.
  set (c := mk_candidate _ _ _ _ _ _ _ _) in *. unfold crc_upd in Eu. change (cd_raw_hex c) with (copy_to 513 (cstr hex)) in Eu.
  destruct (frame_of_hex (copy_to 513 (cstr hex))) as [frame|] eqn:Efr; [|done].
  destruct (Nat.ltb_spec (length frame) 4); [done|]. destruct (crc_repair frame) as [[bits fixed]|] eqn:Er; [|done].
  destruct (crc_repair_flips frame bits fixed (frame_of_hex_bytes _ _ Efr) ltac:(lia) Er) as [Hb Hf].
  destruct (live_event c fixed) as [ev|] eqn:Ee; [|done]. cbn zeta in Eu.
  destruct (repair_trusted bits (repaired_event bits ev)) eqn:Et; [|done]. cbn [andb] in Eu. destruct (done (cd_id c)); [|done].
  injection Eu as <-. destruct (repair_vouched c fixed bits ev Hb ltac:(tauto) Ee Et) as (pkt & Hp & Hv). rewrite Ec in Hv.
  assert (Hcrc : er_crc_ok r = Some 0).
  { unfold crc_fail_where in Ew. apply andb_prop in Ew as [Ew _]. apply andb_prop in Ew as [_ Ew]. unfold col_is in Ew.
    destruct (er_crc_ok r); [|done]. zb. by subst. }
  exists hex, frame, bits, fixed, pkt. rcbn. rewrite Ec. split_and!; try done.
Qed.

(** Decrypting a channel's rows again a second time changes nothing more. *)
Theorem redecrypt_settles h s : NoDup (map er_id (st_events s)) -> channels <> None ->
  let run st := fst (fst (meshcore_redecrypt_channel hmac aes_dec tv done h channels regions st)) in
  run (run (Some s)) = run (Some s).
Proof.
  intros Hn Hc run. unfold run. destruct (redecrypt_pointwise h s Hn Hc) as (fx & n & E). rewrite E. cbn [fst].
  set (g := rewritten (undecrypted_where h) redecrypt_upd).
  assert (Hn' : NoDup (map er_id (st_events (with_events s (map g (st_events s)))))).
  { cbn [st_events with_events]. rewrite map_map. erewrite map_ext; [exact Hn|]. intros r. apply rewritten_id, redecrypt_keeps. }
  destruct (redecrypt_pointwise h _ Hn' Hc) as (fx2 & n2 & E2). rewrite E2. cbn [fst]. unfold with_events. cbn [st_events st_next_id st_nodes].
  do 2 f_equal. rewrite map_map. apply map_ext. intros r. fold g. unfold g, rewritten.
  destruct (undecrypted_where h r) eqn:Ew; [|by rewrite Ew]. destruct (fetch_row r) as [c|] eqn:Ef; [|by rewrite Ew, Ef].
  destruct (redecrypt_upd c) as [f|] eqn:Eu; [|by rewrite Ew, Ef, Eu].
  replace (undecrypted_where h (f r)) with false; [done|]. unfold redecrypt_upd in Eu. destruct (snd _) as [ev|]; [|done].
  destruct (done _); [|done]. injection Eu as <-. unfold undecrypted_where. rcbn. cbn [col_is Z.eqb]. by rewrite andb_false_r.
Qed.
End PassFacts.

(** A row of a channel whose hash is zero is never selected: the hash is
    stored as NULL. *)
Theorem zero_hash_never_redecrypted h id now ev line :
  ev_mc_channel_hash ev = 0 -> undecrypted_where h (event_columns id now ev line) = false.
Proof.
  intros Hh. unfold undecrypted_where, event_columns. cbn [er_channel_hash]. rewrite Hh. cbn [nz Z.eqb negb].
  rewrite andb_false_r. cbn [col_is]. by rewrite andb_false_r.
Qed.

(** ** Instances *)

(** A message stored before its channel was known, at -100 dBm and -8 dB. *)
Definition late_event : mesh_event :=
  default event_zero (live_decode (fun _ _ _ => false) toy_tag (fun k m => Some (toy_cipher k m)) (Some []) []
    (enc_packet toy_packet) 0xC2C80000 0xC1000000 8 1 62500).


(** An acknowledgement whose last two bytes happen to be a checksum of the
    others, stored with one bit wrong. *)
Definition ack_frame : list Z :=
  let f := [MC_PAYLOAD_ACK * 4 + 1; 0; 1; 2; 3; 4] in
  let w := want_crc (f ++ [0; 0]) 6 in f ++ [u8 w; u8 (Z.shiftr w 8)].
Definition ack_row : event_row :=
  (event_columns 1 (1700000100, 0) event_zero (str "{}"))
    {{ er_protocol := str "meshcore"; er_crc_ok := Some 0; er_raw_hex := Some (stored_hex (flip_bit ack_frame 20)) }}.

Lemma crc_recovery_authenticated_witness :
  exists s2 stats r, meshcore_crc_recover_scan (fun _ _ _ => false) toy_tag (fun k m => Some (toy_cipher k m)) (0, 0) (fun _ => true)
      (Some toy_channels) [] (Some (mk_store [ack_row] 2 [])) = (Some s2, [], stats, fixed_1bit stats + fixed_2bit stats) /\
    st_events s2 !! O = Some r /\ er_crc_ok r = Some 1.
Proof.
  destruct (crc_recovery_authenticated (fun _ _ _ => false) toy_tag (fun k m => Some (toy_cipher k m)) (0, 0) (fun _ => true)
    (Some toy_channels) [] (mk_store [ack_row] 2 [])) as (s2 & fx & stats & n & E & Hn & Hr).
  - discriminate.
  - apply NoDup_singleton.
  - exists s2, stats. destruct (Hr O ack_row eq_refl) as (r & Er & _). exists r. rewrite <- Hn. revert E Er. vm_compute.
    intros [= <- <- <- <-] [= <-]. done.
Defined.

(** raw_hex holds the payload without its checksum, so a recovery pass over it
    reads the last two payload bytes as the checksum: a one-bit error that the
    live receiver repairs with the checksum in hand is not found in the stored
    row, which the pass leaves as failed. *)
Definition sent_payload : list Z := [MC_PAYLOAD_ACK * 4 + 1; 0; 1; 2; 3; 4; 5; 6; 7; 8].
Definition sent_bytes : list Z :=
  let w := want_crc (sent_payload ++ [0; 0]) 10 in sent_payload ++ [u8 w; u8 (Z.shiftr w 8)].
Definition failed_row : event_row :=
  (event_columns 1 (1700000100, 0) event_zero (str "{}"))
    {{ er_protocol := str "meshcore"; er_crc_ok := Some 0;
       er_raw_hex := Some (stored_hex (take 10 (flip_bit sent_bytes 20))) }}.

Theorem crc_recover_misses_repairable_error :
  lora_crc_bruteforce_correct (flip_bit sent_bytes 20) = (true, sent_bytes) /\
  fst (fst (fst (meshcore_crc_recover_scan (fun _ _ _ => false) toy_tag (fun k m => Some (toy_cipher k m)) (0, 0) (fun _ => true)
    (Some toy_channels) [] (Some (mk_store [failed_row] 2 []))))) = Some (mk_store [failed_row] 2 []).
Proof. vm_compute. done. Qed.
